(* ===== verification/_CoqProject ===== *)
-Q . S2P
Prelude.v
ElaError.v
ToxErrors.v
ElaCP.v
Fifo.v
SeqArith.v
PseudoTcp.v
PseudoTcpProps.v
PseudoTcpRecv.v
PseudoTcpSend.v
PseudoTcpEnd.v
PseudoTcpPair.v
Carrier.v
Sample.v
CarrierProps.v
Invite.v
Persistence.v
InviteProps.v
InviteReply.v
InviteSafety.v
NodeInv.v
PersistenceProps.v
FlexBuffer.v
Multiplex.v
MultiplexProps.v
MultiplexStream.v
MultiplexInv.v
CryptoHandler.v
MuxSample.v
Session.v
SessionDispatch.v
SessionProps.v
SessionKeys.v
SessionRequest.v
IceStream.v
IceStreamProps.v
Link.v
LinkSample.v
CText.v
Sdp.v
SdpProps.v
SessionSample.v
ReliableHandler.v
ReliableProps.v
ReliableSample.v
ToxDht.v
ToxNode.v
Groups.v
GroupProps.v
GroupTalk.v
TurnServer.v
NodeRun.v
NodeRunProps.v
ToxSample.v
FileTransfer.v
FileTransferProps.v
FileTransferPair.v
FileTransferOffer.v
FileTransferInv.v
FtSample.v
EasyFile.v
EasyFileProps.v
EasySample.v
PortForward.v
PortForwardInv.v
PortForwardSample.v
