(* ===== verification/Prelude.v ===== *)
(** * Elastos Carrier Native SDK: a verification development

    The SDK (src/src) lets applications find, befriend and talk to each other over
    a DHT.  Its own logic sits between third-party libraries: toxcore below
    (friends and messages of at most 1300 bytes), pjnath for ICE, FlatBuffers for
    packets, libcrystal for containers and base58.

    ** The program and what models it

    - Error words and their texts, src/src/carrier/ela_error.c: [ElaError].
    - The packets that friends exchange, src/src/carrier/elacp.c: [ElaCP].
    - The node, src/src/carrier/ela_carrier.c with friends.h: [Carrier].  The struct
      [ElaCarrier] is the record of the same name; a call [ela_f(w, ...)] is a
      function to the result code and the node, [ela_error] being a field; a
      notification of the DHT is a function of the node; what the application's
      callbacks see is appended to [events], newest first.
    - Invitations, the same file with tassemblies.h, tcallbacks.h and thistory.h:
      [Invite].  Handlers are whole, from their assertions to the last update of the
      tables.
    - The data file of the node, the same file: [Persistence], over a map from file
      names to contents; an operation on files has a list of the states that a
      failure or a crash can leave.
    - The TCP engine of reliable streams, src/src/session/pseudotcp/pseudotcp.c: its
      ring buffer in [Fifo], its modular comparisons in [SeqArith], the socket with
      all its operations in [PseudoTcp].
    - The handlers of a stream, src/src/session: the buffers they pass on,
      flex_buffer.h, in [FlexBuffer]; the channels of a stream,
      multiplex_handler.c with channels.h, in [Multiplex]; encryption,
      crypto_handler.c, in [CryptoHandler]; retransmission, reliable_handler.c over the
      engine, in [ReliableHandler], which replays the callbacks that the engine makes
      from the trace that an operation of the engine leaves.
    - Port forwarding over the channels of a stream, portforwarding.c with fdset.c:
      [PortForward].  Its thread is a function for each round of its loop, with what
      [select] reported as an argument; the callbacks of its channels answer the
      multiplexer while it works and change the worker afterwards, in the same order.
    - Sessions, src/src/session/session.c: the extension of a node, a session with its
      streams and the calls on them in [Session]; which callback a request is given to
      in [SessionDispatch].
    - The transport of a stream and the descriptions of a session,
      src/src/session/ice.c: the handler at the bottom of a stream in [IceStream], what
      is told to the peer and taken from it in [Sdp].
    - The adapter of toxcore, src/src/carrier/dht/dht.c: the translation of errors in
      [ToxErrors], the calls and the events in [ToxDht]; [ToxNode] makes it an instance
      of the interface that the node is written against.
    - Groups, ela_carrier.c over the adapter: [Groups].
    - The TURN server of a node, the creation of a node and its main loop, the same
      file: [TurnServer], [NodeRun].
    - File transfers over a stream, src/src/filetransfer: [FileTransfer], with the
      formats of sscanf and sprintf that it uses in [CText].  An
      [ElaFileTransfer] is the record of the same name; calls of the application and
      callbacks of the session layer are functions to its next state, what its own
      application is told is [ft_events], newest first.  The transfer of a single file,
      easyfile.c, is the application of such a transfer: [EasyFile], over a map from
      paths to contents.

    Packets flow from [Carrier] and [Invite] through [ElaCP.elacp_encode] to the
    interface [Carrier.Dht], which [ToxNode] implements over toxcore, and back through
    [ToxDht]'s events, [NodeRun.tox_callback] and [Invite.notify_friend_message_cb].
    A session's request is an invitation whose bundle is the description of [Sdp].
    A file goes from [FileTransfer] to a channel of the interface
    [FileTransfer.SessionLayer]; a channel is carried by [Multiplex] to the interface
    [Multiplex.Next], which [CryptoHandler] implements for the layer below it and
    [IceStream] at the bottom.  [ReliableHandler] stands between [Multiplex] and those
    two where a stream is reliable; the engine's packets are what it writes below.
    [PortForward] runs calls of [Multiplex] with its own answers ([PortForward.run_mux]),
    [EasyFile] calls of [FileTransfer].  [Session] holds the handlers of a stream as a
    [Session.Pipeline] over the interface [Session.Lower].

    ** Conventions

    Integers are [Z]; a wrap-around of C is written out ([u32], [i32], ...), with a long
    and a [size_t] of 64 bits.  A C
    function that can leave defined behaviour or fail an assertion returns [Res]:
    [Ok] or the [fault].  Strings are without their terminator, and copying one
    into a field is [strcpy] with the field's size.  Pointers that may be null are
    options.  Allocation is taken to succeed except where a caller depends on the
    opposite (the ring buffer's [Malloc]).  Objects that C shares through reference
    counts are stored back into the table they come from.

    Interfaces, each with an instance on which the witnesses compute:
    [HashTables] (libcrystal's tables, with the laws of one entry per key),
    [ElaCP.FlatBuffers] (a finished buffer gives back the packet), [Carrier.Base58]
    and [Carrier.Dht] (no laws, except [NodeInv.Base58Laws]: 32 bytes are at most 44
    characters and a text is the encoding of its decoding, and [NodeInv.DhtLaws]:
    keys have 32 bytes, a friend never has the number that means none),
    [PseudoTcp.PseudoTcpEnv] (the clock and the network), [Fifo.Malloc],
    [PseudoTcpSend.MssBound] (how large segments get: the packets that the layer below
    takes), [ReliableHandler.MonotonicClock], [ReliableProps.BelowLaws] (a change of the
    state and a stop send nothing), [EasyFile.Os] with [EasyFileProps.OsWorks] and
    [LayerTakes] (nothing fails on the way) and [LayerCloses] (a stream that is removed
    reports that it closed), [PortForward.Sockets] with
    [PortForwardInv.SocketsLaws] (a new descriptor is one that was closed) and [SendLaws]
    (what was sent is the beginning of what was given),
    [Persistence.Sha256] and [Persistence.DhtSave], [FlexBuffer.Stack] (what an
    uninitialised area holds), [Multiplex.Next] with [MultiplexProps.NextLaws] (a
    write is taken whole or fails), [Multiplex.IdsHeap] with its laws (numbers are
    handed out once), [Multiplex.ChannelApp] and [FileTransfer.FtApp] (the answers of
    the application), [CryptoHandler.Crypto] with [CryptoLaws] (an authenticated box),
    [FileTransfer.SessionLayer] with [FileTransferProps.SessionLaws] (a call on a
    channel is one message or none), [ToxDht.Tox] with the laws that toxcore documents
    ([ToxNode.ToxLaws] on keys and numbers, [GroupProps.ConferenceLaws],
    [GroupTalk.TitleLaws] and [PeerLaws]), [TurnServer.TurnCrypto],
    [GroupProps.Base58Reads] (a text that was encoded is decoded), [Session.Lower] and
    [Session.SdpLayer] with [SessionProps.LowerLaws] and [SdpLaws],
    [Session.KeyExchange], [Session.PortForwarding] (the ports of a stream, as the calls of
    session.c see them), [IceStream.IceStrans] with
    [IceStreamProps.IceLaws] (pjnath), [Sdp.PjMedia] and [Sdp.SockAddr] with their laws
    in [SdpProps] (pjmedia's text, with an attribute on a line of its own, pjlib's
    addresses), [Sdp.IceCands], [Sdp.NonceText],
    [Sdp.IceBottom], [Link.Link] with [LinkLaws] (what a stack puts on the wire and what
    the peer's stack makes of it).  [CryptoHandler.crypto_laws] proves [NextLaws] for
    an encrypted layer from those of the layer below, so what holds of the multiplexer
    holds over encryption.

    ** What the theorems show

    - [InviteProps], [InviteReply]: the packets of an accepted invitation or reply,
      delivered in order, arrive as exactly the bytes, bundle, status and reason
      that were sent, once; an invitation is sent whole or leaves no trace; it is
      answered at most once, and an answer completes its transaction once.  Friend
      messages arrive as sent.
    - [InviteSafety]: any packet of a friend leaves the assemblies inside their
      buffers, and the packets that make a handler fault are named and shown to do
      so; transactions do not interfere; timers remove exactly what is overdue.
    - [NodeInv]: the node as a transition system over all its calls, notifications
      and timers, and the invariant of its reachable states.
    - [CarrierProps]: the checksum of addresses detects any change of a byte; user
      information arrives at friends as it was set; the friend list changes whole
      or not at all; friend events are delivered once and in order.
    - [ElaCP], [ElaError]: codec round trip, exact fault conditions, messages.
    - [Fifo]: the ring buffer refines a byte queue with an area for what is written ahead.
      [PseudoTcpRecv]: in-order delivery of the receiving side under reordering, duplication
      and overlap, and exactly how far a segment takes it.  [PseudoTcpSend], [PseudoTcpEnd]: every packet that a connected socket
      sends is a piece of what was written to it, at its place, through acknowledgements,
      time-outs, retransmission and cutting; no operation faults or runs on.
      [PseudoTcpPair]: two such sockets over a network that loses, repeats, delays and
      reorders read what the other wrote, for streams of less than 2^30 bytes, and what
      goes wrong outside of these bounds, on examples.  [PseudoTcpProps]:
      state machine, header and option round trips, what a list of options does.
    - [PersistenceProps]: what is stored is loaded; whatever fails or crashes, the next
      start finds the old data or the new, whole; older files are converted without
      loss.
    - [MultiplexProps], [MultiplexStream], [MultiplexInv]: a channel opens at both ends
      under each other's number, its data arrives as written; packets are found in
      any cutting of a stream of bytes; the life of every channel follows the
      protocol, with the answers that its owner gave to what it was asked, whatever is
      called and whatever comes in; timers close exactly what is overdue.
      [CryptoHandler]: what is encrypted is opened as it was.
    - [ReliableProps]: two reliable handlers over such a network hand up what was written
      at the other end, in order, so the multiplexer above finds the packets of its peer.
    - [PortForwardInv]: every socket belongs to one port or one channel, the set that the
      thread waits for holds those that it may read, and at the end all are closed, with the
      descriptor of the events; data of the peer goes out at the socket as it came.
    - [Link]: data that an application writes to a channel comes to the callback of
      the other end as it was written, through the multiplexer, encryption and the
      transport; both handlers are instances of the interface.
    - [IceStreamProps]: what a datagram, of a peer or of anyone, can do to a stream; the
      keep-alive timer.
    - [SessionProps]: the numbers of streams are unique over all calls and reports.
      [SessionDispatch]: a request goes to the callback of the longest prefix.
      [SessionRequest]: a request and its reply, sent as invitation and reply, come to
      the callbacks of the two ends with the descriptions that were sent.
      [SessionKeys]: what the key of a session depends on, what is left of a session
      that was closed.  [SdpProps]: keys, credentials and candidates cross as they are,
      streams with other options are deactivated; the descriptions that make the code
      fault are named.
    - [ToxNode]: the calls of the adapter answer as toxcore did, an error with its own error
      word, which has a text; the promises that the node's invariant rests on hold.  [NodeRunProps]: creation
      establishes that invariant, every round of the main loop keeps it; which
      bootstrap nodes the main loop survives.  [TurnServer]: the credentials are those
      that the relay derives.
    - [GroupProps], [GroupTalk]: the group calls refine a set of identifiers; titles and
      messages arrive as they were sent; the two ways of asking for a peer agree.
    - [FileTransferOffer], [FileTransferPair]: a file is offered as it is; pulls, pauses
      and resumptions reach the other end, and its state agrees, under any interleaving of
      these calls, of sends and of the messages, as long as neither end cancels the file; its
      data arrives in order.  [FileTransferInv]: the items of a
      transfer stay well formed, and the faults of every step are named.
      [FileTransferOffer.transfer_faults]: the calls that end in them.
      [EasyFileProps]: the transfer of a single file, begun or resumed, leaves the file
      at the receiver as it is at the sender; the close that completes it frees the object,
      and the handler of the last piece goes on to read it.
    - [Sample], [MuxSample], [LinkSample], [SessionSample], [ReliableSample], [ToxSample],
      [FtSample], [EasySample], [PortForwardSample] are concrete ends on which the theorems
      are evaluated, with examples of what ends the process; they model nothing.

    ** Fuel

    The sending loops of invitations run with one more step than there are bytes:
    every round takes at least one byte ([InviteProps.invite_loop_spec],
    [InviteReply.reply_loop_spec] prove that the result is never [Diverges]).  The
    loops of the engine carry their bounds where they are defined in [PseudoTcp];
    [PseudoTcpEnd] proves that they are enough.  A writer of a reliable stream sleeps as
    often as its argument has answers, and is still asleep when they are spent; the rounds
    between the sleeps, and those of reading, are bounded in [ReliableProps.write_loop_inv]
    and [readable_loop_inv].  The thread that sends a file takes a round for every piece
    and one for the end, the loop of [send] in port forwarding one for every byte and one
    ([PortForwardInv.send_loop_sends]); the calls that a transfer of one file makes in its
    own callbacks go three deep.  The
    loop over the bytes of a stream has two steps for each byte and two more: two
    rounds take at least one ([MultiplexStream]).  Labels are read with one step for
    each byte of the section.  A number is printed with 20 digits, enough for 64 bits
    ([CText.print_digits_spec]).

    ** Not modelled

    [ela_kill] and the objects that creation allocates, the workers of a transport with
    their sockets and timers, locks and logging, the failure of allocations, the copied
    GLib containers and the sample applications are left out: they call third-party code,
    or keep no state of their own that these theorems need.  Threads take turns: a round
    of a loop, a callback or a call runs whole, except where a writer sleeps
    ([ReliableHandler.write_loop]); forwarding over UDP is not written in the code.
    A callback of the application that calls back into the library is not modelled.

    This file holds what the components share: machine integers, the outcomes of C
    code, C strings, in memory too, regions of byte buffers, network byte order and the
    interface of hash tables. *)

From coqutil Require Export Datatypes.RecordSettersUsingExistingGetters.
From coqutil Require Export Byte Word.LittleEndianList.
From stdpp Require Export gmap strings list fin_maps.
From Stdlib Require Export ZArith Lia.
From Stdlib Require Strings.Byte.

#[global] Open Scope Z_scope.

(** Record updates compute: a field of [{ r with f := v }] is [v] or that of [r]. *)
#[global] Arguments RecordSettersUsingExistingGetters.const {E} newValue _ /.

(** ** Machine integers *)

(** Unsigned [w]-bit wrap-around, and the C conversion to a signed type. *)
Definition uwrap (w z : Z) : Z := z mod 2 ^ w.
Definition swrap (w z : Z) : Z := (z + 2 ^ (w - 1)) mod 2 ^ w - 2 ^ (w - 1).

Abbreviation u8 := (uwrap 8).
Abbreviation u16 := (uwrap 16).
Abbreviation u32 := (uwrap 32).
Abbreviation u64 := (uwrap 64).
Abbreviation i32 := (swrap 32).
Abbreviation i64 := (swrap 64).

Definition is_u8 (z : Z) : Prop := 0 <= z < 2 ^ 8.
Definition is_u16 (z : Z) : Prop := 0 <= z < 2 ^ 16.
Definition is_u32 (z : Z) : Prop := 0 <= z < 2 ^ 32.
Definition is_u64 (z : Z) : Prop := 0 <= z < 2 ^ 64.
Definition is_i32 (z : Z) : Prop := - 2 ^ 31 <= z < 2 ^ 31.
Definition is_i64 (z : Z) : Prop := - 2 ^ 63 <= z < 2 ^ 63.

Create HintDb carrier.
Create Rewrite HintDb carrier.
#[export] Hint Unfold is_u8 is_u16 is_u32 is_u64 is_i32 is_i64 : carrier.

Lemma uwrap_small w z : 0 <= z < 2 ^ w -> uwrap w z = z.
Proof. apply Z.mod_small. Qed.

Lemma uwrap_range w z : 0 <= w -> 0 <= uwrap w z < 2 ^ w.
Proof. intros. apply Z.mod_pos_bound, Z.pow_pos_nonneg; lia. Qed.

Lemma swrap_small w z : 0 < w -> - 2 ^ (w - 1) <= z < 2 ^ (w - 1) -> swrap w z = z.
Proof.
  intros Hw Hz. unfold swrap.
  assert (2 ^ w = 2 * 2 ^ (w - 1)) as E.
  { rewrite <- Z.pow_succ_r by lia. f_equal. lia. }
  rewrite Z.mod_small; lia.
Qed.

Lemma swrap_range w z : 0 < w -> - 2 ^ (w - 1) <= swrap w z < 2 ^ (w - 1).
Proof.
  intros Hw. unfold swrap.
  assert (2 ^ w = 2 * 2 ^ (w - 1)) as E.
  { rewrite <- Z.pow_succ_r by lia. f_equal. lia. }
  pose proof (Z.mod_pos_bound (z + 2 ^ (w - 1)) (2 ^ w)). lia.
Qed.

(** [machine_int] unfolds every wrap at a literal width and leaves the residue
    arithmetic to [lia]. *)
Ltac machine_int :=
  unfold is_u8, is_u16, is_u32, is_u64, is_i32, is_i64, uwrap, swrap in *;
  change (2 ^ 8) with 256 in *; change (2 ^ 16) with 65536 in *;
  change (2 ^ 32) with 4294967296 in *; change (2 ^ 31) with 2147483648 in *;
  change (2 ^ (32 - 1)) with 2147483648 in *;
  change (2 ^ 64) with 18446744073709551616 in *;
  change (2 ^ 63) with 9223372036854775808 in *;
  change (2 ^ (64 - 1)) with 9223372036854775808 in *;
  Z.div_mod_to_equations; lia.

Lemma u64_small z : 0 <= z < 2 ^ 64 -> u64 z = z.
Proof. apply uwrap_small. Qed.
Lemma u32_small z : 0 <= z < 2 ^ 32 -> u32 z = z.
Proof. apply uwrap_small. Qed.
Lemma u16_small z : 0 <= z < 2 ^ 16 -> u16 z = z.
Proof. apply uwrap_small. Qed.
Lemma u8_small z : 0 <= z < 2 ^ 8 -> u8 z = z.
Proof. apply uwrap_small. Qed.

(** Disjoint bit fields: a multiple of [2 ^ n] or-ed with an [n]-bit value. *)
Lemma lor_field a c n : 0 <= n -> 0 <= c < 2 ^ n -> Z.lor (a * 2 ^ n) c = a * 2 ^ n + c.
Proof.
  intros Hn Hc. pose proof (Z.add_lor_land (a * 2 ^ n) c) as E.
  enough (Z.land (a * 2 ^ n) c = 0) by lia.
  rewrite <- Z.shiftl_mul_pow2 by lia. apply Z.bits_inj'. intros i Hi.
  rewrite Z.land_spec, Z.bits_0, Z.shiftl_spec by lia.
  destruct (Z.ltb_spec i n).
  - rewrite Z.testbit_neg_r by lia. done.
  - rewrite <- (Z.mod_small c (2 ^ n)), Z.mod_pow2_bits_high by lia. apply andb_false_r.
Qed.

(** ** Outcomes of C code

    A C operation either returns or leaves the defined behaviour of the
    language; the faults are the ones the code can run into. *)
Inductive fault :=
| AssertFailed      (* a failed [assert] or [g_assert] *)
| NullDeref         (* a null pointer passed to strlen, strcpy, strcmp, ... *)
| BufferOverflow    (* an access past the end of an object *)
| TypeConfusion     (* a value read at a type it was not stored at *)
| BadShift          (* a shift by the width of the type or more *)
| DivByZero
| UseAfterFree      (* a pointer to an object that was freed *)
| Uninitialised     (* a local that was never set *)
| Diverges.         (* a loop still running when the fuel of its model is spent *)

#[export] Instance fault_eq_dec : EqDecision fault.
Proof. solve_decision. Defined.

Inductive Res (A : Type) :=
| Ok (a : A)
| Fault (f : fault).
Arguments Ok {A} a.
Arguments Fault {A} f.

#[export] Instance Res_ret : MRet Res := fun A a => Ok a.
#[export] Instance Res_bind : MBind Res := fun A B k m =>
  match m with Ok a => k a | Fault f => Fault f end.
#[export] Instance Res_fmap : FMap Res := fun A B g m =>
  match m with Ok a => Ok (g a) | Fault f => Fault f end.

(** [assert(b)], compiled with assertions enabled. *)
Definition c_assert (b : bool) : Res unit :=
  if b then Ok tt else Fault AssertFailed.

(** Dereferencing a pointer that may be null. *)
Definition deref {A} (p : option A) : Res A :=
  match p with Some a => Ok a | None => Fault NullDeref end.

Lemma Res_bind_Ok {A B} (m : Res A) (k : A -> Res B) b :
  mbind k m = Ok b <-> exists a, m = Ok a /\ k a = Ok b.
Proof.
  destruct m as [a|f]; cbn; split.
  - intros Hk. by exists a.
  - by intros (? & [= <-] & Hk).
  - done.
  - by intros (? & ? & _).
Qed.

Lemma c_assert_Ok b u : c_assert b = Ok u <-> b = true.
Proof. by destruct u, b. Qed.

(** What an operation may end in: values [P], faults [bad]. *)
Definition ends {A} (P : A -> Prop) (bad : fault -> Prop) (m : Res A) : Prop :=
  match m with Ok a => P a | Fault f => bad f end.

Lemma ends_bind {A B} (P : A -> Prop) (Q : B -> Prop) bad (m : Res A) (k : A -> Res B) :
  ends P bad m -> (forall a, m = Ok a -> P a -> ends Q bad (k a)) -> ends Q bad (mbind k m).
Proof. destruct m as [a|f]; cbn; auto. Qed.

Lemma ends_assert b (bad : fault -> Prop) :
  (b = false -> bad AssertFailed) -> ends (fun _ => b = true) bad (c_assert b).
Proof. destruct b; cbn; auto. Qed.

(** [res_inv] decomposes hypotheses about successful runs. *)
Ltac res_inv :=
  repeat match goal with
  | H : mbind _ _ = Ok _ |- _ => apply Res_bind_Ok in H; destruct H as (? & ? & ?)
  | H : c_assert _ = Ok _ |- _ => apply c_assert_Ok in H
  | H : Ok _ = Ok _ |- _ => injection H as H
  | H : Fault _ = Ok _ |- _ => discriminate H
  end.

(** ** C strings

    A C string is the sequence of its characters, the terminator left out;
    [strlen] is its length and [strcpy] needs room for the terminator. *)
Definition strlen (s : string) : Z := Z.of_nat (String.length s).

Definition strcpy (cap : Z) (s : string) : Res string :=
  if strlen s <? cap then Ok s else Fault BufferOverflow.

(** The string a possibly null [char *] denotes where the code replaces a
    null by the empty string. *)
Definition or_empty (s : option string) : string := default "" s.

Definition str_eqb (a b : string) : bool := bool_decide (a = b).

Lemma strlen_nonneg s : 0 <= strlen s.
Proof. unfold strlen. lia. Qed.

Lemma strlen_app a b : strlen (a +:+ b) = strlen a + strlen b.
Proof.
  unfold strlen. rewrite <- Nat2Z.inj_add. f_equal.
  induction a as [|c a IH]; [done|]. simpl. by rewrite IH.
Qed.

Lemma strlen_zero s : strlen s = 0 <-> s = ""%string.
Proof. unfold strlen. destruct s; cbn; split; intros; try done; lia. Qed.

Lemma strcpy_Ok cap s : strlen s < cap -> strcpy cap s = Ok s.
Proof. intros H. unfold strcpy. by rewrite (proj2 (Z.ltb_lt _ _) H). Qed.

Lemma strcpy_overflow cap s : cap <= strlen s -> strcpy cap s = Fault BufferOverflow.
Proof. intros H. unfold strcpy. by rewrite (proj2 (Z.ltb_ge _ _) H). Qed.

Lemma ends_strcpy cap s (bad : fault -> Prop) :
  (cap <= strlen s -> bad BufferOverflow) ->
  ends (fun t => t = s /\ strlen s < cap) bad (strcpy cap s).
Proof. unfold strcpy. destruct (Z.ltb_spec (strlen s) cap); cbn; auto. Qed.

Lemma strcpy_inv cap s t : strcpy cap s = Ok t -> t = s /\ strlen s < cap.
Proof. unfold strcpy. case (Z.ltb_spec (strlen s) cap); naive_solver. Qed.

Lemma str_eqb_refl s : str_eqb s s = true.
Proof. unfold str_eqb. by rewrite bool_decide_true. Qed.

Lemma str_eqb_eq a b : str_eqb a b = true <-> a = b.
Proof. apply bool_decide_eq_true. Qed.

Lemma str_eqb_neq a b : str_eqb a b = false <-> a <> b.
Proof. apply bool_decide_eq_false. Qed.

#[export] Hint Resolve strlen_nonneg : carrier.
#[export] Hint Rewrite strlen_app str_eqb_refl : carrier.

(** ** Regions of a byte buffer *)

#[export] Instance byte_eq_dec : EqDecision byte := Stdlib.Strings.Byte.byte_eq_dec.

(** Fields of a packet that came in; what is read past its end is out of bounds. *)
Definition packet_field (data : list byte) (off n : nat) : Res (list byte) :=
  if Nat.leb (off + n) (length data) then Ok (take n (drop off data)) else Fault BufferOverflow.

(** [memcpy(buf + off, src, len(src))] *)
Definition splice {A} (off : nat) (src buf : list A) : list A :=
  take off buf ++ src ++ drop (off + length src) buf.

Lemma length_splice {A} off (src buf : list A) :
  (off + length src <= length buf)%nat -> length (splice off src buf) = length buf.
Proof. intros. unfold splice. rewrite !length_app, length_take, length_drop. lia. Qed.

Lemma lookup_splice_in {A} off (src buf : list A) i :
  (off + length src <= length buf)%nat -> (off <= i < off + length src)%nat ->
  splice off src buf !! i = src !! (i - off)%nat.
Proof.
  intros. unfold splice.
  rewrite lookup_app_r by (rewrite length_take; lia).
  rewrite length_take, lookup_app_l by lia. f_equal. lia.
Qed.

Lemma lookup_splice_out {A} off (src buf : list A) i :
  (off + length src <= length buf)%nat -> (i < off \/ off + length src <= i)%nat ->
  splice off src buf !! i = buf !! i.
Proof.
  intros ? [Hi|Hi]; unfold splice.
  - rewrite lookup_app_l by (rewrite length_take; lia).
    by rewrite lookup_take_lt.
  - rewrite !lookup_app_r by (rewrite ?length_take; lia).
    rewrite lookup_drop, length_take. f_equal. lia.
Qed.

Lemma splice_nil {A} off (buf : list A) : splice off [] buf = buf.
Proof. unfold splice. cbn. rewrite Nat.add_0_r. apply take_drop. Qed.

Lemma take_splice_le {A} n off (src buf : list A) :
  (n <= off)%nat -> (off <= length buf)%nat -> take n (splice off src buf) = take n buf.
Proof.
  intros. unfold splice. rewrite take_app_le by (rewrite length_take; lia).
  rewrite take_take. f_equal. lia.
Qed.

Lemma take_splice_more {A} n off (src buf : list A) :
  (off <= length buf)%nat ->
  take (off + (length src + n)) (splice off src buf) =
    take off buf ++ src ++ take n (drop (off + length src) buf).
Proof.
  intros. unfold splice. rewrite take_app_ge by (rewrite length_take; lia). f_equal.
  rewrite length_take, Nat.min_l by lia.
  replace (off + (length src + n) - off)%nat with (length src + n)%nat by lia.
  by rewrite take_app_add.
Qed.

Lemma take_splice_end {A} off (src buf : list A) :
  (off <= length buf)%nat -> take (off + length src) (splice off src buf) = take off buf ++ src.
Proof.
  intros. pose proof (take_splice_more 0 off src buf) as Hm.
  rewrite Nat.add_0_r, take_0, app_nil_r in Hm. by apply Hm.
Qed.

Lemma drop_splice {A} off (src buf : list A) :
  (off <= length buf)%nat -> drop off (splice off src buf) = src ++ drop (off + length src) buf.
Proof. intros. unfold splice. rewrite drop_app_length' by (rewrite length_take; lia). done. Qed.

(** [n] zero bytes, as [calloc] leaves them. *)
Definition zeroed (n : Z) : list byte := replicate (Z.to_nat n) (byte.of_Z 0).

Lemma length_zeroed n : length (zeroed n) = Z.to_nat n.
Proof. apply length_replicate. Qed.

Lemma zeroed_add a b : 0 <= a -> 0 <= b -> zeroed (a + b) = zeroed a ++ zeroed b.
Proof. intros Ha Hb. unfold zeroed. by rewrite Z2Nat.inj_add, replicate_add. Qed.

(** ** Network byte order *)

Definition be_bytes (n : nat) (z : Z) : list byte := reverse (le_split n z).
Definition be_read (bs : list byte) : Z := le_combine (reverse bs).

Lemma length_be_bytes n z : length (be_bytes n z) = n.
Proof. unfold be_bytes. by rewrite length_reverse, length_le_split. Qed.

Lemma be_read_bytes n z : be_read (be_bytes n z) = uwrap (8 * Z.of_nat n) z.
Proof.
  unfold be_read, be_bytes, uwrap. rewrite reverse_involutive, le_combine_split.
  do 2 f_equal. lia.
Qed.

Lemma be_read_range bs : 0 <= be_read bs < 2 ^ (8 * Z.of_nat (length bs)).
Proof.
  unfold be_read. pose proof (le_combine_bound (reverse bs)) as H.
  rewrite length_reverse in H. exact H.
Qed.

Lemma be_bytes_read n bs : length bs = n -> be_bytes n (be_read bs) = bs.
Proof.
  intros. unfold be_read, be_bytes.
  rewrite split_le_combine' by (rewrite length_reverse; done).
  apply reverse_involutive.
Qed.

#[export] Hint Rewrite length_be_bytes be_read_bytes : carrier.

(** The bytes of a C string, and a C string at the head of bytes with what follows
    its terminator. *)
Definition c_bytes (s : string) : list byte := String.list_byte_of_string s ++ [Init.Byte.x00].

Fixpoint c_string (bs : list byte) : option (string * list byte) :=
  match bs with
  | [] => None
  | b :: bs =>
      if bool_decide (b = Init.Byte.x00) then Some (""%string, bs)
      else '(s, rest) ← c_string bs; Some (String.String (Ascii.ascii_of_byte b) s, rest)
  end.

Lemma c_string_bytes s rest : Init.Byte.x00 ∉ String.list_byte_of_string s ->
  c_string (c_bytes s ++ rest) = Some (s, rest).
Proof.
  unfold c_bytes. induction s as [|c s IH]; intros Hs; [done|].
  change (String.list_byte_of_string (String.String c s))
    with (Ascii.byte_of_ascii c :: String.list_byte_of_string s) in *.
  apply not_elem_of_cons in Hs as [Hc Hs]. cbn [app c_string].
  rewrite bool_decide_false by congruence. rewrite (IH Hs). cbn. by rewrite Ascii.ascii_of_byte_of_ascii.
Qed.

Lemma length_c_bytes s : Z.of_nat (length (c_bytes s)) = strlen s + 1.
Proof.
  unfold c_bytes, strlen. rewrite length_app. cbn [length].
  enough (length (String.list_byte_of_string s) = String.length s) by lia.
  induction s as [|c s IH]; [done|]. cbn. by f_equal.
Qed.

(** ** Hash tables

    The containers of libcrystal (hashtable.h, not part of this tree) as an
    interface: the operations the sources call, and the laws of a table with one
    entry per key.  Every key comparison the sources pass to [hashtable_create]
    is an equality test on the keys. *)
Class HashTables := {
  hashtable : forall (K : Type) `{Countable K}, Type -> Type;
  ht_empty : forall {K} `{Countable K} {V}, hashtable K V;
  ht_get : forall {K} `{Countable K} {V}, hashtable K V -> K -> option V;
  ht_put : forall {K} `{Countable K} {V}, K -> V -> hashtable K V -> hashtable K V;
  ht_remove : forall {K} `{Countable K} {V}, K -> hashtable K V -> hashtable K V;
  (* the order an iterator visits *)
  ht_items : forall {K} `{Countable K} {V}, hashtable K V -> list (K * V)
}.

Class HashTablesLaws `{!HashTables} := {
  ht_get_empty {K} `{Countable K} {V} (k : K) : ht_get (V := V) ht_empty k = None;
  ht_get_put {K} `{Countable K} {V} (t : hashtable K V) k k' v :
    ht_get (ht_put k v t) k' = if decide (k = k') then Some v else ht_get t k';
  ht_get_remove {K} `{Countable K} {V} (t : hashtable K V) k k' :
    ht_get (ht_remove k t) k' = if decide (k = k') then None else ht_get t k';
  ht_items_nodup {K} `{Countable K} {V} (t : hashtable K V) : NoDup (ht_items t).*1;
  ht_items_get {K} `{Countable K} {V} (t : hashtable K V) k v :
    (k, v) ∈ ht_items t <-> ht_get t k = Some v
}.
Arguments HashTablesLaws : clear implicits.

Definition ht_exist `{!HashTables, Countable K} {V} (t : hashtable K V) (k : K) : bool :=
  match ht_get t k with Some _ => true | None => false end.

Section HashTables.
Context `{!HashTables, L : !HashTablesLaws _} `{Countable K} {V : Type}.
Implicit Types t : hashtable K V.

Lemma ht_get_put_eq t k v : ht_get (ht_put k v t) k = Some v.
Proof. rewrite ht_get_put. by case_decide. Qed.
Lemma ht_get_put_ne t k k' v : k <> k' -> ht_get (ht_put k v t) k' = ht_get t k'.
Proof. rewrite ht_get_put. by case_decide. Qed.
Lemma ht_get_remove_eq t k : ht_get (ht_remove k t) k = None.
Proof. rewrite ht_get_remove. by case_decide. Qed.
Lemma ht_get_remove_ne t k k' : k <> k' -> ht_get (ht_remove k t) k' = ht_get t k'.
Proof. rewrite ht_get_remove. by case_decide. Qed.
End HashTables.

(** stdpp's finite maps are such tables. *)
#[export] Instance gmap_HashTables : HashTables := {
  hashtable K _ _ V := gmap K V;
  ht_empty K _ _ V := ∅;
  ht_get K _ _ V m k := m !! k;
  ht_put K _ _ V k v m := <[k := v]> m;
  ht_remove K _ _ V k m := delete k m;
  ht_items K _ _ V m := map_to_list m
}.

#[export] Instance gmap_HashTablesLaws : HashTablesLaws gmap_HashTables.
Proof.
  split; cbn; intros.
  - apply lookup_empty.
  - by rewrite lookup_insert.
  - by rewrite lookup_delete.
  - apply NoDup_fst_map_to_list.
  - apply elem_of_map_to_list.
Qed.
