(* ===== verification/ElaError.v ===== *)
(** * Error codes and their descriptions (src/carrier/ela_error.c)

    The error word built by [ELA_MK_ERROR], the thread's last error, the table
    of facilities with the strerror callbacks that can be registered into it,
    and [ela_get_strerror], which formats an error word into a caller's buffer.
    The buffer is its capacity; a description that does not fit faults. *)

From S2P Require Import Prelude.

(** ** Error words *)

Definition ELASUCCESS : Z := 0.
Definition ELAF_GENERAL : Z := 0x01.
Definition ELAF_SYS : Z := 0x02.
Definition ELAF_ICE : Z := 0x05.
Definition ELAF_DHT : Z := 0x06.

Definition ELAERR_INVALID_ARGS : Z := 0x01.
Definition ELAERR_OUT_OF_MEMORY : Z := 0x02.
Definition ELAERR_BUFFER_TOO_SMALL : Z := 0x03.
Definition ELAERR_NOT_READY : Z := 0x09.
Definition ELAERR_NOT_EXIST : Z := 0x0A.
Definition ELAERR_ALREADY_EXIST : Z := 0x0B.
Definition ELAERR_NO_MATCHED_REQUEST : Z := 0x0C.
Definition ELAERR_WRONG_STATE : Z := 0x0F.
Definition ELAERR_LIMIT_EXCEEDED : Z := 0x16.
Definition ELAERR_UNKNOWN : Z := 0xFF.

(** The macro computes an [unsigned int]; storing it in an [int] makes it
    negative. *)
Definition ELA_MK_ERROR (facility code : Z) : Z :=
  i32 (Z.lor (Z.lor 0x80000000 (u32 (Z.shiftl facility 24)))
             (Z.lor (Z.shiftr (Z.land (u32 code) 0x80000000) 8)
                    (Z.land (u32 code) 0x7FFFFFFF))).
Definition ELA_GENERAL_ERROR (code : Z) : Z := ELA_MK_ERROR ELAF_GENERAL code.
Definition ELA_SYS_ERROR (code : Z) : Z := ELA_MK_ERROR ELAF_SYS code.

(** ** The table of error descriptions *)

Definition error_codes : list (Z * string) :=
  [ (0x01, "Invalid argument(s)");
    (0x02, "Out of memory");
    (0x03, "Too small buffer size");
    (0x04, "Bad persistent data");
    (0x05, "Invalid persistent file");
    (0x06, "Invalid control packet");
    (0x07, "Invalid credential");
    (0x08, "Carrier is already being running");
    (0x09, "Carrier is not ready");
    (0x0A, "Friend does not exist");
    (0x0B, "Friend already exists");
    (0x0C, "Unmatched request");
    (0x0D, "Invalid carrier userid");
    (0x0E, "Invalid carrier nodeid");
    (0x0F, "Being in wrong state");
    (0x10, "Instance is being busy");
    (0x11, "Language binding error");
    (0x12, "Encrypt error");
    (0x13, "SDP is too long");
    (0x14, "Invalid SDP");
    (0x15, "Not implemented yet");
    (0x16, "Exceeding the limit");
    (0x17, "Allocate port error");
    (0x18, "Bad proxy type");
    (0x19, "Bad proxy host");
    (0x1A, "Bad proxy port");
    (0x1B, "No proxy available");
    (0x1C, "Load encrypted persistent data error");
    (0x1D, "Bad bootstrap host");
    (0x1E, "Bad bootstrap port");
    (0x1F, "Data content too long");
    (0x20, "Try add myself as friend");
    (0x21, "Bad carrier node address");
    (0x22, "Friend is being offline");
    (0xFF, "Unknown error") ]%string.

(** The linear search of [general_error]: the first entry with the code. *)
Fixpoint find_errdesc (errcode : Z) (tbl : list (Z * string)) : option string :=
  match tbl with
  | [] => None
  | (c, d) :: tbl' => if errcode =? c then Some d else find_errdesc errcode tbl'
  end.

(** A strerror callback gets an error code and the room that is left, and
    returns a status with the text it wrote. *)
Definition strerror_t : Type := Z -> Z -> Z * string.

Definition general_error : strerror_t := fun errcode len =>
  match find_errdesc errcode error_codes with
  | None => (ELA_GENERAL_ERROR ELAERR_INVALID_ARGS, "")
  | Some desc =>
      if len <=? strlen desc then (ELA_GENERAL_ERROR ELAERR_INVALID_ARGS, "")
      else (0, desc)
  end.

Definition dht_error : strerror_t := fun errcode len =>
  match find_errdesc errcode error_codes with
  | None => (ELA_GENERAL_ERROR ELAERR_INVALID_ARGS, "")
  | Some desc =>
      if len <=? strlen desc then (ELA_GENERAL_ERROR ELAERR_INVALID_ARGS, "")
      else (0, desc)
  end.

(** [system_error] forwards to the C library's [strerror_r], a parameter. *)
Definition system_error (strerror_r : strerror_t) : strerror_t := fun errcode len =>
  let '(rc, text) := strerror_r errcode len in
  if rc <? 0 then (ELA_SYS_ERROR ELAERR_INVALID_ARGS, text) else (0, text).

(** ** The facilities and the thread's last error *)

Record FacilityDesc := { desc : string; errstring : option strerror_t }.

Record ErrState := { ela_error : Z; facility_codes : list FacilityDesc }.

Definition ela_get_error (st : ErrState) : Z := ela_error st.

Definition ela_set_error (err : Z) (st : ErrState) : ErrState :=
  {| ela_error := i32 err; facility_codes := facility_codes st |}.

Definition ela_clear_error (st : ErrState) : ErrState := ela_set_error ELASUCCESS st.

Definition initial_facilities (strerror_r : strerror_t) : list FacilityDesc :=
  [ {| desc := "[General] "; errstring := Some general_error |};
    {| desc := "[System] "; errstring := Some (system_error strerror_r) |};
    {| desc := "Reserved facility"; errstring := None |};
    {| desc := "Reserved facility"; errstring := None |};
    {| desc := "[ICE] "; errstring := None |};
    {| desc := "[DHT] "; errstring := Some dht_error |} ].

(** [ela_get_strerror(error, buf, len)]: [buf] tells whether the pointer is
    non-null; the result is the text left in the buffer, or [None] for NULL. *)
Definition ela_get_strerror (error : Z) (buf : bool) (len : Z) (st : ErrState)
    : Res (ErrState * option string) :=
  let negative := negb (Z.land (u32 error) 0x80000000 =? 0) in
  let facility := Z.land (Z.shiftr error 24) 0x0F in
  let errcode := Z.land error 0x00FFFFFF in
  if negb buf || negb negative || (facility <=? 0)
     || (Z.of_nat (length (facility_codes st)) <? facility)
  then Ok (ela_set_error (ELA_GENERAL_ERROR ELAERR_INVALID_ARGS) st, None)
  else
    faci_desc ← deref (facility_codes st !! Z.to_nat (facility - 1));
    let desc_len := strlen (desc faci_desc) in
    if len <? desc_len
    then Ok (ela_set_error (ELA_GENERAL_ERROR ELAERR_BUFFER_TOO_SMALL) st, None)
    else
      prefix ← strcpy len (desc faci_desc);
      let '(rc, text) :=
        match errstring faci_desc with
        | Some f => f errcode (len - desc_len)
        | None => (0, "")
        end in
      if rc <? 0 then Ok (ela_set_error rc st, None)
      else Ok (st, Some (prefix +:+ text)).

Definition ela_register_strerror (facility : Z) (user_strerr : strerror_t) (st : ErrState)
    : Res (ErrState * Z) :=
  if (facility <=? 0) || (ELAF_DHT <? facility)
  then Ok (ela_set_error (ELA_GENERAL_ERROR ELAERR_INVALID_ARGS) st, -1)
  else
    faci_desc ← deref (facility_codes st !! Z.to_nat (facility - 1));
    match errstring faci_desc with
    | Some _ => Ok (st, 0)
    | None =>
        Ok ({| ela_error := ela_error st;
               facility_codes :=
                 <[Z.to_nat (facility - 1) :=
                     {| desc := desc faci_desc; errstring := Some user_strerr |}]>
                   (facility_codes st) |}, 0)
    end.

(** ** Properties *)

Lemma ELA_MK_ERROR_value f c :
  0 < f < 16 -> 0 <= c < 2 ^ 24 -> ELA_MK_ERROR f c = - 2 ^ 31 + f * 2 ^ 24 + c.
Proof.
  intros Hf Hc. unfold ELA_MK_ERROR.
  rewrite Z.shiftl_mul_pow2 by lia.
  rewrite !uwrap_small by (change (2 ^ 32) with (256 * 2 ^ 24); lia).
  assert (Z.land c 0x80000000 = 0) as ->.
  { change 0x80000000 with (1 * 2 ^ 31). rewrite <- Z.shiftl_mul_pow2 by lia.
    apply Z.bits_inj'. intros i Hi.
    rewrite Z.land_spec, Z.bits_0, Z.shiftl_spec by lia.
    destruct (Z.ltb_spec i 31); [rewrite (Z.testbit_neg_r 1) by lia; apply andb_false_r|].
    rewrite <- (Z.mod_small c (2 ^ 31)), Z.mod_pow2_bits_high by lia. done. }
  change 0x7FFFFFFF with (Z.ones 31). rewrite Z.land_ones, Z.mod_small by lia.
  rewrite Z.shiftr_0_l, Z.lor_0_l.
  replace (Z.lor 0x80000000 (f * 2 ^ 24)) with ((128 + f) * 2 ^ 24).
  2:{ change 0x80000000 with ((8 * 2 ^ 4) * 2 ^ 24).
      rewrite <- !Z.shiftl_mul_pow2, <- Z.shiftl_lor by lia. f_equal.
      rewrite Z.shiftl_mul_pow2, lor_field by lia. lia. }
  rewrite lor_field by lia. machine_int.
Qed.

(** An error word built for a facility of one nibble and a code of 24 bits is
    a negative [int], and [ela_get_strerror]'s shift and masks read back exactly
    that facility and that code. *)
Theorem ELA_MK_ERROR_fields f c :
  0 < f < 16 -> 0 <= c < 2 ^ 24 ->
  let error := ELA_MK_ERROR f c in
  is_i32 error /\ error < 0 /\
  Z.land (u32 error) 0x80000000 <> 0 /\
  Z.land (Z.shiftr error 24) 0x0F = f /\
  Z.land error 0x00FFFFFF = c.
Proof.
  intros Hf Hc. cbn zeta. rewrite ELA_MK_ERROR_value by done.
  split_and!; [machine_int | lia | | | ].
  - replace (u32 _) with (2 ^ 31 + (f * 2 ^ 24 + c)) by machine_int.
    intros E. apply (f_equal (fun z => Z.testbit z 31)) in E.
    rewrite Z.land_spec, Z.bits_0, andb_true_r in E.
    revert E. rewrite <- (Z.mul_1_l (2 ^ 31)), <- lor_field by lia.
    by rewrite Z.lor_spec.
  - rewrite Z.shiftr_div_pow2 by lia. change 0x0F with (Z.ones 4).
    rewrite Z.land_ones by lia. Z.div_mod_to_equations. lia.
  - change 0x00FFFFFF with (Z.ones 24). rewrite Z.land_ones by lia.
    Z.div_mod_to_equations. lia.
Qed.

Lemma ELA_MK_ERROR_fields_witness :
  0 < ELAF_GENERAL < 16 /\ 0 <= ELAERR_NOT_READY < 2 ^ 24 /\
  is_i32 (ELA_GENERAL_ERROR ELAERR_NOT_READY).
Proof.
  assert (0 < ELAF_GENERAL < 16) as Hf by done.
  assert (0 <= ELAERR_NOT_READY < 2 ^ 24) as Hc by done.
  exact (conj Hf (conj Hc (proj1 (ELA_MK_ERROR_fields _ _ Hf Hc)))).
Defined.

(** Facility tables the library can have: six entries, with the descriptions
    [ela_error.c] starts from (only callbacks are ever replaced). *)
Definition wf_facilities (st : ErrState) : Prop :=
  map desc (facility_codes st) =
  ["[General] "; "[System] "; "Reserved facility"; "Reserved facility"; "[ICE] "; "[DHT] "]%string.

Lemma wf_facilities_length st : wf_facilities st -> length (facility_codes st) = 6%nat.
Proof. intros E%(f_equal length). by rewrite length_map in E. Qed.

Lemma ela_register_strerror_wf facility f st st' rc :
  wf_facilities st -> ela_register_strerror facility f st = Ok (st', rc) -> wf_facilities st'.
Proof.
  unfold ela_register_strerror. intros Hwf.
  case_match; [by intros [= <- _]|].
  destruct (facility_codes st !! _) as [[d e]|] eqn:Hd; [|done]; cbn.
  destruct e; intros [= <- _]; [done|]. red. cbn. rewrite <- Hwf.
  rewrite list_fmap_insert. cbn. apply list_insert_id.
  by rewrite list_lookup_fmap, Hd.
Qed.

(** The description an error word selects: its text and the callback. *)
Definition facility_of (error : Z) (st : ErrState) : option FacilityDesc :=
  let facility := Z.land (Z.shiftr error 24) 0x0F in
  if (Z.land (u32 error) 0x80000000 =? 0) || (facility <=? 0) then None
  else facility_codes st !! Z.to_nat (facility - 1).

Lemma ela_get_strerror_eq error buf len st :
  ela_get_strerror error buf len st =
  match (if buf then facility_of error st else None) with
  | None => Ok (ela_set_error (ELA_GENERAL_ERROR ELAERR_INVALID_ARGS) st, None)
  | Some fd =>
      if len <? strlen (desc fd)
      then Ok (ela_set_error (ELA_GENERAL_ERROR ELAERR_BUFFER_TOO_SMALL) st, None)
      else
        prefix ← strcpy len (desc fd);
        let '(rc, text) :=
          match errstring fd with
          | Some f => f (Z.land error 0x00FFFFFF) (len - strlen (desc fd))
          | None => (0, "")
          end in
        if rc <? 0 then Ok (ela_set_error rc st, None) else Ok (st, Some (prefix +:+ text))
  end.
Proof.
  unfold ela_get_strerror, facility_of. destruct buf; cbn [negb orb]; [|done].
  rewrite negb_involutive.
  set (g := Z.land (Z.shiftr error 24) 15).
  destruct (_ =? 0); cbn [orb]; [done|].
  destruct (Z.leb_spec g 0); cbn [orb]; [done|].
  case (Z.ltb_spec (Z.of_nat (length (facility_codes st))) g); intros Hg.
  - by rewrite (lookup_ge_None_2 (facility_codes st)) by lia.
  - destruct (lookup_lt_is_Some_2 (facility_codes st) (Z.to_nat (g - 1))) as [fd ->]; [lia|].
    done.
Qed.

(** [ela_get_strerror] writes outside the caller's buffer in exactly one
    case: the buffer is as long as the facility's prefix and has no byte left
    for the terminator [strcpy] appends (its test is [len < desc_len]).  With
    any other length it returns. *)
Theorem ela_get_strerror_fault_iff error buf len st f :
  ela_get_strerror error buf len st = Fault f <->
  buf = true /\ f = BufferOverflow /\
  exists fd, facility_of error st = Some fd /\ len = strlen (desc fd).
Proof.
  rewrite ela_get_strerror_eq. destruct buf; [|by split; [|intros (? & _)]].
  destruct (facility_of error st) as [fd|]; [|by split; [|intros (_ & _ & ? & ? & _)]].
  case (Z.ltb_spec len (strlen (desc fd))); intros Hlen.
  { split; [done|]. intros (_ & _ & fd' & [= <-] & ->). lia. }
  unfold strcpy. case (Z.ltb_spec (strlen (desc fd)) len); intros Hlen'; cbn.
  - split.
    + by repeat case_match.
    + intros (_ & _ & fd' & [= <-] & ->). lia.
  - split.
    + intros [= <-]. split_and!; [done..|]. exists fd. split; [done|lia].
    + by intros (_ & -> & _).
Qed.

(** The overflow happens: facility 3 has no callback, its prefix
    "Reserved facility" has 17 characters, and a 17-byte buffer gets 18. *)
Example ela_get_strerror_overflow strerror_r :
  ela_get_strerror (ELA_MK_ERROR 3 1) true 17
    {| ela_error := 0; facility_codes := initial_facilities strerror_r |}
  = Fault BufferOverflow.
Proof. reflexivity. Qed.

(** The text of an error word whose facility takes its texts from the table. *)
Lemma get_strerror_table error len st prefix d :
  facility_of error st = Some {| desc := prefix; errstring := Some general_error |} ->
  find_errdesc (Z.land error 0x00FFFFFF) error_codes = Some d ->
  ela_get_strerror error true len st =
    if len <? strlen prefix then Ok (ela_set_error (ELA_GENERAL_ERROR ELAERR_BUFFER_TOO_SMALL) st, None)
    else if len =? strlen prefix then Fault BufferOverflow
    else if len <=? strlen prefix + strlen d
    then Ok (ela_set_error (ELA_GENERAL_ERROR ELAERR_INVALID_ARGS) st, None)
    else Ok (st, Some (prefix +:+ d)).
Proof.
  intros Hfac Hfind. rewrite ela_get_strerror_eq, Hfac. cbn [desc errstring].
  destruct (Z.ltb_spec len (strlen prefix)); [done|].
  destruct (Z.eqb_spec len (strlen prefix)) as [->|]; [unfold strcpy; by rewrite Z.ltb_irrefl|].
  rewrite strcpy_Ok by lia. cbn. unfold general_error. rewrite Hfind.
  destruct (Z.leb_spec (len - strlen prefix) (strlen d)), (Z.leb_spec len (strlen prefix + strlen d)); try lia; done.
Qed.

(** For every code of the table of descriptions, the general error word is
    formatted as "[General] " followed by the description whenever both fit with
    their terminator, and the call reports the reason when they do not. *)
Theorem ela_get_strerror_general strerror_r len err code d :
  let st := {| ela_error := err; facility_codes := initial_facilities strerror_r |} in
  (code, d) ∈ error_codes ->
  ela_get_strerror (ELA_GENERAL_ERROR code) true len st =
    if len <? 10 then Ok (ela_set_error (ELA_GENERAL_ERROR ELAERR_BUFFER_TOO_SMALL) st, None)
    else if len =? 10 then Fault BufferOverflow
    else if len <=? 10 + strlen d
    then Ok (ela_set_error (ELA_GENERAL_ERROR ELAERR_INVALID_ARGS) st, None)
    else Ok (st, Some ("[General] " +:+ d)).
Proof.
  intros st Hin.
  assert (facility_of (ELA_GENERAL_ERROR code) st
            = Some {| desc := "[General] "; errstring := Some general_error |}
          /\ find_errdesc (Z.land (ELA_GENERAL_ERROR code) 0x00FFFFFF) error_codes = Some d)
    as [Hfac Hfind].
  { clear - Hin. unfold error_codes in Hin.
    repeat (apply elem_of_cons in Hin as [[= -> ->]|Hin]; [done|]). by apply not_elem_of_nil in Hin. }
  exact (get_strerror_table _ _ _ _ _ Hfac Hfind).
Qed.

Lemma not_ready_described : (ELAERR_NOT_READY, "Carrier is not ready"%string) ∈ error_codes.
Proof. apply list_elem_of_In. vm_compute. tauto. Qed.

Lemma ela_get_strerror_general_witness :
  (ELAERR_NOT_READY, "Carrier is not ready"%string) ∈ error_codes /\
  ela_get_strerror (ELA_GENERAL_ERROR ELAERR_NOT_READY) true 64
    {| ela_error := 0; facility_codes := initial_facilities (fun _ _ => (0, "")) |} =
  Ok ({| ela_error := 0; facility_codes := initial_facilities (fun _ _ => (0, "")) |},
      Some "[General] Carrier is not ready"%string).
Proof.
  split; [exact not_ready_described|].
  exact (ela_get_strerror_general (fun _ _ => (0, "")) 64 0 _ _ not_ready_described).
Defined.
