(* ===== verification/ToxErrors.v ===== *)
(** * The errors of toxcore (src/src/carrier/dht/dht.c)

    The error enumerations of toxcore that the adapter knows, each with a constructor
    for the values it does not name, and their translation to the error words of the
    SDK, one function for each. *)

From S2P Require Import Prelude ElaError.

Definition ELA_DHT_ERROR (code : Z) : Z := ELA_MK_ERROR ELAF_DHT code.

Definition ELAERR_BAD_PERSISTENT_DATA : Z := 0x04.
Definition ELAERR_PORT_ALLOC : Z := 0x17.
Definition ELAERR_BAD_PROXY_TYPE : Z := 0x18.
Definition ELAERR_BAD_PROXY_HOST : Z := 0x19.
Definition ELAERR_BAD_PROXY_PORT : Z := 0x1A.
Definition ELAERR_PROXY_NOT_AVAILABLE : Z := 0x1B.
Definition ELAERR_ENCRYPTED_PERSISTENT_DATA : Z := 0x1C.
Definition ELAERR_BAD_BOOTSTRAP_HOST : Z := 0x1D.
Definition ELAERR_BAD_BOOTSTRAP_PORT : Z := 0x1E.
Definition ELAERR_TOO_LONG : Z := 0x1F.
Definition ELAERR_ADD_SELF : Z := 0x20.
Definition ELAERR_BAD_ADDRESS : Z := 0x21.
Definition ELAERR_FRIEND_OFFLINE : Z := 0x22.

(** ** The enumerations *)

Inductive TOX_ERR_NEW :=
| TOX_ERR_NEW_OK | TOX_ERR_NEW_NULL | TOX_ERR_NEW_MALLOC | TOX_ERR_NEW_PORT_ALLOC
| TOX_ERR_NEW_PROXY_BAD_TYPE | TOX_ERR_NEW_PROXY_BAD_HOST | TOX_ERR_NEW_PROXY_BAD_PORT
| TOX_ERR_NEW_PROXY_NOT_FOUND | TOX_ERR_NEW_LOAD_ENCRYPTED | TOX_ERR_NEW_LOAD_BAD_FORMAT
| TOX_ERR_NEW_other (code : Z).

Inductive TOX_ERR_BOOTSTRAP :=
| TOX_ERR_BOOTSTRAP_OK | TOX_ERR_BOOTSTRAP_NULL | TOX_ERR_BOOTSTRAP_BAD_HOST
| TOX_ERR_BOOTSTRAP_BAD_PORT | TOX_ERR_BOOTSTRAP_other (code : Z).

Inductive TOX_ERR_FRIEND_QUERY :=
| TOX_ERR_FRIEND_QUERY_OK | TOX_ERR_FRIEND_QUERY_NULL | TOX_ERR_FRIEND_QUERY_FRIEND_NOT_FOUND
| TOX_ERR_FRIEND_QUERY_other (code : Z).

Inductive TOX_ERR_FRIEND_GET_PUBLIC_KEY :=
| TOX_ERR_FRIEND_GET_PUBLIC_KEY_OK | TOX_ERR_FRIEND_GET_PUBLIC_KEY_FRIEND_NOT_FOUND
| TOX_ERR_FRIEND_GET_PUBLIC_KEY_other (code : Z).

Inductive TOX_ERR_SET_INFO :=
| TOX_ERR_SET_INFO_OK | TOX_ERR_SET_INFO_NULL | TOX_ERR_SET_INFO_TOO_LONG | TOX_ERR_SET_INFO_other (code : Z).

Inductive TOX_ERR_FRIEND_BY_PUBLIC_KEY :=
| TOX_ERR_FRIEND_BY_PUBLIC_KEY_OK | TOX_ERR_FRIEND_BY_PUBLIC_KEY_NULL
| TOX_ERR_FRIEND_BY_PUBLIC_KEY_NOT_FOUND | TOX_ERR_FRIEND_BY_PUBLIC_KEY_other (code : Z).

Inductive TOX_ERR_FRIEND_ADD :=
| TOX_ERR_FRIEND_ADD_OK | TOX_ERR_FRIEND_ADD_NULL | TOX_ERR_FRIEND_ADD_TOO_LONG
| TOX_ERR_FRIEND_ADD_NO_MESSAGE | TOX_ERR_FRIEND_ADD_OWN_KEY | TOX_ERR_FRIEND_ADD_ALREADY_SENT
| TOX_ERR_FRIEND_ADD_BAD_CHECKSUM | TOX_ERR_FRIEND_ADD_SET_NEW_NOSPAM | TOX_ERR_FRIEND_ADD_MALLOC
| TOX_ERR_FRIEND_ADD_other (code : Z).

Inductive TOX_ERR_FRIEND_SEND_MESSAGE :=
| TOX_ERR_FRIEND_SEND_MESSAGE_OK | TOX_ERR_FRIEND_SEND_MESSAGE_NULL
| TOX_ERR_FRIEND_SEND_MESSAGE_FRIEND_NOT_FOUND | TOX_ERR_FRIEND_SEND_MESSAGE_FRIEND_NOT_CONNECTED
| TOX_ERR_FRIEND_SEND_MESSAGE_SENDQ | TOX_ERR_FRIEND_SEND_MESSAGE_TOO_LONG
| TOX_ERR_FRIEND_SEND_MESSAGE_EMPTY | TOX_ERR_FRIEND_SEND_MESSAGE_other (code : Z).

Inductive TOX_ERR_FRIEND_DELETE :=
| TOX_ERR_FRIEND_DELETE_OK | TOX_ERR_FRIEND_DELETE_FRIEND_NOT_FOUND | TOX_ERR_FRIEND_DELETE_other (code : Z).

Inductive TOX_ERR_CONFERENCE_BY_ID :=
| TOX_ERR_CONFERENCE_BY_ID_OK | TOX_ERR_CONFERENCE_BY_ID_NULL | TOX_ERR_CONFERENCE_BY_ID_NOT_FOUND
| TOX_ERR_CONFERENCE_BY_ID_other (code : Z).

Inductive TOX_ERR_CONFERENCE_NEW :=
| TOX_ERR_CONFERENCE_NEW_OK | TOX_ERR_CONFERENCE_NEW_INIT | TOX_ERR_CONFERENCE_NEW_other (code : Z).

Inductive TOX_ERR_CONFERENCE_DELETE :=
| TOX_ERR_CONFERENCE_DELETE_OK | TOX_ERR_CONFERENCE_DELETE_CONFERENCE_NOT_FOUND
| TOX_ERR_CONFERENCE_DELETE_other (code : Z).

Inductive TOX_ERR_CONFERENCE_INVITE :=
| TOX_ERR_CONFERENCE_INVITE_OK | TOX_ERR_CONFERENCE_INVITE_CONFERENCE_NOT_FOUND
| TOX_ERR_CONFERENCE_INVITE_FAIL_SEND | TOX_ERR_CONFERENCE_INVITE_other (code : Z).

Inductive TOX_ERR_CONFERENCE_JOIN :=
| TOX_ERR_CONFERENCE_JOIN_OK | TOX_ERR_CONFERENCE_JOIN_INVALID_LENGTH
| TOX_ERR_CONFERENCE_JOIN_WRONG_TYPE | TOX_ERR_CONFERENCE_JOIN_FRIEND_NOT_FOUND
| TOX_ERR_CONFERENCE_JOIN_DUPLICATE | TOX_ERR_CONFERENCE_JOIN_INIT_FAIL
| TOX_ERR_CONFERENCE_JOIN_FAIL_SEND | TOX_ERR_CONFERENCE_JOIN_other (code : Z).

Inductive TOX_ERR_CONFERENCE_SEND_MESSAGE :=
| TOX_ERR_CONFERENCE_SEND_MESSAGE_OK | TOX_ERR_CONFERENCE_SEND_MESSAGE_CONFERENCE_NOT_FOUND
| TOX_ERR_CONFERENCE_SEND_MESSAGE_TOO_LONG | TOX_ERR_CONFERENCE_SEND_MESSAGE_NO_CONNECTION
| TOX_ERR_CONFERENCE_SEND_MESSAGE_FAIL_SEND | TOX_ERR_CONFERENCE_SEND_MESSAGE_other (code : Z).

Inductive TOX_ERR_CONFERENCE_TITLE :=
| TOX_ERR_CONFERENCE_TITLE_OK | TOX_ERR_CONFERENCE_TITLE_CONFERENCE_NOT_FOUND
| TOX_ERR_CONFERENCE_TITLE_INVALID_LENGTH | TOX_ERR_CONFERENCE_TITLE_FAIL_SEND
| TOX_ERR_CONFERENCE_TITLE_other (code : Z).

Inductive TOX_ERR_CONFERENCE_PEER_QUERY :=
| TOX_ERR_CONFERENCE_PEER_QUERY_OK | TOX_ERR_CONFERENCE_PEER_QUERY_CONFERENCE_NOT_FOUND
| TOX_ERR_CONFERENCE_PEER_QUERY_PEER_NOT_FOUND | TOX_ERR_CONFERENCE_PEER_QUERY_NO_CONNECTION
| TOX_ERR_CONFERENCE_PEER_QUERY_other (code : Z).

(** ** Their translation *)

Definition __dht_new_error (code : TOX_ERR_NEW) : Z :=
  match code with
  | TOX_ERR_NEW_OK => 0
  | TOX_ERR_NEW_NULL => ELA_DHT_ERROR ELAERR_INVALID_ARGS
  | TOX_ERR_NEW_MALLOC => ELA_DHT_ERROR ELAERR_OUT_OF_MEMORY
  | TOX_ERR_NEW_PORT_ALLOC => ELA_DHT_ERROR ELAERR_PORT_ALLOC
  | TOX_ERR_NEW_PROXY_BAD_TYPE => ELA_DHT_ERROR ELAERR_BAD_PROXY_TYPE
  | TOX_ERR_NEW_PROXY_BAD_HOST => ELA_DHT_ERROR ELAERR_BAD_PROXY_HOST
  | TOX_ERR_NEW_PROXY_BAD_PORT => ELA_DHT_ERROR ELAERR_BAD_PROXY_PORT
  | TOX_ERR_NEW_PROXY_NOT_FOUND => ELA_DHT_ERROR ELAERR_PROXY_NOT_AVAILABLE
  | TOX_ERR_NEW_LOAD_ENCRYPTED => ELA_DHT_ERROR ELAERR_ENCRYPTED_PERSISTENT_DATA
  | TOX_ERR_NEW_LOAD_BAD_FORMAT => ELA_DHT_ERROR ELAERR_BAD_PERSISTENT_DATA
  | TOX_ERR_NEW_other _ => ELA_DHT_ERROR ELAERR_UNKNOWN
  end.

Definition __dht_bootstrap_error (code : TOX_ERR_BOOTSTRAP) : Z :=
  match code with
  | TOX_ERR_BOOTSTRAP_OK => 0
  | TOX_ERR_BOOTSTRAP_NULL => ELA_DHT_ERROR ELAERR_INVALID_ARGS
  | TOX_ERR_BOOTSTRAP_BAD_HOST => ELA_DHT_ERROR ELAERR_BAD_BOOTSTRAP_HOST
  | TOX_ERR_BOOTSTRAP_BAD_PORT => ELA_DHT_ERROR ELAERR_BAD_BOOTSTRAP_PORT
  | TOX_ERR_BOOTSTRAP_other _ => ELA_DHT_ERROR ELAERR_UNKNOWN
  end.

Definition __dht_friend_query_error (code : TOX_ERR_FRIEND_QUERY) : Z :=
  match code with
  | TOX_ERR_FRIEND_QUERY_OK => 0
  | TOX_ERR_FRIEND_QUERY_NULL => ELA_DHT_ERROR ELAERR_INVALID_ARGS
  | TOX_ERR_FRIEND_QUERY_FRIEND_NOT_FOUND => ELA_DHT_ERROR ELAERR_NOT_EXIST
  | TOX_ERR_FRIEND_QUERY_other _ => ELA_DHT_ERROR ELAERR_UNKNOWN
  end.

Definition __dht_friend_get_pk_error (code : TOX_ERR_FRIEND_GET_PUBLIC_KEY) : Z :=
  match code with
  | TOX_ERR_FRIEND_GET_PUBLIC_KEY_OK => 0
  | TOX_ERR_FRIEND_GET_PUBLIC_KEY_FRIEND_NOT_FOUND => ELA_DHT_ERROR ELAERR_NOT_EXIST
  | TOX_ERR_FRIEND_GET_PUBLIC_KEY_other _ => ELA_DHT_ERROR ELAERR_UNKNOWN
  end.

Definition __dht_set_info_error (code : TOX_ERR_SET_INFO) : Z :=
  match code with
  | TOX_ERR_SET_INFO_OK => 0
  | TOX_ERR_SET_INFO_NULL => ELA_DHT_ERROR ELAERR_INVALID_ARGS
  | TOX_ERR_SET_INFO_TOO_LONG => ELA_DHT_ERROR ELAERR_TOO_LONG
  | TOX_ERR_SET_INFO_other _ => ELA_DHT_ERROR ELAERR_UNKNOWN
  end.

Definition __dht_friend_by_pk_error (code : TOX_ERR_FRIEND_BY_PUBLIC_KEY) : Z :=
  match code with
  | TOX_ERR_FRIEND_BY_PUBLIC_KEY_OK => 0
  | TOX_ERR_FRIEND_BY_PUBLIC_KEY_NULL => ELA_DHT_ERROR ELAERR_INVALID_ARGS
  | TOX_ERR_FRIEND_BY_PUBLIC_KEY_NOT_FOUND => ELA_DHT_ERROR ELAERR_NOT_EXIST
  | TOX_ERR_FRIEND_BY_PUBLIC_KEY_other _ => ELA_DHT_ERROR ELAERR_UNKNOWN
  end.

Definition __dht_friend_add_error (code : TOX_ERR_FRIEND_ADD) : Z :=
  match code with
  | TOX_ERR_FRIEND_ADD_OK => 0
  | TOX_ERR_FRIEND_ADD_NULL => ELA_DHT_ERROR ELAERR_INVALID_ARGS
  | TOX_ERR_FRIEND_ADD_TOO_LONG => ELA_DHT_ERROR ELAERR_TOO_LONG
  | TOX_ERR_FRIEND_ADD_NO_MESSAGE => ELA_DHT_ERROR ELAERR_INVALID_ARGS
  | TOX_ERR_FRIEND_ADD_OWN_KEY => ELA_DHT_ERROR ELAERR_ADD_SELF
  | TOX_ERR_FRIEND_ADD_ALREADY_SENT => ELA_DHT_ERROR ELAERR_ALREADY_EXIST
  | TOX_ERR_FRIEND_ADD_BAD_CHECKSUM | TOX_ERR_FRIEND_ADD_SET_NEW_NOSPAM => ELA_DHT_ERROR ELAERR_BAD_ADDRESS
  | TOX_ERR_FRIEND_ADD_MALLOC => ELA_DHT_ERROR ELAERR_OUT_OF_MEMORY
  | TOX_ERR_FRIEND_ADD_other _ => ELA_DHT_ERROR ELAERR_UNKNOWN
  end.

Definition __dht_friend_send_msg_error (code : TOX_ERR_FRIEND_SEND_MESSAGE) : Z :=
  match code with
  | TOX_ERR_FRIEND_SEND_MESSAGE_OK => 0
  | TOX_ERR_FRIEND_SEND_MESSAGE_NULL => ELA_DHT_ERROR ELAERR_INVALID_ARGS
  | TOX_ERR_FRIEND_SEND_MESSAGE_FRIEND_NOT_FOUND => ELA_DHT_ERROR ELAERR_NOT_EXIST
  | TOX_ERR_FRIEND_SEND_MESSAGE_FRIEND_NOT_CONNECTED => ELA_DHT_ERROR ELAERR_FRIEND_OFFLINE
  | TOX_ERR_FRIEND_SEND_MESSAGE_SENDQ => ELA_DHT_ERROR ELAERR_OUT_OF_MEMORY
  | TOX_ERR_FRIEND_SEND_MESSAGE_TOO_LONG => ELA_DHT_ERROR ELAERR_TOO_LONG
  | TOX_ERR_FRIEND_SEND_MESSAGE_EMPTY => ELA_DHT_ERROR ELAERR_INVALID_ARGS
  | TOX_ERR_FRIEND_SEND_MESSAGE_other _ => ELA_DHT_ERROR ELAERR_UNKNOWN
  end.

Definition __dht_friend_delete_error (code : TOX_ERR_FRIEND_DELETE) : Z :=
  match code with
  | TOX_ERR_FRIEND_DELETE_OK => 0
  | TOX_ERR_FRIEND_DELETE_FRIEND_NOT_FOUND => ELA_DHT_ERROR ELAERR_NOT_EXIST
  | TOX_ERR_FRIEND_DELETE_other _ => ELA_DHT_ERROR ELAERR_UNKNOWN
  end.

Definition __dht_group_number_by_public_key_error (code : TOX_ERR_CONFERENCE_BY_ID) : Z :=
  match code with
  | TOX_ERR_CONFERENCE_BY_ID_OK => 0
  | TOX_ERR_CONFERENCE_BY_ID_NULL => ELA_DHT_ERROR ELAERR_INVALID_ARGS
  | TOX_ERR_CONFERENCE_BY_ID_NOT_FOUND => ELA_DHT_ERROR ELAERR_NOT_EXIST
  | TOX_ERR_CONFERENCE_BY_ID_other _ => ELA_DHT_ERROR ELAERR_UNKNOWN
  end.

Definition __dht_group_new_error (code : TOX_ERR_CONFERENCE_NEW) : Z :=
  match code with
  | TOX_ERR_CONFERENCE_NEW_OK => 0
  | TOX_ERR_CONFERENCE_NEW_INIT => ELA_DHT_ERROR ELAERR_WRONG_STATE
  | TOX_ERR_CONFERENCE_NEW_other _ => ELA_DHT_ERROR ELAERR_UNKNOWN
  end.

Definition __dht_group_delete_error (code : TOX_ERR_CONFERENCE_DELETE) : Z :=
  match code with
  | TOX_ERR_CONFERENCE_DELETE_OK => 0
  | TOX_ERR_CONFERENCE_DELETE_CONFERENCE_NOT_FOUND => ELA_DHT_ERROR ELAERR_NOT_EXIST
  | TOX_ERR_CONFERENCE_DELETE_other _ => ELA_DHT_ERROR ELAERR_UNKNOWN
  end.

Definition __dht_group_invite_error (code : TOX_ERR_CONFERENCE_INVITE) : Z :=
  match code with
  | TOX_ERR_CONFERENCE_INVITE_OK => 0
  | TOX_ERR_CONFERENCE_INVITE_CONFERENCE_NOT_FOUND => ELA_DHT_ERROR ELAERR_NOT_EXIST
  | TOX_ERR_CONFERENCE_INVITE_FAIL_SEND => ELA_DHT_ERROR ELAERR_WRONG_STATE
  | TOX_ERR_CONFERENCE_INVITE_other _ => ELA_DHT_ERROR ELAERR_UNKNOWN
  end.

Definition __dht_group_join_error (code : TOX_ERR_CONFERENCE_JOIN) : Z :=
  match code with
  | TOX_ERR_CONFERENCE_JOIN_OK => 0
  | TOX_ERR_CONFERENCE_JOIN_INVALID_LENGTH => ELA_DHT_ERROR ELAERR_TOO_LONG
  | TOX_ERR_CONFERENCE_JOIN_WRONG_TYPE => ELA_DHT_ERROR ELAERR_INVALID_ARGS
  | TOX_ERR_CONFERENCE_JOIN_FRIEND_NOT_FOUND => ELA_DHT_ERROR ELAERR_NOT_EXIST
  | TOX_ERR_CONFERENCE_JOIN_DUPLICATE => ELA_DHT_ERROR ELAERR_ALREADY_EXIST
  | TOX_ERR_CONFERENCE_JOIN_INIT_FAIL => ELA_DHT_ERROR ELAERR_WRONG_STATE
  | TOX_ERR_CONFERENCE_JOIN_FAIL_SEND => ELA_DHT_ERROR ELAERR_WRONG_STATE
  | TOX_ERR_CONFERENCE_JOIN_other _ => ELA_DHT_ERROR ELAERR_UNKNOWN
  end.

Definition __dht_group_send_message_error (code : TOX_ERR_CONFERENCE_SEND_MESSAGE) : Z :=
  match code with
  | TOX_ERR_CONFERENCE_SEND_MESSAGE_OK => 0
  | TOX_ERR_CONFERENCE_SEND_MESSAGE_CONFERENCE_NOT_FOUND => ELA_DHT_ERROR ELAERR_NOT_EXIST
  | TOX_ERR_CONFERENCE_SEND_MESSAGE_TOO_LONG => ELA_DHT_ERROR ELAERR_TOO_LONG
  | TOX_ERR_CONFERENCE_SEND_MESSAGE_NO_CONNECTION => ELA_DHT_ERROR ELAERR_NOT_EXIST
  | TOX_ERR_CONFERENCE_SEND_MESSAGE_FAIL_SEND => ELA_DHT_ERROR ELAERR_WRONG_STATE
  | TOX_ERR_CONFERENCE_SEND_MESSAGE_other _ => ELA_DHT_ERROR ELAERR_UNKNOWN
  end.

Definition __dht_group_title_error (code : TOX_ERR_CONFERENCE_TITLE) : Z :=
  match code with
  | TOX_ERR_CONFERENCE_TITLE_OK => 0
  | TOX_ERR_CONFERENCE_TITLE_CONFERENCE_NOT_FOUND => ELA_DHT_ERROR ELAERR_NOT_EXIST
  | TOX_ERR_CONFERENCE_TITLE_INVALID_LENGTH => ELA_DHT_ERROR ELAERR_TOO_LONG
  | TOX_ERR_CONFERENCE_TITLE_FAIL_SEND => ELA_DHT_ERROR ELAERR_WRONG_STATE
  | TOX_ERR_CONFERENCE_TITLE_other _ => ELA_DHT_ERROR ELAERR_UNKNOWN
  end.

Definition __dht_group_peer_query_error (code : TOX_ERR_CONFERENCE_PEER_QUERY) : Z :=
  match code with
  | TOX_ERR_CONFERENCE_PEER_QUERY_OK => 0
  | TOX_ERR_CONFERENCE_PEER_QUERY_CONFERENCE_NOT_FOUND => ELA_DHT_ERROR ELAERR_NOT_EXIST
  | TOX_ERR_CONFERENCE_PEER_QUERY_PEER_NOT_FOUND => ELA_DHT_ERROR ELAERR_NOT_EXIST
  | TOX_ERR_CONFERENCE_PEER_QUERY_NO_CONNECTION => ELA_DHT_ERROR ELAERR_WRONG_STATE
  | TOX_ERR_CONFERENCE_PEER_QUERY_other _ => ELA_DHT_ERROR ELAERR_UNKNOWN
  end.

(** ** The interface of an error *)

Class ToxError (E : Type) := {
  tox_ok : E -> bool;
  dht_code : E -> Z
}.

#[export] Instance TOX_ERR_NEW_class : ToxError TOX_ERR_NEW :=
  {| tox_ok code := match code with TOX_ERR_NEW_OK => true | _ => false end; dht_code := __dht_new_error |}.

#[export] Instance TOX_ERR_BOOTSTRAP_class : ToxError TOX_ERR_BOOTSTRAP :=
  {| tox_ok code := match code with TOX_ERR_BOOTSTRAP_OK => true | _ => false end; dht_code := __dht_bootstrap_error |}.

#[export] Instance TOX_ERR_FRIEND_QUERY_class : ToxError TOX_ERR_FRIEND_QUERY :=
  {| tox_ok code := match code with TOX_ERR_FRIEND_QUERY_OK => true | _ => false end; dht_code := __dht_friend_query_error |}.

#[export] Instance TOX_ERR_FRIEND_GET_PUBLIC_KEY_class : ToxError TOX_ERR_FRIEND_GET_PUBLIC_KEY :=
  {| tox_ok code := match code with TOX_ERR_FRIEND_GET_PUBLIC_KEY_OK => true | _ => false end; dht_code := __dht_friend_get_pk_error |}.

#[export] Instance TOX_ERR_SET_INFO_class : ToxError TOX_ERR_SET_INFO :=
  {| tox_ok code := match code with TOX_ERR_SET_INFO_OK => true | _ => false end; dht_code := __dht_set_info_error |}.

#[export] Instance TOX_ERR_FRIEND_BY_PUBLIC_KEY_class : ToxError TOX_ERR_FRIEND_BY_PUBLIC_KEY :=
  {| tox_ok code := match code with TOX_ERR_FRIEND_BY_PUBLIC_KEY_OK => true | _ => false end; dht_code := __dht_friend_by_pk_error |}.

#[export] Instance TOX_ERR_FRIEND_ADD_class : ToxError TOX_ERR_FRIEND_ADD :=
  {| tox_ok code := match code with TOX_ERR_FRIEND_ADD_OK => true | _ => false end; dht_code := __dht_friend_add_error |}.

#[export] Instance TOX_ERR_FRIEND_SEND_MESSAGE_class : ToxError TOX_ERR_FRIEND_SEND_MESSAGE :=
  {| tox_ok code := match code with TOX_ERR_FRIEND_SEND_MESSAGE_OK => true | _ => false end; dht_code := __dht_friend_send_msg_error |}.

#[export] Instance TOX_ERR_FRIEND_DELETE_class : ToxError TOX_ERR_FRIEND_DELETE :=
  {| tox_ok code := match code with TOX_ERR_FRIEND_DELETE_OK => true | _ => false end; dht_code := __dht_friend_delete_error |}.

#[export] Instance TOX_ERR_CONFERENCE_BY_ID_class : ToxError TOX_ERR_CONFERENCE_BY_ID :=
  {| tox_ok code := match code with TOX_ERR_CONFERENCE_BY_ID_OK => true | _ => false end; dht_code := __dht_group_number_by_public_key_error |}.

#[export] Instance TOX_ERR_CONFERENCE_NEW_class : ToxError TOX_ERR_CONFERENCE_NEW :=
  {| tox_ok code := match code with TOX_ERR_CONFERENCE_NEW_OK => true | _ => false end; dht_code := __dht_group_new_error |}.

#[export] Instance TOX_ERR_CONFERENCE_DELETE_class : ToxError TOX_ERR_CONFERENCE_DELETE :=
  {| tox_ok code := match code with TOX_ERR_CONFERENCE_DELETE_OK => true | _ => false end; dht_code := __dht_group_delete_error |}.

#[export] Instance TOX_ERR_CONFERENCE_INVITE_class : ToxError TOX_ERR_CONFERENCE_INVITE :=
  {| tox_ok code := match code with TOX_ERR_CONFERENCE_INVITE_OK => true | _ => false end; dht_code := __dht_group_invite_error |}.

#[export] Instance TOX_ERR_CONFERENCE_JOIN_class : ToxError TOX_ERR_CONFERENCE_JOIN :=
  {| tox_ok code := match code with TOX_ERR_CONFERENCE_JOIN_OK => true | _ => false end; dht_code := __dht_group_join_error |}.

#[export] Instance TOX_ERR_CONFERENCE_SEND_MESSAGE_class : ToxError TOX_ERR_CONFERENCE_SEND_MESSAGE :=
  {| tox_ok code := match code with TOX_ERR_CONFERENCE_SEND_MESSAGE_OK => true | _ => false end; dht_code := __dht_group_send_message_error |}.

#[export] Instance TOX_ERR_CONFERENCE_TITLE_class : ToxError TOX_ERR_CONFERENCE_TITLE :=
  {| tox_ok code := match code with TOX_ERR_CONFERENCE_TITLE_OK => true | _ => false end; dht_code := __dht_group_title_error |}.

#[export] Instance TOX_ERR_CONFERENCE_PEER_QUERY_class : ToxError TOX_ERR_CONFERENCE_PEER_QUERY :=
  {| tox_ok code := match code with TOX_ERR_CONFERENCE_PEER_QUERY_OK => true | _ => false end; dht_code := __dht_group_peer_query_error |}.

(** The error words of the adapter, with their texts in the table of descriptions. *)
Definition has_text (rc : Z) : Prop :=
  exists code text, (code, text) ∈ error_codes /\ rc = ELA_DHT_ERROR code.

(** Success is translated to 0 and everything else to an error word with a text. *)
Class ToxErrorLaws (E : Type) `{!ToxError E} := {
  dht_code_ok (e : E) : tox_ok e = true -> dht_code e = 0;
  dht_code_error (e : E) : tox_ok e = false -> has_text (dht_code e)
}.

Lemma describe code text : (code, text) ∈ error_codes -> has_text (ELA_DHT_ERROR code).
Proof. by exists code, text. Qed.

Lemma error_codes_range code text : (code, text) ∈ error_codes -> 0 <= code < 256.
Proof.
  assert (Forall (fun p : Z * string => 0 <= p.1 < 256) error_codes) as Hall
    by (apply (bool_decide_unpack _); by vm_compute).
  intros Hin. by apply (proj1 (Forall_forall _ _) Hall (code, text)).
Qed.

Lemma has_text_negative rc : has_text rc -> rc < 0.
Proof.
  intros (code & text & Hin%error_codes_range & ->). unfold ELA_DHT_ERROR.
  rewrite ELA_MK_ERROR_value by (unfold ELAF_DHT; lia). unfold ELAF_DHT. lia.
Qed.

Ltac tox_laws :=
  split; [intros e; by destruct e|];
  intros e; destruct e; try done; intros _; (eapply describe; apply list_elem_of_In; vm_compute; tauto).

#[export] Instance TOX_ERR_NEW_laws : ToxErrorLaws TOX_ERR_NEW.
Proof. tox_laws. Qed.
#[export] Instance TOX_ERR_BOOTSTRAP_laws : ToxErrorLaws TOX_ERR_BOOTSTRAP.
Proof. tox_laws. Qed.
#[export] Instance TOX_ERR_FRIEND_QUERY_laws : ToxErrorLaws TOX_ERR_FRIEND_QUERY.
Proof. tox_laws. Qed.
#[export] Instance TOX_ERR_FRIEND_GET_PUBLIC_KEY_laws : ToxErrorLaws TOX_ERR_FRIEND_GET_PUBLIC_KEY.
Proof. tox_laws. Qed.
#[export] Instance TOX_ERR_SET_INFO_laws : ToxErrorLaws TOX_ERR_SET_INFO.
Proof. tox_laws. Qed.
#[export] Instance TOX_ERR_FRIEND_BY_PUBLIC_KEY_laws : ToxErrorLaws TOX_ERR_FRIEND_BY_PUBLIC_KEY.
Proof. tox_laws. Qed.
#[export] Instance TOX_ERR_FRIEND_ADD_laws : ToxErrorLaws TOX_ERR_FRIEND_ADD.
Proof. tox_laws. Qed.
#[export] Instance TOX_ERR_FRIEND_SEND_MESSAGE_laws : ToxErrorLaws TOX_ERR_FRIEND_SEND_MESSAGE.
Proof. tox_laws. Qed.
#[export] Instance TOX_ERR_FRIEND_DELETE_laws : ToxErrorLaws TOX_ERR_FRIEND_DELETE.
Proof. tox_laws. Qed.
#[export] Instance TOX_ERR_CONFERENCE_BY_ID_laws : ToxErrorLaws TOX_ERR_CONFERENCE_BY_ID.
Proof. tox_laws. Qed.
#[export] Instance TOX_ERR_CONFERENCE_NEW_laws : ToxErrorLaws TOX_ERR_CONFERENCE_NEW.
Proof. tox_laws. Qed.
#[export] Instance TOX_ERR_CONFERENCE_DELETE_laws : ToxErrorLaws TOX_ERR_CONFERENCE_DELETE.
Proof. tox_laws. Qed.
#[export] Instance TOX_ERR_CONFERENCE_INVITE_laws : ToxErrorLaws TOX_ERR_CONFERENCE_INVITE.
Proof. tox_laws. Qed.
#[export] Instance TOX_ERR_CONFERENCE_JOIN_laws : ToxErrorLaws TOX_ERR_CONFERENCE_JOIN.
Proof. tox_laws. Qed.
#[export] Instance TOX_ERR_CONFERENCE_SEND_MESSAGE_laws : ToxErrorLaws TOX_ERR_CONFERENCE_SEND_MESSAGE.
Proof. tox_laws. Qed.
#[export] Instance TOX_ERR_CONFERENCE_TITLE_laws : ToxErrorLaws TOX_ERR_CONFERENCE_TITLE.
Proof. tox_laws. Qed.
#[export] Instance TOX_ERR_CONFERENCE_PEER_QUERY_laws : ToxErrorLaws TOX_ERR_CONFERENCE_PEER_QUERY.
Proof. tox_laws. Qed.

(** The text of an error word of the adapter, in a buffer with room for it. *)
Lemma has_text_shown strerror_r rc err len : has_text rc -> 64 <= len ->
  exists text, (exists code, (code, text) ∈ error_codes /\ rc = ELA_DHT_ERROR code) /\
    ela_get_strerror rc true len {| ela_error := err; facility_codes := initial_facilities strerror_r |} =
      Ok ({| ela_error := err; facility_codes := initial_facilities strerror_r |}, Some ("[DHT] " +:+ text)).
Proof.
  intros (code & text & Hin & ->) Hlen. exists text. split; [by exists code|].
  assert (strlen text < 58) as Hs.
  { assert (Forall (fun p : Z * string => strlen p.2 < 58) error_codes) as Hall
      by (apply (bool_decide_unpack _); by vm_compute).
    by apply (proj1 (Forall_forall _ _) Hall (code, text)). }
  assert (facility_of (ELA_DHT_ERROR code) {| ela_error := err; facility_codes := initial_facilities strerror_r |}
            = Some {| desc := "[DHT] "; errstring := Some dht_error |}
          /\ find_errdesc (Z.land (ELA_DHT_ERROR code) 0x00FFFFFF) error_codes = Some text) as [Hfac Hfind].
  { clear - Hin. unfold error_codes in Hin.
    repeat (apply elem_of_cons in Hin as [[= -> ->]|Hin]; [done|]). by apply not_elem_of_nil in Hin. }
  rewrite (get_strerror_table _ _ _ _ _ Hfac Hfind). change (strlen "[DHT] ") with 6.
  by rewrite (proj2 (Z.ltb_ge _ _)), (proj2 (Z.eqb_neq _ _)), (proj2 (Z.leb_gt _ _)) by lia.
Qed.
