(* ===== verification/ElaCP.v ===== *)
(** * Carrier packets (src/carrier/elacp.c, elacp.fbs)

    The tagged union behind [ElaCP], its typed getters and setters, and the
    encoding to and decoding from FlatBuffers.  The FlatBuffers runtime (flatcc
    and the accessors it generates) is an interface: a packet table with its
    slots goes in, an opaque buffer comes out, and reading that buffer gives the
    table back.  Which slot each field of each table goes to is elacp.fbs. *)

From S2P Require Import Prelude.

(** ** Packets *)

Definition ELACP_TYPE_USERINFO : Z := 3.
Definition ELACP_TYPE_FRIEND_REQUEST : Z := 6.
Definition ELACP_TYPE_MESSAGE : Z := 33.
Definition ELACP_TYPE_INVITE_REQUEST : Z := 34.
Definition ELACP_TYPE_INVITE_RESPONSE : Z := 35.

Record ElaCPUserInfo := {
  ui_has_avatar : bool;
  ui_name : option string;
  ui_descr : option string;
  ui_phone : option string;
  ui_gender : option string;
  ui_email : option string;
  ui_region : option string
}.

Record ElaCPFriendReq := {
  fr_name : option string;
  fr_descr : option string;
  fr_hello : option string
}.

(** [msg] or [data] with its length: the pointed-to bytes, or null. *)
Record ElaCPFriendMsg := { fm_msg : option (list byte) }.

Record ElaCPInviteReq := {
  iq_tid : Z;
  iq_bundle : option string;
  iq_totalsz : Z;
  iq_data : option (list byte)
}.

Record ElaCPInviteRsp := {
  is_tid : Z;
  is_bundle : option string;
  is_totalsz : Z;
  is_status : Z;
  is_reason : option string;
  is_data : option (list byte)
}.

Inductive ElaCPBody :=
| UserInfo (p : ElaCPUserInfo)
| FriendReq (p : ElaCPFriendReq)
| FriendMsg (p : ElaCPFriendMsg)
| InviteReq (p : ElaCPInviteReq)
| InviteRsp (p : ElaCPInviteRsp).

(** The header's [type] selects the structure the packet was allocated as, so
    it is read off the body. *)
Record ElaCP := { ext : option string; body : ElaCPBody }.

Definition elacp_get_type (cp : ElaCP) : Z :=
  match body cp with
  | UserInfo _ => ELACP_TYPE_USERINFO
  | FriendReq _ => ELACP_TYPE_FRIEND_REQUEST
  | FriendMsg _ => ELACP_TYPE_MESSAGE
  | InviteReq _ => ELACP_TYPE_INVITE_REQUEST
  | InviteRsp _ => ELACP_TYPE_INVITE_RESPONSE
  end.

Definition elacp_get_extension (cp : ElaCP) : option string := ext cp.

(** The structures as [calloc] leaves them. *)
Definition zero_body (type : Z) : option ElaCPBody :=
  if type =? ELACP_TYPE_USERINFO then
    Some (UserInfo {| ui_has_avatar := false; ui_name := None; ui_descr := None;
      ui_phone := None; ui_gender := None; ui_email := None; ui_region := None |})
  else if type =? ELACP_TYPE_FRIEND_REQUEST then
    Some (FriendReq {| fr_name := None; fr_descr := None; fr_hello := None |})
  else if type =? ELACP_TYPE_MESSAGE then Some (FriendMsg {| fm_msg := None |})
  else if type =? ELACP_TYPE_INVITE_REQUEST then
    Some (InviteReq {| iq_tid := 0; iq_bundle := None; iq_totalsz := 0; iq_data := None |})
  else if type =? ELACP_TYPE_INVITE_RESPONSE then
    Some (InviteRsp {| is_tid := 0; is_bundle := None; is_totalsz := 0; is_status := 0;
      is_reason := None; is_data := None |})
  else None.

Definition elacp_create (type : Z) (ext_name : option string) : Res ElaCP :=
  match zero_body type with
  | Some b => Ok {| ext := ext_name; body := b |}
  | None => Fault AssertFailed
  end.

(** ** Getters: a field the packet's type does not have fails the assertion. *)

Definition elacp_get_name (cp : ElaCP) : Res (option string) :=
  match body cp with
  | UserInfo p => Ok (ui_name p)
  | FriendReq p => Ok (fr_name p)
  | _ => Fault AssertFailed
  end.

Definition elacp_get_descr (cp : ElaCP) : Res (option string) :=
  match body cp with
  | UserInfo p => Ok (ui_descr p)
  | FriendReq p => Ok (fr_descr p)
  | _ => Fault AssertFailed
  end.

Definition elacp_get_gender (cp : ElaCP) : Res (option string) :=
  match body cp with UserInfo p => Ok (ui_gender p) | _ => Fault AssertFailed end.

Definition elacp_get_phone (cp : ElaCP) : Res (option string) :=
  match body cp with UserInfo p => Ok (ui_phone p) | _ => Fault AssertFailed end.

Definition elacp_get_email (cp : ElaCP) : Res (option string) :=
  match body cp with UserInfo p => Ok (ui_email p) | _ => Fault AssertFailed end.

Definition elacp_get_region (cp : ElaCP) : Res (option string) :=
  match body cp with UserInfo p => Ok (ui_region p) | _ => Fault AssertFailed end.

Definition elacp_get_has_avatar (cp : ElaCP) : Res bool :=
  match body cp with UserInfo p => Ok (ui_has_avatar p) | _ => Fault AssertFailed end.

Definition elacp_get_hello (cp : ElaCP) : Res (option string) :=
  match body cp with FriendReq p => Ok (fr_hello p) | _ => Fault AssertFailed end.

Definition elacp_get_tid (cp : ElaCP) : Res Z :=
  match body cp with
  | InviteReq p => Ok (iq_tid p)
  | InviteRsp p => Ok (is_tid p)
  | _ => Fault AssertFailed
  end.

Definition elacp_get_totalsz (cp : ElaCP) : Res Z :=
  match body cp with
  | InviteReq p => Ok (iq_totalsz p)
  | InviteRsp p => Ok (is_totalsz p)
  | _ => Fault AssertFailed
  end.

Definition elacp_get_status (cp : ElaCP) : Res Z :=
  match body cp with InviteRsp p => Ok (is_status p) | _ => Fault AssertFailed end.

Definition elacp_get_raw_data (cp : ElaCP) : Res (option (list byte)) :=
  match body cp with
  | FriendMsg p => Ok (fm_msg p)
  | InviteReq p => Ok (iq_data p)
  | InviteRsp p => Ok (is_data p)
  | _ => Fault AssertFailed
  end.

Definition elacp_get_raw_data_length (cp : ElaCP) : Res Z :=
  data ← elacp_get_raw_data cp;
  Ok (match data with Some d => Z.of_nat (length d) | None => 0 end).

Definition elacp_get_bundle (cp : ElaCP) : Res (option string) :=
  match body cp with
  | InviteReq p => Ok (iq_bundle p)
  | InviteRsp p => Ok (is_bundle p)
  | _ => Fault AssertFailed
  end.

Definition elacp_get_reason (cp : ElaCP) : Res (option string) :=
  match body cp with InviteRsp p => Ok (is_reason p) | _ => Fault AssertFailed end.

(** ** Setters: besides the type, they assert that the pointer is not null. *)

Definition with_body (cp : ElaCP) (b : ElaCPBody) : ElaCP := {| ext := ext cp; body := b |}.

Definition not_null {A} (p : option A) : Res unit := c_assert (bool_decide (is_Some p)).

Definition elacp_set_name (cp : ElaCP) (name : option string) : Res ElaCP :=
  not_null name;;
  match body cp with
  | UserInfo p => Ok (with_body cp (UserInfo
      {| ui_has_avatar := ui_has_avatar p; ui_name := name; ui_descr := ui_descr p;
         ui_phone := ui_phone p; ui_gender := ui_gender p; ui_email := ui_email p;
         ui_region := ui_region p |}))
  | FriendReq p => Ok (with_body cp (FriendReq
      {| fr_name := name; fr_descr := fr_descr p; fr_hello := fr_hello p |}))
  | _ => Fault AssertFailed
  end.

Definition elacp_set_descr (cp : ElaCP) (descr : option string) : Res ElaCP :=
  not_null descr;;
  match body cp with
  | UserInfo p => Ok (with_body cp (UserInfo
      {| ui_has_avatar := ui_has_avatar p; ui_name := ui_name p; ui_descr := descr;
         ui_phone := ui_phone p; ui_gender := ui_gender p; ui_email := ui_email p;
         ui_region := ui_region p |}))
  | FriendReq p => Ok (with_body cp (FriendReq
      {| fr_name := fr_name p; fr_descr := descr; fr_hello := fr_hello p |}))
  | _ => Fault AssertFailed
  end.

Definition elacp_set_gender (cp : ElaCP) (gender : option string) : Res ElaCP :=
  not_null gender;;
  match body cp with
  | UserInfo p => Ok (with_body cp (UserInfo
      {| ui_has_avatar := ui_has_avatar p; ui_name := ui_name p; ui_descr := ui_descr p;
         ui_phone := ui_phone p; ui_gender := gender; ui_email := ui_email p;
         ui_region := ui_region p |}))
  | _ => Fault AssertFailed
  end.

Definition elacp_set_phone (cp : ElaCP) (phone : option string) : Res ElaCP :=
  not_null phone;;
  match body cp with
  | UserInfo p => Ok (with_body cp (UserInfo
      {| ui_has_avatar := ui_has_avatar p; ui_name := ui_name p; ui_descr := ui_descr p;
         ui_phone := phone; ui_gender := ui_gender p; ui_email := ui_email p;
         ui_region := ui_region p |}))
  | _ => Fault AssertFailed
  end.

Definition elacp_set_email (cp : ElaCP) (email : option string) : Res ElaCP :=
  not_null email;;
  match body cp with
  | UserInfo p => Ok (with_body cp (UserInfo
      {| ui_has_avatar := ui_has_avatar p; ui_name := ui_name p; ui_descr := ui_descr p;
         ui_phone := ui_phone p; ui_gender := ui_gender p; ui_email := email;
         ui_region := ui_region p |}))
  | _ => Fault AssertFailed
  end.

Definition elacp_set_region (cp : ElaCP) (region : option string) : Res ElaCP :=
  not_null region;;
  match body cp with
  | UserInfo p => Ok (with_body cp (UserInfo
      {| ui_has_avatar := ui_has_avatar p; ui_name := ui_name p; ui_descr := ui_descr p;
         ui_phone := ui_phone p; ui_gender := ui_gender p; ui_email := ui_email p;
         ui_region := region |}))
  | _ => Fault AssertFailed
  end.

Definition elacp_set_has_avatar (cp : ElaCP) (has_avatar : Z) : Res ElaCP :=
  match body cp with
  | UserInfo p => Ok (with_body cp (UserInfo
      {| ui_has_avatar := negb (has_avatar =? 0); ui_name := ui_name p;
         ui_descr := ui_descr p; ui_phone := ui_phone p; ui_gender := ui_gender p;
         ui_email := ui_email p; ui_region := ui_region p |}))
  | _ => Fault AssertFailed
  end.

Definition elacp_set_hello (cp : ElaCP) (hello : option string) : Res ElaCP :=
  not_null hello;;
  match body cp with
  | FriendReq p => Ok (with_body cp (FriendReq
      {| fr_name := fr_name p; fr_descr := fr_descr p; fr_hello := hello |}))
  | _ => Fault AssertFailed
  end.

Definition elacp_set_tid (cp : ElaCP) (tid : Z) : Res ElaCP :=
  match body cp with
  | InviteReq p => Ok (with_body cp (InviteReq
      {| iq_tid := tid; iq_bundle := iq_bundle p; iq_totalsz := iq_totalsz p;
         iq_data := iq_data p |}))
  | InviteRsp p => Ok (with_body cp (InviteRsp
      {| is_tid := tid; is_bundle := is_bundle p; is_totalsz := is_totalsz p;
         is_status := is_status p; is_reason := is_reason p; is_data := is_data p |}))
  | _ => Fault AssertFailed
  end.

Definition elacp_set_totalsz (cp : ElaCP) (totalsz : Z) : Res ElaCP :=
  match body cp with
  | InviteReq p => Ok (with_body cp (InviteReq
      {| iq_tid := iq_tid p; iq_bundle := iq_bundle p; iq_totalsz := totalsz;
         iq_data := iq_data p |}))
  | InviteRsp p => Ok (with_body cp (InviteRsp
      {| is_tid := is_tid p; is_bundle := is_bundle p; is_totalsz := totalsz;
         is_status := is_status p; is_reason := is_reason p; is_data := is_data p |}))
  | _ => Fault AssertFailed
  end.

Definition elacp_set_status (cp : ElaCP) (status : Z) : Res ElaCP :=
  match body cp with
  | InviteRsp p => Ok (with_body cp (InviteRsp
      {| is_tid := is_tid p; is_bundle := is_bundle p; is_totalsz := is_totalsz p;
         is_status := status; is_reason := is_reason p; is_data := is_data p |}))
  | _ => Fault AssertFailed
  end.

(** [elacp_set_raw_data(cp, data, len)] with the [len] bytes at [data]. *)
Definition elacp_set_raw_data (cp : ElaCP) (data : option (list byte)) : Res ElaCP :=
  not_null data;;
  c_assert (match data with Some (_ :: _) => true | _ => false end);;
  match body cp with
  | FriendMsg _ => Ok (with_body cp (FriendMsg {| fm_msg := data |}))
  | InviteReq p => Ok (with_body cp (InviteReq
      {| iq_tid := iq_tid p; iq_bundle := iq_bundle p; iq_totalsz := iq_totalsz p;
         iq_data := data |}))
  | InviteRsp p => Ok (with_body cp (InviteRsp
      {| is_tid := is_tid p; is_bundle := is_bundle p; is_totalsz := is_totalsz p;
         is_status := is_status p; is_reason := is_reason p; is_data := data |}))
  | _ => Fault AssertFailed
  end.

(** Unlike the other string setters this one accepts null. *)
Definition elacp_set_bundle (cp : ElaCP) (bundle : option string) : Res ElaCP :=
  match body cp with
  | InviteReq p => Ok (with_body cp (InviteReq
      {| iq_tid := iq_tid p; iq_bundle := bundle; iq_totalsz := iq_totalsz p;
         iq_data := iq_data p |}))
  | InviteRsp p => Ok (with_body cp (InviteRsp
      {| is_tid := is_tid p; is_bundle := bundle; is_totalsz := is_totalsz p;
         is_status := is_status p; is_reason := is_reason p; is_data := is_data p |}))
  | _ => Fault AssertFailed
  end.

Definition elacp_set_reason (cp : ElaCP) (reason : option string) : Res ElaCP :=
  not_null reason;;
  match body cp with
  | InviteRsp p => Ok (with_body cp (InviteRsp
      {| is_tid := is_tid p; is_bundle := is_bundle p; is_totalsz := is_totalsz p;
         is_status := is_status p; is_reason := reason; is_data := is_data p |}))
  | _ => Fault AssertFailed
  end.

(** ** FlatBuffers tables *)

Inductive fbval :=
| FBString (s : string)
| FBVec (v : list byte)
| FBScalar (z : Z).

(** A table maps the slots of its fields (their order in elacp.fbs) to values;
    the root packet holds its type byte and a union: the member's tag and its
    table, absent when no body was added. *)
Abbreviation fbtable := (gmap nat fbval).

Record fbpacket := { pk_type : Z; pk_body : option (Z * fbtable) }.

(** The FlatBuffers runtime: a finished builder gives a buffer, and the root
    accessor finds the packet in a buffer (or fails). *)
Class FlatBuffers (buffer : Type) := {
  fb_finalize : fbpacket -> buffer;
  fb_as_root : buffer -> option fbpacket
}.

Class FlatBuffersLaws (buffer : Type) `{!FlatBuffers buffer} := {
  fb_as_root_finalize p : fb_as_root (fb_finalize p) = Some p
}.

(** The identity is the simplest runtime that satisfies the law. *)
#[export] Instance fbpacket_FlatBuffers : FlatBuffers fbpacket := {
  fb_finalize p := p;
  fb_as_root p := Some p
}.

#[export] Instance fbpacket_FlatBuffersLaws : FlatBuffersLaws fbpacket.
Proof. by split. Qed.

(** [flatcc_builder_create_string_str] takes the length of its argument. *)
Definition create_string_str (s : option string) : Res fbval :=
  s ← deref s; Ok (FBString s).

(** [flatbuffers_uint8_vec_create(data, len)]; a null has length zero here. *)
Definition uint8_vec_create (data : option (list byte)) : fbval := FBVec (default [] data).

(** The generated [_add] functions: a scalar equal to the field's default (zero
    throughout elacp.fbs) is not stored. *)
Definition add_scalar (slot : nat) (z : Z) (t : fbtable) : fbtable :=
  if z =? 0 then t else <[slot := FBScalar z]> t.

(** The generated accessors: an absent field reads as its default; a field that
    holds something else is read at the wrong type. *)
Definition read_string (slot : nat) (t : fbtable) : Res (option string) :=
  match t !! slot with
  | None => Ok None
  | Some (FBString s) => Ok (Some s)
  | Some _ => Fault TypeConfusion
  end.

Definition read_vec (slot : nat) (t : fbtable) : Res (option (list byte)) :=
  match t !! slot with
  | None => Ok None
  | Some (FBVec v) => Ok (Some v)
  | Some _ => Fault TypeConfusion
  end.

Definition read_scalar (slot : nat) (t : fbtable) : Res Z :=
  match t !! slot with
  | None => Ok 0
  | Some (FBScalar z) => Ok z
  | Some _ => Fault TypeConfusion
  end.

(** elacp.fbs: the slots of the tables and the tags of the union. *)
Definition userinfo_avatar : nat := 0.
Definition userinfo_name : nat := 1.
Definition userinfo_descr : nat := 2.
Definition userinfo_phone : nat := 3.
Definition userinfo_gender : nat := 4.
Definition userinfo_email : nat := 5.
Definition userinfo_region : nat := 6.
Definition friendreq_name : nat := 0.
Definition friendreq_descr : nat := 1.
Definition friendreq_hello : nat := 2.
Definition friendmsg_ext : nat := 0.
Definition friendmsg_msg : nat := 1.
Definition invitereq_ext : nat := 0.
Definition invitereq_tid : nat := 1.
Definition invitereq_bundle : nat := 2.
Definition invitereq_totalsz : nat := 3.
Definition invitereq_data : nat := 4.
Definition invitersp_ext : nat := 0.
Definition invitersp_tid : nat := 1.
Definition invitersp_bundle : nat := 2.
Definition invitersp_totalsz : nat := 3.
Definition invitersp_status : nat := 4.
Definition invitersp_reason : nat := 5.
Definition invitersp_data : nat := 6.

(** ** Encoding *)

Definition add_string (slot : nat) (s : option string) (t : fbtable) : Res fbtable :=
  v ← create_string_str s; Ok (<[slot := v]> t).

Definition add_string_if (slot : nat) (s : option string) (t : fbtable) : Res fbtable :=
  match s with Some _ => add_string slot s t | None => Ok t end.

(** The table [elacp_encode] builds for the packet's type; the three kinds of
    message all add the extension name through [elacp_friendmsg_ext_add]. *)
Definition encode_body (cp : ElaCP) : Res fbtable :=
  match body cp with
  | UserInfo p =>
      t ← add_string_if userinfo_name (ui_name p) ∅;
      t ← add_string userinfo_descr (ui_descr p) t;
      t ← add_string userinfo_gender (ui_gender p) t;
      t ← add_string userinfo_phone (ui_phone p) t;
      t ← add_string userinfo_email (ui_email p) t;
      t ← add_string userinfo_region (ui_region p) t;
      Ok (add_scalar userinfo_avatar (Z.b2z (ui_has_avatar p)) t)
  | FriendReq p =>
      t ← add_string friendreq_name (fr_name p) ∅;
      t ← add_string friendreq_descr (fr_descr p) t;
      add_string friendreq_hello (fr_hello p) t
  | FriendMsg p =>
      t ← add_string_if friendmsg_ext (ext cp) ∅;
      Ok (<[friendmsg_msg := uint8_vec_create (fm_msg p)]> t)
  | InviteReq p =>
      t ← add_string_if friendmsg_ext (ext cp) ∅;
      let t := add_scalar invitereq_tid (i64 (iq_tid p)) t in
      let t := add_scalar invitereq_totalsz (u32 (iq_totalsz p)) t in
      t ← add_string_if invitereq_bundle (iq_bundle p) t;
      Ok (<[invitereq_data := uint8_vec_create (iq_data p)]> t)
  | InviteRsp p =>
      t ← add_string_if friendmsg_ext (ext cp) ∅;
      let t := add_scalar invitersp_tid (i64 (is_tid p)) t in
      let t := add_scalar invitersp_totalsz (u32 (is_totalsz p)) t in
      t ← add_string_if invitersp_bundle (is_bundle p) t;
      let t := add_scalar invitersp_status (i32 (is_status p)) t in
      if negb (is_status p =? 0) && bool_decide (is_Some (is_reason p))
      then add_string invitersp_reason (is_reason p) t
      else Ok (<[invitersp_data := uint8_vec_create (is_data p)]> t)
  end.

(** [elacp_anybody_as_...]: the union tag for the packet's type. *)
Definition anybody_tag (cp : ElaCP) : Z :=
  match body cp with
  | UserInfo _ => 1
  | FriendReq _ => 2
  | FriendMsg _ => 3
  | InviteReq _ => 4
  | InviteRsp _ => 5
  end.

Definition elacp_encode {buffer} `{!FlatBuffers buffer} (cp : ElaCP) : Res buffer :=
  t ← encode_body cp;
  Ok (fb_finalize {| pk_type := elacp_get_type cp; pk_body := Some (anybody_tag cp, t) |}).

(** ** Decoding *)

(** The [switch] of [elacp_decode], on the packet's type byte.  The union's own
    tag is never read: the member table is used as the type byte says. *)
Definition decode_body (type : Z) (t : fbtable) : Res (option ElaCP) :=
  if type =? ELACP_TYPE_USERINFO then
    name ← read_string userinfo_name t;
    descr ← read_string userinfo_descr t;
    gender ← read_string userinfo_gender t;
    phone ← read_string userinfo_phone t;
    email ← read_string userinfo_email t;
    region ← read_string userinfo_region t;
    avatar ← read_scalar userinfo_avatar t;
    Ok (Some {| ext := None; body := UserInfo
      {| ui_has_avatar := negb (avatar =? 0); ui_name := name; ui_descr := descr;
         ui_phone := phone; ui_gender := gender; ui_email := email; ui_region := region |} |})
  else if type =? ELACP_TYPE_FRIEND_REQUEST then
    name ← read_string friendreq_name t;
    descr ← read_string friendreq_descr t;
    hello ← read_string friendreq_hello t;
    Ok (Some {| ext := None; body := FriendReq
      {| fr_name := name; fr_descr := descr; fr_hello := hello |} |})
  else if type =? ELACP_TYPE_MESSAGE then
    msg ← read_vec friendmsg_msg t;
    ext ← read_string friendmsg_ext t;
    Ok (Some {| ext := ext; body := FriendMsg {| fm_msg := msg |} |})
  else if type =? ELACP_TYPE_INVITE_REQUEST then
    tid ← read_scalar invitereq_tid t;
    totalsz ← read_scalar invitereq_totalsz t;
    bundle ← read_string invitereq_bundle t;
    data ← read_vec invitereq_data t;
    ext ← read_string invitereq_ext t;
    Ok (Some {| ext := ext; body := InviteReq
      {| iq_tid := tid; iq_bundle := bundle; iq_totalsz := totalsz; iq_data := data |} |})
  else if type =? ELACP_TYPE_INVITE_RESPONSE then
    tid ← read_scalar invitersp_tid t;
    totalsz ← read_scalar invitersp_totalsz t;
    bundle ← read_string invitersp_bundle t;
    status ← read_scalar invitersp_status t;
    '(reason, data) ←
      (if negb (status =? 0)
       then reason ← read_string invitersp_reason t; Ok (reason, None)
       else data ← read_vec invitersp_data t; Ok (None, data));
    ext ← read_string invitersp_ext t;
    Ok (Some {| ext := ext; body := InviteRsp
      {| is_tid := tid; is_bundle := bundle; is_totalsz := totalsz; is_status := status;
         is_reason := reason; is_data := data |} |})
  else Ok None.

(** [elacp_decode(data, len)]; [len] is not used by the code either. *)
Definition elacp_decode {buffer} `{!FlatBuffers buffer} (data : buffer) : Res (option ElaCP) :=
  match fb_as_root data with
  | None => Ok None
  | Some packet =>
      match zero_body (pk_type packet) with
      | None => Ok None
      | Some _ =>
          match pk_body packet with
          | None => Ok None
          | Some (_, t) => decode_body (pk_type packet) t
          end
      end
  end.

(** [elacp_decode] stores a response's total size through the request's
    structure; both are packed and lay the field out at the same offset. *)
Definition InviteReq_layout : list (string * Z) :=
  [("type", 1); ("ext", 8); ("tid", 8); ("bundle", 8); ("totalsz", 8); ("len", 8);
   ("data", 8)]%string.
Definition InviteRsp_layout : list (string * Z) :=
  [("type", 1); ("ext", 8); ("tid", 8); ("bundle", 8); ("totalsz", 8); ("status", 4);
   ("reason", 8); ("len", 8); ("data", 8)]%string.

Fixpoint field_offset (f : string) (l : list (string * Z)) : option Z :=
  match l with
  | [] => None
  | (g, sz) :: l => if str_eqb f g then Some 0 else Z.add sz <$> field_offset f l
  end.

Lemma totalsz_same_offset :
  field_offset "totalsz" InviteReq_layout = field_offset "totalsz" InviteRsp_layout.
Proof. reflexivity. Qed.

(** ** Properties *)

(** *** Slots *)

Lemma read_string_insert s v t : read_string s (<[s := FBString v]> t) = Ok (Some v).
Proof. unfold read_string. by rewrite lookup_insert_eq. Qed.
Lemma read_vec_insert s v t : read_vec s (<[s := FBVec v]> t) = Ok (Some v).
Proof. unfold read_vec. by rewrite lookup_insert_eq. Qed.

Lemma read_string_insert_ne s s' v t : s' <> s -> read_string s (<[s' := v]> t) = read_string s t.
Proof. intros. unfold read_string. by rewrite lookup_insert_ne. Qed.
Lemma read_vec_insert_ne s s' v t : s' <> s -> read_vec s (<[s' := v]> t) = read_vec s t.
Proof. intros. unfold read_vec. by rewrite lookup_insert_ne. Qed.
Lemma read_scalar_insert_ne s s' v t : s' <> s -> read_scalar s (<[s' := v]> t) = read_scalar s t.
Proof. intros. unfold read_scalar. by rewrite lookup_insert_ne. Qed.

Lemma lookup_add_scalar_ne s s' z t : s' <> s -> add_scalar s' z t !! s = t !! s.
Proof. intros. unfold add_scalar. case_match; [done|]. by rewrite lookup_insert_ne. Qed.
Lemma read_string_add_scalar s s' z t : s' <> s -> read_string s (add_scalar s' z t) = read_string s t.
Proof. intros. unfold read_string. by rewrite lookup_add_scalar_ne. Qed.
Lemma read_vec_add_scalar s s' z t : s' <> s -> read_vec s (add_scalar s' z t) = read_vec s t.
Proof. intros. unfold read_vec. by rewrite lookup_add_scalar_ne. Qed.
Lemma read_scalar_add_scalar_ne s s' z t : s' <> s -> read_scalar s (add_scalar s' z t) = read_scalar s t.
Proof. intros. unfold read_scalar. by rewrite lookup_add_scalar_ne. Qed.
(** Eliding a default does not change what is read. *)
Lemma read_scalar_add_scalar s z t : t !! s = None -> read_scalar s (add_scalar s z t) = Ok z.
Proof.
  intros Hs. unfold read_scalar, add_scalar. destruct (Z.eqb_spec z 0) as [->|].
  - by rewrite Hs.
  - by rewrite lookup_insert_eq.
Qed.

Lemma read_string_empty s : read_string s ∅ = Ok None.
Proof. unfold read_string. by rewrite lookup_empty. Qed.

Lemma uint8_vec_create_eq d : uint8_vec_create d = FBVec (default [] d).
Proof. done. Qed.

Create Rewrite HintDb fbslots.
#[export] Hint Rewrite uint8_vec_create_eq read_string_insert read_vec_insert read_string_empty
  : fbslots.
#[export] Hint Rewrite read_string_insert_ne read_vec_insert_ne read_scalar_insert_ne
  read_string_add_scalar read_vec_add_scalar read_scalar_add_scalar_ne using done : fbslots.
#[export] Hint Rewrite read_scalar_add_scalar
  using (rewrite ?lookup_insert_ne, ?lookup_add_scalar_ne, ?lookup_empty by done; done) : fbslots.

(** [fb_read] computes the reads of a table built by the encoder. *)
Ltac fb_read := repeat (cbn; autorewrite with fbslots).

(** *** Round trip *)

(** What the encoder can take: the strings FlatBuffers copies are not null, and
    the numbers fit the fields of the schema. *)
Definition encodable (cp : ElaCP) : Prop :=
  match body cp with
  | UserInfo p => is_Some (ui_descr p) /\ is_Some (ui_gender p) /\ is_Some (ui_phone p) /\
                  is_Some (ui_email p) /\ is_Some (ui_region p)
  | FriendReq p => is_Some (fr_name p) /\ is_Some (fr_descr p) /\ is_Some (fr_hello p)
  | FriendMsg _ => True
  | InviteReq p => is_i64 (iq_tid p) /\ is_u32 (iq_totalsz p)
  | InviteRsp p => is_i64 (is_tid p) /\ is_u32 (is_totalsz p) /\ is_i32 (is_status p)
  end.

(** What the peer's decoder makes of a packet: user information and friend
    requests lose their extension name, data vectors are never null, and a
    response carries either its reason or its data, as its status says. *)
Definition received (cp : ElaCP) : ElaCP :=
  match body cp with
  | UserInfo p => {| ext := None; body := UserInfo p |}
  | FriendReq p => {| ext := None; body := FriendReq p |}
  | FriendMsg p => {| ext := ext cp; body := FriendMsg {| fm_msg := Some (default [] (fm_msg p)) |} |}
  | InviteReq p => {| ext := ext cp; body := InviteReq
      {| iq_tid := iq_tid p; iq_bundle := iq_bundle p; iq_totalsz := iq_totalsz p;
         iq_data := Some (default [] (iq_data p)) |} |}
  | InviteRsp p => {| ext := ext cp; body := InviteRsp
      {| is_tid := is_tid p; is_bundle := is_bundle p; is_totalsz := is_totalsz p;
         is_status := is_status p;
         is_reason := if is_status p =? 0 then None else is_reason p;
         is_data := if is_status p =? 0 then Some (default [] (is_data p)) else None |} |}
  end.

Lemma encode_decode_body cp :
  encodable cp ->
  exists t, encode_body cp = Ok t /\ decode_body (elacp_get_type cp) t = Ok (Some (received cp)).
Proof.
  destruct cp as [e [[av n d ph g em r]|[n d h]|[m]|[tid b tot dt]|[tid b tot st rs dt]]];
    unfold encodable, encode_body, received; cbn [body ext ui_name ui_descr ui_phone
      ui_gender ui_email ui_region ui_has_avatar fr_name fr_descr fr_hello fm_msg iq_tid
      iq_bundle iq_totalsz iq_data is_tid is_bundle is_totalsz is_status is_reason is_data].
  - intros ([? ->] & [? ->] & [? ->] & [? ->] & [? ->]).
    destruct n, av; eexists; (split; [reflexivity|]); fb_read; done.
  - intros ([? ->] & [? ->] & [? ->]). eexists; (split; [reflexivity|]). by fb_read.
  - intros _. destruct e; eexists; (split; [reflexivity|]); by fb_read.
  - intros [Ht Hs].
    rewrite swrap_small, uwrap_small by (done || machine_int).
    destruct e, b; eexists; (split; [reflexivity|]); by fb_read.
  - intros (Ht & Hs & Hst).
    rewrite !swrap_small, uwrap_small by (done || machine_int).
    destruct (Z.eqb_spec st 0) as [->|Hne].
    + destruct e, b; eexists; (split; [reflexivity|]); by fb_read.
    + apply Z.eqb_neq in Hne as Hnb.
      destruct e, b, rs; eexists; (split; [reflexivity|]); fb_read; rewrite ?Hnb; by fb_read.
Qed.

(** The strings the encoder reads without a null check. *)
Definition required_strings (cp : ElaCP) : list (option string) :=
  match body cp with
  | UserInfo p => [ui_descr p; ui_gender p; ui_phone p; ui_email p; ui_region p]
  | FriendReq p => [fr_name p; fr_descr p; fr_hello p]
  | _ => []
  end.

Section Faults.
Context {buffer : Type} `{!FlatBuffers buffer}.

(** Encoding faults exactly when one of the strings the code copies without a
    null check is null, and the fault is the null dereference; the optional
    strings (name of user information, extension, bundle, reason) never fault,
    and neither do out-of-range numbers. *)
Theorem elacp_encode_faults cp :
  (exists b : buffer, elacp_encode cp = Ok b) /\ Forall is_Some (required_strings cp)
  \/ elacp_encode (buffer := buffer) cp = Fault NullDeref /\ None ∈ required_strings cp.
Proof.
  destruct cp as [e [[av n d ph g em r]|[n d h]|[m]|[tid b tot dt]|[tid b tot st rs dt]]];
    unfold elacp_encode, encode_body; cbn.
  - destruct n, d, g, ph, em, r; cbn;
      first [left; split; [by eexists|by repeat constructor]
            |right; split; [reflexivity|set_solver]].
  - destruct n, d, h; cbn;
      first [left; split; [by eexists|by repeat constructor]
            |right; split; [reflexivity|set_solver]].
  - left. split; [destruct e; by eexists|constructor].
  - left. split; [destruct e, b; by eexists|constructor].
  - left. split; [|constructor].
    destruct e, b, (negb (st =? 0)), rs; by eexists.
Qed.
End Faults.

Section Codec.
Context {buffer : Type} `{!FlatBuffers buffer, !FlatBuffersLaws buffer}.

(** What decoding does with the packet of any type byte and any union member. *)
Lemma elacp_decode_finalize type tag t :
  elacp_decode (fb_finalize {| pk_type := type; pk_body := Some (tag, t) |} : buffer) =
    match zero_body type with None => Ok None | Some _ => decode_body type t end.
Proof. unfold elacp_decode. by rewrite fb_as_root_finalize. Qed.

Lemma zero_body_type cp : is_Some (zero_body (elacp_get_type cp)).
Proof. by destruct cp as [e []]. Qed.

(** What the receiver decodes is what was encoded, in the decoder's normal form. *)
Lemma decode_encoded cp (p : buffer) :
  encodable cp -> elacp_encode cp = Ok p -> elacp_decode p = Ok (Some (received cp)).
Proof.
  intros (t & He & Hd)%encode_decode_body. unfold elacp_encode. rewrite He.
  cbn [mbind Res_bind]. intros [= <-]. rewrite elacp_decode_finalize.
  by destruct (zero_body_type cp) as [? ->].
Qed.

(** C36. Round trip of the packet codec: whatever FlatBuffers runtime returns the
    packet it was given, an encodable packet encodes without fault and its
    encoding decodes to the packet the receiver is meant to see. *)
Theorem elacp_roundtrip cp :
  encodable cp ->
  exists buf : buffer, elacp_encode cp = Ok buf /\ elacp_decode buf = Ok (Some (received cp)).
Proof.
  intros (t & He & Hd)%encode_decode_body. unfold elacp_encode. rewrite He.
  eexists; split; [reflexivity|]. rewrite elacp_decode_finalize.
  by destruct (zero_body_type cp) as [? ->].
Qed.

(** A buffer that a peer made need not be a packet of ours: the decoder
    trusts the type byte and ignores the tag of the union member it was sent
    with, so a well-formed FlatBuffers packet whose type byte says user
    information and whose member is a friend message is read at the wrong
    type. *)
Theorem elacp_decode_trusts_type_byte name msg :
  exists buf : buffer,
    fb_as_root buf = Some {| pk_type := ELACP_TYPE_USERINFO; pk_body := Some
      (3, <[friendmsg_msg := FBVec msg]> (<[friendmsg_ext := FBString name]> ∅)) |} /\
    elacp_decode buf = Fault TypeConfusion.
Proof.
  eexists (fb_finalize _); split; [by rewrite fb_as_root_finalize|].
  rewrite elacp_decode_finalize. reflexivity.
Qed.

End Codec.

Lemma elacp_decode_trusts_type_byte_witness :
  exists buf : fbpacket,
    fb_as_root buf = Some {| pk_type := ELACP_TYPE_USERINFO; pk_body := Some
      (3, <[friendmsg_msg := FBVec []]> (<[friendmsg_ext := FBString "x"]> ∅)) |} /\
    elacp_decode buf = Fault TypeConfusion.
Proof. exact (elacp_decode_trusts_type_byte "x" []). Defined.

Definition sample_response : ElaCP := {| ext := Some "ext"%string; body := InviteRsp
  {| is_tid := -7; is_bundle := None; is_totalsz := 2; is_status := 0;
     is_reason := None; is_data := Some [byte.of_Z 1; byte.of_Z 2] |} |}.

Lemma elacp_roundtrip_witness :
  encodable sample_response /\
  exists buf : fbpacket,
    elacp_encode sample_response = Ok buf /\ elacp_decode buf = Ok (Some (received sample_response)).
Proof.
  assert (encodable sample_response) as H by (cbn; machine_int).
  split; [exact H|]. exact (elacp_roundtrip sample_response H).
Defined.

(** *** Accessors *)

(** Every setter that is allowed on a packet is read back by its getter, and the
    packet keeps its type and extension name; a setter or getter of a field the
    type does not have fails its assertion. *)
Definition writes_back {A} (set : ElaCP -> A -> Res ElaCP) (get : ElaCP -> Res A) : Prop :=
  forall cp a cp', set cp a = Ok cp' ->
    get cp' = Ok a /\ elacp_get_type cp' = elacp_get_type cp /\ ext cp' = ext cp.

Ltac accessor :=
  intros [e b] a cp' H;
  destruct b; try (destruct a as [a|]; [|discriminate H]);
  try match type of a with list _ => destruct a as [|x a]; [discriminate H|] end;
  try discriminate H; injection H as <-; done.

(** Every typed setter of a packet is the inverse of its getter: a value that
    was set is the value read, and setting changes neither the type nor the
    extension name of the packet. *)
Theorem elacp_accessors :
  writes_back elacp_set_name elacp_get_name /\
  writes_back elacp_set_descr elacp_get_descr /\
  writes_back elacp_set_gender elacp_get_gender /\
  writes_back elacp_set_phone elacp_get_phone /\
  writes_back elacp_set_email elacp_get_email /\
  writes_back elacp_set_region elacp_get_region /\
  writes_back elacp_set_hello elacp_get_hello /\
  writes_back elacp_set_tid elacp_get_tid /\
  writes_back elacp_set_totalsz elacp_get_totalsz /\
  writes_back elacp_set_status elacp_get_status /\
  writes_back elacp_set_raw_data elacp_get_raw_data /\
  writes_back elacp_set_bundle elacp_get_bundle /\
  writes_back elacp_set_reason elacp_get_reason.
Proof. repeat split_and; accessor. Qed.
