(* ===== verification/Fifo.v ===== *)
(** * The ring buffer of the reliable stream (src/session/pseudotcp/pseudotcp.c)

    [PseudoTcpFifo] with its operations at the width of the code ([gsize] is a
    64-bit unsigned integer), the bounds of every [memcpy] checked, and the
    proof that it implements a byte queue with a look-ahead area: reading is
    taking a part of the queue, writing at an offset fills the area behind it. *)

From S2P Require Import Prelude.

(** ** Memory *)

(** What [malloc] leaves in a fresh block: any bytes. *)
Class Malloc := fresh_byte : nat -> byte.

Definition g_slice_alloc `{Malloc} (size : Z) : list byte :=
  fresh_byte <$> seq 0 (Z.to_nat size).

(** [memcpy(_, buf + off, len)] and [memcpy(buf + off, src, |src|)]. *)
Definition load_bytes (buf : list byte) (off len : Z) : Res (list byte) :=
  if (0 <=? off) && (0 <=? len) && (off + len <=? Z.of_nat (length buf))
  then Ok (take (Z.to_nat len) (drop (Z.to_nat off) buf))
  else Fault BufferOverflow.

Definition store_bytes (buf : list byte) (off : Z) (src : list byte) : Res (list byte) :=
  if (0 <=? off) && (off + Z.of_nat (length src) <=? Z.of_nat (length buf))
  then Ok (splice (Z.to_nat off) src buf)
  else Fault BufferOverflow.

(** [a % b] on unsigned operands. *)
Definition umod (a b : Z) : Res Z :=
  if b =? 0 then Fault DivByZero else Ok (a mod b).

(** ** The structure and its operations *)

Record PseudoTcpFifo := {
  buffer : list byte;
  buffer_length : Z;
  data_length : Z;
  read_position : Z
}.

(** [pseudo_tcp_fifo_init], on a structure of zeroed memory. *)
Definition pseudo_tcp_fifo_init `{Malloc} (size : Z) : PseudoTcpFifo :=
  {| buffer := g_slice_alloc size; buffer_length := size; data_length := 0; read_position := 0 |}.

Definition pseudo_tcp_fifo_clear (b : PseudoTcpFifo) : PseudoTcpFifo :=
  {| buffer := []; buffer_length := 0;
     data_length := data_length b; read_position := read_position b |}.

Definition pseudo_tcp_fifo_get_buffered (b : PseudoTcpFifo) : Z := data_length b.

Definition pseudo_tcp_fifo_set_capacity `{Malloc} (b : PseudoTcpFifo) (size : Z) :
    Res (bool * PseudoTcpFifo) :=
  if data_length b >? size then Ok (false, b)
  else if negb (size =? data_length b) then
    let copy := data_length b in
    let tail_copy := Z.min copy (u64 (buffer_length b - read_position b)) in
    front ← load_bytes (buffer b) (read_position b) tail_copy;
    back ← load_bytes (buffer b) 0 (copy - tail_copy);
    buf ← store_bytes (g_slice_alloc size) 0 front;
    buf ← store_bytes buf tail_copy back;
    Ok (true, {| buffer := buf; buffer_length := size; data_length := data_length b;
                 read_position := 0 |})
  else Ok (true, b).

Definition pseudo_tcp_fifo_consume_read_data (b : PseudoTcpFifo) (size : Z) : Res PseudoTcpFifo :=
  c_assert (size <=? data_length b);;
  pos ← umod (u64 (read_position b + size)) (buffer_length b);
  Ok {| buffer := buffer b; buffer_length := buffer_length b;
        data_length := u64 (data_length b - size); read_position := pos |}.

Definition pseudo_tcp_fifo_consume_write_buffer (b : PseudoTcpFifo) (size : Z) : Res PseudoTcpFifo :=
  c_assert (size <=? u64 (buffer_length b - data_length b));;
  Ok {| buffer := buffer b; buffer_length := buffer_length b;
        data_length := u64 (data_length b + size); read_position := read_position b |}.

Definition pseudo_tcp_fifo_get_write_remaining (b : PseudoTcpFifo) : Z :=
  u64 (buffer_length b - data_length b).

(** The bytes copied to the caller's buffer; their number is the result. *)
Definition pseudo_tcp_fifo_read_offset (b : PseudoTcpFifo) (bytes offset : Z) : Res (list byte) :=
  let available := u64 (data_length b - offset) in
  pos ← umod (u64 (read_position b + offset)) (buffer_length b);
  let copy := Z.min bytes available in
  let tail_copy := Z.min copy (u64 (buffer_length b - pos)) in
  if offset >=? data_length b then Ok []
  else
    front ← load_bytes (buffer b) pos tail_copy;
    back ← load_bytes (buffer b) 0 (copy - tail_copy);
    Ok (front ++ back).

(** [src] is the caller's buffer with its [bytes] bytes. *)
Definition pseudo_tcp_fifo_write_offset (b : PseudoTcpFifo) (src : list byte) (offset : Z) :
    Res (Z * PseudoTcpFifo) :=
  let available := u64 (u64 (buffer_length b - data_length b) - offset) in
  pos ← umod (u64 (u64 (read_position b + data_length b) + offset)) (buffer_length b);
  let copy := Z.min (Z.of_nat (length src)) available in
  let tail_copy := Z.min copy (u64 (buffer_length b - pos)) in
  if u64 (data_length b + offset) >=? buffer_length b then Ok (0, b)
  else
    buf ← store_bytes (buffer b) pos (take (Z.to_nat tail_copy) src);
    buf ← store_bytes buf 0 (take (Z.to_nat (copy - tail_copy)) (drop (Z.to_nat tail_copy) src));
    Ok (copy, {| buffer := buf; buffer_length := buffer_length b;
                 data_length := data_length b; read_position := read_position b |}).

Definition pseudo_tcp_fifo_read (b : PseudoTcpFifo) (bytes : Z) : Res (list byte * PseudoTcpFifo) :=
  data ← pseudo_tcp_fifo_read_offset b bytes 0;
  let copy := Z.of_nat (length data) in
  pos ← umod (u64 (read_position b + copy)) (buffer_length b);
  Ok (data, {| buffer := buffer b; buffer_length := buffer_length b;
               data_length := u64 (data_length b - copy); read_position := pos |}).

Definition pseudo_tcp_fifo_write (b : PseudoTcpFifo) (src : list byte) : Res (Z * PseudoTcpFifo) :=
  '(copy, b) ← pseudo_tcp_fifo_write_offset b src 0;
  Ok (copy, {| buffer := buffer b; buffer_length := buffer_length b;
               data_length := u64 (data_length b + copy); read_position := read_position b |}).

(** ** Rings *)

(** The buffer as it is read, from the read position on around its end. *)
Definition ring (rp : nat) (buf : list byte) : list byte := drop rp buf ++ take rp buf.

Lemma length_ring rp buf : length (ring rp buf) = length buf.
Proof. unfold ring. rewrite length_app, length_drop, length_take. lia. Qed.

(** Position [(rp + off) mod n] without the division. *)
Definition wrap (n p : nat) : nat := if decide (p < n)%nat then p else (p - n)%nat.

Lemma ring_lookup rp buf i :
  (rp <= length buf)%nat -> (i < length buf)%nat -> ring rp buf !! i = buf !! wrap (length buf) (rp + i).
Proof.
  intros Hrp Hi. unfold ring, wrap. destruct (decide _).
  - rewrite lookup_app_l by (rewrite length_drop; lia). apply lookup_drop.
  - rewrite lookup_app_r by (rewrite length_drop; lia). rewrite length_drop.
    rewrite lookup_take_lt by lia. f_equal. lia.
Qed.

(** A ring that begins further on is the same ring turned. *)
Lemma ring_turn rp n buf :
  (rp < length buf)%nat -> (n <= length buf)%nat ->
  ring (wrap (length buf) (rp + n)) buf = drop n (ring rp buf) ++ take n (ring rp buf).
Proof.
  intros Hrp Hn. unfold ring, wrap. case_decide as Hd.
  - rewrite drop_app_le, take_app_le, drop_drop by (rewrite length_drop; lia).
    rewrite <- app_assoc. f_equal. by rewrite <- (take_take_drop buf rp n).
  - rewrite drop_app_ge, take_app_ge, length_drop by (rewrite length_drop; lia).
    replace (rp + n - length buf)%nat with (n - (length buf - rp))%nat by lia.
    set (m := (n - (length buf - rp))%nat). rewrite take_take, Nat.min_l by lia.
    rewrite app_assoc. f_equal. rewrite <- (take_drop rp buf) at 1. rewrite drop_app_le; [done|].
    rewrite length_take. lia.
Qed.

(** Arithmetic of wrapped positions, and two lookups at equal positions. *)
Ltac ring_arith :=
  rewrite ?length_take, ?length_drop;
  repeat match goal with x := _ : nat |- _ => subst x end;
  unfold wrap in *; repeat case_decide; lia.

Ltac same_cell :=
  match goal with |- _ !! ?a = _ -> _ !! ?b = _ -> _ => replace b with a by ring_arith end;
  congruence.

(** Reading around the end. *)
Lemma ring_read rp buf off len :
  (rp <= length buf)%nat -> (off < length buf)%nat -> (off + len <= length buf)%nat ->
  let pos := wrap (length buf) (rp + off) in
  let tail := Nat.min len (length buf - pos) in
  take tail (drop pos buf) ++ take (len - tail) buf = take len (drop off (ring rp buf)).
Proof.
  intros Hrp Hoff Hlen pos tail.
  assert (pos < length buf)%nat by (unfold pos, wrap; case_decide; lia).
  apply list_eq_same_length with (n := len).
  { rewrite length_take, length_drop, length_ring. lia. }
  { rewrite length_app, !length_take, length_drop. lia. }
  intros i x y Hi. rewrite lookup_take_lt, lookup_drop, ring_lookup by lia.
  destruct (decide (i < tail)%nat) as [Ht|Ht].
  - rewrite lookup_app_l by (rewrite length_take, length_drop; lia).
    rewrite lookup_take_lt, lookup_drop by lia. same_cell.
  - rewrite lookup_app_r by (rewrite length_take, length_drop; lia).
    rewrite length_take, length_drop, lookup_take_lt by lia. same_cell.
Qed.

(** Writing around the end. *)
Lemma ring_write rp buf off src :
  (rp <= length buf)%nat -> (off < length buf)%nat -> (off + length src <= length buf)%nat ->
  let pos := wrap (length buf) (rp + off) in
  let tail := Nat.min (length src) (length buf - pos) in
  ring rp (splice 0 (drop tail src) (splice pos (take tail src) buf)) = splice off src (ring rp buf).
Proof.
  intros Hrp Hoff Hlen pos tail.
  assert (pos < length buf)%nat by (unfold pos, wrap; case_decide; lia).
  assert (length (splice pos (take tail src) buf) = length buf) as Hl1
    by (apply length_splice; rewrite length_take; lia).
  assert (length (splice 0 (drop tail src) (splice pos (take tail src) buf)) = length buf) as Hl2
    by (rewrite length_splice by (rewrite length_drop; lia); done).
  apply list_eq_same_length with (n := length buf).
  { rewrite length_splice by (rewrite length_ring; lia). apply length_ring. }
  { by rewrite length_ring. }
  intros i x y Hi. rewrite ring_lookup, Hl2 by lia.
  set (p := wrap (length buf) (rp + i)).
  assert (p < length buf)%nat by (unfold p, wrap; case_decide; lia).
  destruct (decide (off <= i < off + length src)%nat) as [Hin|Hout].
  - rewrite (lookup_splice_in off) by (rewrite ?length_ring; lia).
    destruct (decide (i - off < tail)%nat) as [Ht|Ht].
    + rewrite lookup_splice_out by ring_arith.
      rewrite lookup_splice_in by ring_arith.
      rewrite lookup_take_lt by ring_arith.
      same_cell.
    + rewrite lookup_splice_in by ring_arith.
      rewrite lookup_drop. same_cell.
  - rewrite (lookup_splice_out off) by (rewrite ?length_ring; lia).
    rewrite ring_lookup by lia.
    rewrite !lookup_splice_out by ring_arith.
    same_cell.
Qed.

(** ** Refinement to a byte queue *)

Definition fifo_ring (b : PseudoTcpFifo) : list byte := ring (Z.to_nat (read_position b)) (buffer b).

(** The queue's contents: the buffered bytes, oldest first; what follows them
    in the ring is the free area, where out-of-order data is kept. *)
Definition fifo_data (b : PseudoTcpFifo) : list byte := take (Z.to_nat (data_length b)) (fifo_ring b).

(** The free area. *)
Definition fifo_free (b : PseudoTcpFifo) : list byte := drop (Z.to_nat (data_length b)) (fifo_ring b).

(** The invariant. Capacities are below [2 ^ 62], so no sum of positions wraps
    (the code's own capacities are 32-bit numbers). *)
Record fifo_wf (b : PseudoTcpFifo) : Prop := {
  wf_buffer : Z.of_nat (length (buffer b)) = buffer_length b;
  wf_capacity : 0 < buffer_length b < 2 ^ 62;
  wf_data : 0 <= data_length b <= buffer_length b;
  wf_read : 0 <= read_position b < buffer_length b
}.

Lemma length_fifo_ring b : fifo_wf b -> Z.of_nat (length (fifo_ring b)) = buffer_length b.
Proof. intros []. unfold fifo_ring. by rewrite length_ring. Qed.

Lemma length_fifo_data b : fifo_wf b -> Z.of_nat (length (fifo_data b)) = data_length b.
Proof.
  intros Hwf. pose proof (length_fifo_ring b Hwf). destruct Hwf.
  unfold fifo_data. rewrite length_take. lia.
Qed.

Lemma fifo_ring_parts b : fifo_ring b = fifo_data b ++ fifo_free b.
Proof. symmetry. apply take_drop. Qed.

(** A ring that is known tells what is buffered and what the free area holds. *)
Lemma fifo_parts b d f n :
  fifo_ring b = d ++ f -> data_length b = n -> Z.of_nat (length d) = n ->
  fifo_data b = d /\ fifo_free b = f.
Proof.
  intros Hr Hn Hd. unfold fifo_data, fifo_free. rewrite Hr, Hn, <- Hd, Nat2Z.id.
  split; [by apply take_app_length'|by apply drop_app_length'].
Qed.

(** A position of the code is the wrapped position of the model. *)
Lemma umod_wrap a n : 0 < n < 2 ^ 62 -> 0 <= a < 2 * n ->
  umod (u64 a) n = Ok (Z.of_nat (wrap (Z.to_nat n) (Z.to_nat a))).
Proof.
  intros Hn Ha. unfold umod. rewrite u64_small by lia.
  destruct (Z.eqb_spec n 0) as [|_]; [lia|]. f_equal. unfold wrap. case_decide.
  - rewrite Z.mod_small by lia. lia.
  - rewrite <- (Z_mod_plus_full _ (-1)), Z.mod_small by lia. lia.
Qed.

Lemma load_bytes_Ok buf off len :
  0 <= off -> 0 <= len -> off + len <= Z.of_nat (length buf) ->
  load_bytes buf off len = Ok (take (Z.to_nat len) (drop (Z.to_nat off) buf)).
Proof.
  intros. unfold load_bytes.
  destruct (Z.leb_spec 0 off), (Z.leb_spec 0 len), (Z.leb_spec (off + len) (Z.of_nat (length buf)));
    cbn; done || lia.
Qed.

Lemma store_bytes_Ok buf off src :
  0 <= off -> off + Z.of_nat (length src) <= Z.of_nat (length buf) ->
  store_bytes buf off src = Ok (splice (Z.to_nat off) src buf).
Proof.
  intros. unfold store_bytes.
  destruct (Z.leb_spec 0 off),
    (Z.leb_spec (off + Z.of_nat (length src)) (Z.of_nat (length buf))); cbn; done || lia.
Qed.

(** Both halves of a read that may go around the end. *)
Lemma load_ring b pos off len :
  fifo_wf b -> 0 <= off < buffer_length b -> 0 <= len -> off + len <= buffer_length b ->
  pos = Z.of_nat (wrap (Z.to_nat (buffer_length b)) (Z.to_nat (read_position b + off))) ->
  let tail := Z.min len (u64 (buffer_length b - pos)) in
  (front ← load_bytes (buffer b) pos tail;
   back ← load_bytes (buffer b) 0 (len - tail);
   Ok (front ++ back)) = Ok (take (Z.to_nat len) (drop (Z.to_nat off) (fifo_ring b))).
Proof.
  intros Hwf Hoff Hlen Hsum Hpos tail. destruct Hwf as [Hb Hc Hd Hr].
  assert (0 <= pos < buffer_length b) as Hp by (subst pos; unfold wrap; case_decide; lia).
  assert (u64 (buffer_length b - pos) = buffer_length b - pos) as Hu
    by (apply u64_small; lia).
  unfold tail. rewrite Hu.
  rewrite !load_bytes_Ok by lia. cbn [mbind Res_bind]. f_equal. unfold fifo_ring.
  rewrite <- (ring_read (Z.to_nat (read_position b)) (buffer b)) by lia. cbn zeta.
  replace (wrap (length (buffer b)) (Z.to_nat (read_position b) + Z.to_nat off)) with (Z.to_nat pos)
    by (subst pos; unfold wrap; repeat case_decide; lia).
  f_equal; f_equal; lia || by rewrite drop_0.
Qed.

(** [pseudo_tcp_fifo_read_offset] on the queue. *)
Lemma fifo_read_offset_spec b bytes offset :
  fifo_wf b -> 0 <= bytes -> 0 <= offset < buffer_length b ->
  pseudo_tcp_fifo_read_offset b bytes offset =
    Ok (take (Z.to_nat bytes) (drop (Z.to_nat offset) (fifo_data b))).
Proof.
  intros Hwf Hbytes Hoff. pose proof Hwf as [Hb Hc Hd Hr].
  unfold pseudo_tcp_fifo_read_offset. rewrite umod_wrap by lia. cbn [mbind Res_bind].
  rewrite Z.geb_leb. destruct (Z.leb_spec (data_length b) offset).
  - rewrite drop_ge; [by rewrite take_nil|]. pose proof (length_fifo_data b Hwf). lia.
  - rewrite (u64_small (data_length b - offset)) by lia.
    rewrite (load_ring b _ offset) by (done || lia). f_equal.
    unfold fifo_data. rewrite skipn_firstn_comm, take_take. f_equal. lia.
Qed.

(** Moving the read position forward drops from the front of the queue; the ring
    turns with it. *)
Lemma consume_read_wf b n buf' :
  fifo_wf b -> 0 <= n <= data_length b ->
  buf' = {| buffer := buffer b; buffer_length := buffer_length b;
            data_length := u64 (data_length b - n);
            read_position := Z.of_nat (wrap (Z.to_nat (buffer_length b)) (Z.to_nat (read_position b + n))) |} ->
  fifo_wf buf' /\ data_length buf' = data_length b - n /\ buffer_length buf' = buffer_length b /\
  (forall i, 0 <= i -> i + n < buffer_length b ->
    fifo_ring buf' !! Z.to_nat i = fifo_ring b !! Z.to_nat (i + n)) /\
  fifo_ring buf' = drop (Z.to_nat n) (fifo_ring b) ++ take (Z.to_nat n) (fifo_ring b).
Proof.
  intros Hwf Hn ->. pose proof Hwf as [Hb Hc Hd Hr].
  rewrite u64_small by lia. split; [|split; [done|split; [done|split]]].
  - split; cbn; [done|done|lia|]. unfold wrap. case_decide; lia.
  - intros i Hi Hin. unfold fifo_ring; cbn [buffer read_position].
    rewrite !ring_lookup by (unfold wrap; repeat case_decide; lia).
    f_equal. unfold wrap. repeat case_decide; lia.
  - unfold fifo_ring; cbn [buffer read_position]. rewrite Nat2Z.id, <- ring_turn by lia.
    f_equal. unfold wrap. repeat case_decide; lia.
Qed.

Lemma fifo_data_ring_shift b b' n :
  fifo_wf b -> fifo_wf b' -> 0 <= n <= data_length b -> data_length b' = data_length b - n ->
  (forall i, 0 <= i -> i + n < buffer_length b ->
    fifo_ring b' !! Z.to_nat i = fifo_ring b !! Z.to_nat (i + n)) ->
  fifo_data b' = drop (Z.to_nat n) (fifo_data b).
Proof.
  intros Hwf Hwf' Hn Hd Hi. unfold fifo_data. apply list_eq. intros i.
  pose proof (wf_data b Hwf). rewrite lookup_drop.
  destruct (decide (i < Z.to_nat (data_length b'))%nat).
  - rewrite !lookup_take_lt by lia. specialize (Hi (Z.of_nat i)).
    rewrite Nat2Z.id in Hi. rewrite Hi by lia. f_equal. lia.
  - rewrite !lookup_take_ge by lia. done.
Qed.

Lemma fifo_consume_read_data_spec b n :
  fifo_wf b -> 0 <= n <= data_length b ->
  exists b', pseudo_tcp_fifo_consume_read_data b n = Ok b' /\ fifo_wf b' /\
    fifo_data b' = drop (Z.to_nat n) (fifo_data b) /\ buffer_length b' = buffer_length b /\
    fifo_ring b' = drop (Z.to_nat n) (fifo_ring b) ++ take (Z.to_nat n) (fifo_ring b).
Proof.
  intros Hwf Hn. pose proof Hwf as [Hb Hc Hd Hr].
  unfold pseudo_tcp_fifo_consume_read_data.
  rewrite (proj2 (Z.leb_le _ _)) by lia. cbn [c_assert mbind Res_bind].
  rewrite umod_wrap by lia. eexists; split; [reflexivity|].
  destruct (consume_read_wf b n _ Hwf Hn eq_refl) as (Hwf' & Hdl & Hcap & Hring & Hturn).
  split; [done|]. split; [by apply fifo_data_ring_shift|done].
Qed.

(** Reading, with what becomes of the ring. *)
Lemma fifo_read_ring b n :
  fifo_wf b -> 0 <= n ->
  let k := Z.min n (data_length b) in
  exists b', pseudo_tcp_fifo_read b n = Ok (take (Z.to_nat k) (fifo_data b), b') /\ fifo_wf b' /\
    data_length b' = data_length b - k /\ buffer_length b' = buffer_length b /\
    (forall i, 0 <= i -> i + k < buffer_length b ->
      fifo_ring b' !! Z.to_nat i = fifo_ring b !! Z.to_nat (i + k)) /\
    fifo_ring b' = drop (Z.to_nat k) (fifo_ring b) ++ take (Z.to_nat k) (fifo_ring b).
Proof.
  intros Hwf Hn k. pose proof Hwf as [Hb Hc Hd Hr]. unfold pseudo_tcp_fifo_read.
  rewrite fifo_read_offset_spec by (done || lia). rewrite Z2Nat.inj_0, drop_0. cbn [mbind Res_bind].
  pose proof (length_fifo_data b Hwf) as Hl.
  assert (take (Z.to_nat n) (fifo_data b) = take (Z.to_nat k) (fifo_data b)) as ->.
  { subst k. destruct (Z.leb_spec n (data_length b)); [f_equal; lia|]. rewrite !take_ge by lia. done. }
  replace (Z.of_nat (length (take (Z.to_nat k) (fifo_data b)))) with k by (rewrite length_take; lia).
  rewrite umod_wrap by lia. eexists; split; [reflexivity|].
  eapply consume_read_wf; [done|lia|done].
Qed.

Lemma fifo_read_spec b n :
  fifo_wf b -> 0 <= n ->
  exists b', pseudo_tcp_fifo_read b n = Ok (take (Z.to_nat n) (fifo_data b), b') /\ fifo_wf b' /\
    fifo_data b' = drop (Z.to_nat n) (fifo_data b) /\ buffer_length b' = buffer_length b.
Proof.
  intros Hwf Hn. destruct (fifo_read_ring b n Hwf Hn) as (b' & Hread & Hwf' & Hdl & Hcap & Hring & _).
  pose proof (length_fifo_data b Hwf). pose proof (wf_data b Hwf).
  apply fifo_data_ring_shift in Hring as Hdata; [|done|done|lia|done].
  exists b'. rewrite Hread, Hdata. split_and!; try done.
  - destruct (Z.leb_spec n (data_length b)); [by rewrite Z.min_l by lia|].
    rewrite Z.min_r, !take_ge by lia. done.
  - destruct (Z.leb_spec n (data_length b)); [by rewrite Z.min_l by lia|].
    rewrite Z.min_r, !drop_ge by lia. done.
Qed.

(** [pseudo_tcp_fifo_write_offset] writes into the look-ahead area. *)
Lemma fifo_write_offset_spec b src offset :
  fifo_wf b -> 0 <= offset < 2 ^ 62 -> Z.of_nat (length src) < 2 ^ 64 ->
  let n := Z.max 0 (Z.min (Z.of_nat (length src)) (buffer_length b - data_length b - offset)) in
  exists b', pseudo_tcp_fifo_write_offset b src offset = Ok (n, b') /\ fifo_wf b' /\
    fifo_ring b' = splice (Z.to_nat (data_length b + offset)) (take (Z.to_nat n) src) (fifo_ring b) /\
    data_length b' = data_length b /\ buffer_length b' = buffer_length b.
Proof.
  intros Hwf Hoff Hsrc n. pose proof Hwf as [Hb Hc Hd Hr].
  unfold pseudo_tcp_fifo_write_offset.
  rewrite (u64_small (read_position b + data_length b)) by lia.
  rewrite (u64_small (data_length b + offset)) by lia.
  rewrite (u64_small (buffer_length b - data_length b)) by lia.
  rewrite Z.geb_leb. destruct (Z.leb_spec (buffer_length b) (data_length b + offset)).
  - (* nothing fits *)
    unfold umod. rewrite (proj2 (Z.eqb_neq _ _)) by lia. cbn [mbind Res_bind].
    exists b. assert (n = 0) as -> by lia. by rewrite take_0, splice_nil.
  - rewrite umod_wrap by lia. cbn [mbind Res_bind].
    rewrite (u64_small (buffer_length b - data_length b - offset)) by lia.
    set (pos := Z.of_nat (wrap _ _)). cbv zeta.
    assert (0 <= pos < buffer_length b) as Hp by (subst pos; unfold wrap; case_decide; lia).
    rewrite (u64_small (buffer_length b - pos)) by lia.
    replace (Z.min (Z.of_nat (length src)) (buffer_length b - data_length b - offset)) with n by lia.
    rewrite store_bytes_Ok by (rewrite ?length_take; lia). cbn [mbind Res_bind].
    rewrite store_bytes_Ok by (rewrite ?length_splice, ?length_take, ?length_drop by
      (rewrite ?length_take; lia); lia).
    cbn [mbind Res_bind]. eexists; split; [reflexivity|].
    assert (length (take (Z.to_nat n) src) = Z.to_nat n) as Hlt by (rewrite length_take; lia).
    split; [|split; [|done]].
    + split; cbn; [|done..]. rewrite !length_splice; rewrite ?length_splice; rewrite ?length_take, ?length_drop; lia.
    + pose proof (ring_write (Z.to_nat (read_position b)) (buffer b) (Z.to_nat (data_length b + offset))
        (take (Z.to_nat n) src)) as Hw.
      rewrite Hlt in Hw. cbn zeta in Hw. unfold fifo_ring. cbn [buffer read_position].
      rewrite <- Hw by lia. f_equal.
      replace (wrap (length (buffer b)) (Z.to_nat (read_position b) + Z.to_nat (data_length b + offset)))
        with (Z.to_nat pos) by (subst pos; unfold wrap; repeat case_decide; lia).
      set (t := Nat.min _ _).
      assert (Z.of_nat t = Z.min n (buffer_length b - pos)) as Ht by (subst t; lia).
      rewrite <- Ht, Nat2Z.id.
      replace (Z.to_nat (n - Z.of_nat t)) with (Z.to_nat n - t)%nat by lia.
      rewrite take_take, Nat.min_l by lia. rewrite skipn_firstn_comm. done.
Qed.

Lemma fifo_consume_write_spec b n :
  fifo_wf b -> 0 <= n <= buffer_length b - data_length b ->
  exists b', pseudo_tcp_fifo_consume_write_buffer b n = Ok b' /\ fifo_wf b' /\
    fifo_ring b' = fifo_ring b /\ data_length b' = data_length b + n /\
    buffer_length b' = buffer_length b.
Proof.
  intros Hwf Hn. pose proof Hwf as [Hb Hc Hd Hr]. unfold pseudo_tcp_fifo_consume_write_buffer.
  rewrite (u64_small (buffer_length b - data_length b)) by lia.
  rewrite (proj2 (Z.leb_le _ _)) by lia. cbn [c_assert mbind Res_bind].
  eexists; split; [reflexivity|].
  rewrite u64_small by lia.
  split; [|done]. split; cbn; done || lia.
Qed.

Lemma fifo_write_spec b src :
  fifo_wf b -> Z.of_nat (length src) < 2 ^ 64 ->
  let n := Z.min (Z.of_nat (length src)) (buffer_length b - data_length b) in
  exists b', pseudo_tcp_fifo_write b src = Ok (n, b') /\ fifo_wf b' /\
    fifo_data b' = fifo_data b ++ take (Z.to_nat n) src /\ buffer_length b' = buffer_length b.
Proof.
  intros Hwf Hsrc n. pose proof Hwf as [Hb Hc Hd Hr].
  destruct (fifo_write_offset_spec b src 0 Hwf) as (b' & Hw & Hwf' & Hring & Hlen & Hcap); [lia|done|].
  rewrite Z.sub_0_r, Z.max_r in Hw, Hring by lia. fold n in Hw, Hring.
  unfold pseudo_tcp_fifo_write. rewrite Hw. cbn [mbind Res_bind].
  pose proof Hwf' as [Hb' Hc' Hd' Hr'].
  eexists; split; [reflexivity|]. rewrite Hcap, Hlen in *.
  rewrite u64_small by lia.
  split; [by split; cbn; [lia..|]|]. split; [|done].
  unfold fifo_data, fifo_ring in *. cbn [buffer read_position data_length]. rewrite Hring, Z.add_0_r.
  pose proof (length_fifo_ring b Hwf) as Hlr. unfold fifo_ring in Hlr.
  assert (length (take (Z.to_nat n) src) = Z.to_nat n) as Hlt by (rewrite length_take; lia).
  unfold splice. rewrite (app_assoc (take _ _)), take_app_le.
  - apply take_ge. rewrite length_app, Hlt, length_take. lia.
  - rewrite length_app, Hlt, length_take. lia.
Qed.

Lemma splice_app (d f src : list byte) off :
  splice (length d + off) src (d ++ f) = d ++ splice off src f.
Proof.
  unfold splice. rewrite take_app_add', <- Nat.add_assoc, drop_app_add' by done. by rewrite <- app_assoc.
Qed.

(** Two writes from the start on. *)
Lemma splice_two (a b buf : list byte) :
  splice (length a) b (splice 0 a buf) = a ++ b ++ drop (length a + length b) buf.
Proof.
  unfold splice. cbn [app Nat.add]. rewrite take_0. cbn [app].
  rewrite take_app_length, drop_app_ge, drop_drop by lia. do 3 f_equal. lia.
Qed.

Lemma length_g_slice_alloc `{Malloc} size : 0 <= size -> Z.of_nat (length (g_slice_alloc size)) = size.
Proof. intros. unfold g_slice_alloc. rewrite length_fmap, length_seq. lia. Qed.

Lemma fifo_init_wf `{Malloc} size :
  0 < size < 2 ^ 62 -> fifo_wf (pseudo_tcp_fifo_init size) /\ fifo_data (pseudo_tcp_fifo_init size) = [].
Proof. intros. split; [|done]. split; cbn; rewrite ?length_g_slice_alloc; lia. Qed.

(** Resizing keeps the data, and also the number of bytes when it is refused.
    The capacity asked for is not taken when it equals the number of buffered
    bytes. *)
Lemma fifo_set_capacity_spec `{Malloc} b size :
  fifo_wf b -> 0 <= size < 2 ^ 62 ->
  exists b', pseudo_tcp_fifo_set_capacity b size = Ok (data_length b <=? size, b') /\
    fifo_wf b' /\ fifo_data b' = fifo_data b /\
    buffer_length b' = (if data_length b <? size then size else buffer_length b) /\
    fifo_free b' = if data_length b <? size then drop (Z.to_nat (data_length b)) (g_slice_alloc size)
                   else fifo_free b.
Proof.
  intros Hwf Hs. pose proof Hwf as [Hb Hc Hd Hr]. unfold pseudo_tcp_fifo_set_capacity.
  rewrite Z.gtb_ltb. destruct (Z.ltb_spec size (data_length b)).
  { exists b. rewrite (proj2 (Z.leb_gt _ _)), (proj2 (Z.ltb_ge _ _)) by lia. done. }
  rewrite (proj2 (Z.leb_le _ _)) by lia.
  destruct (Z.eqb_spec size (data_length b)) as [->|]; cbn [negb].
  { exists b. by rewrite Z.ltb_irrefl. }
  rewrite (proj2 (Z.ltb_lt _ _)) by lia.
  pose proof (load_ring b (read_position b) 0 (data_length b) Hwf) as Hload.
  cbn zeta in Hload. set (tail := Z.min _ _) in *.
  assert (0 <= tail <= data_length b) as Ht.
  { subst tail. rewrite u64_small by lia. lia. }
  destruct (load_bytes (buffer b) (read_position b) tail) as [front|] eqn:Ef; cbn [mbind Res_bind] in *.
  2: { discriminate Hload; (lia || (unfold wrap; case_decide; lia)). }
  destruct (load_bytes (buffer b) 0 (data_length b - tail)) as [back|] eqn:Eb; cbn [mbind Res_bind] in *.
  2: { discriminate Hload; (lia || (unfold wrap; case_decide; lia)). }
  assert (front ++ back = fifo_data b) as Hfb.
  { enough (Ok (front ++ back) = Ok (fifo_data b)) by congruence.
    rewrite Hload by (lia || (unfold wrap; case_decide; lia)).
    by rewrite Z2Nat.inj_0, drop_0. }
  assert (Z.of_nat (length front) = tail) as Hfl.
  { rewrite load_bytes_Ok in Ef by (subst tail; rewrite u64_small in *; lia).
    injection Ef as <-. rewrite length_take, length_drop.
    subst tail. rewrite u64_small in * by lia. lia. }
  pose proof (length_fifo_data b Hwf) as Hdl. rewrite <- Hfb, length_app in Hdl.
  pose proof (length_g_slice_alloc size ltac:(lia)) as Hal.
  rewrite store_bytes_Ok by lia. cbn [mbind Res_bind].
  rewrite store_bytes_Ok by (rewrite ?length_splice; lia). cbn [mbind Res_bind].
  set (b' := {| buffer := splice (Z.to_nat tail) _ _ |}). exists b'. split; [done|].
  assert (fifo_ring b' = fifo_data b ++ drop (Z.to_nat (data_length b)) (g_slice_alloc size)) as Hring.
  { unfold fifo_ring, ring. cbn [b' buffer read_position].
    rewrite Z2Nat.inj_0, drop_0, take_0, app_nil_r, <- Hfb, <- Hfl, Nat2Z.id, splice_two, <- app_assoc.
    do 3 f_equal. lia. }
  pose proof (length_fifo_data b Hwf) as Hfd. split; [|split].
  - split; cbn; rewrite ?length_splice; rewrite ?length_splice; lia.
  - exact (proj1 (fifo_parts _ _ _ _ Hring eq_refl Hfd)).
  - split; [done|]. exact (proj2 (fifo_parts _ _ _ _ Hring eq_refl Hfd)).
Qed.

(** The operations on a queue with a look-ahead area, given by the bytes that are buffered,
    oldest first, and those of the free area behind them, where data that came too early
    waits for its turn: what the users of the buffer rely on.  [None] stands for a violated
    precondition. *)
Inductive fifo_op :=
| OpWrite (src : list byte)
| OpWriteOffset (src : list byte) (offset : Z)
| OpConsumeWrite (size : Z)
| OpRead (bytes : Z)
| OpPeek (bytes offset : Z)
| OpConsume (size : Z)
| OpSetCapacity (size : Z)
| OpBuffered
| OpWriteRemaining.

Inductive fifo_out := OutNone | OutCount (n : Z) | OutBytes (bs : list byte) | OutBool (r : bool).

Definition queue : Type := list byte * list byte.

(** Writing goes to the free area, and takes what it wrote into the queue; what is read
    or dropped becomes free, behind what was. *)
Definition queue_do `{Malloc} (q : queue) (op : fifo_op) : option (fifo_out * queue) :=
  let '(d, f) := q in
  let len := Z.of_nat (length d) in
  let room := Z.of_nat (length f) in
  match op with
  | OpWrite src =>
      let n := Z.min (Z.of_nat (length src)) room in
      Some (OutCount n, (d ++ take (Z.to_nat n) src, drop (Z.to_nat n) f))
  | OpWriteOffset src off =>
      let n := Z.max 0 (Z.min (Z.of_nat (length src)) (room - off)) in
      Some (OutCount n, (d, splice (Z.to_nat off) (take (Z.to_nat n) src) f))
  | OpConsumeWrite n =>
      if n <=? room then Some (OutNone, (d ++ take (Z.to_nat n) f, drop (Z.to_nat n) f)) else None
  | OpRead n =>
      Some (OutBytes (take (Z.to_nat n) d), (drop (Z.to_nat n) d, f ++ take (Z.to_nat n) d))
  | OpPeek n off => Some (OutBytes (take (Z.to_nat n) (drop (Z.to_nat off) d)), q)
  | OpConsume n =>
      if n <=? len then Some (OutNone, (drop (Z.to_nat n) d, f ++ take (Z.to_nat n) d)) else None
  | OpSetCapacity n =>
      Some (OutBool (len <=? n), (d, if len <? n then drop (length d) (g_slice_alloc n) else f))
  | OpBuffered => Some (OutCount len, q)
  | OpWriteRemaining => Some (OutCount room, q)
  end.

Definition fifo_do `{Malloc} (b : PseudoTcpFifo) (op : fifo_op) : Res (fifo_out * PseudoTcpFifo) :=
  match op with
  | OpWrite src => '(n, b) ← pseudo_tcp_fifo_write b src; Ok (OutCount n, b)
  | OpWriteOffset src off => '(n, b) ← pseudo_tcp_fifo_write_offset b src off; Ok (OutCount n, b)
  | OpConsumeWrite n => b ← pseudo_tcp_fifo_consume_write_buffer b n; Ok (OutNone, b)
  | OpRead n => '(bs, b) ← pseudo_tcp_fifo_read b n; Ok (OutBytes bs, b)
  | OpPeek n off => bs ← pseudo_tcp_fifo_read_offset b n off; Ok (OutBytes bs, b)
  | OpConsume n => b ← pseudo_tcp_fifo_consume_read_data b n; Ok (OutNone, b)
  | OpSetCapacity n => '(r, b) ← pseudo_tcp_fifo_set_capacity b n; Ok (OutBool r, b)
  | OpBuffered => Ok (OutCount (pseudo_tcp_fifo_get_buffered b), b)
  | OpWriteRemaining => Ok (OutCount (pseudo_tcp_fifo_get_write_remaining b), b)
  end.

(** The arguments the code can pass: sizes and offsets, those of a read inside the
    buffer. *)
Definition op_ok (cap : Z) (op : fifo_op) : Prop :=
  match op with
  | OpWrite src => Z.of_nat (length src) < 2 ^ 64
  | OpWriteOffset src off => Z.of_nat (length src) < 2 ^ 64 /\ 0 <= off < 2 ^ 62
  | OpRead n | OpConsume n | OpConsumeWrite n => 0 <= n < 2 ^ 62
  | OpPeek n off => 0 <= n < 2 ^ 62 /\ 0 <= off < cap
  | OpSetCapacity n => 0 <= n < 2 ^ 62
  | OpBuffered | OpWriteRemaining => True
  end.

Definition fifo_abs (b : PseudoTcpFifo) : queue := (fifo_data b, fifo_free b).

Lemma fifo_abs_parts b d f :
  fifo_ring b = d ++ f -> data_length b = Z.of_nat (length d) -> fifo_abs b = (d, f).
Proof. intros Hr Hn. unfold fifo_abs. by destruct (fifo_parts b d f _ Hr Hn) as [-> ->]. Qed.

Lemma length_fifo_free b : fifo_wf b -> Z.of_nat (length (fifo_free b)) = buffer_length b - data_length b.
Proof.
  intros Hwf. unfold fifo_free. rewrite length_drop. pose proof (length_fifo_ring b Hwf).
  destruct Hwf as [_ _ ? _]. lia.
Qed.

Lemma fifo_write_offset_abs b src off :
  fifo_wf b -> Z.of_nat (length src) < 2 ^ 64 -> 0 <= off < 2 ^ 62 ->
  let n := Z.max 0 (Z.min (Z.of_nat (length src)) (Z.of_nat (length (fifo_free b)) - off)) in
  exists b', pseudo_tcp_fifo_write_offset b src off = Ok (n, b') /\ fifo_wf b' /\
    fifo_abs b' = (fifo_data b, splice (Z.to_nat off) (take (Z.to_nat n) src) (fifo_free b)).
Proof.
  intros Hwf Hsrc Hoff n. subst n. rewrite length_fifo_free by done.
  destruct (fifo_write_offset_spec b src off Hwf Hoff Hsrc) as (b' & Hw & Hwf' & Hring & Hdl & _).
  pose proof (length_fifo_data b Hwf). destruct Hwf as [_ _ ? _].
  eexists. split; [exact Hw|]. split; [done|]. apply fifo_abs_parts; [|lia].
  rewrite Hring, fifo_ring_parts. replace (Z.to_nat (data_length b + off))
    with (length (fifo_data b) + Z.to_nat off)%nat by lia. apply splice_app.
Qed.

Lemma fifo_consume_write_abs b n :
  fifo_wf b -> 0 <= n <= Z.of_nat (length (fifo_free b)) ->
  exists b', pseudo_tcp_fifo_consume_write_buffer b n = Ok b' /\ fifo_wf b' /\
    fifo_abs b' = (fifo_data b ++ take (Z.to_nat n) (fifo_free b), drop (Z.to_nat n) (fifo_free b)).
Proof.
  intros Hwf Hn. pose proof (length_fifo_free b Hwf) as Hf. pose proof (length_fifo_data b Hwf).
  destruct (fifo_consume_write_spec b n Hwf) as (b' & Hc & Hwf' & Hring & Hdl & _); [lia|].
  exists b'. split; [done|]. split; [done|]. apply fifo_abs_parts.
  - rewrite Hring, <- app_assoc, take_drop. apply fifo_ring_parts.
  - rewrite length_app, length_take. lia.
Qed.

(** A write is a write behind the data that is then taken into it. *)
Lemma fifo_write_abs b src :
  fifo_wf b -> Z.of_nat (length src) < 2 ^ 64 ->
  let n := Z.min (Z.of_nat (length src)) (Z.of_nat (length (fifo_free b))) in
  exists b', pseudo_tcp_fifo_write b src = Ok (n, b') /\ fifo_wf b' /\
    fifo_abs b' = (fifo_data b ++ take (Z.to_nat n) src, drop (Z.to_nat n) (fifo_free b)).
Proof.
  intros Hwf Hsrc n. destruct (fifo_write_offset_abs b src 0 Hwf Hsrc) as (b1 & Hw & Hwf1 & Habs); [lia|].
  rewrite Z.sub_0_r, Z.max_r in Hw, Habs by lia. fold n in Hw, Habs.
  injection Habs as Hd Hf. change (Z.to_nat 0) with 0%nat in Hf.
  assert (length (take (Z.to_nat n) src) = Z.to_nat n) as Hlt by (rewrite length_take; lia).
  assert (length (fifo_free b1) = length (fifo_free b)) as Hl by (rewrite Hf, length_splice; lia).
  destruct (fifo_consume_write_abs b1 n Hwf1) as (b2 & Hc & Hwf2 & Habs2); [lia|].
  exists b2. split; [|split; [done|]].
  - unfold pseudo_tcp_fifo_write. rewrite Hw. cbn [mbind Res_bind].
    unfold pseudo_tcp_fifo_consume_write_buffer in Hc.
    apply Res_bind_Ok in Hc as (_ & _ & [= <-]). done.
  - rewrite Habs2, Hd, Hf. unfold splice. cbn [Nat.add]. rewrite take_0, Hlt. cbn [app].
    by rewrite take_app_length', drop_app_length' by done.
Qed.

(** What leaves the queue is free behind what was. *)
Lemma turned_abs b b' n :
  fifo_wf b -> 0 <= n <= data_length b -> data_length b' = data_length b - n ->
  fifo_ring b' = drop (Z.to_nat n) (fifo_ring b) ++ take (Z.to_nat n) (fifo_ring b) ->
  fifo_abs b' = (drop (Z.to_nat n) (fifo_data b), fifo_free b ++ take (Z.to_nat n) (fifo_data b)).
Proof.
  intros Hwf Hn Hdl Hring. pose proof (length_fifo_data b Hwf). apply fifo_abs_parts.
  - rewrite Hring, fifo_ring_parts, drop_app_le, take_app_le by lia. by rewrite app_assoc.
  - rewrite length_drop. lia.
Qed.

Lemma fifo_do_spec `{Malloc} b op :
  fifo_wf b -> op_ok (buffer_length b) op ->
  match queue_do (fifo_abs b) op with
  | Some (out, q) => exists b', fifo_do b op = Ok (out, b') /\ fifo_wf b' /\ fifo_abs b' = q
  | None => fifo_do b op = Fault AssertFailed
  end.
Proof.
  intros Hwf Hop. pose proof (length_fifo_data b Hwf) as Hlen. pose proof (length_fifo_free b Hwf) as Hfree.
  pose proof Hwf as [Hb Hc Hd Hr].
  destruct op as [src|src off|n|n|n off|n|n| |]; cbn [op_ok queue_do fifo_abs fifo_do] in Hop |- *.
  - destruct (fifo_write_abs b src Hwf Hop) as (b' & -> & ? & ?). by exists b'.
  - destruct (fifo_write_offset_abs b src off Hwf) as (b' & -> & ? & ?); [lia..|]. by exists b'.
  - destruct (Z.leb_spec n (Z.of_nat (length (fifo_free b)))).
    + destruct (fifo_consume_write_abs b n Hwf) as (b' & -> & ? & ?); [lia|]. by exists b'.
    + unfold pseudo_tcp_fifo_consume_write_buffer. rewrite (u64_small (buffer_length b - data_length b)) by lia.
      by rewrite (proj2 (Z.leb_gt _ _)) by lia.
  - destruct (fifo_read_ring b n Hwf) as (b' & -> & Hwf' & Hdl & _ & _ & Hring); [lia|]. exists b'.
    apply turned_abs in Hring; [|done|lia|lia]. rewrite Hring.
    destruct (Z.leb_spec n (data_length b)); [by rewrite Z.min_l by lia|].
    rewrite Z.min_r, !(take_ge (fifo_data b)), !(drop_ge (fifo_data b)) by lia. done.
  - rewrite fifo_read_offset_spec by (done || lia). by exists b.
  - rewrite Hlen. destruct (Z.leb_spec n (data_length b)).
    + destruct (fifo_consume_read_data_spec b n Hwf) as (b' & -> & Hwf' & Hdata & _ & Hring); [lia|].
      exists b'. split; [done|]. split; [done|]. apply turned_abs; [done|lia| |done].
      rewrite <- length_fifo_data, Hdata, length_drop by done. lia.
    + unfold pseudo_tcp_fifo_consume_read_data. by rewrite (proj2 (Z.leb_gt _ _)) by lia.
  - destruct (fifo_set_capacity_spec b n Hwf) as (b' & -> & Hwf' & Hdata & _ & Hf); [lia|].
    exists b'. unfold fifo_abs. rewrite Hdata, Hf, Hlen. split; [done|]. split; [done|].
    by rewrite <- Hlen, Nat2Z.id.
  - by exists b; rewrite Hlen.
  - exists b. unfold pseudo_tcp_fifo_get_write_remaining. by rewrite u64_small, Hfree by lia.
Qed.

(** Sequences of operations. *)
Fixpoint queue_run `{Malloc} (q : queue) (ops : list fifo_op) : option (list fifo_out * queue) :=
  match ops with
  | [] => Some ([], q)
  | op :: ops => '(o, q) ← queue_do q op; '(os, q) ← queue_run q ops; Some (o :: os, q)
  end.

Fixpoint fifo_run `{Malloc} (b : PseudoTcpFifo) (ops : list fifo_op) :
    Res (list fifo_out * PseudoTcpFifo) :=
  match ops with
  | [] => Ok ([], b)
  | op :: ops => '(o, b) ← fifo_do b op; '(os, b) ← fifo_run b ops; Ok (o :: os, b)
  end.

(** The arguments are in range at every step of a queue run. *)
Fixpoint ops_ok `{Malloc} (q : queue) (ops : list fifo_op) : Prop :=
  match ops with
  | [] => True
  | op :: ops => op_ok (Z.of_nat (length q.1 + length q.2)) op /\
      match queue_do q op with Some (_, q) => ops_ok q ops | None => True end
  end.

(** C37. Refinement of the ring buffer: any sequence of reads, writes, looks at an offset
    and writes ahead at an offset, of taking in what was written ahead and dropping what was
    looked at, and of changes of the capacity, started from any well-formed buffer, gives
    the results that the byte queue with its look-ahead area gives, ends in a well-formed
    buffer that stands for the queue's final state, byte by byte, and fails exactly when the
    queue's preconditions do (more bytes dropped than buffered, or taken in than are free),
    with the code's own assertion.  In particular no [memcpy] leaves the buffer and no index
    computation divides by zero. *)
Theorem fifo_refines_queue `{Malloc} b ops :
  fifo_wf b -> ops_ok (fifo_abs b) ops ->
  match queue_run (fifo_abs b) ops with
  | Some (outs, q) => exists b', fifo_run b ops = Ok (outs, b') /\ fifo_wf b' /\ fifo_abs b' = q
  | None => fifo_run b ops = Fault AssertFailed
  end.
Proof.
  intros Hwf Hops. remember (fifo_abs b) as q eqn:Hq.
  induction ops as [|op ops IH] in b, q, Hq, Hwf, Hops |- *; cbn; [by exists b|].
  destruct Hops as [Hop Hops]. subst q. cbn [fst snd fifo_abs] in Hop.
  replace (Z.of_nat _) with (buffer_length b) in Hop
    by (pose proof (length_fifo_data b Hwf); pose proof (length_fifo_free b Hwf); lia).
  pose proof (fifo_do_spec b op Hwf Hop) as Hdo.
  destruct (queue_do (fifo_abs b) op) as [[o q']|]; cbn; [|by rewrite Hdo].
  destruct Hdo as (b1 & -> & Hwf1 & Habs1). cbn.
  specialize (IH b1 Hwf1 q' (eq_sym Habs1) Hops).
  destruct (queue_run q' ops) as [[os q'']|]; cbn.
  - destruct IH as (b2 & -> & ? & ?). by exists b2.
  - by rewrite IH.
Qed.

(** The look-ahead area: bytes written at an offset behind the data wait there
    until the gap in front of them is filled, and then both become part of the
    queue in order, with nothing else changed. *)
Theorem fifo_out_of_order b early late :
  fifo_wf b ->
  data_length b + Z.of_nat (length late) + Z.of_nat (length early) <= buffer_length b ->
  exists b1 b2 b3 b4,
    pseudo_tcp_fifo_write_offset b early (Z.of_nat (length late)) =
      Ok (Z.of_nat (length early), b1) /\ fifo_data b1 = fifo_data b /\
    pseudo_tcp_fifo_write_offset b1 late 0 = Ok (Z.of_nat (length late), b2) /\
    pseudo_tcp_fifo_consume_write_buffer b2 (Z.of_nat (length late)) = Ok b3 /\
    fifo_data b3 = fifo_data b ++ late /\
    pseudo_tcp_fifo_consume_write_buffer b3 (Z.of_nat (length early)) = Ok b4 /\
    fifo_data b4 = fifo_data b ++ late ++ early /\ fifo_wf b4.
Proof.
  intros Hwf Hfit. pose proof Hwf as [Hb Hc Hd Hr].
  destruct (fifo_write_offset_spec b early (Z.of_nat (length late)) Hwf)
    as (b1 & H1 & Hwf1 & Hr1 & Hl1 & Hc1); [lia|lia|].
  destruct (fifo_write_offset_spec b1 late 0 Hwf1) as (b2 & H2 & Hwf2 & Hr2 & Hl2 & Hc2); [lia|lia|].
  match type of H1 with _ = Ok (?n, _) =>
    replace n with (Z.of_nat (length early)) in H1, Hr1 by lia end.
  match type of H2 with _ = Ok (?n, _) =>
    replace n with (Z.of_nat (length late)) in H2, Hr2 by lia end.
  rewrite Nat2Z.id, take_ge in Hr1, Hr2 by lia.
  destruct (fifo_consume_write_spec b2 (Z.of_nat (length late)) Hwf2)
    as (b3 & H3 & Hwf3 & Hr3 & Hl3 & Hc3); [lia|].
  destruct (fifo_consume_write_spec b3 (Z.of_nat (length early)) Hwf3)
    as (b4 & H4 & Hwf4 & Hr4 & Hl4 & Hc4); [lia|].
  pose proof (length_fifo_ring b Hwf) as Hlr.
  set (dl := Z.to_nat (data_length b)).
  rewrite Z.add_0_r in Hr2.
  replace (Z.to_nat (data_length b + Z.of_nat (length late))) with (dl + length late)%nat in Hr1 by lia.
  replace (Z.to_nat (data_length b1)) with dl in Hr2 by lia.
  assert (length (fifo_ring b1) = length (fifo_ring b)) as Hlr1
    by (rewrite Hr1, length_splice; lia).
  exists b1, b2, b3, b4. split_and!; try done.
  - unfold fifo_data. rewrite Hr1, Hl1. apply take_splice_le; lia.
  - unfold fifo_data. rewrite Hr3, Hr2, Hl3, Hl2, Hl1.
    replace (Z.to_nat _) with (dl + length late)%nat by lia.
    rewrite take_splice_end by lia. f_equal. rewrite Hr1. apply take_splice_le; lia.
  - unfold fifo_data. rewrite Hr4, Hr3, Hr2, Hl4, Hl3, Hl2, Hl1.
    replace (Z.to_nat _) with (dl + (length late + length early))%nat by lia.
    rewrite take_splice_more, Hr1 by lia. f_equal; [apply take_splice_le; lia|].
    by rewrite drop_splice, take_app_length by lia.
Qed.

(** ** Witnesses *)

Definition sample_malloc : Malloc := fun _ => byte.of_Z 170.
Definition sample_bytes (l : list Z) : list byte := byte.of_Z <$> l.

(** A buffer of eight bytes whose contents go around the end. *)
Definition sample_fifo : PseudoTcpFifo :=
  {| buffer := sample_bytes [3; 4; 0; 0; 0; 0; 1; 2]; buffer_length := 8;
     data_length := 4; read_position := 6 |}.

Lemma sample_fifo_wf : fifo_wf sample_fifo.
Proof. split; cbn; lia. Qed.

(** A write that takes in what waits behind it, the buffer grown and shrunk. *)
Definition sample_ops : list fifo_op :=
  [OpPeek 2 1; OpWriteOffset (sample_bytes [6; 7; 8; 9]) 1; OpWrite (sample_bytes [5]); OpConsumeWrite 2;
   OpRead 3; OpSetCapacity 6; OpConsume 4; OpConsumeWrite 7].

Lemma fifo_refines_queue_witness :
  fifo_wf sample_fifo /\ ops_ok (H := sample_malloc) (fifo_abs sample_fifo) sample_ops /\
  fifo_run (H := sample_malloc) sample_fifo sample_ops = Fault AssertFailed.
Proof.
  assert (ops_ok (H := sample_malloc) (fifo_abs sample_fifo) sample_ops) as Hops
    by (vm_compute; intuition discriminate).
  split; [exact sample_fifo_wf|]. split; [exact Hops|].
  exact (fifo_refines_queue (H := sample_malloc) sample_fifo sample_ops sample_fifo_wf Hops).
Defined.

(** Without the last, the early bytes come out in their place. *)
Example sample_results :
  fst <$> fifo_run (H := sample_malloc) sample_fifo (removelast sample_ops) =
    Ok [OutBytes (sample_bytes [2; 3]); OutCount 3; OutCount 1; OutNone;
        OutBytes (sample_bytes [1; 2; 3]); OutBool true; OutNone].
Proof. vm_compute. reflexivity. Qed.

Lemma fifo_out_of_order_witness :
  exists b1 b2 b3 b4,
    pseudo_tcp_fifo_write_offset sample_fifo (sample_bytes [7; 8]) 1 = Ok (2, b1) /\
    fifo_data b1 = fifo_data sample_fifo /\
    pseudo_tcp_fifo_write_offset b1 (sample_bytes [6]) 0 = Ok (1, b2) /\
    pseudo_tcp_fifo_consume_write_buffer b2 1 = Ok b3 /\
    fifo_data b3 = sample_bytes [1; 2; 3; 4; 6] /\
    pseudo_tcp_fifo_consume_write_buffer b3 2 = Ok b4 /\
    fifo_data b4 = sample_bytes [1; 2; 3; 4; 6; 7; 8] /\ fifo_wf b4.
Proof.
  apply (fifo_out_of_order sample_fifo (sample_bytes [7; 8]) (sample_bytes [6]) sample_fifo_wf).
  cbn; lia.
Defined.
