(* ===== verification/SeqArith.v ===== *)
(** * Serial-number and time arithmetic of the reliable stream
    (src/session/pseudotcp/pseudotcp.c)

    Sequence numbers and millisecond clocks are 32-bit and wrap; this file holds
    the comparisons the code makes on them, exactly as written, and what they
    mean for numbers that are close to each other on the circle. *)

From S2P Require Import Prelude.

Definition G_MAXUINT32 : Z := 0xFFFFFFFF.

Definition bound (lower middle upper : Z) : Z := Z.min (Z.max lower middle) upper.

Definition time_is_between (later middle earlier : Z) : bool :=
  if earlier <=? later then (earlier <=? middle) && (middle <=? later)
  else negb ((later <? middle) && (middle <? earlier)).

(** The branches compute in [guint32], convert to [long], negate, and convert the
    result to [gint32]. *)
Definition time_diff (later earlier : Z) : Z :=
  let LAST := 0xFFFFFFFF in
  let HALF := 0x80000000 in
  if time_is_between (u32 (earlier + HALF)) later earlier then
    if earlier <=? later then i32 (u32 (later - earlier))
    else i32 (u32 (later + (LAST - earlier) + 1))
  else
    if later <=? earlier then i32 (- u32 (earlier - later))
    else i32 (- u32 (earlier + (LAST - later) + 1)).

Definition LARGER (a b : Z) : bool := u32 (a - b - 1) <? Z.shiftr G_MAXUINT32 1.
Definition LARGER_OR_EQUAL (a b : Z) : bool := u32 (a - b) <? Z.shiftr G_MAXUINT32 1.
Definition SMALLER (a b : Z) : bool := LARGER b a.
Definition SMALLER_OR_EQUAL (a b : Z) : bool := LARGER_OR_EQUAL b a.

(** ** Properties *)

(** [time_diff] is the signed distance on the circle of 32-bit times: the one
    number in [-2^31, 2^31) congruent to the difference.  The five-way case
    analysis of the code computes exactly the two's-complement difference, with
    no special case at the wrap. *)
Theorem time_diff_signed_distance later earlier :
  is_u32 later -> is_u32 earlier ->
  time_diff later earlier = i32 (later - earlier) /\
  u32 (earlier + time_diff later earlier) = later.
Proof.
  intros Hl He. assert (time_diff later earlier = i32 (later - earlier)) as ->.
  { unfold time_diff, time_is_between.
    repeat match goal with |- context [?a <=? ?b] => destruct (Z.leb_spec a b)
      | |- context [?a <? ?b] => destruct (Z.ltb_spec a b) end; cbn; machine_int. }
  split; [done|machine_int].
Qed.

Lemma time_diff_signed_distance_witness :
  is_u32 5 /\ is_u32 0xFFFFFFFE /\
  (time_diff 5 0xFFFFFFFE = i32 (5 - 0xFFFFFFFE) /\
   u32 (0xFFFFFFFE + time_diff 5 0xFFFFFFFE) = 5).
Proof.
  assert (is_u32 5) as H1 by (split; done). assert (is_u32 0xFFFFFFFE) as H2 by (split; done).
  split; [exact H1|split; [exact H2|exact (time_diff_signed_distance 5 0xFFFFFFFE H1 H2)]].
Defined.

Lemma LARGER_spec a b : LARGER a b = true <-> 1 <= u32 (a - b) <= 0x7FFFFFFF.
Proof.
  unfold LARGER. change (Z.shiftr G_MAXUINT32 1) with 0x7FFFFFFF. rewrite Z.ltb_lt. machine_int.
Qed.

Lemma LARGER_OR_EQUAL_spec a b : LARGER_OR_EQUAL a b = true <-> u32 (a - b) < 0x7FFFFFFF.
Proof.
  unfold LARGER_OR_EQUAL. change (Z.shiftr G_MAXUINT32 1) with 0x7FFFFFFF. by rewrite Z.ltb_lt.
Qed.

Lemma seq_compare base x y :
  Z.abs (x - y) < 0x7FFFFFFF ->
  (LARGER (u32 (base + x)) (u32 (base + y)) = (y <? x)) /\
  (LARGER_OR_EQUAL (u32 (base + x)) (u32 (base + y)) = (y <=? x)).
Proof.
  intros H. split; apply eq_true_iff_eq.
  - rewrite LARGER_spec, Z.ltb_lt. machine_int.
  - rewrite LARGER_OR_EQUAL_spec, Z.leb_le. machine_int.
Qed.

(** The sequence comparisons decide the order of the offsets of two sequence
    numbers from a common origin whenever the offsets are less than [2^31 - 1]
    apart, wherever on the circle the origin is.  (At a distance of exactly
    [2^31 - 1] LARGER holds and LARGER_OR_EQUAL does not.) *)
Theorem sequence_comparisons_wrap base x y :
  Z.abs (x - y) < 0x7FFFFFFF ->
  (LARGER (u32 (base + x)) (u32 (base + y)) = true <-> y < x) /\
  (LARGER_OR_EQUAL (u32 (base + x)) (u32 (base + y)) = true <-> y <= x) /\
  (SMALLER (u32 (base + x)) (u32 (base + y)) = true <-> x < y) /\
  (SMALLER_OR_EQUAL (u32 (base + x)) (u32 (base + y)) = true <-> x <= y).
Proof.
  intros H. unfold SMALLER, SMALLER_OR_EQUAL.
  destruct (seq_compare base x y H) as [-> ->]. destruct (seq_compare base y x) as [-> ->]; [lia|].
  rewrite !Z.ltb_lt, !Z.leb_le. done.
Qed.

Lemma sequence_comparisons_wrap_witness :
  Z.abs (2 - 1) < 0x7FFFFFFF /\
  ((LARGER (u32 (0xFFFFFFFE + 2)) (u32 (0xFFFFFFFE + 1)) = true <-> 1 < 2) /\
   (LARGER_OR_EQUAL (u32 (0xFFFFFFFE + 2)) (u32 (0xFFFFFFFE + 1)) = true <-> 1 <= 2) /\
   (SMALLER (u32 (0xFFFFFFFE + 2)) (u32 (0xFFFFFFFE + 1)) = true <-> 2 < 1) /\
   (SMALLER_OR_EQUAL (u32 (0xFFFFFFFE + 2)) (u32 (0xFFFFFFFE + 1)) = true <-> 2 <= 1)).
Proof. split; [done|]. apply (sequence_comparisons_wrap 0xFFFFFFFE 2 1). done. Defined.

(** The two comparisons disagree at half the circle less one. *)
Example LARGER_without_LARGER_OR_EQUAL :
  LARGER 0x7FFFFFFF 0 = true /\ LARGER_OR_EQUAL 0x7FFFFFFF 0 = false.
Proof. split; reflexivity. Qed.
