(* ===== verification/PseudoTcp.v ===== *)
(** * The reliable stream (src/session/pseudotcp/pseudotcp.c)

    The TCP engine that carries reliable sessions over datagrams, function by
    function: socket state, segment queues, packets, options, the processing of
    an incoming segment, transmission, timers, shutdown.

    The socket is a record threaded through the functions.  The segments on the
    two send queues are shared objects in the code, so they live in a heap and
    the queues hold references.  What the engine does to the outside (packets
    handed to [WritePacket], the notification callbacks) is appended to the
    socket's trace; the callbacks that run in between are not allowed to call
    back into the socket.  The monotonic clock and the results of [WritePacket]
    come from the environment. *)

From S2P Require Import Prelude Fifo SeqArith.

(** ** Constants *)

Definition PACKET_MAXIMUMS : list Z :=
  [65535; 32000; 17914; 8166; 4352; 2002; 1492; 1006; 508; 296; 0].

Definition DEF_MTU : Z := 1400.
Definition MAX_PACKET : Z := 65532.
Definition MIN_PACKET : Z := 296.
Definition HEADER_SIZE : Z := 24.
Definition PACKET_OVERHEAD : Z := HEADER_SIZE + 8 + 20 + 64.
Definition MIN_RTO : Z := 1000.
Definition DEF_RTO : Z := 1000.
Definition MAX_RTO : Z := 60000.
Definition DEFAULT_ACK_DELAY : Z := 100.
Definition DEFAULT_RCV_BUF_SIZE : Z := 60 * 1024.
Definition DEFAULT_SND_BUF_SIZE : Z := 90 * 1024.
Definition TCP_OPT_EOL : Z := 0.
Definition TCP_OPT_NOOP : Z := 1.
Definition TCP_OPT_MSS : Z := 2.
Definition TCP_OPT_WND_SCALE : Z := 3.
Definition TCP_OPT_FIN_ACK : Z := 254.
Definition FLAG_NONE : Z := 0.
Definition FLAG_FIN : Z := 1.
Definition FLAG_CTL : Z := 2.
Definition FLAG_RST : Z := 4.
Definition CTL_CONNECT : Z := 0.
Definition DEFAULT_TIMEOUT : Z := 4000.
Definition CLOSED_TIMEOUT : Z := 60 * 1000.
Definition TIME_WAIT_TIMEOUT : Z := 1.

(** errno.h (Linux) *)
Definition EINVAL : Z := 22.
Definition EPIPE : Z := 32.
Definition EWOULDBLOCK : Z := 11.
Definition EMSGSIZE : Z := 90.
Definition ECONNABORTED : Z := 103.
Definition ECONNRESET : Z := 104.
Definition ENOTCONN : Z := 107.
Definition ETIMEDOUT : Z := 110.

(** ** Data *)

Inductive PseudoTcpState :=
| TCP_LISTEN | TCP_SYN_SENT | TCP_SYN_RECEIVED | TCP_ESTABLISHED | TCP_CLOSED
| TCP_FIN_WAIT_1 | TCP_FIN_WAIT_2 | TCP_CLOSING | TCP_TIME_WAIT | TCP_CLOSE_WAIT
| TCP_LAST_ACK.

Inductive PseudoTcpWriteResult := WR_SUCCESS | WR_TOO_LARGE | WR_FAIL.
Inductive PseudoTcpShutdown :=
| PSEUDO_TCP_SHUTDOWN_RD | PSEUDO_TCP_SHUTDOWN_WR | PSEUDO_TCP_SHUTDOWN_RDWR.
Inductive Shutdown := SD_NONE | SD_GRACEFUL | SD_FORCEFUL.
Inductive SendFlags := sfNone | sfDelayedAck | sfImmediateAck | sfFin | sfRst | sfDuplicateAck.
Inductive ClosedownSource := CLOSEDOWN_LOCAL | CLOSEDOWN_REMOTE.

#[export] Instance PseudoTcpState_eq_dec : EqDecision PseudoTcpState.
Proof. solve_decision. Defined.
#[export] Instance PseudoTcpWriteResult_eq_dec : EqDecision PseudoTcpWriteResult.
Proof. solve_decision. Defined.
#[export] Instance Shutdown_eq_dec : EqDecision Shutdown.
Proof. solve_decision. Defined.
#[export] Instance SendFlags_eq_dec : EqDecision SendFlags.
Proof. solve_decision. Defined.

(** [data] and [len]: the bytes at [data]. *)
Record Segment := {
  seg_conv : Z; seg_seq : Z; seg_ack : Z; seg_flags : Z; seg_wnd : Z;
  seg_data : list byte; seg_tsval : Z; seg_tsecr : Z
}.
Definition seg_len (seg : Segment) : Z := Z.of_nat (length (seg_data seg)).

Record SSegment := { sseg_seq : Z; sseg_len : Z; sseg_xmit : Z; sseg_flags : Z }.
Record RSegment := { rseg_seq : Z; rseg_len : Z }.

(** What leaves the engine, newest first in a trace. *)
Inductive event :=
| EvPacket (bytes : list byte) (wres : PseudoTcpWriteResult)
| EvOpened
| EvReadable
| EvWritable
| EvClosed (err : Z).

(** Which of the optional callbacks are set. *)
Record PseudoTcpCallbacks := {
  PseudoTcpOpened : bool; PseudoTcpReadable : bool;
  PseudoTcpWritable : bool; PseudoTcpClosed : bool
}.

(** [WritePacket] answers from the history; [get_monotonic_time] from the number
    of times it was read. *)
Class PseudoTcpEnv := {
  WritePacket : list event -> list byte -> PseudoTcpWriteResult;
  get_monotonic_time : nat -> Z
}.

Record PseudoTcpSocket := {
  callbacks : PseudoTcpCallbacks;
  shutdown : Shutdown;
  shutdown_reads : bool;
  error : Z;
  (* TCB data *)
  state : PseudoTcpState;
  conv : Z;
  bReadEnable : bool; bWriteEnable : bool; bOutgoing : bool;
  last_traffic : Z;
  (* Incoming data *)
  rlist : list RSegment;
  rbuf_len : Z; rcv_nxt : Z; rcv_wnd : Z; lastrecv : Z;
  rwnd_scale : Z;
  rbuf : PseudoTcpFifo;
  rcv_fin : Z;
  (* Outgoing data *)
  slist : list nat;
  unsent_slist : list nat;
  sbuf_len : Z; snd_nxt : Z; snd_wnd : Z; lastsend : Z;
  snd_una : Z;
  swnd_scale : Z;
  sbuf : PseudoTcpFifo;
  (* Maximum segment size, estimated protocol level, largest segment sent *)
  mss : Z; msslevel : Z; largest : Z; mtu_advise : Z;
  (* Retransmit timer *)
  rto_base : Z;
  (* Timestamp tracking *)
  ts_recent : Z; ts_lastack : Z;
  (* Round-trip calculation *)
  rx_rttvar : Z; rx_srtt : Z; rx_rto : Z;
  (* Congestion avoidance, fast retransmit/recovery, delayed ACKs *)
  ssthresh : Z; cwnd : Z; dup_acks : Z; recover : Z; fast_recovery : bool;
  t_ack : Z; last_acked_ts : Z;
  use_nagling : bool; ack_delay : Z;
  support_wnd_scale : bool;
  current_time : Z;
  support_fin_ack : bool;
  (* the heap of SSegment objects, the clock, the trace *)
  segs : gmap nat SSegment; next_seg : nat;
  ticks : nat;
  trace : list event
}.

(** ** Shifts, as a compiler with two's-complement shifts executes them *)

Definition shr32 (a k : Z) : Res Z := if k <? 32 then Ok (Z.shiftr a k) else Fault BadShift.
Definition shl32 (a k : Z) : Res Z := if k <? 32 then Ok (u32 (Z.shiftl a k)) else Fault BadShift.
Definition udiv (a b : Z) : Res Z := if b =? 0 then Fault DivByZero else Ok (a / b).

(** ** Lists and queues (gqueue.c, glist.c) *)

(** [g_queue_insert_after(q, g_queue_find(q, sibling), x)]: a sibling that is not
    found puts [x] at the head. *)
Fixpoint insert_after_link (l : list nat) (sibling x : nat) : option (list nat) :=
  match l with
  | [] => None
  | y :: l => if (y =? sibling)%nat then Some (y :: x :: l)
              else cons y <$> insert_after_link l sibling x
  end.
Definition insert_after (l : list nat) (sibling x : nat) : list nat :=
  default (x :: l) (insert_after_link l sibling x).

Definition get_seg (self : PseudoTcpSocket) (id : nat) : Res SSegment :=
  match segs self !! id with Some sseg => Ok sseg | None => Fault UseAfterFree end.

Definition set_seg (id : nat) (sseg : SSegment) (self : PseudoTcpSocket) : PseudoTcpSocket :=
  { self with segs ::= insert id sseg }.

Definition new_seg (sseg : SSegment) (self : PseudoTcpSocket) : nat * PseudoTcpSocket :=
  (next_seg self, { self with segs ::= insert (next_seg self) sseg; next_seg ::= S }).

Definition free_seg (id : nat) (self : PseudoTcpSocket) : PseudoTcpSocket :=
  { self with segs ::= delete id }.

Definition emit (e : event) (self : PseudoTcpSocket) : PseudoTcpSocket :=
  { self with trace ::= cons e }.

(** ** States *)

Definition pseudo_tcp_state_get_name (st : PseudoTcpState) : string :=
  match st with
  | TCP_LISTEN => "LISTEN"
  | TCP_SYN_SENT => "SYN-SENT"
  | TCP_SYN_RECEIVED => "SYN-RECEIVED"
  | TCP_ESTABLISHED => "ESTABLISHED"
  | TCP_CLOSED => "CLOSED"
  | TCP_FIN_WAIT_1 => "FIN-WAIT-1"
  | TCP_FIN_WAIT_2 => "FIN-WAIT-2"
  | TCP_CLOSING => "CLOSING"
  | TCP_TIME_WAIT => "TIME-WAIT"
  | TCP_CLOSE_WAIT => "CLOSE-WAIT"
  | TCP_LAST_ACK => "LAST-ACK"
  end.

Definition pseudo_tcp_state_has_sent_fin (st : PseudoTcpState) : bool :=
  match st with
  | TCP_LISTEN | TCP_SYN_SENT | TCP_SYN_RECEIVED | TCP_ESTABLISHED | TCP_CLOSE_WAIT => false
  | TCP_CLOSED | TCP_FIN_WAIT_1 | TCP_FIN_WAIT_2 | TCP_CLOSING | TCP_TIME_WAIT
  | TCP_LAST_ACK => true
  end.

Definition pseudo_tcp_state_has_received_fin (st : PseudoTcpState) : bool :=
  match st with
  | TCP_LISTEN | TCP_SYN_SENT | TCP_SYN_RECEIVED | TCP_ESTABLISHED | TCP_FIN_WAIT_1
  | TCP_FIN_WAIT_2 => false
  | TCP_CLOSED | TCP_CLOSING | TCP_TIME_WAIT | TCP_CLOSE_WAIT | TCP_LAST_ACK => true
  end.

Definition pseudo_tcp_state_has_received_fin_ack (st : PseudoTcpState) : bool :=
  match st with
  | TCP_LISTEN | TCP_SYN_SENT | TCP_SYN_RECEIVED | TCP_ESTABLISHED | TCP_FIN_WAIT_1
  | TCP_FIN_WAIT_2 | TCP_CLOSING | TCP_CLOSE_WAIT | TCP_LAST_ACK => false
  | TCP_CLOSED | TCP_TIME_WAIT => true
  end.

(** The transitions the assertion of [set_state] accepts. *)
Definition valid_transition (old_state new_state : PseudoTcpState) : bool :=
  match old_state, new_state with
  | TCP_CLOSED, TCP_SYN_SENT | TCP_SYN_SENT, TCP_CLOSED | TCP_CLOSED, TCP_LISTEN
  | TCP_LISTEN, TCP_CLOSED | TCP_LISTEN, TCP_SYN_SENT | TCP_LISTEN, TCP_SYN_RECEIVED
  | TCP_SYN_SENT, TCP_SYN_RECEIVED | TCP_SYN_RECEIVED, TCP_ESTABLISHED
  | TCP_SYN_SENT, TCP_ESTABLISHED | TCP_SYN_RECEIVED, TCP_FIN_WAIT_1
  | TCP_ESTABLISHED, TCP_FIN_WAIT_1 | TCP_ESTABLISHED, TCP_CLOSE_WAIT
  | TCP_FIN_WAIT_1, TCP_FIN_WAIT_2 | TCP_FIN_WAIT_1, TCP_CLOSING
  | TCP_CLOSE_WAIT, TCP_LAST_ACK | TCP_FIN_WAIT_2, TCP_TIME_WAIT
  | TCP_CLOSING, TCP_TIME_WAIT | TCP_LAST_ACK, TCP_CLOSED | TCP_TIME_WAIT, TCP_CLOSED
  | TCP_SYN_RECEIVED, TCP_LISTEN | TCP_FIN_WAIT_1, TCP_TIME_WAIT => true
  | _, _ => false
  end.

Definition set_state (self : PseudoTcpSocket) (new_state : PseudoTcpState) : Res PseudoTcpSocket :=
  if bool_decide (new_state = state self) then Ok self
  else
    c_assert (valid_transition (state self) new_state);;
    Ok { self with state := new_state }.

Definition set_state_closed (self : PseudoTcpSocket) (err : Z) : Res PseudoTcpSocket :=
  self ← set_state self TCP_CLOSED;
  Ok (if PseudoTcpClosed (callbacks self) && negb (err =? 0) then emit (EvClosed err) self else self).

(** [for (level = 0; MAX[level + 1] > 0; ++level) if (MAX[level] <= mtu) break] *)
Fixpoint mss_level (fuel : nat) (level mtu : Z) : Res Z :=
  match fuel with
  | O => Fault Diverges
  | S fuel =>
      next ← deref (PACKET_MAXIMUMS !! Z.to_nat (level + 1));
      if next >? 0 then
        cur ← deref (PACKET_MAXIMUMS !! Z.to_nat level);
        if u16 cur <=? mtu then Ok level else mss_level fuel (level + 1) mtu
      else Ok level
  end.

Definition adjustMTU (self : PseudoTcpSocket) : Res PseudoTcpSocket :=
  level ← mss_level 11 0 (mtu_advise self);
  let m := u32 (mtu_advise self - PACKET_OVERHEAD) in
  Ok { self with
    msslevel := level;
    mss := m;
    ssthresh := Z.max (ssthresh self) (u32 (2 * m));
    cwnd := Z.max (cwnd self) m }.

Definition set_state_established (self : PseudoTcpSocket) : Res PseudoTcpSocket :=
  self ← set_state self TCP_ESTABLISHED;
  self ← adjustMTU self;
  Ok (if PseudoTcpOpened (callbacks self) then emit EvOpened self else self).

Section Engine.
Context `{!PseudoTcpEnv, !Malloc}.

(** ** Creation, buffers and properties *)

Definition get_current_time (self : PseudoTcpSocket) : Z * PseudoTcpSocket :=
  if negb (current_time self =? 0) then (current_time self, self)
  else (u32 (get_monotonic_time (ticks self) / 1000), { self with ticks ::= S }).

Definition pseudo_tcp_socket_set_time (self : PseudoTcpSocket) (t : Z) : PseudoTcpSocket :=
  { self with current_time := t }.

(** [pseudo_tcp_socket_new] and [pseudo_tcp_socket_init], on zeroed memory. *)
Definition pseudo_tcp_socket_new (conversation : Z) (cbs : PseudoTcpCallbacks) : PseudoTcpSocket :=
  let m := MIN_PACKET - PACKET_OVERHEAD in
  {| callbacks := cbs; shutdown := SD_NONE; shutdown_reads := false; error := 0;
     state := TCP_LISTEN; conv := conversation;
     bReadEnable := true; bWriteEnable := false; bOutgoing := false; last_traffic := 0;
     rlist := []; rbuf_len := DEFAULT_RCV_BUF_SIZE; rcv_nxt := 0;
     rcv_wnd := DEFAULT_RCV_BUF_SIZE; lastrecv := 0; rwnd_scale := 0;
     rbuf := pseudo_tcp_fifo_init DEFAULT_RCV_BUF_SIZE; rcv_fin := 0;
     slist := []; unsent_slist := []; sbuf_len := DEFAULT_SND_BUF_SIZE;
     snd_nxt := 0; snd_wnd := 1; lastsend := 0; snd_una := 0; swnd_scale := 0;
     sbuf := pseudo_tcp_fifo_init DEFAULT_SND_BUF_SIZE;
     mss := m; msslevel := 0; largest := 0; mtu_advise := DEF_MTU; rto_base := 0;
     ts_recent := 0; ts_lastack := 0; rx_rttvar := 0; rx_srtt := 0; rx_rto := DEF_RTO;
     ssthresh := DEFAULT_RCV_BUF_SIZE; cwnd := 2 * m; dup_acks := 0; recover := 0;
     fast_recovery := false; t_ack := 0; last_acked_ts := 0;
     use_nagling := true; ack_delay := DEFAULT_ACK_DELAY; support_wnd_scale := true;
     current_time := 0; support_fin_ack := true;
     segs := ∅; next_seg := 0; ticks := 0; trace := [] |}.

Fixpoint free_segs (ids : list nat) (self : PseudoTcpSocket) : PseudoTcpSocket :=
  match ids with
  | [] => self
  | id :: ids => free_segs ids (free_seg id self)
  end.

Definition pseudo_tcp_socket_finalize (self : PseudoTcpSocket) : PseudoTcpSocket :=
  let self := free_segs (slist self) self in
  { self with slist := []; unsent_slist := []; rlist := [];
    rbuf ::= pseudo_tcp_fifo_clear; sbuf ::= pseudo_tcp_fifo_clear }.

Definition resize_send_buffer (self : PseudoTcpSocket) (new_size : Z) : Res PseudoTcpSocket :=
  '(_, fifo) ← pseudo_tcp_fifo_set_capacity (sbuf self) new_size;
  Ok { self with sbuf_len := new_size; sbuf := fifo }.

(** [while (new_size > 0xFFFF) { ++scale_factor; new_size >>= 1; }] *)
Fixpoint scale_loop (fuel : nat) (new_size scale_factor : Z) : Res (Z * Z) :=
  if new_size >? 0xFFFF then
    match fuel with
    | O => Fault Diverges
    | S fuel => scale_loop fuel (Z.shiftr new_size 1) (u8 (scale_factor + 1))
    end
  else Ok (new_size, scale_factor).

Definition pseudo_tcp_socket_get_available_bytes (self : PseudoTcpSocket) : Z :=
  pseudo_tcp_fifo_get_buffered (rbuf self).

Definition resize_receive_buffer (self : PseudoTcpSocket) (new_size : Z) : Res PseudoTcpSocket :=
  if rbuf_len self =? new_size then Ok self
  else
    '(new_size, scale_factor) ← scale_loop 32 new_size 0;
    new_size ← shl32 new_size scale_factor;
    '(result, fifo) ← pseudo_tcp_fifo_set_capacity (rbuf self) new_size;
    c_assert result;;
    Ok { self with
      rbuf := fifo; rbuf_len := new_size; rwnd_scale := scale_factor; ssthresh := new_size;
      rcv_wnd := u32 (pseudo_tcp_fifo_get_write_remaining fifo) }.

Inductive property :=
| PROP_CONVERSATION (v : Z)
| PROP_CALLBACKS (v : PseudoTcpCallbacks)
| PROP_STATE (v : PseudoTcpState)
| PROP_ACK_DELAY (v : Z)
| PROP_NO_DELAY (v : bool)
| PROP_RCV_BUF (v : Z)
| PROP_SND_BUF (v : Z)
| PROP_SUPPORT_FIN_ACK (v : bool).

(** The value stored through [value] for the property of the same name; the
    argument's value is not looked at. *)
Definition pseudo_tcp_socket_get_property (self : PseudoTcpSocket) (id : property) : property :=
  match id with
  | PROP_CONVERSATION _ => PROP_CONVERSATION (conv self)
  | PROP_CALLBACKS _ => PROP_CALLBACKS (callbacks self)
  | PROP_STATE _ => PROP_STATE (state self)
  | PROP_ACK_DELAY _ => PROP_ACK_DELAY (ack_delay self)
  | PROP_NO_DELAY _ => PROP_NO_DELAY (use_nagling self)
  | PROP_RCV_BUF _ => PROP_RCV_BUF (rbuf_len self)
  | PROP_SND_BUF _ => PROP_SND_BUF (sbuf_len self)
  | PROP_SUPPORT_FIN_ACK _ => PROP_SUPPORT_FIN_ACK (support_fin_ack self)
  end.

Definition pseudo_tcp_socket_set_property (self : PseudoTcpSocket) (value : property) :
    Res PseudoTcpSocket :=
  match value with
  | PROP_CONVERSATION v => Ok { self with conv := v }
  | PROP_CALLBACKS v => Ok { self with callbacks := v }
  | PROP_STATE _ => Ok self
  | PROP_ACK_DELAY v => Ok { self with ack_delay := v }
  | PROP_NO_DELAY v => Ok { self with use_nagling := negb v }
  | PROP_RCV_BUF v =>
      if bool_decide (state self = TCP_LISTEN) then resize_receive_buffer self v else Ok self
  | PROP_SND_BUF v =>
      if bool_decide (state self = TCP_LISTEN) then resize_send_buffer self v else Ok self
  | PROP_SUPPORT_FIN_ACK v => Ok { self with support_fin_ack := v }
  end.

(** ** Queueing *)

(** Appending to the last segment needs it to be of the same kind and unsent. *)
Definition tail_appendable (self : PseudoTcpSocket) (flags : Z) : Res (option (nat * SSegment)) :=
  match last (slist self) with
  | None => Ok None
  | Some id =>
      sseg ← get_seg self id;
      Ok (if (sseg_flags sseg =? flags) && (sseg_xmit sseg =? 0) then Some (id, sseg) else None)
  end.

Definition queue (self : PseudoTcpSocket) (data : list byte) (flags : Z) :
    Res (Z * PseudoTcpSocket) :=
  let available_space := pseudo_tcp_fifo_get_write_remaining (sbuf self) in
  let len := Z.of_nat (length data) in
  len ← (if len >? available_space
         then c_assert (flags =? FLAG_NONE);; Ok (u32 available_space)
         else Ok len);
  tl ← tail_appendable self flags;
  let self :=
    match tl with
    | Some (id, sseg) => set_seg id { sseg with sseg_len := u32 (sseg_len sseg + len) } self
    | None =>
        let snd_buffered := pseudo_tcp_fifo_get_buffered (sbuf self) in
        let '(id, self) := new_seg {| sseg_seq := u32 (snd_una self + snd_buffered);
          sseg_len := len; sseg_xmit := 0; sseg_flags := flags |} self in
        { self with slist ::= (fun l => l ++ [id]); unsent_slist ::= (fun l => l ++ [id]) }
    end in
  '(written, fifo) ← pseudo_tcp_fifo_write (sbuf self) (take (Z.to_nat len) data);
  Ok (u32 written, { self with sbuf := fifo }).

Definition connect_message (self : PseudoTcpSocket) : list byte :=
  byte.of_Z <$>
    [CTL_CONNECT] ++
    (if support_wnd_scale self then [TCP_OPT_WND_SCALE; 1; rwnd_scale self] else []) ++
    (if support_fin_ack self then [TCP_OPT_FIN_ACK; 1; 0] else []).

Definition queue_connect_message (self : PseudoTcpSocket) : Res PseudoTcpSocket :=
  let buf := connect_message self in
  '(_, self) ← queue { self with snd_wnd := Z.of_nat (length buf) } buf FLAG_CTL;
  Ok self.

Definition queue_fin_message (self : PseudoTcpSocket) : Res PseudoTcpSocket :=
  c_assert (support_fin_ack self);;
  '(_, self) ← queue self [] FLAG_FIN;
  Ok self.

Definition queue_rst_message (self : PseudoTcpSocket) : Res PseudoTcpSocket :=
  c_assert (support_fin_ack self);;
  '(_, self) ← queue self [] FLAG_RST;
  Ok self.

(** ** Packets *)

Definition packet_header (self : PseudoTcpSocket) (seq flags now wnd : Z) : list byte :=
  be_bytes 4 (conv self) ++ be_bytes 4 seq ++ be_bytes 4 (rcv_nxt self) ++
  be_bytes 1 0 ++ be_bytes 1 flags ++ be_bytes 2 wnd ++
  be_bytes 4 now ++ be_bytes 4 (ts_recent self).

Definition packet (self : PseudoTcpSocket) (seq flags offset len now : Z) :
    Res (PseudoTcpWriteResult * PseudoTcpSocket) :=
  c_assert (u32 (HEADER_SIZE + len) <=? MAX_PACKET);;
  wnd ← shr32 (rcv_wnd self) (rwnd_scale self);
  let header := packet_header self seq flags now (u16 wnd) in
  let self := { self with ts_lastack := rcv_nxt self } in
  payload ← (if negb (len =? 0)
             then bs ← pseudo_tcp_fifo_read_offset (sbuf self) len offset;
                  c_assert (Z.of_nat (length bs) =? len);; Ok bs
             else Ok []);
  let wres := WritePacket (trace self) (header ++ payload) in
  let self := emit (EvPacket (header ++ payload) wres) self in
  if negb (bool_decide (wres = WR_SUCCESS)) && negb (len =? 0) then Ok (wres, self)
  else
    let self := { self with t_ack := 0 } in
    let self := if len >? 0 then { self with lastsend := now } else self in
    Ok (WR_SUCCESS, { self with last_traffic := now; bOutgoing := true }).

(** ** Transmission *)

(** The inner loop of [transmit]: step down the table until the segment size
    shrinks; [None] is the table's end. *)
Fixpoint lower_mss (fuel : nat) (self : PseudoTcpSocket) (nTransmit : Z) :
    Res (option Z * PseudoTcpSocket) :=
  match fuel with
  | O => Fault Diverges
  | S fuel =>
      next ← deref (PACKET_MAXIMUMS !! Z.to_nat (msslevel self + 1));
      if next =? 0 then Ok (None, self)
      else
        let m := u32 (next - PACKET_OVERHEAD) in
        let self := { self with msslevel := msslevel self + 1; mss := m; cwnd := u32 (2 * m) } in
        if m <? nTransmit then Ok (Some m, self) else lower_mss fuel self nTransmit
  end.

(** The outer loop: write the segment's first bytes, fewer while the network
    finds the packet too large. *)
Fixpoint write_segment (fuel : nat) (self : PseudoTcpSocket) (id : nat) (nTransmit now : Z) :
    Res (Z * Z * PseudoTcpSocket) :=
  match fuel with
  | O => Fault Diverges
  | S fuel =>
      segment ← get_seg self id;
      c_assert (u32 (sseg_seq segment - snd_una self) <=? 1024 * 1024 * 64);;
      '(wres, self) ← packet self (sseg_seq segment) (u8 (sseg_flags segment))
          (u32 (sseg_seq segment - snd_una self)) nTransmit now;
      match wres with
      | WR_SUCCESS => Ok (0, nTransmit, self)
      | WR_FAIL => Ok (ECONNABORTED, nTransmit, self)
      | WR_TOO_LARGE =>
          '(m, self) ← lower_mss 11 self nTransmit;
          match m with
          | None => Ok (EMSGSIZE, nTransmit, self)
          | Some m => write_segment fuel self id m now
          end
      end
  end.

(** Cut a segment after its first [n] bytes; the rest follows it in the queue of
    unsent segments too when [unsent] says so. *)
Definition split_segment (self : PseudoTcpSocket) (id : nat) (segment : SSegment) (n xmit : Z)
    (unsent : bool) : PseudoTcpSocket :=
  let '(sub, self) := new_seg {| sseg_seq := u32 (sseg_seq segment + n);
    sseg_len := u32 (sseg_len segment - n); sseg_flags := sseg_flags segment;
    sseg_xmit := xmit |} self in
  let self := set_seg id { segment with sseg_len := n } self in
  let self := { self with slist ::= (fun l => insert_after l id sub) } in
  if unsent then { self with unsent_slist ::= (fun l => insert_after l id sub) } else self.

Definition transmit (self : PseudoTcpSocket) (id : nat) (now : Z) : Res (Z * PseudoTcpSocket) :=
  segment ← get_seg self id;
  let nTransmit := Z.min (sseg_len segment) (mss self) in
  if sseg_xmit segment >=? (if bool_decide (state self = TCP_ESTABLISHED) then 15 else 30)
  then Ok (ETIMEDOUT, self)
  else
    '(status, nTransmit, self) ← write_segment 11 self id nTransmit now;
    if negb (status =? 0) then Ok (status, self)
    else
      segment ← get_seg self id;
      let self :=
        if nTransmit <? sseg_len segment
        then split_segment self id segment nTransmit (sseg_xmit segment) (sseg_xmit segment =? 0)
        else self in
      segment ← get_seg self id;
      self ← (if sseg_xmit segment =? 0 then
                c_assert (bool_decide (head (unsent_slist self) = Some id));;
                let self := { self with unsent_slist ::= tail;
                                        snd_nxt := u32 (snd_nxt self + sseg_len segment) } in
                Ok (if (sseg_len segment =? 0) && negb (Z.land (sseg_flags segment) FLAG_FIN =? 0)
                    then { self with snd_nxt := u32 (snd_nxt self + 1) } else self)
              else Ok self);
      let self := set_seg id { segment with sseg_xmit := u8 (sseg_xmit segment + 1) } self in
      Ok (0, if rto_base self =? 0 then { self with rto_base := now } else self).

(** ** Closing *)

(** The part of [closedown] after the reset: walk to CLOSED over valid
    transitions.  It is all that [closedown] does for [CLOSEDOWN_REMOTE]. *)
Definition closedown_states (self : PseudoTcpSocket) (err : Z) : Res PseudoTcpSocket :=
  self ← match state self with
         | TCP_LISTEN | TCP_SYN_SENT => Ok self
         | TCP_SYN_RECEIVED | TCP_ESTABLISHED =>
             self ← set_state self TCP_FIN_WAIT_1;
             self ← set_state self TCP_FIN_WAIT_2;
             set_state self TCP_TIME_WAIT
         | TCP_FIN_WAIT_1 =>
             self ← set_state self TCP_FIN_WAIT_2;
             set_state self TCP_TIME_WAIT
         | TCP_FIN_WAIT_2 | TCP_CLOSING => set_state self TCP_TIME_WAIT
         | TCP_CLOSE_WAIT => set_state self TCP_LAST_ACK
         | TCP_LAST_ACK | TCP_TIME_WAIT | TCP_CLOSED => Ok self
         end;
  set_state_closed self err.

(** ** Sending what the windows allow *)

(** [nWindow] and [nAvailable] of one round of [attempt_send]. *)
Definition send_window (self : PseudoTcpSocket) : Z :=
  let cw := if (dup_acks self =? 1) || (dup_acks self =? 2)
            then u32 (cwnd self + u32 (dup_acks self * mss self)) else cwnd self in
  Z.min (snd_wnd self) cw.

Definition send_available (self : PseudoTcpSocket) : Z :=
  let nWindow := send_window self in
  let nInFlight := u32 (snd_nxt self - snd_una self) in
  let nUseable := if nInFlight <? nWindow then nWindow - nInFlight else 0 in
  let snd_buffered := pseudo_tcp_fifo_get_buffered (sbuf self) in
  let nAvailable := if snd_buffered <? nInFlight then 0
                    else u32 (Z.min (snd_buffered - nInFlight) (mss self)) in
  if nAvailable >? nUseable
  then if u32 (nUseable * 4) <? nWindow then 0 else nUseable
  else nAvailable.

Definition is_fin_or_rst (sflags : SendFlags) : bool :=
  match sflags with sfFin | sfRst => true | _ => false end.

Fixpoint attempt_send_loop (fuel : nat) (self : PseudoTcpSocket) (sflags : SendFlags) (now : Z) :
    Res PseudoTcpSocket :=
  match fuel with
  | O => Fault Diverges
  | S fuel =>
      let nAvailable := send_available self in
      if bool_decide (sflags = sfDuplicateAck) then
        '(_, self) ← packet self (snd_nxt self) 0 0 0 now;
        attempt_send_loop fuel self sfNone now
      else if (nAvailable =? 0) && negb (is_fin_or_rst sflags) then
        if bool_decide (sflags = sfNone) then Ok self
        else if bool_decide (sflags = sfImmediateAck) || bool_decide (sflags = sfDuplicateAck)
                || negb (t_ack self =? 0)
        then '(_, self) ← packet self (snd_nxt self) 0 0 0 now; Ok self
        else Ok { self with t_ack := now }
      else if use_nagling self && negb (is_fin_or_rst sflags) && (snd_nxt self >? snd_una self)
              && (nAvailable <? mss self)
      then Ok self
      else
        match head (unsent_slist self) with
        | None => Ok self
        | Some id =>
            sseg ← get_seg self id;
            let self :=
              if (sseg_len sseg >? nAvailable) && negb (is_fin_or_rst sflags)
              then split_segment self id sseg nAvailable 0 true
              else self in
            '(status, self) ← transmit self id now;
            if negb (status =? 0) then closedown_states self status
            else attempt_send_loop fuel self
                   (if bool_decide (sflags = sfImmediateAck) || bool_decide (sflags = sfDelayedAck)
                    then sfNone else sflags) now
        end
  end.

(** Fuel: every round but the first sends bytes of, or removes, an unsent
    segment. *)
Definition unsent_size (self : PseudoTcpSocket) : Z :=
  foldr (fun id n => n + 1 + match segs self !! id with Some s => sseg_len s | None => 0 end) 0
    (unsent_slist self).

Definition attempt_send (self : PseudoTcpSocket) (sflags : SendFlags) : Res PseudoTcpSocket :=
  let '(now, self) := get_current_time self in
  let self := if time_diff now (lastsend self) >? rx_rto self
              then { self with cwnd := mss self } else self in
  attempt_send_loop (Z.to_nat (unsent_size self + 2)) self sflags now.

Definition closedown (self : PseudoTcpSocket) (err : Z) (source : ClosedownSource) :
    Res PseudoTcpSocket :=
  self ← match source with
         | CLOSEDOWN_LOCAL =>
             if support_fin_ack self
             then self ← queue_rst_message self; attempt_send self sfRst
             else Ok { self with shutdown := SD_FORCEFUL }
         | CLOSEDOWN_REMOTE => Ok self
         end;
  closedown_states self err.

(** ** Options of a connect message *)

Definition byte_at (data : list byte) (pos : Z) : Res Z :=
  match data !! Z.to_nat pos with Some b => Ok (byte.unsigned b) | None => Fault BufferOverflow end.

Definition apply_window_scale_option (self : PseudoTcpSocket) (scale_factor : Z) : PseudoTcpSocket :=
  { self with swnd_scale := scale_factor }.

Definition apply_fin_ack_option (self : PseudoTcpSocket) : PseudoTcpSocket :=
  { self with support_fin_ack := true }.

(** [data] is the option's content on. *)
Definition apply_option (self : PseudoTcpSocket) (kind : Z) (data : list byte) (len : Z) :
    Res PseudoTcpSocket :=
  if kind =? TCP_OPT_WND_SCALE then
    if negb (len =? 1) then Ok self
    else scale ← byte_at data 0; Ok (apply_window_scale_option self scale)
  else if kind =? TCP_OPT_FIN_ACK then Ok (apply_fin_ack_option self)
  else Ok self.

(** The loop of [parse_options]; the answer is whether the end of the list was
    reached (otherwise the function returns at once), and which options were. *)
Fixpoint options_loop (fuel : nat) (self : PseudoTcpSocket) (data : list byte) (len pos : Z)
    (has_wnd has_fin : bool) : Res (bool * bool * bool * PseudoTcpSocket) :=
  if negb (pos <? len) then Ok (true, has_wnd, has_fin, self)
  else
    match fuel with
    | O => Fault Diverges
    | S fuel =>
        if len <? u32 (pos + 1) then Ok (false, has_wnd, has_fin, self)
        else
          kind ← byte_at data pos;
          let pos := u32 (pos + 1) in
          if kind =? TCP_OPT_EOL then Ok (true, has_wnd, has_fin, self)
          else if kind =? TCP_OPT_NOOP then options_loop fuel self data len pos has_wnd has_fin
          else if len <? u32 (pos + 1) then Ok (false, has_wnd, has_fin, self)
          else
            opt_len ← byte_at data pos;
            let pos := u32 (pos + 1) in
            if len <? u32 (pos + opt_len) then Ok (false, has_wnd, has_fin, self)
            else if opt_len <=? u32 (len - pos) then
              self ← apply_option self kind (drop (Z.to_nat pos) data) opt_len;
              options_loop fuel self data len (u32 (pos + opt_len))
                (has_wnd || (kind =? TCP_OPT_WND_SCALE)) (has_fin || (kind =? TCP_OPT_FIN_ACK))
            else Ok (false, has_wnd, has_fin, self)
    end.

Definition parse_options (self : PseudoTcpSocket) (data : list byte) : Res PseudoTcpSocket :=
  '(complete, has_wnd, has_fin, self) ←
    options_loop (length data) self data (Z.of_nat (length data)) 0 false false;
  if negb complete then Ok self
  else
    self ← (if negb has_wnd && (rwnd_scale self >? 0)
            then self ← resize_receive_buffer self DEFAULT_RCV_BUF_SIZE;
                 Ok { self with swnd_scale := 0 }
            else Ok self);
    Ok (if negb has_fin then { self with support_fin_ack := false } else self).

(** ** Processing a segment

    [process] in the order of its text, one definition per paragraph; a paragraph
    either goes on or returns from the function. *)
Inductive flow (A : Type) :=
| Go (a : A)
| Return (r : bool) (self : PseudoTcpSocket).
Arguments Go {A} a.
Arguments Return {A} r self.

(** Control data: options of the peer and the first state transitions. *)
Definition process_control (self : PseudoTcpSocket) (seg : Segment) :
    Res (flow (bool * PseudoTcpSocket)) :=
  if Z.land (seg_flags seg) FLAG_CTL =? 0 then Ok (Go (false, self))
  else
    match seg_data seg with
    | [] => Ok (Return false self)
    | code :: options =>
        if byte.unsigned code =? CTL_CONNECT then
          self ← parse_options self options;
          self ← match state self with
                 | TCP_LISTEN =>
                     self ← set_state self TCP_SYN_RECEIVED; queue_connect_message self
                 | TCP_SYN_SENT => set_state_established self
                 | _ => Ok self
                 end;
          Ok (Go (true, self))
        else Ok (Return false self)
    end.

(** The round-trip estimate of a valuable ACK. *)
Definition update_rtt (self : PseudoTcpSocket) (rtt : Z) : PseudoTcpSocket :=
  let self :=
    if rx_srtt self =? 0
    then { self with rx_srtt := u32 rtt; rx_rttvar := u32 (rtt / 2) }
    else { self with
      rx_rttvar := u32 ((u32 (3 * rx_rttvar self) + Z.abs (rtt - rx_srtt self)) / 4);
      rx_srtt := u32 ((u32 (7 * rx_srtt self) + rtt) / 8) } in
  { self with rx_rto :=
      bound MIN_RTO (u32 (rx_srtt self + Z.max 1 (u32 (4 * rx_rttvar self)))) MAX_RTO }.

(** The segments that [nFree] acknowledged bytes release. *)
Fixpoint release_segments (l : list nat) (self : PseudoTcpSocket) (nFree : Z) :
    Res PseudoTcpSocket :=
  if nFree =? 0 then Ok self
  else
    match l with
    | [] => Fault AssertFailed
    | id :: l =>
        data ← get_seg self id;
        if nFree <? sseg_len data
        then Ok (set_seg id { data with sseg_len := sseg_len data - nFree;
                                        sseg_seq := u32 (sseg_seq data + nFree) } self)
        else
          let self := if sseg_len data >? largest self
                      then { self with largest := sseg_len data } else self in
          release_segments l { free_seg id self with slist := l } (nFree - sseg_len data)
    end.

Definition process_valuable_ack (self : PseudoTcpSocket) (seg : Segment) (now : Z) :
    Res (flow (bool * PseudoTcpSocket)) :=
  let rtt := time_diff now (seg_tsecr seg) in
  if negb (seg_tsecr seg =? 0) && (rtt <? 0) then Ok (Return false self)
  else
    let self := if negb (seg_tsecr seg =? 0)
                then { update_rtt self rtt with last_acked_ts := seg_tsecr seg } else self in
    wnd ← shl32 (seg_wnd seg) (swnd_scale self);
    let nAcked := u32 (seg_ack seg - snd_una self) in
    let self := { self with snd_wnd := wnd; snd_una := seg_ack seg;
                            rto_base := if seg_ack seg =? snd_nxt self then 0 else now } in
    let is_fin_ack := (nAcked =? data_length (sbuf self) + 1)
                      && pseudo_tcp_state_has_sent_fin (state self) in
    let nAcked := if is_fin_ack then nAcked - 1 else nAcked in
    fifo ← pseudo_tcp_fifo_consume_read_data (sbuf self) nAcked;
    self ← release_segments (slist self) { self with sbuf := fifo } nAcked;
    if dup_acks self >=? 3 then
      if LARGER_OR_EQUAL (snd_una self) (recover self) then
        let nInFlight := u32 (snd_nxt self - snd_una self) in
        Ok (Go (is_fin_ack, { self with
          cwnd := Z.min (ssthresh self) (u32 (Z.max nInFlight (mss self) + mss self));
          fast_recovery := false; dup_acks := 0 }))
      else
        id ← deref (head (slist self));
        '(status, self) ← transmit self id now;
        if negb (status =? 0)
        then self ← closedown self status CLOSEDOWN_LOCAL; Ok (Return false self)
        else Ok (Go (is_fin_ack, { self with
          cwnd := u32 (cwnd self + ((if nAcked >? mss self then mss self else 0)
                                    - Z.min nAcked (cwnd self))) }))
    else
      let self := { self with dup_acks := 0 } in
      if cwnd self <? ssthresh self
      then Ok (Go (is_fin_ack, { self with cwnd := u32 (cwnd self + mss self) }))
      else
        q ← udiv (u32 (mss self * mss self)) (cwnd self);
        Ok (Go (is_fin_ack, { self with cwnd := u32 (cwnd self + Z.max 1 q) })).

Definition process_duplicate_ack (self : PseudoTcpSocket) (seg : Segment) (now : Z) :
    Res (flow PseudoTcpSocket) :=
  wnd ← shl32 (seg_wnd seg) (swnd_scale self);
  let self := { self with snd_wnd := wnd } in
  if seg_len seg >? 0 then Ok (Go self)
  else if negb (snd_una self =? snd_nxt self) then
    let self := { self with dup_acks := u8 (dup_acks self + 1) } in
    if dup_acks self =? 3 then
      if LARGER_OR_EQUAL (snd_una self) (recover self) || (seg_tsecr seg =? last_acked_ts self)
      then
        id ← deref (head (slist self));
        '(status, self) ← transmit self id now;
        if negb (status =? 0)
        then self ← closedown self status CLOSEDOWN_LOCAL; Ok (Return false self)
        else
          let nInFlight := u32 (snd_nxt self - snd_una self) in
          let thresh := Z.max (nInFlight / 2) (u32 (2 * mss self)) in
          Ok (Go { self with recover := snd_nxt self; ssthresh := thresh;
                             cwnd := u32 (thresh + u32 (3 * mss self)); fast_recovery := true })
      else Ok (Go self)
    else if dup_acks self >? 3
    then Ok (Go (if fast_recovery self
                 then { self with cwnd := u32 (cwnd self + mss self) } else self))
    else Ok (Go self)
  else Ok (Go { self with dup_acks := 0 }).

(** The transitions on a received FIN and on the ACK of a sent FIN. *)
Definition fin_transition (self : PseudoTcpSocket) (received_fin is_fin_ack : bool) :
    Res PseudoTcpSocket :=
  match state self with
  | TCP_ESTABLISHED => if received_fin then set_state self TCP_CLOSE_WAIT else Ok self
  | TCP_CLOSING => if is_fin_ack then set_state self TCP_TIME_WAIT else Ok self
  | TCP_LAST_ACK => if is_fin_ack then set_state_closed self 0 else Ok self
  | TCP_FIN_WAIT_1 =>
      if is_fin_ack && received_fin then set_state self TCP_TIME_WAIT
      else if is_fin_ack then set_state self TCP_FIN_WAIT_2
      else if received_fin then set_state self TCP_CLOSING
      else Ok self
  | TCP_FIN_WAIT_2 => if received_fin then set_state self TCP_TIME_WAIT else Ok self
  | TCP_LISTEN | TCP_SYN_SENT | TCP_SYN_RECEIVED | TCP_TIME_WAIT | TCP_CLOSED
  | TCP_CLOSE_WAIT => Ok self
  end.

Definition process_fin (self : PseudoTcpSocket) (seg : Segment) (is_fin_ack : bool) :
    Res (flow (bool * PseudoTcpSocket)) :=
  if support_fin_ack self then
    let fin := negb (Z.land (seg_flags seg) FLAG_FIN =? 0) in
    let self := if fin then { self with rcv_fin := seg_seq seg } else self in
    if fin && negb (seg_len seg =? 0) then Ok (Return false self)
    else
      let received_fin := negb (rcv_nxt self =? 0)
                          && (u32 (rcv_nxt self + seg_len seg) =? rcv_fin self) in
      self ← fin_transition self received_fin is_fin_ack;
      Ok (Go (received_fin, self))
  else Ok (Go (false, self)).

Definition notify_writable (self : PseudoTcpSocket) : PseudoTcpSocket :=
  let kIdealRefillSize := u32 (sbuf_len self + rbuf_len self) / 2 in
  if bWriteEnable self && (pseudo_tcp_fifo_get_buffered (sbuf self) <? kIdealRefillSize)
  then
    let self := { self with bWriteEnable := false } in
    if PseudoTcpWritable (callbacks self) then emit EvWritable self else self
  else self.

Definition ack_policy (self : PseudoTcpSocket) (seg : Segment) (received_fin : bool) : SendFlags :=
  if negb (seg_seq seg =? rcv_nxt self) then sfDuplicateAck
  else if negb (seg_len seg =? 0) then
    if ack_delay self =? 0 then sfImmediateAck else sfDelayedAck
  else if received_fin then sfImmediateAck
  else sfNone.

(** Cut off what was received before, then what does not fit the buffer. *)
Definition trim_front (self : PseudoTcpSocket) (seg : Segment) : Segment :=
  if SMALLER (seg_seq seg) (rcv_nxt self) then
    let nAdjust := u32 (rcv_nxt self - seg_seq seg) in
    if nAdjust <? seg_len seg
    then { seg with seg_seq := u32 (seg_seq seg + nAdjust); seg_data ::= drop (Z.to_nat nAdjust) }
    else { seg with seg_data := [] }
  else seg.

Definition trim_back (self : PseudoTcpSocket) (seg : Segment) : Segment :=
  let available_space := pseudo_tcp_fifo_get_write_remaining (rbuf self) in
  if u32 (seg_seq seg + seg_len seg - rcv_nxt self) >? available_space then
    let nAdjust := u32 (u32 (seg_seq seg + seg_len seg - rcv_nxt self) - available_space) in
    if nAdjust <? seg_len seg
    then { seg with seg_data ::= take (Z.to_nat (seg_len seg - nAdjust)) }
    else { seg with seg_data := [] }
  else seg.

(** Out-of-order segments that the new data reaches. *)
Fixpoint recover_segments (l : list RSegment) (self : PseudoTcpSocket) (sflags : SendFlags) :
    Res (SendFlags * PseudoTcpSocket) :=
  match l with
  | [] => Ok (sflags, { self with rlist := [] })
  | data :: rest =>
      if SMALLER_OR_EQUAL (rseg_seq data) (rcv_nxt self) then
        '(sflags, self) ←
          (if LARGER (u32 (rseg_seq data + rseg_len data)) (rcv_nxt self) then
             let nAdjust := u32 (u32 (rseg_seq data + rseg_len data) - rcv_nxt self) in
             fifo ← pseudo_tcp_fifo_consume_write_buffer (rbuf self) nAdjust;
             Ok (sfImmediateAck, { self with rbuf := fifo;
                                     rcv_nxt := u32 (rcv_nxt self + nAdjust);
                                     rcv_wnd := u32 (rcv_wnd self - nAdjust) })
           else Ok (sflags, self));
        recover_segments rest self sflags
      else Ok (sflags, { self with rlist := l })
  end.

Fixpoint insert_rsegment (l : list RSegment) (rseg : RSegment) : list RSegment :=
  match l with
  | [] => [rseg]
  | x :: l' => if SMALLER (rseg_seq x) (rseg_seq rseg) then x :: insert_rsegment l' rseg
               else rseg :: l
  end.

(** The data of the trimmed segment into the receive buffer; the boolean is
    [bNewData]. *)
Definition process_data (self : PseudoTcpSocket) (seg : Segment) (sflags : SendFlags) :
    Res (bool * SendFlags * PseudoTcpSocket) :=
  let bIgnoreData := negb (Z.land (seg_flags seg) FLAG_CTL =? 0)
    || (negb (support_fin_ack self) && negb (bool_decide (shutdown self = SD_NONE))) in
  if seg_len seg >? 0 then
    if bIgnoreData then
      Ok (false, sflags, if seg_seq seg =? rcv_nxt self
                         then { self with rcv_nxt := u32 (rcv_nxt self + seg_len seg) } else self)
    else
      let nOffset := u32 (seg_seq seg - rcv_nxt self) in
      '(res, fifo) ← pseudo_tcp_fifo_write_offset (rbuf self) (seg_data seg) nOffset;
      c_assert (res =? seg_len seg);;
      if seg_seq seg =? rcv_nxt self then
        fifo ← pseudo_tcp_fifo_consume_write_buffer fifo (seg_len seg);
        let self := { self with rbuf := fifo;
                                rcv_nxt := u32 (rcv_nxt self + seg_len seg);
                                rcv_wnd := u32 (rcv_wnd self - seg_len seg) } in
        '(sflags, self) ← recover_segments (rlist self) self sflags;
        Ok (true, sflags, self)
      else
        Ok (false, sflags, { self with rbuf := fifo;
          rlist ::= (fun l => insert_rsegment l
                       {| rseg_seq := seg_seq seg; rseg_len := seg_len seg |}) })
  else Ok (false, sflags, self).

(** From the FIN paragraph to the end. *)
Definition process_tail (self : PseudoTcpSocket) (seg : Segment) (is_fin_ack : bool) :
    Res (bool * PseudoTcpSocket) :=
  fl ← process_fin self seg is_fin_ack;
  match fl with
  | Return r self => Ok (r, self)
  | Go (received_fin, self) =>
      let self := notify_writable self in
      let sflags := ack_policy self seg received_fin in
      let seg := trim_back self (trim_front self seg) in
      '(bNewData, sflags, self) ← process_data self seg sflags;
      let self := if received_fin then { self with rcv_nxt := u32 (rcv_nxt self + 1) } else self in
      self ← attempt_send self sflags;
      Ok (true, if bNewData && bReadEnable self && PseudoTcpReadable (callbacks self)
                then emit EvReadable self else self)
  end.

Definition process (self : PseudoTcpSocket) (seg : Segment) : Res (bool * PseudoTcpSocket) :=
  if negb (seg_conv seg =? conv self) then Ok (false, self)
  else
    let '(now, self) := get_current_time self in
    let self := { self with last_traffic := now; lastrecv := now; bOutgoing := false } in
    let rst := negb (Z.land (seg_flags seg) FLAG_RST =? 0) in
    if bool_decide (state self = TCP_CLOSED)
       || (pseudo_tcp_state_has_received_fin_ack (state self) && (seg_len seg >? 0))
    then self ← (if rst then Ok self else closedown self 0 CLOSEDOWN_LOCAL); Ok (false, self)
    else if rst then self ← closedown self ECONNRESET CLOSEDOWN_REMOTE; Ok (false, self)
    else
      fl ← process_control self seg;
      match fl with
      | Return r self => Ok (r, self)
      | Go (bConnect, self) =>
          let self :=
            if SMALLER_OR_EQUAL (seg_seq seg) (ts_lastack self)
               && SMALLER (ts_lastack self) (u32 (seg_seq seg + seg_len seg))
            then { self with ts_recent := seg_tsval seg } else self in
          let is_valuable_ack := LARGER (seg_ack seg) (snd_una self)
                                 && SMALLER_OR_EQUAL (seg_ack seg) (snd_nxt self) in
          fl ← (if is_valuable_ack then process_valuable_ack self seg now
                else if seg_ack seg =? snd_una self then
                  fl ← process_duplicate_ack self seg now;
                  Ok (match fl with Go self => Go (false, self) | Return r self => Return r self end)
                else Ok (Go (false, self)));
          match fl with
          | Return r self => Ok (r, self)
          | Go (is_fin_ack, self) =>
              self ← (if bool_decide (state self = TCP_SYN_RECEIVED) && negb bConnect
                      then set_state_established self else Ok self);
              process_tail self seg is_fin_ack
          end
      end.

(** ** Packets from the network *)

Definition parse_header (header data : list byte) : Segment :=
  let field off n := be_read (take n (drop off header)) in
  {| seg_conv := field 0%nat 4%nat; seg_seq := field 4%nat 4%nat; seg_ack := field 8%nat 4%nat;
     seg_flags := field 13%nat 1%nat; seg_wnd := field 14%nat 2%nat;
     seg_tsval := field 16%nat 4%nat; seg_tsecr := field 20%nat 4%nat; seg_data := data |}.

Definition parse (self : PseudoTcpSocket) (header data : list byte) : Res (bool * PseudoTcpSocket) :=
  if negb (Z.of_nat (length header) =? 24) then Ok (false, self)
  else process self (parse_header header data).

Definition pseudo_tcp_socket_notify_packet (self : PseudoTcpSocket) (buffer : list byte) :
    Res (bool * PseudoTcpSocket) :=
  let len := Z.of_nat (length buffer) in
  if len >? MAX_PACKET then Ok (false, { self with error := EMSGSIZE })
  else if len <? HEADER_SIZE then Ok (false, { self with error := EINVAL })
  else parse self (take (Z.to_nat HEADER_SIZE) buffer) (drop (Z.to_nat HEADER_SIZE) buffer).

(** ** Calls of the application *)

Definition pseudo_tcp_socket_connect (self : PseudoTcpSocket) : Res (bool * PseudoTcpSocket) :=
  if negb (bool_decide (state self = TCP_LISTEN)) then Ok (false, { self with error := EINVAL })
  else
    self ← set_state self TCP_SYN_SENT;
    self ← queue_connect_message self;
    self ← attempt_send self sfNone;
    Ok (true, self).

Definition pseudo_tcp_socket_notify_mtu (self : PseudoTcpSocket) (mtu : Z) : Res PseudoTcpSocket :=
  let self := { self with mtu_advise := mtu } in
  if bool_decide (state self = TCP_ESTABLISHED) then adjustMTU self else Ok self.

(** The bytes received; their number (or -1) is the result. *)
Definition pseudo_tcp_socket_recv (self : PseudoTcpSocket) (len : Z) :
    Res (Z * list byte * PseudoTcpSocket) :=
  if support_fin_ack self && shutdown_reads self then Ok (0, [], self)
  else if negb (support_fin_ack self) && bool_decide (state self = TCP_CLOSED) then Ok (0, [], self)
  else if negb (support_fin_ack self) && negb (bool_decide (state self = TCP_ESTABLISHED))
  then Ok (-1, [], { self with error := ENOTCONN })
  else if len =? 0 then Ok (0, [], self)
  else
    '(data, fifo) ← pseudo_tcp_fifo_read (rbuf self) len;
    let self := { self with rbuf := fifo } in
    if (Z.of_nat (length data) =? 0)
       && negb (pseudo_tcp_state_has_received_fin (state self)
                || pseudo_tcp_state_has_received_fin_ack (state self))
    then Ok (-1, [], { self with bReadEnable := true; error := EWOULDBLOCK })
    else
      let available_space := pseudo_tcp_fifo_get_write_remaining (rbuf self) in
      self ← (if u64 (available_space - rcv_wnd self) >=? Z.min (rbuf_len self / 2) (mss self)
              then
                let bWasClosed := rcv_wnd self =? 0 in
                let self := { self with rcv_wnd := u32 available_space } in
                if bWasClosed then attempt_send self sfImmediateAck else Ok self
              else Ok self);
      Ok (i32 (Z.of_nat (length data)), data, self).

Definition pseudo_tcp_socket_send (self : PseudoTcpSocket) (data : list byte) :
    Res (Z * PseudoTcpSocket) :=
  if negb (bool_decide (state self = TCP_ESTABLISHED)) then
    Ok (-1, { self with error :=
      if pseudo_tcp_state_has_sent_fin (state self) then EPIPE else ENOTCONN })
  else if pseudo_tcp_fifo_get_write_remaining (sbuf self) =? 0 then
    Ok (-1, { self with bWriteEnable := true; error := EWOULDBLOCK })
  else
    '(written, self) ← queue self data FLAG_NONE;
    let written := i32 written in
    self ← attempt_send self sfNone;
    Ok (written, if (written >? 0) && (u32 written <? Z.of_nat (length data))
                 then { self with bWriteEnable := true } else self).

Definition pseudo_tcp_socket_shutdown (self : PseudoTcpSocket) (how : PseudoTcpShutdown) :
    Res PseudoTcpSocket :=
  if negb (support_fin_ack self) then
    Ok (if bool_decide (shutdown self = SD_NONE) then { self with shutdown := SD_GRACEFUL } else self)
  else
    let self := match how with
                | PSEUDO_TCP_SHUTDOWN_RD | PSEUDO_TCP_SHUTDOWN_RDWR =>
                    { self with shutdown_reads := true }
                | PSEUDO_TCP_SHUTDOWN_WR => self
                end in
    match how with
    | PSEUDO_TCP_SHUTDOWN_RD => Ok self
    | _ =>
        match state self with
        | TCP_LISTEN | TCP_SYN_SENT => set_state_closed self 0
        | TCP_SYN_RECEIVED | TCP_ESTABLISHED =>
            if pseudo_tcp_socket_get_available_bytes self >? 0
            then closedown self ECONNABORTED CLOSEDOWN_LOCAL
            else
              self ← queue_fin_message self;
              self ← attempt_send self sfFin;
              set_state self TCP_FIN_WAIT_1
        | TCP_CLOSE_WAIT =>
            self ← queue_fin_message self;
            self ← attempt_send self sfFin;
            set_state self TCP_LAST_ACK
        | TCP_CLOSING | TCP_CLOSED | TCP_FIN_WAIT_1 | TCP_FIN_WAIT_2 | TCP_TIME_WAIT
        | TCP_LAST_ACK => Ok self
        end
    end.

Definition pseudo_tcp_socket_close (self : PseudoTcpSocket) (force : bool) : Res PseudoTcpSocket :=
  if force && negb (bool_decide (state self = TCP_CLOSED))
  then closedown self ECONNABORTED CLOSEDOWN_LOCAL
  else pseudo_tcp_socket_shutdown self PSEUDO_TCP_SHUTDOWN_RDWR.

Definition pseudo_tcp_socket_get_error (self : PseudoTcpSocket) : Z := error self.

Definition pseudo_tcp_socket_get_available_send_space (self : PseudoTcpSocket) : Z * PseudoTcpSocket :=
  let ret := if negb (pseudo_tcp_state_has_sent_fin (state self))
             then pseudo_tcp_fifo_get_write_remaining (sbuf self) else 0 in
  (ret, if ret =? 0 then { self with bWriteEnable := true } else self).

Definition pseudo_tcp_socket_can_send (self : PseudoTcpSocket) : bool * PseudoTcpSocket :=
  let '(space, self) := pseudo_tcp_socket_get_available_send_space self in (space >? 0, self).

Definition pseudo_tcp_socket_is_closed (self : PseudoTcpSocket) : bool :=
  bool_decide (state self = TCP_CLOSED).

Definition pseudo_tcp_socket_is_closed_remotely (self : PseudoTcpSocket) : bool :=
  pseudo_tcp_state_has_received_fin (state self).

(** ** Timers *)

(** The retransmission paragraph of [notify_clock]; [None] is its [return]. *)
Definition clock_retransmit (self : PseudoTcpSocket) (now : Z) :
    Res (flow PseudoTcpSocket) :=
  if negb (rto_base self =? 0) && (time_diff (u32 (rto_base self + rx_rto self)) now <=? 0) then
    id ← match head (slist self) with Some id => Ok id | None => Fault AssertFailed end;
    '(status, self) ← transmit self id now;
    if negb (status =? 0)
    then self ← closedown self status CLOSEDOWN_LOCAL; Ok (Return true self)
    else
      let nInFlight := u32 (snd_nxt self - snd_una self) in
      let rto_limit := match state self with
                       | TCP_LISTEN | TCP_SYN_SENT | TCP_SYN_RECEIVED => DEF_RTO
                       | _ => MAX_RTO end in
      let self := { self with
        ssthresh := Z.max (nInFlight / 2) (u32 (2 * mss self)); cwnd := mss self;
        rx_rto := Z.min rto_limit (u32 (rx_rto self * 2)); rto_base := now;
        recover := snd_nxt self } in
      Ok (Go (if dup_acks self >=? 3
              then { self with dup_acks := 0; fast_recovery := false } else self))
  else Ok (Go self).

(** The paragraph that probes closed windows. *)
Definition clock_probe (self : PseudoTcpSocket) (now : Z) : Res (flow PseudoTcpSocket) :=
  if (snd_wnd self =? 0) && (time_diff (u32 (lastsend self + rx_rto self)) now <=? 0) then
    if time_diff now (lastrecv self) >=? 15000
    then self ← closedown self ECONNABORTED CLOSEDOWN_LOCAL; Ok (Return true self)
    else
      '(_, self) ← packet self (u32 (snd_nxt self - 1)) 0 0 0 now;
      Ok (Go { self with lastsend := now; rx_rto := Z.min MAX_RTO (u32 (rx_rto self * 2)) })
  else Ok (Go self).

Definition pseudo_tcp_socket_notify_clock (self : PseudoTcpSocket) : Res PseudoTcpSocket :=
  let '(now, self) := get_current_time self in
  if bool_decide (state self = TCP_CLOSED) then Ok self
  else
    self ← (if support_fin_ack self && bool_decide (state self = TCP_TIME_WAIT)
            then set_state_closed self 0 else Ok self);
    self ← (if support_fin_ack self && bool_decide (state self = TCP_LAST_ACK)
            then self ← queue_fin_message self; attempt_send self sfFin else Ok self);
    fl ← clock_retransmit self now;
    match fl with
    | Return _ self => Ok self
    | Go self =>
        fl ← clock_probe self now;
        match fl with
        | Return _ self => Ok self
        | Go self =>
            if negb (t_ack self =? 0) && (time_diff (u32 (t_ack self + ack_delay self)) now <=? 0)
            then '(_, self) ← packet self (snd_nxt self) 0 0 0 now; Ok self
            else Ok self
        end
    end.

(** The next time the clock must be notified, from the caller's current
    [timeout]; [None] leaves the caller's value and means no further clock. *)
Definition pseudo_tcp_socket_get_next_clock (self : PseudoTcpSocket) (timeout : Z) :
    Res (option Z * PseudoTcpSocket) :=
  let '(now, self) := get_current_time self in
  if bool_decide (shutdown self = SD_FORCEFUL)
  then self ← closedown self 0 CLOSEDOWN_REMOTE; Ok (None, self)
  else if bool_decide (shutdown self = SD_GRACEFUL)
       && (negb (bool_decide (state self = TCP_ESTABLISHED))
           || ((pseudo_tcp_fifo_get_buffered (sbuf self) =? 0) && (t_ack self =? 0)))
  then self ← closedown self 0 CLOSEDOWN_REMOTE; Ok (None, self)
  else
    let time_wait := support_fin_ack self && bool_decide (state self = TCP_TIME_WAIT) in
    let closed := bool_decide (state self = TCP_CLOSED) in
    let closed_timeout := if time_wait then TIME_WAIT_TIMEOUT else CLOSED_TIMEOUT in
    if support_fin_ack self && closed then Ok (None, self)
    else
      let timeout := if (timeout =? 0) || (timeout <? now) then u32 (now + closed_timeout)
                     else timeout in
      if time_wait then Ok (Some (Z.min timeout (u32 (now + TIME_WAIT_TIMEOUT))), self)
      else if closed && negb (support_fin_ack self)
      then Ok (Some (Z.min timeout (u32 (now + CLOSED_TIMEOUT))), self)
      else
        let timeout := Z.min timeout (u32 (now + DEFAULT_TIMEOUT)) in
        let timeout := if negb (t_ack self =? 0)
                       then Z.min timeout (u32 (t_ack self + ack_delay self)) else timeout in
        let timeout := if negb (rto_base self =? 0)
                       then Z.min timeout (u32 (rto_base self + rx_rto self)) else timeout in
        let timeout := if snd_wnd self =? 0
                       then Z.min timeout (u32 (lastsend self + rx_rto self)) else timeout in
        Ok (Some timeout, self).

End Engine.
