(* ===== verification/PseudoTcpProps.v ===== *)
(** * Properties of the reliable stream: states, wire format, buffer sizes

    About the definitions of [PseudoTcp]: the state machine against RFC 793, the
    header and option codecs, what any received option list can do, and the
    window scale.  The reassembly of received data is in [PseudoTcpRecv]. *)

From S2P Require Import Prelude Fifo SeqArith PseudoTcp.

(** ** The state machine *)

Lemma set_state_valid self st :
  valid_transition (state self) st = true -> set_state self st = Ok { self with state := st }.
Proof.
  intros H. unfold set_state. rewrite H. case_bool_decide as E; [|done].
  subst st. by destruct (state self).
Qed.

Lemma set_state_closed_valid self err :
  state self = TCP_CLOSED \/ valid_transition (state self) TCP_CLOSED = true ->
  exists self', set_state_closed self err = Ok self' /\ state self' = TCP_CLOSED.
Proof.
  intros H. unfold set_state_closed.
  assert (exists s, set_state self TCP_CLOSED = Ok s /\ state s = TCP_CLOSED) as (s & -> & Hs).
  { destruct H as [H|H]; [|eexists; split; [by apply set_state_valid|done]].
    exists self. split; [|done]. unfold set_state. by rewrite bool_decide_true. }
  cbn. eexists; split; [reflexivity|]. by case_match.
Qed.

(** The transitions of RFC 793 (figure 6) and RFC 1122 for a received FIN and for
    the acknowledgement of a FIN that was sent. *)
Definition rfc_fin (st : PseudoTcpState) (received_fin is_fin_ack : bool) : PseudoTcpState :=
  match st, received_fin, is_fin_ack with
  | TCP_ESTABLISHED, true, _ => TCP_CLOSE_WAIT
  | TCP_FIN_WAIT_1, true, true => TCP_TIME_WAIT
  | TCP_FIN_WAIT_1, false, true => TCP_FIN_WAIT_2
  | TCP_FIN_WAIT_1, true, false => TCP_CLOSING
  | TCP_FIN_WAIT_2, true, _ => TCP_TIME_WAIT
  | TCP_CLOSING, _, true => TCP_TIME_WAIT
  | TCP_LAST_ACK, _, true => TCP_CLOSED
  | st, _, _ => st
  end.

(** The state machine never takes a transition its own assertion forbids while
    it handles FINs or closes down: FIN handling follows the table of RFC 793
    from every state, and closing down leads from every state to CLOSED through
    permitted transitions only. *)
Theorem tcp_state_machine self received_fin is_fin_ack err :
  (exists self', fin_transition self received_fin is_fin_ack = Ok self' /\
     state self' = rfc_fin (state self) received_fin is_fin_ack) /\
  (exists self', closedown_states self err = Ok self' /\ state self' = TCP_CLOSED).
Proof.
  split.
  - unfold fin_transition.
    destruct (state self) eqn:Hst, received_fin, is_fin_ack; cbn;
      first [by exists self
            |eexists; split; [apply set_state_valid; by rewrite Hst|done]
            |apply set_state_closed_valid; right; by rewrite Hst].
  - unfold closedown_states.
    destruct (state self) eqn:Hst; cbn;
      repeat (rewrite set_state_valid by (cbn; rewrite ?Hst; done); cbn);
      apply set_state_closed_valid; cbn; rewrite ?Hst; auto.
Qed.

(** ** The packet header *)

(** A packet parses back to what was sent: for any socket and any payload the
    fields that [parse] reads from the 24 bytes [packet] writes are the
    conversation, sequence and acknowledgement numbers, flags, scaled window and
    timestamps, each at the width of its field. *)
Theorem packet_header_roundtrip self seq flags now wnd data :
  let h := packet_header self seq flags now wnd in
  Z.of_nat (length h) = HEADER_SIZE /\
  parse_header h data =
    {| seg_conv := u32 (conv self); seg_seq := u32 seq; seg_ack := u32 (rcv_nxt self);
       seg_flags := u8 flags; seg_wnd := u16 wnd; seg_tsval := u32 now;
       seg_tsecr := u32 (ts_recent self); seg_data := data |}.
Proof.
  intros h. subst h. unfold packet_header.
  pose proof (fun n z => length_be_bytes n z) as L.
  split; [by rewrite !length_app, !L|]. unfold parse_header.
  f_equal; cbv zeta; rewrite ?drop_0;
    repeat first [rewrite take_app_length' by (rewrite L; reflexivity)
      | rewrite drop_app_ge by (rewrite L; lia); rewrite L; cbn [Nat.sub]; rewrite ?drop_0];
    rewrite ?take_ge by (rewrite L; lia); apply be_read_bytes.
Qed.

(** ** Window scale *)

Lemma scale_loop_spec fuel n k :
  0 <= n < 2 ^ (16 + Z.of_nat fuel) -> 0 <= k -> k + Z.of_nat fuel < 256 ->
  exists j, 0 <= j <= Z.of_nat fuel /\ scale_loop fuel n k = Ok (Z.shiftr n j, k + j) /\
    Z.shiftr n j <= 0xFFFF /\ (0 < n -> 0 < Z.shiftr n j).
Proof.
  induction fuel as [|fuel IH] in n, k |- *; intros Hn Hk Hf.
  - exists 0. cbn [scale_loop]. rewrite Z.shiftr_0_r, Z.add_0_r.
    change (2 ^ (16 + Z.of_nat 0)) with 65536 in Hn.
    rewrite Z.gtb_ltb, (proj2 (Z.ltb_ge _ _)) by lia. split_and!; try done; lia.
  - cbn [scale_loop]. rewrite Z.gtb_ltb. destruct (Z.ltb_spec 0xFFFF n).
    + rewrite u8_small by lia.
      destruct (IH (Z.shiftr n 1) (k + 1)) as (j & Hj & -> & Hle & Hpos); [|lia..|].
      { rewrite Z.shiftr_div_pow2 by lia. split; [apply Z.div_pos; lia|].
        apply Z.div_lt_upper_bound; [lia|].
        rewrite <- Z.pow_add_r by lia. eapply Z.lt_le_trans; [apply Hn|].
        apply Z.pow_le_mono_r; lia. }
      rewrite Z.shiftr_shiftr in * by lia.
      exists (1 + j). split_and!; try done || lia.
      * by rewrite Z.add_assoc.
      * intros _. apply Hpos. rewrite Z.shiftr_div_pow2 by lia. apply Z.div_str_pos. lia.
    + exists 0. rewrite Z.shiftr_0_r, Z.add_0_r. split_and!; try done; lia.
Qed.

(** The size the receive buffer is really given for a requested one. *)
Definition scaled_size (n j : Z) : Z := Z.shiftl (Z.shiftr n j) j.

Lemma scaled_size_le n j : 0 <= n -> 0 <= j -> 0 <= scaled_size n j <= n.
Proof.
  intros. unfold scaled_size. rewrite Z.shiftl_mul_pow2, Z.shiftr_div_pow2 by lia.
  assert (0 < 2 ^ j) by (apply Z.pow_pos_nonneg; lia).
  pose proof (Z.mul_div_le n (2 ^ j)). pose proof (Z.div_pos n (2 ^ j)). nia.
Qed.

Lemma resize_receive_buffer_spec `{!Malloc} self new_size :
  fifo_wf (rbuf self) -> is_u32 new_size -> rbuf_len self <> new_size ->
  exists j fifo, 0 <= j <= 16 /\ Z.shiftr new_size j <= 0xFFFF /\
    (0 < new_size -> 0 < Z.shiftr new_size j) /\
    let size := scaled_size new_size j in
    if data_length (rbuf self) <=? size then
      resize_receive_buffer self new_size = Ok { self with
        rbuf := fifo; rbuf_len := size; rwnd_scale := j; ssthresh := size;
        rcv_wnd := u32 (pseudo_tcp_fifo_get_write_remaining fifo) } /\
      fifo_wf fifo /\ fifo_data fifo = fifo_data (rbuf self) /\
      buffer_length fifo = (if data_length (rbuf self) <? size then size
                            else buffer_length (rbuf self))
    else resize_receive_buffer self new_size = Fault AssertFailed.
Proof.
  intros Hwf Hn Hne. unfold resize_receive_buffer. rewrite (proj2 (Z.eqb_neq _ _)) by done.
  assert (exists j, 0 <= j <= 16 /\ scale_loop 32 new_size 0 = Ok (Z.shiftr new_size j, j) /\
            Z.shiftr new_size j <= 0xFFFF /\ (0 < new_size -> 0 < Z.shiftr new_size j))
    as (j & Hj & -> & Hle & Hpos).
  { destruct (scale_loop_spec 16 new_size 0) as (j & Hj & Hl & Hle); [exact Hn|lia..|].
    exists j. split; [exact Hj|]. split; [|done].
    assert (forall f g n k r, scale_loop f n k = Ok r -> scale_loop (f + g) n k = Ok r) as Hmono.
    { induction f as [|f IH]; intros g n k r; cbn.
      - destruct (n >? 0xFFFF) eqn:E; [done|]. intros <-. destruct g; cbn; by rewrite E.
      - destruct (n >? 0xFFFF); [apply IH|done]. }
    apply (Hmono 16%nat 16%nat) in Hl. exact Hl. }
  cbn [mbind Res_bind]. unfold shl32. rewrite (proj2 (Z.ltb_lt _ _)) by lia. cbn [mbind Res_bind].
  pose proof (scaled_size_le new_size j) as Hs. unfold is_u32 in Hn. fold (scaled_size new_size j).
  rewrite u32_small by lia.
  destruct (fifo_set_capacity_spec (rbuf self) (scaled_size new_size j) Hwf)
    as (fifo & -> & Hwf' & Hdata & Hcap & _); [lia|].
  exists j, fifo. split; [done|]. split; [done|]. split; [done|]. cbn zeta.
  by destruct (data_length (rbuf self) <=? scaled_size new_size j).
Qed.

(** Setting the receive buffer of a socket that has buffered nothing (the only
    time the property can be set): the buffer gets the requested size rounded
    down to the scale, the scale is at most 16, and the new window shifted by it
    is a number of 16 bits, so the header field loses nothing. *)
Theorem resize_window_fits `{!Malloc} self new_size :
  fifo_wf (rbuf self) -> is_u32 new_size -> 0 < new_size -> rbuf_len self <> new_size ->
  data_length (rbuf self) = 0 ->
  exists self', resize_receive_buffer self new_size = Ok self' /\ fifo_wf (rbuf self') /\
    0 <= rwnd_scale self' <= 16 /\
    rbuf_len self' = scaled_size new_size (rwnd_scale self') /\ 0 < rbuf_len self' /\
    buffer_length (rbuf self') = rbuf_len self' /\ rcv_wnd self' = rbuf_len self' /\
    Z.shiftl (u16 (Z.shiftr (rcv_wnd self') (rwnd_scale self'))) (rwnd_scale self') = rcv_wnd self'.
Proof.
  intros Hwf Hn Hn0 Hne Hd.
  destruct (resize_receive_buffer_spec self new_size Hwf Hn Hne) as (j & fifo & Hj & Hle & Hpos & Hr).
  specialize (Hpos Hn0). unfold is_u32 in Hn.
  pose proof (scaled_size_le new_size j) as Hs. cbn zeta in Hr. rewrite Hd in Hr.
  assert (0 < scaled_size new_size j) as Hp.
  { unfold scaled_size. rewrite Z.shiftl_mul_pow2 by lia.
    apply Z.mul_pos_pos; [done|]. apply Z.pow_pos_nonneg; lia. }
  rewrite (proj2 (Z.leb_le _ _)), (proj2 (Z.ltb_lt _ _)) in Hr by lia.
  destruct Hr as (-> & Hwf' & Hdata & Hcap).
  assert (data_length fifo = 0) as Hd'.
  { rewrite <- Hd, <- !length_fifo_data by done. by rewrite Hdata. }
  eexists; split; [reflexivity|].
  cbn [rbuf rbuf_len rwnd_scale rcv_wnd tset set gafu_getter gafu_field_updater RecordSettersUsingExistingGetters.const].
  assert (u32 (pseudo_tcp_fifo_get_write_remaining fifo) = scaled_size new_size j) as ->.
  { unfold pseudo_tcp_fifo_get_write_remaining. rewrite Hcap, Hd', u64_small, u32_small by lia. lia. }
  split_and!; try done || lia.
  unfold scaled_size at 1. rewrite Z.shiftr_shiftl_l, Z.sub_diag, Z.shiftl_0_r by lia.
  rewrite u16_small by lia. done.
Qed.

(** ** Options *)

(** A list of options as its bytes are meant to be read: the options with their contents,
    and whether the list was whole, ended by its end or by the option that says so.  Every
    round takes a byte at least. *)
Fixpoint option_list (fuel : nat) (data : list byte) : list (Z * list byte) * bool :=
  match fuel, data with
  | O, _ | _, [] => ([], true)
  | S fuel, k :: rest =>
      if byte.unsigned k =? TCP_OPT_EOL then ([], true)
      else if byte.unsigned k =? TCP_OPT_NOOP then option_list fuel rest
      else
        match rest with
        | [] => ([], false)
        | n :: rest =>
            let n := Z.to_nat (byte.unsigned n) in
            if (length rest <? n)%nat then ([], false)
            else let '(l, whole) := option_list fuel (drop n rest) in
                 ((byte.unsigned k, take n rest) :: l, whole)
        end
  end.

Definition has_option (kind : Z) (l : list (Z * list byte)) : bool := existsb (fun o => o.1 =? kind) l.

(** The window scale that a list leaves: that of its last option of one byte. *)
Definition scale_of (scale : Z) (o : Z * list byte) : Z :=
  match o.2 with [b] => if o.1 =? TCP_OPT_WND_SCALE then byte.unsigned b else scale | _ => scale end.
Definition last_scale : Z -> list (Z * list byte) -> Z := foldl scale_of.

(** What a list of options changes in a socket. *)
Definition with_options (self : PseudoTcpSocket) (l : list (Z * list byte)) : PseudoTcpSocket :=
  { self with swnd_scale := last_scale (swnd_scale self) l;
              support_fin_ack := support_fin_ack self || has_option TCP_OPT_FIN_ACK l }.

Lemma scale_of_other scale kind c : kind <> TCP_OPT_WND_SCALE -> scale_of scale (kind, c) = scale.
Proof. intros H. unfold scale_of. cbn. rewrite (proj2 (Z.eqb_neq _ _) H). by destruct c as [|? []]. Qed.

Lemma with_options_nil self : with_options self [] = self.
Proof. destruct self. unfold with_options. cbn. by rewrite orb_false_r. Qed.

Lemma with_options_cons self o l : with_options (with_options self [o]) l = with_options self (o :: l).
Proof. unfold with_options. cbn. by rewrite orb_false_r, orb_assoc. Qed.

Lemma byte_at_Ok data pos : 0 <= pos < Z.of_nat (length data) ->
  exists b, byte_at data pos = Ok (byte.unsigned b) /\ 0 <= byte.unsigned b < 256 /\
    drop (Z.to_nat pos) data = b :: drop (Z.to_nat (pos + 1)) data.
Proof.
  intros H. unfold byte_at.
  destruct (lookup_lt_is_Some_2 data (Z.to_nat pos)) as [b Hb]; [lia|].
  exists b. rewrite Hb. split; [done|]. split; [apply byte.unsigned_range|].
  rewrite (drop_S _ _ _ Hb). f_equal. f_equal. lia.
Qed.

Lemma apply_option_Ok self kind data n :
  (n <= length data)%nat ->
  apply_option self kind data (Z.of_nat n) = Ok (with_options self [(kind, take n data)]).
Proof.
  intros Hn. unfold apply_option, with_options. cbn [last_scale foldl has_option existsb fst].
  rewrite orb_false_r. destruct (Z.eqb_spec kind TCP_OPT_WND_SCALE) as [->|Hk].
  - change (TCP_OPT_WND_SCALE =? TCP_OPT_FIN_ACK) with false. rewrite orb_false_r. unfold scale_of. cbn [fst snd].
    destruct n as [|[|n]], data as [|b data]; cbn in *; try lia; try by destruct self.
    rewrite (proj2 (Z.eqb_neq _ _)) by lia. destruct data as [|b' data]; [cbn in *; lia|]. by destruct self.
  - rewrite scale_of_other by done.
    destruct (kind =? TCP_OPT_FIN_ACK); destruct self; cbn; by rewrite ?orb_true_r, ?orb_false_r.
Qed.

(** The loop stays inside the data, ends, and finds the options of the list. *)
Lemma options_loop_Ok fuel self data len pos w f :
  len = Z.of_nat (length data) -> len < 2 ^ 31 -> 0 <= pos <= len -> len - pos <= Z.of_nat fuel ->
  options_loop fuel self data len pos w f =
    let '(l, whole) := option_list fuel (drop (Z.to_nat pos) data) in
    Ok (whole, w || has_option TCP_OPT_WND_SCALE l, f || has_option TCP_OPT_FIN_ACK l, with_options self l).
Proof.
  intros Hlen Hmax. induction fuel as [|fuel IH] in self, pos, w, f |- *; intros Hpos Hfuel.
  { cbn. rewrite (proj2 (Z.ltb_ge _ _)) by lia. by rewrite with_options_nil, !orb_false_r. }
  cbn [options_loop]. destruct (Z.ltb_spec pos len); cbn [negb].
  2: { rewrite drop_ge by lia. cbn. by rewrite with_options_nil, !orb_false_r. }
  rewrite !(u32_small (pos + 1)) by lia.
  rewrite (proj2 (Z.ltb_ge len (pos + 1))) by lia.
  destruct (byte_at_Ok data pos) as (k & -> & Hk & ->); [lia|]. cbn [mbind Res_bind option_list].
  case_match; [cbn; by rewrite with_options_nil, !orb_false_r|].
  case_match; [apply IH; lia|].
  rewrite !(u32_small (pos + 1 + 1)) by lia.
  destruct (Z.ltb_spec len (pos + 1 + 1)).
  { rewrite drop_ge by lia. cbn. by rewrite with_options_nil, !orb_false_r. }
  destruct (byte_at_Ok data (pos + 1)) as (o & -> & Ho & ->); [lia|]. cbn [mbind Res_bind].
  rewrite !(u32_small (pos + 1 + 1 + byte.unsigned o)) by lia. rewrite length_drop.
  destruct (Z.ltb_spec len (pos + 1 + 1 + byte.unsigned o)).
  { rewrite (proj2 (Nat.ltb_lt _ _)) by lia. cbn. by rewrite with_options_nil, !orb_false_r. }
  rewrite (proj2 (Nat.ltb_ge _ _)) by lia.
  rewrite (u32_small (len - (pos + 1 + 1))), (proj2 (Z.leb_le _ _)) by lia.
  rewrite <- (Z2Nat.id (byte.unsigned o)) at 1 by lia.
  rewrite apply_option_Ok by (rewrite length_drop; lia). cbn [mbind Res_bind].
  rewrite IH, drop_drop by lia.
  replace (Z.to_nat (pos + 1 + 1) + Z.to_nat (byte.unsigned o))%nat
    with (Z.to_nat (pos + 1 + 1 + byte.unsigned o)) by lia.
  destruct (option_list fuel _) as [l whole]. rewrite with_options_cons. cbn. by rewrite !orb_assoc.
Qed.

(** The resize that a list without a window scale option falls back to. *)
Lemma resize_to_default `{!Malloc} s :
  fifo_wf (rbuf s) ->
  if negb (rbuf_len s =? DEFAULT_RCV_BUF_SIZE) && (DEFAULT_RCV_BUF_SIZE <? data_length (rbuf s))
  then resize_receive_buffer s DEFAULT_RCV_BUF_SIZE = Fault AssertFailed
  else exists s', resize_receive_buffer s DEFAULT_RCV_BUF_SIZE = Ok s' /\
    rbuf_len s' = DEFAULT_RCV_BUF_SIZE /\ fifo_data (rbuf s') = fifo_data (rbuf s) /\
    rwnd_scale s' = (if rbuf_len s =? DEFAULT_RCV_BUF_SIZE then rwnd_scale s else 0) /\
    support_fin_ack s' = support_fin_ack s.
Proof.
  intros Hwf. unfold resize_receive_buffer.
  destruct (Z.eqb_spec (rbuf_len s) DEFAULT_RCV_BUF_SIZE) as [Heq|Hne]; cbn [negb andb].
  { by exists s. }
  change (scale_loop 32 DEFAULT_RCV_BUF_SIZE 0) with (@Ok (Z * Z) (DEFAULT_RCV_BUF_SIZE, 0)).
  cbn [mbind Res_bind]. change (shl32 DEFAULT_RCV_BUF_SIZE 0) with (@Ok Z DEFAULT_RCV_BUF_SIZE).
  cbn [mbind Res_bind].
  destruct (fifo_set_capacity_spec (rbuf s) DEFAULT_RCV_BUF_SIZE Hwf) as (fifo & -> & _ & Hd & _); [done|].
  cbn [mbind Res_bind]. rewrite Z.leb_antisym.
  destruct (DEFAULT_RCV_BUF_SIZE <? data_length (rbuf s)); [done|]. by eexists.
Qed.

(** C40. Whatever bytes a peer sends as options, parsing them stays inside the received
    data, ends, and does what the list says as it is meant to be read ([option_list]): the
    window scale becomes that of the last option with one, and the end of connections is
    acknowledged if the list says so, or, with a list that breaks off, if it was before.
    Only a whole list without a window scale option makes a scaled buffer fall back to the
    default size, with what is in it, and then no scale is left for sending.  The one fault
    is the assertion in this resize, and it fails exactly when the buffer holds more than
    the default size - a state the source comments take to be impossible, since the option
    list of any later connect message is parsed again. *)
Theorem parse_options_safe `{!Malloc} self data :
  fifo_wf (rbuf self) -> Z.of_nat (length data) < 2 ^ 31 ->
  let '(l, whole) := option_list (length data) data in
  let falls_back := whole && negb (has_option TCP_OPT_WND_SCALE l) && (0 <? rwnd_scale self) in
  let fin := if whole then has_option TCP_OPT_FIN_ACK l
             else support_fin_ack self || has_option TCP_OPT_FIN_ACK l in
  if falls_back && negb (rbuf_len self =? DEFAULT_RCV_BUF_SIZE) &&
     (DEFAULT_RCV_BUF_SIZE <? data_length (rbuf self))
  then parse_options self data = Fault AssertFailed
  else exists self', parse_options self data = Ok self' /\ support_fin_ack self' = fin /\
    if falls_back
    then swnd_scale self' = 0 /\ rbuf_len self' = DEFAULT_RCV_BUF_SIZE /\
      fifo_data (rbuf self') = fifo_data (rbuf self) /\
      rwnd_scale self' = (if rbuf_len self =? DEFAULT_RCV_BUF_SIZE then rwnd_scale self else 0)
    else self' = { self with swnd_scale := last_scale (swnd_scale self) l; support_fin_ack := fin }.
Proof.
  intros Hwf Hlen. unfold parse_options. rewrite options_loop_Ok by lia.
  change (drop (Z.to_nat 0) data) with data.
  destruct (option_list (length data) data) as [l whole]. cbn [mbind Res_bind orb].
  destruct whole; cbn [negb andb]; [|by eexists].
  rewrite Z.gtb_ltb. change (rwnd_scale (with_options self l)) with (rwnd_scale self).
  destruct (has_option TCP_OPT_WND_SCALE l), (0 <? rwnd_scale self); cbn [negb andb];
    try (eexists; split; [reflexivity|]; unfold with_options;
         by destruct (has_option TCP_OPT_FIN_ACK l); cbn; rewrite ?orb_true_r).
  pose proof (resize_to_default (with_options self l) Hwf) as Hr.
  change (rbuf_len (with_options self l)) with (rbuf_len self) in Hr.
  change (rbuf (with_options self l)) with (rbuf self) in Hr.
  change (rwnd_scale (with_options self l)) with (rwnd_scale self) in Hr.
  destruct (_ && _); [by rewrite Hr|]. destruct Hr as (s & -> & Hlen' & Hd & Hsc & Hf).
  eexists. split; [reflexivity|]. cbn in Hf.
  destruct (has_option TCP_OPT_FIN_ACK l); cbn; [|done]. by rewrite Hf, orb_true_r.
Qed.

(** One round of the loop over an option with one byte of content. *)
Lemma options_loop_one fuel self pre k o v post w f :
  let data := pre ++ k :: o :: v :: post in
  let len := Z.of_nat (length data) in
  len < 2 ^ 31 -> byte.unsigned o = 1 ->
  byte.unsigned k <> TCP_OPT_EOL -> byte.unsigned k <> TCP_OPT_NOOP ->
  options_loop (S fuel) self data len (Z.of_nat (length pre)) w f =
    (self ← apply_option self (byte.unsigned k) (v :: post) 1;
     options_loop fuel self data len (Z.of_nat (length (pre ++ [k; o; v])))
       (w || (byte.unsigned k =? TCP_OPT_WND_SCALE)) (f || (byte.unsigned k =? TCP_OPT_FIN_ACK))).
Proof.
  intros data len Hlen Ho Hk0 Hk1. set (pos := Z.of_nat (length pre)).
  assert (len = pos + 3 + Z.of_nat (length post)) as Hl.
  { subst len data pos. rewrite length_app. cbn [length]. lia. }
  assert (byte_at data pos = Ok (byte.unsigned k)) as Hbk.
  { unfold byte_at, data, pos. by rewrite Nat2Z.id, list_lookup_middle. }
  assert (byte_at data (pos + 1) = Ok 1) as Hbo.
  { unfold byte_at, data, pos. rewrite <- Ho.
    replace (Z.to_nat _) with (length (pre ++ [k])) by (rewrite length_app; cbn; lia).
    change (k :: o :: v :: post) with ([k] ++ o :: v :: post).
    rewrite app_assoc. by rewrite list_lookup_middle. }
  cbn [options_loop]. rewrite (proj2 (Z.ltb_lt pos len)) by lia. cbn [negb].
  rewrite !(u32_small (pos + 1)) by lia. rewrite (proj2 (Z.ltb_ge len (pos + 1))) by lia.
  rewrite Hbk. cbn [mbind Res_bind].
  rewrite (proj2 (Z.eqb_neq _ TCP_OPT_EOL)), (proj2 (Z.eqb_neq _ TCP_OPT_NOOP)) by done.
  rewrite !(u32_small (pos + 1 + 1)), (proj2 (Z.ltb_ge len (pos + 1 + 1))) by lia.
  rewrite Hbo. cbn [mbind Res_bind].
  rewrite !(u32_small (pos + 1 + 1 + 1)), (proj2 (Z.ltb_ge len (pos + 1 + 1 + 1))) by lia.
  rewrite (u32_small (len - (pos + 1 + 1))), (proj2 (Z.leb_le 1 _)) by lia.
  replace (drop (Z.to_nat (pos + 1 + 1)) data) with (v :: post).
  2: { unfold data, pos. replace (Z.to_nat _) with (length (pre ++ [k; o])) by (rewrite length_app; cbn; lia).
       change (k :: o :: v :: post) with ([k; o] ++ v :: post).
       by rewrite app_assoc, drop_app_length. }
  replace (pos + 1 + 1 + 1) with (Z.of_nat (length (pre ++ [k; o; v]))); [done|].
  rewrite length_app. cbn. unfold pos. lia.
Qed.

Lemma options_loop_end fuel self data w f :
  options_loop fuel self data (Z.of_nat (length data)) (Z.of_nat (length data)) w f =
    Ok (true, w, f, self).
Proof. destruct fuel; cbn [options_loop]; by rewrite Z.ltb_irrefl. Qed.

Lemma options_loop_fin_ack fuel self pre w f :
  Z.of_nat (length pre) < 2 ^ 30 ->
  let data := pre ++ [byte.of_Z 254; byte.of_Z 1; byte.of_Z 0] in
  options_loop (S fuel) self data (Z.of_nat (length data)) (Z.of_nat (length pre)) w f =
    Ok (true, w, true, { self with support_fin_ack := true }).
Proof.
  intros Hpre data. subst data.
  rewrite options_loop_one by (done || rewrite length_app; cbn [length]; lia).
  change (apply_option self _ _ 1) with (Ok { self with support_fin_ack := true }).
  cbn [mbind Res_bind]. rewrite options_loop_end.
  change (byte.unsigned (byte.of_Z 254) =? TCP_OPT_WND_SCALE) with false.
  change (byte.unsigned (byte.of_Z 254) =? TCP_OPT_FIN_ACK) with true.
  by rewrite orb_false_r, orb_true_r.
Qed.

Lemma options_loop_wnd_scale fuel self x post w f :
  Z.of_nat (length post) < 2 ^ 30 ->
  let data := byte.of_Z 3 :: byte.of_Z 1 :: x :: post in
  options_loop (S fuel) self data (Z.of_nat (length data)) 0 w f =
    options_loop fuel { self with swnd_scale := byte.unsigned x } data (Z.of_nat (length data)) 3 true f.
Proof.
  intros Hpost data. subst data.
  pose proof (options_loop_one fuel self [] (byte.of_Z 3) (byte.of_Z 1) x post w f) as H.
  cbn zeta in H. cbn [app] in H. change (Z.of_nat (length [])) with 0 in H.
  rewrite H by (done || cbn [length]; lia).
  change (apply_option self (byte.unsigned (byte.of_Z 3)) (x :: post) 1)
    with (Ok { self with swnd_scale := byte.unsigned x }).
  cbn [mbind Res_bind].
  change (byte.unsigned (byte.of_Z 3) =? TCP_OPT_WND_SCALE) with true.
  change (byte.unsigned (byte.of_Z 3) =? TCP_OPT_FIN_ACK) with false.
  by rewrite orb_false_r, orb_true_r.
Qed.

(** The options of the connect message survive the wire: the receiver's send
    window scale becomes the sender's receive window scale, and FIN-ACK support
    is on exactly when the sender announces it; nothing else changes. *)
Theorem connect_options_roundtrip `{!Malloc} peer self :
  is_u8 (rwnd_scale peer) -> support_wnd_scale peer = true \/ rwnd_scale self = 0 ->
  exists options, connect_message peer = byte.of_Z CTL_CONNECT :: options /\
    parse_options self options = Ok { self with
      swnd_scale := (if support_wnd_scale peer then rwnd_scale peer else swnd_scale self);
      support_fin_ack := support_fin_ack peer }.
Proof.
  intros Hs Hor. unfold connect_message.
  assert (byte.unsigned (byte.of_Z (rwnd_scale peer)) = rwnd_scale peer) as Hb.
  { rewrite byte.unsigned_of_Z. unfold byte.wrap. apply Z.mod_small, Hs. }
  exists (byte.of_Z <$>
    (if support_wnd_scale peer then [TCP_OPT_WND_SCALE; 1; rwnd_scale peer] else []) ++
    (if support_fin_ack peer then [TCP_OPT_FIN_ACK; 1; 0] else [])).
  split; [reflexivity|]. unfold parse_options.
  set (x := byte.of_Z (rwnd_scale peer)) in *.
  set (s := { self with swnd_scale := byte.unsigned x }).
  destruct (support_wnd_scale peer), (support_fin_ack peer).
  - set (l := [byte.of_Z 3; byte.of_Z 1; x; byte.of_Z 254; byte.of_Z 1; byte.of_Z 0]).
    change (fmap _ _) with l.
    assert (options_loop (length l) self l (Z.of_nat (length l)) 0 false false =
      Ok (true, true, true, { s with support_fin_ack := true })) as ->; [|subst s; cbn; by rewrite Hb].
    exact (eq_trans (options_loop_wnd_scale 5 self x [byte.of_Z 254; byte.of_Z 1; byte.of_Z 0]
        false false eq_refl)
      (options_loop_fin_ack 4 s [byte.of_Z 3; byte.of_Z 1; x] true false eq_refl)).
  - set (l := [byte.of_Z 3; byte.of_Z 1; x]). change (fmap _ _) with l.
    assert (options_loop (length l) self l (Z.of_nat (length l)) 0 false false =
      Ok (true, true, false, s)) as ->; [|subst s; cbn; by rewrite Hb].
    exact (eq_trans (options_loop_wnd_scale 2 self x [] false false eq_refl)
      (options_loop_end 2 s l true false)).
  - set (l := [byte.of_Z 254; byte.of_Z 1; byte.of_Z 0]). change (fmap _ _) with l.
    assert (options_loop (length l) self l (Z.of_nat (length l)) 0 false false =
      Ok (true, false, true, { self with support_fin_ack := true })) as ->
      by exact (options_loop_fin_ack 2 self [] false false eq_refl).
    destruct Hor as [|Hw]; [done|]. destruct self; cbn in Hw |- *. by rewrite Hw.
  - destruct Hor as [|Hw]; [done|]. destruct self; cbn in Hw |- *. by rewrite Hw.
Qed.

(** ** Witnesses *)

Definition sample_socket : PseudoTcpSocket :=
  pseudo_tcp_socket_new (H0 := sample_malloc) 7
    {| PseudoTcpOpened := true; PseudoTcpReadable := true;
       PseudoTcpWritable := true; PseudoTcpClosed := true |}.

Lemma sample_socket_wf : fifo_wf (rbuf sample_socket) /\ fifo_wf (sbuf sample_socket).
Proof. split; by apply (fifo_init_wf (H := sample_malloc)). Qed.

Lemma resize_window_fits_witness :
  exists self', resize_receive_buffer (H0 := sample_malloc) sample_socket 1000001 = Ok self' /\
    fifo_wf (rbuf self') /\ 0 <= rwnd_scale self' <= 16 /\
    rbuf_len self' = scaled_size 1000001 (rwnd_scale self') /\ 0 < rbuf_len self' /\
    buffer_length (rbuf self') = rbuf_len self' /\ rcv_wnd self' = rbuf_len self' /\
    Z.shiftl (u16 (Z.shiftr (rcv_wnd self') (rwnd_scale self'))) (rwnd_scale self') = rcv_wnd self'.
Proof.
  apply (resize_window_fits (H := sample_malloc) sample_socket 1000001);
    [exact (proj1 sample_socket_wf)|by split|done|done|done].
Defined.

(** A list that breaks off after a window scale. *)
Lemma parse_options_safe_witness :
  exists self', parse_options (H0 := sample_malloc) sample_socket (sample_bytes [3; 1; 200; 9; 9]) = Ok self' /\
    support_fin_ack self' = true /\
    self' = { sample_socket with swnd_scale := 200; support_fin_ack := true }.
Proof.
  exact (parse_options_safe (H := sample_malloc) sample_socket
    (sample_bytes [3; 1; 200; 9; 9]) (proj1 sample_socket_wf) eq_refl).
Defined.

Lemma connect_options_roundtrip_witness :
  exists options, connect_message sample_socket = byte.of_Z CTL_CONNECT :: options /\
    parse_options (H0 := sample_malloc) sample_socket options = Ok { sample_socket with
      swnd_scale := (if support_wnd_scale sample_socket then rwnd_scale sample_socket
                     else swnd_scale sample_socket);
      support_fin_ack := support_fin_ack sample_socket }.
Proof.
  apply (connect_options_roundtrip (H := sample_malloc) sample_socket sample_socket);
    [by split|by left].
Defined.

(** ** Runs *)

Definition sample_env (wres : PseudoTcpWriteResult) : PseudoTcpEnv :=
  {| WritePacket _ _ := wres; get_monotonic_time n := 1000000 + 1000 * Z.of_nat n |}.

Definition small_socket : PseudoTcpSocket :=
  { sample_socket with rbuf := pseudo_tcp_fifo_init (H := sample_malloc) 64;
                       sbuf := pseudo_tcp_fifo_init (H := sample_malloc) 64 }.

(** The packets a socket has sent, oldest first, and the socket without them. *)
Definition sent (s : PseudoTcpSocket) : list (list byte) :=
  rev (omap (fun e => match e with EvPacket b _ => Some b | _ => None end) (trace s)).
Definition sent_all (s : PseudoTcpSocket) : PseudoTcpSocket := { s with trace := [] }.

Fixpoint deliver `{!PseudoTcpEnv, !Malloc} (l : list (list byte)) (s : PseudoTcpSocket) :
    Res PseudoTcpSocket :=
  match l with
  | [] => Ok s
  | p :: l => '(_, s) ← pseudo_tcp_socket_notify_packet s p; deliver l s
  end.

(** [n] exchanges over a network that loses nothing. *)
Fixpoint exchange `{!PseudoTcpEnv, !Malloc} (n : nat) (a b : PseudoTcpSocket) :
    Res (PseudoTcpSocket * PseudoTcpSocket) :=
  match n with
  | O => Ok (a, b)
  | S n =>
      b ← deliver (sent a) b; let a := sent_all a in
      a ← deliver (sent b) a; let b := sent_all b in
      exchange n a b
  end.

(** A handshake, five bytes, an orderly close from both sides. *)
Definition sample_session : Res (list byte * PseudoTcpState * PseudoTcpState) :=
  let E := sample_env WR_SUCCESS in let M := sample_malloc in
  '(_, a) ← pseudo_tcp_socket_connect small_socket;
  '(a, b) ← exchange 3 a small_socket;
  '(_, a) ← pseudo_tcp_socket_send a (sample_bytes [1; 2; 3; 4; 5]);
  '(a, b) ← exchange 3 a b;
  '(_, data, b) ← pseudo_tcp_socket_recv b 100;
  a ← pseudo_tcp_socket_shutdown a PSEUDO_TCP_SHUTDOWN_RDWR;
  '(a, b) ← exchange 3 a b;
  b ← pseudo_tcp_socket_shutdown b PSEUDO_TCP_SHUTDOWN_RDWR;
  '(a, b) ← exchange 3 a b;
  a ← pseudo_tcp_socket_notify_clock a;
  Ok (data, state a, state b).

Example sample_session_runs :
  sample_session = Ok (sample_bytes [1; 2; 3; 4; 5], TCP_CLOSED, TCP_CLOSED).
Proof. vm_compute. reflexivity. Qed.

(** Shutting down while data is queued and the network refuses it closes the
    socket underneath [shutdown], which then asserts FIN-WAIT-1. *)
Example shutdown_asserts_when_send_fails :
  (let E := sample_env WR_FAIL in let M := sample_malloc in
   '(_, s) ← queue { small_socket with state := TCP_ESTABLISHED } (sample_bytes [1; 2; 3]) FLAG_NONE;
   pseudo_tcp_socket_shutdown s PSEUDO_TCP_SHUTDOWN_RDWR) = Fault AssertFailed.
Proof. vm_compute. reflexivity. Qed.

(** One connect message with a window scale of 40 makes a listening socket shift
    by 40. *)
Example window_scale_not_bounded :
  (let E := sample_env WR_SUCCESS in let M := sample_malloc in
   pseudo_tcp_socket_notify_packet small_socket
     (packet_header small_socket 0 FLAG_CTL 0 0 ++ sample_bytes [0; 3; 1; 40]))
  = Fault BadShift.
Proof. vm_compute. reflexivity. Qed.

(** In LAST-ACK every clock tick queues one more FIN, and an acknowledgement of
    the second makes the engine consume a byte that is not there. *)
Example last_ack_repeated_fin :
  (let E := sample_env WR_SUCCESS in let M := sample_malloc in
   s ← pseudo_tcp_socket_shutdown { small_socket with state := TCP_CLOSE_WAIT; snd_wnd := 64 }
         PSEUDO_TCP_SHUTDOWN_RDWR;
   s ← pseudo_tcp_socket_notify_clock s;
   s ← pseudo_tcp_socket_notify_clock s;
   pseudo_tcp_socket_notify_packet s
     (packet_header { small_socket with rcv_nxt := 3 } 0 0 0 64)) = Fault AssertFailed.
Proof. vm_compute. reflexivity. Qed.

(** Reading back the no-delay property gives its negation. *)
Example no_delay_reads_negated v :
  (s ← pseudo_tcp_socket_set_property (H0 := sample_malloc) sample_socket (PROP_NO_DELAY v);
   Ok (pseudo_tcp_socket_get_property s (PROP_NO_DELAY v))) = Ok (PROP_NO_DELAY (negb v)).
Proof. reflexivity. Qed.
