(* ===== verification/PseudoTcpRecv.v ===== *)
(** * Reassembly of the received stream

    The receive side of [process] (trimming, [process_data]) and the reads of the
    application against the peer's byte stream: whatever order, duplication or
    overlap the segments arrive in, the buffer holds exactly the bytes of the
    stream between what was read and [rcv_nxt], and the out-of-order area holds
    stream bytes at their positions. *)

From Stdlib Require Import Sorted.
From S2P Require Import Prelude Fifo SeqArith PseudoTcp.

(** ** Streams *)

(** The peer's stream, by position; [slice stream p n] is its [n] bytes from
    position [p] on. *)
Definition slice (stream : Z -> byte) (p : Z) (n : nat) : list byte :=
  (fun i => stream (p + Z.of_nat i)) <$> seq 0 n.

Lemma length_slice st p n : length (slice st p n) = n.
Proof. unfold slice. by rewrite length_fmap, length_seq. Qed.

Lemma lookup_slice st p n i : (i < n)%nat -> slice st p n !! i = Some (st (p + Z.of_nat i)).
Proof. intros. unfold slice. by rewrite list_lookup_fmap, lookup_seq_lt by done. Qed.

Lemma drop_slice st p n k : drop k (slice st p n) = slice st (p + Z.of_nat k) (n - k).
Proof.
  apply list_eq_same_length with (n := (n - k)%nat).
  { by rewrite length_slice. }
  { by rewrite length_drop, length_slice. }
  intros i x y Hi. rewrite lookup_drop, !lookup_slice by lia.
  intros [= <-] [= <-]. f_equal. lia.
Qed.

Lemma take_slice st p n k : (k <= n)%nat -> take k (slice st p n) = slice st p k.
Proof.
  intros Hk. apply list_eq_same_length with (n := k).
  { by rewrite length_slice. }
  { rewrite length_take, length_slice. lia. }
  intros i x y Hi. rewrite lookup_take_lt, !lookup_slice by lia. congruence.
Qed.

Lemma slice_app st p n m : slice st p (n + m) = slice st p n ++ slice st (p + Z.of_nat n) m.
Proof.
  rewrite <- (take_drop n (slice st p (n + m))), take_slice, drop_slice by lia.
  do 3 f_equal. lia.
Qed.

(** ** The invariant *)

Section Recv.
Context (stream : Z -> byte) (isn : Z).

Definition seq_at (p : Z) : Z := u32 (isn + p).

(** The ring holds the stream's byte at position [pos], when it starts at [base]. *)
Definition ring_ok (b : PseudoTcpFifo) (base pos : Z) : Prop :=
  fifo_ring b !! Z.to_nat (pos - base) = Some (stream pos).

(** An out-of-order segment, by stream position. *)
Definition rseg_at (e : Z * Z) : RSegment := {| rseg_seq := seq_at e.1; rseg_len := e.2 |}.

Definition entry_ok (b : PseudoTcpFifo) (base : Z) (e : Z * Z) : Prop :=
  base <= e.1 /\ 0 < e.2 /\ e.1 + e.2 <= base + buffer_length b /\
  forall pos, e.1 <= pos < e.1 + e.2 -> ring_ok b base pos.

(** [base] bytes of the stream were read by the application, [nxt] were received
    in order. *)
Record recv_inv (self : PseudoTcpSocket) (base nxt : Z) : Prop := {
  ri_wf : fifo_wf (rbuf self);
  ri_cap : buffer_length (rbuf self) < 2 ^ 30;
  ri_nxt : rcv_nxt self = seq_at nxt;
  ri_len : data_length (rbuf self) = nxt - base;
  ri_data pos : base <= pos < nxt -> ring_ok (rbuf self) base pos;
  ri_rlist : exists es, rlist self = rseg_at <$> es /\ Forall (entry_ok (rbuf self) base) es /\
      StronglySorted Z.le es.*1 /\ Forall (fun e => nxt < e.1) es
}.

Lemma recv_inv_data self base nxt :
  recv_inv self base nxt -> fifo_data (rbuf self) = slice stream base (Z.to_nat (nxt - base)).
Proof.
  intros [Hwf _ _ Hlen Hdata _]. pose proof (length_fifo_data _ Hwf) as Hl.
  apply list_eq_same_length with (n := Z.to_nat (nxt - base)).
  { apply length_slice. }
  { lia. }
  intros i x y Hi. rewrite lookup_slice by lia. unfold fifo_data. rewrite lookup_take_lt by lia.
  specialize (Hdata (base + Z.of_nat i) ltac:(lia)). unfold ring_ok in Hdata.
  replace (Z.to_nat _) with i in Hdata by lia. congruence.
Qed.

(** Sequence numbers of positions that are close compare as the positions. *)
Lemma seq_at_compare x y :
  Z.abs (x - y) < 0x7FFFFFFF ->
  LARGER (seq_at x) (seq_at y) = (y <? x) /\ LARGER_OR_EQUAL (seq_at x) (seq_at y) = (y <=? x) /\
  SMALLER (seq_at y) (seq_at x) = (y <? x) /\ SMALLER_OR_EQUAL (seq_at y) (seq_at x) = (y <=? x).
Proof. intros H. unfold SMALLER, SMALLER_OR_EQUAL, seq_at. by destruct (seq_compare isn x y H) as [-> ->]. Qed.

Lemma seq_at_diff x y : 0 <= x - y < 2 ^ 32 -> u32 (seq_at x - seq_at y) = x - y.
Proof. intros. unfold seq_at. machine_int. Qed.
Lemma seq_at_add x n : u32 (seq_at x + n) = seq_at (x + n).
Proof. unfold seq_at. machine_int. Qed.
Lemma seq_at_inj x y : Z.abs (x - y) < 2 ^ 32 -> seq_at x = seq_at y -> x = y.
Proof. unfold seq_at. machine_int. Qed.

(** ** Trimming *)

Ltac trim_fin := cbn; first [done|lia|by auto|by split|intros; lia|intros; split; lia].

(** A segment of the stream: [n] bytes from position [q]. *)
Definition is_segment (seg : Segment) (q : Z) (n : nat) : Prop :=
  seg_seq seg = seq_at q /\ seg_data seg = slice stream q n.

(** Near enough to the window for the comparisons to be right. *)
Definition near (nxt q : Z) (n : nat) : Prop :=
  Z.abs (q - nxt) < 2 ^ 30 /\ Z.of_nat n <= MAX_PACKET.

Lemma trim_spec self seg base nxt q n :
  recv_inv self base nxt -> is_segment seg q n -> near nxt q n ->
  exists q' n', is_segment (trim_back self (trim_front self seg)) q' n' /\
    seg_flags (trim_back self (trim_front self seg)) = seg_flags seg /\
    (n' = 0%nat \/ nxt <= q' /\ q' + Z.of_nat n' <= base + buffer_length (rbuf self)) /\
    (q <= nxt -> nxt < q + Z.of_nat n -> nxt < base + buffer_length (rbuf self) ->
     q' = nxt /\ q' + Z.of_nat n' = Z.min (q + Z.of_nat n) (base + buffer_length (rbuf self))) /\
    (q + Z.of_nat n <= nxt -> n' = 0%nat).
Proof.
  intros [Hwf Hcap Hnxt Hlen _ _] [Hseq Hdata] [Hq Hn].
  pose proof Hwf as [_ Hc Hd _]. unfold MAX_PACKET in Hn.
  set (cap := buffer_length (rbuf self)) in *.
  assert (pseudo_tcp_fifo_get_write_remaining (rbuf self) = base + cap - nxt) as Havail.
  { unfold pseudo_tcp_fifo_get_write_remaining. fold cap. rewrite u64_small by lia. lia. }
  (* the front *)
  assert (exists q1 n1, is_segment (trim_front self seg) q1 n1 /\
    seg_flags (trim_front self seg) = seg_flags seg /\ Z.of_nat n1 <= 65532 /\
    q1 - nxt < 2 ^ 30 /\ (n1 = 0%nat /\ Z.abs (q1 - nxt) < 2 ^ 30 \/ nxt <= q1) /\
    (q <= nxt -> nxt < q + Z.of_nat n -> q1 = nxt /\ q1 + Z.of_nat n1 = q + Z.of_nat n) /\
    (q + Z.of_nat n <= nxt -> n1 = 0%nat))
    as (q1 & n1 & [Hs1 Hd1] & Hf1 & Hn1 & Hq1 & Hor1 & Hpr1 & Hold1).
  { unfold trim_front. rewrite Hseq, Hnxt.
    destruct (seq_at_compare nxt q) as (_ & _ & -> & _); [lia|].
    destruct (Z.ltb_spec q nxt); [|exists q, n; split_and!; trim_fin].
    rewrite seq_at_diff by lia. unfold seg_len. rewrite Hdata, length_slice.
    destruct (Z.ltb_spec (nxt - q) (Z.of_nat n)).
    - exists nxt, (n - Z.to_nat (nxt - q))%nat. split_and!; cbn; try trim_fin.
      split; cbn; [rewrite seq_at_add; f_equal; lia|]. rewrite Hdata, drop_slice. f_equal. lia.
    - exists q, 0%nat. split_and!; trim_fin. }
  (* the back *)
  unfold trim_back. rewrite Havail. unfold seg_len. rewrite Hs1, Hd1, length_slice, Hnxt.
  assert (Z.abs (q1 - nxt) < 2 ^ 30) as Habs by lia.
  replace (u32 (seq_at q1 + Z.of_nat n1 - seq_at nxt)) with (u32 (q1 + Z.of_nat n1 - nxt))
    by (unfold seq_at; machine_int).
  rewrite Z.gtb_ltb.
  destruct (Z.ltb_spec (base + cap - nxt) (u32 (q1 + Z.of_nat n1 - nxt))) as [Hgt|Hle].
  - destruct (decide (n1 = 0%nat)) as [->|Hn0].
    { exists q1, 0%nat. cbn [Z.of_nat] in *. rewrite (proj2 (Z.ltb_ge _ 0)) by (apply uwrap_range; lia).
      split_and!; trim_fin. }
    rewrite (u32_small (q1 + Z.of_nat n1 - nxt)) in Hgt |- * by lia.
    rewrite (u32_small (q1 + Z.of_nat n1 - nxt - (base + cap - nxt))) by lia.
    destruct (Z.ltb_spec (q1 + Z.of_nat n1 - nxt - (base + cap - nxt)) (Z.of_nat n1)).
    + exists q1, (Z.to_nat (base + cap - q1)). split_and!; cbn; try trim_fin.
      split; cbn; [done|]. rewrite Hd1, take_slice by lia. f_equal. lia.
    + exists q1, 0%nat. split_and!; trim_fin.
  - exists q1, n1. split; [by split|]. split; [done|]. split.
    + destruct (decide (n1 = 0%nat)); [by left|right]. rewrite u32_small in Hle by lia. lia.
    + split; [|exact Hold1]. intros. destruct Hpr1; [lia..|]. rewrite u32_small in Hle by lia. lia.
Qed.

(** ** Writing and recovering *)

(** Writing a segment of the stream makes its positions right and spoils none. *)
Lemma write_segment_ring b base nxt q n :
  fifo_wf b -> data_length b = nxt - base -> nxt <= q -> q - nxt < 2 ^ 30 ->
  q + Z.of_nat n <= base + buffer_length b ->
  exists b', pseudo_tcp_fifo_write_offset b (slice stream q n) (q - nxt) = Ok (Z.of_nat n, b') /\
    fifo_wf b' /\ data_length b' = data_length b /\ buffer_length b' = buffer_length b /\
    (forall pos, q <= pos < q + Z.of_nat n -> ring_ok b' base pos) /\
    (forall pos, base <= pos < base + buffer_length b -> ring_ok b base pos -> ring_ok b' base pos).
Proof.
  intros Hwf Hlen Hq Hnear Hfit. pose proof Hwf as [Hb Hc Hd Hr].
  pose proof (length_slice stream q n) as Hls.
  destruct (fifo_write_offset_spec b (slice stream q n) (q - nxt) Hwf)
    as (b' & Hw & Hwf' & Hring & Hdl & Hcap); [lia|lia|].
  rewrite Hls in Hw, Hring.
  replace (Z.max 0 (Z.min (Z.of_nat n) (buffer_length b - data_length b - (q - nxt))))
    with (Z.of_nat n) in Hw, Hring by lia.
  rewrite Nat2Z.id, take_ge in Hring by lia.
  pose proof (length_fifo_ring b Hwf) as Hlr.
  exists b'. split_and!; try done.
  - intros pos Hpos. unfold ring_ok. rewrite Hring, lookup_splice_in by lia.
    rewrite lookup_slice by lia. do 2 f_equal. lia.
  - intros pos Hpos Hok. unfold ring_ok in *. rewrite Hring.
    destruct (decide (q <= pos < q + Z.of_nat n)).
    + rewrite lookup_splice_in, lookup_slice by lia. do 2 f_equal. lia.
    + rewrite lookup_splice_out by lia. done.
Qed.

(** Where the stream ends that begins before [nxt] and goes on through the entries of [es],
    which are in order: it ends at the first gap. *)
Definition reach (nxt : Z) (es : list (Z * Z)) : Z :=
  foldl (fun n e => if e.1 <=? n then Z.max n (e.1 + e.2) else n) nxt es.

(** The entries that the stream does not get to. *)
Definition beyond (nxt : Z) (es : list (Z * Z)) : list (Z * Z) := base.filter (fun e => nxt < e.1) es.

Lemma reach_ge es : forall nxt, nxt <= reach nxt es.
Proof.
  unfold reach. induction es as [|e es IH]; intros nxt; cbn; [lia|].
  etransitivity; [|apply IH]. destruct (e.1 <=? nxt); lia.
Qed.

Lemma reach_gap nxt es : Forall (fun e => nxt < e.1) es -> reach nxt es = nxt /\ beyond nxt es = es.
Proof.
  unfold reach, beyond. induction 1 as [|e es He _ [IH1 IH2]]; [done|]. cbn [foldl].
  rewrite (proj2 (Z.leb_gt _ _) He), IH1. split; [done|]. rewrite filter_cons_True by done. by rewrite IH2.
Qed.

Lemma reach_reached nxt e es : e.1 <= nxt -> reach nxt (e :: es) = reach (Z.max nxt (e.1 + e.2)) es.
Proof. intros. unfold reach. cbn [foldl]. by rewrite (proj2 (Z.leb_le _ _)). Qed.
Lemma beyond_reached nxt e es : e.1 <= nxt -> beyond nxt (e :: es) = beyond nxt es.
Proof. intros. unfold beyond. rewrite filter_cons_False; [done|lia]. Qed.
#[local] Arguments reach : simpl never.
#[local] Arguments beyond : simpl never.

(** The loop over the out-of-order segments. *)
Lemma recover_spec es self sflags base nxt :
  fifo_wf (rbuf self) -> buffer_length (rbuf self) < 2 ^ 30 ->
  rcv_nxt self = seq_at nxt -> data_length (rbuf self) = nxt - base ->
  (forall pos, base <= pos < nxt -> ring_ok (rbuf self) base pos) ->
  Forall (entry_ok (rbuf self) base) es -> StronglySorted Z.le es.*1 ->
  exists sflags' self' nxt', recover_segments (rseg_at <$> es) self sflags = Ok (sflags', self') /\
    recv_inv self' base nxt' /\ nxt <= nxt' /\
    buffer_length (rbuf self') = buffer_length (rbuf self) /\
    nxt' = reach nxt es /\ rlist self' = rseg_at <$> beyond nxt' es.
Proof.
  induction es as [|[q l] es IH] in self, sflags, nxt |- *; intros Hwf Hcap Hnxt Hlen Hdata Hes Hsort.
  - exists sflags, { self with rlist := [] }, nxt. split; [done|]. split; [|split_and!; [lia|done..]].
    split; try done. by exists [].
  - cbn [fmap list_fmap recover_segments]. inversion_clear Hes as [|? ? He Hes'].
    pose proof He as (Hq & Hl & Hend & Hok). cbn [fst snd] in *.
    change (((q, l) :: es).*1) with (q :: es.*1) in Hsort.
    apply StronglySorted_inv in Hsort as [Hsort Hall].
    pose proof Hwf as [_ Hc Hd _]. cbn [rseg_at rseg_seq rseg_len fst snd]. rewrite Hnxt.
    destruct (seq_at_compare nxt q) as (_ & _ & _ & ->); [lia|].
    destruct (Z.leb_spec q nxt) as [Hle|Hgt].
    + rewrite seq_at_add. destruct (seq_at_compare (q + l) nxt) as (-> & _); [lia|].
      destruct (Z.ltb_spec nxt (q + l)).
      * rewrite seq_at_diff by lia.
        destruct (fifo_consume_write_spec (rbuf self) (q + l - nxt) Hwf)
          as (b' & -> & Hwf' & Hring & Hdl & Hbl); [lia|].
        cbn [mbind Res_bind]. rewrite seq_at_add. replace (nxt + (q + l - nxt)) with (q + l) by lia.
        assert (forall pos, ring_ok (rbuf self) base pos -> ring_ok b' base pos) as Hmono
          by (intros pos; unfold ring_ok; by rewrite Hring).
        edestruct (IH { self with rbuf := b'; rcv_nxt := seq_at (q + l);
                          rcv_wnd := u32 (rcv_wnd self - (q + l - nxt)) } sfImmediateAck (q + l))
          as (sf & s' & p' & -> & Hinv & Hp & Hbl' & Hreach & Hleft); try done; cbn.
        { by rewrite Hbl. }
        { lia. }
        { intros pos Hpos. apply Hmono. destruct (decide (pos < nxt)); [apply Hdata|apply Hok]; lia. }
        { eapply Forall_impl; [exact Hes'|]. intros e (? & ? & ? & ?).
          split_and!; rewrite ?Hbl; auto. }
        exists sf, s', p'. split; [done|]. split; [done|]. split; [lia|].
        split; [by rewrite Hbl'|]. rewrite beyond_reached by (cbn; lia). split; [|done].
        by rewrite reach_reached, Z.max_r by (cbn; lia).
      * cbn [mbind Res_bind].
        edestruct (IH self sflags nxt) as (sf & s' & p' & -> & Hinv & Hp & Hbl' & Hreach & Hleft); try done.
        exists sf, s', p'. rewrite beyond_reached by (cbn; lia). split_and!; try done.
        by rewrite reach_reached, Z.max_l by (cbn; lia).
    + exists sflags, { self with rlist := rseg_at <$> (q, l) :: es }, nxt.
      assert (Forall (fun e => nxt < e.1) ((q, l) :: es)) as Hafter.
      { constructor; [done|]. rewrite Forall_fmap in Hall.
        eapply Forall_impl; [exact Hall|]. intros e; cbn; lia. }
      destruct (reach_gap nxt _ Hafter) as [Hr Hb].
      split; [done|]. split; [|split_and!; [lia|done|by rewrite Hr|by rewrite Hb]].
      split; try done. exists ((q, l) :: es). split_and!; try done.
      * by constructor.
      * cbn. by constructor.
Qed.

Lemma insert_rsegment_spec es q l :
  (forall e, e ∈ es -> Z.abs (e.1 - q) < 2 ^ 30) -> StronglySorted Z.le es.*1 ->
  exists es', insert_rsegment (rseg_at <$> es) (rseg_at (q, l)) = rseg_at <$> es' /\
    es' ≡ₚ (q, l) :: es /\ StronglySorted Z.le es'.*1.
Proof.
  induction es as [|[x lx] es IH]; intros Hnear Hsort.
  { exists [(q, l)]. split_and!; [done|done|]. repeat constructor. }
  change (((x, lx) :: es).*1) with (x :: es.*1) in Hsort.
  pose proof Hsort as [Hsort' Hall]%StronglySorted_inv.
  assert (Z.abs (x - q) < 2 ^ 30) as Hx by (apply (Hnear (x, lx)); set_solver).
  cbn [fmap list_fmap insert_rsegment rseg_at rseg_seq rseg_len fst snd].
  destruct (seq_at_compare q x) as (_ & _ & -> & _); [lia|].
  destruct (Z.ltb_spec x q).
  - destruct IH as (es' & Heq & Hperm & Hsorted); [|done|].
    { intros e He. apply Hnear; set_solver. }
    exists ((x, lx) :: es'). cbn [fmap list_fmap rseg_at fst snd] in *. rewrite Heq. split; [done|].
    split; [rewrite Hperm; apply Permutation_swap|].
    change (((x, lx) :: es').*1) with (x :: es'.*1).
    constructor; [done|]. rewrite Hperm. constructor; cbn; [lia|done].
  - exists ((q, l) :: (x, lx) :: es). split_and!; [done|done|].
    change (((q, l) :: (x, lx) :: es).*1) with (q :: x :: es.*1).
    constructor; [done|]. constructor; [lia|].
    eapply Forall_impl; [exact Hall|]. intros; cbn in *; lia.
Qed.

Definition data_accepted (self : PseudoTcpSocket) (seg : Segment) : Prop :=
  Z.land (seg_flags seg) FLAG_CTL = 0 /\ (support_fin_ack self = true \/ shutdown self = SD_NONE).

(** The data paragraph of [process] on a segment of the stream. *)
Lemma receive_spec self seg sflags base nxt q n :
  recv_inv self base nxt -> is_segment seg q n -> near nxt q n -> data_accepted self seg ->
  exists new sflags' self' nxt',
    process_data self (trim_back self (trim_front self seg)) sflags = Ok (new, sflags', self') /\
    recv_inv self' base nxt' /\ nxt <= nxt' /\
    buffer_length (rbuf self') = buffer_length (rbuf self) /\
    (q <= nxt -> exists es, rlist self = rseg_at <$> es /\ Forall (entry_ok (rbuf self) base) es /\
       nxt' = reach (Z.max nxt (Z.min (q + Z.of_nat n) (base + buffer_length (rbuf self)))) es /\
       rlist self' = rseg_at <$> beyond nxt' es).
Proof.
  intros Hinv Hseg Hnear [Hctl Hacc].
  destruct (trim_spec self seg base nxt q n Hinv Hseg Hnear)
    as (q' & n' & [Hseq Hdata] & Hflags & Hwin & Hprogress & Hpast).
  set (seg' := trim_back self (trim_front self seg)) in *.
  pose proof Hinv as [Hwf Hcap Hnxt Hlen Hd (es & Hes & Hok & Hsort & Hafter)].
  pose proof Hwf as [_ Hc Hdl _].
  unfold process_data, seg_len. rewrite Hflags, Hctl, Hdata, length_slice. cbn [Z.eqb negb orb].
  rewrite Z.gtb_ltb. destruct (Z.ltb_spec 0 (Z.of_nat n')).
  2: { exists false, sflags, self, nxt. split_and!; try done. intros Hle. exists es.
    assert (Z.min (q + Z.of_nat n) (base + buffer_length (rbuf self)) <= nxt)
      by (apply Z.le_ngt; intros Hgt; destruct Hprogress; lia).
    rewrite Z.max_l by done.
    destruct (reach_gap nxt es Hafter) as [-> ->]. by split_and!. }
  assert (negb (support_fin_ack self) && negb (bool_decide (shutdown self = SD_NONE)) = false) as ->.
  { destruct Hacc as [-> | ->]; [done|]. rewrite bool_decide_true by done. apply andb_false_r. }
  destruct Hwin as [|[Hq' Hend]]; [lia|]. rewrite Hseq, Hnxt, seq_at_diff by lia.
  destruct (write_segment_ring (rbuf self) base nxt q' n' Hwf Hlen)
    as (b' & -> & Hwf' & Hdl' & Hcap' & Hnew & Hold); [lia..|].
  cbn [mbind Res_bind]. rewrite Z.eqb_refl. cbn [c_assert].
  assert (Forall (entry_ok b' base) es) as Hok'.
  { eapply Forall_impl; [exact Hok|]. intros e (? & ? & ? & ?).
    split_and!; rewrite ?Hcap'; try done. intros; apply Hold; [lia|auto]. }
  destruct (Z.eqb_spec (seq_at q') (seq_at nxt)) as [Heq|Hne].
  - apply seq_at_inj in Heq; [|lia]. subst q'.
    destruct (fifo_consume_write_spec b' (Z.of_nat n') Hwf')
      as (b'' & -> & Hwf'' & Hring & Hdl'' & Hcap''); [lia|].
    cbn [mbind Res_bind]. rewrite seq_at_add.
    match goal with |- context [recover_segments ?l _ _] => change l with (rlist self) end.
    rewrite Hes.
    assert (forall pos, ring_ok b' base pos -> ring_ok b'' base pos) as Hmono
      by (intros pos; unfold ring_ok; by rewrite Hring).
    edestruct (recover_spec es { self with rbuf := b''; rcv_nxt := seq_at (nxt + Z.of_nat n');
        rcv_wnd := u32 (rcv_wnd self - Z.of_nat n') } sflags base (nxt + Z.of_nat n'))
      as (sf & s' & p' & Hrec & Hinv' & Hp & Hbl & Hreach & Hleft); try done; cbn.
    { by rewrite Hcap'', Hcap'. }
    { lia. }
    { intros pos Hpos. apply Hmono. destruct (decide (pos < nxt)); [apply Hold; [lia|apply Hd; lia]|].
      apply Hnew. lia. }
    { eapply Forall_impl; [exact Hok'|]. intros e (? & ? & ? & ?).
      split_and!; rewrite ?Hcap''; auto. }
    rewrite Hrec. cbn [mbind Res_bind].
    exists true, sf, s', p'. split_and!; try done; [lia| |].
    + rewrite Hbl. cbn. congruence.
    + intros. exists es. split_and!; try done. rewrite Hreach. f_equal.
      destruct (decide (nxt < q + Z.of_nat n)); [destruct Hprogress|]; lia.
  - assert (nxt < q') by (destruct (decide (q' = nxt)); [by subst|lia]).
    destruct (insert_rsegment_spec es q' (Z.of_nat n')) as (es' & Hins & Hperm & Hsort'); [|done|].
    { intros e He. rewrite Forall_forall in Hok, Hafter.
      destruct (Hok e He) as (? & ? & ? & _). specialize (Hafter e He). lia. }
    exists false, sflags. eexists _, nxt. split; [reflexivity|].
    split; [|split_and!; [lia|done|]].
    + split; cbn; rewrite ?Hcap'; try done; [lia| |].
      * intros pos Hpos. apply Hold; [lia|by apply Hd].
      * exists es'. rewrite Hes. split_and!; try done.
        { rewrite Hperm. constructor; [|done]. split_and!; cbn; rewrite ?Hcap'; try lia. apply Hnew. }
        { rewrite Hperm. by constructor. }
    + intros. exfalso. destruct (decide (nxt < q + Z.of_nat n)); [destruct Hprogress|]; lia.
Qed.

Lemma read_spec self base nxt n :
  recv_inv self base nxt -> 0 <= n < 2 ^ 62 ->
  let k := Z.min n (nxt - base) in
  exists fifo, pseudo_tcp_fifo_read (rbuf self) n = Ok (slice stream base (Z.to_nat k), fifo) /\
    recv_inv { self with rbuf := fifo } (base + k) nxt.
Proof.
  intros Hinv Hn k. pose proof (recv_inv_data self base nxt Hinv) as Hfd.
  destruct Hinv as [Hwf Hcap Hnxt Hlen Hd (es & Hes & Hok & Hsort & Hafter)].
  pose proof (wf_data _ Hwf) as Hdl.
  destruct (fifo_read_ring (rbuf self) n Hwf) as (b' & -> & Hwf' & Hdl' & Hbl & Hring & _); [lia|].
  rewrite Hlen in *. fold k in Hdl', Hring |- *. rewrite Hfd, take_slice by lia.
  exists b'. split; [done|].
  assert (forall pos, base + k <= pos < base + buffer_length (rbuf self) ->
    ring_ok (rbuf self) base pos -> ring_ok b' (base + k) pos) as Hshift.
  { intros pos Hpos. unfold ring_ok. rewrite Hring by lia. by replace (pos - (base + k) + k) with (pos - base) by lia. }
  split; cbn; rewrite ?Hbl; try done; [lia| |].
  - intros pos Hpos. apply Hshift; [lia|]. apply Hd. lia.
  - exists es. split_and!; try done.
    apply Forall_forall. intros e He. rewrite Forall_forall in Hok, Hafter.
    destruct (Hok e He) as (? & ? & ? & Hr). specialize (Hafter e He).
    split_and!; rewrite ?Hbl; try lia. intros. apply Hshift; [lia|by apply Hr].
Qed.

(** ** Runs *)

(** What happens to the receive side: a segment arrives, the application reads. *)
Inductive recv_op :=
| Deliver (seg : Segment) (sflags : SendFlags)
| Read (n : Z).

Definition recv_do (self : PseudoTcpSocket) (op : recv_op) : Res (list byte * PseudoTcpSocket) :=
  match op with
  | Deliver seg sflags =>
      '(_, _, self) ← process_data self (trim_back self (trim_front self seg)) sflags;
      Ok ([], self)
  | Read n =>
      '(data, fifo) ← pseudo_tcp_fifo_read (rbuf self) n;
      Ok (data, { self with rbuf := fifo })
  end.

(** All the bytes read in a run. *)
Fixpoint recv_run (self : PseudoTcpSocket) (ops : list recv_op) :
    Res (list byte * PseudoTcpSocket) :=
  match ops with
  | [] => Ok ([], self)
  | op :: ops =>
      '(out, self) ← recv_do self op;
      '(outs, self) ← recv_run self ops;
      Ok (out ++ outs, self)
  end.

(** A delivered segment is a piece of the stream, within [2 ^ 30] of the next
    byte expected; [base] counts the bytes read so far. *)
Definition op_valid (self : PseudoTcpSocket) (base : Z) (op : recv_op) : Prop :=
  match op with
  | Deliver seg _ => data_accepted self seg /\
      exists q n, is_segment seg q n /\ near (base + data_length (rbuf self)) q n
  | Read n => 0 <= n < 2 ^ 62
  end.

Fixpoint run_valid (self : PseudoTcpSocket) (base : Z) (ops : list recv_op) : Prop :=
  match ops with
  | [] => True
  | op :: ops => op_valid self base op /\
      match recv_do self op with
      | Ok (out, self) => run_valid self (base + Z.of_nat (length out)) ops
      | Fault _ => True
      end
  end.

(** In-order delivery: from any state of the invariant, whatever segments of the
    peer's stream arrive, in whatever order, repeated or overlapping, and however
    the application's reads are interleaved with them, nothing faults and the
    bytes read are the stream from where reading started, without gap, repetition
    or corruption; the invariant holds again afterwards. *)
Theorem in_order_delivery self base ops :
  recv_inv self base (base + data_length (rbuf self)) -> run_valid self base ops ->
  exists out self', recv_run self ops = Ok (out, self') /\
    out = slice stream base (length out) /\
    let base' := base + Z.of_nat (length out) in
    recv_inv self' base' (base' + data_length (rbuf self')).
Proof.
  induction ops as [|op ops IH] in self, base |- *; cbn zeta; intros Hinv Hvalid.
  { exists [], self. cbn. by rewrite Z.add_0_r. }
  cbn [run_valid recv_run] in *. destruct Hvalid as [Hop Hvalid].
  assert (exists out self', recv_do self op = Ok (out, self') /\ out = slice stream base (length out) /\
    let base' := base + Z.of_nat (length out) in
    recv_inv self' base' (base' + data_length (rbuf self'))) as (out & s' & Hdo & Hout & Hinv').
  { cbn zeta. destruct op as [seg sflags|n]; cbn [recv_do op_valid] in *.
    - destruct Hop as (Hacc & q & m & Hseg & Hnear).
      destruct (receive_spec self seg sflags _ _ q m Hinv Hseg Hnear Hacc)
        as (new & sf & s' & nxt' & -> & Hinv' & _). cbn.
      exists [], s'. split_and!; [done|done|]. rewrite Z.add_0_r.
      pose proof (ri_len _ _ _ Hinv'). by replace (base + data_length (rbuf s')) with nxt' by lia.
    - destruct (read_spec self base _ n Hinv Hop) as (fifo & -> & Hinv'). cbn [mbind Res_bind].
      eexists _, _. split; [reflexivity|]. rewrite length_slice. split; [done|].
      set (s' := { self with rbuf := fifo }) in *. pose proof (ri_len _ _ _ Hinv').
      pose proof (wf_data _ (ri_wf _ _ _ Hinv)). rewrite Z2Nat.id by lia.
      eapply eq_rect; [exact Hinv'|lia]. }
  rewrite Hdo in *. cbn [mbind Res_bind].
  destruct (IH s' _ Hinv' Hvalid) as (outs & s'' & -> & Houts & Hinv''). cbn [mbind Res_bind].
  exists (out ++ outs), s''. split; [done|].
  rewrite length_app, slice_app, <- Hout, <- Houts. split; [done|].
  cbn zeta in *. by rewrite Nat2Z.inj_add, Z.add_assoc.
Qed.

(** C7. Progress: a segment that contains the next expected byte advances the stream to
    exactly where it reaches - the segment's own end, or the end of the buffer, or where
    it was, whichever is right, and on through the out-of-order segments that were kept,
    up to the first gap.  The out-of-order segments that this does not reach are kept as
    they are, the others are gone, and the buffer then holds the stream up to there. *)
Theorem receive_progress self seg sflags base nxt q n :
  recv_inv self base nxt -> is_segment seg q n -> near nxt q n -> data_accepted self seg ->
  q <= nxt ->
  exists new sflags' self' es,
    rlist self = rseg_at <$> es /\ Forall (entry_ok (rbuf self) base) es /\
    process_data self (trim_back self (trim_front self seg)) sflags = Ok (new, sflags', self') /\
    let nxt' := reach (Z.max nxt (Z.min (q + Z.of_nat n) (base + buffer_length (rbuf self)))) es in
    rcv_nxt self' = seq_at nxt' /\
    fifo_data (rbuf self') = slice stream base (Z.to_nat (nxt' - base)) /\
    rlist self' = rseg_at <$> beyond nxt' es.
Proof.
  intros Hinv Hseg Hnear Hacc Hq.
  destruct (receive_spec self seg sflags base nxt q n Hinv Hseg Hnear Hacc)
    as (new & sf & s' & nxt' & Hrun & Hinv' & _ & _ & Hprog).
  destruct (Hprog Hq) as (es & Hes & Hok & -> & Hleft). eexists new, sf, s', es.
  split_and!; [done..|]. cbv zeta. split_and!; [apply Hinv'|by apply recv_inv_data|done].
Qed.
End Recv.

(** ** Witnesses *)

Definition sample_stream (p : Z) : byte := byte.of_Z (p mod 256).

(** A connected socket with an empty buffer, whose sequence numbers are about to wrap. *)
Definition sample_receiver : PseudoTcpSocket :=
  { pseudo_tcp_socket_new (H0 := sample_malloc) 7
      {| PseudoTcpOpened := true; PseudoTcpReadable := true;
         PseudoTcpWritable := true; PseudoTcpClosed := true |}
    with state := TCP_ESTABLISHED; rcv_nxt := u32 (0xFFFFFFFE + 0);
         rbuf := pseudo_tcp_fifo_init (H := sample_malloc) 16;
         sbuf := pseudo_tcp_fifo_init (H := sample_malloc) 16 }.

Definition sample_segment (q : Z) (n : nat) : Segment :=
  {| seg_conv := 7; seg_seq := u32 (0xFFFFFFFE + q); seg_ack := 0; seg_flags := 0; seg_wnd := 0;
     seg_data := slice sample_stream q n; seg_tsval := 0; seg_tsecr := 0 |}.

Lemma sample_receiver_inv : recv_inv sample_stream 0xFFFFFFFE sample_receiver 0 0.
Proof.
  split.
  - by apply (fifo_init_wf (H := sample_malloc)).
  - done.
  - done.
  - done.
  - intros; lia.
  - exists []. split_and!; done || constructor.
Qed.

Lemma sample_segment_ok nxt q n fl :
  Z.abs (q - nxt) < 2 ^ 30 -> Z.of_nat n <= MAX_PACKET ->
  forall self base, base + data_length (rbuf self) = nxt -> support_fin_ack self = true ->
  op_valid sample_stream 0xFFFFFFFE self base (Deliver (sample_segment q n) fl).
Proof.
  intros Hq Hn self base Hb Hf. split; [split; [done|by left]|].
  exists q, n. split; [done|]. by rewrite Hb.
Qed.

(** Five bytes out of order, the gap with an overlap, a read, and a repetition. *)
Definition sample_run : list recv_op :=
  [Deliver (sample_segment 3 5) sfNone; Deliver (sample_segment 0 4) sfNone; Read 6;
   Deliver (sample_segment 2 3) sfNone; Read 10].

Lemma run_valid_cons st isn self base op ops out self' :
  op_valid st isn self base op -> recv_do self op = Ok (out, self') ->
  run_valid st isn self' (base + Z.of_nat (length out)) ops -> run_valid st isn self base (op :: ops).
Proof. intros Hop Hdo Hrest. cbn. by rewrite Hdo. Qed.

Ltac run_step :=
  match goal with |- run_valid _ _ ?s ?b (?op :: _) =>
    let r := eval vm_compute in (recv_do s op) in
    match r with Ok (?out, ?s') =>
      apply (run_valid_cons _ _ s b op _ out s'); [|vm_compute; reflexivity|] end
  end.

Lemma sample_run_valid : run_valid sample_stream 0xFFFFFFFE sample_receiver 0 sample_run.
Proof.
  unfold sample_run.
  run_step; [by apply (sample_segment_ok 0)|]. run_step; [by apply (sample_segment_ok 0)|].
  run_step; [done|]. run_step; [by apply (sample_segment_ok 8)|]. run_step; [done|]. exact I.
Qed.

Lemma in_order_delivery_witness :
  recv_inv sample_stream 0xFFFFFFFE sample_receiver 0 (0 + data_length (rbuf sample_receiver)) /\
  run_valid sample_stream 0xFFFFFFFE sample_receiver 0 sample_run /\
  exists out self', recv_run sample_receiver sample_run = Ok (out, self') /\
    out = slice sample_stream 0 (length out).
Proof.
  split; [exact sample_receiver_inv|]. split; [exact sample_run_valid|].
  destruct (in_order_delivery sample_stream 0xFFFFFFFE sample_receiver 0 sample_run
    sample_receiver_inv sample_run_valid) as (out & s & Hrun & Hout & _).
  exists out, s. split; [exact Hrun|exact Hout].
Defined.

Example sample_run_result :
  fst <$> recv_run sample_receiver sample_run = Ok (slice sample_stream 0 8).
Proof. vm_compute. reflexivity. Qed.

(** The receiver with bytes 3 to 7 waiting for the first three. *)
Definition sample_waiting : PseudoTcpSocket :=
  match process_data sample_receiver
      (trim_back sample_receiver (trim_front sample_receiver (sample_segment 3 5))) sfNone with
  | Ok (_, _, self) => self
  | Fault _ => sample_receiver
  end.

Lemma sample_waiting_inv : recv_inv sample_stream 0xFFFFFFFE sample_waiting 0 0.
Proof.
  destruct (receive_spec sample_stream 0xFFFFFFFE sample_receiver (sample_segment 3 5) sfNone 0 0 3 5
    sample_receiver_inv) as (new & sf & s & nxt & E & Hinv & _); [done|done|split; [done|by left]|].
  assert (s = sample_waiting) as -> by (unfold sample_waiting; by rewrite E).
  pose proof (ri_len _ _ _ _ _ Hinv) as Hlen. replace nxt with 0 in Hinv; [done|].
  change (data_length (rbuf sample_waiting)) with 0 in Hlen. lia.
Qed.

Lemma receive_progress_witness :
  exists new sflags' self' es,
    rlist sample_waiting = rseg_at 0xFFFFFFFE <$> es /\
    Forall (entry_ok sample_stream (rbuf sample_waiting) 0) es /\
    process_data sample_waiting
      (trim_back sample_waiting (trim_front sample_waiting (sample_segment (-2) 6))) sfNone =
        Ok (new, sflags', self') /\
    let nxt' := reach (Z.max 0 (Z.min (-2 + Z.of_nat 6) (0 + buffer_length (rbuf sample_waiting)))) es in
    rcv_nxt self' = seq_at 0xFFFFFFFE nxt' /\
    fifo_data (rbuf self') = slice sample_stream 0 (Z.to_nat (nxt' - 0)) /\
    rlist self' = rseg_at 0xFFFFFFFE <$> beyond nxt' es.
Proof.
  apply (receive_progress sample_stream 0xFFFFFFFE sample_waiting (sample_segment (-2) 6) sfNone
    0 0 (-2) 6 sample_waiting_inv); [done|done| |done].
  split; [done|by left].
Defined.

(** It then has the first eight bytes, and nothing waits any more. *)
Example gap_closed :
  exists new sf self', process_data sample_waiting
    (trim_back sample_waiting (trim_front sample_waiting (sample_segment (-2) 6))) sfNone = Ok (new, sf, self') /\
    rlist sample_waiting = [rseg_at 0xFFFFFFFE (3, 5)] /\ rlist self' = [] /\
    fifo_data (rbuf self') = slice sample_stream 0 8.
Proof. eexists _, _, _. split; [vm_compute; reflexivity|]. split_and!; vm_compute; reflexivity. Qed.
