(* ===== verification/PseudoTcpSend.v ===== *)
(** * What the engine sends

    The sending side of [PseudoTcp] against the bytes that the application wrote: the
    buffer and the two queues of segments always cover what was not acknowledged yet,
    and every packet that leaves carries bytes of the stream at their position,
    whatever is acknowledged, timed out, retransmitted or cut, and whatever the network
    answers to a write.  No operation of a connected socket faults, and every loop
    ends. *)

From S2P Require Import Prelude Fifo SeqArith PseudoTcp PseudoTcpProps PseudoTcpRecv.

(** ** Pieces of a stream *)

(** A stream is the connect message followed by what the application wrote. *)
Definition opening : list byte := byte.of_Z <$> [CTL_CONNECT; TCP_OPT_WND_SCALE; 1; 0; TCP_OPT_FIN_ACK; 1; 0].
Definition OPENING : Z := 7.

(** Streams are shorter than this, so sequence numbers are positions. *)
Definition STREAM_MAX : Z := 2 ^ 30.

Definition zlen {A} (l : list A) : Z := Z.of_nat (length l).

(** What a segment may hold: the connect message, a reset, or the bytes of the stream at
    its sequence number. *)
Record piece (sent : list byte) (seg : Segment) : Prop := {
  pc_seq : 0 <= seg_seq seg < STREAM_MAX;
  pc_len : seg_len seg <= MAX_PACKET;
  pc_ack : is_u32 (seg_ack seg);
  pc_kind :
    seg_flags seg = FLAG_CTL /\ seg_seq seg = 0 /\ seg_data seg = opening \/
    seg_flags seg = FLAG_RST /\ seg_data seg = [] \/
    seg_flags seg = FLAG_NONE /\ seg_data seg `prefix_of` drop (Z.to_nat (seg_seq seg)) sent /\
      (seg_data seg = [] \/ OPENING <= seg_seq seg)
}.

Definition segment_of (bytes : list byte) : Segment :=
  parse_header (take (Z.to_nat HEADER_SIZE) bytes) (drop (Z.to_nat HEADER_SIZE) bytes).

(** How large segments can get: [mss_max] bytes of data, which no level above [level_min]
    exceeds. *)
Class MssBound := {
  mss_max : Z;
  level_min : Z;
  mss_max_fits : 180 <= mss_max <= 65419;
  level_min_fits : 0 <= level_min <= 9;
  level_mss l nx : level_min < l <= 9 -> PACKET_MAXIMUMS !! Z.to_nat l = Some nx -> nx - PACKET_OVERHEAD <= mss_max
}.

Section Bounded.
Context `{MB : !MssBound}.

Definition packet_ok (sent bytes : list byte) : Prop :=
  HEADER_SIZE <= zlen bytes <= HEADER_SIZE + mss_max /\ piece sent (segment_of bytes).

Definition event_ok (sent : list byte) (e : event) : Prop :=
  match e with EvPacket bytes _ => packet_ok sent bytes | _ => True end.

Lemma prefix_drop_app {A} (d l m : list A) n : d `prefix_of` drop n l -> d `prefix_of` drop n (l ++ m).
Proof. intros H. rewrite drop_app. by apply prefix_app_r. Qed.

Lemma piece_app sent more seg : piece sent seg -> piece (sent ++ more) seg.
Proof.
  intros [Hs Hl Ha Hk]. split; [done..|].
  destruct Hk as [Hk|[Hk|(Hf & Hp & Hq)]]; [by left|by right; left|right; right].
  split_and!; [done|by apply prefix_drop_app|done].
Qed.

Lemma event_ok_app sent more e : event_ok sent e -> event_ok (sent ++ more) e.
Proof. destruct e; [|done..]. intros [? ?]. split; [done|by apply piece_app]. Qed.

(** ** The queues *)

(** A segment holds bytes of the stream, or is a reset. *)
Definition kind_ok (s : SSegment) : Prop :=
  0 <= sseg_len s /\ (sseg_flags s = FLAG_NONE \/ sseg_flags s = FLAG_RST /\ sseg_len s = 0).

(** [ids] are segments one after the other from position [p] to [e]. *)
Fixpoint chain (h : gmap nat SSegment) (xmit : Z -> Prop) (ids : list nat) (p e : Z) : Prop :=
  match ids with
  | [] => p = e
  | id :: ids => exists s, h !! id = Some s /\ sseg_seq s = p /\ kind_ok s /\ xmit (sseg_xmit s) /\
      chain h xmit ids (p + sseg_len s) e
  end.

Definition was_sent (x : Z) : Prop := 0 < x <= 30.
Definition unsent_yet (x : Z) : Prop := x = 0.

Lemma chain_le h xmit ids p e : chain h xmit ids p e -> p <= e.
Proof.
  induction ids as [|id ids IH] in p |- *; cbn; [lia|].
  intros (s & _ & _ & [? _] & _ & Hc). specialize (IH _ Hc). lia.
Qed.

Lemma chain_app h xmit a b p e :
  chain h xmit (a ++ b) p e <-> exists m, chain h xmit a p m /\ chain h xmit b m e.
Proof.
  induction a as [|id a IH] in p |- *; cbn.
  - split; [by exists p|]. by intros (? & <- & ?).
  - setoid_rewrite IH. split.
    + intros (s & ? & ? & ? & ? & m & ? & ?). exists m. split; [|done]. by exists s.
    + intros (m & (s & ? & ? & ? & ? & ?) & ?). exists s. split_and!; try done. by exists m.
Qed.

Lemma chain_insert h xmit ids p e id s : id ∉ ids -> chain h xmit ids p e -> chain (<[id:=s]> h) xmit ids p e.
Proof.
  induction ids as [|x ids IH] in p |- *; cbn; [done|].
  intros [Hne Hni]%not_elem_of_cons (t & ? & ? & ? & ? & H). exists t.
  rewrite lookup_insert_ne by done. split_and!; try done. by apply IH.
Qed.

Lemma chain_delete h xmit ids p e id : id ∉ ids -> chain h xmit ids p e -> chain (delete id h) xmit ids p e.
Proof.
  induction ids as [|x ids IH] in p |- *; cbn; [done|].
  intros [Hne Hni]%not_elem_of_cons (t & ? & ? & ? & ? & H). exists t.
  rewrite lookup_delete_ne by done. split_and!; try done. by apply IH.
Qed.

Lemma chain_at h xmit id ids p e :
  chain h xmit (id :: ids) p e ->
  exists s, h !! id = Some s /\ sseg_seq s = p /\ kind_ok s /\ xmit (sseg_xmit s) /\
    chain h xmit ids (p + sseg_len s) e.
Proof. done. Qed.

Lemma chain_one h xmit id p s :
  h !! id = Some s -> sseg_seq s = p -> kind_ok s -> xmit (sseg_xmit s) ->
  chain h xmit [id] p (p + sseg_len s).
Proof. intros. by exists s. Qed.

#[local] Arguments insert_after : simpl never.

Lemma insert_after_spec a id b x : id ∉ a -> insert_after (a ++ id :: b) id x = a ++ id :: x :: b.
Proof.
  intros Ha. unfold insert_after. enough (insert_after_link (a ++ id :: b) id x = Some (a ++ id :: x :: b)) as -> by done.
  induction a as [|y a IH]; cbn.
  - by rewrite Nat.eqb_refl.
  - apply not_elem_of_cons in Ha as [Hne Ha]. rewrite (proj2 (Nat.eqb_neq _ _)) by congruence.
    by rewrite IH.
Qed.

(** ** The invariant *)

(** [una] bytes were acknowledged, [nxt] sent. *)
Record send_inv (sent : list byte) (una nxt : Z) (self : PseudoTcpSocket) : Prop := {
  sv_wf : fifo_wf (sbuf self);
  sv_cap : buffer_length (sbuf self) <= 1024 * 1024 * 64;
  sv_pos : OPENING <= una <= nxt /\ nxt <= zlen sent < STREAM_MAX;
  sv_una : snd_una self = una;
  sv_nxt : snd_nxt self = nxt;
  sv_data : fifo_data (sbuf self) = drop (Z.to_nat una) sent;
  sv_queue : exists before, slist self = before ++ unsent_slist self /\
      chain (segs self) was_sent before una nxt /\
      chain (segs self) unsent_yet (unsent_slist self) nxt (zlen sent) /\
      (rto_base self <> 0 -> before <> []);
  sv_nodup : NoDup (slist self);
  sv_fresh : Forall (fun id => (id < next_seg self)%nat) (slist self);
  sv_mss : 180 <= mss self <= mss_max;
  sv_level : level_min <= msslevel self <= 9;
  sv_thresh : 0 < ssthresh self;
  sv_recover : 0 <= recover self <= nxt;
  sv_trace : Forall (event_ok sent) (trace self)
}.

(** What it is about. *)
Definition send_core (self : PseudoTcpSocket) :=
  (sbuf self, snd_una self, snd_nxt self, slist self, unsent_slist self, segs self, next_seg self,
   (rto_base self, ssthresh self, recover self)).
Definition send_side (self : PseudoTcpSocket) := (send_core self, mss self, msslevel self).

Definition mss_ok (self : PseudoTcpSocket) : Prop := 180 <= mss self <= mss_max /\ level_min <= msslevel self <= 9.

Lemma send_inv_core sent una nxt self self' :
  send_core self' = send_core self -> mss_ok self' -> Forall (event_ok sent) (trace self') ->
  send_inv sent una nxt self -> send_inv sent una nxt self'.
Proof.
  unfold send_core. intros [= E1 E2 E3 E4 E5 E6 E7 E8 E9 E10] [] Ht [].
  split; by rewrite ?E1, ?E2, ?E3, ?E4, ?E5, ?E6, ?E7, ?E8, ?E9, ?E10.
Qed.

Lemma send_inv_mss sent una nxt self : send_inv sent una nxt self -> mss_ok self.
Proof. by intros []. Qed.

Lemma send_inv_ext sent una nxt self self' :
  send_side self' = send_side self -> Forall (event_ok sent) (trace self') ->
  send_inv sent una nxt self -> send_inv sent una nxt self'.
Proof.
  unfold send_side. intros E Ht Hinv. pose proof (send_inv_mss _ _ _ _ Hinv) as Hm.
  apply pair_equal_spec in E as [[E Em]%pair_equal_spec El].
  eapply send_inv_core; [done|unfold mss_ok; by rewrite Em, El|done|done].
Qed.

(** What sending leaves alone: the receiving side and what was agreed on. *)
Definition recv_side (self : PseudoTcpSocket) :=
  (rbuf self, rcv_nxt self, rlist self, rwnd_scale self, swnd_scale self, support_fin_ack self,
   shutdown self, rcv_fin self, (conv self, callbacks self, rcv_wnd self, rbuf_len self, shutdown_reads self)).

Lemma length_fifo_sent sent una nxt self :
  send_inv sent una nxt self -> data_length (sbuf self) = zlen sent - una.
Proof.
  intros [Hwf _ Hpos _ _ Hd]. pose proof (length_fifo_data _ Hwf) as <-. rewrite Hd, length_drop.
  unfold zlen, OPENING in *. lia.
Qed.

(** Nothing of a socket that is open, or was reset, can be of an unexpected kind. *)
Record live (self : PseudoTcpSocket) : Prop := {
  lv_state : state self = TCP_ESTABLISHED \/ state self = TCP_CLOSED;
  lv_fin_ack : support_fin_ack self = true;
  lv_shutdown : shutdown self = SD_NONE;
  lv_rscale : rwnd_scale self = 0;
  lv_sscale : swnd_scale self = 0;
  lv_rcv_fin : rcv_fin self = 0;
  lv_reads : shutdown_reads self = true -> state self = TCP_CLOSED
}.

(** A step of the sending side: it keeps the invariant, the receiving side, and can at
    most close the socket. *)
Definition sender (sent : list byte) (self : PseudoTcpSocket) : Prop := exists una nxt, send_inv sent una nxt self.

Record sends (sent : list byte) (self self' : PseudoTcpSocket) : Prop := {
  ss_sender : sender sent self';
  ss_recv : recv_side self' = recv_side self;
  ss_state : state self' = state self \/ state self' = TCP_CLOSED
}.

Lemma sends_refl sent self : sender sent self -> sends sent self self.
Proof. intros. split; auto. Qed.

Lemma sends_trans sent s1 s2 s3 : sends sent s1 s2 -> sends sent s2 s3 -> sends sent s1 s3.
Proof.
  intros [_ R1 S1] [H2 R2 S2]. split; [done|congruence|].
  destruct S1 as [S1|S1], S2 as [S2|S2]; rewrite S2; auto.
Qed.

Lemma live_sends sent s s' : live s -> sends sent s s' -> live s'.
Proof.
  intros [] [_ R S]. unfold recv_side in R. simplify_eq.
  split; try congruence; destruct S as [E | E]; rewrite E; auto.
  intros ?. apply lv_reads0. congruence.
Qed.

(** Fields that no invariant is about. *)
Lemma sends_ext sent self self' :
  send_side self' = send_side self -> recv_side self' = recv_side self ->
  Forall (event_ok sent) (trace self') ->
  state self' = state self \/ state self' = TCP_CLOSED -> sender sent self -> sends sent self self'.
Proof. intros Hs Hr Ht Hst (una & nxt & H). split; [|done|done]. exists una, nxt. by eapply send_inv_ext. Qed.

Section Sending.
Context `{!PseudoTcpEnv, !Malloc}.

(** ** Packets *)

Lemma piece_of_data sent una nxt self seq len :
  send_inv sent una nxt self -> una <= seq -> 0 <= len -> seq + len <= zlen sent ->
  let d := take (Z.to_nat len) (drop (Z.to_nat (seq - una)) (fifo_data (sbuf self))) in
  d `prefix_of` drop (Z.to_nat seq) sent /\ zlen d = len.
Proof.
  intros [_ _ Hpos _ _ -> _ _ _ _ _ _ _ _] Hu Hl Hend d. unfold OPENING, zlen in *. subst d. rewrite drop_drop.
  replace (Z.to_nat una + Z.to_nat (seq - una))%nat with (Z.to_nat seq) by lia. split.
  - exists (drop (Z.to_nat len) (drop (Z.to_nat seq) sent)). by rewrite take_drop.
  - rewrite length_take, length_drop. lia.
Qed.

Definition packet_result (self : PseudoTcpSocket) (r : PseudoTcpWriteResult * PseudoTcpSocket) sent : Prop :=
  send_side r.2 = send_side self /\ recv_side r.2 = recv_side self /\ state r.2 = state self /\
  Forall (event_ok sent) (trace r.2).

Lemma packet_spec sent una nxt self seq flags offset len now :
  send_inv sent una nxt self -> rwnd_scale self = 0 -> 0 <= len <= mss_max -> 0 <= seq < STREAM_MAX ->
  flags = FLAG_NONE \/ flags = FLAG_RST /\ len = 0 ->
  (len <> 0 -> offset = seq - una /\ una <= seq /\ seq + len <= zlen sent) ->
  exists r, packet self seq flags offset len now = Ok r /\ packet_result self r sent.
Proof.
  intros Hinv Hscale Hlen Hseq Hflags Hdata. pose proof mss_max_fits. unfold packet, STREAM_MAX in *.
  rewrite u32_small by (unfold HEADER_SIZE; lia).
  rewrite (proj2 (Z.leb_le _ _)) by (unfold HEADER_SIZE, MAX_PACKET; lia). cbn [c_assert mbind Res_bind].
  rewrite Hscale. unfold shr32 at 1. cbn [Z.ltb Z.compare]. cbn [mbind Res_bind].
  set (wnd := u16 _). set (h := packet_header self seq flags now wnd).
  destruct (packet_header_roundtrip self seq flags now wnd []) as [Hh _]. fold h in Hh.
  assert (exists payload, (if negb (len =? 0) then
      bs ← pseudo_tcp_fifo_read_offset (sbuf self) len offset;
      c_assert (Z.of_nat (length bs) =? len);; Ok bs else Ok []) = Ok payload /\
      zlen payload = len /\ payload `prefix_of` drop (Z.to_nat seq) sent /\
      (payload = [] \/ OPENING <= seq)) as (payload & Hread & Hpl & Hpre & Hop).
  { destruct (Z.eqb_spec len 0) as [->|Hne]; cbn [negb].
    { exists []. split_and!; [done|done|apply prefix_nil|by left]. }
    destruct (Hdata Hne) as (-> & Hu & Hend).
    destruct (piece_of_data sent una nxt self seq len Hinv) as [Hp Hl]; [lia..|].
    pose proof (length_fifo_sent _ _ _ _ Hinv). pose proof (wf_data _ (sv_wf _ _ _ _ Hinv)).
    pose proof (sv_pos _ _ _ _ Hinv).
    rewrite fifo_read_offset_spec by (first [apply Hinv|lia]). cbn [mbind Res_bind].
    unfold zlen in Hl. rewrite Hl, Z.eqb_refl. cbn [c_assert mbind Res_bind].
    eexists; split_and!; [reflexivity|done|done|right; lia]. }
  change (sbuf { self with ts_lastack := rcv_nxt self }) with (sbuf self). rewrite Hread. cbn [mbind Res_bind].
  change (trace { self with ts_lastack := rcv_nxt self }) with (trace self).
  assert (forall w, Forall (event_ok sent) (EvPacket (h ++ payload) w :: trace self)) as Hev.
  { intros w. constructor; [|apply Hinv]. cbn. unfold packet_ok, segment_of, zlen. rewrite length_app. unfold zlen, HEADER_SIZE, MAX_PACKET in *.
    split; [lia|]. rewrite take_app_length', drop_app_length' by lia.
    destruct (packet_header_roundtrip self seq flags now wnd payload) as [_ E]. fold h in E. rewrite E.
    split; unfold seg_len; cbn; [by rewrite u32_small by lia|unfold MAX_PACKET; lia|apply uwrap_range; lia|].
    rewrite (u32_small seq) by lia.
    right. destruct Hflags as [-> | [-> ->]]; [right|left].
    - split_and!; [done..|]. exact Hop.
    - split; [done|]. apply nil_length_inv. lia. }
  match goal with |- context [if negb (bool_decide ?c) && ?d then _ else _] =>
    destruct (negb (bool_decide c) && d) end; eexists; (split; [reflexivity|]); unfold packet_result; cbn [fst snd].
  - split_and!; [done..|apply Hev].
  - destruct (len >? 0); (split_and!; [done..|apply Hev]).
Qed.

(** ** Segments *)

(** A write of a segment: nothing but the segment size and what no invariant is about. *)
Record wrote (sent : list byte) (self self' : PseudoTcpSocket) : Prop := {
  wr_core : send_core self' = send_core self;
  wr_recv : recv_side self' = recv_side self;
  wr_state : state self' = state self;
  wr_mss : mss_ok self';
  wr_trace : Forall (event_ok sent) (trace self')
}.

Lemma wrote_inv sent una nxt self self' : wrote sent self self' -> send_inv sent una nxt self -> send_inv sent una nxt self'.
Proof. intros []. by apply send_inv_core. Qed.

Lemma wrote_trans sent s1 s2 s3 : wrote sent s1 s2 -> wrote sent s2 s3 -> wrote sent s1 s3.
Proof. intros [] []. split; congruence || done. Qed.

Lemma packet_wrote sent una nxt self r : send_inv sent una nxt self -> packet_result self r sent -> wrote sent self r.2.
Proof.
  intros Hinv (Hs & Hr & Hst & Ht). pose proof (send_inv_mss _ _ _ _ Hinv) as Hm. unfold send_side in Hs.
  apply pair_equal_spec in Hs as [[E Em]%pair_equal_spec El].
  split; try done. unfold mss_ok. by rewrite Em, El.
Qed.

Lemma lower_mss_spec fuel self n :
  mss_ok self -> 11 <= Z.of_nat fuel + msslevel self ->
  exists m self', lower_mss fuel self n = Ok (m, self') /\
    send_core self' = send_core self /\ recv_side self' = recv_side self /\ state self' = state self /\
    trace self' = trace self /\ mss_ok self' /\
    match m with Some m => 180 <= m < n /\ msslevel self < msslevel self' | None => True end.
Proof.
  induction fuel as [|fuel IH] in self |- *; intros [Hm Hl] Hf;
    pose proof level_min_fits; [lia|]. cbn [lower_mss].
  assert (exists nx, PACKET_MAXIMUMS !! Z.to_nat (msslevel self + 1) = Some nx /\
    (nx = 0 \/ 296 <= nx <= 65535 /\ msslevel self + 1 <= 9)) as (nx & Enx & Hnx).
  { assert (msslevel self = 0 \/ msslevel self = 1 \/ msslevel self = 2 \/ msslevel self = 3 \/ msslevel self = 4 \/
      msslevel self = 5 \/ msslevel self = 6 \/ msslevel self = 7 \/ msslevel self = 8 \/ msslevel self = 9) as Hcases by lia.
    destruct_or! Hcases; rewrite Hcases; eexists; (split; [reflexivity|]); lia. }
  rewrite Enx. cbn [deref mbind Res_bind]. destruct (Z.eqb_spec nx 0) as [->|Hne].
  { exists None, self. by split_and!. }
  destruct Hnx as [?|[Hnx Hl']]; [done|].
  assert (nx - 116 <= mss_max) as Hmax by (apply (level_mss (msslevel self + 1)); [lia|done]).
  change PACKET_OVERHEAD with 116. rewrite !u32_small by lia.
  set (s := { self with msslevel := _; mss := _; cwnd := _ }).
  assert (mss_ok s) as Hs by (unfold mss_ok; cbn; lia).
  destruct (Z.ltb_spec (nx - 116) n).
  - exists (Some (nx - 116)), s. split_and!; try done; cbn; lia.
  - destruct (IH s Hs) as (m & s' & -> & Hc & Hr & Hst & Ht & Hm' & Hk); [cbn; lia|].
    exists m, s'. split_and!; try done. destruct m; [|done]. cbn in Hk. lia.
Qed.

(** The queue of the socket has segment [id] at position [p]. *)
Lemma write_segment_spec sent una nxt fuel self id s n now :
  send_inv sent una nxt self -> rwnd_scale self = 0 -> segs self !! id = Some s -> kind_ok s ->
  una <= sseg_seq s -> sseg_seq s + sseg_len s <= zlen sent -> 0 <= n <= sseg_len s -> n <= mss_max ->
  11 <= Z.of_nat fuel + msslevel self ->
  exists status n' self', write_segment fuel self id n now = Ok (status, n', self') /\
    wrote sent self self' /\ 0 <= n' <= n /\ (n' = n \/ 180 <= n').
Proof.
  induction fuel as [|fuel IH] in self, n |- *; intros Hinv Hscale Hs [Hl Hk] Hu Hend Hn Hmax Hf; pose proof level_min_fits; pose proof mss_max_fits.
  { pose proof (sv_level _ _ _ _ Hinv). lia. }
  cbn [write_segment]. unfold get_seg. rewrite Hs. cbn [mbind Res_bind].
  pose proof (sv_pos _ _ _ _ Hinv) as Hpos. unfold STREAM_MAX, OPENING in *.
  rewrite (sv_una _ _ _ _ Hinv), u32_small by lia.
  rewrite (proj2 (Z.leb_le _ _)); [cbn [c_assert mbind Res_bind]|].
  2: { pose proof (length_fifo_sent _ _ _ _ Hinv). pose proof (wf_data _ (sv_wf _ _ _ _ Hinv)).
       pose proof (sv_cap _ _ _ _ Hinv). lia. }
  assert (u8 (sseg_flags s) = sseg_flags s) as -> by (by destruct Hk as [-> | [-> _]]).
  destruct (packet_spec sent una nxt self (sseg_seq s) (sseg_flags s) (sseg_seq s - una) n now Hinv Hscale)
    as ([wres s1] & -> & Hpk); [lia|unfold STREAM_MAX; lia| |lia|].
  { destruct Hk as [?|[? ?]]; [by left|right]. split; [done|lia]. }
  cbn [mbind Res_bind]. pose proof (packet_wrote _ _ _ _ _ Hinv Hpk) as Hw. cbn [snd] in Hw.
  destruct Hpk as (Hss & Hrs & Hst & Ht). cbn [snd] in *.
  destruct wres; [by exists 0, n, s1; auto with lia| |by exists ECONNABORTED, n, s1; auto with lia].
  destruct (lower_mss_spec 11 s1 n) as (m & s2 & -> & Hc & Hr & Hst2 & Ht2 & Hm & Hk2);
    [apply Hw|destruct (wr_mss _ _ _ Hw); lia|].
  cbn [mbind Res_bind].
  assert (wrote sent s1 s2) as Hw2 by (split; [done..|by rewrite Ht2]).
  pose proof (wrote_trans _ _ _ _ Hw Hw2) as Hw'.
  destruct m as [m|]; [|exists EMSGSIZE, n, s2; auto with lia].
  assert (segs s2 = segs self /\ rwnd_scale s2 = rwnd_scale self) as [Esg Erw].
  { destruct Hw' as [E E' _ _ _]. unfold send_core, recv_side in *. simplify_eq. done. }
  assert (msslevel s1 = msslevel self) as El by (unfold send_side in Hss; by simplify_eq).
  destruct (IH s2 m) as (status & n' & s3 & -> & Hw3 & Hn' & Hor);
    [by eapply wrote_inv|congruence|by rewrite Esg|by split|lia..|].
  exists status, n', s3. split_and!; [done|by eapply wrote_trans|lia..].
Qed.

(** Cutting a segment keeps a chain. *)
Lemma chain_split h xmit a id b p e s n sub xm :
  NoDup (a ++ id :: b) -> sub ∉ a ++ id :: b -> h !! id = Some s -> 0 < n < sseg_len s -> xmit xm ->
  chain h xmit (a ++ id :: b) p e ->
  chain (<[id := { s with sseg_len := n }]> (<[sub := {| sseg_seq := sseg_seq s + n;
    sseg_len := sseg_len s - n; sseg_flags := sseg_flags s; sseg_xmit := xm |}]> h))
    xmit (a ++ id :: sub :: b) p e.
Proof.
  intros Hnd Hsub Hid Hn Hxm (m & Ha & (s' & Hs' & Hp & [Hl Hk] & Hx & Hb))%chain_app.
  rewrite Hid in Hs'. injection Hs' as <-.
  apply NoDup_app in Hnd as (_ & Hdis & [Hidb _]%NoDup_cons).
  apply not_elem_of_app in Hsub as [Hsa [Hsi Hsb]%not_elem_of_cons].
  assert (id ∉ a) as Hida by (intros Hin; apply (Hdis id Hin); set_solver).
  assert (sseg_flags s = FLAG_NONE) as Hf by (destruct Hk as [?|[_ ?]]; [done|lia]).
  apply chain_app. exists m. split; [by repeat (apply chain_insert; [done|])|].
  exists { s with sseg_len := n }. rewrite lookup_insert_eq. cbn.
  split_and!; [done|done|split; cbn; [lia|by left]|done|].
  eexists. rewrite lookup_insert_ne, lookup_insert_eq by done.
  split_and!; [reflexivity|cbn; lia|split; cbn; [lia|by left]|done|].
  cbn. replace (m + n + (sseg_len s - n)) with (m + sseg_len s) by lia. by repeat (apply chain_insert; [done|]).
Qed.

Lemma chain_in h xmit ids p e id : chain h xmit ids p e -> id ∈ ids ->
  exists s, h !! id = Some s /\ kind_ok s /\ xmit (sseg_xmit s) /\ p <= sseg_seq s /\ sseg_seq s + sseg_len s <= e.
Proof.
  intros Hc Hin. apply list_elem_of_split in Hin as (a & b & ->).
  apply chain_app in Hc as (m & Ha & (s & Hs & Hp & Hk & Hx & Hb)).
  exists s. apply chain_le in Ha, Hb. split_and!; try done; lia.
Qed.

(** The parts of the queue by the state of a segment. *)
Lemma queue_parts sent una nxt self id s :
  send_inv sent una nxt self -> id ∈ slist self -> segs self !! id = Some s ->
  kind_ok s /\ una <= sseg_seq s /\ sseg_seq s + sseg_len s <= zlen sent /\ 0 <= sseg_xmit s <= 30 /\
  if sseg_xmit s =? 0 then id ∈ unsent_slist self else id ∉ unsent_slist self.
Proof.
  intros [_ _ Hpos _ _ _ (before & Hsl & Hb & Hu & _) Hnd _ _ _ _ _ _] Hin Hs. rewrite Hsl in Hin, Hnd.
  apply NoDup_app in Hnd as (_ & Hdis & _).
  pose proof (chain_le _ _ _ _ _ Hb). pose proof (chain_le _ _ _ _ _ Hu).
  apply elem_of_app in Hin as [Hin|Hin].
  - destruct (chain_in _ _ _ _ _ _ Hb Hin) as (s' & Hs' & Hk & Hx & ? & ?). rewrite Hs in Hs'. injection Hs' as <-.
    unfold was_sent in Hx. destruct (Z.eqb_spec (sseg_xmit s) 0); [lia|]. split_and!; try lia || done. by apply Hdis.
  - destruct (chain_in _ _ _ _ _ _ Hu Hin) as (s' & Hs' & Hk & Hx & ? & ?). rewrite Hs in Hs'. injection Hs' as <-.
    unfold unsent_yet in Hx. rewrite Hx. split_and!; try lia || done.
Qed.

(** What is left to send, with one for each segment. *)
Definition size_of (h : gmap nat SSegment) (ids : list nat) : Z :=
  foldr (fun id n => n + 1 + match h !! id with Some s => sseg_len s | None => 0 end) 0 ids.

Lemma unsent_size_of self : unsent_size self = size_of (segs self) (unsent_slist self).
Proof. done. Qed.

Lemma size_of_insert h ids id s : id ∉ ids -> size_of (<[id:=s]> h) ids = size_of h ids.
Proof.
  unfold size_of. induction ids as [|x ids IH]; cbn [foldr]; [done|]. intros [Hne Hni]%not_elem_of_cons.
  by rewrite IH, lookup_insert_ne.
Qed.

Lemma size_of_nonneg h xmit ids p e : chain h xmit ids p e -> 0 <= size_of h ids.
Proof.
  unfold size_of. induction ids as [|x ids IH] in p |- *; cbn [foldr chain]; [lia|].
  intros (s & -> & _ & [Hl _] & _ & Hc).
  specialize (IH _ Hc). lia.
Qed.

Lemma size_of_cons h id ids s : h !! id = Some s -> size_of h (id :: ids) = size_of h ids + 1 + sseg_len s.
Proof. intros E. unfold size_of. cbn [foldr]. by rewrite E. Qed.

#[local] Arguments size_of : simpl never.

(** ** Cutting a segment of the queue *)

Lemma split_spec sent una nxt self id s n :
  send_inv sent una nxt self -> id ∈ slist self -> segs self !! id = Some s -> 0 < n < sseg_len s ->
  let self' := split_segment self id s n (sseg_xmit s) (sseg_xmit s =? 0) in
  send_inv sent una nxt self' /\ recv_side self' = recv_side self /\ state self' = state self /\
  mss self' = mss self /\ segs self' !! id = Some { s with sseg_len := n } /\ id ∈ slist self' /\
  (sseg_xmit s = 0 -> head (unsent_slist self) = Some id ->
     head (unsent_slist self') = Some id /\ unsent_size self' = unsent_size self + 1).
Proof.
  intros Hinv Hin Hs Hn self'.
  destruct (queue_parts _ _ _ _ _ _ Hinv Hin Hs) as ([Hl Hk] & Hu & Hend & Hx & Hpart).
  destruct Hinv as [Hwf Hcap Hpos Huna Hnxt Hdata (before & Hsl & Hb & Hc & Hrto) Hnd Hfr Hm Hlv Hth Hrec Htr].
  set (sub := next_seg self) in *. unfold STREAM_MAX, OPENING in Hpos.
  assert (sub ∉ slist self) as Hsub.
  { intros Hi. rewrite Forall_forall in Hfr. specialize (Hfr _ Hi). cbn in Hfr. unfold sub in Hfr. lia. }
  assert (id <> sub) as Hne by (intros ->; done).
  assert (forall a b, slist self = a ++ id :: b -> insert_after (slist self) id sub = a ++ id :: sub :: b /\
    NoDup (a ++ id :: sub :: b) /\ Forall (fun i => (i < S sub)%nat) (a ++ id :: sub :: b)) as Hins.
  { intros a b E. rewrite E in *. split; [|split].
    - apply insert_after_spec. apply NoDup_app in Hnd as (_ & Hd & _). intros Hi. apply (Hd _ Hi). set_solver.
    - assert (a ++ id :: sub :: b ≡ₚ sub :: a ++ id :: b) as ->; [|by constructor].
      change (a ++ id :: b) with (a ++ [id] ++ b). change (a ++ id :: sub :: b) with (a ++ [id] ++ sub :: b).
      by rewrite !app_assoc, Permutation_middle.
    - apply Forall_app in Hfr as [Hf1 [Hf2 Hf3]%Forall_cons]. fold sub in Hf1, Hf2, Hf3.
      apply Forall_app; split; [eapply Forall_impl; [exact Hf1|]; cbn; lia|].
      constructor; [lia|]. constructor; [lia|]. eapply Forall_impl; [exact Hf3|]; cbn; lia. }
  assert (u32 (sseg_seq s + n) = sseg_seq s + n /\ u32 (sseg_len s - n) = sseg_len s - n) as [E1 E2]
    by (split; apply u32_small; lia).
  pose proof (fun a b p e (x : Z -> Prop) => chain_split (segs self) x a id b p e s n sub (sseg_xmit s)) as Hcut.
  unfold self', split_segment, new_seg, set_seg. fold sub. rewrite E1, E2. cbn zeta iota beta.
  destruct (Z.eqb_spec (sseg_xmit s) 0) as [Hx0|Hx0].
  - apply list_elem_of_split in Hpart as (a & b & Eu).
    destruct (Hins (before ++ a) b) as (Ei & Hnd' & Hfr').
    { rewrite Hsl, Eu. by rewrite <- app_assoc. }
    assert (slist self = (before ++ a) ++ id :: b) as Esl by (rewrite Hsl, Eu; by rewrite <- app_assoc).
    assert (insert_after (unsent_slist self) id sub = a ++ id :: sub :: b) as Ei2.
    { rewrite Eu. apply insert_after_spec. intros Hi. rewrite Esl in Hnd.
      apply NoDup_app in Hnd as (_ & Hd & _). apply (Hd id); set_solver. }
    assert (NoDup (before ++ a ++ id :: b) /\ sub ∉ before ++ a ++ id :: b) as [Hnd2 Hsub2] by (by rewrite Hsl, Eu in Hnd, Hsub).
    pose proof Hnd2 as (_ & Hdb & Hnd3)%NoDup_app. pose proof Hsub2 as [Hsub3 Hsub4]%not_elem_of_app.
    split; [|split_and!; try done].
    + split; try done; cbn; rewrite ?Ei, ?Ei2; try done.
      exists before. split; [by rewrite <- app_assoc|]. split_and!; [| |done].
      * apply chain_insert; [|by apply chain_insert]. intros Hi. apply (Hdb id Hi). set_solver.
      * rewrite Eu in Hc. by apply Hcut.
    + cbn. by rewrite lookup_insert_eq.
    + cbn. rewrite Ei. set_solver.
    + intros _ Hh. rewrite !unsent_size_of. cbn. rewrite Ei2, Eu in *. destruct a as [|y a]; cbn in Hh.
      * split; [done|]. cbn in Hnd3, Hsub4 |- *. apply NoDup_cons in Hnd3 as [Hnd3 _]. apply not_elem_of_cons in Hsub4 as [_ Hsub4].
        rewrite (size_of_cons _ id _ { s with sseg_len := n }) by apply lookup_insert_eq.
        erewrite (size_of_cons _ sub) by (by rewrite lookup_insert_ne, lookup_insert_eq).
        rewrite !size_of_insert, (size_of_cons _ id _ s) by done. cbn. lia.
      * injection Hh as ->. cbn in Hnd3. apply NoDup_cons in Hnd3 as [Hnd3 _]. set_solver.
  - assert (id ∈ before) as Hib by (rewrite Hsl in Hin; set_solver).
    apply list_elem_of_split in Hib as (a & b & ->).
    destruct (Hins a (b ++ unsent_slist self)) as (Ei & Hnd' & Hfr').
    { rewrite Hsl. by rewrite <- app_assoc. }
    pose proof Hnd as Hnd2. pose proof Hsub as Hsub2. rewrite Hsl in Hnd2, Hsub2.
    pose proof Hnd2 as (Hnd3 & Hdb & _)%NoDup_app. pose proof Hsub2 as [Hsub3 Hsub4]%not_elem_of_app.
    split; [|split_and!; try done].
    + split; try done; cbn; rewrite ?Ei; try done.
      exists (a ++ id :: sub :: b). split; [by rewrite <- app_assoc|]. split_and!; [| |by destruct a].
      * apply Hcut; try done. unfold was_sent. lia.
      * repeat (apply chain_insert; [done|]). done.
    + cbn. by rewrite lookup_insert_eq.
    + cbn. rewrite Ei. set_solver.
Qed.

(** ** Transmission *)

Lemma chain_update h xmit ids p e id s s' :
  h !! id = Some s -> sseg_seq s' = sseg_seq s -> sseg_len s' = sseg_len s -> sseg_flags s' = sseg_flags s ->
  xmit (sseg_xmit s') -> chain h xmit ids p e -> chain (<[id:=s']> h) xmit ids p e.
Proof.
  intros Hs Eq El Ef Hx. induction ids as [|x ids IH] in p |- *; cbn; [done|].
  intros (t & Ht & Hp & [Hl Hk] & Hxt & Hc). destruct (decide (x = id)) as [->|Hne].
  - rewrite Hs in Ht. injection Ht as <-. exists s'. rewrite lookup_insert_eq. unfold kind_ok.
    rewrite Eq, El, Ef. split_and!; try done. by apply IH.
  - exists t. rewrite lookup_insert_ne by done. split_and!; try done. by apply IH.
Qed.

(** The last part of [transmit]: the segment counts as sent. *)
Definition mark_sent (self : PseudoTcpSocket) (id : nat) (now : Z) : Res (Z * PseudoTcpSocket) :=
  segment ← get_seg self id;
  self ← (if sseg_xmit segment =? 0 then
            c_assert (bool_decide (head (unsent_slist self) = Some id));;
            let self := { self with unsent_slist ::= tail;
                                    snd_nxt := u32 (snd_nxt self + sseg_len segment) } in
            Ok (if (sseg_len segment =? 0) && negb (Z.land (sseg_flags segment) FLAG_FIN =? 0)
                then { self with snd_nxt := u32 (snd_nxt self + 1) } else self)
          else Ok self);
  let self := set_seg id { segment with sseg_xmit := u8 (sseg_xmit segment + 1) } self in
  Ok (0, if rto_base self =? 0 then { self with rto_base := now } else self).

(** Something was sent that is not acknowledged. *)
Definition in_flight (self : PseudoTcpSocket) : Prop :=
  exists id rest, slist self = id :: rest /\ id ∉ unsent_slist self.

Lemma in_flight_before before self : NoDup (slist self) -> slist self = before ++ unsent_slist self ->
  in_flight self <-> before <> [].
Proof.
  intros Hnd Hsl. unfold in_flight. rewrite Hsl in Hnd |- *. destruct before as [|id before]; cbn [app].
  - split; [|done]. intros (id & rest & E & Hni). rewrite E in Hni. set_solver.
  - split; [done|]. intros _. exists id, (before ++ unsent_slist self). split; [done|].
    cbn in Hnd. apply NoDup_cons in Hnd as [Hni _]. set_solver.
Qed.

Lemma mark_sent_spec sent una nxt self id s now :
  send_inv sent una nxt self -> id ∈ slist self -> segs self !! id = Some s -> sseg_xmit s < 30 ->
  (sseg_xmit s = 0 -> head (unsent_slist self) = Some id) ->
  exists self', mark_sent self id now = Ok (0, self') /\ (exists nxt', send_inv sent una nxt' self') /\
    recv_side self' = recv_side self /\ state self' = state self /\ in_flight self' /\
    (sseg_xmit s = 0 -> unsent_size self' + 1 + sseg_len s = unsent_size self).
Proof.
  intros Hinv Hin Hs Hx Hhead.
  destruct (queue_parts _ _ _ _ _ _ Hinv Hin Hs) as ([Hl Hk] & Hu & Hend & Hx0 & Hpart).
  destruct Hinv as [Hwf Hcap Hpos Huna Hnxt Hdata (before & Hsl & Hb & Hc & Hrto) Hnd Hfr Hm Hlv Hth Hrec Htr].
  unfold STREAM_MAX, OPENING in Hpos. unfold mark_sent, get_seg. rewrite Hs. cbn [mbind Res_bind].
  rewrite (u8_small (sseg_xmit s + 1)) by lia.
  set (s' := { s with sseg_xmit := sseg_xmit s + 1 }).
  destruct (Z.eqb_spec (sseg_xmit s) 0) as [E0|E0].
  - specialize (Hhead E0). destruct (unsent_slist self) as [|y b] eqn:Eu; [done|].
    cbn [head] in *. injection Hhead as ->. rewrite bool_decide_true by done. cbn [c_assert mbind Res_bind].
    assert ((sseg_len s =? 0) && negb (Z.land (sseg_flags s) FLAG_FIN =? 0) = false) as ->
      by (destruct Hk as [-> | [-> _]]; apply andb_false_r).
    apply chain_at in Hc as (t & Ht & Hp & Hkt & _ & Hc). rewrite Hs in Ht. injection Ht as <-.
    pose proof (chain_le _ _ _ _ _ Hc). rewrite Hnxt, u32_small by lia.
    rewrite Hsl in Hnd. pose proof Hnd as (_ & Hdis & [Hidb _]%NoDup_cons)%NoDup_app.
    assert (id ∉ before) as Hidbe by (intros Hi; apply (Hdis id Hi); set_solver).
    assert (chain (<[id:=s']> (segs self)) was_sent (before ++ [id]) una (nxt + sseg_len s)) as Hb'.
    { apply chain_app. exists nxt. split; [by apply chain_insert|]. exists s'. rewrite lookup_insert_eq.
      split_and!; cbn; try done. unfold was_sent. lia. }
    assert (chain (<[id:=s']> (segs self)) unsent_yet b (nxt + sseg_len s) (zlen sent)) as Hc' by (by apply chain_insert).
    assert (before ++ id :: b = (before ++ [id]) ++ b) as Eapp by (by rewrite <- app_assoc).
    assert (size_of (<[id:=s']> (segs self)) b + 1 + sseg_len s = unsent_size self) as Hsize.
    { rewrite unsent_size_of, Eu, (size_of_cons _ _ _ s Hs), size_of_insert by done. lia. }
    assert (forall s3, slist s3 = slist self -> unsent_slist s3 = b -> in_flight s3) as Hfl.
    { intros s3 E3 E4. apply (in_flight_before (before ++ [id])); [by rewrite E3, Hsl|by rewrite E3, E4, Hsl, <- app_assoc|by destruct before]. }
    eexists; split; [reflexivity|].
    match goal with |- context [if ?c then _ else _] => destruct c end;
      (split; [exists (nxt + sseg_len s); split; try done; cbn; try (unfold OPENING, STREAM_MAX; lia)
              |split_and!; [done|done|apply Hfl; [done|cbn; by rewrite Eu]|intros _; rewrite unsent_size_of; cbn; by rewrite Eu]]);
      rewrite ?Eu; cbn;
      rewrite Hsl; first [exact Hnd|exact Hfr|idtac]; exists (before ++ [id]); rewrite Eapp; split_and!; try done; intros _; by destruct before.
  - cbn [mbind Res_bind]. eexists; split; [reflexivity|].
    assert (before <> []) as Hbn.
    { intros ->. rewrite Hsl in Hin. cbn in Hin. done. }
    match goal with |- context [if ?c then _ else _] => destruct c end;
      (split; [exists nxt; split; try done; cbn|split_and!; try done; first [by apply (in_flight_before before)|lia]]);
      (exists before; split_and!; try done;
        [apply (chain_update _ _ _ _ _ _ s); try done; unfold was_sent; cbn; lia|by apply chain_insert]).
Qed.

Lemma get_seg_Ok self id s : segs self !! id = Some s -> get_seg self id = Ok s.
Proof. unfold get_seg. by intros ->. Qed.

Lemma transmit_eq self id now :
  transmit self id now =
  (segment ← get_seg self id;
   let nTransmit := Z.min (sseg_len segment) (mss self) in
   if sseg_xmit segment >=? (if bool_decide (state self = TCP_ESTABLISHED) then 15 else 30)
   then Ok (ETIMEDOUT, self)
   else
     '(status, nTransmit, self) ← write_segment 11 self id nTransmit now;
     if negb (status =? 0) then Ok (status, self)
     else
       segment ← get_seg self id;
       mark_sent (if nTransmit <? sseg_len segment
                  then split_segment self id segment nTransmit (sseg_xmit segment) (sseg_xmit segment =? 0)
                  else self) id now).
Proof. reflexivity. Qed.

(** A transmission, of the first segment not sent yet or of any that was, whole or
    in part. *)
Lemma transmit_spec sent una nxt self id s now :
  send_inv sent una nxt self -> rwnd_scale self = 0 -> id ∈ slist self -> segs self !! id = Some s ->
  (sseg_xmit s = 0 -> head (unsent_slist self) = Some id) ->
  exists status self', transmit self id now = Ok (status, self') /\ (exists nxt', send_inv sent una nxt' self') /\
    recv_side self' = recv_side self /\ state self' = state self /\ (status = 0 -> in_flight self') /\
    (status = 0 -> sseg_xmit s = 0 -> unsent_size self' + Z.min (sseg_len s + 1) 180 <= unsent_size self).
Proof.
  intros Hinv Hscale Hin Hs Hhead.
  destruct (queue_parts _ _ _ _ _ _ Hinv Hin Hs) as (Hk & Hu & Hend & Hx & _). pose proof Hk as [Hl _].
  rewrite transmit_eq, (get_seg_Ok _ _ _ Hs). cbn [mbind Res_bind]. cbn zeta.
  set (limit := if bool_decide (state self = TCP_ESTABLISHED) then 15 else 30).
  assert (15 <= limit <= 30) as Hlim by (unfold limit; case_bool_decide; lia).
  rewrite Z.geb_leb. destruct (Z.leb_spec limit (sseg_xmit s)) as [Hge|Hlt].
  { exists ETIMEDOUT, self. split_and!; try done; [by exists nxt]. }
  pose proof (sv_mss _ _ _ _ Hinv). pose proof (sv_level _ _ _ _ Hinv). pose proof mss_max_fits. pose proof level_min_fits.
  destruct (write_segment_spec sent una nxt 11 self id s (Z.min (sseg_len s) (mss self)) now Hinv Hscale Hs Hk)
    as (status & n & s1 & -> & Hw & Hn & Hor); [lia..|].
  cbn [mbind Res_bind]. pose proof (wrote_inv _ _ _ _ _ Hw Hinv) as Hinv1.
  destruct Hw as [Ec Er Est _ _].
  assert (segs s1 = segs self /\ slist s1 = slist self /\ unsent_slist s1 = unsent_slist self) as (Es1 & Es2 & Es3)
    by (unfold send_core in Ec; by simplify_eq).
  destruct (Z.eqb_spec status 0) as [->|Hne]; cbn [negb].
  2: { exists status, s1. split_and!; try done. by exists nxt. }
  rewrite (get_seg_Ok s1 id s) by (by rewrite Es1). cbn [mbind Res_bind].
  destruct (Z.ltb_spec n (sseg_len s)) as [Hcut|Hwhole].
  - assert (180 <= n) as Hn180 by lia.
    destruct (split_spec sent una nxt s1 id s n Hinv1) as (Hinv2 & Er2 & Est2 & _ & Hs2 & Hin2 & Hun);
      [by rewrite Es2|by rewrite Es1|lia|]. set (s2 := split_segment _ _ _ _ _ _) in *. clearbody s2.
    destruct (mark_sent_spec sent una nxt s2 id { s with sseg_len := n } now Hinv2) as (s3 & -> & Hi3 & Er3 & Est3 & Hfl & Hsz);
      [done|done|cbn; lia|cbn; intros E0; apply Hun; [done|rewrite Es3; auto]|].
    exists 0, s3. split_and!; [done|done|congruence|congruence|done|]. intros _ E0. specialize (Hsz E0).
    destruct (Hun E0) as [_ Eu]; [rewrite Es3; auto|]. change (sseg_len { s with sseg_len := n }) with n in Hsz.
    rewrite !unsent_size_of, Es1, Es3 in *. lia.
  - destruct (mark_sent_spec sent una nxt s1 id s now Hinv1) as (s3 & -> & Hi3 & Er3 & Est3 & Hfl & Hsz);
      [by rewrite Es2|by rewrite Es1|lia|by rewrite Es3|].
    exists 0, s3. split_and!; [done|done|congruence|congruence|done|]. intros _ E0. specialize (Hsz E0).
    rewrite !unsent_size_of, Es1, Es3 in *. lia.
Qed.

(** ** Queueing *)

Lemma event_ok_trace_app sent more l : Forall (event_ok sent) l -> Forall (event_ok (sent ++ more)) l.
Proof. intros H'. eapply Forall_impl; [exact H'|]. intros e. apply event_ok_app. Qed.

Lemma chain_extend h xmit a id p e s k :
  id ∉ a -> h !! id = Some s -> 0 <= k -> (k = 0 \/ sseg_flags s = FLAG_NONE) -> chain h xmit (a ++ [id]) p e ->
  chain (<[id:={ s with sseg_len := sseg_len s + k }]> h) xmit (a ++ [id]) p (e + k).
Proof.
  intros Ha Hs Hk Hf (m & Hc & (t & Ht & Hp & [Hl Hkind] & Hx & He))%chain_app. rewrite Hs in Ht. injection Ht as <-.
  cbn in He. apply chain_app. exists m. split; [by apply chain_insert|].
  eexists. rewrite lookup_insert_eq. split_and!; [reflexivity|done| |done|cbn; lia].
  split; cbn; [lia|]. destruct Hf as [-> | ->]; [|by left]. rewrite Z.add_0_r. exact Hkind.
Qed.

Lemma chain_snoc h xmit ids p e id s :
  id ∉ ids -> sseg_seq s = e -> kind_ok s -> xmit (sseg_xmit s) -> chain h xmit ids p e ->
  chain (<[id:=s]> h) xmit (ids ++ [id]) p (e + sseg_len s).
Proof.
  intros Hi Hq Hk Hx Hc. apply chain_app. exists e. split; [by apply chain_insert|].
  exists s. by rewrite lookup_insert_eq.
Qed.

(** The part of [queue] before the bytes are written. *)
Definition queue_segment (self : PseudoTcpSocket) (len flags : Z) : Res PseudoTcpSocket :=
  tl ← tail_appendable self flags;
  Ok match tl with
     | Some (id, sseg) => set_seg id { sseg with sseg_len := u32 (sseg_len sseg + len) } self
     | None =>
         let snd_buffered := pseudo_tcp_fifo_get_buffered (sbuf self) in
         let '(id, self) := new_seg {| sseg_seq := u32 (snd_una self + snd_buffered);
           sseg_len := len; sseg_xmit := 0; sseg_flags := flags |} self in
         { self with slist ::= (fun l => l ++ [id]); unsent_slist ::= (fun l => l ++ [id]) }
     end.

Lemma queue_eq self data flags :
  queue self data flags =
  (let available_space := pseudo_tcp_fifo_get_write_remaining (sbuf self) in
   let len := Z.of_nat (length data) in
   len ← (if len >? available_space
          then c_assert (flags =? FLAG_NONE);; Ok (u32 available_space)
          else Ok len);
   self ← queue_segment self len flags;
   '(written, fifo) ← pseudo_tcp_fifo_write (sbuf self) (take (Z.to_nat len) data);
   Ok (u32 written, { self with sbuf := fifo })).
Proof.
  unfold queue, queue_segment. cbn zeta.
  match goal with |- mbind _ ?m = mbind _ ?m => destruct m; [|done] end. cbn [mbind Res_bind].
  destruct (tail_appendable self flags) as [[[id sseg]|]|]; cbn [mbind Res_bind]; reflexivity.
Qed.

(** What [queue_segment] does to the queues: they reach [len] bytes further. *)
Lemma queue_segment_spec sent una nxt self len flags :
  send_inv sent una nxt self -> flags = FLAG_NONE \/ flags = FLAG_RST /\ len = 0 ->
  0 <= len -> zlen sent + len < STREAM_MAX ->
  exists self', queue_segment self len flags = Ok self' /\
    sbuf self' = sbuf self /\ snd_una self' = snd_una self /\ snd_nxt self' = snd_nxt self /\
    rto_base self' = rto_base self /\ mss self' = mss self /\ msslevel self' = msslevel self /\
    ssthresh self' = ssthresh self /\ recover self' = recover self /\ trace self' = trace self /\
    recv_side self' = recv_side self /\ state self' = state self /\
    (exists before, slist self' = before ++ unsent_slist self' /\ chain (segs self') was_sent before una nxt /\
       chain (segs self') unsent_yet (unsent_slist self') nxt (zlen sent + len) /\
       (rto_base self <> 0 -> before <> [])) /\
    NoDup (slist self') /\ Forall (fun id => (id < next_seg self')%nat) (slist self').
Proof.
  intros Hinv Hflags Hlen Hmax. pose proof (length_fifo_sent _ _ _ _ Hinv) as Hbuf.
  destruct Hinv as [Hwf Hcap Hpos Huna Hnxt Hdata (before & Hsl & Hb & Hc & Hrto) Hnd Hfr Hm Hlv Hth Hrec Htr].
  unfold STREAM_MAX, OPENING in *. pose proof (chain_le _ _ _ _ _ Hb). pose proof (chain_le _ _ _ _ _ Hc).
  assert (exists tl, tail_appendable self flags = Ok tl /\
    match tl with
    | Some (id, s) => segs self !! id = Some s /\ sseg_flags s = flags /\ exists a, unsent_slist self = a ++ [id]
    | None => True end) as (tl & Htl & Hcase).
  { unfold tail_appendable. destruct (last (slist self)) as [id|] eqn:El; [|by exists None].
    assert (id ∈ slist self) as Hin by (by apply last_Some_elem_of).
    assert (exists s, segs self !! id = Some s /\
      (sseg_xmit s = 0 -> exists a, unsent_slist self = a ++ [id])) as (s & Hs & Ha).
    { apply last_Some in El as [l' El].
      destruct (last (unsent_slist self)) as [y|] eqn:Eu; [apply last_Some in Eu as [b Eu]|apply last_None in Eu].
      - rewrite Hsl, Eu, app_assoc in El. apply app_inj_tail in El as [_ ->].
        destruct (chain_in _ _ _ _ _ id Hc) as (s & Hs & _); [rewrite Eu; set_solver|].
        exists s. split; [done|]. intros _. by exists b.
      - rewrite Hsl, Eu, app_nil_r in Hin. destruct (chain_in _ _ _ _ _ _ Hb Hin) as (s & Hs & _ & Hx & _).
        exists s. split; [done|]. unfold was_sent in Hx. lia. }
    rewrite (get_seg_Ok _ _ _ Hs). cbn [mbind Res_bind].
    destruct (Z.eqb_spec (sseg_flags s) flags), (Z.eqb_spec (sseg_xmit s) 0); cbn [andb]; eexists; (split; [reflexivity|]);
      cbn; split_and?; auto. }
  unfold queue_segment. rewrite Htl. cbn [mbind Res_bind].
  destruct tl as [[id s]|].
  - destruct Hcase as (Hs & Hf & a & Ea). rewrite Hsl, Ea in Hnd.
    pose proof Hnd as (_ & Hdis & Hnd2)%NoDup_app. pose proof Hnd2 as (_ & Hda & _)%NoDup_app.
    assert (id ∉ a) as Hia by (intros Hi; apply (Hda id Hi); set_solver).
    assert (id ∉ before) as Hib by (intros Hi; apply (Hdis id Hi); set_solver).
    destruct (chain_in _ _ _ _ _ id Hc) as (s' & Hs' & [Hl Hk] & _ & Hq & He); [rewrite Ea; set_solver|].
    rewrite Hs in Hs'. injection Hs' as <-. rewrite u32_small by lia.
    eexists; split; [reflexivity|]. split_and!; try done.
    + exists before. cbn. split_and!; [done|by apply chain_insert| |done].
      rewrite Ea in *. apply chain_extend; try done. destruct Hflags as [?|[_ ?]]; [right; congruence|by left].
    + cbn. by rewrite Hsl, Ea.
  - assert (next_seg self ∉ slist self) as Hni.
    { intros Hi. rewrite Forall_forall in Hfr. specialize (Hfr _ Hi). cbn in Hfr. lia. }
    unfold new_seg, pseudo_tcp_fifo_get_buffered. rewrite Huna, Hbuf.
    replace (una + (zlen sent - una)) with (zlen sent) by lia. rewrite u32_small by lia.
    eexists; split; [reflexivity|]. split_and!; try done.
    + exists before. cbn. rewrite Hsl, <- app_assoc. rewrite Hsl in Hni. apply not_elem_of_app in Hni as [Hn1 Hn2].
      split_and!; [done|by apply chain_insert| |done].
      eapply (chain_snoc _ _ _ _ _ _ {| sseg_len := len |}); try done.
    + cbn. apply NoDup_app. split_and!; [done|set_solver|apply NoDup_singleton].
    + cbn. apply Forall_app. split; [eapply Forall_impl; [exact Hfr|]; cbn; lia|]. constructor; [lia|done].
Qed.

(** [queue] takes what fits, and that follows the stream. *)
Lemma queue_spec sent una nxt self data flags :
  send_inv sent una nxt self -> flags = FLAG_NONE \/ flags = FLAG_RST /\ data = [] ->
  zlen sent + zlen data < STREAM_MAX ->
  let w := Z.min (zlen data) (buffer_length (sbuf self) - data_length (sbuf self)) in
  exists self', queue self data flags = Ok (w, self') /\ 0 <= w /\
    send_inv (sent ++ take (Z.to_nat w) data) una nxt self' /\
    recv_side self' = recv_side self /\ state self' = state self.
Proof.
  intros Hinv Hflags Hmax w. pose proof (sv_wf _ _ _ _ Hinv) as Hwf. pose proof (wf_data _ Hwf). pose proof (wf_capacity _ Hwf).
  pose proof (sv_cap _ _ _ _ Hinv) as Hcap. unfold STREAM_MAX in Hmax.
  assert (0 <= w <= zlen data /\ w <= buffer_length (sbuf self) - data_length (sbuf self)) as Hw0 by (unfold w, zlen; lia).
  assert (zlen (take (Z.to_nat w) data) = w) as Hlen by (unfold zlen in *; rewrite length_take; lia).
  rewrite queue_eq. unfold pseudo_tcp_fifo_get_write_remaining. cbn zeta.
  rewrite u64_small by lia. fold (zlen data).
  assert ((if zlen data >? buffer_length (sbuf self) - data_length (sbuf self)
    then c_assert (flags =? FLAG_NONE);; Ok (u32 (buffer_length (sbuf self) - data_length (sbuf self)))
    else Ok (zlen data)) = Ok w) as ->.
  { rewrite Z.gtb_ltb. destruct (Z.ltb_spec (buffer_length (sbuf self) - data_length (sbuf self)) (zlen data)) as [Hlt|Hge].
    - destruct Hflags as [-> | [_ ->]]; [|change (zlen (@nil byte)) with 0 in Hlt; lia]. cbn. rewrite u32_small by lia. f_equal. lia.
    - f_equal. lia. }
  cbn [mbind Res_bind].
  destruct (queue_segment_spec sent una nxt self w flags Hinv) as (s1 & -> & Eb & Eu & En & Er & Em & El & Eth & Erv & Et & Erc & Est & Hq & Hnd & Hfr).
  { destruct Hflags as [?|[? ->]]; [by left|right]. split; [done|]. unfold w. change (zlen (@nil byte)) with 0. lia. }
  { lia. }
  { unfold STREAM_MAX. lia. }
  cbn [mbind Res_bind]. rewrite Eb.
  destruct (fifo_write_spec (sbuf self) (take (Z.to_nat w) data) Hwf) as (b' & Hw & Hwf' & Hd' & Hc'); [unfold zlen in Hlen; lia|].
  cbn zeta in Hw, Hd'. fold (zlen (take (Z.to_nat w) data)) in Hw, Hd'. rewrite Hlen in Hw, Hd'.
  replace (Z.min w _) with w in Hw, Hd' by lia. rewrite Hw. cbn [mbind Res_bind]. rewrite u32_small by lia.
  eexists; split; [reflexivity|]. split; [lia|]. split; [|split_and!; done].
  pose proof (sv_pos _ _ _ _ Hinv) as Hpos. unfold OPENING, STREAM_MAX in Hpos.
  assert (zlen (sent ++ take (Z.to_nat w) data) = zlen sent + w) as Hl2 by (unfold zlen in *; rewrite length_app; lia).
  split; try done; cbn.
  - by rewrite Hc'.
  - unfold OPENING, STREAM_MAX. rewrite Hl2. lia.
  - rewrite Eu. apply Hinv.
  - rewrite En. apply Hinv.
  - rewrite Hd', take_take, Nat.min_id, (sv_data _ _ _ _ Hinv), drop_app_le; [done|]. unfold zlen in *. lia.
  - rewrite Hl2, Er. exact Hq.
  - rewrite Em. apply Hinv.
  - rewrite El. apply Hinv.
  - rewrite Eth. apply Hinv.
  - rewrite Erv. apply Hinv.
  - rewrite Et. apply event_ok_trace_app, Hinv.
Qed.

(** ** Sending what the windows allow *)

Lemma set_state_live sent self : sender sent self -> state self = TCP_ESTABLISHED \/ state self = TCP_CLOSED ->
  forall err, exists self', closedown_states self err = Ok self' /\ sends sent self self' /\ state self' = TCP_CLOSED.
Proof.
  intros (una & nxt & Hinv) Hst err. pose proof (sv_trace _ _ _ _ Hinv) as Htr.
  unfold closedown_states. destruct Hst as [Hst|Hst]; rewrite Hst.
  - do 3 (rewrite set_state_valid by (cbn; rewrite ?Hst; done); cbn [mbind Res_bind]).
    unfold set_state_closed. rewrite set_state_valid by done. cbn [mbind Res_bind].
    eexists; split; [reflexivity|]. case_match; (split; [|done]);
      (apply sends_ext; [done|done| |by right|by exists una, nxt]); cbn; [by constructor|done].
  - cbn [mbind Res_bind]. unfold set_state_closed, set_state. rewrite Hst, bool_decide_true by done.
    cbn [mbind Res_bind]. eexists; split; [reflexivity|]. case_match; (split; [|done]);
      (apply sends_ext; [done|done| |by left|by exists una, nxt]); cbn; [by constructor|done].
Qed.

Lemma packet_sends sent self seq now :
  sender sent self -> rwnd_scale self = 0 -> 0 <= seq < STREAM_MAX ->
  exists r, packet self seq 0 0 0 now = Ok r /\ sends sent self r.2 /\ state r.2 = state self /\
    unsent_slist r.2 = unsent_slist self /\ segs r.2 = segs self /\ snd_nxt r.2 = snd_nxt self.
Proof.
  intros (una & nxt & Hinv) Hscale Hseq. pose proof mss_max_fits.
  destruct (packet_spec sent una nxt self seq 0 0 0 now Hinv Hscale) as (r & -> & Hr); [lia|done|by left|done|].
  exists r. split; [done|]. destruct Hr as (Es & Er & Est & Ht).
  split; [apply sends_ext; auto; by exists una, nxt|]. split; [done|]. unfold send_side, send_core in Es. by simplify_eq.
Qed.

Lemma sender_nxt sent self : sender sent self -> 0 <= snd_nxt self < STREAM_MAX /\ OPENING <= snd_nxt self.
Proof. intros (una & nxt & Hinv). pose proof (sv_pos _ _ _ _ Hinv). rewrite (sv_nxt _ _ _ _ Hinv). unfold OPENING in *. lia. Qed.

Lemma send_available_nonneg self : 0 <= send_available self.
Proof.
  unfold send_available. cbn zeta.
  match goal with |- context [if ?a <? ?b then ?b - ?a else 0] => set (u := if a <? b then b - a else 0) end.
  assert (0 <= u) by (unfold u; case_match; lia).
  match goal with |- context [if ?a >? u then _ else ?a] => assert (0 <= a); [|set (v := a) in *] end.
  { case_match; [lia|]. apply uwrap_range. lia. }
  repeat case_match; lia.
Qed.

Lemma rscale_sends sent s s' : sends sent s s' -> rwnd_scale s = 0 -> rwnd_scale s' = 0.
Proof. intros [_ E _]. unfold recv_side in E. simplify_eq. congruence. Qed.

Definition open_or_reset (self : PseudoTcpSocket) : Prop := state self = TCP_ESTABLISHED \/ state self = TCP_CLOSED.

Lemma open_sends sent s s' : sends sent s s' -> open_or_reset s -> open_or_reset s'.
Proof. unfold open_or_reset. intros [_ _ [-> | ->]]; auto. Qed.

(** The head of what was not sent, and its first bytes as a segment of their own. *)
Lemma unsent_head sent self id rest :
  sender sent self -> unsent_slist self = id :: rest ->
  exists s, segs self !! id = Some s /\ id ∈ slist self /\ sseg_xmit s = 0 /\ 0 <= sseg_len s.
Proof.
  intros (una & nxt & Hinv) Eu. destruct (sv_queue _ _ _ _ Hinv) as (before & Hsl & _ & Hc & _).
  rewrite Eu in *. apply chain_at in Hc as (s & Hs & _ & [Hl _] & Hx & _). exists s. rewrite Hsl. set_solver.
Qed.

(** One transmission of the loop: the queue of what is not sent gets smaller. *)
Lemma transmit_round sent self id rest s n now (cut : bool) :
  sender sent self -> rwnd_scale self = 0 -> unsent_slist self = id :: rest -> segs self !! id = Some s ->
  0 <= sseg_len s -> id ∈ slist self -> sseg_xmit s = 0 -> (cut = true -> 0 < n < sseg_len s) ->
  exists status self', transmit (if cut then split_segment self id s n 0 true else self) id now = Ok (status, self') /\
    sends sent self self' /\ (status = 0 -> unsent_size self' < unsent_size self).
Proof.
  intros (una & nxt & Hinv) Hscale Eu Hs Hl Hin Hx Hcut. destruct cut.
  - specialize (Hcut eq_refl).
    destruct (split_spec sent una nxt self id s n Hinv Hin Hs Hcut) as (Hinv2 & Er & Est & _ & Hs2 & Hin2 & Hun).
    rewrite Hx in *. cbn [Z.eqb] in *. set (s2 := split_segment _ _ _ _ _ _) in *. clearbody s2.
    destruct Hun as [Hh Hsz]; [done|by rewrite Eu|].
    assert (rwnd_scale s2 = 0) as Hscale2 by (unfold recv_side in Er; simplify_eq; congruence).
    destruct (transmit_spec sent una nxt s2 id _ now Hinv2 Hscale2 Hin2 Hs2) as (status & s3 & -> & (nxt' & Hi) & Er3 & Est3 & _ & Hsz3);
      [done|]. exists status, s3. split; [done|]. split.
    + split; [by exists una, nxt'|congruence|left; congruence].
    + intros E0. specialize (Hsz3 E0 Hx). change (sseg_len { s with sseg_len := n }) with n in Hsz3. lia.
  - destruct (transmit_spec sent una nxt self id s now Hinv Hscale Hin Hs) as (status & s3 & -> & (nxt' & Hi) & Er3 & Est3 & _ & Hsz3).
    { intros _. by rewrite Eu. }
    exists status, s3. split; [done|]. split.
    + split; [by exists una, nxt'|congruence|left; congruence].
    + intros E0. specialize (Hsz3 E0 Hx). lia.
Qed.

Lemma attempt_send_loop_spec sent fuel self sf now :
  sender sent self -> rwnd_scale self = 0 -> open_or_reset self ->
  unsent_size self + (if bool_decide (sf = sfDuplicateAck) then 1 else 0) < Z.of_nat fuel ->
  exists self', attempt_send_loop fuel self sf now = Ok self' /\ sends sent self self'.
Proof.
  induction fuel as [|fuel IH] in self, sf |- *; intros Hs Hscale Hst Hf.
  { destruct Hs as (una & nxt & Hinv). destruct (sv_queue _ _ _ _ Hinv) as (b & _ & _ & Hc & _).
    apply size_of_nonneg in Hc. rewrite unsent_size_of in Hf. case_bool_decide; lia. }
  cbn [attempt_send_loop]. cbn zeta. pose proof (proj1 (sender_nxt _ _ Hs)) as Hnxt.
  assert (forall s1, sends sent self s1 -> unsent_size s1 = unsent_size self -> sf = sfDuplicateAck ->
    exists s2, attempt_send_loop fuel s1 sfNone now = Ok s2 /\ sends sent self s2) as Hdup.
  { intros s1 H1 Hsz E. rewrite (bool_decide_true _ E) in Hf.
    destruct (IH s1 sfNone) as (s2 & E2 & H2); [apply H1|by eapply rscale_sends|by eapply open_sends|rewrite Hsz, bool_decide_false by done; lia|].
    exists s2. split; [done|by eapply sends_trans]. }
  case_bool_decide as Hd.
  { destruct (packet_sends sent self (snd_nxt self) now Hs Hscale Hnxt) as ([w s1] & -> & H1 & _ & Eu & Es & _).
    cbn [mbind Res_bind snd] in *. apply Hdup; [done| |done]. by rewrite !unsent_size_of, Eu, Es. }
  destruct ((send_available self =? 0) && negb (is_fin_or_rst sf)) eqn:E0.
  { case_bool_decide as Hn; [exists self; split; [done|by apply sends_refl]|].
    destruct (_ || _ || _).
    - destruct (packet_sends sent self (snd_nxt self) now Hs Hscale Hnxt) as ([w s1] & -> & H1 & _).
      exists s1. by split.
    - eexists; split; [reflexivity|]. apply sends_ext; try done; [|by left]. destruct Hs as (? & ? & []). done. }
  destruct (use_nagling self && _ && _ && _); [exists self; split; [done|by apply sends_refl]|].
  destruct (unsent_slist self) as [|id rest] eqn:Eu; cbn [head]; [exists self; split; [done|by apply sends_refl]|].
  destruct (unsent_head _ _ _ _ Hs Eu) as (s & Hseg & Hin & Hx & Hl).
  rewrite (get_seg_Ok _ _ _ Hseg). cbn [mbind Res_bind]. rewrite Z.gtb_ltb.
  destruct (transmit_round sent self id rest s (send_available self) now
    ((send_available self <? sseg_len s) && negb (is_fin_or_rst sf))) as (status & s1 & -> & H1 & Hsz); try done.
  { intros [Hlt%Z.ltb_lt Hnf]%andb_true_iff. rewrite Hnf, andb_true_r in E0. apply Z.eqb_neq in E0.
    pose proof (send_available_nonneg self). lia. }
  cbn [mbind Res_bind]. destruct (Z.eqb_spec status 0) as [->|Hne]; cbn [negb].
  - destruct (IH s1 (if bool_decide (sf = sfImmediateAck) || bool_decide (sf = sfDelayedAck) then sfNone else sf))
      as (s2 & E2 & H2); [apply H1|by eapply rscale_sends|by eapply open_sends| |].
    { specialize (Hsz eq_refl). rewrite bool_decide_false by (by destruct sf). lia. }
    exists s2. split; [done|by eapply sends_trans].
  - destruct (set_state_live sent s1 (ss_sender _ _ _ H1)) with (err := status) as (s2 & -> & H2 & _);
      [by eapply open_sends|]. exists s2. split; [done|by eapply sends_trans].
Qed.

Definition ok_sends {A} (sent : list byte) (self : PseudoTcpSocket) (sock : A -> PseudoTcpSocket) (m : Res A) : Prop :=
  exists r, m = Ok r /\ sends sent self (sock r).

Lemma attempt_send_spec sent self sf :
  sender sent self -> rwnd_scale self = 0 -> open_or_reset self -> ok_sends sent self id (attempt_send self sf).
Proof.
  intros Hs Hscale Hst. unfold attempt_send.
  assert (forall s1, sends sent self s1 -> unsent_size s1 = unsent_size self -> forall now,
    ok_sends sent self id (attempt_send_loop (Z.to_nat (unsent_size s1 + 2)) s1 sf now)) as Hloop.
  { intros s1 H1 Hsz now. pose proof H1 as [(una & nxt & Hinv) _ _].
    destruct (sv_queue _ _ _ _ Hinv) as (b & _ & _ & Hc & _). apply size_of_nonneg in Hc.
    destruct (attempt_send_loop_spec sent (Z.to_nat (unsent_size s1 + 2)) s1 sf now) as (s2 & E2 & H2);
      [apply H1|by eapply rscale_sends|by eapply open_sends| |].
    { rewrite !unsent_size_of in *. case_bool_decide; lia. }
    exists s2. split; [done|by eapply sends_trans]. }
  assert (Forall (event_ok sent) (trace self)) as Htr by (destruct Hs as (? & ? & []); done).
  unfold get_current_time. destruct (negb (current_time self =? 0)); cbn zeta iota beta;
    match goal with |- context [if ?c then _ else _] => destruct c end;
    apply Hloop; try done; (apply sends_ext; [done..|by left|done]).
Qed.

(** A reset of the connection, from here or from there. *)
Lemma closedown_spec sent self err source :
  sender sent self -> rwnd_scale self = 0 -> open_or_reset self -> support_fin_ack self = true ->
  exists self', closedown self err source = Ok self' /\ sends sent self self' /\ state self' = TCP_CLOSED.
Proof.
  intros Hs Hscale Hst Hfin. unfold closedown. destruct source.
  - rewrite Hfin. pose proof Hs as (una & nxt & Hinv). unfold queue_rst_message. rewrite Hfin. cbn [c_assert mbind Res_bind].
    destruct (queue_spec sent una nxt self [] FLAG_RST Hinv) as (s1 & -> & _ & Hinv1 & Er & Est);
      [by right|pose proof (sv_pos _ _ _ _ Hinv); change (zlen (@nil byte)) with 0; lia|].
    rewrite take_nil, app_nil_r in Hinv1. cbn [mbind Res_bind].
    assert (sends sent self s1) as H1 by (split; [by exists una, nxt|done|by left]).
    destruct (attempt_send_spec sent s1 sfRst) as (s2 & -> & H2); [apply H1|by eapply rscale_sends|by eapply open_sends|].
    cbn [mbind Res_bind id] in *. pose proof (sends_trans _ _ _ _ H1 H2) as H12.
    destruct (set_state_live sent s2 (ss_sender _ _ _ H12)) with (err := err) as (s3 & -> & H3 & E3); [by eapply open_sends|].
    exists s3. split_and!; [done|by eapply sends_trans|done].
  - cbn [mbind Res_bind]. by apply set_state_live.
Qed.

(** What is sent of new data. *)
Lemma send_spec sent self data :
  sender sent self -> live self -> zlen sent + zlen data < STREAM_MAX ->
  exists n self', pseudo_tcp_socket_send self data = Ok (n, self') /\
    (n = -1 /\ sends sent self self' \/
     0 <= n <= zlen data /\ (0 < zlen data -> 0 < n) /\ sends (sent ++ take (Z.to_nat n) data) self self').
Proof.
  intros Hs Hlive Hmax. unfold pseudo_tcp_socket_send.
  assert (Forall (event_ok sent) (trace self)) as Htr by (destruct Hs as (? & ? & []); done).
  destruct (lv_state _ Hlive) as [Hst|Hst]; rewrite Hst.
  2: { rewrite bool_decide_false by done. cbn [negb]. do 2 eexists. split; [reflexivity|]. left.
       split; [done|]. apply sends_ext; try done. by left. }
  rewrite bool_decide_true by done. cbn [negb].
  destruct (Z.eqb_spec (pseudo_tcp_fifo_get_write_remaining (sbuf self)) 0) as [_|Hroom].
  { do 2 eexists. split; [reflexivity|]. left. split; [done|]. apply sends_ext; try done. by left. }
  pose proof Hs as (una & nxt & Hinv).
  destruct (queue_spec sent una nxt self data FLAG_NONE Hinv) as (s1 & -> & Hw & Hinv1 & Er & Est); [by left|done|].
  set (w := Z.min _ _) in *. assert (0 <= w <= zlen data /\ (0 < zlen data -> 0 < w)) as [Hw' Hpos].
  { pose proof (wf_data _ (sv_wf _ _ _ _ Hinv)). pose proof (sv_cap _ _ _ _ Hinv).
    unfold pseudo_tcp_fifo_get_write_remaining in Hroom. rewrite u64_small in Hroom by lia. unfold w in *. lia. }
  clearbody w.
  cbn [mbind Res_bind].
  assert (i32 w = w) as -> by (unfold STREAM_MAX, zlen in *; apply swrap_small; lia).
  assert (sends (sent ++ take (Z.to_nat w) data) self s1) as H1 by (split; [by exists una, nxt|done|by left]).
  destruct (attempt_send_spec _ s1 sfNone (ss_sender _ _ _ H1)) as (s2 & -> & H2);
    [eapply rscale_sends; [done|apply Hlive]|eapply open_sends; [done|apply Hlive]|].
  cbn [mbind Res_bind id] in *. pose proof (sends_trans _ _ _ _ H1 H2) as H3.
  do 2 eexists. split; [reflexivity|]. right. split; [done|]. split; [done|]. case_match; [|done].
  eapply sends_trans; [done|]. apply sends_ext; try done; [|by left|apply H3]. destruct H3 as [(? & ? & []) _ _]. done.
Qed.

End Sending.
End Bounded.
