(* ===== verification/PseudoTcpEnd.v ===== *)
(** * One end of a connection

    A connected socket of [PseudoTcp] under all its operations: what its application
    writes is its stream ([PseudoTcpSend]), what it receives is a part of its peer's
    ([PseudoTcpRecv]), and an operation keeps both.  The packets that come in are any
    pieces of the peer's stream, with any acknowledgements, windows and times. *)

From S2P Require Import Prelude Fifo SeqArith PseudoTcp PseudoTcpProps PseudoTcpRecv PseudoTcpSend.

#[local] Arguments Go {A} a.
#[local] Arguments Return {A} r self.

Section Acks.
Context `{MB : !MssBound, !PseudoTcpEnv, !Malloc}.

(** ** Acknowledgements *)

(** What the release of acknowledged segments leaves alone. *)
Definition not_queue (self : PseudoTcpSocket) :=
  (sbuf self, snd_una self, snd_nxt self, unsent_slist self, next_seg self,
   (rto_base self, mss self, msslevel self, ssthresh self, recover self, trace self, state self),
   recv_side self, (dup_acks self, cwnd self)).

Lemma release_segments_0 l self : release_segments l self 0 = Ok self.
Proof. by destruct l. Qed.

Lemma release_segments_spec before self nFree p nxt e :
  slist self = before ++ unsent_slist self -> NoDup (slist self) ->
  chain (segs self) was_sent before p nxt -> chain (segs self) unsent_yet (unsent_slist self) nxt e ->
  0 <= p -> nxt < STREAM_MAX -> 0 <= nFree <= nxt - p ->
  exists self' before', release_segments (slist self) self nFree = Ok self' /\
    not_queue self' = not_queue self /\ slist self' = before' ++ unsent_slist self' /\ NoDup (slist self') /\
    Forall (fun id => id ∈ slist self) (slist self') /\
    chain (segs self') was_sent before' (p + nFree) nxt /\ chain (segs self') unsent_yet (unsent_slist self') nxt e.
Proof.
  unfold STREAM_MAX. induction before as [|id before IH] in self, nFree, p |- *; intros Hsl Hnd Hb Hu Hp Hmax Hfree.
  - cbn in Hb. subst p. replace nFree with 0 by lia.
    exists self, []. rewrite release_segments_0, Z.add_0_r. split_and!; try done. by apply Forall_forall.
  - destruct (decide (nFree = 0)) as [->|Hne].
    { exists self, (id :: before). rewrite release_segments_0, Z.add_0_r. split_and!; try done. by apply Forall_forall. }
    pose proof Hb as (s & Hs & Hq & [Hl Hk] & Hx & Hb')%chain_at. rewrite Hsl in *. cbn [app] in *.
    cbn [release_segments]. rewrite (proj2 (Z.eqb_neq _ _)) by done.
    rewrite (get_seg_Ok _ _ _ Hs). cbn [mbind Res_bind].
    pose proof Hnd as [Hni Hnd']%NoDup_cons. apply not_elem_of_app in Hni as [Hnb Hnu].
    destruct (Z.ltb_spec nFree (sseg_len s)).
    + eexists _, (id :: before). split; [reflexivity|].
      split_and!; [done|exact Hsl|cbn; by rewrite Hsl|cbn; rewrite Hsl; by apply Forall_forall| |by apply chain_insert].
      pose proof (chain_le _ _ _ _ _ Hb'). rewrite u32_small by lia. cbn.
      eexists. rewrite lookup_insert_eq. split_and!; [reflexivity|cbn; lia| |done|].
      * split; cbn; [lia|]. destruct Hk as [?|[_ ?]]; [by left|lia].
      * cbn. replace (p + nFree + (sseg_len s - nFree)) with (p + sseg_len s) by lia. by apply chain_insert.
    + set (s1 := if sseg_len s >? largest self then { self with largest := sseg_len s } else self).
      assert (not_queue s1 = not_queue self /\ slist s1 = slist self /\ segs s1 = segs self) as (E1 & E2 & E3)
        by (unfold s1; by case_match).
      clearbody s1. set (s2 := { free_seg id s1 with slist := before ++ unsent_slist self }).
      assert (unsent_slist s1 = unsent_slist self) as E4 by (unfold not_queue in E1; by simplify_eq).
      destruct (IH s2 (nFree - sseg_len s) (p + sseg_len s)) as (s3 & before' & Hrun & En & Esl & Hnd3 & Hall & Hb3 & Hu3).
      { unfold s2; cbn. by rewrite E4. }
      { done. }
      { unfold s2; cbn. rewrite E3. by apply chain_delete. }
      { unfold s2; cbn. rewrite E3, E4. by apply chain_delete. }
      { lia. } { done. } { pose proof (chain_le _ _ _ _ _ Hb'). lia. }
      exists s3, before'. split; [exact Hrun|]. split; [by rewrite En|]. split; [done|]. split; [done|].
      split; [eapply Forall_impl; [exact Hall|]; unfold s2; cbn; set_solver|].
      replace (p + nFree) with (p + sseg_len s + (nFree - sseg_len s)) by lia. by split.
Qed.
(** The state an acknowledgement leads to, before the windows are computed. *)
Lemma ack_release sent una nxt self s3 ack :
  send_inv sent una nxt self -> una < ack <= nxt -> recv_side s3 = recv_side self -> state s3 = state self ->
  slist s3 = slist self -> segs s3 = segs self -> unsent_slist s3 = unsent_slist self ->
  next_seg s3 = next_seg self -> snd_nxt s3 = snd_nxt self -> snd_una s3 = ack -> (ack = nxt -> rto_base s3 = 0) ->
  mss s3 = mss self -> msslevel s3 = msslevel self -> ssthresh s3 = ssthresh self -> recover s3 = recover self ->
  trace s3 = trace self ->
  pseudo_tcp_fifo_consume_read_data (sbuf self) (ack - una) = Ok (sbuf s3) ->
  exists s4, release_segments (slist s3) s3 (ack - una) = Ok s4 /\ send_inv sent ack nxt s4 /\
    recv_side s4 = recv_side self /\ state s4 = state self /\ (ack < nxt -> exists id rest, slist s4 = id :: rest /\ id ∉ unsent_slist s4) /\
    dup_acks s4 = dup_acks s3 /\ cwnd s4 = cwnd s3.
Proof.
  intros Hinv Hack Er Est Esl Esg Eu Ens En Ea Hrto Em El Et Ev Etr Hfifo.
  pose proof (length_fifo_sent _ _ _ _ Hinv) as Hbuf.
  destruct Hinv as [Hwf Hcap Hpos Huna Hnxt Hdata (before & Hsl & Hb & Hc & Hr) Hnd Hfr Hm Hlv Hth Hrec Htr].
  unfold OPENING in Hpos.
  destruct (release_segments_spec before s3 (ack - una) una nxt (zlen sent)) as (s4 & before' & -> & En4 & Esl4 & Hnd4 & Hall & Hb4 & Hu4);
    [by rewrite Esl, Eu|by rewrite Esl|by rewrite Esg|by rewrite Esg, Eu|lia|lia|lia|].
  exists s4. split; [done|]. unfold not_queue in En4.
  injection En4 as F1 F2 F3 F4 F5 F6.
  replace (una + (ack - una)) with ack in Hb4 by lia.
  destruct (fifo_consume_read_data_spec (sbuf self) (ack - una) Hwf) as (b' & Hb' & Hwf' & Hd' & Hc' & _); [lia|].
  rewrite Hfifo in Hb'. injection Hb' as <-.
  assert (ack < nxt -> exists id rest, before' = id :: rest) as Hne.
  { intros Hlt. destruct before' as [|id rest]; [cbn in Hb4; lia|by exists id, rest]. }
  split; [|split_and!; try congruence].
  - split; try (unfold OPENING; congruence || lia).
    + rewrite F1, Hd', Hdata, drop_drop. f_equal. lia.
    + exists before'. split_and!; try done. intros Hn0. destruct Hne as (id & rest & ->); [|done].
      destruct (decide (ack = nxt)) as [E|]; [|lia]. rewrite F6 in Hn0. by apply Hrto in E.
    + rewrite F5, Ens. eapply Forall_impl; [exact Hall|]. intros id. rewrite Esl.
      rewrite Forall_forall in Hfr. apply Hfr.
  - rewrite <- Er. unfold recv_side. congruence.
  - intros Hlt. destruct (Hne Hlt) as (id & rest & ->). exists id, (rest ++ unsent_slist s4).
    split; [done|]. rewrite Esl4 in Hnd4. apply NoDup_app in Hnd4 as (_ & Hd & _). apply Hd. set_solver.
Qed.

(** Updates that no invariant is about. *)
Record quiet (self self' : PseudoTcpSocket) : Prop := {
  qt_send : send_side self' = send_side self;
  qt_recv : recv_side self' = recv_side self;
  qt_state : state self' = state self;
  qt_trace : trace self' = trace self
}.

Lemma quiet_sends sent self self' : quiet self self' -> sender sent self -> sends sent self self'.
Proof.
  intros [Es Er Est Et] Hs. apply sends_ext; [done..| |by left|done]. rewrite Et. by destruct Hs as (? & ? & []).
Qed.

Lemma quiet_update_rtt self rtt : quiet self (update_rtt self rtt).
Proof. unfold update_rtt. by destruct (rx_srtt self =? 0). Qed.

Lemma live_quiet self self' : quiet self self' -> live self -> live self'.
Proof.
  intros [_ R S _] [? ? ? ? ? ? Hreads]. unfold recv_side in R. injection R as.
  split; try congruence; rewrite S; try done; intros ?; apply Hreads; congruence.
Qed.

(** The window of a segment needs no shift. *)
Lemma window_shift self w : live self -> shl32 w (swnd_scale self) = Ok (u32 (Z.shiftl w 0)).
Proof. intros [_ _ _ _ -> _]. done. Qed.

(** Retransmission of the first segment, or a reset when it cannot be sent. *)
Lemma retransmit_first sent self id rest now :
  sender sent self -> live self -> slist self = id :: rest -> id ∉ unsent_slist self ->
  exists status self', transmit self id now = Ok (status, self') /\ sends sent self self' /\ (status = 0 -> in_flight self').
Proof.
  intros (una & nxt & Hinv) Hlive Esl Hni.
  assert (exists s, segs self !! id = Some s) as [s Hs].
  { destruct (sv_queue _ _ _ _ Hinv) as (before & Hsl & Hb & _). rewrite Esl in Hsl.
    destruct before as [|x before]; cbn in Hsl.
    - rewrite <- Hsl in Hni. set_solver.
    - injection Hsl as <- _. apply chain_at in Hb as (s & Hs & _). by exists s. }
  assert (id ∈ slist self) as Hin by (rewrite Esl; set_solver).
  destruct (queue_parts _ _ _ _ _ _ Hinv Hin Hs) as (_ & _ & _ & _ & Hpart).
  destruct (transmit_spec sent una nxt self id s now Hinv (lv_rscale _ Hlive) Hin Hs) as (status & s3 & -> & (nxt' & Hi) & Er3 & Est3 & Hfl & _).
  { intros E0. rewrite E0 in Hpart. done. }
  exists status, s3. split; [done|]. split; [|done]. split; [by exists una, nxt'|done|by left].
Qed.

Definition flow_sends {A} (sent : list byte) (self : PseudoTcpSocket) (go : A -> Prop) (fl : flow A) : Prop :=
  match fl with Go a => go a | Return _ self' => sends sent self self' end.

Lemma reset_flow sent self s1 status :
  sends sent self s1 -> live self -> exists s2, closedown s1 status CLOSEDOWN_LOCAL = Ok s2 /\ sends sent self s2.
Proof.
  intros H1 Hlive. pose proof (live_sends _ _ _ Hlive H1) as Hl1.
  destruct (closedown_spec sent s1 status CLOSEDOWN_LOCAL) as (s2 & -> & H2 & _); [apply H1|apply Hl1|apply Hl1|apply Hl1|].
  exists s2. split; [done|by eapply sends_trans].
Qed.
Lemma process_valuable_ack_spec sent self seg now :
  sender sent self -> live self -> is_u32 (seg_ack seg) ->
  LARGER (seg_ack seg) (snd_una self) = true -> SMALLER_OR_EQUAL (seg_ack seg) (snd_nxt self) = true ->
  exists fl, process_valuable_ack self seg now = Ok fl /\
    flow_sends sent self (fun r => r.1 = false /\ sends sent self r.2) fl.
Proof.
  intros Hs Hlive Hu32 Hlarger Hsmaller. unfold process_valuable_ack. cbn zeta.
  set (rtt := time_diff now (seg_tsecr seg)).
  destruct (negb (seg_tsecr seg =? 0) && (rtt <? 0)).
  { eexists. split; [reflexivity|]. by apply sends_refl. }
  set (s1 := if negb (seg_tsecr seg =? 0) then _ else self).
  assert (quiet self s1) as Hq.
  { unfold s1. destruct (negb (seg_tsecr seg =? 0)); [|done]. destruct (quiet_update_rtt self rtt). by split. }
  clearbody s1. pose proof (live_quiet _ _ Hq Hlive) as Hlive1.
  rewrite (window_shift s1 (seg_wnd seg) Hlive1). cbn [mbind Res_bind].
  pose proof (quiet_sends _ _ _ Hq Hs) as H1. pose proof (ss_sender _ _ _ H1) as (una & nxt & Hinv).
  pose proof (sv_pos _ _ _ _ Hinv) as Hpos. unfold OPENING, STREAM_MAX in Hpos.
  assert (snd_una self = una /\ snd_nxt self = nxt) as [Eu En].
  { destruct Hq as [Es _ _ _]. unfold send_side, send_core in Es. injection Es as ? E1 E2.
    rewrite <- E1, <- E2. split; apply Hinv. }
  rewrite Eu in Hlarger. rewrite En in Hsmaller.
  assert (una < seg_ack seg <= nxt) as Hack.
  { apply LARGER_spec in Hlarger. unfold SMALLER_OR_EQUAL in Hsmaller. apply LARGER_OR_EQUAL_spec in Hsmaller. machine_int. }
  pose proof (length_fifo_sent _ _ _ _ Hinv) as Hbuf.
  rewrite (sv_una _ _ _ _ Hinv), (sv_nxt _ _ _ _ Hinv), u32_small by lia.
  set (s2 := { s1 with snd_wnd := _; snd_una := _; rto_base := _ }).
  change (data_length (sbuf s2)) with (data_length (sbuf s1)). rewrite Hbuf.
  rewrite (proj2 (Z.eqb_neq (seg_ack seg - una) _)) by lia. cbn [andb].
  change (sbuf s2) with (sbuf s1).
  destruct (fifo_consume_read_data_spec (sbuf s1) (seg_ack seg - una) (sv_wf _ _ _ _ Hinv)) as (b & Hb & _); [lia|].
  rewrite Hb. cbn [mbind Res_bind].
  destruct (ack_release sent una nxt s1 { s2 with sbuf := b } (seg_ack seg) Hinv Hack) as (s4 & Hrel & Hinv4 & Er4 & Est4 & Hhead & Edup & _);
    try done.
  { intros E. cbn. by rewrite E, Z.eqb_refl. }
  change (slist s2) with (slist { s2 with sbuf := b }). rewrite Hrel. cbn [mbind Res_bind].
  assert (sends sent self s4) as H4.
  { split; [by exists (seg_ack seg), nxt| |left]; rewrite ?Er4, ?Est4; apply Hq. }
  assert (forall s5, quiet s4 s5 -> sends sent self s5) as Hquiet.
  { intros s5 H5. eapply sends_trans; [exact H4|]. eapply quiet_sends; [done|apply H4]. }
  pose proof (live_sends _ _ _ Hlive H4) as Hlive4.
  destruct (dup_acks s4 >=? 3).
  - destruct (LARGER_OR_EQUAL (snd_una s4) (recover s4)) eqn:Hrec.
    { eexists. split; [reflexivity|]. cbn. split; [done|]. apply Hquiet. by split. }
    destruct Hhead as (id & rest & Esl & Hni).
    { pose proof (sv_recover _ _ _ _ Hinv4). rewrite (sv_una _ _ _ _ Hinv4) in Hrec.
      apply not_true_iff_false in Hrec. rewrite LARGER_OR_EQUAL_spec in Hrec. machine_int. }
    rewrite Esl. cbn [head deref mbind Res_bind].
    destruct (retransmit_first sent s4 id rest now (ss_sender _ _ _ H4) Hlive4 Esl Hni) as (status & s5 & -> & H5 & Hfl).
    cbn [mbind Res_bind]. pose proof (sends_trans _ _ _ _ H4 H5) as H45. destruct (negb (status =? 0)).
    + destruct (reset_flow sent self s5 status H45 Hlive) as (s6 & -> & H6). cbn [mbind Res_bind].
      eexists. by split; [reflexivity|].
    + eexists. split; [reflexivity|]. cbn. split; [done|]. eapply sends_trans; [exact H45|].
      apply quiet_sends; [by split|apply H45].
  - change (cwnd { s4 with dup_acks := 0 }) with (cwnd s4). change (ssthresh { s4 with dup_acks := 0 }) with (ssthresh s4).
    destruct (Z.ltb_spec (cwnd s4) (ssthresh s4)).
    { eexists. split; [reflexivity|]. cbn. split; [done|]. apply Hquiet. by split. }
    unfold udiv. pose proof (sv_thresh _ _ _ _ Hinv4). rewrite (proj2 (Z.eqb_neq (cwnd s4) 0)) by lia.
    eexists. split; [reflexivity|]. cbn. split; [done|]. apply Hquiet. by split.
Qed.

Lemma head_in_flight sent self :
  sender sent self -> snd_una self <> snd_nxt self -> in_flight self.
Proof.
  intros (una & nxt & Hinv) Hne. rewrite (sv_una _ _ _ _ Hinv), (sv_nxt _ _ _ _ Hinv) in Hne.
  destruct (sv_queue _ _ _ _ Hinv) as (before & Hsl & Hb & _). apply (in_flight_before before); [apply Hinv|done|].
  by intros ->.
Qed.

Lemma double_mss s : mss_ok s -> 0 < u32 (2 * mss s).
Proof. pose proof mss_max_fits. intros [? _]. rewrite u32_small; lia. Qed.

Lemma process_duplicate_ack_spec sent self seg now :
  sender sent self -> live self ->
  exists fl, process_duplicate_ack self seg now = Ok fl /\ flow_sends sent self (sends sent self) fl.
Proof.
  intros Hs Hlive. unfold process_duplicate_ack. rewrite (window_shift self (seg_wnd seg) Hlive).
  cbn [mbind Res_bind]. cbn zeta. set (s1 := { self with snd_wnd := _ }).
  assert (quiet self s1) as Hq by by split.
  change (snd_una s1) with (snd_una self). change (snd_nxt s1) with (snd_nxt self).
  clearbody s1. pose proof (quiet_sends _ _ _ Hq Hs) as H1.
  assert (forall s2, quiet s1 s2 -> sends sent self s2) as Hquiet.
  { intros s2 H2. eapply sends_trans; [exact H1|]. eapply quiet_sends; [done|apply H1]. }
  destruct (seg_len seg >? 0); [by eexists|].
  destruct (Z.eqb_spec (snd_una self) (snd_nxt self)) as [E|Hne]; cbn [negb].
  { eexists. split; [reflexivity|]. apply Hquiet. by split. }
  set (s2 := { s1 with dup_acks := _ }). assert (quiet s1 s2) as Hq2 by by split.
  clearbody s2. pose proof (Hquiet _ Hq2) as H2. pose proof (live_sends _ _ _ Hlive H2) as Hlive2.
  assert (snd_una s2 <> snd_nxt s2) as Hne2.
  { destruct Hq as [E1 _ _ _], Hq2 as [E2 _ _ _]. unfold send_side, send_core in *. congruence. }
  destruct (dup_acks s2 =? 3).
  - destruct (LARGER_OR_EQUAL (snd_una s2) (recover s2) || (seg_tsecr seg =? last_acked_ts s2)); [|by eexists].
    destruct (head_in_flight sent s2 (ss_sender _ _ _ H2) Hne2) as (id & rest & Esl & Hni).
    rewrite Esl. cbn [head deref mbind Res_bind].
    destruct (retransmit_first sent s2 id rest now (ss_sender _ _ _ H2) Hlive2 Esl Hni) as (status & s5 & -> & H5 & Hfl).
    cbn [mbind Res_bind]. pose proof (sends_trans _ _ _ _ H2 H5) as H25. destruct (negb (status =? 0)).
    + destruct (reset_flow sent self s5 status H25 Hlive) as (s6 & -> & H6). cbn [mbind Res_bind].
      eexists. by split; [reflexivity|].
    + eexists. split; [reflexivity|]. cbn. destruct H25 as [(una & nxt & Hinv) Er Est].
      split; [exists una, nxt|exact Er|exact Est].
      pose proof (double_mss s5 (send_inv_mss _ _ _ _ Hinv)).
      destruct Hinv. split; try done; cbn; try lia.
  - destruct (dup_acks s2 >? 3); (eexists; split; [reflexivity|]); [|exact H2]. cbn.
    case_match; [|exact H2]. eapply sends_trans; [exact H2|]. apply quiet_sends; [by split|apply H2].
Qed.


(** ** Received data *)

(** What the receiving side leaves alone. *)
Definition agreed (self : PseudoTcpSocket) :=
  (rwnd_scale self, swnd_scale self, support_fin_ack self, shutdown self, shutdown_reads self,
   rcv_fin self, conv self, callbacks self).

Record receives (self self' : PseudoTcpSocket) : Prop := {
  rc_send : send_side self' = send_side self;
  rc_agreed : agreed self' = agreed self;
  rc_state : state self' = state self;
  rc_trace : trace self' = trace self
}.

Lemma receives_trans s1 s2 s3 : receives s1 s2 -> receives s2 s3 -> receives s1 s3.
Proof. intros [] []. split; congruence. Qed.

Lemma receives_sender sent self self' : receives self self' -> sender sent self -> sender sent self'.
Proof.
  intros [Es _ _ Et] (una & nxt & Hinv). exists una, nxt. eapply send_inv_ext; [done| |done]. rewrite Et. apply Hinv.
Qed.

Lemma receives_live self self' : receives self self' -> live self -> live self'.
Proof.
  intros [_ E S _] [? ? ? ? ? ? Hreads]. unfold agreed in E. injection E as.
  split; try congruence; rewrite S; try done; intros ?; apply Hreads; congruence.
Qed.

Lemma recover_segments_receives l self sf sf' self' :
  recover_segments l self sf = Ok (sf', self') -> receives self self'.
Proof.
  induction l as [|x l IH] in self, sf |- *; cbn [recover_segments].
  - intros [= _ <-]. by split.
  - destruct (SMALLER_OR_EQUAL (rseg_seq x) (rcv_nxt self)); [|intros [= _ <-]; by split].
    destruct (LARGER (u32 (rseg_seq x + rseg_len x)) (rcv_nxt self)); cbn [mbind Res_bind]; [|apply IH].
    destruct (pseudo_tcp_fifo_consume_write_buffer _ _) as [b|]; cbn [mbind Res_bind]; [|done].
    intros Hrun. apply IH in Hrun. eapply receives_trans; [|exact Hrun]. by split.
Qed.

Lemma process_data_receives self seg sf new sf' self' :
  process_data self seg sf = Ok (new, sf', self') -> receives self self'.
Proof.
  unfold process_data. destruct (seg_len seg >? 0); [|intros [= _ _ <-]; by split].
  destruct (_ || _); [intros [= _ _ <-]; case_match; by split|].
  destruct (pseudo_tcp_fifo_write_offset _ _ _) as [[res b]|]; cbn [mbind Res_bind]; [|done].
  destruct (c_assert _); cbn [mbind Res_bind]; [|done].
  destruct (seg_seq seg =? rcv_nxt self); [|intros [= _ _ <-]; by split].
  destruct (pseudo_tcp_fifo_consume_write_buffer _ _) as [b'|]; cbn [mbind Res_bind]; [|done].
  destruct (recover_segments _ _ _) as [[sf2 s2]|] eqn:Hrec; cbn [mbind Res_bind]; [|done].
  intros [= _ _ <-]. apply recover_segments_receives in Hrec. eapply receives_trans; [|exact Hrec]. by split.
Qed.

(** ** The invariant of an end *)

(** The streams that begin with what the peer wrote so far. *)
Definition begins (stream : Z -> byte) (peer : list byte) : Prop := slice stream 0 (length peer) = peer.

(** [sent] is this end's stream, [peer] the other's, whose first [base] bytes were
    handed to the application; the rest that arrived in order is in the buffer. *)
Record end_inv (sent peer : list byte) (base : Z) (self : PseudoTcpSocket) : Prop := {
  en_sender : sender sent self;
  en_live : live self;
  en_recv : forall stream, begins stream peer -> recv_inv stream 0 self base (base + data_length (rbuf self));
  en_base : OPENING <= base <= zlen peer;
  en_peer : zlen peer < STREAM_MAX
}.

Definition stream_of (l : list byte) (d : byte) (p : Z) : byte := default d (l !! Z.to_nat p).

Lemma begins_stream_of l d : begins (stream_of l d) l.
Proof.
  unfold begins. apply list_eq_same_length with (n := length l); [done|by rewrite length_slice|].
  intros i x y Hi. rewrite lookup_slice by done. unfold stream_of. rewrite Z.add_0_l, Nat2Z.id.
  intros [= <-] E. rewrite E. done.
Qed.

(** No more arrives than the peer wrote. *)
Lemma end_received sent peer base self : end_inv sent peer base self -> base + data_length (rbuf self) <= zlen peer.
Proof.
  intros [_ _ Hrecv Hbase _]. destruct (Z.le_gt_cases (base + data_length (rbuf self)) (zlen peer)) as [|Hgt]; [done|].
  exfalso. pose proof (Hrecv _ (begins_stream_of peer Byte.x00)) as [_ _ _ _ H1 _].
  pose proof (Hrecv _ (begins_stream_of peer Byte.x01)) as [_ _ _ _ H2 _]. unfold OPENING, zlen in *.
  specialize (H1 (Z.of_nat (length peer)) ltac:(lia)). specialize (H2 (Z.of_nat (length peer)) ltac:(lia)).
  unfold ring_ok, stream_of in *. rewrite H1 in H2. rewrite Nat2Z.id, lookup_ge_None_2 in H2 by lia. done.
Qed.

(** Bytes of the peer at a position are those of every such stream. *)
Lemma prefix_slice stream peer q d :
  begins stream peer -> 0 <= q -> d `prefix_of` drop (Z.to_nat q) peer -> d = [] \/ q + zlen d <= zlen peer /\ d = slice stream q (length d).
Proof.
  intros Hb Hq [more Hd]. destruct d as [|x d]; [by left|right]. unfold zlen.
  pose proof (f_equal length Hd) as Hl. rewrite length_drop, length_app in Hl. cbn [length] in *.
  split; [lia|]. unfold begins in Hb. rewrite <- Hb, drop_slice in Hd.
  replace (0 + Z.of_nat (Z.to_nat q)) with q in Hd by lia.
  apply (f_equal (take (length (x :: d)))) in Hd. rewrite take_app_length, take_slice in Hd by (cbn; lia). done.
Qed.

Lemma recv_inv_ext stream isn self self' base nxt :
  rbuf self' = rbuf self -> rcv_nxt self' = rcv_nxt self -> rlist self' = rlist self ->
  recv_inv stream isn self base nxt -> recv_inv stream isn self' base nxt.
Proof. intros E1 E2 E3 []. split; by rewrite ?E1, ?E2, ?E3. Qed.

Lemma sends_end sent sent' peer base self self' :
  sends sent' self self' -> end_inv sent peer base self -> end_inv sent' peer base self'.
Proof.
  intros H1 [Hs Hl Hr Hb Hp]. pose proof (live_sends _ _ _ Hl H1) as Hl'. destruct H1 as [Hs' Er _].
  unfold recv_side in Er. injection Er as E1 E2 E3 _. split; try done.
  intros stream Hst. rewrite E1. by apply (recv_inv_ext _ _ self), Hr.
Qed.

Lemma piece_segment stream sent peer base self seg :
  end_inv sent peer base self -> begins stream peer -> piece peer seg -> seg_flags seg = FLAG_NONE ->
  exists q n, is_segment stream 0 seg q n /\ near (base + data_length (rbuf self)) q n.
Proof.
  intros Hend Hst [Hseq Hlen _ Hk] Hf. pose proof (end_received _ _ _ _ Hend) as Hrcv.
  destruct Hend as [_ _ Hr [Hb _] Hp]. pose proof (wf_data _ (ri_wf _ _ _ _ _ (Hr _ Hst))) as Hd.
  unfold STREAM_MAX, OPENING in *.
  destruct Hk as [[E _]|[[E _]|(_ & Hpre & _)]]; [by rewrite Hf in E..|].
  exists (seg_seq seg), (length (seg_data seg)).
  split; [|split; [lia|exact Hlen]]. split.
  - unfold seq_at. rewrite Z.add_0_l, u32_small; [done|]. lia.
  - destruct (prefix_slice stream peer (seg_seq seg) (seg_data seg) Hst) as [E|[_ E]]; [lia|done| |done].
    by rewrite E.
Qed.

Lemma process_data_end sent peer base self seg sf :
  end_inv sent peer base self -> piece peer seg -> seg_flags seg = FLAG_NONE \/ seg_flags seg = FLAG_CTL ->
  exists new sf' self', process_data self (trim_back self (trim_front self seg)) sf = Ok (new, sf', self') /\
    end_inv sent peer base self' /\ receives self self'.
Proof.
  intros Hend Hpiece [Hf|Hf].
  - pose proof Hend as [Hs Hl Hr Hb Hp].
    assert (data_accepted self seg) as Hacc.
    { split; [by rewrite Hf|]. left. apply Hl. }
    assert (forall stream, begins stream peer -> exists new sf' self',
      process_data self (trim_back self (trim_front self seg)) sf = Ok (new, sf', self') /\
      recv_inv stream 0 self' base (base + data_length (rbuf self'))) as Hall.
    { intros stream Hst. destruct (piece_segment stream _ _ _ _ _ Hend Hst Hpiece Hf) as (q & n & Hseg & Hnear).
      destruct (receive_spec stream 0 self seg sf base _ q n (Hr _ Hst) Hseg Hnear Hacc)
        as (new & sf' & s1 & nxt' & Hrun & Hinv & _). exists new, sf', s1. split; [done|].
      pose proof (ri_len _ _ _ _ _ Hinv). by replace (base + data_length (rbuf s1)) with nxt' by lia. }
    destruct (Hall _ (begins_stream_of peer Byte.x00)) as (new & sf' & s1 & Hrun & _).
    exists new, sf', s1. split; [done|]. pose proof (process_data_receives _ _ _ _ _ _ Hrun) as Hrc.
    split; [|done]. split; [by eapply receives_sender|by eapply receives_live| |done|done].
    intros stream Hst. destruct (Hall _ Hst) as (? & ? & ? & Hrun' & Hinv). rewrite Hrun in Hrun'. by simplify_eq.
  - exists false, sf, self. split; [|split; [done|by split]].
    destruct Hpiece as [_ _ _ Hk]. rewrite Hf in Hk. destruct Hk as [(_ & Hq & Hd)|[[E _]|[E _]]]; [|done..].
    pose proof (end_received _ _ _ _ Hend) as Hrcv. destruct Hend as [_ _ Hr Hb Hp].
    pose proof (Hr _ (begins_stream_of peer Byte.x00)) as Hinv. pose proof (wf_data _ (ri_wf _ _ _ _ _ Hinv)).
    pose proof (ri_nxt _ _ _ _ _ Hinv) as Hn. unfold seq_at, STREAM_MAX, OPENING in *. rewrite Z.add_0_l, u32_small in Hn by lia.
    assert (seg_data (trim_back self (trim_front self seg)) = []) as E.
    { assert (seg_data (trim_front self seg) = []) as E.
      { unfold trim_front. rewrite Hq, Hn. assert (SMALLER 0 (base + data_length (rbuf self)) = true) as ->.
        { unfold SMALLER. apply LARGER_spec. machine_int. }
        unfold seg_len. rewrite Hd. change (Z.of_nat (length opening)) with 7.
        rewrite u32_small, (proj2 (Z.ltb_ge _ _)) by lia. done. }
      unfold trim_back. case_match; [|done]. case_match; [|done]. cbn. by rewrite E, take_nil. }
    unfold process_data, seg_len. by rewrite E.
Qed.

(** ** A segment *)

Lemma parse_opening self :
  parse_options self (tail opening) = Ok { self with swnd_scale := 0; support_fin_ack := true }.
Proof. reflexivity. Qed.

(** A repeated connect message says what was agreed on. *)
Lemma process_control_spec sent self seg peer :
  sender sent self -> live self -> piece peer seg -> seg_flags seg <> FLAG_RST ->
  exists b self', process_control self seg = Ok (Go (b, self')) /\ sends sent self self' /\ state self' = state self.
Proof.
  intros Hs Hlive [_ _ _ Hk] Hrst. unfold process_control.
  destruct Hk as [(Hf & _ & Hd)|[[Hf _]|[Hf _]]]; [|done|].
  2: { rewrite Hf. exists false, self. split; [done|]. split; [by apply sends_refl|done]. }
  rewrite Hf, Hd. change (Z.land FLAG_CTL FLAG_CTL =? 0) with false. cbn [opening fmap list_fmap].
  change (byte.unsigned (byte.of_Z CTL_CONNECT) =? CTL_CONNECT) with true. cbn iota.
  pose proof (parse_opening self) as Hparse. cbn [opening fmap list_fmap tail] in Hparse. rewrite Hparse.
  cbn [mbind Res_bind]. set (s1 := { self with swnd_scale := _; support_fin_ack := _ }).
  assert (sends sent self s1) as H1.
  { destruct Hlive as [_ Hfin _ _ Hsc _]. apply sends_ext; [done| | |by left|done].
    - unfold recv_side; cbn. by rewrite Hfin, Hsc.
    - by destruct Hs as (? & ? & []). }
  exists true, s1. change (state s1) with (state self).
  destruct (lv_state _ Hlive) as [-> | ->]; by split.
Qed.

(** Without the flag, and before the sequence numbers wrap, there is no FIN. *)
Lemma process_fin_spec peer base sent self seg :
  end_inv sent peer base self -> piece peer seg ->
  process_fin self seg false = Ok (Go (false, self)).
Proof.
  intros Hend [Hseq Hlen _ Hk]. pose proof (end_received _ _ _ _ Hend) as Hrcv. destruct Hend as [_ Hl Hr Hb Hp].
  pose proof (Hr _ (begins_stream_of peer Byte.x00)) as Hinv.
  pose proof (ri_nxt _ _ _ _ _ Hinv) as Hn. pose proof (wf_data _ (ri_wf _ _ _ _ _ Hinv)) as Hd.
  unfold process_fin. rewrite (lv_fin_ack _ Hl).
  assert (Z.land (seg_flags seg) FLAG_FIN = 0) as ->.
  { destruct Hk as [[-> _]|[[-> _]|[-> _]]]; done. }
  cbn [negb andb Z.eqb]. rewrite (lv_rcv_fin _ Hl).
  unfold seq_at, STREAM_MAX, OPENING, MAX_PACKET, seg_len in *. rewrite Z.add_0_l, u32_small in Hn by lia.
  rewrite Hn, (u32_small (_ + _)) by lia. rewrite (proj2 (Z.eqb_neq (_ + Z.of_nat _) 0)) by lia.
  rewrite andb_false_r. unfold fin_transition. by destruct (lv_state _ Hl) as [-> | ->].
Qed.

Lemma process_tail_spec sent peer base self seg :
  end_inv sent peer base self -> piece peer seg -> seg_flags seg <> FLAG_RST ->
  exists r self', process_tail self seg false = Ok (r, self') /\ end_inv sent peer base self'.
Proof.
  intros Hend Hpiece Hrst. unfold process_tail. rewrite (process_fin_spec peer base sent) by done. cbn [mbind Res_bind].
  assert (sends sent self (notify_writable self)) as H1.
  { unfold notify_writable. pose proof (en_sender _ _ _ _ Hend) as Hs.
    assert (Forall (event_ok sent) (trace self)) as Htr by (by destruct Hs as (? & ? & [])).
    case_match; [case_match|]; (apply sends_ext; [done|done| |by left|done]); try done. by constructor. }
  pose proof (sends_end _ _ _ _ _ _ H1 Hend) as Hend1. set (s1 := notify_writable self) in *. clearbody s1.
  destruct (process_data_end sent peer base s1 seg (ack_policy s1 seg false) Hend1 Hpiece)
    as (new & sf & s2 & -> & Hend2 & _).
  { destruct Hpiece as [_ _ _ [[-> _]|[[? _]|[-> _]]]]; auto. done. }
  cbn [mbind Res_bind]. pose proof Hend2 as [Hs2 Hl2 _ _ _].
  destruct (attempt_send_spec sent s2 sf Hs2 (lv_rscale _ Hl2) (lv_state _ Hl2)) as (s3 & -> & H3). cbn [mbind Res_bind id] in *.
  pose proof (sends_end _ _ _ _ _ _ H3 Hend2) as Hend3.
  do 2 eexists. split; [reflexivity|]. case_match; [|done].
  eapply sends_end; [|exact Hend3]. pose proof (en_sender _ _ _ _ Hend3) as Hs3.
  apply sends_ext; try done; [|by left]. constructor; [done|]. by destruct Hs3 as (? & ? & []).
Qed.

Lemma time_quiet self t : quiet self (get_current_time self).2 /\ quiet self { (get_current_time self).2 with last_traffic := t; lastrecv := t; bOutgoing := false }.
Proof. unfold get_current_time. by destruct (negb (current_time self =? 0)). Qed.

(** Any piece of the peer's stream. *)
Lemma process_spec sent peer base self seg :
  end_inv sent peer base self -> piece peer seg ->
  exists r self', process self seg = Ok (r, self') /\ end_inv sent peer base self'.
Proof.
  intros Hend Hpiece. unfold process. destruct (negb (seg_conv seg =? conv self)); [by exists false, self|].
  destruct (get_current_time self) as [now s0] eqn:Et. cbn zeta.
  set (s1 := { s0 with last_traffic := now; lastrecv := now; bOutgoing := false }).
  assert (quiet self s1) as Hq by (unfold s1; change s0 with (snd (now, s0)); rewrite <- Et; apply time_quiet).
  clearbody s1. pose proof (quiet_sends _ _ _ Hq (en_sender _ _ _ _ Hend)) as H1.
  pose proof (sends_end _ _ _ _ _ _ H1 Hend) as Hend1. pose proof Hend1 as [Hs1 Hl1 _ _ _].
  assert (forall e src, exists s2, closedown s1 e src = Ok s2 /\ end_inv sent peer base s2) as Hclose.
  { intros e src. destruct (closedown_spec sent s1 e src Hs1) as (s2 & -> & H2 & _); [apply Hl1..|].
    exists s2. split; [done|by eapply sends_end]. }
  destruct (_ || _).
  { destruct (negb (Z.land (seg_flags seg) FLAG_RST =? 0)); cbn [mbind Res_bind]; [by exists false, s1|].
    destruct (Hclose 0 CLOSEDOWN_LOCAL) as (s2 & -> & H2). by exists false, s2. }
  destruct (negb (Z.land (seg_flags seg) FLAG_RST =? 0)) eqn:Hrst; cbn [mbind Res_bind].
  { destruct (Hclose ECONNRESET CLOSEDOWN_REMOTE) as (s2 & -> & H2). by exists false, s2. }
  assert (seg_flags seg <> FLAG_RST) as Hnr by (intros E; by rewrite E in Hrst).
  destruct (process_control_spec sent s1 seg peer Hs1 Hl1 Hpiece Hnr) as (bc & s2 & -> & H2 & _). cbn [mbind Res_bind].
  match goal with |- context [if ?c then { s2 with ts_recent := ?t } else s2] =>
    set (s3 := if c then { s2 with ts_recent := t } else s2) end.
  assert (sends sent s1 s3) as H3.
  { eapply sends_trans; [exact H2|]. apply quiet_sends; [unfold s3; case_match; by split|apply H2]. }
  clearbody s3. pose proof (sends_end _ _ _ _ _ _ H3 Hend1) as Hend3. pose proof Hend3 as [Hs3 Hl3 _ _ _].
  assert (exists fl, (if LARGER (seg_ack seg) (snd_una s3) && SMALLER_OR_EQUAL (seg_ack seg) (snd_nxt s3)
      then process_valuable_ack s3 seg now
      else if seg_ack seg =? snd_una s3 then
        fl ← process_duplicate_ack s3 seg now;
        Ok (match fl with Go self => Go (false, self) | Return r self => Return r self end)
      else Ok (Go (false, s3))) = Ok fl /\
    flow_sends sent s3 (fun r => r.1 = false /\ sends sent s3 r.2) fl) as (fl & -> & Hfl).
  { destruct (LARGER (seg_ack seg) (snd_una s3)) eqn:E1, (SMALLER_OR_EQUAL (seg_ack seg) (snd_nxt s3)) eqn:E2; cbn [andb];
      [by apply process_valuable_ack_spec; try done; apply Hpiece|..];
      (case_match; [|eexists; split; [reflexivity|]; split; [done|by apply sends_refl]]);
      destruct (process_duplicate_ack_spec sent s3 seg now Hs3 Hl3) as (fl & -> & Hfl); cbn [mbind Res_bind];
      (eexists; split; [reflexivity|]); by destruct fl. }
  cbn [mbind Res_bind]. destruct fl as [[fa s4]|r s4]; cbn in Hfl.
  2: { exists r, s4. split; [done|by eapply sends_end]. }
  destruct Hfl as [-> H4]. pose proof (sends_end _ _ _ _ _ _ H4 Hend3) as Hend4.
  rewrite bool_decide_false by (destruct (lv_state _ (en_live _ _ _ _ Hend4)) as [-> | ->]; done). cbn [andb mbind Res_bind].
  by apply process_tail_spec.
Qed.

(** ** The operations *)

Lemma notify_packet_spec sent peer base self bytes :
  end_inv sent peer base self -> packet_ok peer bytes ->
  exists r self', pseudo_tcp_socket_notify_packet self bytes = Ok (r, self') /\ end_inv sent peer base self'.
Proof.
  intros Hend [Hlen Hpiece]. pose proof mss_max_fits. unfold HEADER_SIZE in Hlen. unfold pseudo_tcp_socket_notify_packet. fold (zlen bytes).
  rewrite Z.gtb_ltb, !(proj2 (Z.ltb_ge _ _)) by (unfold MAX_PACKET, HEADER_SIZE in *; lia). unfold parse.
  rewrite length_take. unfold zlen, HEADER_SIZE in *.
  replace (Z.of_nat (Z.to_nat 24 `min` length bytes)) with 24 by lia. cbn [Z.eqb negb].
  by apply process_spec.
Qed.

Lemma clock_spec sent peer base self :
  end_inv sent peer base self -> exists self', pseudo_tcp_socket_notify_clock self = Ok self' /\ end_inv sent peer base self'.
Proof.
  intros Hend. unfold pseudo_tcp_socket_notify_clock.
  destruct (get_current_time self) as [now s0] eqn:Et.
  assert (quiet self s0) as Hq by (change s0 with (snd (now, s0)); rewrite <- Et; apply (time_quiet self 0)).
  clear Et. pose proof (sends_end _ _ _ _ _ _ (quiet_sends _ _ _ Hq (en_sender _ _ _ _ Hend)) Hend) as Hend0. clear Hq.
  destruct (bool_decide (state s0 = TCP_CLOSED)); [by exists s0|].
  pose proof Hend0 as [Hs0 Hl0 _ _ _].
  rewrite (bool_decide_false (state s0 = TCP_TIME_WAIT)) by (destruct (lv_state _ Hl0) as [-> | ->]; done).
  rewrite andb_false_r. cbn [mbind Res_bind].
  rewrite (bool_decide_false (state s0 = TCP_LAST_ACK)) by (destruct (lv_state _ Hl0) as [-> | ->]; done).
  rewrite andb_false_r. cbn [mbind Res_bind].
  assert (exists fl, clock_retransmit s0 now = Ok fl /\ flow_sends sent s0 (sends sent s0) fl) as (fl & -> & Hfl).
  { unfold clock_retransmit. destruct (Z.eqb_spec (rto_base s0) 0) as [E|E]; cbn [negb andb].
    { eexists. split; [reflexivity|]. by apply sends_refl. }
    destruct (_ <=? 0); [|eexists; split; [reflexivity|]; by apply sends_refl].
    assert (in_flight s0) as (id & rest & Esl & Hni).
    { destruct Hs0 as (una & nxt & Hinv). destruct (sv_queue _ _ _ _ Hinv) as (before & Hsl & _ & _ & Hne).
      apply (in_flight_before before); [apply Hinv|done|auto]. }
    rewrite Esl. cbn [head mbind Res_bind].
    destruct (retransmit_first sent s0 id rest now Hs0 Hl0 Esl Hni) as (status & s5 & -> & H5 & Hfl). cbn [mbind Res_bind].
    destruct (Z.eqb_spec status 0) as [E0|_]; cbn [negb].
    2: { destruct (reset_flow sent s0 s5 status H5 Hl0) as (s6 & -> & H6). eexists. by split; [reflexivity|]. }
    - eexists. split; [reflexivity|]. cbn. eapply sends_trans; [exact H5|].
      destruct H5 as [(una & nxt & Hinv) _ _]. pose proof (double_mss s5 (send_inv_mss _ _ _ _ Hinv)).
      destruct (sv_queue _ _ _ _ Hinv) as (before & Hsl & Hb & Hc & _).
      assert (before <> []) as Hne by (apply (in_flight_before before s5); [apply Hinv|done|auto]).
      pose proof (sv_pos _ _ _ _ Hinv). pose proof (sv_nxt _ _ _ _ Hinv). unfold OPENING in *.
      set (s6 := if _ >=? 3 then _ else _).
      assert (send_inv sent una nxt s6 /\ recv_side s6 = recv_side s5 /\ state s6 = state s5) as (H6 & E1 & E2).
      { unfold s6. destruct Hinv. case_match; (split; [split; try done; cbn; first [lia|by exists before]|done]). }
      split; [by exists una, nxt|done|by left]. }
  cbn [mbind Res_bind]. destruct fl as [s1|r s1]; cbn in Hfl.
  2: { exists s1. split; [done|by eapply sends_end]. }
  pose proof (live_sends _ _ _ Hl0 Hfl) as Hl1.
  assert (exists fl, clock_probe s1 now = Ok fl /\ flow_sends sent s0 (sends sent s0) fl) as (fl & -> & Hfl2).
  { unfold clock_probe. destruct (_ && _); [|eexists; by split].
    destruct (_ >=? 15000).
    - destruct (reset_flow sent s0 s1 ECONNABORTED Hfl Hl0) as (s6 & -> & H6). eexists. by split; [reflexivity|].
    - pose proof (sender_nxt _ _ (ss_sender _ _ _ Hfl)) as [Hn1 Hn2]. unfold OPENING, STREAM_MAX in *.
      destruct (packet_sends sent s1 (u32 (snd_nxt s1 - 1)) now (ss_sender _ _ _ Hfl) (lv_rscale _ Hl1)) as ([w s2] & -> & H2 & _).
      { rewrite u32_small by lia. unfold STREAM_MAX. lia. }
      cbn [mbind Res_bind snd] in *. eexists. split; [reflexivity|]. cbn. eapply sends_trans; [exact Hfl|].
      eapply sends_trans; [exact H2|]. apply quiet_sends; [by split|apply H2]. }
  cbn [mbind Res_bind]. destruct fl as [s2|r s2]; cbn in Hfl2.
  2: { exists s2. split; [done|by eapply sends_end]. }
  pose proof (sends_end _ _ _ _ _ _ Hfl2 Hend0) as Hend2.
  destruct (_ && _); [|by exists s2].
  destruct (packet_sends sent s2 (snd_nxt s2) now (ss_sender _ _ _ Hfl2)) as ([w s3] & -> & H3 & _);
    [apply Hend2|apply (sender_nxt _ _ (ss_sender _ _ _ Hfl2))|].
  exists s3. split; [done|by eapply sends_end].
Qed.

Lemma receives_end sent peer base self self' :
  receives self self' -> rbuf self' = rbuf self -> rcv_nxt self' = rcv_nxt self -> rlist self' = rlist self ->
  end_inv sent peer base self -> end_inv sent peer base self'.
Proof.
  intros Hrc E1 E2 E3 [Hs Hl Hr Hb Hp].
  split; [by eapply receives_sender|by eapply receives_live| |done|done].
  intros stream Hst. rewrite E1. by apply (recv_inv_ext _ _ self), Hr.
Qed.

(** Reading gives the next bytes of the peer's stream, all that are there and asked
    for; an open socket that has none says that it would block. *)
Lemma recv_spec sent peer base self n :
  end_inv sent peer base self -> 0 < n < 2 ^ 31 -> shutdown_reads self = false ->
  exists r data self', pseudo_tcp_socket_recv self n = Ok (r, data, self') /\
    data = take (Z.to_nat (Z.min n (data_length (rbuf self)))) (drop (Z.to_nat base) peer) /\
    end_inv sent peer (base + zlen data) self' /\
    (r = zlen data \/ data = [] /\ r = -1 /\ error self' = EWOULDBLOCK) /\
    (r = 0 -> state self' = TCP_CLOSED) /\ shutdown_reads self' = false /\
    data_length (rbuf self') = data_length (rbuf self) - zlen data.
Proof.
  intros Hend Hn Hsr. unfold pseudo_tcp_socket_recv. pose proof Hend as [Hs Hl Hr Hb Hp].
  pose proof (end_received _ _ _ _ Hend) as Hrcv.
  rewrite (lv_fin_ack _ Hl), Hsr. cbn [andb negb]. rewrite (proj2 (Z.eqb_neq n 0)) by lia.
  set (k := Z.min n (data_length (rbuf self))).
  assert (forall stream, begins stream peer -> exists fifo,
    pseudo_tcp_fifo_read (rbuf self) n = Ok (slice stream base (Z.to_nat k), fifo) /\
    recv_inv stream 0 { self with rbuf := fifo } (base + k) (base + data_length (rbuf self))) as Hread.
  { intros stream Hst. destruct (read_spec stream 0 self base _ n (Hr _ Hst)) as (fifo & E & Hinv); [lia|].
    replace (base + data_length (rbuf self) - base) with (data_length (rbuf self)) in * by lia.
    by exists fifo. }
  destruct (Hread _ (begins_stream_of peer Byte.x00)) as (fifo & Hrun & Hinv0).
  pose proof (wf_data _ (ri_wf _ _ _ _ _ (Hr _ (begins_stream_of peer Byte.x00)))) as Hdl.
  assert (0 <= k) as Hk by (unfold k; lia).
  assert (slice (stream_of peer Byte.x00) base (Z.to_nat k) = take (Z.to_nat k) (drop (Z.to_nat base) peer)) as Eslice.
  { unfold OPENING, zlen in *. pose proof (begins_stream_of peer Byte.x00) as Hbs. unfold begins in Hbs.
    rewrite <- Hbs at 2. rewrite drop_slice, take_slice by (unfold k; lia). f_equal. lia. }
  rewrite Hrun, Eslice. cbn [mbind Res_bind]. set (data := take (Z.to_nat k) (drop (Z.to_nat base) peer)).
  assert (zlen data = k) as Hlen by (unfold data, zlen, OPENING in *; rewrite length_take, length_drop; unfold k in *; lia).
  fold (zlen data).
  set (s1 := { self with rbuf := fifo }).
  assert (end_inv sent peer (base + zlen data) s1) as H1.
  { split; [|by eapply (receives_live self)| |unfold OPENING, k in *; lia|done].
    { eapply (receives_sender sent self); [by split|done]. }
    intros stream Hst. destruct (Hread _ Hst) as (fifo' & E & Hinv). rewrite Hrun in E. injection E as _ <-.
    rewrite Hlen. pose proof (ri_len _ _ _ _ _ Hinv) as El. cbn in El.
    replace (base + k + data_length (rbuf s1)) with (base + data_length (rbuf self)); [done|]. cbn. lia. }
  assert (data_length (rbuf s1) = data_length (rbuf self) - zlen data) as Hdata1.
  { rewrite Hlen. destruct (Hread _ (begins_stream_of peer Byte.x00)) as (fifo' & E & Hinv).
    rewrite Hrun in E. injection E as <-. pose proof (ri_len _ _ _ _ _ Hinv) as El. cbn in El |- *. lia. }
  change (state s1) with (state self).
  destruct ((zlen data =? 0) && _) eqn:E0.
  { apply andb_true_iff in E0 as [E0%Z.eqb_eq _].
    assert (data = []) as Ed by (apply nil_length_inv; unfold zlen in E0; lia).
    do 3 eexists. split; [reflexivity|]. split; [by rewrite Ed|].
    split; [|split_and!; [by right|lia|exact Hsr|rewrite Ed in Hdata1; exact Hdata1]].
    rewrite Ed in H1. apply (receives_end _ _ _ s1); [by split|done..]. }
  assert (zlen data = 0 -> state self = TCP_CLOSED) as Hclosed.
  { intros E. rewrite E in E0. cbn in E0. destruct (lv_state _ Hl) as [Es|Es]; [|done]. by rewrite Es in E0. }
  assert (i32 (zlen data) = zlen data) as -> by (apply swrap_small; unfold k in *; lia).
  assert (forall w, end_inv sent peer (base + zlen data) { s1 with rcv_wnd := w }) as Hw.
  { intros w. eapply (receives_end _ _ _ s1); [by split|done..]. }
  destruct (_ >=? _); cbn [mbind Res_bind].
  2: { do 3 eexists. split; [reflexivity|]. split_and!; try done; by left. }
  destruct (rcv_wnd s1 =? 0); cbn [mbind Res_bind].
  2: { do 3 eexists. split; [reflexivity|]. split_and!; try done; try apply Hw; by left. }
  match goal with |- context [attempt_send ?s _] => set (s2 := s) end.
  assert (end_inv sent peer (base + zlen data) s2) as H2 by apply Hw.
  destruct (attempt_send_spec sent s2 sfImmediateAck (en_sender _ _ _ _ H2)) as (s3 & -> & H3); [apply H2|apply H2|].
  cbn [mbind Res_bind id] in *. do 3 eexists. split; [reflexivity|].
  split_and!; [done|by eapply sends_end|by left| | |].
  - intros E. destruct (ss_state _ _ _ H3) as [-> | ->]; [by apply Hclosed|done].
  - destruct H3 as [_ Er _]. unfold recv_side in Er. injection Er as. congruence.
  - destruct H3 as [_ Er _]. unfold recv_side in Er. injection Er as E1. by rewrite E1.
Qed.

Lemma next_clock_spec self timeout :
  live self -> exists r self', pseudo_tcp_socket_get_next_clock self timeout = Ok (r, self') /\ quiet self self' /\
    (state self = TCP_ESTABLISHED -> r <> None).
Proof.
  intros Hl. unfold pseudo_tcp_socket_get_next_clock. destruct (get_current_time self) as [now s0] eqn:Et.
  assert (quiet self s0) as Hq by (change s0 with (snd (now, s0)); rewrite <- Et; apply (time_quiet self 0)).
  pose proof (live_quiet _ _ Hq Hl) as Hl0.
  rewrite (lv_shutdown _ Hl0), !(bool_decide_false (SD_NONE = _)), (lv_fin_ack _ Hl0) by done. cbn [andb]. cbn zeta.
  rewrite <- (qt_state _ _ Hq). destruct (lv_state _ Hl0) as [-> | ->].
  - rewrite !bool_decide_false by done. cbn [andb]. do 2 eexists. by split; [reflexivity|].
  - rewrite bool_decide_true by done. do 2 eexists. by split; [reflexivity|].
Qed.

Lemma force_close_spec sent peer base self :
  end_inv sent peer base self -> exists self', pseudo_tcp_socket_close self true = Ok self' /\ end_inv sent peer base self'.
Proof.
  intros Hend. unfold pseudo_tcp_socket_close. pose proof Hend as [Hs Hl _ _ _]. cbn [andb].
  destruct (lv_state _ Hl) as [Est|Est]; rewrite Est.
  - rewrite bool_decide_false by done. cbn [negb].
    destruct (closedown_spec sent self ECONNABORTED CLOSEDOWN_LOCAL Hs) as (s1 & -> & H1 & _); [apply Hl..|].
    exists s1. split; [done|by eapply sends_end].
  - rewrite bool_decide_true by done. cbn [negb]. unfold pseudo_tcp_socket_shutdown. rewrite (lv_fin_ack _ Hl). cbn [negb].
    change (state { self with shutdown_reads := true }) with (state self). rewrite Est. eexists. split; [reflexivity|].
    destruct Hend as [(una & nxt & Hinv) [] Hr Hb Hp].
    split; [exists una, nxt|by split| |done|done].
    { eapply (send_inv_ext _ _ _ self); [done|apply (sv_trace _ _ _ _ Hinv)|exact Hinv]. }
    intros stream Hst. by apply (recv_inv_ext _ _ self), Hr.
Qed.

(** A socket that is closed has nothing to send: closing it is the same either way. *)
Lemma close_closed self : state self = TCP_CLOSED -> pseudo_tcp_socket_close self false = pseudo_tcp_socket_close self true.
Proof. intros E. unfold pseudo_tcp_socket_close. by rewrite E. Qed.

(** To connect again only sets the error. *)
Lemma connect_end sent peer base self :
  end_inv sent peer base self ->
  exists self', pseudo_tcp_socket_connect self = Ok (false, self') /\ end_inv sent peer base self'.
Proof.
  intros Hend. unfold pseudo_tcp_socket_connect.
  rewrite bool_decide_false by (destruct (lv_state _ (en_live _ _ _ _ Hend)) as [-> | ->]; done).
  eexists. split; [reflexivity|]. by apply (receives_end _ _ _ self).
Qed.

Lemma send_end sent peer base self data :
  end_inv sent peer base self -> zlen sent + zlen data < STREAM_MAX ->
  exists n self', pseudo_tcp_socket_send self data = Ok (n, self') /\ -1 <= n <= zlen data /\ (0 < zlen data -> n <> 0) /\
    end_inv (sent ++ take (Z.to_nat n) data) peer base self'.
Proof.
  intros Hend Hmax. destruct (send_spec sent self data (en_sender _ _ _ _ Hend) (en_live _ _ _ _ Hend) Hmax)
    as (n & s1 & -> & [[-> H1]|(Hn & Hpos & H1)]); exists n, s1 || exists (-1), s1; (split; [done|]).
  - split; [unfold zlen; lia|]. split; [lia|]. cbn [Z.to_nat]. rewrite take_0, app_nil_r. by eapply sends_end.
  - split; [lia|]. split; [lia|by eapply sends_end].
Qed.

(** More of the peer's stream changes nothing here. *)
Lemma end_peer_app sent peer base self more :
  end_inv sent peer base self -> zlen (peer ++ more) < STREAM_MAX -> end_inv sent (peer ++ more) base self.
Proof.
  intros [Hs Hl Hr Hb Hp] Hmax. split; try done.
  - intros stream Hst. apply Hr. unfold begins in *. rewrite length_app, slice_app in Hst.
    by apply app_inj_1 in Hst as [? _]; [|by rewrite length_slice].
  - unfold zlen in *. rewrite length_app. lia.
Qed.
End Acks.
