(* ===== verification/PseudoTcpPair.v ===== *)
(** * Two ends of a connection over a network

    Two sockets of [PseudoTcp] and a network that loses, repeats, delays and reorders
    packets: what can come in at one end is any packet that the other ever handed to
    its [WritePacket].  Every operation has its own environment, so clocks and the
    answers of the network are arbitrary throughout. *)

From S2P Require Import Prelude Fifo SeqArith PseudoTcp PseudoTcpProps PseudoTcpRecv PseudoTcpSend PseudoTcpEnd.

(** ** Runs *)

(** A socket with what its application wrote and read so far. *)
Record endpoint := { ep_sock : PseudoTcpSocket; ep_wrote : list byte; ep_read : list byte }.

Inductive endpoint_op :=
| OpSend (data : list byte)
| OpRecv (n : Z)
| OpClock
| OpNextClock (timeout : Z)
| OpClose
| OpDeliver (bytes : list byte).

Section Pair.
Context `{MB : !MssBound, Malloc0 : !Malloc}.

Definition endpoint_do (env : PseudoTcpEnv) (op : endpoint_op) (e : endpoint) : Res endpoint :=
  match op with
  | OpSend data =>
      '(n, s) ← pseudo_tcp_socket_send (ep_sock e) data;
      Ok { e with ep_sock := s; ep_wrote ::= (fun l => l ++ take (Z.to_nat n) data) }
  | OpRecv n =>
      '(_, data, s) ← pseudo_tcp_socket_recv (ep_sock e) n;
      Ok { e with ep_sock := s; ep_read ::= (fun l => l ++ data) }
  | OpClock => s ← pseudo_tcp_socket_notify_clock (ep_sock e); Ok { e with ep_sock := s }
  | OpNextClock t => '(_, s) ← pseudo_tcp_socket_get_next_clock (ep_sock e) t; Ok { e with ep_sock := s }
  | OpClose => s ← pseudo_tcp_socket_close (ep_sock e) true; Ok { e with ep_sock := s }
  | OpDeliver bytes => '(_, s) ← pseudo_tcp_socket_notify_packet (ep_sock e) bytes; Ok { e with ep_sock := s }
  end.

Inductive side := SideA | SideB.
Definition pair_step : Type := side * PseudoTcpEnv * endpoint_op.

Definition pair_do (st : pair_step) (p : endpoint * endpoint) : Res (endpoint * endpoint) :=
  let '(who, env, op) := st in
  match who with
  | SideA => a ← endpoint_do env op p.1; Ok (a, p.2)
  | SideB => b ← endpoint_do env op p.2; Ok (p.1, b)
  end.

Fixpoint pair_run (steps : list pair_step) (p : endpoint * endpoint) : Res (endpoint * endpoint) :=
  match steps with
  | [] => Ok p
  | st :: steps => p ← pair_do st p; pair_run steps p
  end.

(** What the network may deliver, and how much may be written or read. *)
Definition op_possible (op : endpoint_op) (e other : endpoint) : Prop :=
  match op with
  | OpSend data => OPENING + zlen (ep_wrote e) + zlen data < STREAM_MAX
  | OpRecv n => 0 < n < 2 ^ 31
  | OpDeliver bytes => exists w, EvPacket bytes w ∈ trace (ep_sock other)
  | _ => True
  end.

Definition step_possible (st : pair_step) (p : endpoint * endpoint) : Prop :=
  match st.1.1 with SideA => op_possible st.2 p.1 p.2 | SideB => op_possible st.2 p.2 p.1 end.

Fixpoint run_possible (steps : list pair_step) (p : endpoint * endpoint) : Prop :=
  match steps with
  | [] => True
  | st :: steps => step_possible st p /\
      match pair_do st p with Ok p => run_possible steps p | Fault _ => True end
  end.

(** A socket whose connect message was acknowledged, and that has the other's, before
    anything else was written: the end of the handshake. *)
Record connected (self : PseudoTcpSocket) : Prop := {
  cn_state : state self = TCP_ESTABLISHED;
  cn_agreed : support_fin_ack self = true /\ shutdown self = SD_NONE /\
      rwnd_scale self = 0 /\ swnd_scale self = 0 /\ rcv_fin self = 0 /\ shutdown_reads self = false;
  cn_sent : snd_una self = OPENING /\ snd_nxt self = OPENING /\ slist self = [] /\ unsent_slist self = [] /\
      rto_base self = 0 /\ 0 <= recover self <= OPENING;
  cn_sbuf : fifo_wf (sbuf self) /\ buffer_length (sbuf self) <= 1024 * 1024 * 64 /\ data_length (sbuf self) = 0;
  cn_received : rcv_nxt self = OPENING /\ rlist self = [];
  cn_rbuf : fifo_wf (rbuf self) /\ buffer_length (rbuf self) < 2 ^ 30 /\ data_length (rbuf self) = 0;
  cn_sizes : mss_ok self /\ 0 < ssthresh self;
  cn_trace : Forall (event_ok opening) (trace self)
}.

Definition start (s : PseudoTcpSocket) : endpoint := {| ep_sock := s; ep_wrote := []; ep_read := [] |}.

(** ** The invariant *)

(** What was read is what the other end wrote, as far as it was read. *)
Record endpoint_inv (e other : endpoint) : Prop := {
  ei_end : end_inv (opening ++ ep_wrote e) (opening ++ ep_wrote other) (OPENING + zlen (ep_read e)) (ep_sock e);
  ei_read : ep_read e `prefix_of` ep_wrote other
}.

Lemma connected_end_inv self : connected self -> end_inv opening opening OPENING self.
Proof.
  intros [Hst (Hf & Hsd & Hr & Hs & Hrf & Hrd) (Hu & Hn & Hsl & Hus & Hrto & Hrec) (Hw & Hc & Hd) (Hrn & Hrl) (Hw2 & Hc2 & Hd2) [Hm Hth] Htr].
  split.
  - exists OPENING, OPENING. split; try done.
    + apply nil_length_inv. pose proof (length_fifo_data _ Hw). lia.
    + exists []. by rewrite Hsl, Hus.
    + rewrite Hsl. constructor.
    + by rewrite Hsl.
    + apply Hm.
    + apply Hm.
  - split; auto. by rewrite Hrd.
  - intros stream _. rewrite Hd2, Z.add_0_r. split; try done; try (by rewrite ?Hrn, ?Hd2); try (intros; lia).
    exists []. rewrite Hrl. split_and!; done || constructor.
  - done.
  - done.
Qed.

(** ** One operation *)

Lemma zlen_app {A} (l m : list A) : zlen (l ++ m) = zlen l + zlen m.
Proof. unfold zlen. rewrite length_app. lia. Qed.

Lemma zlen_opening l : zlen (opening ++ l) = OPENING + zlen l.
Proof. by rewrite zlen_app. Qed.

Lemma drop_opening n l : 0 <= n -> drop (Z.to_nat (OPENING + n)) (opening ++ l) = drop (Z.to_nat n) l.
Proof.
  intros Hn. rewrite drop_app_ge by (cbn; unfold OPENING; lia). f_equal. cbn. unfold OPENING. lia.
Qed.

(** The bytes read next are those that follow what was read. *)
Lemma prefix_more (r l : list byte) k :
  r `prefix_of` l -> r ++ take k (drop (length r) l) `prefix_of` l.
Proof.
  intros [m ->]. rewrite drop_app_length. exists (drop k m). by rewrite <- app_assoc, take_drop.
Qed.

Lemma endpoint_do_spec env op e other :
  endpoint_inv e other -> op_possible op e other ->
  (forall bytes w, EvPacket bytes w ∈ trace (ep_sock other) -> packet_ok (opening ++ ep_wrote other) bytes) ->
  exists e', endpoint_do env op e = Ok e' /\ endpoint_inv e' other /\
    exists more, ep_wrote e' = ep_wrote e ++ more /\ OPENING + zlen (ep_wrote e') < STREAM_MAX.
Proof.
  intros [Hend Hread] Hop Hnet.
  assert (OPENING + zlen (ep_wrote e) < STREAM_MAX) as Hsize.
  { destruct (en_sender _ _ _ _ Hend) as (una & nxt & Hinv). pose proof (sv_pos _ _ _ _ Hinv) as Hpos.
    rewrite zlen_opening in Hpos. lia. }
  assert (forall s, end_inv (opening ++ ep_wrote e) (opening ++ ep_wrote other) (OPENING + zlen (ep_read e)) s ->
    endpoint_inv { e with ep_sock := s } other /\ exists more, ep_wrote { e with ep_sock := s } = ep_wrote e ++ more /\
      OPENING + zlen (ep_wrote { e with ep_sock := s }) < STREAM_MAX) as Hsame.
  { intros s Hs. split; [by split|]. exists []. by rewrite app_nil_r. }
  destruct op as [data|n| |t| |bytes]; cbn [endpoint_do op_possible] in *.
  - destruct (send_end _ _ _ _ data Hend) as (n & s & -> & Hn & _ & Hs); [rewrite zlen_opening; lia|]. cbn [mbind Res_bind].
    eexists. split; [reflexivity|]. rewrite <- app_assoc in Hs. split; [by split|].
    exists (take (Z.to_nat n) data). split; [done|]. cbn. rewrite zlen_app.
    pose proof (length_take data (Z.to_nat n)). unfold zlen in *. lia.
  - destruct (shutdown_reads (ep_sock e)) eqn:Hsr.
    { unfold pseudo_tcp_socket_recv. rewrite (lv_fin_ack _ (en_live _ _ _ _ Hend)), Hsr. cbn [andb mbind Res_bind].
      eexists. split; [reflexivity|]. split; [|exists []; by rewrite app_nil_r].
      by split; cbn; rewrite app_nil_r. }
    destruct (recv_spec _ _ _ _ n Hend Hop Hsr) as (r & data & s & -> & Hdata & Hs & _). cbn [mbind Res_bind].
    eexists. split; [reflexivity|]. split; [|exists []; by rewrite app_nil_r].
    split; cbn; [by rewrite zlen_app, Z.add_assoc|]. rewrite Hdata, drop_opening by (unfold zlen; lia).
    unfold zlen. rewrite Nat2Z.id. by apply prefix_more.
  - destruct (clock_spec _ _ _ _ Hend) as (s & -> & Hs). cbn [mbind Res_bind]. eexists. by split; [reflexivity|apply Hsame].
  - destruct (next_clock_spec (ep_sock e) t (en_live _ _ _ _ Hend)) as (r & s & -> & Hq & _). cbn [mbind Res_bind].
    eexists. split; [reflexivity|]. apply Hsame. eapply sends_end; [|done]. apply quiet_sends; [done|apply Hend].
  - destruct (force_close_spec _ _ _ _ Hend) as (s & -> & Hs). cbn [mbind Res_bind]. eexists. by split; [reflexivity|apply Hsame].
  - destruct Hop as [w Hw]. destruct (notify_packet_spec _ _ _ _ bytes Hend) as (r & s & -> & Hs); [by eapply Hnet|].
    cbn [mbind Res_bind]. eexists. by split; [reflexivity|apply Hsame].
Qed.

(** The other end of one that wrote more. *)
Lemma endpoint_inv_other e other other' more :
  endpoint_inv e other -> ep_wrote other' = ep_wrote other ++ more -> OPENING + zlen (ep_wrote other') < STREAM_MAX ->
  endpoint_inv e other'.
Proof.
  intros [Hend Hread] E Hmax. split; rewrite E in *.
  - rewrite app_assoc. apply end_peer_app; [done|]. rewrite <- app_assoc, zlen_opening. done.
  - by apply prefix_app_r.
Qed.

(** What an end ever sent are pieces of its stream. *)
Lemma trace_pieces e other : endpoint_inv e other ->
  forall bytes w, EvPacket bytes w ∈ trace (ep_sock e) -> packet_ok (opening ++ ep_wrote e) bytes.
Proof.
  intros [[(una & nxt & Hinv) _ _ _ _] _] bytes w Hin. pose proof (sv_trace _ _ _ _ Hinv) as Htr.
  rewrite Forall_forall in Htr. exact (Htr _ Hin).
Qed.

Definition pair_inv (p : endpoint * endpoint) : Prop := endpoint_inv p.1 p.2 /\ endpoint_inv p.2 p.1.

Lemma pair_run_spec steps p : pair_inv p -> run_possible steps p -> exists p', pair_run steps p = Ok p' /\ pair_inv p'.
Proof.
  induction steps as [|[[who env] op] steps IH] in p |- *; intros [Ha Hb] Hposs; [by exists p|].
  destruct p as [a b]. cbn [run_possible pair_run pair_do step_possible fst snd] in *. destruct Hposs as [Hop Hrest].
  destruct who; cbn [fst snd] in *.
  - destruct (endpoint_do_spec env op a b Ha Hop (trace_pieces _ _ Hb)) as (a' & Hdo & Ha' & more & E & Hmax).
    rewrite Hdo in *. cbn [mbind Res_bind] in *. apply IH; [|done].
    split; [done|]. by eapply endpoint_inv_other.
  - destruct (endpoint_do_spec env op b a Hb Hop (trace_pieces _ _ Ha)) as (b' & Hdo & Hb' & more & E & Hmax).
    rewrite Hdo in *. cbn [mbind Res_bind] in *. apply IH; [|done].
    split; [|done]. by eapply endpoint_inv_other.
Qed.

(** C5. Reliable delivery: two connected sockets, whatever their applications write and
    read, however their clocks run and whatever the network does with their packets -
    loses, repeats, delays or reorders them, or refuses to take them - up to a stream of
    a gigabyte: no operation faults, no loop runs on, and at every moment what an
    application has read is the beginning of what the other has written, in order and
    without gap, repetition or change. *)
Theorem reliable_delivery a b steps :
  connected a -> connected b -> run_possible steps (start a, start b) ->
  exists a' b', pair_run steps (start a, start b) = Ok (a', b') /\
    ep_read a' `prefix_of` ep_wrote b' /\ ep_read b' `prefix_of` ep_wrote a'.
Proof.
  intros Ha Hb Hrun. destruct (pair_run_spec steps (start a, start b)) as ([a' b'] & -> & [_ H1] & [_ H2]); [|done|].
  - split; (split; [by apply connected_end_inv|apply prefix_nil]).
  - by exists a', b'.
Qed.
End Pair.

(** ** Witness *)

(** What the MTU that a fresh socket has gives. *)
#[export] Instance default_bound : MssBound.
Proof.
  refine {| mss_max := 1284; level_min := 7 |}; [lia..|].
  intros l nx Hl Enx. assert (l = 8 \/ l = 9) as [-> | ->] by lia; injection Enx as <-; change PACKET_OVERHEAD with 116; lia.
Defined.

(** A clock that goes on by 200 ms with every look at it. *)
Definition hand_env : PseudoTcpEnv :=
  {| WritePacket _ _ := WR_SUCCESS; get_monotonic_time n := 1000000 + 200000 * Z.of_nat n |}.

(** Both ends connect, and acknowledge what they got when their clocks run. *)
Definition handshake (a b : PseudoTcpSocket) : Res (PseudoTcpSocket * PseudoTcpSocket) :=
  let E := hand_env in let M := sample_malloc in
  '(_, a) ← pseudo_tcp_socket_connect a;
  '(_, b) ← pseudo_tcp_socket_connect b;
  b' ← deliver (sent a) b;
  a' ← deliver (sent b) a;
  a ← pseudo_tcp_socket_notify_clock a';
  b ← pseudo_tcp_socket_notify_clock b';
  b' ← deliver (sent a) b;
  a' ← deliver (sent b) a;
  Ok (a', b').

Definition hand_a : PseudoTcpSocket :=
  Eval vm_compute in match handshake small_socket small_socket with Ok p => p.1 | Fault _ => small_socket end.
Definition hand_b : PseudoTcpSocket :=
  Eval vm_compute in match handshake small_socket small_socket with Ok p => p.2 | Fault _ => small_socket end.

Lemma handshake_ends : handshake small_socket small_socket = Ok (hand_a, hand_b).
Proof. vm_compute. reflexivity. Qed.

Ltac concrete_piece :=
  match goal with
  | |- event_ok _ (EvPacket _ _) =>
      split; [vm_compute; by split|]; split; [vm_compute; by split|vm_compute; done|vm_compute; by split|];
      first [left; split_and!; vm_compute; reflexivity
            |right; left; split_and!; vm_compute; reflexivity
            |right; right; split_and!; [vm_compute; reflexivity|vm_compute; eexists; reflexivity|left; vm_compute; reflexivity]
            |right; right; split_and!; [vm_compute; reflexivity|vm_compute; eexists; reflexivity|right; vm_compute; done]]
  | |- event_ok _ _ => exact I
  end.

Ltac concrete_connected :=
  split; [reflexivity|split_and!; reflexivity|split_and!; vm_compute; done|split_and!; [split; vm_compute; done|vm_compute; done|reflexivity]
         |split; reflexivity|split_and!; [split; vm_compute; done|vm_compute; done|reflexivity]|split_and!; vm_compute; done|].

Lemma hand_a_connected : connected hand_a.
Proof. concrete_connected. unfold hand_a. cbn [trace]. repeat (apply Forall_cons_2; [concrete_piece|]). apply Forall_nil_2. Qed.

Lemma hand_b_connected : connected hand_b.
Proof. concrete_connected. unfold hand_b. cbn [trace]. repeat (apply Forall_cons_2; [concrete_piece|]). apply Forall_nil_2. Qed.

Definition packets_of (r : Res (endpoint * endpoint)) (who : side) : list (list byte) :=
  match r with Ok (a, b) => sent (ep_sock (match who with SideA => a | SideB => b end)) | Fault _ => [] end.

(** Five bytes, whose packet comes twice; three are read; the acknowledgement, and an old
    packet of the handshake; three bytes more, which come before the rest is read, and an
    answer that is lost, and comes when it is sent again. *)
Definition pair_first : list pair_step :=
  [(SideA, hand_env, OpSend (sample_bytes [1; 2; 3; 4; 5]))].
Definition last_packet (steps : list pair_step) (who : side) : list byte :=
  default [] (last (packets_of (pair_run (Malloc0 := sample_malloc) steps (start hand_a, start hand_b)) who)).
Definition packet_1 : list byte := Eval vm_compute in last_packet pair_first SideA.
Definition pair_second : list pair_step :=
  pair_first ++ [(SideB, hand_env, OpDeliver packet_1); (SideB, hand_env, OpDeliver packet_1);
    (SideB, hand_env, OpRecv 3); (SideB, hand_env, OpClock)].
Definition packet_2 : list byte := Eval vm_compute in last_packet pair_second SideB.
Definition packet_old : list byte := Eval vm_compute in default [] (head (sent hand_b)).
Definition pair_third : list pair_step :=
  pair_second ++ [(SideA, hand_env, OpDeliver packet_2); (SideA, hand_env, OpDeliver packet_old);
    (SideA, hand_env, OpSend (sample_bytes [6; 7; 8])); (SideB, hand_env, OpSend (sample_bytes [9]));
    (SideA, hand_env, OpNextClock 0); (SideB, hand_env, OpClock); (SideB, hand_env, OpClock); (SideB, hand_env, OpClock);
    (SideB, hand_env, OpClock); (SideB, hand_env, OpClock)].
Definition packet_3 : list byte := Eval vm_compute in last_packet pair_third SideA.
Definition packet_4 : list byte := Eval vm_compute in last_packet pair_third SideB.
Definition pair_steps : list pair_step :=
  pair_third ++ [(SideB, hand_env, OpDeliver packet_3); (SideB, hand_env, OpRecv 100);
    (SideA, hand_env, OpDeliver packet_4); (SideA, hand_env, OpRecv 100); (SideA, hand_env, OpClose)].

Lemma run_possible_cons `{!Malloc} st steps p p' :
  step_possible st p -> pair_do st p = Ok p' -> run_possible steps p' -> run_possible (st :: steps) p.
Proof. intros Hst Hdo Hrest. split; [done|]. by rewrite Hdo. Qed.

Lemma deliver_possible (bytes : list byte) e other k w :
  trace (ep_sock other) !! k = Some (EvPacket bytes w) -> op_possible (OpDeliver bytes) e other.
Proof. intros Hk. exists w. by apply list_elem_of_lookup_2 in Hk. Qed.

Ltac possible :=
  first [exact I|vm_compute; by split|vm_compute; done
        |eapply (deliver_possible _ _ _ 0%nat); vm_compute; reflexivity
        |eapply (deliver_possible _ _ _ 1%nat); vm_compute; reflexivity
        |eapply (deliver_possible _ _ _ 2%nat); vm_compute; reflexivity
        |eapply (deliver_possible _ _ _ 3%nat); vm_compute; reflexivity
        |eapply (deliver_possible _ _ _ 4%nat); vm_compute; reflexivity
        |eapply (deliver_possible _ _ _ 5%nat); vm_compute; reflexivity
        |eapply (deliver_possible _ _ _ 6%nat); vm_compute; reflexivity].

Ltac pair_run_step :=
  match goal with |- run_possible (?st :: _) ?p =>
    let r := eval vm_compute in (pair_do (Malloc0 := sample_malloc) st p) in
    match r with Ok ?p' => apply (run_possible_cons st _ p p'); [possible|vm_compute; reflexivity|] end
  end.

Lemma pair_steps_possible : run_possible (Malloc0 := sample_malloc) pair_steps (start hand_a, start hand_b).
Proof.
  unfold pair_steps, pair_third, pair_second, pair_first. cbn [app]. repeat pair_run_step. exact I.
Qed.

Lemma reliable_delivery_witness :
  connected hand_a /\ connected hand_b /\ run_possible (Malloc0 := sample_malloc) pair_steps (start hand_a, start hand_b) /\
  exists a' b', pair_run (Malloc0 := sample_malloc) pair_steps (start hand_a, start hand_b) = Ok (a', b') /\
    ep_read a' `prefix_of` ep_wrote b' /\ ep_read b' `prefix_of` ep_wrote a'.
Proof.
  split; [exact hand_a_connected|]. split; [exact hand_b_connected|]. split; [exact pair_steps_possible|].
  exact (reliable_delivery (Malloc0 := sample_malloc) hand_a hand_b pair_steps hand_a_connected hand_b_connected pair_steps_possible).
Defined.

Example pair_steps_read :
  match pair_run (Malloc0 := sample_malloc) pair_steps (start hand_a, start hand_b) with
  | Ok (a, b) => (ep_read a, ep_read b) = (sample_bytes [9], sample_bytes [1; 2; 3; 4; 5; 6; 7; 8])
  | Fault _ => False end.
Proof. vm_compute. reflexivity. Qed.

(** ** What the theorem leaves out, and why *)

Definition all_callbacks : PseudoTcpCallbacks :=
  {| PseudoTcpOpened := true; PseudoTcpReadable := true; PseudoTcpWritable := true; PseudoTcpClosed := true |}.

Definition fresh_socket : PseudoTcpSocket := pseudo_tcp_socket_new (H0 := sample_malloc) 1 all_callbacks.

Definition newest (s : PseudoTcpSocket) : list byte := default [] (last (sent s)).

(** [n] exchanges of the newest packets. *)
Fixpoint talk `{!PseudoTcpEnv, !Malloc} (n : nat) (a b : PseudoTcpSocket) : Res (PseudoTcpSocket * PseudoTcpSocket) :=
  match n with
  | O => Ok (a, b)
  | S n => b ← deliver [newest a] b; a ← deliver [newest b] a; talk n a b
  end.

(** Both ends connect, and the first one's connect message is lost.  The other answers
    what comes before it with duplicate acknowledgements, which let two segments out;
    when the connect message is sent again they wait out of order. *)
Definition lost_connect (data : list byte) : Res (list byte * PseudoTcpState * PseudoTcpState) :=
  let E := hand_env in let M := sample_malloc in
  '(_, a) ← pseudo_tcp_socket_connect fresh_socket;
  '(_, b) ← pseudo_tcp_socket_connect fresh_socket;
  a ← deliver [newest b] a;
  '(_, a) ← pseudo_tcp_socket_send a data;
  a ← pseudo_tcp_socket_notify_clock a;
  '(a, b) ← talk 7 a b;
  '(_, got, b) ← pseudo_tcp_socket_recv b 3000;
  Ok (got, state a, state b).

Definition counting (n : nat) : list byte := (fun i => byte.of_Z (Z.of_nat i mod 251)) <$> seq 0 n.

(** The delivery is reliable only after the handshake.  A connect message counts in the
    sequence numbers and not in the receive buffer, so what arrived before it lies seven
    bytes too far on when it comes: with the first connect message lost, and nothing else,
    3000 bytes are read where 3000 were written, and from the second segment on they are
    those of seven positions before. *)
Example lost_connect_corrupts :
  lost_connect (counting 3000) =
    Ok (take 1284 (counting 3000) ++ take 1284 (drop 1277 (counting 3000)) ++ drop 2568 (counting 3000),
        TCP_ESTABLISHED, TCP_ESTABLISHED) /\
  take 1284 (drop 1277 (counting 3000)) <> take 1284 (drop 1284 (counting 3000)).
Proof. split; vm_compute; [reflexivity|discriminate]. Qed.

(** A segment that ends where the sequence numbers wrap is taken for a FIN: [rcv_fin] is 0
    until one comes. *)
Example wrap_is_taken_for_fin :
  (let E := hand_env in let M := sample_malloc in
   '(_, s) ← pseudo_tcp_socket_notify_packet { hand_b with rcv_nxt := 2 ^ 32 - 5 }
     (packet_header { hand_a with rcv_nxt := OPENING } (2 ^ 32 - 5) 0 0 64 ++ sample_bytes [1; 2; 3; 4; 5]);
   Ok (state s, rcv_nxt s)) = Ok (TCP_CLOSE_WAIT, 1).
Proof. vm_compute. reflexivity. Qed.

(** Past two gigabytes without a loss the point of recovery, still 0, counts as ahead: three
    duplicate acknowledgements with another time stamp, then one of everything, and the
    engine retransmits the first segment of an empty queue. *)
Example stale_recovery_point :
  (let E := hand_env in let M := sample_malloc in
   '(_, s) ← pseudo_tcp_socket_send { hand_a with snd_una := 2 ^ 31 + 7; snd_nxt := 2 ^ 31 + 7 }
     (sample_bytes [1; 2; 3; 4; 5]);
   let ack t n := packet_header { hand_b with rcv_nxt := n; conv := 7; ts_recent := t } OPENING 0 0 64 in
   deliver [ack 1200 (2 ^ 31 + 7); ack 1 (2 ^ 31 + 7); ack 1 (2 ^ 31 + 7); ack 1200 (2 ^ 31 + 12)] s) = Fault NullDeref.
Proof. vm_compute. reflexivity. Qed.
