(* ===== verification/Carrier.v ===== *)
(** * The carrier node: state, identities, friends (src/carrier/ela_carrier.c)

    The state of a node, the checks on identifiers and addresses, user
    information, the friend table with the calls and DHT notifications that
    change it, and friend messages.  Invitations are in [Invite], the data file in
    [Persistence].

    Interfaces: [Base58] (libcrystal), [Dht] (the operations of src/carrier/dht
    that this file calls), [FlatBuffers] (the packet runtime).  Calls to the
    application's callbacks are appended to the node's trace; a callback that
    calls back into the node is not modelled. *)

From Stdlib Require Import Ascii.
From S2P Require Import Prelude ElaError ElaCP.

(** ** Constants (ela_carrier.h, ela_carrier_impl.h, dht.h) *)

Definition ELA_MAX_ADDRESS_LEN : Z := 52.
Definition ELA_MAX_ID_LEN : Z := 45.
Definition ELA_MAX_USER_NAME_LEN : Z := 63.
Definition ELA_MAX_USER_DESCRIPTION_LEN : Z := 127.
Definition ELA_MAX_PHONE_LEN : Z := 31.
Definition ELA_MAX_EMAIL_LEN : Z := 127.
Definition ELA_MAX_REGION_LEN : Z := 127.
Definition ELA_MAX_GENDER_LEN : Z := 31.
Definition ELA_MAX_APP_MESSAGE_LEN : Z := 1024.
Definition ELA_MAX_EXTENSION_NAME_LEN : Z := 31.
Definition DHT_PUBLIC_KEY_SIZE : Z := 32.
Definition DHT_ADDRESS_SIZE : Z := 38.
Definition UINT32_MAX : Z := 0xFFFFFFFF.

Inductive ElaConnectionStatus := ElaConnectionStatus_Connected | ElaConnectionStatus_Disconnected.
#[export] Instance ElaConnectionStatus_eq_dec : EqDecision ElaConnectionStatus.
Proof. solve_decision. Defined.

Definition ElaPresenceStatus_None : Z := 0.
Definition ElaPresenceStatus_Busy : Z := 2.

(** ** Data *)

Record ElaUserInfo := {
  userid : string; name : string; description : string; has_avatar : bool;
  gender : string; phone : string; email : string; region : string
}.

Record ElaFriendInfo := {
  user_info : ElaUserInfo; label : string; status : ElaConnectionStatus; presence : Z
}.

Record FriendInfo := { info : ElaFriendInfo; friend_number : Z }.

Inductive FriendEventType := FriendEventType_Added | FriendEventType_Removed.
Record FriendEvent := { fe_type : FriendEventType; fe_fi : ElaFriendInfo }.

(** An outstanding invitation of ours. *)
Record TransactedCallback := {
  tcb_tid : Z; tcb_friend_number : Z; tcb_callback_func : Z; tcb_callback_context : Z;
  tcb_expire_time : Z; tcb_bundle : option string
}.

(** A fragmented invitation or reply of a peer, being put together. *)
Record TransactedAssembly := {
  ta_ext : string; ta_friendid : string; ta_tid : Z;
  ta_bundle : option string; ta_reason : option string;
  ta_data : list byte; ta_data_len : Z; ta_data_off : Z; ta_expire_time : Z
}.

(** The optional callbacks that are set, and whether a session extension with an
    invite callback is installed. *)
Record ElaCallbacks := {
  cb_idle : bool; cb_connection_status : bool; cb_ready : bool; cb_friend_list : bool;
  cb_friend_connection : bool; cb_friend_info : bool; cb_friend_presence : bool;
  cb_friend_request : bool; cb_friend_added : bool; cb_friend_removed : bool;
  cb_friend_message : bool; cb_friend_invite : bool; cb_session_invite : bool;
  cb_group_invite : bool; cb_group_connected : bool; cb_group_message : bool;
  cb_group_title : bool; cb_group_peer_name : bool; cb_group_peer_list_changed : bool
}.

(** What the application sees, in order, newest first; [EvStore] marks the points
    where [store_persistence_data] runs. *)
Inductive carrier_event :=
| EvIdle
| EvReady
| EvConnectionStatus (s : ElaConnectionStatus)
| EvFriendList (fi : option ElaFriendInfo)
| EvFriendConnection (friendid : string) (s : ElaConnectionStatus)
| EvFriendInfo (friendid : string) (fi : ElaFriendInfo)
| EvFriendPresence (friendid : string) (presence : Z)
| EvFriendRequest (friendid : string) (ui : ElaUserInfo) (hello : string)
| EvFriendAdded (fi : ElaFriendInfo)
| EvFriendRemoved (friendid : string)
| EvFriendMessage (friendid : string) (msg : option (list byte)) (len : Z)
| EvFriendInvite (session : bool) (from : string) (bundle : option string) (data : list byte)
    (len : Z)
| EvInviteResponse (callback context : Z) (from : string) (bundle : option string) (status : Z)
    (reason : option string) (data : list byte) (len : Z)
| EvGroupInvite (friendid : string) (cookie : list byte)
| EvGroupConnected (groupid : string)
| EvGroupMessage (groupid peerid : string) (msg : list byte)
| EvGroupTitle (groupid peerid : string) (title : list byte)
| EvGroupPeerName (groupid peerid : string) (nm : list byte)
| EvGroupPeerListChanged (groupid : string)
| EvStore.

(** ** Interfaces *)

(** base58.h: decoding into a buffer of [datalen] bytes fails or gives the bytes. *)
Class Base58 := {
  base58_decode : string -> Z -> option (list byte);
  base58_encode : list byte -> string
}.

(** dht.h: the calls of this component, on the DHT's own state; the result codes
    are those of the code. *)
Class Dht (dht buffer : Type) := {
  dht_get_friend_number : dht -> list byte -> Z * Z;
  dht_friend_message : dht -> Z -> buffer -> Z * dht;
  dht_friend_add : dht -> list byte -> buffer -> Z * Z * dht;
  dht_friend_add_norequest : dht -> list byte -> Z * Z * dht;
  dht_friend_delete : dht -> Z -> dht;
  dht_self_set_name : dht -> string -> Z * dht;
  dht_self_set_desc : dht -> buffer -> dht;
  dht_self_get_name : dht -> Z * string;
  dht_self_set_nospam : dht -> Z -> dht;
  dht_self_get_nospam : dht -> Z;
  dht_self_set_status : dht -> Z -> dht;
  dht_self_get_status : dht -> Z;
  (* the address, public key, status and description given to the callback *)
  dht_get_self_info : dht -> Z * (list byte * list byte * Z * option buffer)
}.

(** ** The node *)

Record ElaCarrier `{!HashTables} {dht : Type} := {
  last_error : Z;                      (* the calling thread's [ela_error] *)
  dht_state : dht;
  public_key : list byte; address : list byte; base58_addr : string;
  me : ElaUserInfo;
  presence_status : Z;
  connection_status : ElaConnectionStatus;
  is_ready : bool;
  callbacks : ElaCallbacks;
  friend_events : list FriendEvent;
  friends : hashtable Z FriendInfo;
  tcallbacks : hashtable Z TransactedCallback;
  thistory : hashtable string Z;
  tassembly_ireqs : hashtable Z TransactedAssembly;
  tassembly_irsps : hashtable Z TransactedAssembly;
  events : list carrier_event
}.
Arguments ElaCarrier {_} dht.

Section Carrier.
Context `{!HashTables, !Base58} {dht buffer : Type} `{!Dht dht buffer, !FlatBuffers buffer}.
Implicit Types w : ElaCarrier dht.

Definition emit (e : carrier_event) w : ElaCarrier dht := { w with events ::= cons e }.
Definition emit_if (b : bool) (e : carrier_event) w : ElaCarrier dht := if b then emit e w else w.
Definition set_last_error (err : Z) w : ElaCarrier dht := { w with last_error := i32 err }.

(** [ela_set_error(code); return -1;] *)
Definition fails (code : Z) w : Res (Z * ElaCarrier dht) := Ok (-1, set_last_error code w).

(** A possibly null string argument: null or empty is refused by most calls. *)
Definition null_or_empty (s : option string) : bool :=
  match s with None | Some "" => true | _ => false end.

(** ** Identifiers and addresses *)

Definition is_valid_key (key : string) : bool :=
  match base58_decode key DHT_PUBLIC_KEY_SIZE with
  | Some bs => Z.of_nat (length bs) =? DHT_PUBLIC_KEY_SIZE
  | None => false
  end.

Definition ela_id_is_valid (id : option string) w : bool * ElaCarrier dht :=
  match id with
  | None | Some "" => (false, set_last_error (ELA_GENERAL_ERROR ELAERR_INVALID_ARGS) w)
  | Some id => (is_valid_key id, w)
  end.

(** [checksum[i % 2] ^= address[i]]; the two bytes are read as a [uint16_t] in
    memory order. *)
Fixpoint checksum_loop (i : nat) (address : list byte) (c0 c1 : Z) : Z * Z :=
  match address with
  | [] => (c0, c1)
  | b :: address =>
      if Nat.even i then checksum_loop (S i) address (Z.lxor c0 (byte.unsigned b)) c1
      else checksum_loop (S i) address c0 (Z.lxor c1 (byte.unsigned b))
  end.

Definition address_checksum (address : list byte) : Z :=
  let '(c0, c1) := checksum_loop 0 address 0 0 in
  le_combine [byte.of_Z c0; byte.of_Z c1].

Definition is_valid_address (address : string) : bool :=
  match base58_decode address DHT_ADDRESS_SIZE with
  | None => false
  | Some addr =>
      if negb (Z.of_nat (length addr) =? DHT_ADDRESS_SIZE) then false
      else
        let check := le_combine (take 2 (drop (Z.to_nat (DHT_PUBLIC_KEY_SIZE + 4)) addr)) in
        let checksum := address_checksum (take (Z.to_nat (DHT_ADDRESS_SIZE - 2)) addr) in
        checksum =? check
  end.

Definition ela_address_is_valid (address : option string) w : bool * ElaCarrier dht :=
  match address with
  | None | Some "" => (false, set_last_error (ELA_GENERAL_ERROR ELAERR_INVALID_ARGS) w)
  | Some address => (is_valid_address address, w)
  end.

(** [len] is the size of the caller's buffer. *)
Definition ela_get_id_by_address (address : string) (len : Z) w : option string * ElaCarrier dht :=
  let invalid := (None, set_last_error (ELA_GENERAL_ERROR ELAERR_INVALID_ARGS) w) in
  if len <=? ELA_MAX_ID_LEN then invalid
  else
    match base58_decode address DHT_ADDRESS_SIZE with
    | None => invalid
    | Some addr =>
        if negb (Z.of_nat (length addr) =? DHT_ADDRESS_SIZE) then invalid
        else
          let id := base58_encode (take (Z.to_nat DHT_PUBLIC_KEY_SIZE) addr) in
          if strlen id <? ELA_MAX_ID_LEN + 1 then (Some id, w) else invalid
    end.

(** The result code, and the number when it is not negative. *)
Definition get_friend_number w (friendid : string) : Z * Z :=
  match base58_decode friendid DHT_PUBLIC_KEY_SIZE with
  | None => (i32 (ELA_GENERAL_ERROR ELAERR_INVALID_ARGS), 0)
  | Some public_key =>
      if negb (Z.of_nat (length public_key) =? DHT_PUBLIC_KEY_SIZE)
      then (i32 (ELA_GENERAL_ERROR ELAERR_INVALID_ARGS), 0)
      else
        let '(rc, number) := dht_get_friend_number (dht_state w) public_key in
        if rc <? 0 then (i32 (ELA_GENERAL_ERROR ELAERR_NOT_EXIST), 0) else (rc, number)
  end.

(** [userid:extension], cut at the first colon. *)
Fixpoint parse_address (addr : string) : string * option string :=
  match addr with
  | EmptyString => ("", None)
  | String c rest =>
      if bool_decide (c = ":"%char) then ("", Some rest)
      else let '(uid, ext) := parse_address rest in (String c uid, ext)
  end.

(** ** User information *)

(** One field of [unpack_user_desc]: copied, without a length check, when it
    differs from the one stored in [cap] bytes. *)
Definition update_text (cap : Z) (old new : string) : Res (string * bool) :=
  if str_eqb old new then Ok (old, false) else new ← strcpy cap new; Ok (new, true).

(** The new information and whether anything changed; [None] is the result -1. *)
Definition unpack_user_desc (desc : buffer) (ui : ElaUserInfo) : Res (option (ElaUserInfo * bool)) :=
  cp ← elacp_decode desc;
  match cp with
  | None => Ok None
  | Some cp =>
      if negb (elacp_get_type cp =? ELACP_TYPE_USERINFO) then Ok None
      else
        avatar ← elacp_get_has_avatar cp;
        nm ← elacp_get_name cp;
        ds ← elacp_get_descr cp;
        gd ← elacp_get_gender cp;
        ph ← elacp_get_phone cp;
        em ← elacp_get_email cp;
        rg ← elacp_get_region cp;
        '(nm, c1) ← update_text (ELA_MAX_USER_NAME_LEN + 1) (name ui) (or_empty nm);
        '(ds, c2) ← update_text (ELA_MAX_USER_DESCRIPTION_LEN + 1) (description ui) (or_empty ds);
        '(gd, c3) ← update_text (ELA_MAX_GENDER_LEN + 1) (gender ui) (or_empty gd);
        '(ph, c4) ← update_text (ELA_MAX_PHONE_LEN + 1) (phone ui) (or_empty ph);
        '(em, c5) ← update_text (ELA_MAX_EMAIL_LEN + 1) (email ui) (or_empty em);
        '(rg, c6) ← update_text (ELA_MAX_REGION_LEN + 1) (region ui) (or_empty rg);
        Ok (Some ({| userid := userid ui; name := nm; description := ds; has_avatar := avatar;
                     gender := gd; phone := ph; email := em; region := rg |},
                  c1 || c2 || c3 || c4 || c5 || c6 || negb (Bool.eqb (has_avatar ui) avatar)))
  end.

Definition get_presence_status (user_status : Z) : Z :=
  if user_status <? ElaPresenceStatus_None then ElaPresenceStatus_None
  else if user_status >? ElaPresenceStatus_Busy then ElaPresenceStatus_Busy
  else user_status.

Definition empty_user_info : ElaUserInfo :=
  {| userid := ""; name := ""; description := ""; has_avatar := false;
     gender := ""; phone := ""; email := ""; region := "" |}.

Definition fill_empty_user_desc w : Res (ElaCarrier dht) :=
  cp ← elacp_create ELACP_TYPE_USERINFO None;
  cp ← elacp_set_has_avatar cp 0;
  cp ← elacp_set_name cp (Some "");
  cp ← elacp_set_descr cp (Some "");
  cp ← elacp_set_gender cp (Some "");
  cp ← elacp_set_phone cp (Some "");
  cp ← elacp_set_email cp (Some "");
  cp ← elacp_set_region cp (Some "");
  data ← elacp_encode cp;
  Ok { w with dht_state ::= fun d => dht_self_set_desc d data }.

(** The DHT reports our identity at start; an empty description is [None]. *)
Definition get_self_info_cb (addr pk : list byte) (user_status : Z) (desc : option buffer) w :
    Res (ElaCarrier dht) :=
  addr58 ← strcpy (ELA_MAX_ADDRESS_LEN + 1) (base58_encode addr);
  id ← strcpy (ELA_MAX_ID_LEN + 1) (base58_encode pk);
  let w := { w with address := addr; public_key := pk; base58_addr := addr58;
                    me ::= fun ui => { ui with userid := id };
                    presence_status := get_presence_status user_status } in
  w ← match desc with
      | Some desc =>
          r ← unpack_user_desc desc (me w);
          Ok (match r with Some (ui, _) => { w with me := ui } | None => w end)
      | None => fill_empty_user_desc w
      end;
  let '(name_len, dht_name) := dht_self_get_name (dht_state w) in
  if name_len <? 0 then Ok w
  else if ((name_len <=? 1) && str_eqb (name (me w)) "")
          || ((name_len >? 1) && str_eqb dht_name (name (me w)))
  then Ok w
  else Ok { w with dht_state ::= fun d => (dht_self_set_name d (name (me w))).2 }.

(** ** Friend table (friends.h) *)

Definition friends_exist w (number : Z) : Res bool :=
  c_assert (negb (number =? UINT32_MAX));; Ok (ht_exist (friends w) number).

Definition friends_get w (number : Z) : Res (option FriendInfo) :=
  c_assert (negb (number =? UINT32_MAX));; Ok (ht_get (friends w) number).

Definition friends_put (fi : FriendInfo) w : ElaCarrier dht :=
  { w with friends ::= ht_put (friend_number fi) fi }.

(** The table with the entry taken out, and the entry. *)
Definition friends_remove w (number : Z) : Res (option FriendInfo * ElaCarrier dht) :=
  c_assert (negb (number =? UINT32_MAX));;
  Ok (ht_get (friends w) number, { w with friends ::= ht_remove number }).

(** A friend of the DHT's list at start; the boolean asks for the next one. *)
Definition friends_iterate_cb (number : Z) (pk : list byte) (user_status : Z) (desc : option buffer)
    w : Res (bool * ElaCarrier dht) :=
  c_assert (negb (number =? UINT32_MAX));;
  id ← strcpy (ELA_MAX_ID_LEN + 1) (base58_encode pk);
  let ui := { empty_user_info with userid := id } in
  ui ← match desc with
       | Some desc => r ← unpack_user_desc desc ui; Ok (option_map fst r)
       | None => Ok (Some ui)
       end;
  match ui with
  | None => Ok (false, w)
  | Some ui =>
      Ok (true, friends_put
        {| info := {| user_info := ui; label := ""; status := ElaConnectionStatus_Disconnected;
                      presence := get_presence_status user_status |};
           friend_number := number |} w)
  end.

(** ** Notifications of the DHT *)

Definition notify_idle w : ElaCarrier dht := emit_if (cb_idle (callbacks w)) EvIdle w.

Fixpoint list_friends (l : list FriendInfo) w : ElaCarrier dht :=
  match l with
  | [] => w
  | fi :: l => list_friends l (emit_if (cb_friend_list (callbacks w)) (EvFriendList (Some (info fi))) w)
  end.

Definition notify_friends w : ElaCarrier dht :=
  let w := list_friends (ht_items (friends w)).*2 w in
  emit_if (cb_friend_list (callbacks w)) (EvFriendList None) w.

Definition notify_connection_cb (connected : bool) w : ElaCarrier dht :=
  let w := if negb (is_ready w) && connected
           then emit_if (cb_ready (callbacks w)) EvReady { w with is_ready := true } else w in
  let s := if connected then ElaConnectionStatus_Connected else ElaConnectionStatus_Disconnected in
  emit_if (cb_connection_status (callbacks w)) (EvConnectionStatus s) { w with connection_status := s }.

Definition notify_friend_info (number : Z) (fi : ElaFriendInfo) w : Res (ElaCarrier dht) :=
  c_assert (negb (number =? UINT32_MAX));;
  exists_ ← friends_exist w number;
  Ok (emit_if (exists_ && cb_friend_info (callbacks w)) (EvFriendInfo (userid (user_info fi)) fi) w).

(** [fi] is the object in the table, so its new information is stored there. *)
Definition notify_friend_description_cb (number : Z) (desc : option buffer) w : Res (ElaCarrier dht) :=
  c_assert (negb (number =? UINT32_MAX));;
  fi ← friends_get w number;
  match fi, desc with
  | None, _ | _, None => Ok w
  | Some fi, Some desc =>
      r ← unpack_user_desc desc (user_info (info fi));
      match r : option (ElaUserInfo * bool) with
      | None => Ok w
      | Some (ui, changed) =>
          let efi : ElaFriendInfo := { info fi with user_info := ui } in
          let w := friends_put {| info := efi; friend_number := friend_number fi |} w in
          if changed then notify_friend_info number efi w else Ok w
      end
  end.

Definition notify_friend_connection (friendid : string) (s : ElaConnectionStatus) w : ElaCarrier dht :=
  emit_if (cb_friend_connection (callbacks w)) (EvFriendConnection friendid s) w.

Definition notify_friend_connection_cb (number : Z) (connected : bool) w : Res (ElaCarrier dht) :=
  c_assert (negb (number =? UINT32_MAX));;
  fi ← friends_get w number;
  match fi with
  | None => Ok w
  | Some fi =>
      let s := if connected then ElaConnectionStatus_Connected
               else ElaConnectionStatus_Disconnected in
      if bool_decide (s = status (info fi)) then Ok w
      else
        let w := friends_put { fi with info := { info fi with status := s } } w in
        tmpid ← strcpy (ELA_MAX_ID_LEN + 1) (userid (user_info (info fi)));
        Ok (notify_friend_connection tmpid s w)
  end.

Definition notify_friend_presence (friendid : string) (p : Z) w : ElaCarrier dht :=
  emit_if (cb_friend_presence (callbacks w)) (EvFriendPresence friendid p) w.

Definition notify_friend_status_cb (number status : Z) w : Res (ElaCarrier dht) :=
  c_assert (negb (number =? UINT32_MAX));;
  fi ← friends_get w number;
  match fi with
  | None => Ok w
  | Some fi =>
      if (status <? ElaPresenceStatus_None) || (status >? ElaPresenceStatus_Busy) then Ok w
      else if status =? presence (info fi) then Ok w
      else
        let w := friends_put { fi with info := { info fi with presence := status } } w in
        tmpid ← strcpy (ELA_MAX_ID_LEN + 1) (userid (user_info (info fi)));
        Ok (notify_friend_presence tmpid status w)
  end.

Definition notify_friend_request_cb (pk : list byte) (gretting : buffer) w : Res (ElaCarrier dht) :=
  let '(rc, number) := dht_get_friend_number (dht_state w) pk in
  if (rc =? 0) && negb (number =? UINT32_MAX) then Ok w
  else
    cp ← elacp_decode gretting;
    match cp with
    | None => Ok w
    | Some cp =>
        if negb (elacp_get_type cp =? ELACP_TYPE_FRIEND_REQUEST) then Ok w
        else
          id ← strcpy (ELA_MAX_ID_LEN + 1) (base58_encode pk);
          nm ← elacp_get_name cp;
          ds ← elacp_get_descr cp;
          hello ← elacp_get_hello cp;
          nm ← strcpy (ELA_MAX_USER_NAME_LEN + 1) (or_empty nm);
          ds ← strcpy (ELA_MAX_USER_DESCRIPTION_LEN + 1) (or_empty ds);
          let ui := { empty_user_info with userid := id; name := nm; description := ds } in
          Ok (emit_if (cb_friend_request (callbacks w)) (EvFriendRequest id ui (or_empty hello)) w)
    end.

(** ** Friend events, delivered by the main loop *)

Definition store_persistence_data w : ElaCarrier dht := emit EvStore w.

Definition notify_friend_added (fi : ElaFriendInfo) w : ElaCarrier dht :=
  let w := store_persistence_data w in
  { w with friend_events ::= fun l => l ++ [{| fe_type := FriendEventType_Added; fe_fi := fi |}] }.

Definition notify_friend_removed (fi : ElaFriendInfo) w : ElaCarrier dht :=
  let w := store_persistence_data w in
  { w with friend_events ::= fun l => l ++ [{| fe_type := FriendEventType_Removed; fe_fi := fi |}] }.

Definition do_friend_event (event : FriendEvent) w : ElaCarrier dht :=
  match fe_type event with
  | FriendEventType_Added => emit_if (cb_friend_added (callbacks w)) (EvFriendAdded (fe_fi event)) w
  | FriendEventType_Removed =>
      let id := userid (user_info (fe_fi event)) in
      let w := emit_if (bool_decide (status (fe_fi event) = ElaConnectionStatus_Connected)
                        && cb_friend_connection (callbacks w))
                 (EvFriendConnection id ElaConnectionStatus_Disconnected) w in
      emit_if (cb_friend_removed (callbacks w)) (EvFriendRemoved id) w
  end.

(** Each event is handled and then taken off the list. *)
Fixpoint do_events (l : list FriendEvent) w : ElaCarrier dht :=
  match l with
  | [] => w
  | event :: l => do_events l { do_friend_event event w with friend_events ::= tail }
  end.

Definition do_friend_events w : ElaCarrier dht := do_events (friend_events w) w.

(** ** The calls of the application

    A call returns its result and the node; the error of a failed call is the
    thread's error.  [w] itself and the output pointers are not null. *)

(** The result string, when it fits the caller's [length] bytes. *)
Definition copy_out (s : string) (length : Z) w : option string * ElaCarrier dht :=
  if length =? 0 then (None, set_last_error (ELA_GENERAL_ERROR ELAERR_INVALID_ARGS) w)
  else if strlen s >=? length
  then (None, set_last_error (ELA_GENERAL_ERROR ELAERR_BUFFER_TOO_SMALL) w)
  else (Some s, w).

Definition ela_get_address w (length : Z) : option string * ElaCarrier dht :=
  copy_out (base58_addr w) length w.
Definition ela_get_nodeid w (len : Z) : option string * ElaCarrier dht :=
  copy_out (userid (me w)) len w.
Definition ela_get_userid w (len : Z) : option string * ElaCarrier dht := ela_get_nodeid w len.

Definition ela_set_self_nospam w (nospam : Z) : Res (Z * ElaCarrier dht) :=
  let w := { w with dht_state ::= fun d => dht_self_set_nospam d nospam } in
  let '(rc, (addr, pk, st, desc)) := dht_get_self_info (dht_state w) in
  if rc <? 0 then fails rc w
  else
    w ← get_self_info_cb addr pk st desc w;
    Ok (0, store_persistence_data w).

Definition ela_get_self_nospam w : Z := dht_self_get_nospam (dht_state w).

Definition ela_set_self_info w (ui : ElaUserInfo) : Res (Z * ElaCarrier dht) :=
  let old := me w in
  if negb (str_eqb (userid ui) (userid old)) then fails (ELA_GENERAL_ERROR ELAERR_INVALID_ARGS) w
  else
    cp ← elacp_create ELACP_TYPE_USERINFO None;
    if Bool.eqb (has_avatar ui) (has_avatar old) && str_eqb (name ui) (name old)
       && str_eqb (description ui) (description old) && str_eqb (gender ui) (gender old)
       && str_eqb (phone ui) (phone old) && str_eqb (email ui) (email old)
       && str_eqb (region ui) (region old)
    then Ok (0, w)
    else
      let '(rc, d) := if str_eqb (name ui) (name old) then (0, dht_state w)
                      else dht_self_set_name (dht_state w) (name ui) in
      let w := { w with dht_state := d } in
      if negb (rc =? 0) then fails rc w
      else
        cp ← elacp_set_has_avatar cp (Z.b2z (has_avatar ui));
        cp ← elacp_set_name cp (Some (name ui));
        cp ← elacp_set_descr cp (Some (description ui));
        cp ← elacp_set_gender cp (Some (gender ui));
        cp ← elacp_set_phone cp (Some (phone ui));
        cp ← elacp_set_email cp (Some (email ui));
        cp ← elacp_set_region cp (Some (region ui));
        data ← elacp_encode cp;
        nm ← strcpy (ELA_MAX_USER_NAME_LEN + 1) (name ui);
        ds ← strcpy (ELA_MAX_USER_DESCRIPTION_LEN + 1) (description ui);
        gd ← strcpy (ELA_MAX_GENDER_LEN + 1) (gender ui);
        ph ← strcpy (ELA_MAX_PHONE_LEN + 1) (phone ui);
        em ← strcpy (ELA_MAX_EMAIL_LEN + 1) (email ui);
        rg ← strcpy (ELA_MAX_REGION_LEN + 1) (region ui);
        let w := { w with
          me := {| userid := userid old; name := nm; description := ds;
                   has_avatar := has_avatar ui; gender := gd; phone := ph; email := em;
                   region := rg |};
          dht_state ::= fun d => dht_self_set_desc d data } in
        Ok (0, store_persistence_data w).

Definition ela_get_self_info w : ElaUserInfo := me w.

Definition ela_set_self_presence w (st : Z) : Res (Z * ElaCarrier dht) :=
  if (st <? ElaPresenceStatus_None) || (st >? ElaPresenceStatus_Busy)
  then fails (ELA_GENERAL_ERROR ELAERR_INVALID_ARGS) w
  else Ok (0, { w with dht_state ::= fun d => dht_self_set_status d st }).

Definition ela_get_self_presence w : Z :=
  let st := dht_self_get_status (dht_state w) in
  if st <? ElaPresenceStatus_None then ElaPresenceStatus_None
  else if st >? ElaPresenceStatus_Busy then ElaPresenceStatus_None
  else st.

Definition ela_is_ready w : bool * ElaCarrier dht := (is_ready w, set_last_error 0 w).

(** The friends the callback is given, in order, until it refuses one; [None] marks
    the end of the list. *)
Fixpoint iterate_friends (l : list FriendInfo) (callback : option ElaFriendInfo -> bool) :
    list (option ElaFriendInfo) :=
  match l with
  | [] => [None]
  | fi :: l => Some (info fi) :: (if callback (Some (info fi)) then iterate_friends l callback else [])
  end.

Definition ela_get_friends w (callback : option ElaFriendInfo -> bool) : list (option ElaFriendInfo) :=
  iterate_friends (ht_items (friends w)).*2 callback.

Definition ela_get_friend_info w (friendid : option string) :
    Res (Z * option ElaFriendInfo * ElaCarrier dht) :=
  match friendid with
  | None | Some "" => Ok (-1, None, set_last_error (ELA_GENERAL_ERROR ELAERR_INVALID_ARGS) w)
  | Some friendid =>
      let '(rc, number) := get_friend_number w friendid in
      if rc <? 0 then Ok (-1, None, set_last_error rc w)
      else
        fi ← friends_get w number;
        match fi with
        | None => Ok (-1, None, set_last_error (ELA_GENERAL_ERROR ELAERR_NOT_EXIST) w)
        | Some fi =>
            c_assert (str_eqb friendid (userid (user_info (info fi))));;
            Ok (0, Some (info fi), w)
        end
  end.

Definition ela_set_friend_label w (friendid new_label : option string) : Res (Z * ElaCarrier dht) :=
  match friendid with
  | None | Some "" => fails (ELA_GENERAL_ERROR ELAERR_INVALID_ARGS) w
  | Some friendid =>
      if strlen (or_empty new_label) >? ELA_MAX_USER_NAME_LEN
      then fails (ELA_GENERAL_ERROR ELAERR_INVALID_ARGS) w
      else
        let '(rc, number) := get_friend_number w friendid in
        if rc <? 0 then fails rc w
        else
          fi ← friends_get w number;
          match fi with
          | None => fails (ELA_GENERAL_ERROR ELAERR_NOT_EXIST) w
          | Some fi =>
              c_assert (str_eqb friendid (userid (user_info (info fi))));;
              l ← strcpy (ELA_MAX_USER_NAME_LEN + 1) (or_empty new_label);
              let w := friends_put { fi with info := { info fi with label := l } } w in
              Ok (0, store_persistence_data w)
          end
  end.

Definition ela_is_friend w (id : option string) : Res (bool * ElaCarrier dht) :=
  match id with
  | None | Some "" => Ok (false, set_last_error (ELA_GENERAL_ERROR ELAERR_INVALID_ARGS) w)
  | Some id =>
      let '(rc, number) := get_friend_number w id in
      if (rc <? 0) || (number =? UINT32_MAX) then Ok (false, set_last_error rc w)
      else
        let w := set_last_error 0 w in
        b ← friends_exist w number;
        Ok (b, w)
  end.

(** The entry of a friend just added. *)
Definition new_friend (id : string) (number : Z) : FriendInfo :=
  {| info := {| user_info := { empty_user_info with userid := id }; label := "";
                status := ElaConnectionStatus_Disconnected; presence := ElaPresenceStatus_None |};
     friend_number := number |}.

Definition ela_add_friend w (addr hello : option string) : Res (Z * ElaCarrier dht) :=
  match hello, addr with
  | None, _ | Some "", _ | _, None | _, Some "" => fails (ELA_GENERAL_ERROR ELAERR_INVALID_ARGS) w
  | Some hello, Some addr58 =>
      if negb (is_valid_address addr58) then fails (ELA_GENERAL_ERROR ELAERR_INVALID_ARGS) w
      else if str_eqb addr58 (base58_addr w) then fails (ELA_GENERAL_ERROR ELAERR_INVALID_ARGS) w
      else if negb (is_ready w) then fails (ELA_GENERAL_ERROR ELAERR_NOT_READY) w
      else
        let addr := default [] (base58_decode addr58 DHT_ADDRESS_SIZE) in
        let key := take (Z.to_nat DHT_PUBLIC_KEY_SIZE) addr in
        let '(rc, number) := dht_get_friend_number (dht_state w) key in
        if (rc =? 0) && negb (number =? UINT32_MAX)
        then fails (ELA_GENERAL_ERROR ELAERR_ALREADY_EXIST) w
        else
          cp ← elacp_create ELACP_TYPE_FRIEND_REQUEST None;
          cp ← elacp_set_name cp (Some (name (me w)));
          cp ← elacp_set_descr cp (Some (description (me w)));
          cp ← elacp_set_hello cp (Some hello);
          data ← elacp_encode cp;
          let '(rc, number, d) := dht_friend_add (dht_state w) addr data in
          let w := { w with dht_state := d } in
          if rc <? 0 then fails rc w
          else
            id ← strcpy (ELA_MAX_ID_LEN + 1) (base58_encode key);
            let fi := new_friend id number in
            Ok (0, notify_friend_added (info fi) (friends_put fi w))
  end.

Definition ela_accept_friend w (id : option string) : Res (Z * ElaCarrier dht) :=
  match id with
  | None | Some "" => fails (ELA_GENERAL_ERROR ELAERR_INVALID_ARGS) w
  | Some id =>
      if negb (is_valid_key id) then fails (ELA_GENERAL_ERROR ELAERR_INVALID_ARGS) w
      else if str_eqb id (userid (me w)) then fails (ELA_GENERAL_ERROR ELAERR_INVALID_ARGS) w
      else if negb (is_ready w) then fails (ELA_GENERAL_ERROR ELAERR_NOT_READY) w
      else
        let '(rc, number) := get_friend_number w id in
        if (rc =? 0) && negb (number =? UINT32_MAX)
        then fails (ELA_GENERAL_ERROR ELAERR_ALREADY_EXIST) w
        else
          let key := default [] (base58_decode id DHT_PUBLIC_KEY_SIZE) in
          let '(rc, number, d) := dht_friend_add_norequest (dht_state w) key in
          let w := { w with dht_state := d } in
          if rc <? 0 then fails rc w
          else
            id ← strcpy (ELA_MAX_ID_LEN + 1) id;
            let fi := new_friend id number in
            Ok (0, notify_friend_added (info fi) (friends_put fi w))
  end.

Definition ela_remove_friend w (friendid : option string) : Res (Z * ElaCarrier dht) :=
  match friendid with
  | None | Some "" => fails (ELA_GENERAL_ERROR ELAERR_INVALID_ARGS) w
  | Some friendid =>
      if negb (is_valid_key friendid) then fails (ELA_GENERAL_ERROR ELAERR_INVALID_ARGS) w
      else if negb (is_ready w) then fails (ELA_GENERAL_ERROR ELAERR_NOT_READY) w
      else
        let '(rc, number) := get_friend_number w friendid in
        if rc <? 0 then fails (ELA_GENERAL_ERROR ELAERR_NOT_EXIST) w
        else
          exists_ ← friends_exist w number;
          if negb exists_ then fails (ELA_GENERAL_ERROR ELAERR_NOT_EXIST) w
          else
            let w := { w with dht_state ::= fun d => dht_friend_delete d number } in
            '(fi, w) ← friends_remove w number;
            match fi with
            | None => Fault AssertFailed
            | Some fi => Ok (0, notify_friend_removed (info fi) w)
            end
  end.

(** ** Friend messages *)

Definition ela_send_friend_message w (to : option string) (msg : option (list byte)) :
    Res (Z * ElaCarrier dht) :=
  match to, msg with
  | Some to, Some ((_ :: _) as msg) =>
      if Z.of_nat (length msg) >? ELA_MAX_APP_MESSAGE_LEN
      then fails (ELA_GENERAL_ERROR ELAERR_INVALID_ARGS) w
      else
        let '(id, ext_name) := parse_address to in
        if negb (is_valid_key id) then fails (ELA_GENERAL_ERROR ELAERR_INVALID_ARGS) w
        else if strlen (or_empty ext_name) >? ELA_MAX_USER_NAME_LEN
        then fails (ELA_GENERAL_ERROR ELAERR_INVALID_ARGS) w
        else if str_eqb id (userid (me w)) then fails (ELA_GENERAL_ERROR ELAERR_INVALID_ARGS) w
        else if negb (is_ready w) then fails (ELA_GENERAL_ERROR ELAERR_NOT_READY) w
        else
          let '(rc, number) := get_friend_number w id in
          if rc <? 0 then fails (ELA_GENERAL_ERROR ELAERR_NOT_EXIST) w
          else
            exists_ ← friends_exist w number;
            if negb exists_ then fails (ELA_GENERAL_ERROR ELAERR_NOT_EXIST) w
            else
              cp ← elacp_create ELACP_TYPE_MESSAGE ext_name;
              cp ← elacp_set_raw_data cp (Some msg);
              data ← elacp_encode cp;
              let '(rc, d) := dht_friend_message (dht_state w) number data in
              let w := { w with dht_state := d } in
              if rc <? 0 then fails rc w else Ok (0, w)
  | _, _ => fails (ELA_GENERAL_ERROR ELAERR_INVALID_ARGS) w
  end.

Definition handle_friend_message w (number : Z) (cp : ElaCP) : Res (ElaCarrier dht) :=
  c_assert (negb (number =? UINT32_MAX));;
  c_assert (elacp_get_type cp =? ELACP_TYPE_MESSAGE);;
  fi ← friends_get w number;
  match fi with
  | None => Ok w
  | Some fi =>
      friendid ← strcpy (ELA_MAX_ID_LEN + 1) (userid (user_info (info fi)));
      msg ← elacp_get_raw_data cp;
      len ← elacp_get_raw_data_length cp;
      Ok (emit_if (cb_friend_message (callbacks w)
                   && negb (bool_decide (is_Some (elacp_get_extension cp))))
            (EvFriendMessage friendid msg len) w)
  end.
End Carrier.
