(* ===== verification/Sample.v ===== *)
(** * Concrete peers

    A small concrete DHT, an identifier codec and two nodes that are each other's
    friends, on which the properties of the node are evaluated.  They instantiate
    the interfaces of [Carrier]; nothing of the code is modelled here. *)

From Stdlib Require Import Strings.Byte.
From S2P Require Import Prelude ElaError ElaCP Carrier.

(** An identifier is written as its bytes; the codec refuses what does not fit. *)
#[export] Instance sample_base58 : Base58 := {
  base58_decode s n :=
    let bs := String.list_byte_of_string s in
    if Z.of_nat (length bs) <=? n then Some bs else None;
  base58_encode bs := String.string_of_list_byte bs
}.

(** The DHT keeps its friends by number and records what it sends; it refuses a
    message to friend [sd_refuses]. *)
Record sdht := {
  sd_friends : list (list byte * Z); sd_next : Z; sd_sent : list (Z * fbpacket);
  sd_refuses : Z; sd_nospam : Z; sd_status : Z; sd_name : string; sd_desc : option fbpacket
}.

Fixpoint find_friend (l : list (list byte * Z)) (pk : list byte) : option Z :=
  match l with
  | [] => None
  | (k, n) :: l => if bool_decide (k = pk) then Some n else find_friend l pk
  end.

Definition sd_add (d : sdht) (pk : list byte) : Z * Z * sdht :=
  if sd_next d =? UINT32_MAX then (-1, 0, d)
  else (0, sd_next d, { d with sd_friends ::= fun l => (pk, sd_next d) :: l; sd_next ::= Z.add 1 }).

#[export] Instance sample_dht : Dht sdht fbpacket := {
  dht_get_friend_number d pk :=
    match find_friend (sd_friends d) pk with Some n => (0, n) | None => (-1, UINT32_MAX) end;
  dht_friend_message d n p :=
    if n =? sd_refuses d then (-1, d) else (0, { d with sd_sent ::= cons (n, p) });
  dht_friend_add d a _ := sd_add d (take 32 a);
  dht_friend_add_norequest d pk := sd_add d pk;
  dht_friend_delete d n := { d with sd_friends ::= base.filter (fun p => p.2 <> n) };
  dht_self_set_name d s := (0, { d with sd_name := s });
  dht_self_set_desc d b := { d with sd_desc := Some b };
  dht_self_get_name d := (strlen (sd_name d), sd_name d);
  dht_self_set_nospam d n := { d with sd_nospam := n };
  dht_self_get_nospam d := sd_nospam d;
  dht_self_set_status d s := { d with sd_status := s };
  dht_self_get_status d := sd_status d;
  dht_get_self_info d := (0, ([], replicate 32 (byte.of_Z 97), sd_status d, sd_desc d))
}.

Definition all_callbacks : ElaCallbacks :=
  {| cb_idle := true; cb_connection_status := true; cb_ready := true; cb_friend_list := true;
     cb_friend_connection := true; cb_friend_info := true; cb_friend_presence := true;
     cb_friend_request := true; cb_friend_added := true; cb_friend_removed := true;
     cb_friend_message := true; cb_friend_invite := true; cb_session_invite := true;
     cb_group_invite := true; cb_group_connected := true; cb_group_message := true;
     cb_group_title := true; cb_group_peer_name := true; cb_group_peer_list_changed := true |}.

Definition alice_id : string := "alice...........................".
Definition bob_id : string := "bob.............................".

(** A ready node [id] with one friend, [peer], under number [n]. *)
Definition sample_node (id peer : string) (n refuses : Z) : ElaCarrier sdht :=
  {| last_error := 0;
     dht_state := {| sd_friends := [(String.list_byte_of_string peer, n)]; sd_next := n + 1;
                     sd_sent := []; sd_refuses := refuses; sd_nospam := 0; sd_status := 0;
                     sd_name := ""; sd_desc := None |};
     public_key := String.list_byte_of_string id; address := []; base58_addr := "";
     me := { empty_user_info with userid := id };
     presence_status := 0; connection_status := ElaConnectionStatus_Connected; is_ready := true;
     callbacks := all_callbacks; friend_events := [];
     friends := ht_put n (new_friend peer n) ht_empty;
     tcallbacks := ht_empty; thistory := ht_empty; tassembly_ireqs := ht_empty;
     tassembly_irsps := ht_empty; events := [] |}.

Definition alice : ElaCarrier sdht := sample_node alice_id bob_id 5 (-1).
Definition bob : ElaCarrier sdht := sample_node bob_id alice_id 9 (-1).

(** Bytes to send. *)
Definition some_bytes (n : nat) : list byte := (fun i => byte.of_Z (Z.of_nat i)) <$> seq 0 n.

(** The value of a run that returns, [a] for one that does not. *)
Definition run {A} (m : Res A) (a : A) : A := match m with Ok a => a | Fault _ => a end.

(** The encoding of a packet that encodes. *)
Definition packet (cp : ElaCP) : fbpacket :=
  run (elacp_encode cp) {| pk_type := 0; pk_body := None |}.
