(* ===== verification/CarrierProps.v ===== *)
(** * Properties of identities, user information and friend messages

    The checksum of addresses, the copying of user information between nodes,
    friend events and friend messages. *)

From S2P Require Import Prelude ElaError ElaCP Carrier Sample.

(** ** Addresses *)

Lemma lxor_byte_range x y : 0 <= x < 256 -> 0 <= y < 256 -> 0 <= Z.lxor x y < 256.
Proof.
  intros Hx Hy. split; [apply Z.lxor_nonneg; lia|].
  destruct (Z.eq_dec (Z.lxor x y) 0) as [->|Hne]; [lia|].
  apply Z.log2_lt_pow2 with (b := 8); [pose proof (proj2 (Z.lxor_nonneg x y)); lia|].
  eapply Z.le_lt_trans; [apply Z.log2_lxor; lia|].
  apply Z.max_lub_lt; (destruct (Z.eq_dec x 0), (Z.eq_dec y 0); subst; cbn; try lia;
    apply Z.log2_lt_pow2; lia).
Qed.

Lemma checksum_range i l c0 c1 x0 x1 :
  0 <= c0 < 256 -> 0 <= c1 < 256 -> checksum_loop i l c0 c1 = (x0, x1) ->
  0 <= x0 < 256 /\ 0 <= x1 < 256.
Proof.
  induction l as [|b l IH] in i, c0, c1 |- *; cbn; intros H0 H1; [by intros [= <- <-]|].
  pose proof (byte.unsigned_range b). case_match; apply IH; try done; by apply lxor_byte_range.
Qed.

(** Replacing byte [j] changes one of the two sums by the difference. *)
Lemma checksum_insert i l j b old c0 c1 :
  l !! j = Some old ->
  checksum_loop i (<[j := b]> l) c0 c1 =
    let d := Z.lxor (byte.unsigned old) (byte.unsigned b) in
    let '(x0, x1) := checksum_loop i l c0 c1 in
    if Nat.even (i + j) then (Z.lxor x0 d, x1) else (x0, Z.lxor x1 d).
Proof.
  assert (forall l i c0 c1 d, checksum_loop i l (Z.lxor c0 d) c1 =
    let '(x0, x1) := checksum_loop i l c0 c1 in (Z.lxor x0 d, x1)) as Hl0.
  { clear. induction l as [|b l IH]; intros; cbn; [done|]. case_match; [|by rewrite IH].
    by rewrite <- IH, !Z.lxor_assoc, (Z.lxor_comm d). }
  assert (forall l i c0 c1 d, checksum_loop i l c0 (Z.lxor c1 d) =
    let '(x0, x1) := checksum_loop i l c0 c1 in (x0, Z.lxor x1 d)) as Hl1.
  { clear. induction l as [|b l IH]; intros; cbn; [done|]. case_match; [by rewrite IH|].
    by rewrite <- IH, !Z.lxor_assoc, (Z.lxor_comm d). }
  induction l as [|x l IH] in i, j, c0, c1 |- *; [done|]. destruct j as [|j]; cbn; intros Hj.
  - injection Hj as ->. rewrite Nat.add_0_r.
    assert (forall c, Z.lxor c (byte.unsigned b) =
      Z.lxor (Z.lxor c (byte.unsigned old)) (Z.lxor (byte.unsigned old) (byte.unsigned b))) as E.
    { intros c. by rewrite Z.lxor_assoc, <- (Z.lxor_assoc (byte.unsigned old)), Z.lxor_nilpotent,
        Z.lxor_0_l. }
    rewrite !(E c0), !(E c1). destruct (Nat.even i); [apply Hl0|apply Hl1].
  - rewrite Nat.add_succ_r. destruct (Nat.even i); by rewrite IH.
Qed.

(** The two bytes of the checksum as the code compares them. *)
Lemma address_checksum_eq l b0 b1 :
  address_checksum l = le_combine [b0; b1] <->
  checksum_loop 0 l 0 0 = (byte.unsigned b0, byte.unsigned b1).
Proof.
  unfold address_checksum. destruct (checksum_loop 0 l 0 0) as [x0 x1] eqn:Hx.
  apply checksum_range in Hx as [H0 H1]; [|lia..]. split.
  - intros E. apply le_combine_inj in E; [|done]. injection E as <- <-.
    rewrite !byte.unsigned_of_Z. unfold byte.wrap. by rewrite !Z.mod_small by lia.
  - intros [= -> ->]. by rewrite !byte.of_Z_unsigned.
Qed.

Section Address.
Context `{!Base58}.

(** An address is valid when it decodes to 38 bytes whose last two are the sums of
    the others. *)
Lemma is_valid_address_spec s :
  is_valid_address s = true <->
  exists l b0 b1, base58_decode s DHT_ADDRESS_SIZE = Some (l ++ [b0; b1]) /\ length l = 36%nat /\
    checksum_loop 0 l 0 0 = (byte.unsigned b0, byte.unsigned b1).
Proof.
  unfold is_valid_address. destruct (base58_decode s DHT_ADDRESS_SIZE) as [addr|];
    [|split; [done|by intros (? & ? & ? & ? & _)]].
  unfold DHT_ADDRESS_SIZE. destruct (Z.eqb_spec (Z.of_nat (length addr)) 38) as [Hl|Hl]; cbn [negb].
  - change (Z.to_nat (DHT_PUBLIC_KEY_SIZE + 4)) with 36%nat. change (Z.to_nat (38 - 2)) with 36%nat.
    assert (length (drop 36 addr) = 2%nat) as Hd by (rewrite length_drop; lia).
    destruct (drop 36 addr) as [|b0 [|b1 [|]]] eqn:Hdrop; try done.
    change (take 2 [b0; b1]) with [b0; b1]. rewrite Z.eqb_eq, address_checksum_eq. split.
    + intros Hc. exists (take 36 addr), b0, b1. rewrite <- Hdrop, take_drop.
      rewrite length_take. split_and!; [done|lia|done].
    + intros (l & b0' & b1' & [= ->] & Hll & Hc).
      rewrite drop_app_length' in Hdrop by done. injection Hdrop as <- <-.
      by rewrite take_app_length'.
  - split; [done|]. intros (l & b0 & b1 & [= ->] & Hll & _). rewrite length_app, Hll in Hl. cbn in Hl. lia.
Qed.

(** The checksum of an address detects every change of one byte: if an address
    is valid, no text that decodes to the same bytes but one is a valid address,
    wherever the byte is, in the key, the nospam or the checksum itself. *)
Theorem address_checksum_detects s s' addr i old b :
  base58_decode s DHT_ADDRESS_SIZE = Some addr ->
  base58_decode s' DHT_ADDRESS_SIZE = Some (<[i := b]> addr) ->
  addr !! i = Some old -> b <> old ->
  is_valid_address s = true -> is_valid_address s' = false.
Proof.
  intros Hs Hs' Hi Hne Hv. apply not_true_is_false. intros Hv'.
  apply is_valid_address_spec in Hv as (l & b0 & b1 & Hd & Hl & Hc).
  apply is_valid_address_spec in Hv' as (l' & b0' & b1' & Hd' & Hl' & Hc').
  rewrite Hs in Hd. injection Hd as ->. rewrite Hs' in Hd'. injection Hd' as Hd'.
  assert (byte.unsigned b <> byte.unsigned old) as Hneu by (intros ?%byte.unsigned_inj; done).
  destruct (decide (i < 36)%nat) as [Hlt|Hge].
  - rewrite insert_app_l in Hd' by lia. apply app_inj_1 in Hd' as [<- [= <- <-]];
      [|by rewrite length_insert, Hl].
    rewrite lookup_app_l in Hi by lia. rewrite (checksum_insert _ _ _ _ old), Hc in Hc' by done.
    enough (Z.lxor (byte.unsigned old) (byte.unsigned b) = 0) as E%Z.lxor_eq by congruence.
    assert (forall x d, Z.lxor x d = x -> d = 0) as Hx0.
    { intros x d E. apply (f_equal (Z.lxor x)) in E.
      by rewrite <- Z.lxor_assoc, Z.lxor_nilpotent, Z.lxor_0_l in E. }
    cbv zeta in Hc'. case_match; injection Hc'; intros; eapply Hx0; done.
  - rewrite insert_app_r_alt in Hd' by lia. apply app_inj_1 in Hd' as [-> Hd']; [|congruence].
    rewrite Hc in Hc'. injection Hc' as <-%byte.unsigned_inj <-%byte.unsigned_inj.
    rewrite lookup_app_r in Hi by lia. rewrite Hl in *.
    destruct (i - 36)%nat as [|[|k]]; cbn in *; [congruence|congruence|done].
Qed.
End Address.

(** A valid address under the sample codec: 36 equal bytes, whose sums vanish. *)
Definition sample_address (b : byte) : string :=
  String.string_of_list_byte (b :: replicate 35 (byte.of_Z 97) ++ [byte.of_Z 0; byte.of_Z 0]).

Lemma address_checksum_detects_witness :
  is_valid_address (sample_address (byte.of_Z 97)) = true /\
  is_valid_address (sample_address (byte.of_Z 98)) = false.
Proof.
  assert (is_valid_address (sample_address (byte.of_Z 97)) = true) as Hv by (vm_compute; reflexivity).
  split; [exact Hv|].
  refine (address_checksum_detects (sample_address (byte.of_Z 97)) (sample_address (byte.of_Z 98))
    (byte.of_Z 97 :: replicate 35 (byte.of_Z 97) ++ [byte.of_Z 0; byte.of_Z 0]) 0
    (byte.of_Z 97) (byte.of_Z 98) _ _ _ _ Hv); [vm_compute; reflexivity..|discriminate].
Defined.

(** ** User information *)

#[export] Instance ElaUserInfo_eq_dec : EqDecision ElaUserInfo.
Proof. solve_decision. Defined.

Definition text_fits (cap : Z) (old new : string) : bool := str_eqb old new || (strlen new <? cap).

Lemma update_text_spec cap old new :
  update_text cap old new =
    if text_fits cap old new then Ok (new, negb (str_eqb old new)) else Fault BufferOverflow.
Proof.
  unfold update_text, text_fits, strcpy. destruct (str_eqb old new) eqn:E; cbn.
  - by apply str_eqb_eq in E as ->.
  - by destruct (strlen new <? cap).
Qed.

(** The information [ui] after a description [p] of its owner. *)
Definition described (p : ElaCPUserInfo) (ui : ElaUserInfo) : ElaUserInfo :=
  {| userid := userid ui; name := or_empty (ui_name p); description := or_empty (ui_descr p);
     has_avatar := ui_has_avatar p; gender := or_empty (ui_gender p);
     phone := or_empty (ui_phone p); email := or_empty (ui_email p);
     region := or_empty (ui_region p) |}.

Definition described_fits (p : ElaCPUserInfo) (ui : ElaUserInfo) : bool :=
  text_fits (ELA_MAX_USER_NAME_LEN + 1) (name ui) (or_empty (ui_name p))
  && text_fits (ELA_MAX_USER_DESCRIPTION_LEN + 1) (description ui) (or_empty (ui_descr p))
  && text_fits (ELA_MAX_GENDER_LEN + 1) (gender ui) (or_empty (ui_gender p))
  && text_fits (ELA_MAX_PHONE_LEN + 1) (phone ui) (or_empty (ui_phone p))
  && text_fits (ELA_MAX_EMAIL_LEN + 1) (email ui) (or_empty (ui_email p))
  && text_fits (ELA_MAX_REGION_LEN + 1) (region ui) (or_empty (ui_region p)).

(** The flags of the fields say whether the whole differs. *)
Lemma described_changed p ui :
  negb (str_eqb (name ui) (or_empty (ui_name p)))
  || negb (str_eqb (description ui) (or_empty (ui_descr p)))
  || negb (str_eqb (gender ui) (or_empty (ui_gender p)))
  || negb (str_eqb (phone ui) (or_empty (ui_phone p)))
  || negb (str_eqb (email ui) (or_empty (ui_email p)))
  || negb (str_eqb (region ui) (or_empty (ui_region p)))
  || negb (Bool.eqb (has_avatar ui) (ui_has_avatar p)) = bool_decide (described p ui <> ui).
Proof.
  unfold str_eqb, described. destruct ui; cbn.
  repeat (case_bool_decide; cbn; simplify_eq/=; [|by rewrite bool_decide_true by congruence]).
  case_bool_decide; destruct has_avatar, (ui_has_avatar p); naive_solver congruence.
Qed.

Section UserInfo.
Context `{!HashTables, !Base58} {dht buffer : Type}
  `{!Dht dht buffer, !FlatBuffers buffer} {FL : FlatBuffersLaws buffer}.
Implicit Types w wr : ElaCarrier dht.

(** C39. What a peer's description does to the information kept about it: when
    every text that differs from the one kept fits its field, the fields are
    replaced by those of the packet, absent ones by the empty string, the
    identifier is kept, and the result says whether anything changed; a single
    text that does not fit overflows its field. *)
Theorem user_description_copied desc e p ui :
  elacp_decode desc = Ok (Some {| ext := e; body := UserInfo p |}) ->
  unpack_user_desc (buffer := buffer) desc ui =
    if described_fits p ui
    then Ok (Some (described p ui, bool_decide (described p ui <> ui)))
    else Fault BufferOverflow.
Proof.
  intros Hd. unfold unpack_user_desc. rewrite Hd. cbn [mbind Res_bind].
  cbn [elacp_get_type body Z.eqb Pos.eqb negb ELACP_TYPE_USERINFO elacp_get_has_avatar
    elacp_get_name elacp_get_descr elacp_get_gender elacp_get_phone elacp_get_email
    elacp_get_region mbind Res_bind].
  rewrite !update_text_spec, <- described_changed. unfold described_fits.
  by repeat destruct (text_fits _ _ _).
Qed.

(** The packet that describes a node. *)
Definition info_fields (ui : ElaUserInfo) : ElaCPUserInfo :=
  {| ui_has_avatar := has_avatar ui; ui_name := Some (name ui); ui_descr := Some (description ui);
     ui_phone := Some (phone ui); ui_gender := Some (gender ui); ui_email := Some (email ui);
     ui_region := Some (region ui) |}.

Definition info_packet (ui : ElaUserInfo) : ElaCP := {| ext := None; body := UserInfo (info_fields ui) |}.

Lemma set_user_info {A} (ui : ElaUserInfo) cp (k : ElaCP -> Res A) :
  elacp_create ELACP_TYPE_USERINFO None = Ok cp ->
  (cp ← elacp_set_has_avatar cp (Z.b2z (has_avatar ui));
   cp ← elacp_set_name cp (Some (name ui));
   cp ← elacp_set_descr cp (Some (description ui));
   cp ← elacp_set_gender cp (Some (gender ui));
   cp ← elacp_set_phone cp (Some (phone ui));
   cp ← elacp_set_email cp (Some (email ui));
   cp ← elacp_set_region cp (Some (region ui)); k cp) = k (info_packet ui).
Proof. intros [= <-]. by destruct ui as [? ? ? [] ? ? ? ?]. Qed.

(** What a node says about itself is what its friends learn.  When
    [ela_set_self_info] returns 0 either nothing differed, and nothing was done,
    or the node now has the new information, the description it gave the DHT is
    copied by every friend without overflow, and what the friend keeps is then
    exactly the new information, under the identifier it knows the node by. *)
Theorem self_info_roundtrip w ui w' :
  ela_set_self_info w ui = Ok (0, w') ->
  (w' = w /\ me w = ui) \/
  exists desc d, dht_state w' = dht_self_set_desc d desc /\ me w' = ui /\
    forall old, exists changed, unpack_user_desc desc old =
      Ok (Some ({ ui with userid := userid old }, changed)).
Proof.
  unfold ela_set_self_info. intros Hr.
  destruct (str_eqb (userid ui) (userid (me w))) eqn:Hid; [|done]. apply str_eqb_eq in Hid.
  cbn [negb elacp_create] in Hr. apply Res_bind_Ok in Hr as (cp & Hcp & Hr).
  destruct (_ && _) eqn:Hsame in Hr.
  { injection Hr as <-. left. split; [done|]. clear Hcp. rewrite !andb_true_iff in Hsame.
    destruct Hsame as ((((((H1 & H2) & H3) & H4) & H5) & H6) & H7).
    apply eqb_prop in H1. rewrite str_eqb_eq in H2, H3, H4, H5, H6, H7.
    destruct (me w), ui; cbn in *. congruence. }
  right. destruct (if str_eqb (name ui) (name (me w)) then _ else _) as [rc d].
  destruct (negb (rc =? 0)); [done|].
  rewrite (set_user_info ui cp _ Hcp) in Hr.
  apply Res_bind_Ok in Hr as (data & Henc & Hr).
  apply Res_bind_Ok in Hr as (nm & [-> Hnm]%strcpy_inv & Hr).
  apply Res_bind_Ok in Hr as (ds & [-> Hds]%strcpy_inv & Hr).
  apply Res_bind_Ok in Hr as (gd & [-> Hgd]%strcpy_inv & Hr).
  apply Res_bind_Ok in Hr as (ph & [-> Hph]%strcpy_inv & Hr).
  apply Res_bind_Ok in Hr as (em & [-> Hem]%strcpy_inv & Hr).
  apply Res_bind_Ok in Hr as (rg & [-> Hrg]%strcpy_inv & Hr).
  injection Hr as <-. exists data, d. split_and!; [done| |].
  - cbn. rewrite <- Hid. by destruct ui.
  - intros old. eexists. erewrite (user_description_copied data None (info_fields ui) old);
      [|by apply decode_encoded with (cp := info_packet ui)].
    unfold described_fits, text_fits, info_fields. cbn. unfold id.
    rewrite !(proj2 (Z.ltb_lt _ _)), !orb_true_r by done. by destruct ui.
Qed.
End UserInfo.

Definition new_info : ElaUserInfo :=
  {| userid := alice_id; name := "Alice"; description := "a node"; has_avatar := true;
     gender := ""; phone := "123"; email := "alice@example.org"; region := "" |}.
Definition alice_described : ElaCarrier sdht := (run (ela_set_self_info alice new_info) (0, alice)).2.

Lemma user_description_copied_witness :
  elacp_decode (packet (info_packet new_info)) = Ok (Some (info_packet new_info)) /\
  unpack_user_desc (packet (info_packet new_info)) empty_user_info =
    if described_fits (info_fields new_info) empty_user_info
    then Ok (Some (described (info_fields new_info) empty_user_info,
                   bool_decide (described (info_fields new_info) empty_user_info <> empty_user_info)))
    else Fault BufferOverflow.
Proof.
  assert (elacp_decode (packet (info_packet new_info)) = Ok (Some (info_packet new_info))) as Hd
    by (vm_compute; reflexivity).
  split; [exact Hd|].
  exact (user_description_copied (packet (info_packet new_info)) None (info_fields new_info)
    empty_user_info Hd).
Defined.

Lemma self_info_roundtrip_witness :
  ela_set_self_info alice new_info = Ok (0, alice_described) /\
  ((alice_described = alice /\ me alice = new_info) \/
   exists desc d, dht_state alice_described = dht_self_set_desc d desc /\
     me alice_described = new_info /\
     forall old, exists changed, unpack_user_desc desc old =
       Ok (Some ({ new_info with userid := userid old }, changed))).
Proof.
  assert (ela_set_self_info alice new_info = Ok (0, alice_described)) as Hr
    by (vm_compute; reflexivity).
  split; [exact Hr|]. exact (self_info_roundtrip alice new_info alice_described Hr).
Defined.

(** ** Friend events *)

Section Events.
Context `{!HashTables, !Base58} {dht buffer : Type} `{!Dht dht buffer, !FlatBuffers buffer}.
Implicit Types w wr : ElaCarrier dht.

(** What the application sees of a friend event, in order. *)
Definition event_calls (cbs : ElaCallbacks) (e : FriendEvent) : list carrier_event :=
  match fe_type e with
  | FriendEventType_Added => if cb_friend_added cbs then [EvFriendAdded (fe_fi e)] else []
  | FriendEventType_Removed =>
      (if bool_decide (status (fe_fi e) = ElaConnectionStatus_Connected) && cb_friend_connection cbs
       then [EvFriendConnection (userid (user_info (fe_fi e))) ElaConnectionStatus_Disconnected]
       else []) ++
      (if cb_friend_removed cbs then [EvFriendRemoved (userid (user_info (fe_fi e)))] else [])
  end.

Lemma do_friend_event_spec e w :
  do_friend_event e w = { w with events ::= app (reverse (event_calls (callbacks w) e)) }.
Proof.
  unfold do_friend_event, event_calls, emit_if, emit.
  destruct (fe_type e); [destruct (cb_friend_added _); by destruct w|].
  destruct (bool_decide _ && _); cbn [callbacks tset set gafu_getter gafu_field_updater];
    destruct (cb_friend_removed _) eqn:E; cbn in *; rewrite ?E; by destruct w.
Qed.

(** Every friend added or removed is reported once, in the order of the calls,
    a friend that was connected as disconnected first; the queue is empty
    afterwards and nothing else of the node changed. *)
Theorem friend_events_delivered w :
  do_friend_events w =
    { w with friend_events := [];
             events ::= app (reverse (flat_map (event_calls (callbacks w)) (friend_events w))) }.
Proof.
  unfold do_friend_events.
  assert (forall l w, friend_events w = l -> do_events l w =
    { w with friend_events := []; events ::= app (reverse (flat_map (event_calls (callbacks w)) l)) })
    as Hl; [|by apply Hl].
  induction l as [|e l IH]; intros w' Hw; cbn [do_events].
  { destruct w'; cbn in Hw; by subst. }
  rewrite IH by (rewrite do_friend_event_spec; cbn; by rewrite Hw).
  rewrite do_friend_event_spec. cbn [flat_map]. rewrite reverse_app.
  transitivity { w' with friend_events := []; events :=
    reverse (flat_map (event_calls (callbacks w')) l) ++
    reverse (event_calls (callbacks w') e) ++ events w' }; [reflexivity|].
  by rewrite app_assoc.
Qed.
End Events.

(** ** The friend list *)

Section Friends.
Context `{!HashTables, !Base58} {dht buffer : Type} `{!Dht dht buffer, !FlatBuffers buffer}.
Implicit Types w wr : ElaCarrier dht.

(** A call that failed: only the DHT and the thread's error may differ. *)
Definition call_failed w w' : Prop :=
  w' = { w with dht_state := dht_state w'; last_error := last_error w' }.

(** A friend [id] came in under number [n]: filed, queued for the application, and
    the data file written. *)
Definition friend_added (id : string) (n : Z) w w' : Prop :=
  w' = { w with
    dht_state := dht_state w';
    friends ::= ht_put n (new_friend id n);
    friend_events ::= fun l => l ++ [{| fe_type := FriendEventType_Added;
                                        fe_fi := info (new_friend id n) |}];
    events ::= cons EvStore }.

(** The DHT knows the friend whose identifier is [u] under the number [n]. *)
Definition friend_numbered w (u : string) (n : Z) : Prop :=
  exists key rc, base58_decode u DHT_PUBLIC_KEY_SIZE = Some key /\ length key = 32%nat /\
    dht_get_friend_number (dht_state w) key = (rc, n) /\ 0 <= rc.

Lemma get_friend_number_spec w u rc n :
  get_friend_number w u = (rc, n) -> (rc <? 0) = false -> friend_numbered w u n.
Proof.
  unfold get_friend_number. intros Hg Hrc%Z.ltb_ge.
  destruct (base58_decode u DHT_PUBLIC_KEY_SIZE) as [key|] eqn:Hk.
  2: { injection Hg as <- <-. exfalso. revert Hrc. apply Zlt_not_le. by vm_compute. }
  destruct (Z.eqb_spec (Z.of_nat (length key)) DHT_PUBLIC_KEY_SIZE) as [Hl|]; cbn [negb] in Hg.
  2: { injection Hg as <- <-. exfalso. revert Hrc. apply Zlt_not_le. by vm_compute. }
  destruct (dht_get_friend_number _ key) as [rc' n'] eqn:Hd.
  destruct (Z.ltb_spec rc' 0); injection Hg as <- <-.
  { exfalso. revert Hrc. apply Zlt_not_le. by vm_compute. }
  exists key, rc'. unfold DHT_PUBLIC_KEY_SIZE in Hl. split_and!; [done|lia|done|done].
Qed.

Definition friend_removed (n : Z) (fi : FriendInfo) w w' : Prop :=
  w' = { w with
    dht_state := dht_friend_delete (dht_state w) n;
    friends ::= ht_remove n;
    friend_events ::= fun l => l ++ [{| fe_type := FriendEventType_Removed; fe_fi := info fi |}];
    events ::= cons EvStore }.

Definition friend_labelled (fi : FriendInfo) (l : string) w w' : Prop :=
  w' = { w with friends ::= ht_put (friend_number fi) { fi with info := { info fi with label := l } };
                events ::= cons EvStore }.

Lemma fails_failed code w w0 rc w' :
  call_failed w w0 -> fails code w0 = Ok (rc, w') -> rc = -1 /\ call_failed w w'.
Proof. unfold call_failed. intros Hw [= <- <-]. split; [done|]. rewrite Hw. by destruct w. Qed.

Lemma call_failed_refl w : call_failed w w.
Proof. by destruct w. Qed.
Lemma call_failed_dht w d : call_failed w { w with dht_state := d }.
Proof. by destruct w. Qed.

(** Leaves through an error return. *)
Ltac failed Hr := left; eapply fails_failed, Hr; first [apply call_failed_refl|apply call_failed_dht].

Lemma ela_accept_friend_spec w id rc w' :
  ela_accept_friend w id = Ok (rc, w') ->
  (rc = -1 /\ call_failed w w') \/
  (rc = 0 /\ exists u n, id = Some u /\ is_valid_key u = true /\ u <> userid (me w) /\
     is_ready w = true /\ friend_added u n w w' /\ exists key r,
     base58_decode u DHT_PUBLIC_KEY_SIZE = Some key /\
     dht_friend_add_norequest (dht_state w) key = (r, n, dht_state w') /\ 0 <= r).
Proof.
  unfold ela_accept_friend. intros Hr. destruct id as [[|c id]|]; [failed Hr| |failed Hr].
  destruct (is_valid_key (String c id)) eqn:Hv; cbn [negb] in Hr; [|failed Hr].
  destruct (str_eqb (String c id) (userid (me w))) eqn:Hself; [failed Hr|].
  destruct (is_ready w) eqn:Hready; cbn [negb] in Hr; [|failed Hr].
  destruct (get_friend_number w (String c id)) as [rc0 n0]. destruct (_ && _) in Hr; [failed Hr|].
  unfold is_valid_key in Hv. destruct (base58_decode (String c id) DHT_PUBLIC_KEY_SIZE) as [key|] eqn:Hk; [|done].
  destruct (dht_friend_add_norequest _ _) as [[rc1 n] d] eqn:Hadd. destruct (Z.ltb_spec rc1 0); [failed Hr|].
  apply Res_bind_Ok in Hr as (u & [-> _]%strcpy_inv & Hr). injection Hr as <- <-.
  right. split; [done|]. exists (String c id), n. apply str_eqb_neq in Hself.
  unfold is_valid_key. rewrite Hk. split_and!; try done. by exists key, rc1.
Qed.

Lemma ela_add_friend_spec w a h rc w' :
  ela_add_friend w a h = Ok (rc, w') ->
  (rc = -1 /\ call_failed w w') \/
  (rc = 0 /\ exists a58 bs n, a = Some a58 /\ is_valid_address a58 = true /\ a58 <> base58_addr w /\
     base58_decode a58 DHT_ADDRESS_SIZE = Some bs /\ is_ready w = true /\
     friend_added (base58_encode (take 32 bs)) n w w' /\ exists greeting r,
     dht_friend_add (dht_state w) bs greeting = (r, n, dht_state w') /\ 0 <= r).
Proof.
  unfold ela_add_friend. intros Hr. destruct h as [[|ch h]|], a as [[|ca a]|]; try failed Hr.
  destruct (is_valid_address (String ca a)) eqn:Hv; cbn [negb] in Hr; [|failed Hr].
  destruct (str_eqb (String ca a) (base58_addr w)) eqn:Hself; [failed Hr|].
  destruct (is_ready w) eqn:Hready; cbn [negb] in Hr; [|failed Hr].
  destruct (dht_get_friend_number _ _) as [rc0 n0]. destruct (_ && _) in Hr; [failed Hr|].
  do 4 (apply Res_bind_Ok in Hr as (? & _ & Hr)). apply Res_bind_Ok in Hr as (greeting & _ & Hr).
  destruct (dht_friend_add _ _ _) as [[rc1 n] d] eqn:Hadd. destruct (Z.ltb_spec rc1 0); [failed Hr|].
  apply Res_bind_Ok in Hr as (u & [-> _]%strcpy_inv & Hr). injection Hr as <- <-.
  right. split; [done|]. apply str_eqb_neq in Hself.
  apply is_valid_address_spec in Hv as Hd. destruct Hd as (l & b0 & b1 & Hd & _).
  exists (String ca a), (l ++ [b0; b1]), n. rewrite Hd in *. split_and!; try done. by exists greeting, rc1.
Qed.

Lemma ela_remove_friend_spec w id rc w' :
  ela_remove_friend w id = Ok (rc, w') ->
  (rc = -1 /\ call_failed w w') \/
  (rc = 0 /\ exists u n fi, id = Some u /\ friend_numbered w u n /\
     ht_get (friends w) n = Some fi /\ is_ready w = true /\ friend_removed n fi w w').
Proof.
  unfold ela_remove_friend. intros Hr. destruct id as [[|c id]|]; [failed Hr| |failed Hr].
  destruct (is_valid_key (String c id)); cbn [negb] in Hr; [|failed Hr].
  destruct (is_ready w) eqn:Hready; cbn [negb] in Hr; [|failed Hr].
  destruct (get_friend_number w (String c id)) as [rc0 n] eqn:Hg. destruct (rc0 <? 0) eqn:Hrc; [failed Hr|].
  apply (get_friend_number_spec _ _ _ _ Hg) in Hrc. apply Res_bind_Ok in Hr as (ex & _ & Hr). destruct (negb ex); [failed Hr|].
  apply Res_bind_Ok in Hr as ([[fi|] w1] & Hrm & Hr); [|done].
  unfold friends_remove in Hrm. res_inv. simplify_eq. right. split; [done|]. by exists (String c id), n, fi.
Qed.

Lemma ela_set_friend_label_spec w id l rc w' :
  ela_set_friend_label w id l = Ok (rc, w') ->
  (rc = -1 /\ call_failed w w') \/
  (rc = 0 /\ exists n fi, friend_numbered w (userid (user_info (info fi))) n /\
     ht_get (friends w) n = Some fi /\ id = Some (userid (user_info (info fi))) /\ strlen (or_empty l) <= ELA_MAX_USER_NAME_LEN /\ friend_labelled fi (or_empty l) w w').
Proof.
  unfold ela_set_friend_label. intros Hr. destruct id as [[|c id]|]; [failed Hr| |failed Hr].
  destruct (_ >? _) eqn:Hl in Hr; [failed Hr|]. rewrite Z.gtb_ltb in Hl. apply Z.ltb_ge in Hl.
  destruct (get_friend_number w (String c id)) as [rc0 n] eqn:Hg. destruct (rc0 <? 0) eqn:Hrc; [failed Hr|].
  apply (get_friend_number_spec _ _ _ _ Hg) in Hrc.
  apply Res_bind_Ok in Hr as ([fi|] & Hfi & Hr); [|failed Hr].
  apply Res_bind_Ok in Hr as (? & Heq%c_assert_Ok%str_eqb_eq & Hr).
  apply Res_bind_Ok in Hr as (lb & [-> _]%strcpy_inv & Hr). injection Hr as <- <-.
  unfold friends_get in Hfi. res_inv. right. split; [done|]. exists n, fi. by rewrite <- Heq.
Qed.

(** C38. The calls that change the friend list do so whole or not at all.  Adding,
    accepting, removing and labelling a friend return 0 with exactly their effect,
    the table entry, the queued event and one write of the data file, or return -1
    with the table, the queue and the file as they were.  A friend is only added
    under a valid identifier that is not the node's own, which the DHT took, and is
    filed under the number that the DHT gave it; the friend that is removed, from the
    table and from the DHT, or labelled is the one that the DHT knows by the identifier
    that the call names. *)
Theorem friend_calls_atomic w rc w' :
  (forall id, ela_accept_friend w id = Ok (rc, w') ->
     (rc = -1 /\ call_failed w w') \/
     (rc = 0 /\ exists u n, id = Some u /\ is_valid_key u = true /\ u <> userid (me w) /\
        is_ready w = true /\ friend_added u n w w' /\ exists key r,
        base58_decode u DHT_PUBLIC_KEY_SIZE = Some key /\
        dht_friend_add_norequest (dht_state w) key = (r, n, dht_state w') /\ 0 <= r)) /\
  (forall a h, ela_add_friend w a h = Ok (rc, w') ->
     (rc = -1 /\ call_failed w w') \/
     (rc = 0 /\ exists a58 bs n, a = Some a58 /\ is_valid_address a58 = true /\
        a58 <> base58_addr w /\ base58_decode a58 DHT_ADDRESS_SIZE = Some bs /\ is_ready w = true /\
        friend_added (base58_encode (take 32 bs)) n w w' /\ exists greeting r,
        dht_friend_add (dht_state w) bs greeting = (r, n, dht_state w') /\ 0 <= r)) /\
  (forall id, ela_remove_friend w id = Ok (rc, w') ->
     (rc = -1 /\ call_failed w w') \/
     (rc = 0 /\ exists u n fi, id = Some u /\ friend_numbered w u n /\
        ht_get (friends w) n = Some fi /\ is_ready w = true /\ friend_removed n fi w w')) /\
  (forall id l, ela_set_friend_label w id l = Ok (rc, w') ->
     (rc = -1 /\ call_failed w w') \/
     (rc = 0 /\ exists n fi, friend_numbered w (userid (user_info (info fi))) n /\
        ht_get (friends w) n = Some fi /\ id = Some (userid (user_info (info fi))) /\
        strlen (or_empty l) <= ELA_MAX_USER_NAME_LEN /\ friend_labelled fi (or_empty l) w w')).
Proof.
  split_and!; intros; [by apply ela_accept_friend_spec|by eapply ela_add_friend_spec
    |by eapply ela_remove_friend_spec|by apply ela_set_friend_label_spec].
Qed.
End Friends.

Definition carol_id : string := "carol...........................".
Definition alice_accepted : ElaCarrier sdht := (run (ela_accept_friend alice (Some carol_id)) (0, alice)).2.

Definition alice_alone : ElaCarrier sdht := (run (ela_remove_friend alice (Some bob_id)) (0, alice)).2.

(** Alice accepts Carol, and removes Bob. *)
Lemma friend_calls_atomic_witness :
  (exists u n, Some carol_id = Some u /\ is_valid_key u = true /\ u <> userid (me alice) /\
     is_ready alice = true /\ friend_added u n alice alice_accepted /\ exists key r,
     base58_decode u DHT_PUBLIC_KEY_SIZE = Some key /\
     dht_friend_add_norequest (dht_state alice) key = (r, n, dht_state alice_accepted) /\ 0 <= r) /\
  (exists u n fi, Some bob_id = Some u /\ friend_numbered alice u n /\
     ht_get (friends alice) n = Some fi /\ is_ready alice = true /\ friend_removed n fi alice alice_alone).
Proof.
  assert (ela_accept_friend alice (Some carol_id) = Ok (0, alice_accepted)) as Ha by (vm_compute; reflexivity).
  assert (ela_remove_friend alice (Some bob_id) = Ok (0, alice_alone)) as Hr by (vm_compute; reflexivity).
  split.
  - by destruct (proj1 (friend_calls_atomic alice 0 alice_accepted) (Some carol_id) Ha) as [[? _]|[_ H]].
  - by destruct (proj1 (proj2 (proj2 (friend_calls_atomic alice 0 alice_alone))) (Some bob_id) Hr)
      as [[? _]|[_ H]].
Defined.
