(* ===== verification/Invite.v ===== *)
(** * Friend invitations (src/carrier/ela_carrier.c, tassemblies.h, tcallbacks.h, thistory.h)

    An invitation carries up to 8192 bytes in fragments of at most 1280; the
    friend puts the fragments together per transaction, shows the whole to the
    application once, and remembers the transaction; the reply goes back the same
    way and completes the transaction of the inviter.  Both sides, the tables
    they keep and the expiry of what never completes.

    The time ([now], in microseconds), the transaction id that [generate_tid]
    draws and the uninitialised [friend_number] of a new transaction are
    arguments. *)

From S2P Require Import Prelude ElaError ElaCP Carrier.

Definition ELA_MAX_INVITE_DATA_LEN : Z := 8192.
Definition ELA_MAX_BUNDLE_LEN : Z := 511.
Definition ELA_MAX_INVITE_REPLY_REASON_LEN : Z := 255.
Definition INVITE_DATA_UNIT : Z := 1280.
Definition TASSEMBLY_TIMEOUT : Z := 60.
Definition TRANSACTION_EXPIRE_INTERVAL : Z := 5 * 60.
Definition ELA_STATUS_TIMEOUT : Z := 1.

(** [struct timeval] sums, in microseconds. *)
Definition after (now seconds : Z) : Z := now + seconds * 1000000.

(** [sizeof(char[ELA_MAX_ID_LEN + ELA_MAX_EXTENSION_NAME_LEN + 4])] *)
Definition KEY_SIZE : Z := ELA_MAX_ID_LEN + ELA_MAX_EXTENSION_NAME_LEN + 4.

Section Invite.
Context `{!HashTables, !Base58} {dht buffer : Type} `{!Dht dht buffer, !FlatBuffers buffer}.
Implicit Types w : ElaCarrier dht.

(** ** Transaction tables *)

(** [sprintf(key, "ir_%s", userid)] *)
Definition invite_key (userid : string) : Res string := strcpy KEY_SIZE ("ir_" +:+ userid).

Definition transaction_history_put_invite (userid : string) (tid : Z) w : Res (ElaCarrier dht) :=
  c_assert (negb (tid =? 0));;
  key ← invite_key userid;
  Ok { w with thistory ::= ht_put key tid }.

Definition transaction_history_get_invite (userid : string) w : Res Z :=
  key ← invite_key userid;
  Ok (default 0 (ht_get (thistory w) key)).

Definition transaction_history_remove_invite (userid : string) w : Res (ElaCarrier dht) :=
  key ← invite_key userid;
  Ok { w with thistory ::= ht_remove key }.

Definition transacted_callbacks_put (now : Z) (tcb : TransactedCallback) w : ElaCarrier dht :=
  { w with tcallbacks ::= ht_put (tcb_tid tcb)
      { tcb with tcb_expire_time := after now TRANSACTION_EXPIRE_INTERVAL } }.

Definition transacted_callbacks_remove (tid : Z) w : ElaCarrier dht :=
  { w with tcallbacks ::= ht_remove tid }.

(** ** Sending an invitation *)

(** The length of the next fragment: what is left, within a unit from which the
    bundle takes its share; the bundle rides on the first fragment only. *)
Definition invite_send_len (bundle : option string) (bundle_len len : Z) : Z :=
  match bundle with
  | Some _ => if len + bundle_len <=? INVITE_DATA_UNIT then len else INVITE_DATA_UNIT - bundle_len
  | None => if len >? INVITE_DATA_UNIT then INVITE_DATA_UNIT else len
  end.

(** The packet of one round of the loop, the data left and the bundle's share of
    the next round. *)
Definition invite_fragment (tid : Z) (ext_name bundle : option string) (index bundle_len : Z)
    (pos : list byte) : Res (ElaCP * list byte * Z) :=
  cp ← elacp_create ELACP_TYPE_INVITE_REQUEST ext_name;
  cp ← elacp_set_tid cp tid;
  let len := Z.of_nat (length pos) in
  if len >? 0 then
    let send_len := invite_send_len bundle bundle_len len in
    '(cp, bundle_len) ←
      (match bundle with
       | Some _ => if index =? 1 then cp ← elacp_set_bundle cp bundle; Ok (cp, 0)
                   else Ok (cp, bundle_len)
       | None => Ok (cp, bundle_len)
       end);
    cp ← elacp_set_totalsz cp (if index =? 1 then len else 0);
    cp ← elacp_set_raw_data cp (Some (take (Z.to_nat send_len) pos));
    Ok (cp, drop (Z.to_nat send_len) pos, bundle_len)
  else Ok (cp, pos, bundle_len).

Fixpoint invite_loop (fuel : nat) w (number tid : Z) (ext_name bundle : option string)
    (callback context uninit now : Z) (index bundle_len : Z) (pos : list byte) :
    Res (Z * ElaCarrier dht) :=
  match fuel with
  | O => Fault Diverges
  | S fuel =>
      let index := index + 1 in
      '(cp, pos, bundle_len) ← invite_fragment tid ext_name bundle index bundle_len pos;
      data ← elacp_encode cp;
      let len := Z.of_nat (length pos) in
      let w :=
        if len =? 0 then
          transacted_callbacks_put now
            {| tcb_tid := tid; tcb_friend_number := uninit; tcb_callback_func := callback;
               tcb_callback_context := context; tcb_expire_time := 0; tcb_bundle := bundle |} w
        else w in
      let '(rc, d) := dht_friend_message (dht_state w) number data in
      let w := { w with dht_state := d } in
      if rc <? 0 then fails rc (if len =? 0 then transacted_callbacks_remove tid w else w)
      else if len >? 0
      then invite_loop fuel w number tid ext_name bundle callback context uninit now index
             bundle_len pos
      else Ok (0, w)
  end.

(** The checks that inviting and replying make on the peer's address; the friend
    number and extension name on success, the error code otherwise.  [sizeof(':')]
    is the size of an [int]. *)
Definition check_peer w (to : option string) : Res (Z + Z * option string) :=
  match to with
  | None | Some "" => Ok (inl (ELA_GENERAL_ERROR ELAERR_INVALID_ARGS))
  | Some to =>
      if strlen to >? ELA_MAX_ID_LEN + 4 + ELA_MAX_EXTENSION_NAME_LEN
      then Ok (inl (ELA_GENERAL_ERROR ELAERR_INVALID_ARGS))
      else
        let '(id, ext_name) := parse_address to in
        if negb (is_valid_key id) then Ok (inl (ELA_GENERAL_ERROR ELAERR_INVALID_ARGS))
        else if bool_decide (is_Some ext_name)
                && ((strlen (or_empty ext_name) =? 0)
                    || (strlen (or_empty ext_name) >? ELA_MAX_EXTENSION_NAME_LEN))
        then Ok (inl (ELA_GENERAL_ERROR ELAERR_INVALID_ARGS))
        else if negb (is_ready w) then Ok (inl (ELA_GENERAL_ERROR ELAERR_NOT_READY))
        else
          let '(rc, number) := get_friend_number w id in
          if rc <? 0 then Ok (inl (ELA_GENERAL_ERROR ELAERR_NOT_EXIST))
          else
            exists_ ← friends_exist w number;
            Ok (if negb exists_ then inl (ELA_GENERAL_ERROR ELAERR_NOT_EXIST)
                else inr (number, ext_name))
  end.

(** A bundle that is given is not empty and not too long. *)
Definition bad_bundle (bundle : option string) : bool :=
  match bundle with
  | None => false
  | Some b => (strlen b =? 0) || (strlen b >? ELA_MAX_BUNDLE_LEN)
  end.

(** [callback] is the application's function, never null. *)
Definition ela_invite_friend w (to bundle : option string) (data : option (list byte))
    (callback context : Z) (tid uninit now : Z) : Res (Z * ElaCarrier dht) :=
  let len := Z.of_nat (length (default [] data)) in
  if bad_bundle bundle || negb (bool_decide (is_Some data)) || (len =? 0)
     || (len >? ELA_MAX_INVITE_DATA_LEN)
  then fails (ELA_GENERAL_ERROR ELAERR_INVALID_ARGS) w
  else
    peer ← check_peer w to;
    match peer with
    | inl code => fails code w
    | inr (number, ext_name) =>
        let pos := default [] data in
        invite_loop (S (length pos)) w number tid ext_name bundle callback context uninit now 0
          (strlen (or_empty bundle)) pos
    end.

(** ** Replying *)

Definition reply_send_len (bundle_len len : Z) : Z * Z :=
  if bundle_len + len <=? INVITE_DATA_UNIT then (len, bundle_len)
  else if bundle_len >? 0 then (INVITE_DATA_UNIT - bundle_len, 0)
  else (INVITE_DATA_UNIT, bundle_len).

Definition reply_fragment (tid status : Z) (ext_name bundle reason : option string)
    (index bundle_len : Z) (pos : option (list byte)) :
    Res (ElaCP * option (list byte) * Z) :=
  cp ← elacp_create ELACP_TYPE_INVITE_RESPONSE ext_name;
  cp ← elacp_set_tid cp tid;
  cp ← elacp_set_status cp status;
  cp ← (if index =? 1 then
          cp ← (match bundle with Some _ => elacp_set_bundle cp bundle | None => Ok cp end);
          if negb (status =? 0) then elacp_set_reason cp reason else Ok cp
        else Ok cp);
  match pos with
  | Some ((_ :: _) as pos) =>
      if status =? 0 then
        let len := Z.of_nat (length pos) in
        let '(send_len, bundle_len) := reply_send_len bundle_len len in
        cp ← elacp_set_totalsz cp (if index =? 1 then len else 0);
        cp ← elacp_set_raw_data cp (Some (take (Z.to_nat send_len) pos));
        Ok (cp, Some (drop (Z.to_nat send_len) pos), bundle_len)
      else Ok (cp, Some pos, bundle_len)
  | pos => Ok (cp, pos, bundle_len)
  end.

Fixpoint reply_loop (fuel : nat) w (number tid status : Z) (ext_name bundle reason : option string)
    (index bundle_len : Z) (pos : option (list byte)) : Res (Z * ElaCarrier dht) :=
  match fuel with
  | O => Fault Diverges
  | S fuel =>
      let index := index + 1 in
      '(cp, pos, bundle_len) ←
        reply_fragment tid status ext_name bundle reason index bundle_len pos;
      data ← elacp_encode cp;
      let '(rc, d) := dht_friend_message (dht_state w) number data in
      let w := { w with dht_state := d } in
      if rc <? 0 then fails rc w
      else if Z.of_nat (length (default [] pos)) >? 0
      then reply_loop fuel w number tid status ext_name bundle reason index bundle_len pos
      else Ok (0, w)
  end.

Definition ela_reply_friend_invite w (to bundle : option string) (status : Z)
    (reason : option string) (data : option (list byte)) : Res (Z * ElaCarrier dht) :=
  let len := Z.of_nat (length (default [] data)) in
  if bad_bundle bundle then fails (ELA_GENERAL_ERROR ELAERR_INVALID_ARGS) w
  else if negb (status =? 0)
          && (negb (bool_decide (is_Some reason))
              || (strlen (or_empty reason) >? ELA_MAX_INVITE_REPLY_REASON_LEN)
              || bool_decide (is_Some data) || (len >? 0))
  then fails (ELA_GENERAL_ERROR ELAERR_INVALID_ARGS) w
  else if (status =? 0)
          && (bool_decide (is_Some reason) || negb (bool_decide (is_Some data)) || (len =? 0)
              || (len >? ELA_MAX_INVITE_DATA_LEN))
  then fails (ELA_GENERAL_ERROR ELAERR_INVALID_ARGS) w
  else
    peer ← check_peer w to;
    match peer with
    | inl code => fails code w
    | inr (number, ext_name) =>
        tid ← transaction_history_get_invite (or_empty to) w;
        if tid =? 0 then fails (ELA_GENERAL_ERROR ELAERR_NO_MATCHED_REQUEST) w
        else
          '(rc, w) ← reply_loop (S (length (default [] data))) w number tid status ext_name bundle
                       reason 0 (strlen (or_empty bundle)) data;
          if rc <? 0 then Ok (rc, w)
          else
            w ← transaction_history_remove_invite (or_empty to) w;
            Ok (0, w)
    end.

(** ** Receiving *)

(** The checks on a fragment against the assembly it belongs to. *)
Definition same_sender (ta : TransactedAssembly) (name : option string) (friendid : string) : bool :=
  match name with Some name => str_eqb (ta_ext ta) name | None => true end
  && str_eqb (ta_friendid ta) friendid.

Definition fits (ta : TransactedAssembly) (len : Z) : bool :=
  negb (u64 (ta_data_off ta + len) <? len) && negb (u64 (ta_data_off ta + len) >? ta_data_len ta).

(** [memcpy(ta->data + ta->data_off, data, len); ta->data_off += len;] *)
Definition append_fragment (ta : TransactedAssembly) (data : list byte) : Res TransactedAssembly :=
  if ta_data_off ta + Z.of_nat (length data) <=? Z.of_nat (length (ta_data ta))
  then Ok { ta with ta_data := splice (Z.to_nat (ta_data_off ta)) data (ta_data ta);
                    ta_data_off := u64 (ta_data_off ta + Z.of_nat (length data)) }
  else Fault BufferOverflow.

(** The callback of a completed invitation: the session extension's for the name
    "session", the application's without a name, none for other names. *)
Definition invite_callback (friendid : string) (name : option string) (ta : TransactedAssembly) w :
    ElaCarrier dht :=
  match name with
  | Some name =>
      emit_if (str_eqb name "session" && cb_session_invite (callbacks w))
        (EvFriendInvite true friendid (ta_bundle ta) (ta_data ta) (ta_data_len ta)) w
  | None =>
      emit_if (cb_friend_invite (callbacks w))
        (EvFriendInvite false friendid (ta_bundle ta) (ta_data ta) (ta_data_len ta)) w
  end.

(** The assembly found for the transaction, or a new one with room for [totalsz]
    bytes that is not in the table yet. *)
Definition get_assembly (found : option TransactedAssembly) (now : Z) (friendid : string)
    (name : option string) (tid : Z) (bundle reason : option string) (totalsz : Z) :
    Res (TransactedAssembly * bool) :=
  match found with
  | Some ta => Ok (ta, false)
  | None =>
      ext ← strcpy (ELA_MAX_EXTENSION_NAME_LEN + 1) (or_empty name);
      fid ← strcpy (ELA_MAX_ID_LEN + 1) friendid;
      Ok ({| ta_ext := ext; ta_friendid := fid; ta_tid := tid; ta_bundle := bundle;
             ta_reason := reason; ta_data := zeroed totalsz; ta_data_len := totalsz;
             ta_data_off := 0; ta_expire_time := after now TASSEMBLY_TIMEOUT |}, true)
  end.

(** A completed assembly leaves the table, unless it was never put there. *)
Definition remove_ireq (need_add : bool) (tid : Z) w : ElaCarrier dht :=
  if need_add then w else { w with tassembly_ireqs ::= ht_remove tid }.
Definition remove_irsp (need_add : bool) (tid : Z) w : ElaCarrier dht :=
  if need_add then w else { w with tassembly_irsps ::= ht_remove tid }.

Definition handle_invite_request (now : Z) w (number : Z) (cp : ElaCP) : Res (ElaCarrier dht) :=
  c_assert (negb (number =? UINT32_MAX));;
  c_assert (elacp_get_type cp =? ELACP_TYPE_INVITE_REQUEST);;
  fi ← friends_get w number;
  match fi with
  | None => Ok w
  | Some fi =>
      friendid ← strcpy (ELA_MAX_ID_LEN + 1) (userid (user_info (info fi)));
      bundle ← elacp_get_bundle cp;
      let name := elacp_get_extension cp in
      data ← elacp_get_raw_data cp;
      len ← elacp_get_raw_data_length cp;
      tid ← elacp_get_tid cp;
      totalsz ← elacp_get_totalsz cp;
      let found := ht_get (tassembly_ireqs w) tid in
      if negb (bool_decide (is_Some found))
         && ((totalsz =? 0) || (totalsz >? ELA_MAX_INVITE_DATA_LEN))
      then Ok w
      else
        '(ireq, need_add) ← get_assembly found now friendid name tid bundle None totalsz;
        if negb (same_sender ireq name friendid) || (len =? 0) || (len >? INVITE_DATA_UNIT)
           || negb (fits ireq len)
        then Ok w
        else
          bytes ← deref data;
          ireq ← append_fragment ireq bytes;
          if ta_data_off ireq =? ta_data_len ireq then
            from ← strcpy KEY_SIZE (match name with
                                    | Some name => friendid +:+ ":" +:+ name
                                    | None => friendid end);
            w ← transaction_history_put_invite from tid w;
            let w := invite_callback friendid name ireq w in
            Ok (remove_ireq need_add tid w)
          else Ok { w with tassembly_ireqs ::= ht_put tid ireq }
  end.

(** What a response carries: a reason, whose length is taken, or data. *)
Definition response_payload (cp : ElaCP) (status : Z) :
    Res (option string * option (list byte) * Z) :=
  if negb (status =? 0) then
    reason ← elacp_get_reason cp;
    reason ← deref reason;
    Ok (Some reason, None, 0)
  else
    data ← elacp_get_raw_data cp;
    data_len ← elacp_get_raw_data_length cp;
    Ok (None, data, data_len).

Definition handle_invite_response (now : Z) w (number : Z) (cp : ElaCP) : Res (ElaCarrier dht) :=
  c_assert (negb (number =? UINT32_MAX));;
  c_assert (elacp_get_type cp =? ELACP_TYPE_INVITE_RESPONSE);;
  fi ← friends_get w number;
  match fi with
  | None => Ok w
  | Some fi =>
      friendid ← strcpy (ELA_MAX_ID_LEN + 1) (userid (user_info (info fi)));
      tid ← elacp_get_tid cp;
      match ht_get (tcallbacks w) tid with
      | None => Ok w
      | Some tcb =>
          bundle ← elacp_get_bundle cp;
          let name := elacp_get_extension cp in
          totalsz ← elacp_get_totalsz cp;
          status ← elacp_get_status cp;
          '(reason, data, data_len) ← response_payload cp status;
          let found := ht_get (tassembly_irsps w) tid in
          if negb (bool_decide (is_Some found)) && (totalsz >? ELA_MAX_INVITE_DATA_LEN) then Ok w
          else
            '(irsp, need_add) ← get_assembly found now friendid name tid bundle reason totalsz;
            if negb (same_sender irsp name friendid) || (data_len >? INVITE_DATA_UNIT)
               || negb (fits irsp data_len)
            then Ok w
            else
              irsp ← (match data with Some bytes => append_fragment irsp bytes | None => Ok irsp end);
              if ta_data_off irsp =? ta_data_len irsp then
                let w := transacted_callbacks_remove tid w in
                let w := emit (EvInviteResponse (tcb_callback_func tcb) (tcb_callback_context tcb)
                           friendid (ta_bundle irsp) status reason (ta_data irsp) (ta_data_len irsp)) w in
                Ok (remove_irsp need_add tid w)
              else Ok { w with tassembly_irsps ::= ht_put tid irsp }
      end
  end.

(** A message of the DHT, by the type of its packet. *)
Definition notify_friend_message_cb (now : Z) w (number : Z) (message : buffer) :
    Res (ElaCarrier dht) :=
  cp ← elacp_decode message;
  match cp with
  | None => Ok w
  | Some cp =>
      match body cp with
      | FriendMsg _ => handle_friend_message w number cp
      | InviteReq _ => handle_invite_request now w number cp
      | InviteRsp _ => handle_invite_response now w number cp
      | UserInfo _ | FriendReq _ => Ok w
      end
  end.

(** ** Expiry *)

Fixpoint expire_assemblies (now : Z) (l : list (Z * TransactedAssembly))
    (t : hashtable Z TransactedAssembly) : hashtable Z TransactedAssembly :=
  match l with
  | [] => t
  | (tid, item) :: l =>
      expire_assemblies now l (if now >? ta_expire_time item then ht_remove tid t else t)
  end.

Definition do_tassemblies_expire (now : Z) (t : hashtable Z TransactedAssembly) :
    hashtable Z TransactedAssembly := expire_assemblies now (ht_items t) t.

Definition transacted_callback_expire (callback : TransactedCallback) w : Res (ElaCarrier dht) :=
  fi ← friends_get w (tcb_friend_number callback);
  match fi with
  | None => Ok w
  | Some fi =>
      friendid ← strcpy (ELA_MAX_ID_LEN + 1) (userid (user_info (info fi)));
      Ok (emit (EvInviteResponse (tcb_callback_func callback) (tcb_callback_context callback)
            friendid (tcb_bundle callback) ELA_STATUS_TIMEOUT (Some "timeout") [] 0) w)
  end.

Fixpoint check_callbacks (now : Z) (l : list (Z * TransactedCallback)) w : Res (ElaCarrier dht) :=
  match l with
  | [] => Ok w
  | (tid, tcb) :: l =>
      w ← (if now >? tcb_expire_time tcb
           then transacted_callback_expire tcb { w with tcallbacks ::= ht_remove tid }
           else Ok w);
      check_callbacks now l w
  end.

Definition do_transacted_callabcks_check (now : Z) w : Res (ElaCarrier dht) :=
  check_callbacks now (ht_items (tcallbacks w)) w.
End Invite.
