(* ===== verification/Persistence.v ===== *)
(** * The data file of the node (src/carrier/ela_carrier.c)

    The image that [store_persistence_data] writes - a header of 256 bytes with the
    lengths and a digest, the DHT's state and the friends' labels, each padded -
    its reading by [load_persistence_data], the replacement through a journal file
    and the conversion of the older pair of files.

    The files are a map from names to contents; every single operation on it is
    atomic, and a run of the code is the sequence of states it goes through, which
    is where a crash can leave it.  Parameters: the digest ([sha256] of libsodium),
    the DHT's state, the outcome of the file operations.  The data directory
    exists; access rights are not modelled. *)

From Stdlib Require Import Ascii Strings.Byte.
From S2P Require Import Prelude ElaError ElaCP Carrier Invite.

Definition PERSISTENCE_MAGIC : Z := 0x0E0C0D0A.
Definition PERSISTENCE_REVISION : Z := 2.
Definition MAX_PERSISTENCE_SECTION_SIZE : Z := 16 * 1024 * 1024.
Definition SHA256_BYTES : Z := 32.
Definition PUBLIC_KEY_BYTES : Z := 32.

Definition ROUND256 (s : Z) : Z := Z.shiftl (Z.shiftr (s + 64) 8 + 1) 8.

Definition data_filename : string := "carrier.data".
Definition journal_filename : string := "carrier.data.journal".
Definition old_dhtdata_filename : string := "dhtdata".
Definition old_eladata_filename : string := "eladata".

(** The file a section of the savedata is in, from its first byte to the end of
    the buffer, and the length the header gives. *)
Record persistence_data := {
  dht_savedata_len : Z; dht_savedata : list byte;
  extra_savedata_len : Z; extra_savedata : list byte
}.

Abbreviation files := (gmap string (list byte)).

(** [memcpy(buf + off, src, len(src))] *)
Definition copy_in (buf : list byte) (off : Z) (src : list byte) : Res (list byte) :=
  if off + Z.of_nat (length src) <=? Z.of_nat (length buf)
  then Ok (splice (Z.to_nat off) src buf) else Fault BufferOverflow.

(** [tox_get_savedata] *)
Class DhtSave (dht : Type) := { dht_get_savedata : dht -> list byte }.
(** [sha256(data, len, digest, sizeof(digest))] *)
Class Sha256 := { sha256 : list byte -> list byte; sha256_length bs : length (sha256 bs) = 32%nat }.

Section Persistence.
Context `{!HashTables, !Sha256} {dht : Type} `{!DhtSave dht}.
Implicit Types w : ElaCarrier dht.

(** ** Labels *)

Definition label_len (fi : FriendInfo) : Z := strlen (label (info fi)).

(** The number and the label of one friend. *)
Definition label_entry (fi : FriendInfo) : list byte :=
  be_bytes 4 (friend_number fi) ++ c_bytes (label (info fi)).

Definition get_extra_savedata_size w : Z :=
  foldl (fun total fi => if label_len fi =? 0 then total else total + (4 + label_len fi + 1)) 0
    (ht_items (friends w)).*2.

(** The entries written at [pos], up to the first that does not fit [len]. *)
Fixpoint extra_entries (l : list FriendInfo) (len : Z) : list byte :=
  match l with
  | [] => []
  | fi :: l =>
      if len >? 0 then
        if label_len fi =? 0 then extra_entries l len
        else if len <? 4 + label_len fi + 1 then []
        else label_entry fi ++ extra_entries l (len - (4 + label_len fi + 1))
      else []
  end.

Definition get_extra_savedata w (len : Z) : list byte :=
  extra_entries (ht_items (friends w)).*2 len.

(** [pos] runs to the end of the buffer; reading on past it is a fault. *)
Fixpoint apply_entries (fuel : nat) w (pos : list byte) (extra_savedata_len : Z) :
    Res (ElaCarrier dht) :=
  match fuel with
  | O => Fault Diverges
  | S fuel =>
      if extra_savedata_len >? 0 then
        if Z.of_nat (length pos) <? 4 then Fault BufferOverflow
        else
          let number := be_read (take 4 pos) in
          match c_string (drop 4 pos) with
          | None => Fault BufferOverflow
          | Some (lb, pos) =>
              if strlen lb =? 0 then Ok w
              else
                fi ← friends_get w number;
                w ← match fi with
                    | Some fi => lb ← strcpy (ELA_MAX_USER_NAME_LEN + 1) lb;
                                 Ok (friends_put { fi with info := { info fi with label := lb } } w)
                    | None => Ok w
                    end;
                apply_entries fuel w pos (u64 (extra_savedata_len - (4 + strlen lb + 1)))
          end
      else Ok w
  end.

(** Every entry takes at least five bytes of [extra_savedata]. *)
Definition apply_extra_data w (extra_savedata : list byte) (extra_savedata_len : Z) :
    Res (ElaCarrier dht) :=
  apply_entries (S (length extra_savedata)) w extra_savedata extra_savedata_len.

(** ** The image *)

(** The header fields and the digest into a buffer that has the sections. *)
Definition seal_image (buf : list byte) (dht_data_len extra_data_len total_len : Z) :
    Res (list byte) :=
  buf ← copy_in buf 0 (be_bytes 4 PERSISTENCE_MAGIC);
  buf ← copy_in buf 4 (be_bytes 4 PERSISTENCE_REVISION);
  buf ← copy_in buf 8 (be_bytes 4 (u32 dht_data_len));
  buf ← copy_in buf 12 (be_bytes 4 (u32 extra_data_len));
  copy_in buf 16 (sha256 (take (Z.to_nat (total_len - 256)) (drop 256 buf))).

(** The buffer of [store_persistence_data] before it is written. *)
Definition store_image w : Res (list byte) :=
  let dht_data := dht_get_savedata (dht_state w) in
  let dht_data_len := Z.of_nat (length dht_data) in
  let extra_data_len := get_extra_savedata_size w in
  let total_len := 256 + ROUND256 dht_data_len + ROUND256 extra_data_len in
  let buf := zeroed total_len in
  buf ← copy_in buf 256 dht_data;
  buf ← copy_in buf (256 + ROUND256 dht_data_len) (get_extra_savedata w (ROUND256 extra_data_len));
  seal_image buf dht_data_len extra_data_len total_len.

(** The content of the file, [None] when it is refused. *)
Definition _load_persistence_data_i (content : list byte) : option persistence_data :=
  let st_size := Z.of_nat (length content) in
  if st_size <? 256 then None
  else if negb (be_read (take 4 content) =? PERSISTENCE_MAGIC) then None
  else if negb (be_read (take 4 (drop 4 content)) =? PERSISTENCE_REVISION) then None
  else
    let dht_data_len := be_read (take 4 (drop 8 content)) in
    if dht_data_len >? MAX_PERSISTENCE_SECTION_SIZE then None
    else
      let extra_data_len := be_read (take 4 (drop 12 content)) in
      if extra_data_len >? MAX_PERSISTENCE_SECTION_SIZE then None
      else if negb (st_size =? 256 + ROUND256 dht_data_len + ROUND256 extra_data_len) then None
      else
        let p_sum := take 32 (drop 16 content) in
        let buf := drop 256 content in
        if negb (bool_decide (p_sum = sha256 buf)) then None
        else Some {| dht_savedata_len := dht_data_len; dht_savedata := buf;
                     extra_savedata_len := extra_data_len;
                     extra_savedata := drop (Z.to_nat (ROUND256 dht_data_len)) buf |}.

(** ** Replacing the file *)

(** The outcome of the file operations of one store: whether the journal opens, how
    many bytes [write] takes, whether [fsync] succeeds. *)
Record file_io := { io_open : bool; io_written : nat; io_fsync : bool }.

(** The states after each [remove] of a sequence. *)
Fixpoint remove_files (names : list string) (fs : files) : list files :=
  match names with
  | [] => []
  | name :: names => delete name fs :: remove_files names (delete name fs)
  end.

(** The states of the files while [image] replaces the data file, the last one
    included, and whether the call succeeds.  [write] may be cut anywhere.
    [removed] are the older files that go with the data file. *)
Definition replace_file (io : file_io) (image : list byte) (removed : list string) (fs : files) :
    bool * list files :=
  if negb (io_open io) then (false, [fs])
  else
    let n := Nat.min (io_written io) (length image) in
    let writing := (fun k => <[journal_filename := take k image]> fs) <$> seq 0 (S n) in
    let written := <[journal_filename := take n image]> fs in
    if negb (Nat.eqb n (length image)) || negb (io_fsync io)
    then (false, fs :: writing ++ [delete journal_filename written])
    else
      let removals := remove_files (removed ++ [data_filename]) written in
      let renamed := <[data_filename := image]> (delete journal_filename (default written (last removals))) in
      (true, fs :: writing ++ removals ++ [renamed]).

(** ** Conversion of the older files *)

(** The entries of the old file, number in host order and label, rewritten in place:
    entries without a label are dropped.  The written bytes and what was not read. *)
Fixpoint convert_entries (count : nat) (rptr : list byte) : Res (list byte * list byte) :=
  match count with
  | O => Ok ([], rptr)
  | S count =>
      if Z.of_nat (length rptr) <? 4 then Fault BufferOverflow
      else
        let id := le_combine (take 4 rptr) in
        match c_string (drop 4 rptr) with
        | None => Fault BufferOverflow
        | Some (lb, rest) =>
            '(out, rest) ← convert_entries count rest;
            Ok (if strlen lb =? 0 then out else be_bytes 4 id ++ c_bytes lb ++ out, rest)
        end
  end.

(** The section at [pos] of [buf] rewritten, what was read and not written set to
    zero, with its new length. *)
Definition convert_section (buf : list byte) (pos val : Z) : Res (list byte * Z) :=
  '(out, rest) ← convert_entries (Z.to_nat val) (drop (Z.to_nat pos) buf);
  let read := Z.of_nat (length buf) - pos - Z.of_nat (length rest) in
  buf ← copy_in buf pos (out ++ zeroed (read - Z.of_nat (length out)));
  Ok (buf, Z.of_nat (length out)).

(** The image for the contents of the two old files; the second may be missing or
    too short.  When the counted entries do not fill the section, what the code
    leaves behind the written ones is kept. *)
Definition convert_image (dhtdata : list byte) (eladata : option (list byte)) : Res (list byte) :=
  let dht_data_len := Z.of_nat (length dhtdata) in
  let ela := default [] eladata in
  let extra_data_len :=
    if Z.of_nat (length ela) <? PUBLIC_KEY_BYTES + 4 then 0
    else Z.of_nat (length ela) - PUBLIC_KEY_BYTES - 4 in
  let buf := zeroed (256 + ROUND256 dht_data_len + ROUND256 extra_data_len) in
  buf ← copy_in buf 256 dhtdata;
  let pos := 256 + ROUND256 dht_data_len in
  '(buf, extra_data_len) ←
    (if extra_data_len =? 0 then Ok (buf, 0)
     else
       let val := le_combine (take 4 (drop 32 ela)) in
       if val >? 0 then
         buf ← copy_in buf pos (drop 36 ela); convert_section buf pos val
       else Ok (buf, extra_data_len));
  let total_len := 256 + ROUND256 dht_data_len + ROUND256 extra_data_len in
  buf ← seal_image buf dht_data_len extra_data_len total_len;
  Ok (take (Z.to_nat total_len) buf).

Definition old_filenames : list string := [old_dhtdata_filename; old_eladata_filename].

(** Whether it succeeds, with the states the files go through; [io] as for a store,
    the reads of the old files succeed. *)
Definition convert_old_dhtdata (io : file_io) (fs : files) : Res (bool * list files) :=
  match fs !! old_dhtdata_filename with
  | None => Ok (false, [fs])
  | Some dhtdata =>
      image ← convert_image dhtdata (fs !! old_eladata_filename);
      Ok (replace_file io image old_filenames fs)
  end.

(** ** Loading *)

(** A load that succeeds from the journal makes it the data file. *)
Definition load_journal (fs : files) : option (persistence_data * files) :=
  content ← fs !! journal_filename;
  data ← _load_persistence_data_i content;
  Some (data, <[data_filename := content]> (delete journal_filename fs)).

Definition load_data_file (fs : files) : option persistence_data :=
  content ← fs !! data_filename; _load_persistence_data_i content.

Definition load_persistence_data (io : file_io) (fs : files) :
    Res (option persistence_data * files) :=
  match load_journal fs with
  | Some (data, fs) => Ok (Some data, fs)
  | None =>
      if bool_decide (is_Some (fs !! data_filename)) then Ok (load_data_file fs, fs)
      else
        match fs !! old_dhtdata_filename with
        | None => Ok (None, fs)
        | Some _ =>
            '(converted, states) ← convert_old_dhtdata io fs;
            let fs := default fs (last states) in
            Ok (if converted : bool then load_data_file fs else None, fs)
        end
  end.

(** [store_persistence_data]: the states the files go through. *)
Definition store_files (io : file_io) w (fs : files) : Res (bool * list files) :=
  image ← store_image w; Ok (replace_file io image [] fs).
End Persistence.
