(* ===== verification/InviteProps.v ===== *)
(** * Properties of friend invitations

    The fragmentation of an invitation and of a reply, their reassembly, the round
    trip between two nodes; memory safety of the handlers against any packet;
    separation of transactions; the life of a transaction. *)

From S2P Require Import Prelude ElaError ElaCP Carrier Sample Invite.

(** ** Chunks *)

(** How data is cut: a first chunk of at most [room] bytes, further ones of at
    most a unit, none empty. *)
Inductive chunking : Z -> list byte -> list (list byte) -> Prop :=
| chunking_nil room : chunking room [] []
| chunking_cons room c rest cs :
    0 < Z.of_nat (length c) <= room -> chunking INVITE_DATA_UNIT rest cs ->
    chunking room (c ++ rest) (c :: cs).

Lemma chunking_concat room data cs : chunking room data cs -> concat cs = data.
Proof. induction 1; cbn; congruence. Qed.

(** A request fragment, and the packets of a chunked invitation: the first one
    announces the total size and carries the bundle. *)
Definition request (tid : Z) (ext_name bundle : option string) (totalsz : Z) (c : list byte) : ElaCP :=
  {| ext := ext_name; body := InviteReq
       {| iq_tid := tid; iq_bundle := bundle; iq_totalsz := totalsz; iq_data := Some c |} |}.

Definition requests (tid : Z) (ext_name bundle : option string) (totalsz : Z)
    (cs : list (list byte)) : list ElaCP :=
  match cs with
  | [] => []
  | c :: cs => request tid ext_name bundle totalsz c :: (request tid ext_name None 0 <$> cs)
  end.

Definition response (tid status : Z) (ext_name bundle reason : option string) (totalsz : Z)
    (c : option (list byte)) : ElaCP :=
  {| ext := ext_name; body := InviteRsp
       {| is_tid := tid; is_bundle := bundle; is_totalsz := totalsz; is_status := status;
          is_reason := reason; is_data := c |} |}.

Definition responses (tid : Z) (ext_name bundle : option string) (totalsz : Z)
    (cs : list (list byte)) : list ElaCP :=
  match cs with
  | [] => []
  | c :: cs => response tid 0 ext_name bundle None totalsz (Some c) ::
               ((fun c => response tid 0 ext_name None None 0 (Some c)) <$> cs)
  end.

(** The new transaction of the inviter. *)
Definition invite_tcb (tid uninit callback context : Z) (bundle : option string) :=
  {| tcb_tid := tid; tcb_friend_number := uninit; tcb_callback_func := callback;
     tcb_callback_context := context; tcb_expire_time := 0; tcb_bundle := bundle |}.

Section Sender.
Context `{!HashTables} {L : HashTablesLaws _} `{!Base58} {dht buffer : Type}
  `{!Dht dht buffer, !FlatBuffers buffer}.
Implicit Types w wr : ElaCarrier dht.

(** Handing packets to the DHT until it refuses one. *)
Fixpoint send_packets (d : dht) (number : Z) (l : list buffer) : Z * dht :=
  match l with
  | [] => (0, d)
  | p :: l => let '(rc, d) := dht_friend_message d number p in
              if rc <? 0 then (rc, d) else send_packets d number l
  end.

(** The encodings of packets, all of which encode. *)
Fixpoint encode_all (cps : list ElaCP) : Res (list buffer) :=
  match cps with
  | [] => Ok []
  | cp :: cps => p ← elacp_encode cp; ps ← encode_all cps; Ok (p :: ps)
  end.

Lemma encode_request_Ok tid e b t c : exists p : buffer, elacp_encode (request tid e b t c) = Ok p.
Proof. unfold elacp_encode, encode_body; cbn. destruct e, b; by eexists. Qed.

Lemma encode_response_Ok tid st e b r t c :
  exists p : buffer, elacp_encode (response tid st e b r t c) = Ok p.
Proof. unfold elacp_encode, encode_body; cbn. destruct e, b, (negb (st =? 0)), r; by eexists. Qed.

Lemma invite_fragment_spec tid e bundle index blen pos :
  pos <> [] -> 0 <= blen < INVITE_DATA_UNIT -> (bundle = None -> blen = 0) ->
  let n := invite_send_len bundle blen (Z.of_nat (length pos)) in
  invite_fragment tid e bundle index blen pos =
    Ok (request tid e (if index =? 1 then bundle else None)
          (if index =? 1 then Z.of_nat (length pos) else 0) (take (Z.to_nat n) pos),
        drop (Z.to_nat n) pos, if (index =? 1) then 0 else blen) /\
  0 < n <= INVITE_DATA_UNIT - blen /\ n <= Z.of_nat (length pos).
Proof.
  intros Hpos Hb Hnone n.
  assert (0 < Z.of_nat (length pos)) as Hlen by (destruct pos; [done|cbn [length]; lia]).
  assert (0 < n <= INVITE_DATA_UNIT - blen /\ n <= Z.of_nat (length pos)) as Hn.
  { subst n. unfold invite_send_len, INVITE_DATA_UNIT in *. destruct bundle.
    - destruct (Z.leb_spec (Z.of_nat (length pos) + blen) 1280); lia.
    - rewrite Z.gtb_ltb. destruct (Z.ltb_spec 1280 (Z.of_nat (length pos))); specialize (Hnone eq_refl); lia. }
  split; [|done]. unfold invite_fragment. rewrite Z.gtb_ltb, (proj2 (Z.ltb_lt _ _)) by done.
  fold n. destruct (take (Z.to_nat n) pos) as [|x xs] eqn:Ht.
  { apply (f_equal length) in Ht. rewrite length_take in Ht. cbn in Ht. lia. }
  destruct bundle as [b|]; [|specialize (Hnone eq_refl); subst blen];
    destruct (index =? 1); cbn; done.
Qed.

(** The outcome of handing an invitation's packets to the DHT: all taken, and the
    transaction registered; or the DHT's error, and no trace of the transaction. *)
Definition invite_sent w w' (now : Z) (tcb : TransactedCallback) (d : dht) : Prop :=
  w' = { transacted_callbacks_put now tcb w with dht_state := d }.

Definition invite_failed w w' (rc : Z) (d : dht) : Prop :=
  exists t, w' = { w with dht_state := d; tcallbacks := t; last_error := i32 rc } /\
    forall k, ht_get t k = ht_get (tcallbacks w) k.

Definition invite_outcome w (number now : Z) (tcb : TransactedCallback) (packets : list buffer)
    (r : Res (Z * ElaCarrier dht)) : Prop :=
  let '(rc, d) := send_packets (dht_state w) number packets in
  if rc <? 0 then exists w', r = Ok (-1, w') /\ invite_failed w w' rc d
  else exists w', r = Ok (0, w') /\ invite_sent w w' now tcb d.

Lemma invite_outcome_step w number now tcb p packets d rc r :
  dht_friend_message (dht_state w) number p = (rc, d) -> 0 <= rc ->
  invite_outcome { w with dht_state := d } number now tcb packets r ->
  invite_outcome w number now tcb (p :: packets) r.
Proof.
  intros Hsend Hrc. unfold invite_outcome. cbn [send_packets]. rewrite Hsend.
  rewrite (proj2 (Z.ltb_ge _ _)) by done. cbn [dht_state tset set gafu_getter gafu_field_updater
    RecordSettersUsingExistingGetters.const].
  destruct (send_packets d number packets) as [rc' d']. destruct (rc' <? 0).
  - intros (w' & -> & t & -> & Ht). eexists; split; [done|]. exists t. by split.
  - intros (w' & -> & ->). eexists; split; [done|]. by destruct w.
Qed.

(** The last packet, with the transaction registered just before it is sent. *)
Lemma invite_outcome_last w number now tcb p :
  ht_get (tcallbacks w) (tcb_tid tcb) = None ->
  invite_outcome w number now tcb [p]
    (let '(rc, d) := dht_friend_message (dht_state w) number p in
     let w' := { transacted_callbacks_put now tcb w with dht_state := d } in
     if rc <? 0 then fails rc (transacted_callbacks_remove (tcb_tid tcb) w') else Ok (0, w')).
Proof.
  intros Hfresh. unfold invite_outcome. cbn [send_packets].
  destruct (dht_friend_message (dht_state w) number p) as [rc d].
  destruct (rc <? 0) eqn:Hrc; rewrite ?Hrc; (eexists; split; [reflexivity|]); [|done].
  exists (ht_remove (tcb_tid tcb) (tcallbacks (transacted_callbacks_put now tcb w))).
  split; [by destruct w|]. intros k. cbn [transacted_callbacks_put tcallbacks tset set
    gafu_getter gafu_field_updater]. rewrite ht_get_remove.
  case_decide as E; [by rewrite <- E, Hfresh|]. by rewrite ht_get_put_ne.
Qed.

(** A refusal before the last packet. *)
Lemma invite_outcome_refused w number now tcb p packets rc d :
  dht_friend_message (dht_state w) number p = (rc, d) -> rc < 0 ->
  invite_outcome w number now tcb (p :: packets) (fails rc { w with dht_state := d }).
Proof.
  intros Hsend Hrc. unfold invite_outcome. cbn [send_packets]. rewrite Hsend.
  rewrite !(proj2 (Z.ltb_lt _ _) Hrc). eexists; split; [reflexivity|].
  exists (tcallbacks w). split; [by destruct w|done].
Qed.

Lemma invite_loop_spec fuel w number tid e bundle cb ctx uninit now index blen pos :
  pos <> [] -> 0 <= blen < INVITE_DATA_UNIT -> (bundle = None -> blen = 0) -> 0 <= index ->
  (length pos < fuel)%nat -> (1 <= index -> blen = 0) -> ht_get (tcallbacks w) tid = None ->
  exists cs packets, chunking (INVITE_DATA_UNIT - blen) pos cs /\
    encode_all (if index =? 0 then requests tid e bundle (Z.of_nat (length pos)) cs
                else request tid e None 0 <$> cs) = Ok packets /\
    invite_outcome w number now (invite_tcb tid uninit cb ctx bundle) packets
      (invite_loop fuel w number tid e bundle cb ctx uninit now index blen pos).
Proof.
  induction fuel as [|fuel IH] in w, index, blen, pos |- *; intros Hpos Hb Hnone Hi Hfuel Hbi Hfresh;
    [lia|]. cbn [invite_loop].
  destruct (invite_fragment_spec tid e bundle (index + 1) blen pos Hpos Hb Hnone)
    as (-> & Hn & Hnl). cbn [mbind Res_bind].
  set (n := invite_send_len bundle blen (Z.of_nat (length pos))) in *.
  set (c := take (Z.to_nat n) pos). set (rest := drop (Z.to_nat n) pos).
  assert (Z.of_nat (length c) = n) as Hc by (subst c; rewrite length_take; lia).
  assert (pos = c ++ rest) as Hpr by (symmetry; apply take_drop).
  assert ((index + 1 =? 1) = (index =? 0)) as ->
    by (destruct (Z.eqb_spec (index + 1) 1), (Z.eqb_spec index 0); done || lia).
  destruct (encode_request_Ok tid e (if index =? 0 then bundle else None)
    (if index =? 0 then Z.of_nat (length pos) else 0) c) as [p Hp].
  rewrite Hp. cbn [mbind Res_bind].
  assert (forall cs packets, chunking INVITE_DATA_UNIT rest cs ->
    encode_all (request tid e None 0 <$> cs) = Ok packets ->
    chunking (INVITE_DATA_UNIT - blen) pos (c :: cs) /\
    encode_all (if index =? 0 then requests tid e bundle (Z.of_nat (length pos)) (c :: cs)
                else request tid e None 0 <$> (c :: cs)) = Ok (p :: packets)) as Hcons.
  { intros cs packets Hcs Henc. split; [rewrite Hpr; constructor; [lia|done]|].
    destruct (index =? 0); cbn [requests encode_all fmap list_fmap]; rewrite Hp;
      cbn [mbind Res_bind]; by rewrite Henc. }
  fold (invite_tcb tid uninit cb ctx bundle).
  destruct (Z.eqb_spec (Z.of_nat (length rest)) 0) as [Hr0|Hr0].
  - assert (rest = []) as Hre by (destruct rest; [done|cbn in Hr0; lia]).
    destruct (Hcons [] []) as [Hch Henc]; [rewrite Hre; constructor|done|].
    exists [c], [p]. split_and!; [done|done|]. rewrite Hr0.
    exact (invite_outcome_last w number now (invite_tcb tid uninit cb ctx bundle) p Hfresh).
  - destruct (dht_friend_message (dht_state w) number p) as [rc d] eqn:Hsend.
    assert (blen = 0 \/ index = 0) as Hor by (destruct (Z.eq_dec index 0); [by right|left; lia]).
    destruct (IH { w with dht_state := d } (index + 1) (if index =? 0 then 0 else blen) rest)
      as (cs & packets & Hcs & Henc & Hout); try done; try lia.
    { by destruct rest. }
    { destruct (index =? 0); unfold INVITE_DATA_UNIT in *; lia. }
    { intros E. destruct (index =? 0); auto. }
    { subst rest. rewrite length_drop. lia. }
    { intros _. destruct (Z.eqb_spec index 0); lia. }
    rewrite (proj2 (Z.eqb_neq (index + 1) 0)) in Henc by lia.
    assert ((if index =? 0 then 0 else blen) = 0) as Hbl by (destruct (Z.eqb_spec index 0); lia).
    rewrite Hbl, Z.sub_0_r in Hcs. destruct (Hcons _ _ Hcs Henc) as [Hch Henc'].
    exists (c :: cs), (p :: packets). split_and!; [done|done|].
    destruct (Z.ltb_spec rc 0) as [Hrc|Hrc]; [by apply invite_outcome_refused|].
    rewrite Z.gtb_ltb, (proj2 (Z.ltb_lt _ _)) by lia. by eapply invite_outcome_step.
Qed.
End Sender.

(** ** Reassembly of an invitation *)

Section Receiver.
Context `{!HashTables} {L : HashTablesLaws _} `{!Base58} {dht buffer : Type}
  `{!Dht dht buffer, !FlatBuffers buffer} {FL : FlatBuffersLaws buffer}.
Implicit Types w wr : ElaCarrier dht.

(** A node [w] knows friend [number] under the identifier [u]; identifiers of
    44 characters are the longest that 32 bytes have. *)
Definition knows w (number : Z) (u : string) : Prop :=
  number <> UINT32_MAX /\ strlen u <= 44 /\
  exists fi, ht_get (friends w) number = Some fi /\ userid (user_info (info fi)) = u.

Definition ext_ok (e : option string) : Prop := strlen (or_empty e) <= ELA_MAX_EXTENSION_NAME_LEN.

Lemma friends_get_knows w number u :
  knows w number u -> exists fi, friends_get w number = Ok (Some fi) /\ userid (user_info (info fi)) = u.
Proof.
  intros (Hn & _ & fi & Hfi & Hu). exists fi. unfold friends_get.
  rewrite (proj2 (Z.eqb_neq _ _)) by done. cbn. by rewrite Hfi.
Qed.

(** An assembly of [total] bytes that starts with [pre]. *)
Definition assembled (ta : TransactedAssembly) (u : string) (e bundle : option string)
    (tid total : Z) (pre : list byte) : Prop :=
  ta_ext ta = or_empty e /\ ta_friendid ta = u /\ ta_tid ta = tid /\ ta_bundle ta = bundle /\
  ta_data_len ta = total /\ ta_data_off ta = Z.of_nat (length pre) /\
  ta_data ta = pre ++ zeroed (total - Z.of_nat (length pre)).

Lemma splice_zeroed pre c total :
  Z.of_nat (length pre) + Z.of_nat (length c) <= total ->
  splice (length pre) c (pre ++ zeroed (total - Z.of_nat (length pre))) =
    (pre ++ c) ++ zeroed (total - Z.of_nat (length (pre ++ c))).
Proof.
  intros Hf. unfold splice. rewrite take_app_length, <- app_assoc. do 2 f_equal.
  rewrite drop_app_ge by lia. unfold zeroed. rewrite drop_replicate, length_app. f_equal. lia.
Qed.

Lemma append_assembled ta u e b tid total pre c :
  assembled ta u e b tid total pre -> Z.of_nat (length pre) + Z.of_nat (length c) <= total ->
  total < 2 ^ 64 ->
  exists ta', append_fragment ta c = Ok ta' /\ assembled ta' u e b tid total (pre ++ c) /\
    ta_expire_time ta' = ta_expire_time ta /\ ta_reason ta' = ta_reason ta.
Proof.
  intros (He & Hu & Ht & Hb & Hl & Ho & Hd) Hfit Hmax. unfold append_fragment.
  rewrite Hd, length_app, length_zeroed, Ho. rewrite (proj2 (Z.leb_le _ _)) by lia.
  eexists; split; [reflexivity|]. split; [|done].
  split_and!; cbn; try done.
  - rewrite u64_small by lia. rewrite length_app. lia.
  - rewrite Nat2Z.id. by apply splice_zeroed.
Qed.

Lemma assembled_fits ta u e b tid total pre n :
  assembled ta u e b tid total pre -> 0 <= n -> Z.of_nat (length pre) + n <= total ->
  total < 2 ^ 64 -> fits ta n = true.
Proof.
  intros (_ & _ & _ & _ & Hl & Ho & _) Hn Hfit Hmax. unfold fits. rewrite Ho, Hl, u64_small by lia.
  rewrite Z.gtb_ltb, (proj2 (Z.ltb_ge _ _)), (proj2 (Z.ltb_ge total _)) by lia. done.
Qed.

Lemma assembled_sender ta u e b tid total pre :
  assembled ta u e b tid total pre -> same_sender ta e u = true.
Proof.
  intros (He & Hu & _). unfold same_sender. rewrite He, Hu, str_eqb_refl, andb_true_r.
  destruct e; [apply str_eqb_refl|done].
Qed.

(** A new assembly. *)
Lemma get_assembly_new now u e tid b r total :
  strlen u <= 44 -> ext_ok e -> 0 <= total ->
  exists ta, get_assembly None now u e tid b r total = Ok (ta, true) /\
    assembled ta u e b tid total [] /\ ta_expire_time ta = after now TASSEMBLY_TIMEOUT /\
    ta_reason ta = r.
Proof.
  intros Hu He Ht. unfold get_assembly, ext_ok, ELA_MAX_EXTENSION_NAME_LEN, ELA_MAX_ID_LEN in *.
  rewrite !strcpy_Ok by lia. cbn [mbind Res_bind]. eexists; split; [reflexivity|].
  split; [|done]. split_and!; try done. cbn. by rewrite Z.sub_0_r.
Qed.

(** The name under which the history remembers an invitation. *)
Definition from_name (u : string) (e : option string) : string :=
  match e with Some e => u +:+ ":" +:+ e | None => u end.

(** What the application is told of a complete invitation. *)
Definition invite_events (cbs : ElaCallbacks) (u : string) (e bundle : option string)
    (data : list byte) : list carrier_event :=
  let n := Z.of_nat (length data) in
  match e with
  | Some e => if str_eqb e "session" && cb_session_invite cbs
              then [EvFriendInvite true u bundle data n] else []
  | None => if cb_friend_invite cbs then [EvFriendInvite false u bundle data n] else []
  end.

(** The node after an invitation is complete, with table [t] of open assemblies. *)
Definition invited w (u : string) (e bundle : option string) (data : list byte) (tid : Z)
    (t : hashtable Z TransactedAssembly) : ElaCarrier dht :=
  { w with thistory ::= ht_put ("ir_" +:+ from_name u e) tid; tassembly_ireqs := t;
           events ::= app (invite_events (callbacks w) u e bundle data) }.

Lemma from_name_length u e : strlen u <= 44 -> ext_ok e -> strlen (from_name u e) <= 76.
Proof.
  unfold ext_ok, ELA_MAX_EXTENSION_NAME_LEN. destruct e as [e|]; cbn; [|lia].
  rewrite !strlen_app. change (strlen ":") with 1. lia.
Qed.

(** One fragment of an open or new assembly. *)
Lemma request_step now w number u e b tid total c ta (need : bool) pre :
  knows w number u -> ext_ok e -> tid <> 0 ->
  0 < Z.of_nat (length c) <= INVITE_DATA_UNIT -> total <= ELA_MAX_INVITE_DATA_LEN ->
  let cp := request tid e b (if need then total else 0) c in
  let found := ht_get (tassembly_ireqs w) tid in
  get_assembly found now u e tid b None (if need then total else 0) = Ok (ta, need) ->
  (need = true <-> found = None) ->
  assembled ta u e (if need then b else ta_bundle ta) tid total pre ->
  Z.of_nat (length pre) + Z.of_nat (length c) <= total ->
  exists ta', assembled ta' u e (ta_bundle ta) tid total (pre ++ c) /\
    handle_invite_request now w number cp =
      Ok (if Z.of_nat (length (pre ++ c)) =? total
          then invited w u e (ta_bundle ta) (pre ++ c) tid
                 (if need then tassembly_ireqs w else ht_remove tid (tassembly_ireqs w))
          else { w with tassembly_ireqs ::= ht_put tid ta' }).
Proof.
  intros Hknows He Htid Hc Htot cp found Hget Hneed Hta Hfit.
  unfold INVITE_DATA_UNIT, ELA_MAX_INVITE_DATA_LEN in *.
  assert (assembled ta u e (ta_bundle ta) tid total pre) as Hta'.
  { unfold assembled in *. tauto. }
  destruct (append_assembled _ _ _ _ _ _ _ c Hta' Hfit) as (ta' & Happ & Hta2 & _); [lia|].
  exists ta'. split; [done|]. unfold handle_invite_request.
  pose proof Hknows as (Hn & Hu & _). destruct (friends_get_knows _ _ _ Hknows) as (fi & -> & Hfi).
  rewrite (proj2 (Z.eqb_neq number UINT32_MAX) Hn).
  cbn [c_assert negb mbind Res_bind elacp_get_type cp request body Z.eqb ELACP_TYPE_INVITE_REQUEST
       Pos.eqb elacp_get_bundle elacp_get_raw_data elacp_get_raw_data_length elacp_get_tid
       elacp_get_totalsz iq_bundle iq_data iq_tid iq_totalsz elacp_get_extension ext].
  rewrite Hfi, strcpy_Ok by (unfold ELA_MAX_ID_LEN; lia). cbn [mbind Res_bind].
  fold found. rewrite Hget. 
  assert (negb (bool_decide (is_Some found)) && (((if need then total else 0) =? 0)
    || ((if need then total else 0) >? ELA_MAX_INVITE_DATA_LEN)) = false) as ->.
  { destruct need.
    - rewrite (proj1 Hneed eq_refl). cbn. rewrite (proj2 (Z.eqb_neq _ _)) by lia.
      rewrite Z.gtb_ltb. apply Z.ltb_ge. unfold ELA_MAX_INVITE_DATA_LEN. lia.
    - destruct found; [done|]. discriminate (proj2 Hneed eq_refl). }
  cbn [mbind Res_bind].
  rewrite (assembled_sender _ _ _ _ _ _ _ Hta'), (assembled_fits _ _ _ _ _ _ _ _ Hta') by lia.
  rewrite (proj2 (Z.eqb_neq (Z.of_nat (length c)) 0)), Z.gtb_ltb,
    (proj2 (Z.ltb_ge INVITE_DATA_UNIT _)) by (unfold INVITE_DATA_UNIT; lia).
  cbn [negb orb deref mbind Res_bind]. rewrite Happ. cbn [mbind Res_bind].
  pose proof Hta2 as (_ & _ & _ & Hb2 & Hl2 & Ho2 & Hd2). rewrite Ho2, Hl2.
  destruct (Z.eqb_spec (Z.of_nat (length (pre ++ c))) total) as [Hdone|]; [|done].
  change (match e with Some name => u +:+ ":" +:+ name | None => u end) with (from_name u e).
  pose proof (from_name_length u e Hu He) as Hfl.
  rewrite strcpy_Ok by (unfold KEY_SIZE, ELA_MAX_ID_LEN, ELA_MAX_EXTENSION_NAME_LEN; lia).
  cbn [mbind Res_bind]. unfold transaction_history_put_invite, invite_key.
  rewrite (proj2 (Z.eqb_neq tid 0)) by done. cbn [negb c_assert mbind Res_bind].
  rewrite strcpy_Ok by (rewrite strlen_app; change (strlen "ir_") with 3;
    unfold KEY_SIZE, ELA_MAX_ID_LEN, ELA_MAX_EXTENSION_NAME_LEN; lia).
  cbn [mbind Res_bind]. rewrite Hdone, Z.sub_diag in Hd2.
  change (zeroed 0) with (@nil byte) in Hd2. rewrite app_nil_r in Hd2.
  unfold invite_callback, invited, invite_events, remove_ireq, emit_if, emit. rewrite Hb2, Hd2, Hl2, <- Hdone.
  cbn [callbacks tset set gafu_getter gafu_field_updater].
  destruct w, e, need; cbn; repeat case_match; done.
Qed.

Lemma notify_request now w number tid e b t c (p : buffer) :
  is_i64 tid -> is_u32 t -> elacp_encode (request tid e b t c) = Ok p ->
  notify_friend_message_cb now w number p =
    handle_invite_request now w number (request tid e b t c).
Proof.
  intros Ht Hs Hp. unfold notify_friend_message_cb.
  by rewrite (decode_encoded (request tid e b t c) p).
Qed.

(** Packets that arrive from a friend, each at its time. *)
Fixpoint deliver w (number : Z) (l : list (Z * buffer)) : Res (ElaCarrier dht) :=
  match l with
  | [] => Ok w
  | (now, p) :: l => w ← notify_friend_message_cb now w number p; deliver w number l
  end.

(** Tables with the same entries. *)
Definition same_entries {K V} `{Countable K} (t t' : hashtable K V) : Prop :=
  forall k, ht_get t k = ht_get t' k.

Lemma chunking_nonempty room data cs : chunking room data cs -> data <> [] -> cs <> [].
Proof. by destruct 1. Qed.

Lemma chunking_nil_inv room cs : chunking room [] cs -> cs = [].
Proof.
  intros Hc. remember [] as data eqn:E. destruct Hc as [|room c rest cs Hl _]; [done|].
  apply app_eq_nil in E as [-> ->]. cbn in Hl. lia.
Qed.

Lemma encode_all_cons cp cps (l : list buffer) :
  encode_all (cp :: cps) = Ok l ->
  exists p ps, l = p :: ps /\ elacp_encode cp = Ok p /\ encode_all cps = Ok ps.
Proof. cbn. intros Hl. res_inv. subst. eauto. Qed.

Lemma assembled_complete pre total : Z.of_nat (length (pre ++ @nil byte)) = total ->
  pre ++ zeroed (total - Z.of_nat (length pre)) = pre.
Proof. rewrite app_nil_r. intros <-. by rewrite Z.sub_diag, app_nil_r. Qed.

(** The fragments after the first. *)
Lemma deliver_rest w number u e b tid total room rest cs ps times ta pre :
  knows w number u -> ext_ok e -> is_i64 tid -> tid <> 0 -> total <= ELA_MAX_INVITE_DATA_LEN ->
  room <= INVITE_DATA_UNIT -> chunking room rest cs -> rest <> [] ->
  encode_all (request tid e None 0 <$> cs) = Ok ps -> length times = length ps ->
  ht_get (tassembly_ireqs w) tid = Some ta -> assembled ta u e b tid total pre ->
  Z.of_nat (length (pre ++ rest)) = total ->
  exists t, deliver w number (zip times ps) = Ok (invited w u e b (pre ++ rest) tid t) /\
    same_entries t (ht_remove tid (tassembly_ireqs w)).
Proof.
  intros Hk He Hi64 Htid Htot Hroom Hcs. revert w ps times ta pre Hk Hroom.
  induction Hcs as [room|room c rest cs Hc Hcs IH];
    intros w ps times ta pre Hk Hroom Hne Henc Htimes Hget Hta Hlen; [done|].
  apply encode_all_cons in Henc as (p & ps' & -> & Hp & Henc').
  destruct times as [|now times]; [done|]. cbn [zip_with deliver].
  rewrite (notify_request _ _ _ _ _ _ _ _ _ Hi64 ltac:(done) Hp).
  rewrite app_assoc, length_app in Hlen.
  assert (ta_bundle ta = b) as Hb by apply Hta.
  edestruct (request_step now w number u e None tid total c ta false pre) as (ta' & Hta' & ->);
    try done; [lia|..].
  - by rewrite Hget.
  - rewrite Hget. done.
  - by rewrite Hb.
  - rewrite length_app in Hlen. lia.
  - rewrite Hb in *. cbn [mbind Res_bind]. destruct rest as [|x rest].
    + rewrite (chunking_nil_inv _ _ Hcs) in Henc'. cbn in Henc'. injection Henc' as <-. destruct times; [|done].
      rewrite !app_nil_r in *. cbn [length] in Hlen. rewrite (proj2 (Z.eqb_eq _ _)) by lia.
      eexists; split; [reflexivity|done].
    + rewrite (proj2 (Z.eqb_neq _ _)) by (rewrite Nat2Z.inj_add in Hlen; cbn [length] in *; lia).
      edestruct (IH { w with tassembly_ireqs ::= ht_put tid ta' } ps' times ta' (pre ++ c))
        as (t & -> & Ht); try done.
      * cbn in *. lia.
      * cbn. apply ht_get_put_eq.
      * rewrite length_app. cbn [length] in *. lia.
      * exists t. split; [by rewrite app_assoc|]. intros k. rewrite Ht. cbn.
        rewrite !ht_get_remove. case_decide; [done|]. by rewrite ht_get_put_ne.
Qed.

(** All the fragments of an invitation. *)
Lemma deliver_requests w number u e b tid data room cs ps times :
  knows w number u -> ext_ok e -> is_i64 tid -> tid <> 0 ->
  0 < Z.of_nat (length data) <= ELA_MAX_INVITE_DATA_LEN -> room <= INVITE_DATA_UNIT ->
  chunking room data cs ->
  encode_all (requests tid e b (Z.of_nat (length data)) cs) = Ok ps -> length times = length ps ->
  ht_get (tassembly_ireqs w) tid = None ->
  exists t, deliver w number (zip times ps) = Ok (invited w u e b data tid t) /\
    same_entries t (tassembly_ireqs w).
Proof.
  intros Hk He Hi64 Htid Hlen Hroom Hcs Henc Htimes Hfresh.
  destruct Hcs as [room|room c rest cs Hc Hcs]; [cbn in Hlen; lia|].
  set (total := Z.of_nat (length (c ++ rest))) in *.
  apply encode_all_cons in Henc as (p & ps' & -> & Hp & Henc').
  destruct times as [|now times]; [done|]. cbn [zip_with deliver].
  assert (is_u32 total) by (unfold ELA_MAX_INVITE_DATA_LEN in *; machine_int).
  rewrite (notify_request _ _ _ _ _ _ _ _ _ Hi64 ltac:(done) Hp).
  destruct (get_assembly_new now u e tid b None total) as (ta & Hget & Hta & _); try done;
    [apply Hk|lia|].
  assert (ta_bundle ta = b) as Hb by apply Hta.
  edestruct (request_step now w number u e b tid total c ta true []) as (ta' & Hta' & ->);
    try done; try (by rewrite Hfresh); try lia.
  { subst total. rewrite length_app. cbn. lia. }
  rewrite Hb in *. cbn [mbind Res_bind app] in *. destruct rest as [|x rest].
  - rewrite (chunking_nil_inv _ _ Hcs) in Henc'. cbn in Henc'. injection Henc' as <-. destruct times; [|done].
    subst total. rewrite app_nil_r in *. rewrite Z.eqb_refl. by eexists.
  - rewrite (proj2 (Z.eqb_neq _ _)) by (subst total; rewrite length_app; cbn [length]; lia).
    edestruct (deliver_rest { w with tassembly_ireqs ::= ht_put tid ta' } number u e b tid total
      INVITE_DATA_UNIT (x :: rest) cs ps' times ta' c) as (t & -> & Ht); try done.
    + unfold ELA_MAX_INVITE_DATA_LEN in *. lia.
    + cbn in *. lia.
    + cbn. apply ht_get_put_eq.
    + exists t. split; [done|]. intros k. rewrite Ht. cbn.
      rewrite ht_get_remove. case_decide as E; [by rewrite <- E|]. by rewrite ht_get_put_ne.
Qed.
End Receiver.

(** ** The round trip of an invitation *)

Section RoundTrip.
Context `{!HashTables} {L : HashTablesLaws _} `{!Base58} {dht buffer : Type}
  `{!Dht dht buffer, !FlatBuffers buffer} {FL : FlatBuffersLaws buffer}.
Implicit Types w wr : ElaCarrier dht.

(** A peer that passes the checks: it is a friend of the table, and the name after
    the colon has between 1 and 31 characters. *)
Lemma check_peer_inr w to n e :
  check_peer w to = Ok (inr (n, e)) ->
  ext_ok e /\ exists a, to = Some a /\ e = (parse_address a).2 /\ friends_exist w n = Ok true.
Proof.
  unfold check_peer. destruct to as [[|c a]|]; try done.
  destruct (_ >? _); [done|]. destruct (parse_address (String c a)) as [id ext] eqn:Hp.
  destruct (is_valid_key id); [|done]. cbn [negb].
  destruct (bool_decide (is_Some ext) && _) eqn:Hext; [done|].
  destruct (is_ready w); [|done]. cbn [negb].
  destruct (get_friend_number w id) as [rc k]. destruct (rc <? 0); [done|].
  intros Hr. res_inv. destruct x; [|discriminate]. cbn in *. simplify_eq.
  split; [|exists (String c a)].
  - unfold ext_ok. destruct e as [e|]; [|done]. apply andb_false_iff in Hext as [Hext|Hext].
    + by rewrite bool_decide_true in Hext.
    + apply orb_false_iff in Hext as [_ Hext]. rewrite Z.gtb_ltb in Hext.
      by apply Z.ltb_ge in Hext.
  - split; [done|split; [exact (eq_sym (f_equal snd Hp))|done]].
Qed.

(** What an accepted call of [ela_invite_friend] does. *)
Lemma ela_invite_friend_spec w to bundle data callback context tid uninit now n e :
  ht_get (tcallbacks w) tid = None ->
  bad_bundle bundle = false -> data <> [] ->
  Z.of_nat (length data) <= ELA_MAX_INVITE_DATA_LEN ->
  check_peer w to = Ok (inr (n, e)) ->
  exists cs packets,
    chunking (INVITE_DATA_UNIT - strlen (or_empty bundle)) data cs /\
    encode_all (requests tid e bundle (Z.of_nat (length data)) cs) = Ok packets /\
    invite_outcome w n now (invite_tcb tid uninit callback context bundle) packets
      (ela_invite_friend w to bundle (Some data) callback context tid uninit now).
Proof.
  intros Hfresh Hb Hne Hlen Hpeer. unfold ela_invite_friend. rewrite Hb.
  assert (0 < Z.of_nat (length data)) by (destruct data; [done|cbn [length]; lia]).
  cbn [default from_option]. unfold id.
  rewrite bool_decide_true by (by eexists).
  rewrite (proj2 (Z.eqb_neq (Z.of_nat (length data)) 0)), Z.gtb_ltb, (proj2 (Z.ltb_ge _ _)) by lia.
  cbn [negb orb]. rewrite Hpeer. cbn [mbind Res_bind].
  apply (invite_loop_spec (S (length data)) w n tid e bundle callback context uninit now 0);
    try done; try (by intros ->); try (intros; lia).
  - unfold bad_bundle, INVITE_DATA_UNIT in *. destruct bundle as [b|];
      [|change (strlen (or_empty None)) with 0; lia].
    apply orb_false_iff in Hb as [_ Hb]. unfold ELA_MAX_BUNDLE_LEN in Hb.
    rewrite Z.gtb_ltb in Hb. apply Z.ltb_ge in Hb. pose proof (strlen_nonneg b).
    change (strlen (or_empty (Some b))) with (strlen b). lia.
Qed.

Lemma length_pos {A} (l : list A) : l <> [] -> 0 < Z.of_nat (length l).
Proof. destruct l; [done|]. cbn [length]. lia. Qed.

(** A call with bad arguments changes nothing but the thread's error. *)
Lemma ela_invite_friend_guard w to bundle data callback context tid uninit now :
  (exists n e bytes, data = Some bytes /\ bytes <> [] /\ bad_bundle bundle = false /\
     Z.of_nat (length bytes) <= ELA_MAX_INVITE_DATA_LEN /\ check_peer w to = Ok (inr (n, e)))
  \/ (exists code, ela_invite_friend w to bundle data callback context tid uninit now = fails code w)
  \/ (exists f, check_peer w to = Fault f /\
        ela_invite_friend w to bundle data callback context tid uninit now = Fault f).
Proof.
  unfold ela_invite_friend. destruct (bad_bundle bundle || _ || _ || _) eqn:Hg; [eauto|].
  destruct (check_peer w to) as [[code|[n e]]|f] eqn:Hp; [eauto| |eauto].
  left. apply orb_false_iff in Hg as [[[Hb Hs]%orb_false_iff Hz]%orb_false_iff Hl].
  destruct data as [bytes|]; [|by rewrite bool_decide_false in Hs by (by intros [])].
  rewrite Z.gtb_ltb in Hl. apply Z.ltb_ge in Hl. exists n, e, bytes. split_and!; try done.
  by intros ->.
Qed.

Lemma set_error_fields w code :
  tcallbacks (set_last_error code w) = tcallbacks w /\
  dht_state (set_last_error code w) = dht_state w.
Proof. done. Qed.

(** The parts of a node that an invitation of ours must not touch. *)
Definition same_but_calls w w' : Prop :=
  w' = { w with dht_state := dht_state w'; tcallbacks := tcallbacks w';
                last_error := last_error w' }.

(** C35. An invitation is handed to the DHT whole or not at all: the call returns 0
    when the DHT took every packet, and then the transaction is registered with
    its bundle and its deadline; it returns -1 on the first refusal, and then no
    transaction is left behind.  Nothing else of the node changes, and the call
    does not fault when the peer's friend number is a valid one. *)
Theorem invite_all_or_nothing w to bundle data callback context tid uninit now :
  ht_get (tcallbacks w) tid = None ->
  (exists peer, check_peer w to = Ok peer) ->
  exists rc w', ela_invite_friend w to bundle data callback context tid uninit now = Ok (rc, w') /\
    same_but_calls w w' /\
    (rc = 0 /\
       same_entries (tcallbacks w') (ht_put tid
         { invite_tcb tid uninit callback context bundle with
           tcb_expire_time := after now TRANSACTION_EXPIRE_INTERVAL } (tcallbacks w)) \/
     rc = -1 /\ same_entries (tcallbacks w') (tcallbacks w)).
Proof.
  intros Hfresh [peer Hpeer].
  destruct (ela_invite_friend_guard w to bundle data callback context tid uninit now)
    as [(n & e & bytes & -> & Hne & Hb & Hl & Hp)|[[code ->]|(f & Hf & _)]].
  - destruct (ela_invite_friend_spec w to bundle bytes callback context tid uninit now n e)
      as (cs & packets & _ & _ & Hout); try done.
    unfold invite_outcome in Hout. destruct (send_packets _ _ _) as [rc d].
    destruct (rc <? 0); destruct Hout as (w' & -> & Hw'); do 2 eexists; (split; [done|]).
    + destruct Hw' as (t & -> & Ht). split; [done|]. right. done.
    + rewrite Hw'. split; [by destruct w|]. left. by split.
  - do 2 eexists. split; [done|]. split; [by destruct w|]. by right.
  - congruence.
Qed.

(** The packets delivered in order. *)
Lemma invite_delivered w to bundle data callback context tid uninit now w' wr number u :
  is_i64 tid -> tid <> 0 -> ht_get (tcallbacks w) tid = None ->
  ela_invite_friend w to bundle data callback context tid uninit now = Ok (0, w') ->
  knows wr number u -> ht_get (tassembly_ireqs wr) tid = None ->
  exists bytes n packets rc, data = Some bytes /\
    send_packets (dht_state w) n packets = (rc, dht_state w') /\ 0 <= rc /\
    forall times, length times = length packets ->
      exists t, deliver wr number (zip times packets) =
          Ok (invited wr u (parse_address (or_empty to)).2 bundle bytes tid t) /\
        same_entries t (tassembly_ireqs wr).
Proof.
  intros Hi64 Htid Hfresh Hcall Hk Hfr.
  destruct (ela_invite_friend_guard w to bundle data callback context tid uninit now)
    as [(n & e & bytes & -> & Hne & Hb & Hl & Hp)|[[code Hf]|(f & _ & Hf)]];
    [|unfold fails in Hf; congruence..].
  destruct (check_peer_inr _ _ _ _ Hp) as (He & a & -> & -> & _).
  destruct (ela_invite_friend_spec w (Some a) bundle bytes callback context tid uninit now n
    (parse_address a).2) as (cs & packets & Hcs & Henc & Hout); try done.
  unfold invite_outcome in Hout. destruct (send_packets _ _ _) as [rc d] eqn:Hsend.
  destruct (Z.ltb_spec rc 0); destruct Hout as (w'' & Hcall' & Hw');
    rewrite Hcall' in Hcall; [done|]. injection Hcall as ->.
  exists bytes, n, packets, rc. rewrite Hsend, Hw'. split_and!; try done.
  intros times Htimes.
  eapply deliver_requests; [exact Hk|exact He|exact Hi64|exact Htid| | |exact Hcs|exact Henc|done|done].
  - split; [by apply length_pos|done].
  - pose proof (strlen_nonneg (or_empty bundle)). lia.
Qed.

(** C1. The round trip of an invitation.  When [ela_invite_friend] returns 0, the
    packets it handed to the DHT, delivered in order to the friend at whatever
    times, make the friend's application see the invitation once, with the
    inviter's identity, the bundle and exactly the bytes that were sent,
    reassembled; the friend then remembers the transaction for the reply, and no
    fragment is left in its tables. *)
Theorem invite_roundtrip w to bundle data callback context tid uninit now w' wr number u :
  is_i64 tid -> tid <> 0 -> ht_get (tcallbacks w) tid = None ->
  ela_invite_friend w to bundle data callback context tid uninit now = Ok (0, w') ->
  knows wr number u -> ht_get (tassembly_ireqs wr) tid = None ->
  exists bytes n packets rc, data = Some bytes /\
    send_packets (dht_state w) n packets = (rc, dht_state w') /\ 0 <= rc /\
    forall times, length times = length packets ->
      exists t, deliver wr number (zip times packets) =
          Ok (invited wr u (parse_address (or_empty to)).2 bundle bytes tid t) /\
        same_entries t (tassembly_ireqs wr).
Proof. apply invite_delivered. Qed.
End RoundTrip.

(** Alice invites Bob, in two packets. *)
Definition alice_invites : Res (Z * ElaCarrier sdht) :=
  ela_invite_friend alice (Some bob_id) (Some "bundle"%string) (Some (some_bytes 1300)) 7 8 42 0 1000.
Definition alice_inviting : ElaCarrier sdht :=
  match alice_invites with Ok (_, w) => w | Fault _ => alice end.

Definition alice_tcb : TransactedCallback :=
  {| tcb_tid := 42; tcb_friend_number := 0; tcb_callback_func := 7; tcb_callback_context := 8;
     tcb_expire_time := after 1000 TRANSACTION_EXPIRE_INTERVAL; tcb_bundle := Some "bundle"%string |}.

Lemma bob_knows_alice : knows bob 9 alice_id.
Proof. split_and!; [done|done|]. by exists (new_friend alice_id 9). Qed.

Lemma invite_all_or_nothing_witness :
  ht_get (tcallbacks alice) 42 = None /\
  (exists peer, check_peer alice (Some bob_id) = Ok peer) /\
  exists rc w', alice_invites = Ok (rc, w') /\ same_but_calls alice w' /\
    (rc = 0 /\
       same_entries (tcallbacks w') (ht_put 42
         { invite_tcb 42 0 7 8 (Some "bundle"%string) with
           tcb_expire_time := after 1000 TRANSACTION_EXPIRE_INTERVAL } (tcallbacks alice)) \/
     rc = -1 /\ same_entries (tcallbacks w') (tcallbacks alice)).
Proof.
  assert (exists peer, check_peer alice (Some bob_id) = Ok peer) as Hp
    by (eexists; vm_compute; reflexivity).
  split; [reflexivity|split; [exact Hp|]].
  exact (invite_all_or_nothing alice (Some bob_id) (Some "bundle"%string)
    (Some (some_bytes 1300)) 7 8 42 0 1000 eq_refl Hp).
Defined.

Lemma invite_roundtrip_witness :
  alice_invites = Ok (0, alice_inviting) /\
  exists bytes n packets rc, Some (some_bytes 1300) = Some bytes /\
    send_packets (dht_state alice) n packets = (rc, dht_state alice_inviting) /\ 0 <= rc /\
    forall times, length times = length packets ->
      exists t, deliver bob 9 (zip times packets) =
          Ok (invited bob alice_id None (Some "bundle"%string) bytes 42 t) /\
        same_entries t (tassembly_ireqs bob).
Proof.
  assert (alice_invites = Ok (0, alice_inviting)) as Hcall by (vm_compute; reflexivity).
  split; [exact Hcall|].
  apply (invite_roundtrip alice (Some bob_id) (Some "bundle"%string) (Some (some_bytes 1300))
    7 8 42 0 1000 alice_inviting bob 9 alice_id); [machine_int|done|done|exact Hcall| |done].
  apply bob_knows_alice.
Defined.

(** ** Friend messages *)

Section Message.
Context `{!HashTables} {L : HashTablesLaws _} `{!Base58} {dht buffer : Type}
  `{!Dht dht buffer, !FlatBuffers buffer} {FL : FlatBuffersLaws buffer}.
Implicit Types w wr : ElaCarrier dht.

(** The round trip of a friend message.  When [ela_send_friend_message] returns
    0 the DHT took one packet, of at most 1024 bytes of message, and handling that
    packet shows the friend's application the sender's identity and exactly the
    bytes that were sent, once, unless the message was for an extension, which the
    application is not shown. *)
Theorem message_roundtrip now w to msg w' wr number u :
  ela_send_friend_message w to msg = Ok (0, w') ->
  knows wr number u ->
  exists a bytes n p rc, to = Some a /\ msg = Some bytes /\ bytes <> [] /\
    Z.of_nat (length bytes) <= ELA_MAX_APP_MESSAGE_LEN /\
    dht_friend_message (dht_state w) n p = (rc, dht_state w') /\ 0 <= rc /\
    notify_friend_message_cb now wr number p =
      Ok (emit_if (cb_friend_message (callbacks wr) && negb (bool_decide (is_Some (parse_address a).2)))
            (EvFriendMessage u (Some bytes) (Z.of_nat (length bytes))) wr).
Proof.
  unfold ela_send_friend_message, fails. intros Hr Hk.
  destruct to as [to|]; [|done]. destruct msg as [[|b msg]|]; [done| |done].
  destruct (_ >? _) eqn:Hlen in Hr; [done|]. rewrite Z.gtb_ltb in Hlen. apply Z.ltb_ge in Hlen.
  destruct (parse_address to) as [id e] eqn:Hp. do 4 (case_match; [done|]).
  destruct (get_friend_number w id) as [rc0 n]. case_match; [done|].
  apply Res_bind_Ok in Hr as (ex & _ & Hr). case_match; [done|].
  apply Res_bind_Ok in Hr as (cp0 & Hcp & Hr). injection Hcp as <-.
  apply Res_bind_Ok in Hr as (cp & Hcp & Hr). cbn in Hcp. injection Hcp as <-.
  apply Res_bind_Ok in Hr as (p & Henc & Hr).
  destruct (dht_friend_message (dht_state w) n p) as [rc d] eqn:Hsend.
  destruct (Z.ltb_spec rc 0); [done|]. injection Hr as <-.
  exists to, (b :: msg), n, p, rc. split_and!; try done.
  unfold notify_friend_message_cb. unfold with_body in Henc. cbn [ext] in Henc.
  match type of Henc with elacp_encode ?c = _ => rewrite (decode_encoded c p ltac:(done) Henc) end.
  cbn [mbind Res_bind received body ext fm_msg default]. unfold handle_friend_message.
  pose proof Hk as (Hn & Hu & _). destruct (friends_get_knows _ _ _ Hk) as (fi & -> & Hfi).
  rewrite (proj2 (Z.eqb_neq number UINT32_MAX) Hn). cbn [negb c_assert elacp_get_type body Z.eqb
    Pos.eqb ELACP_TYPE_MESSAGE mbind Res_bind].
  rewrite Hfi, strcpy_Ok by (unfold ELA_MAX_ID_LEN; lia). by rewrite Hp.
Qed.
End Message.

Definition alice_sent : ElaCarrier sdht :=
  (run (ela_send_friend_message alice (Some bob_id) (Some (some_bytes 5))) (0, alice)).2.

Lemma message_roundtrip_witness :
  ela_send_friend_message alice (Some bob_id) (Some (some_bytes 5)) = Ok (0, alice_sent) /\
  exists a bytes n p rc, Some bob_id = Some a /\ Some (some_bytes 5) = Some bytes /\ bytes <> [] /\
    Z.of_nat (length bytes) <= ELA_MAX_APP_MESSAGE_LEN /\
    dht_friend_message (dht_state alice) n p = (rc, dht_state alice_sent) /\ 0 <= rc /\
    notify_friend_message_cb 0 bob 9 p =
      Ok (emit_if (cb_friend_message (callbacks bob) && negb (bool_decide (is_Some (parse_address a).2)))
            (EvFriendMessage alice_id (Some bytes) (Z.of_nat (length bytes))) bob).
Proof.
  assert (ela_send_friend_message alice (Some bob_id) (Some (some_bytes 5)) = Ok (0, alice_sent)) as Hr
    by (vm_compute; reflexivity).
  split; [exact Hr|].
  exact (message_roundtrip 0 alice (Some bob_id) (Some (some_bytes 5)) alice_sent bob 9 alice_id Hr
    bob_knows_alice).
Defined.
