(* ===== verification/InviteReply.v ===== *)
(** * Replies to invitations

    The fragmentation of a reply, its reassembly by the inviter and the completion
    of the inviter's transaction: once, by an acceptance with its data or by a
    refusal with its reason. *)

From S2P Require Import Prelude ElaError ElaCP Carrier Sample Invite InviteProps.

(** A refusal is one packet. *)
Definition refusal (tid status : Z) (ext_name bundle : option string) (reason : string) : ElaCP :=
  response tid status ext_name bundle (Some reason) 0 None.

(** A later fragment of an acceptance. *)
Definition continued (tid : Z) (ext_name : option string) (c : list byte) : ElaCP :=
  response tid 0 ext_name None None 0 (Some c).

Section Reply.
Context `{!HashTables} {L : HashTablesLaws _} `{!Base58} {dht buffer : Type}
  `{!Dht dht buffer, !FlatBuffers buffer} {FL : FlatBuffersLaws buffer}.
Implicit Types w wr : ElaCarrier dht.

(** ** Sending *)

Lemma reply_send_len_spec blen len n blen' :
  0 < len -> 0 <= blen < INVITE_DATA_UNIT -> reply_send_len blen len = (n, blen') ->
  0 < n <= INVITE_DATA_UNIT - blen /\ n <= len /\ (n < len -> blen' = 0).
Proof.
  unfold reply_send_len, INVITE_DATA_UNIT. intros Hl Hb.
  destruct (Z.leb_spec (blen + len) 1280); [intros [= <- <-]; lia|].
  rewrite Z.gtb_ltb. destruct (Z.ltb_spec 0 blen); intros [= <- <-]; lia.
Qed.

Lemma reply_fragment_spec tid e bundle index blen pos n blen' :
  pos <> [] -> 0 <= blen < INVITE_DATA_UNIT ->
  reply_send_len blen (Z.of_nat (length pos)) = (n, blen') -> 0 < n ->
  reply_fragment tid 0 e bundle None index blen (Some pos) =
    Ok (response tid 0 e (if index =? 1 then bundle else None) None
          (if index =? 1 then Z.of_nat (length pos) else 0) (Some (take (Z.to_nat n) pos)),
        Some (drop (Z.to_nat n) pos), blen').
Proof.
  intros Hpos Hb Hn Hn0. destruct pos as [|x pos]; [done|]. unfold reply_fragment.
  destruct (Z.to_nat n) as [|k] eqn:Hk; [lia|].
  destruct (index =? 1), bundle; cbn -[reply_send_len Z.of_nat Z.to_nat length];
    rewrite Hn, Hk; reflexivity.
Qed.

(** What the DHT took and refused of a reply. *)
Definition reply_outcome w (number : Z) (packets : list buffer) (r : Res (Z * ElaCarrier dht)) :
    Prop :=
  let '(rc, d) := send_packets (dht_state w) number packets in
  r = if rc <? 0 then fails rc { w with dht_state := d } else Ok (0, { w with dht_state := d }).

Lemma reply_outcome_step w number p packets d rc r :
  dht_friend_message (dht_state w) number p = (rc, d) -> 0 <= rc ->
  reply_outcome { w with dht_state := d } number packets r ->
  reply_outcome w number (p :: packets) r.
Proof.
  intros Hsend Hrc. unfold reply_outcome. cbn [send_packets].
  rewrite Hsend, (proj2 (Z.ltb_ge _ _)) by done. cbn. by destruct (send_packets d number packets).
Qed.

Lemma reply_loop_spec fuel w number tid e bundle index blen pos :
  pos <> [] -> 0 <= blen < INVITE_DATA_UNIT -> 0 <= index -> (length pos < fuel)%nat ->
  (1 <= index -> blen = 0) ->
  exists cs packets, chunking (INVITE_DATA_UNIT - blen) pos cs /\
    encode_all (if index =? 0 then responses tid e bundle (Z.of_nat (length pos)) cs
                else continued tid e <$> cs) = Ok packets /\
    reply_outcome w number packets
      (reply_loop fuel w number tid 0 e bundle None index blen (Some pos)).
Proof.
  induction fuel as [|fuel IH] in w, index, blen, pos |- *; intros Hpos Hb Hi Hfuel Hbi; [lia|].
  cbn [reply_loop]. destruct (reply_send_len blen (Z.of_nat (length pos))) as [n blen'] eqn:Hsl.
  pose proof (length_pos _ Hpos) as Hlen.
  destruct (reply_send_len_spec _ _ _ _ Hlen Hb Hsl) as (Hn & Hnl & Hb').
  rewrite (reply_fragment_spec _ _ _ _ _ _ _ _ Hpos Hb Hsl) by lia. cbn [mbind Res_bind].
  set (c := take (Z.to_nat n) pos). set (rest := drop (Z.to_nat n) pos).
  assert (Z.of_nat (length c) = n) as Hc by (subst c; rewrite length_take; lia).
  assert (pos = c ++ rest) as Hpr by (symmetry; apply take_drop).
  assert ((index + 1 =? 1) = (index =? 0)) as ->
    by (destruct (Z.eqb_spec (index + 1) 1), (Z.eqb_spec index 0); done || lia).
  destruct (encode_response_Ok tid 0 e (if index =? 0 then bundle else None) None
    (if index =? 0 then Z.of_nat (length pos) else 0) (Some c)) as [p Hp].
  rewrite Hp. cbn [mbind Res_bind default from_option]. unfold id.
  assert (exists cs packets, chunking INVITE_DATA_UNIT rest cs /\
    encode_all (continued tid e <$> cs) = Ok packets /\ forall rc d,
    dht_friend_message (dht_state w) number p = (rc, d) ->
    reply_outcome w number (p :: packets)
      (if rc <? 0 then fails rc { w with dht_state := d }
       else if Z.of_nat (length rest) >? 0
       then reply_loop fuel { w with dht_state := d } number tid 0 e bundle None (index + 1) blen'
              (Some rest)
       else Ok (0, { w with dht_state := d }))) as (cs & packets & Hcs & Henc & Hout).
  { destruct (decide (rest = [])) as [Hr|Hr].
    - exists [], []. rewrite Hr. split_and!; [constructor|done|]. intros rc d Hsend.
      unfold reply_outcome. cbn. rewrite Hsend. destruct (rc <? 0) eqn:E; by rewrite ?E.
    - pose proof (length_pos _ Hr) as Hrl. rewrite Z.gtb_ltb, (proj2 (Z.ltb_lt _ _)) by done.
      assert (length rest = length pos - Z.to_nat n)%nat as Hrn by apply length_drop.
      destruct (dht_friend_message (dht_state w) number p) as [rc d] eqn:Hsend.
      destruct (IH { w with dht_state := d } (index + 1) blen' rest)
        as (cs & packets & Hcs & Henc & Hout); try done; try lia.
      rewrite Hb' in * by lia.
      rewrite (proj2 (Z.eqb_neq (index + 1) 0)), Z.sub_0_r in * by lia.
      exists cs, packets. split_and!; try done. intros rc' d' [= <- <-].
      destruct (Z.ltb_spec rc 0) as [Hrc|Hrc]; [|by eapply reply_outcome_step].
      unfold reply_outcome. cbn. by rewrite Hsend, !(proj2 (Z.ltb_lt rc 0)). }
  exists (c :: cs), (p :: packets). split_and!.
  - rewrite Hpr. constructor; [lia|done].
  - unfold continued in *.
    destruct (index =? 0); cbn [responses encode_all fmap list_fmap]; rewrite Hp;
      cbn [mbind Res_bind]; by rewrite Henc.
  - destruct (dht_friend_message (dht_state w) number p) as [rc d] eqn:Hsend. by apply Hout.
Qed.

(** ** Receiving *)

(** The inviter after a reply is complete, with table [t] of open assemblies: the
    transaction is gone and its callback was called. *)
Definition answered w (tcb : TransactedCallback) (u : string) (tid : Z) (bundle : option string)
    (status : Z) (reason : option string) (data : list byte)
    (t : hashtable Z TransactedAssembly) : ElaCarrier dht :=
  { w with tcallbacks ::= ht_remove tid; tassembly_irsps := t;
           events ::= cons (EvInviteResponse (tcb_callback_func tcb) (tcb_callback_context tcb) u
                              bundle status reason data (Z.of_nat (length data))) }.

(** One fragment of an open or new assembly. *)
Lemma response_step now w number u e b tid tcb total c ta (need : bool) pre :
  knows w number u -> ext_ok e -> ht_get (tcallbacks w) tid = Some tcb ->
  Z.of_nat (length c) <= INVITE_DATA_UNIT -> total <= ELA_MAX_INVITE_DATA_LEN ->
  let cp := response tid 0 e b None (if need then total else 0) (Some c) in
  let found := ht_get (tassembly_irsps w) tid in
  get_assembly found now u e tid b None (if need then total else 0) = Ok (ta, need) ->
  (need = true <-> found = None) ->
  assembled ta u e (ta_bundle ta) tid total pre ->
  Z.of_nat (length pre) + Z.of_nat (length c) <= total ->
  exists ta', assembled ta' u e (ta_bundle ta) tid total (pre ++ c) /\
    handle_invite_response now w number cp =
      Ok (if Z.of_nat (length (pre ++ c)) =? total
          then answered w tcb u tid (ta_bundle ta) 0 None (pre ++ c)
                 (if need then tassembly_irsps w else ht_remove tid (tassembly_irsps w))
          else { w with tassembly_irsps ::= ht_put tid ta' }).
Proof.
  intros Hknows He Htcb Hc Htot cp found Hget Hneed Hta Hfit.
  unfold INVITE_DATA_UNIT, ELA_MAX_INVITE_DATA_LEN in *.
  destruct (append_assembled _ _ _ _ _ _ _ c Hta Hfit) as (ta' & Happ & Hta2 & _); [lia|].
  exists ta'. split; [done|]. unfold handle_invite_response.
  pose proof Hknows as (Hn & Hu & _). destruct (friends_get_knows _ _ _ Hknows) as (fi & -> & Hfi).
  rewrite (proj2 (Z.eqb_neq number UINT32_MAX) Hn).
  cbn [c_assert negb mbind Res_bind elacp_get_type cp response body Z.eqb ELACP_TYPE_INVITE_RESPONSE
       Pos.eqb elacp_get_bundle elacp_get_tid elacp_get_totalsz elacp_get_status is_bundle is_data
       is_tid is_totalsz is_status elacp_get_extension ext].
  rewrite Hfi, strcpy_Ok by (unfold ELA_MAX_ID_LEN; lia). cbn [mbind Res_bind].
  rewrite Htcb. cbn [response_payload negb Z.eqb elacp_get_raw_data elacp_get_raw_data_length body
    cp response is_data mbind Res_bind].
  fold found. rewrite Hget.
  assert (negb (bool_decide (is_Some found))
    && ((if need then total else 0) >? ELA_MAX_INVITE_DATA_LEN) = false) as ->.
  { destruct need.
    - apply andb_false_iff. right. rewrite Z.gtb_ltb. apply Z.ltb_ge.
      unfold ELA_MAX_INVITE_DATA_LEN. lia.
    - destruct found; [done|]. discriminate (proj2 Hneed eq_refl). }
  cbn [mbind Res_bind].
  rewrite (assembled_sender _ _ _ _ _ _ _ Hta), (assembled_fits _ _ _ _ _ _ _ _ Hta) by lia.
  rewrite Z.gtb_ltb, (proj2 (Z.ltb_ge INVITE_DATA_UNIT _)) by (unfold INVITE_DATA_UNIT; lia).
  cbn [negb orb mbind Res_bind]. rewrite Happ. cbn [mbind Res_bind].
  pose proof Hta2 as (_ & _ & _ & Hb2 & Hl2 & Ho2 & Hd2). rewrite Ho2, Hl2.
  destruct (Z.eqb_spec (Z.of_nat (length (pre ++ c))) total) as [Hdone|]; [|done].
  rewrite Hdone, Z.sub_diag in Hd2. change (zeroed 0) with (@nil byte) in Hd2.
  rewrite app_nil_r in Hd2.
  unfold answered, remove_irsp, transacted_callbacks_remove, emit. rewrite Hb2, Hd2, <- Hdone.
  by destruct w, need.
Qed.

Lemma notify_response now w number tid st e b r t c (p : buffer) :
  is_i64 tid -> is_i32 st -> is_u32 t -> elacp_encode (response tid st e b r t c) = Ok p ->
  notify_friend_message_cb now w number p =
    handle_invite_response now w number (received (response tid st e b r t c)).
Proof.
  intros Ht Hs Htt Hp. unfold notify_friend_message_cb.
  by rewrite (decode_encoded (response tid st e b r t c) p).
Qed.

(** The fragments after the first. *)
Lemma deliver_continued w number u e b tid tcb total room rest cs ps times ta pre :
  knows w number u -> ext_ok e -> is_i64 tid -> ht_get (tcallbacks w) tid = Some tcb ->
  total <= ELA_MAX_INVITE_DATA_LEN ->
  room <= INVITE_DATA_UNIT -> chunking room rest cs -> rest <> [] ->
  encode_all (continued tid e <$> cs) = Ok ps -> length times = length ps ->
  ht_get (tassembly_irsps w) tid = Some ta -> assembled ta u e b tid total pre ->
  Z.of_nat (length (pre ++ rest)) = total ->
  exists t, deliver w number (zip times ps) =
      Ok (answered w tcb u tid b 0 None (pre ++ rest) t) /\
    same_entries t (ht_remove tid (tassembly_irsps w)).
Proof.
  intros Hk He Hi64 Htcb Htot Hroom Hcs. revert w ps times ta pre Hk Htcb Hroom.
  induction Hcs as [room|room c rest cs Hc Hcs IH];
    intros w ps times ta pre Hk Htcb Hroom Hne Henc Htimes Hget Hta Hlen; [done|].
  apply encode_all_cons in Henc as (p & ps' & -> & Hp & Henc').
  destruct times as [|now times]; [done|]. cbn [zip_with deliver].
  rewrite (notify_response now w number tid 0 e None None 0 (Some c) p) by done.
  change (received _) with (response tid 0 e None None 0 (Some c)).
  rewrite app_assoc, length_app in Hlen.
  assert (ta_bundle ta = b) as Hb by apply Hta.
  edestruct (response_step now w number u e None tid tcb total c ta false pre) as (ta' & Hta' & ->);
    try done; [lia|..].
  - by rewrite Hget.
  - by rewrite Hget.
  - by rewrite Hb.
  - rewrite length_app in Hlen. lia.
  - rewrite Hb in *. cbn [mbind Res_bind]. destruct rest as [|x rest].
    + rewrite (chunking_nil_inv _ _ Hcs) in Henc'. cbn in Henc'. injection Henc' as <-.
      destruct times; [|done].
      rewrite !app_nil_r in *. cbn [length] in Hlen. rewrite (proj2 (Z.eqb_eq _ _)) by lia.
      eexists; split; [reflexivity|done].
    + rewrite (proj2 (Z.eqb_neq _ _)) by (rewrite Nat2Z.inj_add in Hlen; cbn [length] in *; lia).
      edestruct (IH { w with tassembly_irsps ::= ht_put tid ta' } ps' times ta' (pre ++ c))
        as (t & -> & Ht); try done.
      * cbn in *. lia.
      * cbn. apply ht_get_put_eq.
      * rewrite length_app. cbn [length] in *. lia.
      * exists t. split; [by rewrite app_assoc|]. intros k. rewrite Ht. cbn.
        rewrite !ht_get_remove. case_decide; [done|]. by rewrite ht_get_put_ne.
Qed.

(** All the fragments of an acceptance. *)
Lemma deliver_responses w number u e b tid tcb data room cs ps times :
  knows w number u -> ext_ok e -> is_i64 tid -> ht_get (tcallbacks w) tid = Some tcb ->
  0 < Z.of_nat (length data) <= ELA_MAX_INVITE_DATA_LEN -> room <= INVITE_DATA_UNIT ->
  chunking room data cs ->
  encode_all (responses tid e b (Z.of_nat (length data)) cs) = Ok ps -> length times = length ps ->
  ht_get (tassembly_irsps w) tid = None ->
  exists t, deliver w number (zip times ps) = Ok (answered w tcb u tid b 0 None data t) /\
    same_entries t (tassembly_irsps w).
Proof.
  intros Hk He Hi64 Htcb Hlen Hroom Hcs Henc Htimes Hfresh.
  destruct Hcs as [room|room c rest cs Hc Hcs]; [cbn in Hlen; lia|].
  set (total := Z.of_nat (length (c ++ rest))) in *.
  apply encode_all_cons in Henc as (p & ps' & -> & Hp & Henc').
  destruct times as [|now times]; [done|]. cbn [zip_with deliver].
  assert (is_u32 total) by (unfold ELA_MAX_INVITE_DATA_LEN in *; machine_int).
  rewrite (notify_response now w number tid 0 e b None total (Some c) p) by done.
  change (received _) with (response tid 0 e b None total (Some c)).
  destruct (get_assembly_new now u e tid b None total) as (ta & Hget & Hta & _); try done;
    [apply Hk|lia|].
  assert (ta_bundle ta = b) as Hb by apply Hta.
  edestruct (response_step now w number u e b tid tcb total c ta true []) as (ta' & Hta' & ->);
    try done; try (by rewrite Hfresh); try lia.
  { by rewrite Hb. }
  { subst total. rewrite length_app. cbn. lia. }
  rewrite Hb in *. cbn [mbind Res_bind app] in *. destruct rest as [|x rest].
  - rewrite (chunking_nil_inv _ _ Hcs) in Henc'. cbn in Henc'. injection Henc' as <-.
    destruct times; [|done]. subst total. rewrite app_nil_r in *. rewrite Z.eqb_refl. by eexists.
  - rewrite (proj2 (Z.eqb_neq _ _)) by (subst total; rewrite length_app; cbn [length]; lia).
    edestruct (deliver_continued { w with tassembly_irsps ::= ht_put tid ta' } number u e b tid tcb
      total INVITE_DATA_UNIT (x :: rest) cs ps' times ta' c) as (t & -> & Ht); try done.
    + unfold ELA_MAX_INVITE_DATA_LEN in *. lia.
    + cbn in *. lia.
    + cbn. apply ht_get_put_eq.
    + exists t. split; [done|]. intros k. rewrite Ht. cbn.
      rewrite ht_get_remove. case_decide as E; [by rewrite <- E|]. by rewrite ht_get_put_ne.
Qed.

(** A refusal, whole in its packet. *)
Lemma deliver_refusal now w number u e b tid tcb status r (p : buffer) :
  knows w number u -> ext_ok e -> is_i64 tid -> is_i32 status -> status <> 0 ->
  ht_get (tcallbacks w) tid = Some tcb -> ht_get (tassembly_irsps w) tid = None ->
  elacp_encode (refusal tid status e b r) = Ok p ->
  notify_friend_message_cb now w number p =
    Ok (answered w tcb u tid b status (Some r) [] (tassembly_irsps w)).
Proof.
  intros Hk He Hi64 Hi32 Hst Htcb Hfresh Hp.
  rewrite (notify_response now w number tid status e b (Some r) 0 None p) by done.
  apply Z.eqb_neq in Hst as Hstb.
  assert (received (response tid status e b (Some r) 0 None) = refusal tid status e b r) as ->
    by (unfold received, refusal, response; cbn; by rewrite Hstb).
  pose proof Hk as (Hn & Hu & _). destruct (friends_get_knows _ _ _ Hk) as (fi & Hget & Hfi).
  destruct (get_assembly_new now u e tid b (Some r) 0) as (ta & Hta & Has & _); try done.
  unfold handle_invite_response. rewrite Hget, (proj2 (Z.eqb_neq number UINT32_MAX) Hn).
  cbn [c_assert negb mbind Res_bind elacp_get_type refusal response body Z.eqb
    ELACP_TYPE_INVITE_RESPONSE Pos.eqb elacp_get_bundle elacp_get_tid elacp_get_totalsz
    elacp_get_status is_bundle is_tid is_totalsz is_status elacp_get_extension ext].
  rewrite Hfi, strcpy_Ok by (unfold ELA_MAX_ID_LEN; lia). cbn [mbind Res_bind].
  rewrite Htcb. unfold response_payload. rewrite Hstb.
  cbn [negb elacp_get_reason body refusal response is_reason mbind Res_bind deref]. rewrite Hfresh.
  rewrite bool_decide_false by (by intros []). cbn [negb andb Z.gtb Z.compare ELA_MAX_INVITE_DATA_LEN].
  rewrite Hta. cbn [mbind Res_bind].
  rewrite (assembled_sender _ _ _ _ _ _ _ Has), (assembled_fits _ _ _ _ _ _ _ 0 Has) by done.
  cbn [negb orb Z.gtb Z.compare INVITE_DATA_UNIT mbind Res_bind].
  destruct Has as (_ & _ & _ & Hb & Hl & Ho & Hd). rewrite Ho, Hl, Hb, Hd. by destruct w.
Qed.

(** ** The reply as a whole *)

(** What an accepted call of [ela_reply_friend_invite] does: every packet of the
    reply goes to the DHT and the pending invitation is forgotten. *)
Lemma ela_reply_friend_invite_spec w to bundle status reason data w' :
  ela_reply_friend_invite w to bundle status reason data = Ok (0, w') ->
  exists n e tid packets rc d,
    check_peer w to = Ok (inr (n, e)) /\
    transaction_history_get_invite (or_empty to) w = Ok tid /\ tid <> 0 /\
    transaction_history_remove_invite (or_empty to) { w with dht_state := d } = Ok w' /\
    send_packets (dht_state w) n packets = (rc, d) /\ 0 <= rc /\ strlen (or_empty bundle) < INVITE_DATA_UNIT /\
    (status = 0 /\ reason = None /\
       (exists bytes cs, data = Some bytes /\ bytes <> [] /\
          Z.of_nat (length bytes) <= ELA_MAX_INVITE_DATA_LEN /\
          chunking (INVITE_DATA_UNIT - strlen (or_empty bundle)) bytes cs /\
          encode_all (responses tid e bundle (Z.of_nat (length bytes)) cs) = Ok packets) \/
     status <> 0 /\ data = None /\
       exists r p, reason = Some r /\ packets = [p] /\ elacp_encode (refusal tid status e bundle r) = Ok p).
Proof.
  unfold ela_reply_friend_invite, fails. destruct (bad_bundle bundle) eqn:Hb; [done|].
  assert (strlen (or_empty bundle) < INVITE_DATA_UNIT) as Hblen.
  { unfold bad_bundle, INVITE_DATA_UNIT in *. destruct bundle as [b|]; [|done].
    apply orb_false_iff in Hb as [_ Hb]. unfold ELA_MAX_BUNDLE_LEN in Hb.
    rewrite Z.gtb_ltb in Hb. apply Z.ltb_ge in Hb.
    change (strlen (or_empty (Some b))) with (strlen b). lia. }
  destruct (negb (status =? 0) && _) eqn:Hg1; [done|].
  destruct ((status =? 0) && _) eqn:Hg2; [done|].
  intros Hr. apply Res_bind_Ok in Hr as ([code|[n e]] & Hpeer & Hr); [done|].
  apply Res_bind_Ok in Hr as (tid & Htid & Hr).
  destruct (Z.eqb_spec tid 0) as [|Hne]; [done|].
  apply Res_bind_Ok in Hr as ([rc w1] & Hloop & Hr).
  destruct (Z.ltb_spec rc 0) as [|Hrc]; [injection Hr as -> _; lia|].
  apply Res_bind_Ok in Hr as (w2 & Hrm & Hr). injection Hr as ->.
  exists n, e, tid. pose proof (strlen_nonneg (or_empty bundle)) as Hbpos.
  destruct (Z.eqb_spec status 0) as [->|Hst]; cbn [negb andb] in Hg1, Hg2.
  - apply orb_false_iff in Hg2 as [[[Hre Hd]%orb_false_iff Hz]%orb_false_iff Hl].
    destruct reason as [r|]; [by rewrite bool_decide_true in Hre by eauto|].
    destruct data as [bytes|]; [|by rewrite bool_decide_false in Hd by (by intros [])].
    rewrite Z.gtb_ltb in Hl. apply Z.ltb_ge in Hl. cbn [default from_option] in Hz, Hl, Hloop.
    unfold id in Hz, Hl, Hloop.
    assert (bytes <> []) as Hnil by (by intros ->).
    destruct (reply_loop_spec (S (length bytes)) w n tid e bundle 0 (strlen (or_empty bundle)) bytes)
      as (cs & packets & Hcs & Henc & Hout); try done; [lia|].
    unfold reply_outcome in Hout. destruct (send_packets (dht_state w) n packets) as [rc' d] eqn:Hs.
    rewrite Hloop in Hout. destruct (Z.ltb_spec rc' 0).
    { unfold fails in Hout. injection Hout as -> _. lia. }
    injection Hout as -> ->. exists packets, rc', d. split_and!; try done. left.
    split_and!; try done. exists bytes, cs. by split_and!.
  - apply orb_false_iff in Hg1 as [[[Hre _]%orb_false_iff Hd]%orb_false_iff _].
    destruct data as [bytes|]; [by rewrite bool_decide_true in Hd by eauto|].
    destruct reason as [r|]; [|by rewrite bool_decide_false in Hre by (by intros [])].
    apply Z.eqb_neq in Hst as Hstb.
    destruct (encode_response_Ok tid status e bundle (Some r) 0 None) as [p Hp].
    cbn [reply_loop] in Hloop.
    assert (reply_fragment tid status e bundle (Some r) (0 + 1) (strlen (or_empty bundle)) None =
      Ok (refusal tid status e bundle r, None, strlen (or_empty bundle))) as Hfrag.
    { unfold reply_fragment. rewrite Hstb. by destruct bundle. }
    rewrite Hfrag in Hloop. cbn [mbind Res_bind] in Hloop. unfold refusal in Hloop.
    rewrite Hp in Hloop. cbn [mbind Res_bind] in Hloop.
    destruct (dht_friend_message (dht_state w) n p) as [rc' d] eqn:Hs.
    destruct (Z.ltb_spec rc' 0) as [|Hrc'].
    { unfold fails in Hloop. injection Hloop as <- _. lia. }
    cbn in Hloop. injection Hloop as <- <-.
    exists [p], 0, d. cbn [send_packets]. rewrite Hs, (proj2 (Z.ltb_ge _ _)) by done.
    split_and!; try done. right. split_and!; try done. exists r, p. by split_and!.
Qed.

(** The history after an invitation was forgotten. *)
Lemma history_removed to w w' :
  transaction_history_remove_invite to w = Ok w' -> transaction_history_get_invite to w' = Ok 0.
Proof.
  unfold transaction_history_remove_invite, transaction_history_get_invite.
  intros Hr. apply Res_bind_Ok in Hr as (key & -> & Hr). injection Hr as <-. cbn.
  by rewrite ht_get_remove_eq.
Qed.

Lemma history_kept_dht to d w :
  transaction_history_get_invite to { w with dht_state := d } = transaction_history_get_invite to w.
Proof. done. Qed.

(** A refused call, or one the DHT refused, leaves the history alone. *)
Lemma reply_loop_history fuel w number tid status e bundle reason index blen pos rc w' :
  reply_loop fuel w number tid status e bundle reason index blen pos = Ok (rc, w') ->
  thistory w' = thistory w /\ (rc = 0 \/ rc = -1).
Proof.
  induction fuel as [|fuel IH] in w, index, blen, pos |- *; [done|]. cbn [reply_loop]. intros Hr.
  apply Res_bind_Ok in Hr as ([[cp pos'] blen'] & _ & Hr).
  apply Res_bind_Ok in Hr as (p & _ & Hr).
  destruct (dht_friend_message (dht_state w) number p) as [rc' d].
  destruct (rc' <? 0); [unfold fails in Hr; injection Hr as <- <-; by split; [|right]|].
  destruct (_ >? 0); [by apply IH in Hr|]. injection Hr as <- <-. by split; [|left].
Qed.

Lemma reply_failure w to bundle status reason data rc w' :
  ela_reply_friend_invite w to bundle status reason data = Ok (rc, w') -> rc <> 0 ->
  rc = -1 /\ thistory w' = thistory w.
Proof.
  unfold ela_reply_friend_invite, fails. intros Hr Hne.
  repeat (case_match; [by simplify_eq|]). apply Res_bind_Ok in Hr as ([code|[n e]] & _ & Hr);
    [by simplify_eq|].
  apply Res_bind_Ok in Hr as (tid & _ & Hr). case_match; [by simplify_eq|].
  apply Res_bind_Ok in Hr as ([rc1 w1] & Hloop & Hr).
  apply reply_loop_history in Hloop as [Hh Hrc1].
  case_match; [by simplify_eq; destruct Hrc1|].
  apply Res_bind_Ok in Hr as (w2 & _ & Hr). by simplify_eq.
Qed.

(** The packets delivered in order. *)
Lemma reply_delivered w to bundle status reason data w' tid wr number u tcb :
  is_i64 tid -> is_i32 status -> transaction_history_get_invite (or_empty to) w = Ok tid ->
  ela_reply_friend_invite w to bundle status reason data = Ok (0, w') ->
  knows wr number u -> ht_get (tcallbacks wr) tid = Some tcb ->
  ht_get (tassembly_irsps wr) tid = None ->
  exists n packets rc, send_packets (dht_state w) n packets = (rc, dht_state w') /\ 0 <= rc /\
    forall times, length times = length packets ->
      exists t, deliver wr number (zip times packets) =
          Ok (answered wr tcb u tid bundle status reason (default [] data) t) /\
        same_entries t (tassembly_irsps wr).
Proof.
  intros Hi64 Hi32 Hhist Hcall Hk Htcb Hfresh.
  destruct (ela_reply_friend_invite_spec _ _ _ _ _ _ _ Hcall)
    as (n & e & tid' & packets & rc & d & Hpeer & Hhist' & _ & Hrm & Hsend & Hrc & Hbl & Hcase).
  rewrite Hhist in Hhist'. injection Hhist' as <-.
  destruct (check_peer_inr _ _ _ _ Hpeer) as (He & _).
  assert (dht_state w' = d) as Hd.
  { unfold transaction_history_remove_invite in Hrm. res_inv. by subst. }
  exists n, packets, rc. rewrite Hd. split_and!; try done. intros times Htimes.
  pose proof (strlen_nonneg (or_empty bundle)).
  destruct Hcase as [(-> & -> & bytes & cs & -> & Hne & Hlen & Hcs & Henc)
                    |(Hst & -> & r & p & -> & -> & Hp)].
  - eapply deliver_responses; [exact Hk|exact He|exact Hi64|exact Htcb| | |exact Hcs|exact Henc|done|done].
    + split; [by apply length_pos|done].
    + lia.
  - destruct times as [|now [|]]; [done| |done]. cbn [zip_with deliver].
    erewrite deliver_refusal by done. by eexists.
Qed.

(** C2. The round trip of a reply.  When [ela_reply_friend_invite] returns 0, the
    packets it handed to the DHT, delivered in order to the inviter at whatever
    times, call the callback of the transaction once, with the status, the bundle
    and either exactly the bytes that were sent or the reason of the refusal; the
    transaction is gone and no fragment of it is left. *)
Theorem reply_roundtrip w to bundle status reason data w' tid wr number u tcb :
  is_i64 tid -> is_i32 status -> transaction_history_get_invite (or_empty to) w = Ok tid ->
  ela_reply_friend_invite w to bundle status reason data = Ok (0, w') ->
  knows wr number u -> ht_get (tcallbacks wr) tid = Some tcb ->
  ht_get (tassembly_irsps wr) tid = None ->
  exists n packets rc, send_packets (dht_state w) n packets = (rc, dht_state w') /\ 0 <= rc /\
    forall times, length times = length packets ->
      exists t, deliver wr number (zip times packets) =
          Ok (answered wr tcb u tid bundle status reason (default [] data) t) /\
        same_entries t (tassembly_irsps wr).
Proof. apply reply_delivered. Qed.

(** An invitation is answered at most once.  A reply that succeeds answers a
    pending invitation and forgets it, so that every further reply to the same
    peer fails until that peer invites again; a reply that fails keeps the
    invitation pending. *)
Theorem reply_once w to bundle status reason data rc w' :
  ela_reply_friend_invite w to bundle status reason data = Ok (rc, w') ->
  (rc = 0 /\
     (exists tid, tid <> 0 /\ transaction_history_get_invite (or_empty to) w = Ok tid) /\
     forall bundle' status' reason' data' w'',
       ela_reply_friend_invite w' to bundle' status' reason' data' <> Ok (0, w'')) \/
  (rc = -1 /\ thistory w' = thistory w).
Proof.
  intros Hcall. destruct (decide (rc = 0)) as [->|Hrc]; [left|right].
  - destruct (ela_reply_friend_invite_spec _ _ _ _ _ _ _ Hcall)
      as (n & e & tid & packets & rc & d & _ & Hhist & Hne & Hrm & _).
    split_and!; [done|by exists tid|]. intros b' s' r' d' w'' Hagain.
    destruct (ela_reply_friend_invite_spec _ _ _ _ _ _ _ Hagain)
      as (? & ? & tid' & ? & ? & ? & _ & Hhist' & Hne' & _).
    rewrite (history_removed _ _ _ Hrm) in Hhist'. congruence.
  - by apply reply_failure in Hcall.
Qed.

(** A reply completes a transaction once.  Whatever reply packet arrives from
    a friend, the application is called back only for a transaction it started
    and that is still pending, at most once per packet, and the transaction is
    gone afterwards; a packet for any other transaction changes nothing. *)
Theorem response_completes_once now w number cp w' :
  handle_invite_response now w number cp = Ok w' ->
  (exists tid tcb u bundle status reason data len,
     elacp_get_tid cp = Ok tid /\ ht_get (tcallbacks w) tid = Some tcb /\
     events w' = EvInviteResponse (tcb_callback_func tcb) (tcb_callback_context tcb) u bundle
                   status reason data len :: events w /\
     same_entries (tcallbacks w') (ht_remove tid (tcallbacks w))) \/
  (events w' = events w /\ tcallbacks w' = tcallbacks w /\
     forall tid, elacp_get_tid cp = Ok tid -> ht_get (tcallbacks w) tid = None -> w' = w).
Proof.
  unfold handle_invite_response. intros Hr. res_inv.
  destruct x1 as [fi|]; [|by right; simplify_eq]. res_inv.
  match goal with Ht : elacp_get_tid cp = Ok ?t |- _ => rename t into tid; rename Ht into Htid end.
  destruct (ht_get (tcallbacks w) tid) as [tcb|] eqn:Htcb; [|by right; simplify_eq].
  res_inv. rename select ((_ * _ * _)%type) into payload. destruct payload as [[reason data] len].
  rename select (_ = Ok w') into Hr.
  assert (forall t, elacp_get_tid cp = Ok t -> ht_get (tcallbacks w) t <> None) as Hpending
    by (intros t Ht; congruence).
  case_match; [right; simplify_eq; split_and!; naive_solver|].
  apply Res_bind_Ok in Hr as ([irsp need] & _ & Hr).
  case_match; [right; simplify_eq; split_and!; naive_solver|].
  apply Res_bind_Ok in Hr as (irsp' & _ & Hr).
  case_match; injection Hr as <-.
  - left. do 8 eexists. split_and!; [exact Htid|exact Htcb| |]; by destruct need.
  - right. split_and!; [done|done|]. intros t Ht Hnone. by destruct (Hpending t Ht).
Qed.
End Reply.

(** ** Alice invites Bob and Bob replies *)

(** The packets a node sent, oldest first. *)
Definition sent (w : ElaCarrier sdht) : list fbpacket := reverse (sd_sent (dht_state w)).*2.

Definition bob_invited : ElaCarrier sdht :=
  run (deliver bob 9 ((fun p => (2000, p)) <$> sent alice_inviting)) bob.
Definition bob_accepts : Res (Z * ElaCarrier sdht) :=
  ela_reply_friend_invite bob_invited (Some alice_id) None 0 None (Some (some_bytes 1500)).
Definition bob_accepted : ElaCarrier sdht := (run bob_accepts (0, bob)).2.
Definition alice_answered : ElaCarrier sdht :=
  run (deliver alice_inviting 5 ((fun p => (3000, p)) <$> sent bob_accepted)) alice.

(** The whole exchange: one event on each side, and no transaction left. *)
Example invite_and_reply :
  events bob_invited = [EvFriendInvite false alice_id (Some "bundle"%string) (some_bytes 1300) 1300] /\
  events alice_answered = [EvInviteResponse 7 8 bob_id None 0 None (some_bytes 1500) 1500] /\
  ht_get (tcallbacks alice_answered) 42 = None /\
  transaction_history_get_invite alice_id bob_accepted = Ok 0.
Proof. by vm_compute. Qed.

Lemma alice_knows_bob : knows alice_inviting 5 bob_id.
Proof. split_and!; [done|done|]. exists (new_friend bob_id 5). by vm_compute. Qed.

Lemma reply_roundtrip_witness :
  bob_accepts = Ok (0, bob_accepted) /\
  exists n packets rc, send_packets (dht_state bob_invited) n packets = (rc, dht_state bob_accepted) /\
    0 <= rc /\
    forall times, length times = length packets ->
      exists t, deliver alice_inviting 5 (zip times packets) =
          Ok (answered alice_inviting alice_tcb bob_id 42 None 0 None (some_bytes 1500) t) /\
        same_entries t (tassembly_irsps alice_inviting).
Proof.
  assert (bob_accepts = Ok (0, bob_accepted)) as Hcall by (vm_compute; reflexivity).
  split; [exact Hcall|].
  apply (reply_roundtrip bob_invited (Some alice_id) None 0 None (Some (some_bytes 1500)) bob_accepted
    42 alice_inviting 5 bob_id alice_tcb); [machine_int|machine_int|by vm_compute|exact Hcall| | |].
  - apply alice_knows_bob.
  - by vm_compute.
  - by vm_compute.
Defined.

Lemma reply_once_witness :
  bob_accepts = Ok (0, bob_accepted) /\
  ((0 = 0 /\
     (exists tid, tid <> 0 /\ transaction_history_get_invite alice_id bob_invited = Ok tid) /\
     forall bundle' status' reason' data' w'',
       ela_reply_friend_invite bob_accepted (Some alice_id) bundle' status' reason' data'
         <> Ok (0, w'')) \/
   (0 = -1 /\ thistory bob_accepted = thistory bob_invited)).
Proof.
  assert (bob_accepts = Ok (0, bob_accepted)) as Hcall by (vm_compute; reflexivity).
  split; [exact Hcall|].
  exact (reply_once bob_invited (Some alice_id) None 0 None (Some (some_bytes 1500)) 0 bob_accepted Hcall).
Defined.

(** A refusal of Alice's invitation. *)
Definition bob_refuses : ElaCP := refusal 42 3 None None "busy".
Definition alice_refused : ElaCarrier sdht :=
  run (handle_invite_response 3000 alice_inviting 5 bob_refuses) alice.

Lemma response_completes_once_witness :
  handle_invite_response 3000 alice_inviting 5 bob_refuses = Ok alice_refused /\
  ((exists tid tcb u bundle status reason data len,
     elacp_get_tid bob_refuses = Ok tid /\ ht_get (tcallbacks alice_inviting) tid = Some tcb /\
     events alice_refused = EvInviteResponse (tcb_callback_func tcb) (tcb_callback_context tcb) u
                   bundle status reason data len :: events alice_inviting /\
     same_entries (tcallbacks alice_refused) (ht_remove tid (tcallbacks alice_inviting))) \/
  (events alice_refused = events alice_inviting /\
     tcallbacks alice_refused = tcallbacks alice_inviting /\
     forall tid, elacp_get_tid bob_refuses = Ok tid ->
       ht_get (tcallbacks alice_inviting) tid = None -> alice_refused = alice_inviting)).
Proof.
  assert (handle_invite_response 3000 alice_inviting 5 bob_refuses = Ok alice_refused) as Hr
    by (vm_compute; reflexivity).
  split; [exact Hr|]. exact (response_completes_once 3000 alice_inviting 5 bob_refuses alice_refused Hr).
Defined.
