(* ===== verification/InviteSafety.v ===== *)
(** * Safety of the invitation handlers

    Whatever packet a friend sends, the handlers of invitations and replies keep
    the node's invariant and write inside their buffers; the packets they fault on
    are characterised exactly. *)

From S2P Require Import Prelude ElaError ElaCP Carrier Sample Invite InviteProps.

(** ** Safety against any packet *)

Section Safety.
Context `{!HashTables} {L : HashTablesLaws _} `{!Base58} {dht buffer : Type}
  `{!Dht dht buffer, !FlatBuffers buffer}.
Implicit Types w wr : ElaCarrier dht.

(** An assembly whose buffer has the size it says and whose cursor is inside. *)
Definition filling (ta : TransactedAssembly) : Prop :=
  Z.of_nat (length (ta_data ta)) = ta_data_len ta /\
  0 <= ta_data_off ta <= ta_data_len ta /\ ta_data_len ta <= ELA_MAX_INVITE_DATA_LEN /\
  strlen (ta_ext ta) <= ELA_MAX_EXTENSION_NAME_LEN.

(** Assemblies that are kept lack at least one byte. *)
Definition open_assembly (ta : TransactedAssembly) : Prop :=
  filling ta /\ ta_data_off ta < ta_data_len ta.

Definition open_assemblies (t : hashtable Z TransactedAssembly) : Prop :=
  forall tid ta, ht_get t tid = Some ta -> open_assembly ta.

(** The invariant: open assemblies only, and identifiers of at most 44 characters. *)
Definition node_ok w : Prop :=
  open_assemblies (tassembly_ireqs w) /\ open_assemblies (tassembly_irsps w) /\
  forall n fi, ht_get (friends w) n = Some fi -> strlen (userid (user_info (info fi))) <= 44.

Lemma open_put t tid ta : open_assembly ta -> open_assemblies t -> open_assemblies (ht_put tid ta t).
Proof. intros Ha Ht k ta'. rewrite ht_get_put. case_decide; [naive_solver|apply Ht]. Qed.

Lemma open_remove t tid : open_assemblies t -> open_assemblies (ht_remove tid t).
Proof. intros Ht k ta'. rewrite ht_get_remove. case_decide; [done|apply Ht]. Qed.

Lemma append_filling ta data :
  filling ta -> fits ta (Z.of_nat (length data)) = true ->
  exists ta', append_fragment ta data = Ok ta' /\ filling ta' /\ ta_ext ta' = ta_ext ta /\
    ta_bundle ta' = ta_bundle ta /\ ta_data_len ta' = ta_data_len ta.
Proof.
  intros (Hl & Ho & Hm & He) Hf. unfold fits, ELA_MAX_INVITE_DATA_LEN in *.
  apply andb_true_iff in Hf as [H1 H2]. rewrite negb_true_iff in H1, H2.
  rewrite Z.gtb_ltb in H2. apply Z.ltb_ge in H1, H2.
  assert (ta_data_off ta + Z.of_nat (length data) <= ta_data_len ta) as Hfit.
  { destruct (Z.le_gt_cases (2 ^ 64) (ta_data_off ta + Z.of_nat (length data))) as [Hge|Hlt].
    - revert H1 H2 Hge. machine_int.
    - by rewrite u64_small in H2 by lia. }
  unfold append_fragment. rewrite Hl, (proj2 (Z.leb_le _ _)) by done.
  eexists; split; [reflexivity|]. unfold filling. cbn.
  rewrite length_splice, u64_small by lia. unfold ELA_MAX_INVITE_DATA_LEN in *. split_and!; try done; lia.
Qed.

(** What a handler faults on: an extension name that is too long for the assembly,
    transaction zero, a refusal without a reason. *)
Definition bad_packet (cp : ElaCP) (f : fault) : Prop :=
  f = BufferOverflow /\ ELA_MAX_EXTENSION_NAME_LEN < strlen (or_empty (ext cp)) \/
  f = AssertFailed /\ elacp_get_tid cp = Ok 0 /\ elacp_get_type cp = ELACP_TYPE_INVITE_REQUEST \/
  f = NullDeref /\ elacp_get_reason cp = Ok None.

(** The unsigned fields of the schema. *)
Definition well_typed (cp : ElaCP) : Prop :=
  match body cp with
  | InviteReq q => 0 <= iq_totalsz q
  | InviteRsp r => 0 <= is_totalsz r
  | _ => True
  end.

Lemma ends_get_assembly found now u cp tid b r total :
  strlen u <= 44 -> (forall ta, found = Some ta -> open_assembly ta) -> 0 <= total ->
  (found = None -> total <= ELA_MAX_INVITE_DATA_LEN) ->
  ends (fun '(ta, need) => filling ta) (bad_packet cp)
    (get_assembly found now u (ext cp) tid b r total).
Proof.
  intros Hu Hf Ht Hm. destruct found as [ta|]; cbn; [by apply Hf|].
  eapply ends_bind; [apply ends_strcpy|].
  - intros Hl. left. unfold ELA_MAX_EXTENSION_NAME_LEN in *. split; [done|lia].
  - intros e _ [-> He]. rewrite strcpy_Ok by (unfold ELA_MAX_ID_LEN; lia). cbn.
    unfold filling. cbn. rewrite length_zeroed. specialize (Hm eq_refl).
    unfold ELA_MAX_EXTENSION_NAME_LEN in *. split_and!; lia.
Qed.

Lemma ends_friends_get w number bad :
  number <> UINT32_MAX ->
  ends (fun fi => forall f, fi = Some f -> ht_get (friends w) number = Some f) bad
    (friends_get w number).
Proof. intros Hn. unfold friends_get. rewrite (proj2 (Z.eqb_neq _ _)) by done. by intros ? ->. Qed.

Lemma node_ok_requests w t :
  node_ok w -> open_assemblies t -> node_ok { w with tassembly_ireqs := t }.
Proof. intros (_ & H2 & H3) Ht. by split_and!. Qed.
Lemma node_ok_responses w t :
  node_ok w -> open_assemblies t -> node_ok { w with tassembly_irsps := t }.
Proof. intros (H1 & _ & H3) Ht. by split_and!. Qed.

(** The end of a completed invitation keeps the invariant. *)
Lemma invited_ok w w' :
  node_ok w -> tassembly_ireqs w' = tassembly_ireqs w -> tassembly_irsps w' = tassembly_irsps w ->
  friends w' = friends w -> node_ok w'.
Proof. unfold node_ok. by intros ? -> -> ->. Qed.

Lemma same_sender_ext ta name u :
  same_sender ta (Some name) u = true -> name = ta_ext ta.
Proof. intros [Hn%str_eqb_eq _]%andb_true_iff. done. Qed.

Lemma request_complete_ends w friendid cp tid need ta :
  node_ok w -> strlen friendid <= 44 -> strlen (or_empty (ext cp)) <= ELA_MAX_EXTENSION_NAME_LEN ->
  elacp_get_tid cp = Ok tid -> elacp_get_type cp = ELACP_TYPE_INVITE_REQUEST ->
  ends node_ok (bad_packet cp)
    (from ← strcpy KEY_SIZE (match ext cp with
                             | Some name => friendid +:+ ":" +:+ name | None => friendid end);
     w ← transaction_history_put_invite from tid w;
     let w := invite_callback friendid (ext cp) ta w in
     Ok (remove_ireq need tid w)).
Proof.
  intros Hok Hu He Htid Htype. pose proof (from_name_length friendid (ext cp) Hu He) as Hfl.
  fold (from_name friendid (ext cp)).
  rewrite strcpy_Ok by (unfold KEY_SIZE, ELA_MAX_ID_LEN, ELA_MAX_EXTENSION_NAME_LEN; lia).
  cbn [mbind Res_bind]. eapply (ends_bind node_ok).
  - unfold transaction_history_put_invite. eapply ends_bind; [apply ends_assert|].
    + intros Hz%negb_false_iff%Z.eqb_eq. right; left. by subst tid.
    + intros _ _ _. unfold invite_key.
      rewrite strcpy_Ok by (rewrite strlen_app; change (strlen "ir_") with 3;
        unfold KEY_SIZE, ELA_MAX_ID_LEN, ELA_MAX_EXTENSION_NAME_LEN; lia).
      cbn. exact (invited_ok w _ Hok eq_refl eq_refl eq_refl).
  - intros w' _ Hok'. cbn.
    assert (node_ok (invite_callback friendid (ext cp) ta w')) as Hcb.
    { unfold invite_callback, emit_if, emit. repeat case_match; done. }
    unfold remove_ireq. destruct need; [done|]. apply (node_ok_requests _ _ Hcb).
    apply open_remove, Hcb.
Qed.

(** Handling an invitation's packet, whatever it carries. *)
Lemma request_ends now w number cp :
  node_ok w -> number <> UINT32_MAX -> elacp_get_type cp = ELACP_TYPE_INVITE_REQUEST ->
  well_typed cp -> ends node_ok (bad_packet cp) (handle_invite_request now w number cp).
Proof.
  intros Hok Hn Htype Hwt. unfold handle_invite_request.
  rewrite (proj2 (Z.eqb_neq _ _) Hn), Htype, Z.eqb_refl. cbn [negb c_assert mbind Res_bind].
  eapply ends_bind; [by apply ends_friends_get|]. intros [fi|] _ Hfi; [|done].
  assert (strlen (userid (user_info (info fi))) <= 44) as Hu by (eapply Hok, Hfi, eq_refl).
  set (u := userid (user_info (info fi))) in *.
  rewrite strcpy_Ok by (unfold ELA_MAX_ID_LEN; lia). cbn [mbind Res_bind].
  destruct cp as [e [| | |q|]]; try discriminate Htype.
  cbn [elacp_get_bundle elacp_get_raw_data elacp_get_raw_data_length elacp_get_tid
    elacp_get_totalsz mbind Res_bind body elacp_get_extension ext].
  set (cp := {| ext := e; body := InviteReq q |}) in *.
  destruct (negb _ && _) eqn:Hg; [done|].
  eapply ends_bind.
  { apply (ends_get_assembly _ now u cp); [done| |done|].
    - intros ta. apply Hok.
    - intros Hnone. rewrite Hnone in Hg. cbn in Hg. apply orb_false_iff in Hg as [_ Hg].
      rewrite Z.gtb_ltb in Hg. by apply Z.ltb_ge in Hg. }
  intros [ta need] Hget Hta.
  destruct (negb _ || _ || _ || _) eqn:Hc; [done|].
  apply orb_false_iff in Hc as [[[Hsame Hz]%orb_false_iff Hunit]%orb_false_iff Hfits].
  rewrite negb_false_iff in Hsame, Hfits. apply Z.eqb_neq in Hz.
  destruct (iq_data q) as [bytes|]; [|done]. cbn [deref mbind Res_bind].
  destruct (append_filling ta bytes Hta Hfits) as (ta' & -> & Hta' & Hext & _).
  cbn [mbind Res_bind]. destruct (Z.eqb_spec (ta_data_off ta') (ta_data_len ta')) as [|Hne].
  - apply (request_complete_ends w u cp); try done. cbn. destruct e as [e|]; [|done].
    rewrite (same_sender_ext _ _ _ Hsame). apply Hta.
  - apply (node_ok_requests _ _ Hok). apply open_put; [|apply Hok].
    split; [done|]. destruct Hta' as (_ & ? & _). lia.
Qed.

(** The payload of a reply: data, or the reason of a refusal. *)
Lemma ends_response_payload cp r st bad :
  body cp = InviteRsp r -> (is_reason r = None -> bad NullDeref) ->
  ends (fun '(reason, data, len) => len = Z.of_nat (length (default [] data))) bad
    (response_payload cp st).
Proof.
  intros Hb Hr. unfold response_payload, elacp_get_reason, elacp_get_raw_data_length,
    elacp_get_raw_data. rewrite Hb. destruct (negb (st =? 0)); cbn; [|by destruct (is_data r)].
  destruct (is_reason r); cbn; auto.
Qed.

(** Handling a reply's packet, whatever it carries. *)
Lemma response_ends now w number cp :
  node_ok w -> number <> UINT32_MAX -> elacp_get_type cp = ELACP_TYPE_INVITE_RESPONSE ->
  well_typed cp -> ends node_ok (bad_packet cp) (handle_invite_response now w number cp).
Proof.
  intros Hok Hn Htype Hwt. unfold handle_invite_response.
  rewrite (proj2 (Z.eqb_neq _ _) Hn), Htype, Z.eqb_refl. cbn [negb c_assert mbind Res_bind].
  eapply ends_bind; [by apply ends_friends_get|]. intros [fi|] _ Hfi; [|done].
  assert (strlen (userid (user_info (info fi))) <= 44) as Hu by (eapply Hok, Hfi, eq_refl).
  set (u := userid (user_info (info fi))) in *.
  rewrite strcpy_Ok by (unfold ELA_MAX_ID_LEN; lia). cbn [mbind Res_bind].
  destruct cp as [e [| | | |r]]; try discriminate Htype.
  cbn [elacp_get_tid mbind Res_bind body]. destruct (ht_get (tcallbacks w) (is_tid r)); [|done].
  cbn [elacp_get_bundle elacp_get_totalsz elacp_get_status mbind Res_bind body
    elacp_get_extension ext].
  set (cp := {| ext := e; body := InviteRsp r |}) in *.
  eapply ends_bind; [apply (ends_response_payload cp r); [done|]|].
  { intros Hr. right; right. split; [done|]. cbn. by rewrite Hr. }
  intros [[reason data] len] _ Hlen.
  destruct (negb _ && _) eqn:Hg; [done|].
  eapply ends_bind.
  { apply (ends_get_assembly _ now u cp); [done| |done|].
    - intros ta. apply Hok.
    - intros Hnone. rewrite Hnone in Hg. cbn in Hg.
      rewrite Z.gtb_ltb in Hg. by apply Z.ltb_ge in Hg. }
  intros [ta need] Hget Hta.
  destruct (negb _ || _ || _) eqn:Hc; [done|].
  apply orb_false_iff in Hc as [_ Hfits]. rewrite negb_false_iff in Hfits.
  eapply (ends_bind filling).
  { destruct data as [bytes|]; [|done]. subst len.
    destruct (append_filling ta bytes Hta Hfits) as (ta' & -> & Hta' & _). done. }
  intros ta' _ Hta'. destruct (Z.eqb_spec (ta_data_off ta') (ta_data_len ta')) as [|Hne].
  - assert (open_assemblies (tassembly_irsps w)) as Hopen by apply Hok.
    unfold remove_irsp. destruct need; [exact Hok|].
    apply (node_ok_responses w _ Hok). by apply open_remove.
  - apply (node_ok_responses _ _ Hok). apply open_put; [|apply Hok].
    split; [done|]. destruct Hta' as (_ & ? & _). lia.
Qed.

Lemma message_ends w number cp :
  node_ok w -> number <> UINT32_MAX -> elacp_get_type cp = ELACP_TYPE_MESSAGE ->
  ends node_ok (bad_packet cp) (handle_friend_message w number cp).
Proof.
  intros Hok Hn Htype. unfold handle_friend_message.
  rewrite (proj2 (Z.eqb_neq _ _) Hn), Htype, Z.eqb_refl. cbn [negb c_assert mbind Res_bind].
  eapply ends_bind; [by apply ends_friends_get|]. intros [fi|] _ Hfi; [|done].
  assert (strlen (userid (user_info (info fi))) <= 44) as Hu by (eapply Hok, Hfi, eq_refl).
  rewrite strcpy_Ok by (unfold ELA_MAX_ID_LEN; lia). cbn [mbind Res_bind].
  destruct cp as [e [| |m| |]]; try discriminate Htype.
  cbn. unfold emit_if, emit. by case_match.
Qed.

(** C3. Memory safety and invariant of message handling.  Whatever bytes a friend
    sends, handling them keeps the node's invariant: every assembly that is kept
    has a buffer of the announced size, at most 8192 bytes, with the cursor
    strictly inside.  The handler faults only when the packet does not decode,
    when its extension name is longer than the 31 characters the assembly has
    room for, when an invitation's transaction id is zero, or when a refusal has
    no reason. *)
Theorem message_handling_safe now w number (message : buffer) :
  node_ok w -> number <> UINT32_MAX ->
  (forall cp, elacp_decode message = Ok (Some cp) -> well_typed cp) ->
  match notify_friend_message_cb now w number message with
  | Ok w' => node_ok w'
  | Fault f => elacp_decode message = Fault f \/
               exists cp, elacp_decode message = Ok (Some cp) /\ bad_packet cp f
  end.
Proof.
  intros Hok Hn Hwt. unfold notify_friend_message_cb.
  destruct (elacp_decode message) as [[cp|]|f]; cbn [mbind Res_bind]; [|done|by left].
  specialize (Hwt cp eq_refl).
  assert (forall m : Res (ElaCarrier dht), ends node_ok (bad_packet cp) m ->
    match m with
    | Ok w' => node_ok w'
    | Fault f => Ok (Some cp) = Fault f \/ exists cp', Ok (Some cp) = Ok (Some cp') /\ bad_packet cp' f
    end) as Hm by (intros [|]; cbn; eauto).
  apply Hm.
  destruct (body cp) eqn:Hb; try exact Hok;
    [apply message_ends|apply request_ends|apply response_ends]; try done;
    unfold elacp_get_type; by rewrite Hb.
Qed.
End Safety.

(** ** Separation of transactions *)

Section Isolation.
Context `{!HashTables} {L : HashTablesLaws _} `{!Base58} {dht buffer : Type}
  `{!Dht dht buffer, !FlatBuffers buffer}.
Implicit Types w wr : ElaCarrier dht.

(** Tables that agree but for one transaction. *)
Definition agree_but (tid : Z) (t t' : hashtable Z TransactedAssembly) : Prop :=
  forall k, k <> tid -> ht_get t' k = ht_get t k.

Lemma agree_put tid ta t : agree_but tid t (ht_put tid ta t).
Proof. intros k Hk. by rewrite ht_get_put_ne. Qed.
Lemma agree_remove tid t : agree_but tid t (ht_remove tid t).
Proof. intros k Hk. by rewrite ht_get_remove_ne. Qed.
#[local] Hint Resolve agree_put agree_remove : core.

(** An assembly in the table [t] that another friend than [number] started. *)
Definition foreign w (t : hashtable Z TransactedAssembly) (number tid : Z) : Prop :=
  exists ta fi, ht_get t tid = Some ta /\ ht_get (friends w) number = Some fi /\
    ta_friendid ta <> userid (user_info (info fi)).

Lemma foreign_not_same w t number tid ta fi name :
  foreign w t number tid -> ht_get t tid = Some ta -> ht_get (friends w) number = Some fi ->
  same_sender ta name (userid (user_info (info fi))) = false.
Proof.
  intros (ta' & fi' & Hta' & Hfi' & Hne) Hta Hfi. simplify_eq. apply andb_false_iff. right.
  by apply str_eqb_neq.
Qed.

Lemma get_assembly_found ta now u name tid b r total x need :
  get_assembly (Some ta) now u name tid b r total = Ok (x, need) -> x = ta /\ need = false.
Proof. by intros [= <- <-]. Qed.

Lemma friends_get_inv w number fi :
  friends_get w number = Ok fi -> ht_get (friends w) number = fi.
Proof. unfold friends_get. intros Hr. res_inv. by subst. Qed.

Lemma request_isolated now w number cp w' tid :
  handle_invite_request now w number cp = Ok w' -> elacp_get_tid cp = Ok tid ->
  agree_but tid (tassembly_ireqs w) (tassembly_ireqs w') /\ tassembly_irsps w' = tassembly_irsps w /\
  (foreign w (tassembly_ireqs w) number tid -> w' = w).
Proof.
  unfold handle_invite_request. intros Hr Htid. rewrite Htid in Hr. res_inv.
  rename select (friends_get _ _ = _) into Hfi. apply friends_get_inv in Hfi.
  case_match; [|by simplify_eq]. res_inv.
  rename select (strcpy _ _ = Ok _) into Hcp. apply strcpy_inv in Hcp as [-> _].
  match goal with Ht : tid = ?t |- _ => subst t end.
  rename select (_ = Ok w') into Hr. case_match; [by simplify_eq|].
  apply Res_bind_Ok in Hr as ([ta need] & Hget & Hr).
  assert (foreign w (tassembly_ireqs w) number tid ->
    negb (same_sender ta (elacp_get_extension cp) (userid (user_info (info f)))) = true) as Hforeign.
  { intros Hf. pose proof Hf as (ta' & fi' & Hta' & _). rewrite Hta' in Hget.
    apply get_assembly_found in Hget as [-> _]. by rewrite (foreign_not_same _ _ _ _ _ _ _ Hf Hta' Hfi). }
  destruct (negb (same_sender _ _ _)); [by simplify_eq/=|]. cbn [orb] in Hr.
  case_match; [by simplify_eq|]. res_inv.
  assert (foreign w (tassembly_ireqs w) number tid -> w' = w) by (intros ?; naive_solver).
  rename select (_ = Ok w') into Hr. case_match; [|injection Hr as <-; by split_and!; cbn; auto].
  apply Res_bind_Ok in Hr as (from & _ & Hr). apply Res_bind_Ok in Hr as (w1 & Hput & Hr).
  unfold transaction_history_put_invite in Hput. res_inv. subst w1 w'. clear Hforeign.
  split_and!; [| |done]; unfold remove_ireq, invite_callback, emit_if, emit;
    repeat case_match; cbn; auto; by intros ??.
Qed.

Lemma response_isolated now w number cp w' tid :
  handle_invite_response now w number cp = Ok w' -> elacp_get_tid cp = Ok tid ->
  agree_but tid (tassembly_irsps w) (tassembly_irsps w') /\ tassembly_ireqs w' = tassembly_ireqs w /\
  (foreign w (tassembly_irsps w) number tid -> w' = w).
Proof.
  unfold handle_invite_response. intros Hr Htid. rewrite Htid in Hr. res_inv.
  rename select (friends_get _ _ = _) into Hfi. apply friends_get_inv in Hfi.
  case_match; [|by simplify_eq]. res_inv.
  rename select (strcpy _ _ = Ok _) into Hcp. apply strcpy_inv in Hcp as [-> _].
  match goal with Ht : tid = ?t |- _ => subst t end.
  rename select (_ = Ok w') into Hr. case_match; [|by simplify_eq]. res_inv.
  rename select ((_ * _ * _)%type) into payload. destruct payload as [[reason data] len].
  rename select (_ = Ok w') into Hr. case_match; [by simplify_eq|].
  apply Res_bind_Ok in Hr as ([ta need] & Hget & Hr).
  assert (foreign w (tassembly_irsps w) number tid ->
    negb (same_sender ta (elacp_get_extension cp) (userid (user_info (info f)))) = true) as Hforeign.
  { intros Hf. pose proof Hf as (ta' & fi' & Hta' & _). rewrite Hta' in Hget.
    apply get_assembly_found in Hget as [-> _]. by rewrite (foreign_not_same _ _ _ _ _ _ _ Hf Hta' Hfi). }
  destruct (negb (same_sender _ _ _)); [by simplify_eq/=|]. cbn [orb] in Hr.
  case_match; [by simplify_eq|].
  apply Res_bind_Ok in Hr as (ta' & _ & Hr).
  assert (foreign w (tassembly_irsps w) number tid -> w' = w) by (intros ?; naive_solver).
  case_match; injection Hr as <-; destruct need; (split_and!; [|done|done]); cbn; auto; by intros ??.
Qed.
End Isolation.

Section Isolated.
Context `{!HashTables} {L : HashTablesLaws _} `{!Base58} {dht buffer : Type}
  `{!Dht dht buffer, !FlatBuffers buffer}.
Implicit Types w wr : ElaCarrier dht.

(** Transactions do not interfere.  A packet of one transaction leaves the
    assemblies of every other transaction as they are, in both tables, and a
    packet from one friend for a transaction that another friend started changes
    nothing at all. *)
Theorem transactions_isolated now w number cp w' tid :
  elacp_get_tid cp = Ok tid ->
  (handle_invite_request now w number cp = Ok w' ->
     agree_but tid (tassembly_ireqs w) (tassembly_ireqs w') /\
     tassembly_irsps w' = tassembly_irsps w /\
     (foreign w (tassembly_ireqs w) number tid -> w' = w)) /\
  (handle_invite_response now w number cp = Ok w' ->
     agree_but tid (tassembly_irsps w) (tassembly_irsps w') /\
     tassembly_ireqs w' = tassembly_ireqs w /\
     (foreign w (tassembly_irsps w) number tid -> w' = w)).
Proof.
  intros Htid. split; intros Hr; [by eapply request_isolated|by eapply response_isolated].
Qed.

(** ** Expiry *)

Lemma expire_assemblies_get now l (t : hashtable Z TransactedAssembly) k :
  ht_get (expire_assemblies now l t) k =
    if bool_decide (Exists (fun p => p.1 = k /\ ta_expire_time p.2 < now) l)
    then None else ht_get t k.
Proof.
  induction l as [|[tid item] l IH] in t |- *; cbn [expire_assemblies].
  { by rewrite bool_decide_false by (by intros ?%Exists_nil). }
  rewrite IH, Z.gtb_ltb. destruct (Z.ltb_spec (ta_expire_time item) now).
  - rewrite ht_get_remove. case_decide; repeat case_bool_decide; try done;
      rewrite Exists_cons in *; cbn in *; tauto.
  - repeat case_bool_decide; try done; rewrite Exists_cons in *; cbn in *; intuition lia.
Qed.

(** Expiry of assemblies: exactly those whose deadline has passed go, the
    others stay as they are. *)
Theorem assemblies_expire now (t : hashtable Z TransactedAssembly) tid :
  ht_get (do_tassemblies_expire now t) tid =
    match ht_get t tid with
    | Some ta => if ta_expire_time ta <? now then None else Some ta
    | None => None
    end.
Proof.
  unfold do_tassemblies_expire. rewrite expire_assemblies_get. destruct (ht_get t tid) as [ta|] eqn:Ht.
  - destruct (Z.ltb_spec (ta_expire_time ta) now).
    + rewrite bool_decide_true; [done|]. apply Exists_exists. exists (tid, ta).
      by rewrite ht_items_get.
    + rewrite bool_decide_false; [done|]. intros ([k ta'] & Hin & Heq & Hlt)%Exists_exists.
      apply ht_items_get in Hin. cbn in *. simplify_eq. lia.
  - by case_bool_decide.
Qed.

(** What the application is told when a transaction times out. *)
Definition timeout_event w (tcb : TransactedCallback) : list carrier_event :=
  match ht_get (friends w) (tcb_friend_number tcb) with
  | Some fi => [EvInviteResponse (tcb_callback_func tcb) (tcb_callback_context tcb)
                  (userid (user_info (info fi))) (tcb_bundle tcb) ELA_STATUS_TIMEOUT
                  (Some "timeout"%string) [] 0]
  | None => []
  end.

Definition timeout_events (now : Z) w (l : list (Z * TransactedCallback)) : list carrier_event :=
  flat_map (fun p => if tcb_expire_time p.2 <? now then timeout_event w p.2 else []) l.

Lemma transacted_callback_expire_spec tcb w :
  tcb_friend_number tcb <> UINT32_MAX ->
  (forall n fi, ht_get (friends w) n = Some fi -> strlen (userid (user_info (info fi))) <= 44) ->
  transacted_callback_expire tcb w = Ok { w with events ::= app (timeout_event w tcb) }.
Proof.
  intros Hn Hids. unfold transacted_callback_expire, friends_get, timeout_event.
  rewrite (proj2 (Z.eqb_neq _ _) Hn). cbn.
  destruct (ht_get (friends w) (tcb_friend_number tcb)) as [fi|] eqn:Hfi; [|by destruct w].
  by rewrite strcpy_Ok by (apply Hids in Hfi; unfold ELA_MAX_ID_LEN; lia).
Qed.

Lemma check_callbacks_spec now l w :
  Forall (fun p => tcb_friend_number p.2 <> UINT32_MAX) l ->
  (forall n fi, ht_get (friends w) n = Some fi -> strlen (userid (user_info (info fi))) <= 44) ->
  exists t, check_callbacks now l w =
      Ok { w with tcallbacks := t; events ::= app (reverse (timeout_events now w l)) } /\
    forall k, ht_get t k = if bool_decide (Exists (fun p => p.1 = k /\ tcb_expire_time p.2 < now) l)
                           then None else ht_get (tcallbacks w) k.
Proof.
  intros Hl Hids. induction Hl as [|[tid tcb] l Hn Hl IH] in w, Hids |- *; cbn [check_callbacks].
  { exists (tcallbacks w). split; [by destruct w|]. intros k.
    by rewrite bool_decide_false by (by intros ?%Exists_nil). }
  rewrite Z.gtb_ltb. destruct (Z.ltb_spec (tcb_expire_time tcb) now) as [Hlt|Hge].
  - rewrite transacted_callback_expire_spec by done. cbn [mbind Res_bind].
    edestruct IH as (t & -> & Ht); [exact Hids|]. exists t. split.
    + assert (reverse (timeout_events now w ((tid, tcb) :: l)) =
        reverse (timeout_events now w l) ++ timeout_event w tcb) as ->.
      { unfold timeout_events. cbn [flat_map snd]. rewrite (proj2 (Z.ltb_lt _ _)) by done.
        rewrite reverse_app. f_equal. unfold timeout_event. by case_match. }
      transitivity (Ok { w with tcallbacks := t; events :=
        reverse (timeout_events now w l) ++ timeout_event w tcb ++ events w }); [reflexivity|].
      by rewrite app_assoc.
    + intros k. rewrite Ht. cbn. rewrite ht_get_remove. case_decide; repeat case_bool_decide; try done;
        rewrite Exists_cons in *; cbn in *; tauto.
  - cbn [mbind Res_bind]. edestruct IH as (t & -> & Ht); [exact Hids|]. exists t. split.
    + unfold timeout_events. cbn. by rewrite (proj2 (Z.ltb_ge _ _)) by done.
    + intros k. rewrite Ht. repeat case_bool_decide; try done; rewrite Exists_cons in *; cbn in *;
        intuition lia.
Qed.

(** Expiry of transactions: every transaction whose deadline has passed is
    taken out, the others stay, and the application is told of each expired one
    exactly once, with the timeout status, when the friend number recorded for it
    is that of a friend; nothing else of the node changes. *)
Theorem transactions_expire now w :
  (forall tid tcb, ht_get (tcallbacks w) tid = Some tcb -> tcb_friend_number tcb <> UINT32_MAX) ->
  node_ok w ->
  exists t, do_transacted_callabcks_check now w =
      Ok { w with tcallbacks := t;
                  events ::= app (reverse (timeout_events now w (ht_items (tcallbacks w)))) } /\
    forall tid, ht_get t tid =
      match ht_get (tcallbacks w) tid with
      | Some tcb => if tcb_expire_time tcb <? now then None else Some tcb
      | None => None
      end.
Proof.
  intros Hn Hok. edestruct (check_callbacks_spec now (ht_items (tcallbacks w)) w) as (t & Hr & Ht).
  - apply Forall_forall. intros [k tcb] Hin%ht_items_get. by eapply Hn.
  - apply Hok.
  - exists t. split; [exact Hr|]. intros tid. rewrite Ht.
    destruct (ht_get (tcallbacks w) tid) as [tcb|] eqn:Htcb; [|by case_bool_decide].
    destruct (Z.ltb_spec (tcb_expire_time tcb) now).
    + rewrite bool_decide_true; [done|]. apply Exists_exists. exists (tid, tcb).
      by rewrite ht_items_get.
    + rewrite bool_decide_false; [done|]. intros ([k tcb'] & Hin & Heq & Hlt)%Exists_exists.
      apply ht_items_get in Hin. cbn in *. simplify_eq. lia.
Qed.
End Isolated.

(** ** Instances and boundary cases *)

Lemma sample_node_ok id peer n refuses : strlen peer <= 44 -> node_ok (sample_node id peer n refuses).
Proof.
  intros Hl. split; [|split]; intros k x Hx; cbn in Hx.
  - by rewrite lookup_empty in Hx.
  - by rewrite lookup_empty in Hx.
  - apply lookup_insert_Some in Hx as [[_ <-]|[_ Hx]]; [done|]. by rewrite lookup_empty in Hx.
Qed.

Definition first_fragment : ElaCP := request 42 None None 10 (some_bytes 4).

Lemma message_handling_safe_witness :
  node_ok bob /\ (9 <> UINT32_MAX) /\
  match notify_friend_message_cb 0 bob 9 (packet first_fragment) with
  | Ok w' => node_ok w'
  | Fault f => elacp_decode (packet first_fragment) = Fault f \/
               exists cp, elacp_decode (packet first_fragment) = Ok (Some cp) /\ bad_packet cp f
  end.
Proof.
  assert (node_ok bob) as Hok by (by apply sample_node_ok).
  split; [exact Hok|split; [done|]].
  apply (message_handling_safe 0 bob 9 (packet first_fragment)); [exact Hok|done|].
  intros cp Hcp. assert (elacp_decode (packet first_fragment) = Ok (Some first_fragment)) as E
    by (vm_compute; reflexivity).
  rewrite E in Hcp. injection Hcp as <-. cbn. lia.
Defined.

Definition long_name : string := "0123456789012345678901234567890123456789".

(** The faults of the handlers are reachable, each by one packet of a friend: an
    extension name of 40 characters overflows the assembly's field, an invitation
    that completes transaction zero fails the history's assertion, and a refusal
    without a reason dereferences a null pointer. *)
Theorem hostile_packets_fault :
  notify_friend_message_cb 0 bob 9 (packet (request 42 (Some long_name) None 10 (some_bytes 4))) =
    Fault BufferOverflow /\
  notify_friend_message_cb 0 bob 9 (packet (request 0 None None 4 (some_bytes 4))) =
    Fault AssertFailed /\
  notify_friend_message_cb 3000 alice_inviting 5 (packet (response 42 1 None None None 0 None)) =
    Fault NullDeref.
Proof. by vm_compute. Qed.

Definition bob_waiting : ElaCarrier sdht := run (handle_invite_request 0 bob 9 first_fragment) bob.

Lemma transactions_isolated_witness :
  elacp_get_tid first_fragment = Ok 42 /\
  handle_invite_request 0 bob 9 first_fragment = Ok bob_waiting /\
  agree_but 42 (tassembly_ireqs bob) (tassembly_ireqs bob_waiting) /\
  tassembly_irsps bob_waiting = tassembly_irsps bob /\
  (foreign bob (tassembly_ireqs bob) 9 42 -> bob_waiting = bob).
Proof.
  assert (handle_invite_request 0 bob 9 first_fragment = Ok bob_waiting) as Hr
    by (vm_compute; reflexivity).
  split; [reflexivity|split; [exact Hr|]].
  exact (proj1 (transactions_isolated 0 bob 9 first_fragment bob_waiting 42 eq_refl) Hr).
Defined.

Lemma assemblies_expire_witness :
  ht_get (do_tassemblies_expire 60000001 (tassembly_ireqs bob_waiting)) 42 = None /\
  is_Some (ht_get (do_tassemblies_expire 60000000 (tassembly_ireqs bob_waiting)) 42).
Proof.
  split; rewrite assemblies_expire; vm_compute; [reflexivity|by eexists].
Defined.

Lemma transactions_expire_witness :
  node_ok alice_inviting /\
  exists t, do_transacted_callabcks_check 1000000000 alice_inviting =
      Ok { alice_inviting with tcallbacks := t;
           events ::= app (reverse (timeout_events 1000000000 alice_inviting
                                      (ht_items (tcallbacks alice_inviting)))) } /\
    forall tid, ht_get t tid =
      match ht_get (tcallbacks alice_inviting) tid with
      | Some tcb => if tcb_expire_time tcb <? 1000000000 then None else Some tcb
      | None => None
      end.
Proof.
  assert (node_ok alice_inviting) as Hok by (by apply (sample_node_ok alice_id bob_id 5 (-1))).
  split; [exact Hok|]. apply transactions_expire; [|exact Hok].
  intros tid tcb Htcb. assert (tcallbacks alice_inviting = {[42 := alice_tcb]}) as E
    by (vm_compute; reflexivity).
  rewrite E in Htcb. cbn in Htcb. apply lookup_singleton_Some in Htcb as [_ <-]. done.
Defined.

(** [ela_invite_friend] never records the friend of a transaction, whose field
    keeps what the allocator left there: with zero the timeout is not reported,
    with the number that means none it fails an assertion. *)
Theorem timeout_is_lost :
  (w ← do_transacted_callabcks_check 1000000000 alice_inviting; Ok (events w)) = Ok [] /\
  ('(_, w) ← ela_invite_friend alice (Some bob_id) None (Some (some_bytes 4)) 7 8 42 UINT32_MAX 1000;
   do_transacted_callabcks_check 1000000000 w) = Fault AssertFailed.
Proof. by vm_compute. Qed.
