(* ===== verification/NodeInv.v ===== *)
(** * The node's invariant over every operation

    The calls of the application, the notifications of the DHT and the timers as
    one step relation, and the invariant that every reachable node satisfies: the
    friend table is indexed by the friends' own numbers, every text fits its field,
    presences are in range, pending transactions are filed under their own id,
    remembered transactions are never zero, and the open assemblies are sound. *)

From S2P Require Import Prelude ElaError ElaCP Carrier Sample CarrierProps.
From S2P Require Import Invite InviteProps InviteReply InviteSafety.

(** What the codec of identifiers promises: 32 bytes are at most 44 characters,
    and a text is the encoding of what it decodes to. *)
Class Base58Laws `{!Base58} := {
  base58_key_length bs : length bs = 32%nat -> strlen (base58_encode bs) <= 44;
  base58_canonical s n bs : base58_decode s n = Some bs -> base58_encode bs = s
}.
Arguments Base58Laws : clear implicits.

(** What the DHT promises: keys have 32 bytes, and no friend has the number that
    means none. *)
Class DhtLaws {dht buffer} `{!Dht dht buffer} := {
  dht_self_key (d : dht) a pk st desc :
    (dht_get_self_info d).2 = (a, pk, st, desc) -> length pk = 32%nat;
  dht_add_number (d : dht) a b rc n d' :
    dht_friend_add d a b = (rc, n, d') -> 0 <= rc -> n <> UINT32_MAX;
  dht_add_norequest_number (d : dht) k rc n d' :
    dht_friend_add_norequest d k = (rc, n, d') -> 0 <= rc -> n <> UINT32_MAX
}.
Arguments DhtLaws dht buffer {_}.

Definition user_ok (ui : ElaUserInfo) : Prop :=
  strlen (userid ui) <= 44 /\ strlen (name ui) <= ELA_MAX_USER_NAME_LEN /\
  strlen (description ui) <= ELA_MAX_USER_DESCRIPTION_LEN /\ strlen (gender ui) <= ELA_MAX_GENDER_LEN /\
  strlen (phone ui) <= ELA_MAX_PHONE_LEN /\ strlen (email ui) <= ELA_MAX_EMAIL_LEN /\
  strlen (region ui) <= ELA_MAX_REGION_LEN.

Definition info_ok (i : ElaFriendInfo) : Prop :=
  user_ok (user_info i) /\ strlen (label i) <= ELA_MAX_USER_NAME_LEN /\
  ElaPresenceStatus_None <= presence i <= ElaPresenceStatus_Busy.

Definition friend_ok (n : Z) (fi : FriendInfo) : Prop :=
  friend_number fi = n /\ n <> UINT32_MAX /\ info_ok (info fi).

Section Invariant.
Context `{!HashTables} {L : HashTablesLaws _} `{!Base58} {B : Base58Laws _} {dht buffer : Type}
  `{!Dht dht buffer} {D : DhtLaws dht buffer} `{!FlatBuffers buffer}.
Implicit Types w wr : ElaCarrier dht.

Record node_wf w : Prop := {
  wf_friends n fi : ht_get (friends w) n = Some fi -> friend_ok n fi;
  wf_me : user_ok (me w);
  wf_calls tid tcb : ht_get (tcallbacks w) tid = Some tcb -> tcb_tid tcb = tid;
  wf_history key tid : ht_get (thistory w) key = Some tid -> tid <> 0;
  wf_ireqs : open_assemblies (tassembly_ireqs w);
  wf_irsps : open_assemblies (tassembly_irsps w);
  wf_events : Forall (fun e => info_ok (fe_fi e)) (friend_events w)
}.

Lemma node_wf_ok w : node_wf w -> node_ok w.
Proof.
  intros [Hf ? ? ? ? ? ?]. split_and!; [done|done|].
  intros n fi (_ & _ & (? & _) & _)%Hf. done.
Qed.

(** The fields the invariant does not look at are free to change. *)
Lemma wf_frame w w' :
  node_wf w -> friends w' = friends w -> me w' = me w -> tcallbacks w' = tcallbacks w ->
  thistory w' = thistory w -> tassembly_ireqs w' = tassembly_ireqs w ->
  tassembly_irsps w' = tassembly_irsps w -> friend_events w' = friend_events w -> node_wf w'.
Proof. intros [] Hf Hm Hc Hh Hq Hs He. by split; rewrite ?Hf, ?Hm, ?Hc, ?Hh, ?Hq, ?Hs, ?He. Qed.

Lemma wf_emit e w : node_wf w -> node_wf (emit e w).
Proof. intros Hw. by eapply wf_frame. Qed.
Lemma wf_emit_if b e w : node_wf w -> node_wf (emit_if b e w).
Proof. destruct b; [apply wf_emit|done]. Qed.
Lemma wf_error code w : node_wf w -> node_wf (set_last_error code w).
Proof. intros Hw. by eapply wf_frame. Qed.
Lemma wf_dht d w : node_wf w -> node_wf { w with dht_state := d }.
Proof. intros Hw. by eapply wf_frame. Qed.

Lemma wf_put fi w : node_wf w -> friend_ok (friend_number fi) fi -> node_wf (friends_put fi w).
Proof.
  intros [] Hfi. split; cbn; try done. intros n fi'. rewrite ht_get_put. case_decide as E; [|auto].
  intros [= <-]. by rewrite <- E.
Qed.

Lemma wf_update f i n w :
  node_wf w -> friend_ok n f -> info_ok i ->
  node_wf (friends_put {| info := i; friend_number := friend_number f |} w).
Proof.
  intros Hw (Hn & Hne & _) Hi. apply wf_put; [done|]. cbn. by rewrite Hn.
Qed.

Lemma wf_remove n w : node_wf w -> node_wf { w with friends ::= ht_remove n }.
Proof. intros []. split; cbn; try done. intros k fi. rewrite ht_get_remove. case_decide; [done|auto]. Qed.

Lemma wf_added fi w : node_wf w -> info_ok fi -> node_wf (notify_friend_added fi w).
Proof. intros [] Hfi. split; cbn; try done. apply Forall_app. split; [done|by apply Forall_singleton]. Qed.
Lemma wf_removed fi w : node_wf w -> info_ok fi -> node_wf (notify_friend_removed fi w).
Proof. intros [] Hfi. split; cbn; try done. apply Forall_app. split; [done|by apply Forall_singleton]. Qed.

Lemma new_friend_ok id n : n <> UINT32_MAX -> strlen id <= 44 -> friend_ok n (new_friend id n).
Proof. intros Hn Hid. repeat split; cbn; done || lia. Qed.

Lemma wf_new_friend id n w :
  node_wf w -> n <> UINT32_MAX -> strlen id <= 44 ->
  node_wf (notify_friend_added (info (new_friend id n)) (friends_put (new_friend id n) w)).
Proof.
  intros Hw Hn Hid. pose proof (new_friend_ok id n Hn Hid) as Hok.
  apply wf_added; [by apply wf_put|apply Hok].
Qed.

Lemma wf_friends_get w n fi : node_wf w -> friends_get w n = Ok (Some fi) -> friend_ok n fi.
Proof. intros Hw Hget%friends_get_inv. by eapply wf_friends. Qed.

(** A key that is valid is short. *)
Lemma valid_key_length id : is_valid_key id = true -> strlen id <= 44.
Proof.
  unfold is_valid_key. destruct (base58_decode id DHT_PUBLIC_KEY_SIZE) as [bs|] eqn:E; [|done].
  intros Hl%Z.eqb_eq. rewrite <- (base58_canonical _ _ _ E). apply base58_key_length.
  unfold DHT_PUBLIC_KEY_SIZE in Hl. lia.
Qed.

Lemma presence_range z : ElaPresenceStatus_None <= get_presence_status z <= ElaPresenceStatus_Busy.
Proof.
  unfold get_presence_status, ElaPresenceStatus_None, ElaPresenceStatus_Busy. rewrite Z.gtb_ltb.
  destruct (Z.ltb_spec z 0), (Z.ltb_spec 2 z); lia.
Qed.

(** ** Every operation keeps the invariant *)

(** [keeps op] : what the operation returns satisfies the invariant. *)
Definition keeps {A} (node : A -> ElaCarrier dht) (r : Res A) : Prop :=
  forall a, r = Ok a -> node_wf (node a).

(** Decomposes a successful run into its branches and closes those that only
    touch fields outside the invariant. *)
Ltac wf_branches :=
  intros; unfold fails, store_persistence_data in *;
  repeat first
    [ match goal with
      | Hr : Ok _ = Ok _ |- _ => injection Hr as Hr; try subst
      | Hr : Fault _ = Ok _ |- _ => discriminate Hr
      | Hr : strcpy _ _ = Ok _ |- _ => apply strcpy_inv in Hr as [-> ?]
      | Hr : mbind _ _ = Ok _ |- _ => apply Res_bind_Ok in Hr as (? & ? & Hr)
      | Hr : c_assert _ = Ok _ |- _ => apply c_assert_Ok in Hr
      | Hr : (_, _) = (_, _) |- _ => injection Hr as ? ?; try subst
      end
    | case_match ].

Lemma wf_unpack desc ui ui' c :
  user_ok ui -> unpack_user_desc (buffer := buffer) desc ui = Ok (Some (ui', c)) -> user_ok ui'.
Proof.
  intros Hui. unfold unpack_user_desc. intros Hr.
  apply Res_bind_Ok in Hr as ([cp|] & _ & Hr); [|done]. case_match; [done|]. res_inv.
  assert (forall cap old new x b, update_text cap old new = Ok (x, b) -> strlen old <= cap - 1 ->
    strlen x <= cap - 1) as Hup.
  { unfold update_text. intros cap old new x' b Hu Hold. case_match; [by simplify_eq|]. res_inv.
    rename select (strcpy _ _ = _) into Hs. apply strcpy_inv in Hs as [-> ?]. simplify_eq. lia. }
  destruct Hui as (? & ? & ? & ? & ? & ? & ?).
  repeat (match goal with p : (string * bool)%type |- _ => destruct p end; res_inv). simplify_eq.
  unfold user_ok in *; cbn. split_and!; [done|..];
    match goal with Hu : update_text ?c _ _ = Ok (?x, _) |- strlen ?x <= _ =>
      eapply Hup in Hu; [|unfold ELA_MAX_USER_NAME_LEN, ELA_MAX_USER_DESCRIPTION_LEN,
        ELA_MAX_GENDER_LEN, ELA_MAX_PHONE_LEN, ELA_MAX_EMAIL_LEN, ELA_MAX_REGION_LEN in *; lia] end;
    lia.
Qed.

(** The notifications of the DHT. *)
Lemma keeps_connection b w : node_wf w -> node_wf (notify_connection_cb b w).
Proof.
  intros Hw. unfold notify_connection_cb. apply wf_emit_if.
  assert (node_wf (if negb (is_ready w) && b
    then emit_if (cb_ready (callbacks w)) EvReady { w with is_ready := true } else w)) as Hw'.
  { case_match; [apply wf_emit_if; by eapply wf_frame|done]. }
  by eapply wf_frame.
Qed.

Lemma keeps_description n desc w w' :
  node_wf w -> notify_friend_description_cb n desc w = Ok w' -> node_wf w'.
Proof.
  intros Hw. unfold notify_friend_description_cb. intros Hr. res_inv.
  rename select (friends_get _ _ = _) into Hfi. rename select (_ = Ok w') into Hr.
  case_match; [|by simplify_eq]. case_match; [|by simplify_eq].
  apply (wf_friends_get _ _ _ Hw) in Hfi as Hok. pose proof Hok as (_ & _ & Hui & Hlab & Hp).
  apply Res_bind_Ok in Hr as ([[ui c]|] & Hu & Hr); [|by simplify_eq].
  apply wf_unpack in Hu; [|done].
  assert (node_wf (friends_put {| info := { info f with user_info := ui };
    friend_number := friend_number f |} w)) as Hput.
  { by eapply wf_update. }
  case_match; [|by simplify_eq]. unfold notify_friend_info in Hr. res_inv. simplify_eq.
  by apply wf_emit_if.
Qed.

Lemma keeps_friend_connection n b w w' :
  node_wf w -> notify_friend_connection_cb n b w = Ok w' -> node_wf w'.
Proof.
  intros Hw. unfold notify_friend_connection_cb. intros Hr. res_inv.
  rename select (friends_get _ _ = _) into Hfi. rename select (_ = Ok w') into Hr.
  case_match; [|by simplify_eq].
  apply (wf_friends_get _ _ _ Hw) in Hfi as Hok. pose proof Hok as (_ & _ & Hui & Hlab & Hp).
  case_match; [by simplify_eq|]. res_inv. simplify_eq.
  by eapply wf_emit_if, wf_update.
Qed.

Lemma keeps_friend_status n s w w' :
  node_wf w -> notify_friend_status_cb n s w = Ok w' -> node_wf w'.
Proof.
  intros Hw. unfold notify_friend_status_cb. intros Hr. res_inv.
  rename select (friends_get _ _ = _) into Hfi. rename select (_ = Ok w') into Hr.
  case_match; [|by simplify_eq].
  apply (wf_friends_get _ _ _ Hw) in Hfi as Hok. pose proof Hok as (_ & _ & Hui & Hlab & Hp).
  destruct (_ || _) eqn:Hs in Hr; [by simplify_eq|]. case_match; [by simplify_eq|]. res_inv. simplify_eq.
  apply orb_false_iff in Hs as [Hlo Hhi]. rewrite Z.gtb_ltb in Hhi. apply Z.ltb_ge in Hlo, Hhi.
  by eapply wf_emit_if, wf_update.
Qed.

Lemma keeps_friend_request pk g w w' :
  node_wf w -> notify_friend_request_cb pk g w = Ok w' -> node_wf w'.
Proof.
  intros Hw. unfold notify_friend_request_cb. intros Hr.
  destruct (dht_get_friend_number _ _). case_match; [by simplify_eq|]. res_inv.
  case_match; [|by simplify_eq]. case_match; [by simplify_eq|]. res_inv. simplify_eq.
  by apply wf_emit_if.
Qed.

Lemma keeps_iterate n pk st desc w b w' :
  length pk = 32%nat -> node_wf w -> friends_iterate_cb n pk st desc w = Ok (b, w') -> node_wf w'.
Proof.
  intros Hpk Hw. unfold friends_iterate_cb. intros Hr. res_inv.
  rename select (negb _ = true) into Hn. apply negb_true_iff, Z.eqb_neq in Hn.
  rename select (strcpy _ _ = _) into Hid. apply strcpy_inv in Hid as [-> _].
  rename select (option ElaUserInfo) into oui. destruct oui as [ui|]; [|by simplify_eq].
  rename select (_ = Ok (b, w')) into Hr. injection Hr as <- <-.
  assert (user_ok ui) as Hui.
  { assert (user_ok { empty_user_info with userid := base58_encode pk }) as Hnew.
    { split; [by apply base58_key_length|]. by cbn. }
    destruct desc as [desc|]; [|by simplify_eq]. res_inv.
    rename select (option_map _ _ = _) into Hm.
    rename select (unpack_user_desc _ _ = _) into Hu.
    rename select (option (ElaUserInfo * bool)) into r. destruct r as [[ui' c]|]; [|done].
    cbn in Hm. injection Hm as ->. by eapply wf_unpack. }
  apply wf_put; [done|]. repeat split; cbn; try done; by apply presence_range || apply Hui.
Qed.

Lemma keeps_events w : node_wf w -> node_wf (do_friend_events w).
Proof.
  rewrite friend_events_delivered. intros []. by split; cbn.
Qed.

(** Timers. *)
Lemma open_expire now (t : hashtable Z TransactedAssembly) :
  open_assemblies t -> open_assemblies (do_tassemblies_expire now t).
Proof.
  intros Ht tid ta. unfold do_tassemblies_expire. rewrite expire_assemblies_get.
  case_bool_decide; [done|apply Ht].
Qed.

Lemma keeps_expire now w :
  node_wf w -> node_wf { w with tassembly_ireqs ::= do_tassemblies_expire now;
                                tassembly_irsps ::= do_tassemblies_expire now }.
Proof. intros []. split; cbn; try done; by apply open_expire. Qed.

Lemma wf_tcallbacks_remove tid w : node_wf w -> node_wf { w with tcallbacks ::= ht_remove tid }.
Proof. intros []. split; cbn; try done. intros k tcb. rewrite ht_get_remove. case_decide; [done|auto]. Qed.

Lemma keeps_callbacks_check now w w' :
  node_wf w -> do_transacted_callabcks_check now w = Ok w' -> node_wf w'.
Proof.
  unfold do_transacted_callabcks_check. generalize (ht_items (tcallbacks w)). intros l.
  induction l as [|[tid tcb] l IH] in w |- *; cbn [check_callbacks]; intros Hw Hr; [by simplify_eq|].
  apply Res_bind_Ok in Hr as (w1 & Hr1 & Hr). apply IH in Hr; [done|].
  case_match; [|by simplify_eq]. unfold transacted_callback_expire in Hr1. res_inv.
  assert (node_wf { w with tcallbacks ::= ht_remove tid }) by by apply wf_tcallbacks_remove.
  rename select (_ = Ok w1) into Hr1. case_match; [|by simplify_eq]. res_inv. simplify_eq.
  by apply wf_emit.
Qed.

(** Messages: the handlers touch the tables of transactions and the history. *)
Lemma request_frame now w number cp w' :
  handle_invite_request now w number cp = Ok w' ->
  friends w' = friends w /\ me w' = me w /\ tcallbacks w' = tcallbacks w /\
  friend_events w' = friend_events w /\
  (thistory w' = thistory w \/ exists key tid, tid <> 0 /\ thistory w' = ht_put key tid (thistory w)).
Proof.
  unfold handle_invite_request. intros Hr.
  apply Res_bind_Ok in Hr as (? & _ & Hr). apply Res_bind_Ok in Hr as (? & _ & Hr).
  apply Res_bind_Ok in Hr as ([fi|] & _ & Hr); [|simplify_eq; by auto 10].
  do 6 (apply Res_bind_Ok in Hr as (? & _ & Hr)). case_match; [simplify_eq; by auto 10|].
  apply Res_bind_Ok in Hr as ([ta need] & _ & Hr). case_match; [simplify_eq; by auto 10|].
  apply Res_bind_Ok in Hr as (? & _ & Hr). apply Res_bind_Ok in Hr as (? & _ & Hr).
  case_match; [|simplify_eq; by auto 10].
  apply Res_bind_Ok in Hr as (from & _ & Hr). apply Res_bind_Ok in Hr as (w1 & Hput & Hr).
  unfold transaction_history_put_invite in Hput.
  apply Res_bind_Ok in Hput as (? & Ht%c_assert_Ok & Hput).
  apply negb_true_iff, Z.eqb_neq in Ht. apply Res_bind_Ok in Hput as (key & _ & Hput).
  injection Hput as <-. injection Hr as <-.
  unfold remove_ireq, invite_callback, emit_if, emit.
  repeat case_match; cbn; split_and!; try done; right; by do 2 eexists.
Qed.

Lemma response_frame now w number cp w' :
  handle_invite_response now w number cp = Ok w' ->
  friends w' = friends w /\ me w' = me w /\ friend_events w' = friend_events w /\
  thistory w' = thistory w /\
  (tcallbacks w' = tcallbacks w \/ exists tid, tcallbacks w' = ht_remove tid (tcallbacks w)).
Proof.
  unfold handle_invite_response. intros Hr.
  do 2 (apply Res_bind_Ok in Hr as (? & _ & Hr)).
  apply Res_bind_Ok in Hr as ([fi|] & _ & Hr); [|simplify_eq; by auto 10].
  do 2 (apply Res_bind_Ok in Hr as (? & _ & Hr)). case_match; [|simplify_eq; by auto 10].
  do 3 (apply Res_bind_Ok in Hr as (? & _ & Hr)).
  apply Res_bind_Ok in Hr as ([[reason data] len] & _ & Hr).
  case_match; [simplify_eq; by auto 10|].
  apply Res_bind_Ok in Hr as ([ta need] & _ & Hr). case_match; [simplify_eq; by auto 10|].
  apply Res_bind_Ok in Hr as (? & _ & Hr). case_match; [|simplify_eq; by auto 10].
  injection Hr as <-. destruct need; cbn; split_and!; try done; right; by eexists.
Qed.

Lemma keeps_message now n (m : buffer) w w' :
  n <> UINT32_MAX -> (forall cp, elacp_decode m = Ok (Some cp) -> well_typed cp) ->
  node_wf w -> notify_friend_message_cb now w n m = Ok w' -> node_wf w'.
Proof.
  intros Hn Hwt Hw. unfold notify_friend_message_cb. intros Hr.
  apply Res_bind_Ok in Hr as ([cp|] & Hd & Hr); [|by simplify_eq]. specialize (Hwt _ Hd).
  pose proof (node_wf_ok _ Hw) as Hok.
  destruct (body cp) eqn:Hb; try by simplify_eq.
  - unfold handle_friend_message in Hr. res_inv.
    rename select (_ = Ok w') into Hr. case_match; [|by simplify_eq]. res_inv. simplify_eq.
    by apply wf_emit_if.
  - assert (elacp_get_type cp = ELACP_TYPE_INVITE_REQUEST) as Ht by (unfold elacp_get_type; by rewrite Hb).
    pose proof (request_ends now w n cp Hok Hn Ht Hwt) as He. rewrite Hr in He. cbn in He.
    destruct He as (Hq & Hs & _). apply request_frame in Hr as (Hf & Hm & Hc & Hev & Hh).
    destruct Hw as [Wf Wm Wc Wh _ _ We]. split; rewrite ?Hf, ?Hm, ?Hc, ?Hev; try done.
    destruct Hh as [->|(k & t & Hnz & ->)]; [done|]. intros key tid. rewrite ht_get_put.
    case_decide; [by intros [= <-]|apply Wh].
  - assert (elacp_get_type cp = ELACP_TYPE_INVITE_RESPONSE) as Ht by (unfold elacp_get_type; by rewrite Hb).
    pose proof (response_ends now w n cp Hok Hn Ht Hwt) as He. rewrite Hr in He. cbn in He.
    destruct He as (Hq & Hs & _). apply response_frame in Hr as (Hf & Hm & Hev & Hh & Hc).
    destruct Hw as [Wf Wm Wc Wh _ _ We]. split; rewrite ?Hf, ?Hm, ?Hh, ?Hev; try done.
    destruct Hc as [->|(t & ->)]; [done|]. intros tid tcb. rewrite ht_get_remove.
    case_decide; [done|apply Wc].
Qed.

(** The calls of the application. *)
Lemma keeps_fails code w rc w' : node_wf w -> fails code w = Ok (rc, w') -> node_wf w'.
Proof. intros Hw [= _ <-]. by apply wf_error. Qed.

Lemma keeps_set_presence w st rc w' :
  node_wf w -> ela_set_self_presence w st = Ok (rc, w') -> node_wf w'.
Proof.
  intros Hw. unfold ela_set_self_presence. intros Hr.
  case_match; [by eapply keeps_fails|]. injection Hr as _ <-. by eapply wf_frame.
Qed.

Lemma keeps_set_info w ui rc w' :
  node_wf w -> ela_set_self_info w ui = Ok (rc, w') -> node_wf w'.
Proof.
  intros Hw. unfold ela_set_self_info. intros Hr. case_match; [by eapply keeps_fails|].
  apply Res_bind_Ok in Hr as (cp & Hcp & Hr).
  destruct (_ && _) in Hr; [by simplify_eq|].
  destruct (if str_eqb _ _ then _ else _) as [rc' d].
  destruct (negb (rc' =? 0)); [eapply keeps_fails, Hr; by apply wf_dht|].
  rewrite (set_user_info ui cp _ Hcp) in Hr.
  apply Res_bind_Ok in Hr as (data & Henc & Hr).
  apply Res_bind_Ok in Hr as (nm & [-> Hnm]%strcpy_inv & Hr).
  apply Res_bind_Ok in Hr as (ds & [-> Hds]%strcpy_inv & Hr).
  apply Res_bind_Ok in Hr as (gd & [-> Hgd]%strcpy_inv & Hr).
  apply Res_bind_Ok in Hr as (ph & [-> Hph]%strcpy_inv & Hr).
  apply Res_bind_Ok in Hr as (em & [-> Hem]%strcpy_inv & Hr).
  apply Res_bind_Ok in Hr as (rg & [-> Hrg]%strcpy_inv & Hr).
  injection Hr as _ <-. destruct Hw as [Wf (Hid & _) Wc Wh Wq Ws We]. split; try done.
  unfold user_ok. cbn. split_and!; [done|lia..].
Qed.

Lemma keeps_get_self_info a pk st desc w w' :
  length pk = 32%nat -> node_wf w -> get_self_info_cb a pk st desc w = Ok w' -> node_wf w'.
Proof.
  intros Hpk Hw. unfold get_self_info_cb. intros Hr.
  apply Res_bind_Ok in Hr as (a58 & [-> _]%strcpy_inv & Hr).
  apply Res_bind_Ok in Hr as (id & [-> _]%strcpy_inv & Hr).
  apply Res_bind_Ok in Hr as (w1 & Hd & Hr).
  set (w0 := { w with address := a; public_key := pk; base58_addr := base58_encode a;
    me ::= fun ui => { ui with userid := base58_encode pk };
    presence_status := get_presence_status st }) in *.
  assert (node_wf w0) as Hw0.
  { destruct Hw as [Wf (_ & Hrest) Wc Wh Wq Ws We]. split; try done.
    split; [by apply base58_key_length|exact Hrest]. }
  clearbody w0.
  assert (node_wf w1) as Hw1.
  { destruct desc as [desc|].
    - apply Res_bind_Ok in Hd as (r & Hu & Hd). injection Hd as <-.
      destruct r as [[ui c]|]; [|done]. apply wf_unpack in Hu; [|by destruct Hw0].
      destruct Hw0 as [Wf Wm Wc Wh Wq Ws We]. by split.
    - unfold fill_empty_user_desc in Hd. cbn in Hd. injection Hd as <-. by eapply wf_frame. }
  destruct (dht_self_get_name (dht_state w1)) as [len nm].
  repeat (case_match; [by simplify_eq|]). injection Hr as <-. by eapply wf_frame.
Qed.

Lemma keeps_set_nospam w n rc w' :
  node_wf w -> ela_set_self_nospam w n = Ok (rc, w') -> node_wf w'.
Proof.
  intros Hw. unfold ela_set_self_nospam. intros Hr.
  set (w0 := { w with dht_state ::= fun d => dht_self_set_nospam d n }) in *.
  assert (node_wf w0) as Hw0 by by eapply wf_frame.
  destruct (dht_get_self_info (dht_state w0)) as [rc' [[[a pk] st] desc]] eqn:Hi.
  case_match; [by eapply keeps_fails|].
  apply Res_bind_Ok in Hr as (w1 & Hg & Hr). injection Hr as _ <-. apply wf_emit.
  eapply keeps_get_self_info, Hg; [|done]. eapply (dht_self_key (dht_state w0)). by rewrite Hi.
Qed.

Lemma keeps_set_label w id l rc w' :
  node_wf w -> ela_set_friend_label w id l = Ok (rc, w') -> node_wf w'.
Proof.
  intros Hw. unfold ela_set_friend_label. intros Hr.
  destruct id as [[|c id]|]; [by eapply keeps_fails| |by eapply keeps_fails].
  case_match; [by eapply keeps_fails|].
  destruct (get_friend_number w (String c id)) as [rc' n]. case_match; [by eapply keeps_fails|].
  apply Res_bind_Ok in Hr as ([fi|] & Hfi & Hr); [|by eapply keeps_fails].
  apply Res_bind_Ok in Hr as (? & _ & Hr).
  apply Res_bind_Ok in Hr as (lb & [-> Hlb]%strcpy_inv & Hr).
  injection Hr as _ <-. apply wf_emit.
  apply (wf_friends_get _ _ _ Hw) in Hfi as Hok. pose proof Hok as (_ & _ & Hui & Hlab & Hp).
  eapply wf_update; [done|done|]. split; [exact Hui|split; [cbn; lia|exact Hp]].
Qed.

Lemma keeps_add w a h rc w' : node_wf w -> ela_add_friend w a h = Ok (rc, w') -> node_wf w'.
Proof.
  intros Hw. unfold ela_add_friend. intros Hr.
  destruct h as [[|ch h]|], a as [[|ca a]|]; try by eapply keeps_fails.
  destruct (is_valid_address (String ca a)) eqn:Hv; cbn [negb] in Hr; [|by eapply keeps_fails].
  case_match; [by eapply keeps_fails|]. case_match; [by eapply keeps_fails|].
  destruct (dht_get_friend_number _ _) as [rc0 n0]. case_match; [by eapply keeps_fails|].
  do 5 (apply Res_bind_Ok in Hr as (? & _ & Hr)).
  destruct (dht_friend_add _ _ _) as [[rc1 n] d] eqn:Hadd.
  case_match; [eapply keeps_fails, Hr; by apply wf_dht|].
  apply Res_bind_Ok in Hr as (id & [-> _]%strcpy_inv & Hr). injection Hr as _ <-.
  apply wf_new_friend; [by apply wf_dht|eapply dht_add_number; [exact Hadd|lia]|].
  apply base58_key_length. apply is_valid_address_spec in Hv as (l & b0 & b1 & -> & Hl & _).
  cbn [default from_option]. unfold id. by rewrite length_take, length_app, Hl.
Qed.

Lemma keeps_accept w id rc w' : node_wf w -> ela_accept_friend w id = Ok (rc, w') -> node_wf w'.
Proof.
  intros Hw. unfold ela_accept_friend. intros Hr.
  destruct id as [[|c id]|]; [by eapply keeps_fails| |by eapply keeps_fails].
  destruct (is_valid_key (String c id)) eqn:Hv; cbn [negb] in Hr; [|by eapply keeps_fails].
  do 2 (case_match; [by eapply keeps_fails|]).
  destruct (get_friend_number _ _) as [rc0 n0]. case_match; [by eapply keeps_fails|].
  destruct (dht_friend_add_norequest _ _) as [[rc1 n] d] eqn:Hadd.
  case_match; [eapply keeps_fails, Hr; by apply wf_dht|].
  apply Res_bind_Ok in Hr as (id' & [-> _]%strcpy_inv & Hr). injection Hr as _ <-.
  apply wf_new_friend; [by apply wf_dht|eapply dht_add_norequest_number; [exact Hadd|lia]|].
  by apply valid_key_length.
Qed.

Lemma keeps_remove w id rc w' : node_wf w -> ela_remove_friend w id = Ok (rc, w') -> node_wf w'.
Proof.
  intros Hw. unfold ela_remove_friend. intros Hr.
  destruct id as [[|c id]|]; [by eapply keeps_fails| |by eapply keeps_fails].
  do 2 (case_match; [by eapply keeps_fails|]).
  destruct (get_friend_number _ _) as [rc0 n]. case_match; [by eapply keeps_fails|].
  apply Res_bind_Ok in Hr as (ex & _ & Hr). case_match; [by eapply keeps_fails|].
  apply Res_bind_Ok in Hr as ([[fi|] w1] & Hrm & Hr); [|done].
  unfold friends_remove in Hrm. res_inv. simplify_eq. apply wf_removed.
  - apply wf_remove. by eapply wf_frame.
  - by eapply wf_friends.
Qed.

Lemma keeps_send w to msg rc w' :
  node_wf w -> ela_send_friend_message w to msg = Ok (rc, w') -> node_wf w'.
Proof.
  intros Hw. unfold ela_send_friend_message. intros Hr.
  destruct to as [to|]; [|by eapply keeps_fails]. destruct msg as [[|b msg]|]; try by eapply keeps_fails.
  case_match; [by eapply keeps_fails|]. destruct (parse_address to) as [id e].
  do 4 (case_match; [by eapply keeps_fails|]).
  destruct (get_friend_number _ _) as [rc0 n]. case_match; [by eapply keeps_fails|].
  apply Res_bind_Ok in Hr as (ex & _ & Hr). case_match; [by eapply keeps_fails|].
  do 3 (apply Res_bind_Ok in Hr as (? & _ & Hr)). destruct (dht_friend_message _ _ _) as [rc1 d].
  case_match; [eapply keeps_fails, Hr; by apply wf_dht|]. injection Hr as _ <-. by apply wf_dht.
Qed.

Lemma wf_tcallbacks_put now tcb w : node_wf w -> node_wf (transacted_callbacks_put now tcb w).
Proof.
  intros []. split; cbn; try done. intros k tcb'. rewrite ht_get_put. case_decide; [|auto].
  by intros [= <-].
Qed.

Lemma keeps_invite_loop fuel w n tid e b cb ctx un now i bl pos rc w' :
  node_wf w -> invite_loop fuel w n tid e b cb ctx un now i bl pos = Ok (rc, w') -> node_wf w'.
Proof.
  induction fuel as [|fuel IH] in w, i, bl, pos |- *; [done|]. cbn [invite_loop]. intros Hw Hr.
  apply Res_bind_Ok in Hr as ([[cp pos'] bl'] & _ & Hr).
  apply Res_bind_Ok in Hr as (data & _ & Hr).
  match type of Hr with context [dht_friend_message (dht_state ?w1) _ _] => set (w1' := w1) in * end.
  assert (node_wf w1') as Hw1.
  { subst w1'. destruct (_ =? 0); [by apply wf_tcallbacks_put|done]. }
  clearbody w1'. destruct (dht_friend_message _ _ _) as [rc1 d].
  assert (node_wf { w1' with dht_state := d }) as Hwd by by apply wf_dht.
  destruct (rc1 <? 0).
  - eapply keeps_fails, Hr. destruct (_ =? 0); [by apply wf_tcallbacks_remove|done].
  - case_match; [by eapply IH|]. by injection Hr as _ <-.
Qed.

Lemma keeps_invite w to b data cb ctx tid un now rc w' :
  node_wf w -> ela_invite_friend w to b data cb ctx tid un now = Ok (rc, w') -> node_wf w'.
Proof.
  intros Hw. unfold ela_invite_friend. intros Hr. case_match; [by eapply keeps_fails|].
  apply Res_bind_Ok in Hr as ([code|[n e]] & _ & Hr); [by eapply keeps_fails|].
  by eapply keeps_invite_loop.
Qed.

Lemma keeps_reply_loop fuel w n tid st e b r i bl pos rc w' :
  node_wf w -> reply_loop fuel w n tid st e b r i bl pos = Ok (rc, w') -> node_wf w'.
Proof.
  induction fuel as [|fuel IH] in w, i, bl, pos |- *; [done|]. cbn [reply_loop]. intros Hw Hr.
  apply Res_bind_Ok in Hr as ([[cp pos'] bl'] & _ & Hr).
  apply Res_bind_Ok in Hr as (data & _ & Hr).
  destruct (dht_friend_message _ _ _) as [rc1 d].
  assert (node_wf { w with dht_state := d }) as Hwd by by apply wf_dht.
  case_match; [by eapply keeps_fails|]. case_match; [by eapply IH|]. by injection Hr as _ <-.
Qed.

Lemma keeps_reply w to b st r data rc w' :
  node_wf w -> ela_reply_friend_invite w to b st r data = Ok (rc, w') -> node_wf w'.
Proof.
  intros Hw. unfold ela_reply_friend_invite. intros Hr.
  destruct (bad_bundle b); [by eapply keeps_fails|].
  destruct (negb (st =? 0) && _); [by eapply keeps_fails|].
  destruct ((st =? 0) && _); [by eapply keeps_fails|].
  apply Res_bind_Ok in Hr as ([code|[n e]] & _ & Hr); [by eapply keeps_fails|].
  apply Res_bind_Ok in Hr as (tid & _ & Hr). case_match; [by eapply keeps_fails|].
  apply Res_bind_Ok in Hr as ([rc1 w1] & Hl & Hr). apply keeps_reply_loop in Hl; [|done].
  case_match; [by simplify_eq|]. apply Res_bind_Ok in Hr as (w2 & Hrm & Hr). injection Hr as _ <-.
  unfold transaction_history_remove_invite in Hrm. apply Res_bind_Ok in Hrm as (key & _ & Hrm).
  injection Hrm as <-. destruct Hl as [Wf Wm Wc Wh Wq Ws We]. split; cbn; try done.
  intros k t. rewrite ht_get_remove. case_decide; [done|apply Wh].
Qed.

(** ** The node as a transition system *)

(** One step of the node: a call of the application that returned, a notification
    of the DHT, a timer of the main loop, or the DHT working on its own. *)
Inductive node_step w : ElaCarrier dht -> Prop :=
| step_dht d : node_step w { w with dht_state := d }
| step_idle : node_step w (notify_idle w)
| step_connection b : node_step w (notify_connection_cb b w)
| step_iterate n pk st desc b w' : length pk = 32%nat ->
    friends_iterate_cb n pk st desc w = Ok (b, w') -> node_step w w'
| step_description n desc w' : notify_friend_description_cb n desc w = Ok w' -> node_step w w'
| step_friend_connection n b w' : notify_friend_connection_cb n b w = Ok w' -> node_step w w'
| step_friend_status n st w' : notify_friend_status_cb n st w = Ok w' -> node_step w w'
| step_friend_request pk g w' : notify_friend_request_cb pk g w = Ok w' -> node_step w w'
| step_message now n (m : buffer) w' : n <> UINT32_MAX ->
    (forall cp, elacp_decode m = Ok (Some cp) -> well_typed cp) ->
    notify_friend_message_cb now w n m = Ok w' -> node_step w w'
| step_friend_events : node_step w (do_friend_events w)
| step_assemblies now : node_step w { w with tassembly_ireqs ::= do_tassemblies_expire now;
                                             tassembly_irsps ::= do_tassemblies_expire now }
| step_transactions now w' : do_transacted_callabcks_check now w = Ok w' -> node_step w w'
| step_set_nospam n rc w' : ela_set_self_nospam w n = Ok (rc, w') -> node_step w w'
| step_set_info ui rc w' : ela_set_self_info w ui = Ok (rc, w') -> node_step w w'
| step_set_presence st rc w' : ela_set_self_presence w st = Ok (rc, w') -> node_step w w'
| step_set_label id l rc w' : ela_set_friend_label w id l = Ok (rc, w') -> node_step w w'
| step_add a h rc w' : ela_add_friend w a h = Ok (rc, w') -> node_step w w'
| step_accept id rc w' : ela_accept_friend w id = Ok (rc, w') -> node_step w w'
| step_remove id rc w' : ela_remove_friend w id = Ok (rc, w') -> node_step w w'
| step_send to m rc w' : ela_send_friend_message w to m = Ok (rc, w') -> node_step w w'
| step_invite to b data cb ctx tid un now rc w' :
    ela_invite_friend w to b data cb ctx tid un now = Ok (rc, w') -> node_step w w'
| step_reply to b st r data rc w' :
    ela_reply_friend_invite w to b st r data = Ok (rc, w') -> node_step w w'.

Lemma step_wf w w' : node_wf w -> node_step w w' -> node_wf w'.
Proof.
  intros Hw. destruct 1.
  - by apply wf_dht.
  - by apply wf_emit_if.
  - by apply keeps_connection.
  - by eapply keeps_iterate.
  - by eapply keeps_description.
  - by eapply keeps_friend_connection.
  - by eapply keeps_friend_status.
  - by eapply keeps_friend_request.
  - by eapply keeps_message.
  - by apply keeps_events.
  - by apply keeps_expire.
  - by eapply keeps_callbacks_check.
  - by eapply keeps_set_nospam.
  - by eapply keeps_set_info.
  - by eapply keeps_set_presence.
  - by eapply keeps_set_label.
  - by eapply keeps_add.
  - by eapply keeps_accept.
  - by eapply keeps_remove.
  - by eapply keeps_send.
  - by eapply keeps_invite.
  - by eapply keeps_reply.
Qed.

(** C4. The invariant of the node holds in every state that any sequence of calls,
    notifications, incoming messages and timers can reach from a state where it
    holds: each friend is filed under its own number, which is never the one that
    means none; every identifier, name, label and other text fits its field; each
    presence is a known one; pending transactions are filed under their own id;
    remembered transactions are not zero; open assemblies have their buffer and
    lack at least a byte. *)
Theorem reachable_nodes_wf w w' : node_wf w -> rtc node_step w w' -> node_wf w'.
Proof. intros Hw Hsteps. induction Hsteps; [done|]. eauto using step_wf. Qed.

End Invariant.

(** ** Concrete laws and a concrete run *)

Lemma string_of_bytes_length bs : strlen (String.string_of_list_byte bs) = Z.of_nat (length bs).
Proof.
  unfold strlen, String.string_of_list_byte. f_equal.
  induction bs as [|b bs IH]; [done|]. cbn [map String.string_of_list_ascii String.length length].
  by f_equal.
Qed.

#[export] Instance sample_base58_laws : Base58Laws sample_base58.
Proof.
  split.
  - intros bs Hl. cbn. rewrite string_of_bytes_length, Hl. lia.
  - intros s n bs. cbn. case_match; [|done]. intros [= <-].
    apply String.string_of_list_byte_of_string.
Qed.

#[export] Instance sample_dht_laws : DhtLaws sdht fbpacket.
Proof.
  split; cbn.
  - intros d a pk st desc [= _ <- _ _]. done.
  - intros d a b rc n d'. unfold sd_add. case_match; intros [= <- <- <-]; [lia|]. intros _.
    by apply Z.eqb_neq.
  - intros d k rc n d'. unfold sd_add. case_match; intros [= <- <- <-]; [lia|]. intros _.
    by apply Z.eqb_neq.
Qed.

Lemma alice_wf : node_wf alice.
Proof.
  split; try (intros ?? Hx; cbn in Hx; by rewrite lookup_empty in Hx); try done.
  intros n fi Hx. cbn in Hx. apply lookup_insert_Some in Hx as [[<- <-]|[_ Hx]].
  - by apply new_friend_ok.
  - by rewrite lookup_empty in Hx.
Qed.

Lemma reachable_nodes_wf_witness :
  node_wf alice /\ rtc node_step alice (do_friend_events alice_inviting) /\
  node_wf (do_friend_events alice_inviting).
Proof.
  assert (rtc node_step alice (do_friend_events alice_inviting)) as Hs.
  { eapply rtc_l with (y := alice_inviting); [|apply rtc_once, step_friend_events].
    apply (step_invite alice (Some bob_id) (Some "bundle"%string) (Some (some_bytes 1300)) 7 8 42 0
      1000 0). vm_compute. reflexivity. }
  split; [exact alice_wf|split; [exact Hs|]].
  exact (reachable_nodes_wf alice (do_friend_events alice_inviting) alice_wf Hs).
Defined.
