(* ===== verification/PersistenceProps.v ===== *)
(** * Properties of the data file

    The image loads back; a crash at any point of a store leaves the old data or
    the new; images the loader refuses; the conversion of the older files. *)

From Stdlib Require Import Ascii Strings.Byte.
From S2P Require Import Prelude ElaError ElaCP Carrier Sample Invite Persistence.

(** ** Sizes *)

Lemma ROUND256_eq s : 0 <= s -> ROUND256 s = ((s + 64) / 256 + 1) * 256.
Proof.
  intros Hs. unfold ROUND256. rewrite Z.shiftl_mul_pow2, Z.shiftr_div_pow2 by lia. done.
Qed.

Lemma ROUND256_bounds s : 0 <= s -> s + 64 < ROUND256 s <= s + 320.
Proof. intros Hs. rewrite ROUND256_eq by done. Z.div_mod_to_equations. lia. Qed.

Lemma copy_in_app pre mid post new off :
  off = Z.of_nat (length pre) -> length new = length mid ->
  copy_in (pre ++ mid ++ post) off new = Ok (pre ++ new ++ post).
Proof.
  intros -> Hl. unfold copy_in. rewrite !length_app, Hl, (proj2 (Z.leb_le _ _)) by lia.
  unfold splice. rewrite Nat2Z.id, take_app_length, Hl, <- drop_drop, drop_app_length.
  by rewrite drop_app_length.
Qed.

Lemma copy_in_head mid post new :
  length new = length mid -> copy_in (mid ++ post) 0 new = Ok (new ++ post).
Proof. by apply (copy_in_app []). Qed.

(** Writing over the start of an area of zeros. *)
Lemma copy_in_zeroed pre n post new off :
  off = Z.of_nat (length pre) -> Z.of_nat (length new) <= n ->
  copy_in (pre ++ zeroed n ++ post) off new =
    Ok (pre ++ new ++ zeroed (n - Z.of_nat (length new)) ++ post).
Proof.
  intros Hoff Hn. replace n with (Z.of_nat (length new) + (n - Z.of_nat (length new))) at 1 by lia.
  rewrite zeroed_add by lia. rewrite <- app_assoc. apply copy_in_app; [done|].
  rewrite length_zeroed. lia.
Qed.

(** ** Labels *)

Lemma length_label_entry fi : Z.of_nat (length (label_entry fi)) = 4 + label_len fi + 1.
Proof. unfold label_entry. rewrite length_app, length_be_bytes, Nat2Z.inj_add, length_c_bytes. unfold label_len. lia. Qed.

Definition labelled (l : list FriendInfo) : list FriendInfo :=
  base.filter (fun fi => label_len fi <> 0) l.

Definition entries (l : list FriendInfo) : list byte := concat (label_entry <$> labelled l).

Lemma entries_cons fi l :
  entries (fi :: l) = if label_len fi =? 0 then entries l else label_entry fi ++ entries l.
Proof.
  unfold entries, labelled. rewrite filter_cons. destruct (Z.eqb_spec (label_len fi) 0).
  - by rewrite decide_False by lia.
  - by rewrite decide_True by done.
Qed.

Section Image.
Context `{!HashTables} {L : HashTablesLaws _} `{!Sha256} {dht : Type} `{!DhtSave dht}.
Implicit Types w : ElaCarrier dht.

Lemma extra_size w :
  get_extra_savedata_size w = Z.of_nat (length (entries (ht_items (friends w)).*2)).
Proof.
  unfold get_extra_savedata_size. generalize (ht_items (friends w)).*2. intros l.
  enough (forall total, foldl (fun total fi => if label_len fi =? 0 then total
    else total + (4 + label_len fi + 1)) total l = total + Z.of_nat (length (entries l))) as ->; [lia|].
  induction l as [|fi l IH]; intros total; [cbn; lia|]. cbn [foldl]. rewrite IH, entries_cons.
  destruct (label_len fi =? 0); [done|]. rewrite length_app, Nat2Z.inj_add, length_label_entry. lia.
Qed.

(** With room enough every entry is written. *)
Lemma extra_entries_all l len : Z.of_nat (length (entries l)) <= len -> extra_entries l len = entries l.
Proof.
  induction l as [|fi l IH] in len |- *; intros Hlen; [done|]. cbn [extra_entries].
  rewrite entries_cons in *. pose proof (strlen_nonneg (label (info fi))) as Hl0.
  pose proof (length_label_entry fi) as Hle. unfold label_len in *.
  destruct (Z.eqb_spec (strlen (label (info fi))) 0) as [He|Hne].
  - rewrite Z.gtb_ltb. destruct (Z.ltb_spec 0 len); [by apply IH|].
    assert (length (entries l) = 0)%nat as E by lia. by destruct (entries l).
  - rewrite length_app in Hlen. rewrite Z.gtb_ltb, (proj2 (Z.ltb_lt _ _)), (proj2 (Z.ltb_ge _ _)) by lia.
    rewrite IH by lia. done.
Qed.

Lemma get_extra_all w len : get_extra_savedata_size w <= len ->
  get_extra_savedata w len = entries (ht_items (friends w)).*2.
Proof. rewrite extra_size. apply extra_entries_all. Qed.

(** The sections, padded. *)
Definition padded (s : list byte) : list byte :=
  s ++ zeroed (ROUND256 (Z.of_nat (length s)) - Z.of_nat (length s)).

Lemma length_padded s : Z.of_nat (length (padded s)) = ROUND256 (Z.of_nat (length s)).
Proof.
  unfold padded. rewrite length_app, length_zeroed.
  pose proof (ROUND256_bounds (Z.of_nat (length s))). lia.
Qed.

Definition image_of (d x : list byte) : list byte :=
  be_bytes 4 PERSISTENCE_MAGIC ++ be_bytes 4 PERSISTENCE_REVISION ++
  be_bytes 4 (u32 (Z.of_nat (length d))) ++ be_bytes 4 (u32 (Z.of_nat (length x))) ++
  sha256 (padded d ++ padded x) ++ zeroed 208 ++ padded d ++ padded x.

(** The header goes over the first 256 bytes; what is behind the digested part stays. *)
Lemma seal_image_spec body tail dl xl total :
  total - 256 = Z.of_nat (length body) ->
  seal_image (zeroed 256 ++ body ++ tail) dl xl total =
    Ok (be_bytes 4 PERSISTENCE_MAGIC ++ be_bytes 4 PERSISTENCE_REVISION ++ be_bytes 4 (u32 dl) ++
        be_bytes 4 (u32 xl) ++ sha256 body ++ zeroed 208 ++ body ++ tail).
Proof.
  intros Ht. unfold seal_image.
  change (zeroed 256) with (zeroed 4 ++ zeroed 4 ++ zeroed 4 ++ zeroed 4 ++ zeroed 32 ++ zeroed 208).
  rewrite <- !app_assoc. rewrite copy_in_head by (by rewrite length_be_bytes).
  cbn [mbind Res_bind app].
  set (m := be_bytes 4 PERSISTENCE_MAGIC). assert (length m = 4%nat) as Hm by apply length_be_bytes.
  rewrite copy_in_app by (rewrite ?Hm; done || by rewrite length_be_bytes). cbn [mbind Res_bind].
  set (r := be_bytes 4 PERSISTENCE_REVISION). assert (length r = 4%nat) as Hr by apply length_be_bytes.
  rewrite (app_assoc m r), (copy_in_app (m ++ r))
    by (rewrite ?length_app, ?Hm, ?Hr; done || by rewrite length_be_bytes). cbn [mbind Res_bind].
  set (a := be_bytes 4 (u32 dl)). assert (length a = 4%nat) as Ha by apply length_be_bytes.
  rewrite (app_assoc _ a), (copy_in_app ((m ++ r) ++ a))
    by (rewrite ?length_app, ?Hm, ?Hr, ?Ha; done || by rewrite length_be_bytes). cbn [mbind Res_bind].
  set (b := be_bytes 4 (u32 xl)). assert (length b = 4%nat) as Hb by apply length_be_bytes.
  rewrite (app_assoc _ b), (copy_in_app (((m ++ r) ++ a) ++ b))
    by (rewrite ?length_app, ?Hm, ?Hr, ?Ha, ?Hb; done || by rewrite sha256_length).
  rewrite <- !app_assoc. do 8 f_equal.
  rewrite !(app_assoc _ _ (body ++ tail)).
  rewrite drop_app_length' by (rewrite !length_app, Hm, Hr, Ha, Hb, !length_zeroed; done).
  apply take_app_length'. lia.
Qed.

Lemma store_image_spec w :
  store_image w = Ok (image_of (dht_get_savedata (dht_state w)) (entries (ht_items (friends w)).*2)).
Proof.
  unfold store_image. set (d := dht_get_savedata (dht_state w)).
  set (x := entries (ht_items (friends w)).*2).
  pose proof (ROUND256_bounds (Z.of_nat (length d))) as Hd.
  pose proof (ROUND256_bounds (Z.of_nat (length x))) as Hx.
  rewrite extra_size. fold x. rewrite !zeroed_add by lia. rewrite <- app_assoc.
  rewrite (copy_in_zeroed (zeroed 256)) by (rewrite ?length_zeroed; lia). cbn [mbind Res_bind].
  rewrite get_extra_all by (rewrite extra_size; fold x; lia). fold x.
  rewrite <- (app_nil_r (zeroed (ROUND256 (Z.of_nat (length x))))), !app_assoc, <- (app_assoc _ _ []).
  rewrite copy_in_zeroed by (rewrite ?length_app, ?length_zeroed; lia). cbn [mbind Res_bind].
  rewrite app_nil_r, <- !app_assoc. rewrite (app_assoc d).
  change (d ++ zeroed _) with (padded d). change (x ++ zeroed _) with (padded x).
  rewrite <- (app_nil_r (padded d ++ _)), seal_image_spec, app_nil_r; [done|].
  rewrite length_app, Nat2Z.inj_add, !length_padded. lia.
Qed.

(** ** Loading an image *)

(** The fields of an image, by the loader's offsets. *)
Lemma image_fields d x :
  let im := image_of d x in
  take 4 im = be_bytes 4 PERSISTENCE_MAGIC /\ take 4 (drop 4 im) = be_bytes 4 PERSISTENCE_REVISION /\
  take 4 (drop 8 im) = be_bytes 4 (u32 (Z.of_nat (length d))) /\
  take 4 (drop 12 im) = be_bytes 4 (u32 (Z.of_nat (length x))) /\
  take 32 (drop 16 im) = sha256 (padded d ++ padded x) /\ drop 256 im = padded d ++ padded x /\
  Z.of_nat (length im) =
    256 + ROUND256 (Z.of_nat (length d)) + ROUND256 (Z.of_nat (length x)).
Proof.
  intros im. subst im. unfold image_of.
  set (m := be_bytes 4 PERSISTENCE_MAGIC). assert (length m = 4%nat) as Hm by apply length_be_bytes.
  set (r := be_bytes 4 PERSISTENCE_REVISION). assert (length r = 4%nat) as Hr by apply length_be_bytes.
  set (a := be_bytes 4 _). assert (length a = 4%nat) as Ha by apply length_be_bytes.
  set (b := be_bytes 4 _). assert (length b = 4%nat) as Hb by apply length_be_bytes.
  set (h := sha256 _). assert (length h = 32%nat) as Hh by apply sha256_length.
  split_and!.
  - by rewrite take_app_length'.
  - by rewrite drop_app_length', take_app_length'.
  - rewrite (app_assoc m), drop_app_length' by (rewrite length_app, Hm, Hr; done).
    by rewrite take_app_length'.
  - rewrite (app_assoc m), (app_assoc _ a), drop_app_length'
      by (rewrite !length_app, Hm, Hr, Ha; done). by rewrite take_app_length'.
  - rewrite (app_assoc m), (app_assoc _ a), (app_assoc _ b), drop_app_length'
      by (rewrite !length_app, Hm, Hr, Ha, Hb; done). by rewrite take_app_length'.
  - rewrite (app_assoc m), (app_assoc _ a), (app_assoc _ b), (app_assoc _ h), (app_assoc _ (zeroed 208)).
    rewrite drop_app_length' by (rewrite !length_app, Hm, Hr, Ha, Hb, Hh, length_zeroed; done). done.
  - rewrite !length_app, Hm, Hr, Ha, Hb, Hh, length_zeroed, !Nat2Z.inj_add, !length_padded. lia.
Qed.

Lemma be_read_u32 n : 0 <= n < 2 ^ 32 -> be_read (be_bytes 4 (u32 n)) = n.
Proof.
  intros Hn. rewrite be_read_bytes. change (8 * Z.of_nat 4) with 32. by rewrite !u32_small by (rewrite ?u32_small; lia).
Qed.

Lemma be_read_magic : be_read (be_bytes 4 PERSISTENCE_MAGIC) = PERSISTENCE_MAGIC.
Proof. reflexivity. Qed.
Lemma be_read_revision : be_read (be_bytes 4 PERSISTENCE_REVISION) = PERSISTENCE_REVISION.
Proof. reflexivity. Qed.

Lemma load_image d x :
  Z.of_nat (length d) <= MAX_PERSISTENCE_SECTION_SIZE ->
  Z.of_nat (length x) <= MAX_PERSISTENCE_SECTION_SIZE ->
  _load_persistence_data_i (image_of d x) = Some
    {| dht_savedata_len := Z.of_nat (length d); dht_savedata := padded d ++ padded x;
       extra_savedata_len := Z.of_nat (length x); extra_savedata := padded x |}.
Proof.
  intros Hd Hx. destruct (image_fields d x) as (H1 & H2 & H3 & H4 & H5 & H6 & Hl).
  unfold _load_persistence_data_i. rewrite H1, H2, H3, H4, H5, H6, Hl.
  unfold MAX_PERSISTENCE_SECTION_SIZE in *.
  rewrite be_read_magic, be_read_revision, !be_read_u32 by lia.
  pose proof (ROUND256_bounds (Z.of_nat (length d))). pose proof (ROUND256_bounds (Z.of_nat (length x))).
  rewrite (proj2 (Z.ltb_ge _ 256)) by lia. rewrite !Z.eqb_refl, !Z.gtb_ltb.
  rewrite !(proj2 (Z.ltb_ge _ (Z.of_nat _))) by lia. rewrite bool_decide_true by done.
  cbn [negb]. do 2 f_equal. apply drop_app_length'. rewrite <- length_padded. lia.
Qed.

(** The data file of a node that has grown past 16 MB of DHT state is written but
    never read back: the store does not check the bound that the loader enforces,
    and it has removed the previous file by then. *)
Lemma oversized_state_is_lost w image :
  store_image w = Ok image ->
  MAX_PERSISTENCE_SECTION_SIZE < Z.of_nat (length (dht_get_savedata (dht_state w))) < 2 ^ 32 ->
  _load_persistence_data_i image = None.
Proof.
  rewrite store_image_spec. intros [= <-] Hl.
  destruct (image_fields (dht_get_savedata (dht_state w)) (entries (ht_items (friends w)).*2))
    as (H1 & H2 & H3 & _).
  unfold _load_persistence_data_i. rewrite H1, H2, H3, be_read_magic, be_read_revision, be_read_u32
    by (unfold MAX_PERSISTENCE_SECTION_SIZE in *; lia).
  rewrite (Z.gtb_ltb (Z.of_nat _)), (proj2 (Z.ltb_lt _ (Z.of_nat _))) by lia.
  by repeat case_match.
Qed.

(** A file that was cut short is refused. *)
Lemma load_prefix content data k :
  _load_persistence_data_i content = Some data -> (k < length content)%nat ->
  _load_persistence_data_i (take k content) = None.
Proof.
  intros Hc Hk. unfold _load_persistence_data_i in *.
  destruct (Z.ltb_spec (Z.of_nat (length content)) 256); [done|].
  rewrite length_take_le by lia. destruct (Z.ltb_spec (Z.of_nat k) 256) as [|Hk256]; [done|].
  assert (forall n m, (n + m <= 256)%nat -> take m (drop n (take k content)) = take m (drop n content))
    as Htd. { intros n m Hnm. rewrite !firstn_skipn_comm, take_take. do 2 f_equal. lia. }
  pose proof (Htd 0 4)%nat as E0. rewrite !drop_0 in E0. rewrite E0 by lia.
  rewrite (Htd 4 4)%nat, (Htd 8 4)%nat, (Htd 12 4)%nat by lia.
  repeat (case_match; [done|]). exfalso.
  rename select (negb (Z.of_nat (length content) =? _) = false) into Hl.
  rename select (negb (Z.of_nat k =? _) = false) into Hl'.
  apply negb_false_iff, Z.eqb_eq in Hl, Hl'. lia.
Qed.

(** ** Crashes *)

(** What the loader reads from files that it finds, and that a file is there. *)
Definition loads (fs : files) (data : persistence_data) : Prop :=
  forall io, exists fs', load_persistence_data io fs = Ok (Some data, fs').

Lemma loads_data_file fs data :
  load_journal fs = None -> load_data_file fs = Some data -> loads fs data.
Proof.
  intros Hj Hd io. exists fs. unfold load_persistence_data. rewrite Hj, bool_decide_true, Hd; [done|].
  unfold load_data_file in Hd. destruct (fs !! data_filename); [by eexists|done].
Qed.

Lemma loads_journal fs data content :
  fs !! journal_filename = Some content -> _load_persistence_data_i content = Some data ->
  loads fs data.
Proof.
  intros Hj Hd io. unfold load_persistence_data, load_journal. rewrite Hj. cbn. rewrite Hd. by eexists.
Qed.

Lemma load_journal_bad fs content :
  fs !! journal_filename = Some content -> _load_persistence_data_i content = None ->
  load_journal fs = None.
Proof. intros Hj Hd. unfold load_journal. rewrite Hj. cbn. by rewrite Hd. Qed.

Lemma data_file_kept fs x : load_data_file (<[journal_filename := x]> fs) = load_data_file fs.
Proof. unfold load_data_file. by rewrite lookup_insert_ne by done. Qed.

(** The image cut anywhere in the journal, next to the old file: the old data, or
    the new when nothing is missing. *)
Lemma writing_loads fs old new image k :
  load_data_file fs = Some old -> _load_persistence_data_i image = Some new ->
  loads (<[journal_filename := take k image]> fs) old \/
  loads (<[journal_filename := take k image]> fs) new.
Proof.
  intros Hold Hnew. destruct (decide (k < length image)%nat) as [Hk|Hk].
  - left. apply loads_data_file; [|by rewrite data_file_kept].
    eapply load_journal_bad; [apply lookup_insert_eq|by eapply load_prefix].
  - right. eapply loads_journal; [apply lookup_insert_eq|]. by rewrite take_ge by lia.
Qed.

(** What holds of every state of a replacement: it has to hold of the states with a
    piece of the journal, of those with the whole journal and of those with the
    new data file. *)
Lemma remove_files_journal names fs content :
  journal_filename ∉ names -> fs !! journal_filename = Some content ->
  Forall (fun fs' => fs' !! journal_filename = Some content) (remove_files names fs).
Proof.
  induction names as [|name names IH] in fs |- *; intros Hnames Hj; [by constructor|].
  apply not_elem_of_cons in Hnames as [Hne Hnames]. cbn [remove_files].
  constructor; [by rewrite lookup_delete_ne|]. apply IH; [done|]. by rewrite lookup_delete_ne.
Qed.

Lemma replace_file_states (P : files -> Prop) io image removed fs ok states :
  P fs -> (forall k, P (<[journal_filename := take k image]> fs)) -> P (delete journal_filename fs) ->
  (forall fs', fs' !! journal_filename = Some image -> P fs') ->
  (forall fs', fs' !! journal_filename = None -> fs' !! data_filename = Some image -> P fs') ->
  journal_filename ∉ removed -> replace_file io image removed fs = (ok, states) ->
  Forall P states /\
  (ok = true -> exists fs', last states = Some fs' /\ fs' !! journal_filename = None /\
                            fs' !! data_filename = Some image).
Proof.
  intros Hfs Hk Hdel Hj Hd Hnames. unfold replace_file. destruct (io_open io); cbn [negb].
  2: { intros [= <- <-]. split; [by apply Forall_singleton|done]. }
  generalize (Nat.min (io_written io) (length image)). intros n.
  assert (Forall P ((fun k => <[journal_filename := take k image]> fs) <$> seq 0 (S n))) as Hw.
  { apply Forall_fmap, Forall_forall. intros k _. apply Hk. }
  revert Hw. generalize ((fun k => <[journal_filename := take k image]> fs) <$> seq 0 (S n)).
  intros writing Hw.
  destruct (negb _ || negb _) eqn:Hbad; intros [= <- <-].
  - split; [|done]. constructor; [done|]. apply Forall_app. split; [done|].
    apply Forall_singleton. by rewrite delete_insert_eq.
  - apply orb_false_iff in Hbad as [Hn _]. apply negb_false_iff, Nat.eqb_eq in Hn.
    rewrite Hn, firstn_all.
    set (renamed := <[data_filename := image]> _).
    assert (renamed !! journal_filename = None) as Hr1.
    { unfold renamed. by rewrite lookup_insert_ne, lookup_delete_eq. }
    assert (renamed !! data_filename = Some image) as Hr2 by apply lookup_insert_eq.
    split.
    + constructor; [done|]. apply Forall_app. split; [done|].
      apply Forall_app. split; [|by apply Forall_singleton, Hd].
      eapply Forall_impl; [|exact Hj]. apply remove_files_journal; [|apply lookup_insert_eq].
      apply not_elem_of_app. split; [done|]. by apply not_elem_of_cons; split; [|apply not_elem_of_nil].
    + intros _. exists renamed. split; [|done]. by rewrite app_comm_cons, app_assoc, last_snoc.
Qed.

(** C9. A crash loses nothing.  Whatever becomes of the file operations and wherever
    the process stops while it replaces the data file, the next start loads either
    the old data or the new, whole; and when the store reports success the new
    data is what loads. *)
Theorem store_crash_safe io fs old new w image ok states :
  load_journal fs = None -> load_data_file fs = Some old ->
  store_image w = Ok image -> _load_persistence_data_i image = Some new ->
  store_files io w fs = Ok (ok, states) ->
  Forall (fun fs' => loads fs' old \/ loads fs' new) states /\
  (ok = true -> exists fs', last states = Some fs' /\ loads fs' new).
Proof.
  intros Hj Hold Himage Hnew. unfold store_files. rewrite Himage. cbn. intros [= Hrep].
  assert (forall fs', fs' !! journal_filename = None -> fs' !! data_filename = Some image -> loads fs' new)
    as Hdone.
  { intros fs' Hj' Hd'. apply loads_data_file.
    - unfold load_journal. by rewrite Hj'.
    - unfold load_data_file. by rewrite Hd'. }
  apply (replace_file_states (fun fs' => loads fs' old \/ loads fs' new)) in Hrep as [Hall Hok].
  - split; [done|]. intros (fs' & Hl & Hj' & Hd')%Hok. exists fs'. auto.
  - left. by apply loads_data_file.
  - intros k. by apply writing_loads.
  - left. apply loads_data_file.
    + unfold load_journal. by rewrite lookup_delete_eq.
    + unfold load_data_file. by rewrite lookup_delete_ne.
  - intros fs' Hj'. right. by eapply loads_journal.
  - auto.
  - apply not_elem_of_nil.
Qed.

(** ** Labels *)

(** The friend with its label taken away, as the DHT's own list has it. *)
Definition unlabelled (fi : FriendInfo) : FriendInfo :=
  { fi with info := { info fi with label := ""%string } }.

(** A friend that can be written: its number fits, its label is a C string that
    fits its field. *)
Definition writable (n : Z) (fi : FriendInfo) : Prop :=
  friend_number fi = n /\ 0 <= n < UINT32_MAX /\ label_len fi <= ELA_MAX_USER_NAME_LEN /\
  x00 ∉ String.list_byte_of_string (label (info fi)).

Lemma unlabelled_eq fi : label_len fi = 0 -> unlabelled fi = fi.
Proof.
  unfold label_len. intros Hl%strlen_zero. unfold unlabelled. destruct fi as [[] ?]; cbn in *. by subst.
Qed.

(** The friend table once the labels of [l] are back. *)
Definition restored (l : list (Z * FriendInfo)) (t0 t : hashtable Z FriendInfo) : Prop :=
  forall n, ht_get t n = match (list_to_map l : gmap Z FriendInfo) !! n with
                         | Some fi => Some fi | None => ht_get t0 n end.

Lemma apply_entry fuel w fi rest len :
  writable (friend_number fi) fi -> label_len fi <> 0 ->
  4 + label_len fi + 1 <= len < 2 ^ 64 ->
  ht_get (friends w) (friend_number fi) = Some (unlabelled fi) ->
  apply_entries (S fuel) w (label_entry fi ++ rest) len =
    apply_entries fuel (friends_put fi w) rest (len - (4 + label_len fi + 1)).
Proof.
  intros (_ & Hn & Hl & Hnul) Hne Hlen Hget. cbn [apply_entries].
  pose proof (strlen_nonneg (label (info fi))) as Hpos. fold (label_len fi) in Hpos.
  rewrite Z.gtb_ltb, (proj2 (Z.ltb_lt 0 len)) by lia. unfold label_entry at 1 2 3. rewrite <- app_assoc.
  assert (length (be_bytes 4 (friend_number fi)) = 4%nat) as H4 by apply length_be_bytes.
  rewrite length_app, H4, (proj2 (Z.ltb_ge _ 4)) by lia.
  rewrite take_app_length', drop_app_length', c_string_bytes by done.
  rewrite be_read_bytes. change (uwrap (8 * Z.of_nat 4)) with u32.
  unfold UINT32_MAX in *. rewrite u32_small by lia.
  change (strlen (label (info fi))) with (label_len fi).
  rewrite (proj2 (Z.eqb_neq _ _) Hne).
  unfold friends_get. rewrite (proj2 (Z.eqb_neq _ _)) by (unfold UINT32_MAX; lia).
  cbn [negb c_assert mbind Res_bind]. rewrite Hget. rewrite strcpy_Ok by (unfold label_len in *; lia).
  cbn [mbind Res_bind]. rewrite u64_small by lia. f_equal. by destruct fi as [[] ?].
Qed.

Lemma apply_entries_restore l fuel w rest :
  Forall (fun p => writable p.1 p.2) l -> NoDup l.*1 ->
  (forall n fi, (n, fi) ∈ l -> ht_get (friends w) n = Some (unlabelled fi)) ->
  (length (entries l.*2) < fuel)%nat -> Z.of_nat (length (entries l.*2)) < 2 ^ 64 ->
  exists w', apply_entries fuel w (entries l.*2 ++ rest) (Z.of_nat (length (entries l.*2))) = Ok w' /\
    restored l (friends w) (friends w').
Proof.
  intros Hw. induction Hw as [|[n fi] l Hfi Hw IH] in fuel, w |- *; intros Hnd Hget Hfuel Hlen.
  { exists w. split; [by destruct fuel; [lia|]|]. by intros k. }
  cbn [fmap list_fmap fst snd] in *. apply NoDup_cons in Hnd as [Hnin Hnd].
  pose proof Hfi as (Hnum & _). cbn [fst snd] in *. rewrite entries_cons in *.
  assert (ht_get (friends w) n = Some (unlabelled fi)) as Hn by (apply Hget; left).
  assert (forall k fi', (k, fi') ∈ l -> k <> n) as Hkn.
  { intros k fi' Hk ->. apply Hnin. apply list_elem_of_fmap. by exists (n, fi'). }
  destruct fuel as [|fuel]; [lia|]. destruct (Z.eqb_spec (label_len fi) 0) as [Hz|Hz].
  - destruct (IH (S fuel) w Hnd) as (w' & -> & Hr); [intros; apply Hget; by right|done|done|].
    exists w'. split; [done|]. intros k. rewrite Hr. cbn [list_to_map foldr]. cbn.
    destruct (decide (k = n)) as [->|Hne]; [|by rewrite lookup_insert_ne].
    rewrite lookup_insert_eq, not_elem_of_list_to_map_1 by done. by rewrite Hn, unlabelled_eq.
  - rewrite <- app_assoc. rewrite length_app in *. pose proof (length_label_entry fi) as Hle.
    rewrite Nat2Z.inj_add in *. pose proof (strlen_nonneg (label (info fi)) : 0 <= label_len fi).
    rewrite apply_entry; [|by rewrite Hnum|done|lia|by rewrite Hnum].
    replace (_ + _ - _) with (Z.of_nat (length (entries l.*2))) by lia.
    destruct (IH fuel (friends_put fi w) Hnd) as (w' & -> & Hr); [|lia|lia|].
    { intros k fi' Hk. cbn. rewrite ht_get_put_ne; [apply Hget; by right|].
      rewrite Hnum. intros ->. by eapply Hkn. }
    exists w'. split; [done|]. intros k. rewrite Hr. cbn.
    destruct (decide (k = n)) as [->|Hne].
    + rewrite lookup_insert_eq, not_elem_of_list_to_map_1 by done. by rewrite Hnum, ht_get_put_eq.
    + rewrite lookup_insert_ne by done. by rewrite Hnum, ht_get_put_ne.
Qed.

(** C8. What a node stores, it finds again.  The image that [store_persistence_data]
    writes loads when neither section exceeds 16 MB; it gives back the DHT's state,
    byte for byte, and its labels, applied to the list of friends the DHT comes up
    with, restore the friend table as it was. *)
Theorem store_load_roundtrip w w0 :
  Z.of_nat (length (dht_get_savedata (dht_state w))) <= MAX_PERSISTENCE_SECTION_SIZE ->
  get_extra_savedata_size w <= MAX_PERSISTENCE_SECTION_SIZE ->
  (forall n fi, ht_get (friends w) n = Some fi -> writable n fi) ->
  (forall n, ht_get (friends w0) n = unlabelled <$> ht_get (friends w) n) ->
  exists image data w', store_image w = Ok image /\ _load_persistence_data_i image = Some data /\
    take (Z.to_nat (dht_savedata_len data)) (dht_savedata data) = dht_get_savedata (dht_state w) /\
    apply_extra_data w0 (extra_savedata data) (extra_savedata_len data) = Ok w' /\
    forall n, ht_get (friends w') n = ht_get (friends w) n.
Proof.
  intros Hd Hx Hok Hw0. rewrite extra_size in Hx. set (l := ht_items (friends w)) in *.
  set (d := dht_get_savedata (dht_state w)) in *.
  set (x := entries l.*2) in *.
  destruct (apply_entries_restore l (S (length (padded x))) w0
    (zeroed (ROUND256 (Z.of_nat (length x)) - Z.of_nat (length x)))) as (w' & Happ & Hr).
  - apply Forall_forall. intros [n fi] Hin%ht_items_get. by apply Hok.
  - apply ht_items_nodup.
  - intros n fi Hin%ht_items_get. by rewrite Hw0, Hin.
  - fold x. unfold padded. rewrite length_app. lia.
  - fold x. unfold MAX_PERSISTENCE_SECTION_SIZE in *. lia.
  - exists (image_of d x), {| dht_savedata_len := Z.of_nat (length d);
      dht_savedata := padded d ++ padded x; extra_savedata_len := Z.of_nat (length x);
      extra_savedata := padded x |}, w'.
    split; [apply store_image_spec|]. split; [by apply load_image|]. cbn [dht_savedata_len dht_savedata
      extra_savedata extra_savedata_len]. split; [|split; [exact Happ|]].
    + rewrite Nat2Z.id. unfold padded. by rewrite <- app_assoc, take_app_length.
    + intros n. rewrite Hr. destruct (list_to_map l !! n) as [fi|] eqn:Hn.
      * apply elem_of_list_to_map_2, ht_items_get in Hn. done.
      * rewrite Hw0. destruct (ht_get (friends w) n) as [fi|] eqn:Hfi; [|done].
        apply ht_items_get in Hfi. apply not_elem_of_list_to_map_2 in Hn. destruct Hn.
        apply list_elem_of_fmap. by exists (n, fi).
Qed.
(** ** Conversion of the older files *)

(** An entry of the old file: the number in the host's order. *)
Definition old_entry (fi : FriendInfo) : list byte :=
  le_split 4 (friend_number fi) ++ c_bytes (label (info fi)).
Definition old_entries (l : list FriendInfo) : list byte := concat (old_entry <$> l).
(** The old file: a public key, the count, the entries. *)
Definition old_eladata (pk : list byte) (l : list FriendInfo) : list byte :=
  pk ++ le_split 4 (Z.of_nat (length l)) ++ old_entries l.

Lemma le_combine_u32 n : 0 <= n < 2 ^ 32 -> le_combine (le_split 4 n) = n.
Proof. intros Hn. rewrite le_combine_split. change (8 * Z.of_nat 4) with 32. by rewrite Z.mod_small. Qed.

Lemma old_entries_cons fi l :
  old_entries (fi :: l) = le_split 4 (friend_number fi) ++ c_bytes (label (info fi)) ++ old_entries l.
Proof. unfold old_entries. cbn. unfold old_entry at 1. by rewrite <- app_assoc. Qed.

Lemma convert_entries_spec l rest :
  Forall (fun fi => writable (friend_number fi) fi) l ->
  convert_entries (length l) (old_entries l ++ rest) = Ok (entries l, rest).
Proof.
  induction 1 as [|fi l (_ & Hn & _ & Hnul) Hl IH]; [done|].
  rewrite old_entries_cons, <- !app_assoc. cbn [length convert_entries].
  assert (length (le_split 4 (friend_number fi)) = 4%nat) as H4 by apply length_le_split.
  rewrite length_app, H4, (proj2 (Z.ltb_ge _ 4)) by lia.
  rewrite take_app_length', drop_app_length', c_string_bytes by done.
  rewrite IH. cbn [mbind Res_bind]. rewrite entries_cons, le_combine_u32 by (unfold UINT32_MAX in *; lia).
  change (strlen (label (info fi))) with (label_len fi). destruct (label_len fi =? 0); [done|].
  unfold label_entry. by rewrite <- app_assoc.
Qed.

Lemma entries_shorter l : (length (entries l) <= length (old_entries l))%nat.
Proof.
  induction l as [|fi l IH]; [done|]. rewrite entries_cons, old_entries_cons, !length_app.
  destruct (label_len fi =? 0); [lia|]. unfold label_entry.
  rewrite !length_app, length_be_bytes, length_le_split. lia.
Qed.

Lemma ROUND256_mono a b : 0 <= a <= b -> ROUND256 a <= ROUND256 b.
Proof. intros Hab. rewrite !ROUND256_eq by lia. Z.div_mod_to_equations. lia. Qed.

Lemma padded_in s n : Z.of_nat (length s) <= n ->
  s ++ zeroed (ROUND256 n - Z.of_nat (length s)) =
    padded s ++ zeroed (ROUND256 n - ROUND256 (Z.of_nat (length s))).
Proof.
  intros Hn. pose proof (ROUND256_mono (Z.of_nat (length s)) n).
  pose proof (ROUND256_bounds (Z.of_nat (length s))).
  unfold padded. rewrite <- app_assoc, <- zeroed_add by lia. do 2 f_equal. lia.
Qed.
(** The old labels in their section of a buffer, rewritten in place. *)
Lemma convert_section_spec pre l :
  Forall (fun fi => writable (friend_number fi) fi) l ->
  let xl := Z.of_nat (length (old_entries l)) in
  convert_section (pre ++ old_entries l ++ zeroed (ROUND256 xl - xl)) (Z.of_nat (length pre))
      (Z.of_nat (length l)) =
    Ok (pre ++ padded (entries l) ++ zeroed (ROUND256 xl - ROUND256 (Z.of_nat (length (entries l)))),
        Z.of_nat (length (entries l))).
Proof.
  intros Hl xl. unfold convert_section. rewrite !Nat2Z.id, drop_app_length, convert_entries_spec by done.
  cbn [mbind Res_bind]. pose proof (entries_shorter l) as Hle. pose proof (ROUND256_bounds xl) as Hx.
  rewrite !length_app, !Nat2Z.inj_add. fold xl.
  replace (_ + _ - _ - _ - _) with (xl - Z.of_nat (length (entries l))) by lia.
  rewrite copy_in_app; [|done|rewrite length_app, length_zeroed; lia]. cbn [mbind Res_bind].
  do 3 f_equal. rewrite <- padded_in by lia. rewrite <- app_assoc. f_equal.
  rewrite <- zeroed_add by lia. f_equal. lia.
Qed.

Lemma seal_sections d x tail dl xl total :
  dl = Z.of_nat (length d) -> xl = Z.of_nat (length x) -> total = 256 + ROUND256 dl + ROUND256 xl ->
  (buf ← seal_image (zeroed 256 ++ padded d ++ padded x ++ tail) dl xl total;
   Ok (take (Z.to_nat total) buf)) = Ok (image_of d x).
Proof.
  intros -> -> ->. rewrite (app_assoc (padded d)), seal_image_spec
    by (rewrite length_app, Nat2Z.inj_add, !length_padded; lia).
  cbn [mbind Res_bind]. unfold image_of. f_equal. rewrite !app_assoc. apply take_app_length'.
  rewrite !length_app, !length_be_bytes, sha256_length, length_zeroed.
  pose proof (length_padded d). pose proof (length_padded x). lia.
Qed.

Lemma convert_image_spec pk l d :
  length pk = 32%nat -> Z.of_nat (length l) < 2 ^ 32 ->
  Forall (fun fi => writable (friend_number fi) fi) l ->
  convert_image d (Some (old_eladata pk l)) = Ok (image_of d (entries l)).
Proof.
  intros Hpk Hcount Hl. unfold convert_image, old_eladata. cbn [default id].
  assert (length (le_split 4 (Z.of_nat (length l))) = 4%nat) as H4 by apply length_le_split.
  rewrite !length_app, Hpk, H4, !Nat2Z.inj_add. set (xl := Z.of_nat (length (old_entries l))).
  unfold PUBLIC_KEY_BYTES. rewrite (proj2 (Z.ltb_ge _ (32 + 4))) by lia.
  replace (_ + (_ + xl) - 32 - 4) with xl by lia.
  pose proof (ROUND256_bounds (Z.of_nat (length d))) as Hd. pose proof (ROUND256_bounds xl) as Hx.
  rewrite !zeroed_add, <- app_assoc by lia.
  rewrite (copy_in_zeroed (zeroed 256)) by (rewrite ?length_zeroed; lia). cbn [mbind Res_bind].
  rewrite (app_assoc d). change (d ++ zeroed _) with (padded d).
  assert (Z.of_nat (length (zeroed 256 ++ padded d)) = 256 + ROUND256 (Z.of_nat (length d))) as Hpos.
  { by rewrite length_app, Nat2Z.inj_add, length_padded, length_zeroed. }
  destruct (Z.eqb_spec xl 0) as [Hz|Hz].
  - assert (entries l = []) as E.
    { pose proof (entries_shorter l). destruct (entries l); cbn in *; [done|lia]. }
    assert (zeroed (ROUND256 0) = padded []) as Hp by reflexivity.
    cbn [mbind Res_bind]. rewrite E, Hz, Hp, <- (app_nil_r (padded [])).
    by rewrite (seal_sections d [] []).
  - assert (0 < Z.of_nat (length l)) as Hpos0 by (destruct l; [done|cbn; lia]).
    rewrite (drop_app_length' pk), take_app_length', le_combine_u32 by (done || lia).
    rewrite Z.gtb_ltb, (proj2 (Z.ltb_lt 0 _)) by done.
    rewrite (app_assoc pk), (drop_app_length' (pk ++ _)) by (by rewrite length_app, Hpk, H4).
    rewrite <- Hpos, <- (app_nil_r (zeroed (ROUND256 xl))), (app_assoc (zeroed 256)).
    rewrite copy_in_zeroed by (done || lia). cbn [mbind Res_bind]. rewrite app_nil_r. fold xl.
    rewrite convert_section_spec by done. cbn [mbind Res_bind]. rewrite <- !app_assoc.
    rewrite (seal_sections d (entries l)); [done|done|done|]. by rewrite Hpos.
Qed.

(** The data of a conversion, as the loader returns it. *)
Definition converted (d : list byte) (l : list FriendInfo) : persistence_data :=
  {| dht_savedata_len := Z.of_nat (length d); dht_savedata := padded d ++ padded (entries l);
     extra_savedata_len := Z.of_nat (length (entries l)); extra_savedata := padded (entries l) |}.

(** The next start loads [data], when its own file operations succeed. *)
Definition recovers (image : list byte) (data : persistence_data) (fs : files) : Prop :=
  forall io, io_open io = true -> io_fsync io = true -> (length image <= io_written io)%nat ->
    exists fs', load_persistence_data io fs = Ok (Some data, fs').

Lemma replace_file_succeeds io image removed fs :
  io_open io = true -> io_fsync io = true -> (length image <= io_written io)%nat ->
  (replace_file io image removed fs).1 = true.
Proof.
  intros Ho Hf Hw. unfold replace_file. rewrite Ho, Hf, Nat.min_r, Nat.eqb_refl by done. done.
Qed.

Lemma journal_not_old : journal_filename ∉ old_filenames.
Proof. unfold old_filenames. rewrite !not_elem_of_cons. repeat split; [done|done|apply not_elem_of_nil]. Qed.

(** The old files convert to the image, and what was converted loads. *)
Lemma reconverts fs dhtdata image data :
  load_journal fs = None -> fs !! data_filename = None -> fs !! old_dhtdata_filename = Some dhtdata ->
  convert_image dhtdata (fs !! old_eladata_filename) = Ok image ->
  _load_persistence_data_i image = Some data -> recovers image data fs.
Proof.
  intros Hj Hd Hdht Himage Hdata io Ho Hf Hw. unfold load_persistence_data, convert_old_dhtdata.
  rewrite Hj, Hd, Hdht, bool_decide_false by (by intros []). rewrite Himage. cbn [mbind Res_bind].
  pose proof (replace_file_succeeds io image old_filenames fs Ho Hf Hw) as Hok.
  destruct (replace_file io image old_filenames fs) as [ok states] eqn:Hrep. cbn in Hok. subst ok.
  apply (replace_file_states (fun _ => True)) in Hrep as [_ Hlast]; [|done..|].
  2: { apply journal_not_old. }
  destruct (Hlast eq_refl) as (fs' & -> & _ & Hfs'). cbn [default from_option id].
  exists fs'. unfold load_data_file. rewrite Hfs'. cbn. by rewrite Hdata.
Qed.

(** C10. The conversion of the older pair of files keeps everything, through any
    failure or crash: in every state it can leave the files in, the next start
    comes up with the old DHT state and all the old labels, converting again if it
    must; when it reports success the data file has them. *)
Theorem conversion_crash_safe io fs pk l d ok states :
  load_journal fs = None -> fs !! data_filename = None -> fs !! old_dhtdata_filename = Some d ->
  fs !! old_eladata_filename = Some (old_eladata pk l) -> length pk = 32%nat ->
  Z.of_nat (length l) < 2 ^ 32 -> Forall (fun fi => writable (friend_number fi) fi) l ->
  Z.of_nat (length d) <= MAX_PERSISTENCE_SECTION_SIZE ->
  Z.of_nat (length (entries l)) <= MAX_PERSISTENCE_SECTION_SIZE ->
  convert_old_dhtdata io fs = Ok (ok, states) ->
  Forall (recovers (image_of d (entries l)) (converted d l)) states /\
  (ok = true -> exists fs', last states = Some fs' /\ load_data_file fs' = Some (converted d l)).
Proof.
  intros Hj Hd Hdht Hela Hpk Hcount Hl Hdl Hxl. unfold convert_old_dhtdata.
  pose proof (load_image d (entries l) Hdl Hxl) as Hload.
  rewrite Hdht, Hela, convert_image_spec by done. cbn [mbind Res_bind]. intros [= Hrep].
  assert (forall fs', load_journal fs' = None -> fs' !! data_filename = None ->
    fs' !! old_dhtdata_filename = Some d -> fs' !! old_eladata_filename = Some (old_eladata pk l) ->
    recovers (image_of d (entries l)) (converted d l) fs') as Hagain.
  { intros fs' ??? E. eapply reconverts; eauto. by rewrite E, convert_image_spec. }
  apply (replace_file_states (recovers (image_of d (entries l)) (converted d l))) in Hrep
    as [Hall Hok].
  - split; [done|]. intros (fs' & Hlast & _ & Hfs')%Hok. exists fs'. split; [done|].
    unfold load_data_file. rewrite Hfs'. exact Hload.
  - by apply Hagain.
  - intros k. destruct (decide (k < length (image_of d (entries l)))%nat) as [Hk|Hk].
    + apply Hagain; rewrite ?lookup_insert_ne by done; try done.
      eapply load_journal_bad; [apply lookup_insert_eq|by eapply load_prefix].
    + intros io' _ _ _. eapply loads_journal; [apply lookup_insert_eq|]. by rewrite take_ge by lia.
  - apply Hagain; rewrite ?lookup_delete_ne by done; try done.
    unfold load_journal. by rewrite lookup_delete_eq.
  - intros fs' Hj' io' _ _ _. by eapply loads_journal.
  - intros fs' Hj' Hd' io' _ _ _. apply loads_data_file.
    + unfold load_journal. by rewrite Hj'.
    + unfold load_data_file. by rewrite Hd'.
  - apply journal_not_old.
Qed.
End Image.

(** ** Concrete files *)

(** A digest of the right size: the first bytes. *)
Lemma sample_sha256_length (bs : list byte) : length (take 32 (bs ++ zeroed 32)) = 32%nat.
Proof. rewrite length_take, length_app, length_zeroed. lia. Qed.

#[export] Instance sample_sha256 : Sha256 := {
  sha256 bs := take 32 (bs ++ zeroed 32); sha256_length := sample_sha256_length
}.

#[export] Instance sample_save : DhtSave sdht := {
  dht_get_savedata d := String.list_byte_of_string "tox" ++ be_bytes 4 (sd_next d)
}.

Definition bob_labelled : FriendInfo :=
  set info (fun i => { i with label := "Bobby" }) (new_friend bob_id 5).

(** Alice has labelled her friend; and Alice as she comes up again. *)
Definition alice_labels : ElaCarrier sdht := { alice with friends := ht_put 5 bob_labelled ht_empty }.
Definition alice_back : ElaCarrier sdht :=
  { alice with friends := ht_put 5 (unlabelled bob_labelled) ht_empty }.

Definition image_of_node (w : ElaCarrier sdht) : list byte := run (store_image w) [].
Definition empty_data : persistence_data :=
  {| dht_savedata_len := 0; dht_savedata := []; extra_savedata_len := 0; extra_savedata := [] |}.
Definition data_of_node (w : ElaCarrier sdht) : persistence_data :=
  default empty_data (_load_persistence_data_i (image_of_node w)).

(** A disk that works. *)
Definition good_io : file_io := {| io_open := true; io_written := Z.to_nat 1024; io_fsync := true |}.

Lemma bob_writable : writable 5 bob_labelled.
Proof.
  split; [done|]. split; [done|]. split; [done|].
  by apply (bool_decide_unpack (x00 ∉ String.list_byte_of_string "Bobby")).
Qed.

Lemma store_load_roundtrip_witness :
  exists image data w', store_image alice_labels = Ok image /\
    _load_persistence_data_i image = Some data /\
    take (Z.to_nat (dht_savedata_len data)) (dht_savedata data) =
      dht_get_savedata (dht_state alice_labels) /\
    apply_extra_data alice_back (extra_savedata data) (extra_savedata_len data) = Ok w' /\
    forall n, ht_get (friends w') n = ht_get (friends alice_labels) n.
Proof.
  apply store_load_roundtrip.
  - vm_compute. discriminate.
  - vm_compute. discriminate.
  - intros n fi. change (friends alice_labels) with (ht_put 5 bob_labelled ht_empty).
    destruct (decide (n = 5)) as [->|Hn].
    + rewrite ht_get_put_eq. intros [= <-]. apply bob_writable.
    + by rewrite ht_get_put_ne, ht_get_empty.
  - intros n. change (friends alice_labels) with (ht_put 5 bob_labelled ht_empty).
    change (friends alice_back) with (ht_put 5 (unlabelled bob_labelled) ht_empty).
    destruct (decide (n = 5)) as [->|Hn].
    + by rewrite !ht_get_put_eq.
    + by rewrite !ht_get_put_ne, ht_get_empty.
Defined.

Definition disk : files := {[ data_filename := image_of_node alice ]}.

Lemma store_crash_safe_witness :
  exists states, store_files good_io alice_labels disk = Ok (true, states) /\
    Forall (fun fs' => loads fs' (data_of_node alice) \/ loads fs' (data_of_node alice_labels)) states /\
    (true = true -> exists fs', last states = Some fs' /\ loads fs' (data_of_node alice_labels)).
Proof.
  assert (store_image alice_labels = Ok (image_of_node alice_labels)) as Hs
    by (rewrite store_image_spec; vm_compute; reflexivity).
  destruct (replace_file good_io (image_of_node alice_labels) [] disk) as [ok states] eqn:Hrep.
  pose proof (replace_file_succeeds good_io (image_of_node alice_labels) [] disk eq_refl eq_refl) as Hok.
  rewrite Hrep in Hok. cbn in Hok. rewrite Hok in Hrep
    by (apply Nat.leb_le; vm_compute; reflexivity).
  assert (store_files good_io alice_labels disk = Ok (true, states)) as Hf
    by (unfold store_files; rewrite Hs; cbn [mbind Res_bind]; by rewrite Hrep).
  exists states. split; [exact Hf|].
  refine (store_crash_safe good_io disk (data_of_node alice) (data_of_node alice_labels)
    alice_labels (image_of_node alice_labels) true states _ _ Hs _ Hf); vm_compute; reflexivity.
Defined.

Definition old_disk : files :=
  {[ old_dhtdata_filename := String.list_byte_of_string "toxsave";
     old_eladata_filename := old_eladata (replicate 32 (byte.of_Z 7)) [new_friend alice_id 3; bob_labelled] ]}.

Lemma conversion_crash_safe_witness :
  let d := String.list_byte_of_string "toxsave" in
  let l := [new_friend alice_id 3; bob_labelled] in
  exists states, convert_old_dhtdata good_io old_disk = Ok (true, states) /\
    Forall (recovers (image_of d (entries l)) (converted d l)) states /\
    (true = true -> exists fs', last states = Some fs' /\ load_data_file fs' = Some (converted d l)).
Proof.
  intros d l. assert (Forall (fun fi => writable (friend_number fi) fi) l) as Hl.
  { constructor; [|constructor; [apply bob_writable|constructor]].
    repeat split; try done. apply not_elem_of_nil. }
  destruct (replace_file good_io (image_of d (entries l)) old_filenames old_disk) as [ok states] eqn:Hrep.
  pose proof (replace_file_succeeds good_io (image_of d (entries l)) old_filenames old_disk
    eq_refl eq_refl) as Hok.
  rewrite Hrep in Hok. cbn in Hok. rewrite Hok in Hrep
    by (apply Nat.leb_le; vm_compute; reflexivity).
  assert (convert_old_dhtdata good_io old_disk = Ok (true, states)) as Hf.
  { unfold convert_old_dhtdata. change (old_disk !! old_dhtdata_filename) with (Some d).
    change (old_disk !! old_eladata_filename) with (Some (old_eladata (replicate 32 (byte.of_Z 7)) l)).
    cbn [mbind option_bind]. rewrite convert_image_spec by done. cbn [mbind Res_bind]. by rewrite Hrep. }
  exists states. split; [exact Hf|].
  apply (conversion_crash_safe good_io old_disk (replicate 32 (byte.of_Z 7)) l d true states); try done.
Defined.
