(* ===== verification/FlexBuffer.v ===== *)
(** * Flexible buffers (src/session/flex_buffer.h)

    The buffer that the stream handlers pass to each other: its data begins at an
    offset, which moves back when a handler prepends a header and forward when one
    is taken off.  A buffer is its fields and the bytes of its area; what a handler
    reads is [flex_data].

    Memory that the code does not initialise is a parameter, [Stack]. *)

From S2P Require Import Prelude.

Definition ELA_MAX_USER_DATA_LEN : Z := 2048.
Definition FLEX_PADDING_LEN : Z := 128.
Definition FLEX_BUFFER_MAX_LEN : Z := FLEX_PADDING_LEN * 2 + ELA_MAX_USER_DATA_LEN.

Record FlexBuffer := {
  fx_capacity : Z;       (* total space *)
  fx_offset : Z;         (* the first byte of the data *)
  fx_size : Z;           (* the length of the data *)
  fx_buffer : list byte
}.

(** The content of [n] bytes of fresh stack memory. *)
Class Stack := { stack_bytes : Z -> list byte; stack_length n : length (stack_bytes n) = Z.to_nat n }.

Definition flex_buffer_alloca `{!Stack} (capacity offset : Z) : FlexBuffer :=
  {| fx_capacity := capacity; fx_offset := offset; fx_size := 0; fx_buffer := stack_bytes capacity |}.

Definition flex_buffer_from `{!Stack} (offset : Z) (src : list byte) : FlexBuffer :=
  let len := Z.of_nat (length src) in
  {| fx_capacity := len + offset; fx_offset := offset; fx_size := len;
     fx_buffer := splice (Z.to_nat offset) src (stack_bytes (len + offset)) |}.

Definition flex_buffer_init (buffer : list byte) (capacity offset : Z) : FlexBuffer :=
  {| fx_capacity := capacity; fx_offset := offset; fx_size := 0; fx_buffer := buffer |}.

Definition flex_buffer_reset (buf : FlexBuffer) (offset : Z) : FlexBuffer :=
  { buf with fx_offset := offset; fx_size := 0 }.

Definition flex_buffer_available (buf : FlexBuffer) : Z :=
  u64 (fx_capacity buf - fx_offset buf - fx_size buf).

Definition flex_buffer_set_size (buf : FlexBuffer) (size : Z) : FlexBuffer :=
  { buf with fx_size := size }.

Definition flex_buffer_forward_offset (buf : FlexBuffer) (bytes : Z) : Res FlexBuffer :=
  _ ← c_assert (u64 (fx_offset buf + bytes) <=? fx_capacity buf);
  let bytes := if u64 (fx_offset buf + bytes) <=? fx_capacity buf then bytes
               else u64 (fx_capacity buf - fx_offset buf - 1) in
  Ok { buf with fx_offset := u64 (fx_offset buf + bytes); fx_size := u64 (fx_size buf - bytes) }.

Definition flex_buffer_backward_offset (buf : FlexBuffer) (bytes : Z) : Res FlexBuffer :=
  _ ← c_assert (bytes <=? fx_offset buf);
  let bytes := if bytes <=? fx_offset buf then bytes else fx_offset buf in
  Ok { buf with fx_offset := fx_offset buf - bytes; fx_size := u64 (fx_size buf + bytes) }.

(** [memcpy(buf->buffer + off, src, len(src))] *)
Definition fx_write (buf : FlexBuffer) (off : Z) (src : list byte) : Res FlexBuffer :=
  if off + Z.of_nat (length src) <=? Z.of_nat (length (fx_buffer buf))
  then Ok { buf with fx_buffer ::= splice (Z.to_nat off) src } else Fault BufferOverflow.

(** [len] bytes at [buf->buffer + off] *)
Definition fx_read (buf : FlexBuffer) (off len : Z) : Res (list byte) :=
  if off + len <=? Z.of_nat (length (fx_buffer buf))
  then Ok (take (Z.to_nat len) (drop (Z.to_nat off) (fx_buffer buf))) else Fault BufferOverflow.

(** The data: what [flex_buffer_ptr] and [flex_buffer_size] delimit. *)
Definition flex_data (buf : FlexBuffer) : list byte :=
  take (Z.to_nat (fx_size buf)) (drop (Z.to_nat (fx_offset buf)) (fx_buffer buf)).

Definition flex_buffer_append2 (dest src : FlexBuffer) (len : Z) : Res FlexBuffer :=
  let available := flex_buffer_available dest in
  let len := if len <? available then len else available in
  bytes ← fx_read src (fx_offset src) len;
  dest ← fx_write dest (fx_offset dest + fx_size dest) bytes;
  Ok { dest with fx_size ::= Z.add len }.

Definition flex_buffer_append (dest src : FlexBuffer) : Res FlexBuffer :=
  flex_buffer_append2 dest src (fx_size src).

(** Copies from the start of the areas, whatever the offsets. *)
Definition flex_buffer_copy (dest src : FlexBuffer) : Res FlexBuffer :=
  let len := u64 (fx_capacity dest - fx_offset dest) in
  let len := if len >? fx_size src then fx_size src else len in
  bytes ← fx_read src 0 len;
  dest ← fx_write dest 0 bytes;
  Ok (flex_buffer_set_size dest len).

(** ** The data a buffer holds *)

(** The fields describe the area. *)
Definition flex_wf (buf : FlexBuffer) : Prop :=
  0 <= fx_offset buf /\ 0 <= fx_size buf /\ fx_offset buf + fx_size buf <= fx_capacity buf /\
  fx_capacity buf = Z.of_nat (length (fx_buffer buf)) /\ fx_capacity buf < 2 ^ 63.

Lemma length_flex_data buf : flex_wf buf -> Z.of_nat (length (flex_data buf)) = fx_size buf.
Proof.
  intros (? & ? & ? & ? & ?). unfold flex_data. rewrite length_take, length_drop. lia.
Qed.

(** A buffer seen from its data: what is before it and what is behind it. *)
Definition flex_at (pre d post : list byte) : FlexBuffer :=
  {| fx_capacity := Z.of_nat (length (pre ++ d ++ post)); fx_offset := Z.of_nat (length pre);
     fx_size := Z.of_nat (length d); fx_buffer := pre ++ d ++ post |}.

(** Sizes that a [size_t] holds with room for sums. *)
Definition fx_small (pre d post : list byte) : Prop := Z.of_nat (length (pre ++ d ++ post)) < 2 ^ 63.

Lemma flex_at_wf pre d post : fx_small pre d post -> flex_wf (flex_at pre d post).
Proof.
  unfold fx_small, flex_wf, flex_at. cbn [fx_offset fx_size fx_capacity fx_buffer]. intros Hs.
  rewrite !length_app in *. lia.
Qed.

Lemma flex_wf_at buf : flex_wf buf -> exists pre post,
  buf = flex_at pre (flex_data buf) post /\ fx_small pre (flex_data buf) post.
Proof.
  intros Hwf. pose proof (length_flex_data buf Hwf) as Hlen. destruct Hwf as (H1 & H2 & H3 & H4 & H5).
  exists (take (Z.to_nat (fx_offset buf)) (fx_buffer buf)),
    (drop (Z.to_nat (fx_size buf)) (drop (Z.to_nat (fx_offset buf)) (fx_buffer buf))).
  assert (take (Z.to_nat (fx_offset buf)) (fx_buffer buf) ++ flex_data buf ++
    drop (Z.to_nat (fx_size buf)) (drop (Z.to_nat (fx_offset buf)) (fx_buffer buf)) = fx_buffer buf) as E.
  { unfold flex_data. by rewrite !take_drop. }
  unfold flex_at, fx_small. rewrite E, <- H4. split; [|lia].
  rewrite Hlen, length_take, Nat.min_l, Z2Nat.id by lia. by destruct buf.
Qed.

Lemma flex_at_data pre d post : flex_data (flex_at pre d post) = d.
Proof. unfold flex_data. cbn. by rewrite !Nat2Z.id, drop_app_length, take_app_length. Qed.
#[export] Hint Rewrite @flex_at_data : carrier.

Lemma flex_ext b b' :
  fx_capacity b = fx_capacity b' -> fx_offset b = fx_offset b' -> fx_size b = fx_size b' ->
  fx_buffer b = fx_buffer b' -> b = b'.
Proof. destruct b, b'. cbn. by intros -> -> -> ->. Qed.

Lemma flex_at_forward pre d1 d2 post : fx_small pre (d1 ++ d2) post ->
  flex_buffer_forward_offset (flex_at pre (d1 ++ d2) post) (Z.of_nat (length d1)) =
    Ok (flex_at (pre ++ d1) d2 post).
Proof.
  unfold fx_small. intros Hs. unfold flex_buffer_forward_offset, flex_at. cbn.
  rewrite !length_app in *. rewrite (u64_small (Z.of_nat (length pre) + _)) by lia.
  rewrite (proj2 (Z.leb_le _ _)) by lia. cbn. rewrite !u64_small by lia.
  f_equal. apply flex_ext; cbn; try lia. by rewrite <- !app_assoc.
Qed.

Lemma flex_at_backward pre h d post : fx_small (pre ++ h) d post ->
  flex_buffer_backward_offset (flex_at (pre ++ h) d post) (Z.of_nat (length h)) =
    Ok (flex_at pre (h ++ d) post).
Proof.
  unfold fx_small. intros Hs. unfold flex_buffer_backward_offset, flex_at. cbn.
  rewrite !length_app in *. rewrite (proj2 (Z.leb_le _ _)) by lia. cbn.
  rewrite u64_small by lia. f_equal. apply flex_ext; cbn; try lia. by rewrite <- !app_assoc.
Qed.

(** Overwriting the head of the data. *)
Lemma flex_at_write_head pre h h' d post : length h = length h' ->
  fx_write (flex_at pre (h ++ d) post) (Z.of_nat (length pre)) h' = Ok (flex_at pre (h' ++ d) post).
Proof.
  intros Hl. unfold fx_write, flex_at. cbn. rewrite !length_app, <- Hl.
  rewrite (proj2 (Z.leb_le _ _)) by lia. cbn. f_equal.
  apply flex_ext; cbn; rewrite ?length_app; try lia. unfold splice. rewrite Nat2Z.id, take_app_length, <- Hl, <- drop_drop, drop_app_length.
  by rewrite <- !app_assoc, drop_app_length.
Qed.

(** Appending what fits. *)
Lemma flex_at_append2 pre d gap post pre' s1 s2 post' :
  fx_small pre d (gap ++ post) -> length gap = length s1 ->
  flex_buffer_append2 (flex_at pre d (gap ++ post)) (flex_at pre' (s1 ++ s2) post')
      (Z.of_nat (length s1)) = Ok (flex_at pre (d ++ s1) post).
Proof.
  unfold fx_small. intros Hs Hg. unfold flex_buffer_append2, flex_buffer_available, fx_read.
  cbn. rewrite !length_app in *. rewrite u64_small by lia.
  set (available := Z.of_nat (length pre + _) - _ - _).
  assert ((if Z.of_nat (length s1) <? available then Z.of_nat (length s1) else available) =
    Z.of_nat (length s1)) as -> by (destruct (Z.ltb_spec (Z.of_nat (length s1)) available); unfold available in *; lia).
  rewrite (proj2 (Z.leb_le _ _)) by lia. cbn [mbind Res_bind].
  rewrite !Nat2Z.id, drop_app_length, <- app_assoc, take_app_length. unfold fx_write. cbn.
  rewrite !length_app, (proj2 (Z.leb_le _ _)) by lia. cbn. f_equal.
  apply flex_ext; cbn; rewrite ?length_app, <- ?Hg; try lia. unfold splice.
  rewrite (app_assoc pre), take_app_length' by (rewrite length_app; lia). rewrite <- !app_assoc. do 3 f_equal.
  rewrite !app_assoc. apply drop_app_length'. rewrite !length_app. lia.
Qed.

(** Appending to a full buffer does nothing. *)
Lemma flex_at_append2_full pre d pre' s post' len :
  fx_small pre d [] -> 0 <= len ->
  flex_buffer_append2 (flex_at pre d []) (flex_at pre' s post') len = Ok (flex_at pre d []).
Proof.
  unfold fx_small. intros Hs Hlen. unfold flex_buffer_append2, flex_buffer_available, fx_read.
  cbn. rewrite !length_app in *. cbn in *. rewrite u64_small by lia.
  rewrite (proj2 (Z.ltb_ge _ _)) by lia.
  replace (_ - _ - _) with 0 by lia. rewrite (proj2 (Z.leb_le _ _)) by lia. cbn [mbind Res_bind].
  rewrite take_0. unfold fx_write. cbn. rewrite !length_app, (proj2 (Z.leb_le _ _)) by (cbn; lia). cbn.
  f_equal. apply flex_ext; cbn; rewrite ?splice_nil, ?length_app; cbn; try lia; done.
Qed.

Lemma flex_at_from `{!Stack} offset d : 0 <= offset ->
  exists pre, flex_buffer_from offset d = flex_at pre d [] /\ length pre = Z.to_nat offset.
Proof.
  intros Ho. exists (take (Z.to_nat offset) (stack_bytes (Z.of_nat (length d) + offset))).
  pose proof (stack_length (Z.of_nat (length d) + offset)) as Hs.
  assert (length (take (Z.to_nat offset) (stack_bytes (Z.of_nat (length d) + offset))) =
    Z.to_nat offset) as Hl by (rewrite length_take; lia).
  split; [|done]. apply flex_ext; cbn; rewrite ?length_app, ?app_nil_r, ?Hl; cbn; try lia; [].
  unfold splice. rewrite drop_ge, app_nil_r by lia. done.
Qed.

(** Fresh room of [FLEX_PADDING_LEN] with its data at the end. *)
Lemma flex_at_alloca `{!Stack} n : 0 <= n ->
  exists pre, flex_buffer_alloca n n = flex_at pre [] [] /\ length pre = Z.to_nat n.
Proof.
  intros Hn. exists (stack_bytes n). rewrite stack_length. split; [|done].
  apply flex_ext; cbn; rewrite ?app_nil_r, ?stack_length; cbn; try lia; done.
Qed.
