(* ===== verification/Multiplex.v ===== *)
(** * The multiplexer of a stream (src/session/multiplex_handler.c)

    Channels over one stream: the packets that open, confirm, carry, pend, resume
    and close them, their table, and the cutting of packets out of a byte stream.

    The handler's operations are functions of its state.  What the layer above and
    the owners of the channels see is appended to [mx_events], newest first; whether
    they accept a channel or its data is a function of what happened so far.  The
    layer below is the interface [Next]; the numbers of channels come from
    libcrystal's [ids_heap], the interface [IdsHeap].  The clock is an argument.  The
    worker of port forwarding and the keep-alive timer are flags; a callback that
    calls back into the multiplexer is not modelled.  The handler converts a header
    in place where the model reads its fields. *)

From S2P Require Import Prelude ElaError FlexBuffer.

Definition KEEPALIVE_INTERVAL : Z := 30000.
Definition KEEPALIVE_TIMEOUT_INTERVAL : Z := 130000.
Definition PROTOCOL_HEAD_LEN : Z := 8.
Definition MAX_CHANNEL_ID : Z := 2048.

(** The values of [PacketType]. *)
Definition PacketType_ChannelOpen : Z := 1.
Definition PacketType_ChannelOpenConfirmation : Z := 2.
Definition PacketType_ChannelData : Z := 3.
Definition PacketType_ChannelKeepAlive : Z := 4.
Definition PacketType_ChannelPending : Z := 5.
Definition PacketType_ChannelResume : Z := 6.
Definition PacketType_ChannelClose : Z := 7.

Definition ChannelType_User : Z := 0.
Definition ChannelType_UDP_PortForwarding : Z := 1.
Definition ChannelType_TCP_PortForwarding : Z := 2.

Inductive ChannelStatus := ChannelStatus_Opening | ChannelStatus_Open | ChannelStatus_Pending
| ChannelStatus_Closing.
#[export] Instance ChannelStatus_eq_dec : EqDecision ChannelStatus.
Proof. solve_decision. Defined.

Inductive CloseReason := CloseReason_Normal | CloseReason_Timeout | CloseReason_Error.
#[export] Instance CloseReason_eq_dec : EqDecision CloseReason.
Proof. solve_decision. Defined.

(** The states of a stream. *)
Definition ElaStreamState_initialized : Z := 1.
Definition ElaStreamState_transport_ready : Z := 2.
Definition ElaStreamState_connecting : Z := 3.
Definition ElaStreamState_connected : Z := 4.
Definition ElaStreamState_deactivated : Z := 5.
Definition ElaStreamState_closed : Z := 6.
Definition ElaStreamState_failed : Z := 7.

Record timeval := { tv_sec : Z; tv_usec : Z }.
Definition tv_zero : timeval := {| tv_sec := 0; tv_usec := 0 |}.

Record Channel := {
  ch_id : Z; ch_remote_id : Z; ch_type : Z; ch_status : ChannelStatus;
  ch_local_timestamp : timeval; ch_remote_timestamp : timeval; ch_last_activity : timeval;
  ch_timeout : Z; ch_sock : Z
}.

(** What a channel's owner and the layer above are told. *)
Inductive mux_event :=
| EvChannelOpen (type id : Z) (cookie : option string)
| EvChannelOpened (type id : Z)
| EvChannelClose (type id : Z) (reason : CloseReason)
| EvChannelData (type id : Z) (data : list byte)
| EvChannelPending (type id : Z)
| EvChannelResume (type id : Z)
| EvData (data : list byte)               (* on_data of the layer above *)
| EvStateChanged (state : Z).             (* on_state_changed of the layer above *)

(** stream_handler.h: [write], [start] and [stop] of the next handler down. *)
Class Next (next : Type) := {
  next_write : next -> FlexBuffer -> Res (Z * FlexBuffer * next);
  next_start : next -> Res (Z * next);
  next_stop : next -> Z -> next
}.

(** ids_heap.h (libcrystal): numbers that are handed out once until freed. *)
Class IdsHeap (heap : Type) := {
  ids_alloc : heap -> Z * heap;
  ids_free : heap -> Z -> heap
}.

(** Whether the application accepts a channel or its data; what it was told so far
    is an argument. *)
Class ChannelApp := {
  channel_open : list mux_event -> mux_event -> bool;
  channel_data : list mux_event -> mux_event -> bool
}.

Record MultiplexHandler `{!HashTables} {next heap : Type} := {
  mx_next : next;
  mx_reliable : bool;                     (* stream_is_reliable *)
  mx_portforwarding : bool;               (* stream->portforwarding *)
  mx_worker : bool;                       (* port forwarding enabled *)
  mx_timer : bool;
  channels : hashtable Z Channel;
  channel_ids : heap;
  incomplete_buf : FlexBuffer;
  mx_events : list mux_event
}.
Arguments MultiplexHandler {_} next heap.

Section Multiplex.
Context `{!HashTables, !Stack, !ChannelApp} {next heap : Type} `{!Next next, !IdsHeap heap}.
Implicit Types w : MultiplexHandler next heap.

Definition notify (e : mux_event) w : MultiplexHandler next heap := { w with mx_events ::= cons e }.

Definition notify_channel_open (ch : Channel) (cookie : option string) w :=
  let e := EvChannelOpen (ch_type ch) (ch_id ch) cookie in
  (channel_open (mx_events w) e, notify e w).

Definition notify_channel_data (ch : Channel) (data : list byte) w :=
  let e := EvChannelData (ch_type ch) (ch_id ch) data in
  (channel_data (mx_events w) e, notify e w).

Definition notify_channel_opened (ch : Channel) w := notify (EvChannelOpened (ch_type ch) (ch_id ch)) w.
Definition notify_channel_close (ch : Channel) (reason : CloseReason) w :=
  notify (EvChannelClose (ch_type ch) (ch_id ch) reason) w.
Definition notify_channel_pending (ch : Channel) w := notify (EvChannelPending (ch_type ch) (ch_id ch)) w.
Definition notify_channel_resume (ch : Channel) w := notify (EvChannelResume (ch_type ch) (ch_id ch)) w.

Definition channels_put (ch : Channel) w : MultiplexHandler next heap :=
  { w with channels ::= ht_put (ch_id ch) ch }.

(** Out of the table, and its number back with the last reference. *)
Definition channels_remove (id : Z) w : MultiplexHandler next heap :=
  { w with channels ::= ht_remove id; channel_ids ::= fun ids => ids_free ids id }.

Definition update_remote_timestamp (now : timeval) (ch : Channel) : Channel :=
  { ch with ch_remote_timestamp := now; ch_last_activity := now }.

Definition touch_local (now : timeval) (ch : Channel) : Channel :=
  { ch with ch_local_timestamp := now; ch_last_activity := now }.

(** ** Sending *)

(** The header, with the ids as the peer sees them. *)
Definition ProtocolBuffer (type opt local_channel_id remote_channel_id payload_len : Z) : list byte :=
  byte.of_Z type :: byte.of_Z opt ::
  be_bytes 2 (u16 remote_channel_id) ++ be_bytes 2 (u16 local_channel_id) ++
  be_bytes 2 (u16 payload_len).

Definition multiplex_handler_send_packet (type opt local_channel_id remote_channel_id : Z)
    (buf : option FlexBuffer) w : Res (Z * MultiplexHandler next heap) :=
  _ ← c_assert ((PacketType_ChannelOpen <=? type) && (type <=? PacketType_ChannelClose));
  let buf := match buf with
             | Some buf => buf | None => flex_buffer_alloca FLEX_PADDING_LEN FLEX_PADDING_LEN end in
  let len := fx_size buf in
  buf ← flex_buffer_backward_offset buf 8;
  buf ← fx_write buf (fx_offset buf) (ProtocolBuffer type opt local_channel_id remote_channel_id len);
  '(sent, _, next) ← next_write (mx_next w) buf;
  let w := { w with mx_next := next } in
  if sent <? 0 then Ok (i32 sent, w) else Ok (i32 len, w).
(** ** Receiving *)

(** The string a pointer into the area points to. *)
Definition str_at (buf : FlexBuffer) (off : Z) : Res string :=
  match c_string (drop (Z.to_nat off) (fx_buffer buf)) with
  | Some (s, _) => Ok s | None => Fault BufferOverflow
  end.

Definition new_channel (type id remote_id timeout : Z) (now : timeval) : Channel :=
  update_remote_timestamp now
    {| ch_id := id; ch_remote_id := remote_id; ch_type := type; ch_status := ChannelStatus_Opening;
       ch_local_timestamp := tv_zero; ch_remote_timestamp := tv_zero; ch_last_activity := tv_zero;
       ch_timeout := timeout; ch_sock := 0 |}.

(** Whether a request for a channel of this type is considered at all. *)
Definition channel_type_served (type : Z) w : bool :=
  if type =? ChannelType_UDP_PortForwarding then mx_worker w
  else if type =? ChannelType_TCP_PortForwarding then mx_worker w && mx_reliable w
  else type =? ChannelType_User.

Definition receive_open (now : timeval) (type remote_channel_id payload_len : Z) (buf : FlexBuffer) w :
    Res (MultiplexHandler next heap) :=
  if negb (channel_type_served type w) then Ok w
  else
    let '(cid, ids) := ids_alloc (channel_ids w) in
    let w := { w with channel_ids := ids } in
    if cid <? 0 then
      (* [ch->remote_id] is not set yet *)
      '(_, w) ← multiplex_handler_send_packet PacketType_ChannelOpenConfirmation 0 0 0 None w;
      Ok w
    else
      let ch := new_channel type (u16 cid) remote_channel_id 0 now in
      let w := channels_put ch w in
      cookie ← (if payload_len =? 0 then Ok None
                else s ← str_at buf (fx_offset buf + 8); Ok (Some s));
      let '(ok, w) := notify_channel_open ch cookie w in
      '(rc, w) ← multiplex_handler_send_packet PacketType_ChannelOpenConfirmation 0
        (if ok : bool then ch_id ch else 0) (ch_remote_id ch) None w;
      if negb ok || (rc <? 0)
      then
        let w := if ok then notify_channel_close ch CloseReason_Error w else w in
        Ok (channels_remove (ch_id ch) w)
      else
        let ch := { ch with ch_status := ChannelStatus_Open } in
        let w := notify_channel_opened ch w in
        Ok (channels_put (update_remote_timestamp now ch) w).

Definition receive_confirmation (now : timeval) (remote_channel_id : Z) (ch : Channel) w :
    MultiplexHandler next heap :=
  if negb (bool_decide (ch_status ch = ChannelStatus_Opening)) then w
  else if negb (remote_channel_id =? 0) then
    let ch := { ch with ch_status := ChannelStatus_Open; ch_remote_id := remote_channel_id } in
    let w := notify_channel_opened ch w in
    channels_put (update_remote_timestamp now ch) w
  else channels_remove (ch_id ch) (notify_channel_close ch CloseReason_Error w).

Definition channel_usable (ch : Channel) : bool :=
  bool_decide (ch_status ch = ChannelStatus_Pending) || bool_decide (ch_status ch = ChannelStatus_Open).

Definition receive_data (now : timeval) (ch : Channel) (buf : FlexBuffer) w :
    Res (FlexBuffer * MultiplexHandler next heap) :=
  if negb (channel_usable ch) then Ok (buf, w)
  else
    buf ← flex_buffer_forward_offset buf 8;
    let '(ok, w) := notify_channel_data ch (flex_data buf) w in
    if negb ok
    then Ok (buf, channels_remove (ch_id ch) (notify_channel_close ch CloseReason_Error w))
    else Ok (buf, channels_put (update_remote_timestamp now ch) w).

Definition receive_pending (now : timeval) (ch : Channel) w : MultiplexHandler next heap :=
  if negb (bool_decide (ch_status ch = ChannelStatus_Open)) then w
  else
    let ch := { ch with ch_status := ChannelStatus_Pending } in
    channels_put (update_remote_timestamp now ch) (notify_channel_pending ch w).

Definition receive_resume (now : timeval) (ch : Channel) w : MultiplexHandler next heap :=
  if negb (bool_decide (ch_status ch = ChannelStatus_Pending)) then w
  else
    let ch := { ch with ch_status := ChannelStatus_Open } in
    channels_put (update_remote_timestamp now ch) (notify_channel_resume ch w).

(** What a packet with these header fields does. *)
Definition handle_packet (now : timeval) (type opt local_channel_id remote_channel_id payload_len : Z)
    (buf : FlexBuffer) w : Res (FlexBuffer * MultiplexHandler next heap) :=
  if (remote_channel_id =? 0) && (local_channel_id =? 0) && (type =? PacketType_ChannelData)
  then
    buf ← flex_buffer_forward_offset buf 8;
    Ok (buf, notify (EvData (flex_data buf)) w)
  else if type =? PacketType_ChannelOpen
  then w ← receive_open now opt remote_channel_id payload_len buf w; Ok (buf, w)
  else
    match ht_get (channels w) local_channel_id with
    | None => Ok (buf, w)
    | Some ch =>
        if type =? PacketType_ChannelOpenConfirmation
        then Ok (buf, receive_confirmation now remote_channel_id ch w)
        else if type =? PacketType_ChannelData then receive_data now ch buf w
        else if type =? PacketType_ChannelKeepAlive
        then Ok (buf, channels_put { ch with ch_remote_timestamp := now } w)
        else if type =? PacketType_ChannelPending then Ok (buf, receive_pending now ch w)
        else if type =? PacketType_ChannelResume then Ok (buf, receive_resume now ch w)
        else if type =? PacketType_ChannelClose
        then Ok (buf, channels_remove (ch_id ch) (notify_channel_close ch CloseReason_Normal w))
        else Ok (buf, w)
    end.

(** One packet: [buf] begins with its header. *)
Definition multiplex_handler_notify_packet (now : timeval) (buf : FlexBuffer) w :
    Res (FlexBuffer * MultiplexHandler next heap) :=
  _ ← c_assert (PROTOCOL_HEAD_LEN <=? fx_size buf);
  if fx_size buf <? PROTOCOL_HEAD_LEN then Ok (buf, w)
  else
    pb ← fx_read buf (fx_offset buf) 8;
    let payload_len := be_read (take 2 (drop 6 pb)) in
    if negb (fx_size buf =? payload_len + PROTOCOL_HEAD_LEN) then Ok (buf, w)
    else handle_packet now (be_read (take 1 pb)) (be_read (take 1 (drop 1 pb)))
           (be_read (take 2 (drop 2 pb))) (be_read (take 2 (drop 4 pb))) payload_len buf w.

(** The packet in [incomplete_buf] is complete. *)
Definition deliver_incomplete (now : timeval) w : Res (MultiplexHandler next heap) :=
  '(buf, w) ← multiplex_handler_notify_packet now (incomplete_buf w) w;
  Ok { w with incomplete_buf := flex_buffer_reset buf FLEX_PADDING_LEN }.

(** The loop of [multiplex_handler_notify_data]; two rounds take a byte at least. *)
Fixpoint notify_data_loop (fuel : nat) (now : timeval) (buf : FlexBuffer) w :
    Res (MultiplexHandler next heap) :=
  match fuel with
  | O => Fault Diverges
  | S fuel =>
      if fx_size buf =? 0 then Ok w
      else if fx_size (incomplete_buf w) + fx_size buf <? PROTOCOL_HEAD_LEN then
        inc ← flex_buffer_append (incomplete_buf w) buf;
        Ok { w with incomplete_buf := inc }
      else
        '(inc, buf) ←
          (if fx_size (incomplete_buf w) <? PROTOCOL_HEAD_LEN then
             let append := PROTOCOL_HEAD_LEN - fx_size (incomplete_buf w) in
             inc ← flex_buffer_append2 (incomplete_buf w) buf append;
             buf ← flex_buffer_forward_offset buf append; Ok (inc, buf)
           else Ok (incomplete_buf w, buf));
        pb ← fx_read inc (fx_offset inc) 8;
        let payload_len := be_read (take 2 (drop 6 pb)) in
        if payload_len + PROTOCOL_HEAD_LEN >? fx_size inc + fx_size buf then
          inc ← flex_buffer_append inc buf;
          Ok { w with incomplete_buf := inc }
        else
          '(inc, buf) ←
            (if payload_len + PROTOCOL_HEAD_LEN >? fx_size inc then
               let append := payload_len + PROTOCOL_HEAD_LEN - fx_size inc in
               inc ← flex_buffer_append2 inc buf append;
               buf ← flex_buffer_forward_offset buf append; Ok (inc, buf)
             else Ok (inc, buf));
          w ← deliver_incomplete now { w with incomplete_buf := inc };
          notify_data_loop fuel now buf w
  end.

Definition multiplex_handler_notify_data (now : timeval) (buf : FlexBuffer) w :
    Res (MultiplexHandler next heap) :=
  _ ← c_assert (negb (fx_size buf =? 0));
  notify_data_loop (S (S (2 * Z.to_nat (fx_size buf)))) now buf w.

Definition multiplex_handler_on_data (now : timeval) (buf : FlexBuffer) w :
    Res (MultiplexHandler next heap) :=
  if mx_reliable w then multiplex_handler_notify_data now buf w
  else '(_, w) ← multiplex_handler_notify_packet now buf w; Ok w.

(** ** The operations on channels *)

Definition multiplex_handler_open_channel (now : timeval) (type : Z) (cookie : option string)
    (timeout sock : Z) w : Res (Z * MultiplexHandler next heap) :=
  _ ← (if type =? ChannelType_UDP_PortForwarding then c_assert (mx_portforwarding w)
       else if type =? ChannelType_TCP_PortForwarding
       then _ ← c_assert (mx_portforwarding w); c_assert (mx_reliable w)
       else c_assert (type =? ChannelType_User));
  let '(cid, ids) := ids_alloc (channel_ids w) in
  let w := { w with channel_ids := ids } in
  if cid <? 0 then Ok (ELA_GENERAL_ERROR ELAERR_LIMIT_EXCEEDED, w)
  else
    let ch := new_channel type (u16 cid) 0 timeout now in
    let ch := if type =? ChannelType_TCP_PortForwarding then { ch with ch_sock := sock } else ch in
    let w := channels_put ch w in
    let buf := match cookie with
               | Some s => Some (flex_buffer_from FLEX_PADDING_LEN
                                   (c_bytes s))
               | None => None end in
    '(rc, w) ← multiplex_handler_send_packet PacketType_ChannelOpen type (ch_id ch)
      (ch_remote_id ch) buf w;
    if rc <? 0 then Ok (rc, channels_remove cid w) else Ok (cid, w).

Definition multiplex_handler_close_channel (cid : Z) w : Res (Z * MultiplexHandler next heap) :=
  _ ← c_assert (0 <? cid);
  match ht_get (channels w) cid with
  | None => Ok (ELA_GENERAL_ERROR ELAERR_NOT_EXIST, w)
  | Some ch =>
      w ← (if negb (ch_remote_id ch =? 0) then
             '(_, w) ← multiplex_handler_send_packet PacketType_ChannelClose 0 (ch_id ch)
               (ch_remote_id ch) None w; Ok w
           else Ok w);
      Ok (0, channels_remove cid (notify_channel_close ch CloseReason_Normal w))
  end.

(** A packet of this type and content on an open channel. *)
Definition send_on_channel (type cid : Z) (buf : option FlexBuffer) (done : Z -> bool)
    (now : timeval) w : Res (Z * MultiplexHandler next heap) :=
  match ht_get (channels w) cid with
  | None => Ok (ELA_GENERAL_ERROR ELAERR_NOT_EXIST, w)
  | Some ch =>
      if negb (channel_usable ch) || (ch_remote_id ch =? 0)
      then Ok (ELA_GENERAL_ERROR ELAERR_WRONG_STATE, w)
      else
        '(rc, w) ← multiplex_handler_send_packet type 0 (ch_id ch) (ch_remote_id ch) buf w;
        Ok (rc, if done rc then channels_put (touch_local now ch) w else w)
  end.

Definition multiplex_handler_write_channel (now : timeval) (cid : Z) (buf : FlexBuffer) w :
    Res (Z * MultiplexHandler next heap) :=
  _ ← c_assert (0 <=? cid);
  if cid =? 0 then multiplex_handler_send_packet PacketType_ChannelData 0 0 0 (Some buf) w
  else send_on_channel PacketType_ChannelData cid (Some buf) (fun rc => 0 <=? rc) now w.

Definition multiplex_handler_pend_channel (now : timeval) (cid : Z) w :
    Res (Z * MultiplexHandler next heap) :=
  _ ← c_assert (0 <? cid);
  send_on_channel PacketType_ChannelPending cid None (fun rc => rc =? 0) now w.

Definition multiplex_handler_resume_channel (now : timeval) (cid : Z) w :
    Res (Z * MultiplexHandler next heap) :=
  _ ← c_assert (0 <? cid);
  send_on_channel PacketType_ChannelResume cid None (fun rc => rc =? 0) now w.

Definition multiplex_handler_write (now : timeval) (buf : FlexBuffer) w :
    Res (Z * MultiplexHandler next heap) :=
  multiplex_handler_write_channel now 0 buf w.

(** ** Timers and the end *)

(** Milliseconds between two times, in the code's [int]s. *)
Definition interval_ms (now before : timeval) : Z :=
  i32 (i32 ((tv_sec now - tv_sec before) * 1000) + i32 (Z.quot (tv_usec now - tv_usec before) 1000)).

(** One channel at a checkpoint. *)
Definition check_channel (now : timeval) (ch : Channel) w : Res (MultiplexHandler next heap) :=
  if (negb (ch_timeout ch =? 0) &&
      (i32 (ch_timeout ch * 1000) <=? interval_ms now (ch_last_activity ch)))
     || (KEEPALIVE_TIMEOUT_INTERVAL <=? interval_ms now (ch_remote_timestamp ch))
  then Ok (channels_remove (ch_id ch) (notify_channel_close ch CloseReason_Timeout w))
  else if KEEPALIVE_INTERVAL <=? interval_ms now (ch_local_timestamp ch) then
    '(rc, w) ← multiplex_handler_send_packet PacketType_ChannelKeepAlive 0 (ch_id ch)
      (ch_remote_id ch) None w;
    Ok (if rc =? 0 then channels_put { ch with ch_local_timestamp := now } w else w)
  else Ok w.

Fixpoint check_channels (now : timeval) (l : list Channel) w : Res (MultiplexHandler next heap) :=
  match l with
  | [] => Ok w
  | ch :: l => w ← check_channel now ch w; check_channels now l w
  end.

Definition multiplex_handler_checkpoint (now : timeval) w : Res (MultiplexHandler next heap) :=
  check_channels now (ht_items (channels w)).*2 w.

Fixpoint close_all (reason : CloseReason) (l : list Channel) w : MultiplexHandler next heap :=
  match l with
  | [] => w
  | ch :: l => close_all reason l (channels_remove (ch_id ch) (notify_channel_close ch reason w))
  end.

Definition multiplex_handler_close_channels (reason : CloseReason) w : MultiplexHandler next heap :=
  close_all reason (ht_items (channels w)).*2 w.

Definition multiplex_handler_on_state_changed (state : Z) w : MultiplexHandler next heap :=
  let w :=
    if ElaStreamState_closed <=? state then
      multiplex_handler_close_channels
        (if state =? ElaStreamState_closed then CloseReason_Normal else CloseReason_Error) w
    else w in
  notify (EvStateChanged state) w.

Definition multiplex_handler_stop (error : Z) w : MultiplexHandler next heap :=
  let w := multiplex_handler_close_channels CloseReason_Normal w in
  let w := { w with mx_timer := false } in
  { w with mx_next ::= fun n => next_stop n error }.

(** [worker_start] and [create_timer] are the results of the calls. *)
Definition multiplex_handler_start (create_timer worker_start : Z) w : Res (Z * MultiplexHandler next heap) :=
  '(rc, next) ← next_start (mx_next w);
  let w := { w with mx_next := next } in
  if negb (rc =? 0) then Ok (rc, w)
  else if negb (mx_reliable w) && (create_timer <? 0) then Ok (create_timer, w)
  else
    let w := if mx_reliable w then w else { w with mx_timer := true } in
    if mx_worker w && (worker_start <? 0) then Ok (worker_start, w) else Ok (0, w).

(** A new handler over [next]; [ids] is an empty heap of [MAX_CHANNEL_ID] numbers. *)
Definition multiplex_handler_create (reliable portforwarding : bool) (n : next) (ids : heap) :
    MultiplexHandler next heap :=
  {| mx_next := n; mx_reliable := reliable; mx_portforwarding := portforwarding;
     mx_worker := portforwarding; mx_timer := false; channels := ht_empty; channel_ids := ids;
     incomplete_buf :=
       if reliable then flex_buffer_init (zeroed FLEX_BUFFER_MAX_LEN) FLEX_BUFFER_MAX_LEN FLEX_PADDING_LEN
       else flex_buffer_init [] 0 0;
     mx_events := [] |}.
End Multiplex.
