(* ===== verification/MultiplexProps.v ===== *)
(** * Properties of the multiplexer: packets and the two ends of a channel

    What a packet carries across; the handshake that opens a channel, with all its
    outcomes; data of a channel; packets cut out of a byte stream however it comes
    in pieces. *)

From Stdlib Require Import Ascii.
From S2P Require Import Prelude ElaError FlexBuffer Multiplex.

(** ** Interfaces *)

(** The layer below takes a packet of at most [next_max] bytes that leaves it
    [next_room] for its headers, or refuses it; what it took is [next_sent]. *)
Class NextLaws (next : Type) `{!Next next} := {
  next_sent : next -> list (list byte);
  next_room : Z;
  next_room_fits : 0 <= next_room <= FLEX_PADDING_LEN - PROTOCOL_HEAD_LEN;
  next_max : Z;
  next_max_fits : PROTOCOL_HEAD_LEN <= next_max < 2 ^ 31;
  next_write_spec n b : flex_wf b -> next_room <= fx_offset b -> fx_size b <= next_max ->
    exists rc b' n', next_write n b = Ok (rc, b', n') /\ flex_wf b' /\
    (0 <= rc /\ next_sent n' = next_sent n ++ [flex_data b] \/
     - 2 ^ 31 <= rc < 0 /\ next_sent n' = next_sent n)
}.

(** What leaves the layer below room for the header of a packet. *)
Definition fits_below (next : Type) `{!Next next, !NextLaws next} (len : Z) : Prop :=
  len + PROTOCOL_HEAD_LEN <= next_max.

(** The heap hands out numbers in range that are not in use. *)
Class IdsHeapLaws (heap : Type) `{!IdsHeap heap} := {
  ids_used : heap -> gset Z;
  ids_alloc_spec h cid h' : ids_alloc h = (cid, h') ->
    cid < 0 /\ ids_used h' = ids_used h \/
    0 < cid <= MAX_CHANNEL_ID /\ (cid ∉ ids_used h) /\ ids_used h' = {[cid]} ∪ ids_used h;
  ids_free_spec h id : ids_used (ids_free h id) = ids_used h ∖ {[id]}
}.

(** ** Packets *)

Definition frame (type opt local_channel_id remote_channel_id : Z) (payload : list byte) : list byte :=
  ProtocolBuffer type opt local_channel_id remote_channel_id (Z.of_nat (length payload)) ++ payload.

Lemma length_ProtocolBuffer t o l r n : length (ProtocolBuffer t o l r n) = 8%nat.
Proof. unfold ProtocolBuffer. cbn [length]. by rewrite !length_app, !length_be_bytes. Qed.

Lemma be_read_byte z : 0 <= z < 256 -> be_read [byte.of_Z z] = z.
Proof.
  intros Hz. change [byte.of_Z z] with (be_bytes 1 z). rewrite be_read_bytes. by apply u8_small.
Qed.

Lemma be_read_u16 n : 0 <= n < 2 ^ 16 -> be_read (be_bytes 2 (u16 n)) = n.
Proof.
  intros Hn. rewrite be_read_bytes. change (8 * Z.of_nat 2) with 16.
  by rewrite !u16_small by (rewrite ?u16_small; lia).
Qed.

(** The fields of a header, by the receiver's offsets. *)
Lemma header_fields t o l r n rest :
  0 <= t < 256 -> 0 <= o < 256 -> is_u16 l -> is_u16 r -> is_u16 n ->
  let pb := ProtocolBuffer t o l r n ++ rest in
  be_read (take 1 pb) = t /\ be_read (take 1 (drop 1 pb)) = o /\ be_read (take 2 (drop 2 pb)) = r /\
  be_read (take 2 (drop 4 pb)) = l /\ be_read (take 2 (drop 6 pb)) = n.
Proof.
  intros Ht Ho Hl Hr Hn pb. subst pb. unfold ProtocolBuffer, is_u16 in *.
  assert (forall z, length (be_bytes 2 z) = 2%nat) as H2 by (intros; apply length_be_bytes).
  rewrite <- !app_comm_cons, <- !app_assoc. set (q := be_bytes 2 (u16 r) ++ _).
  change (drop 2 _) with q. change (drop 4 _) with (drop 2 q). change (drop 6 _) with (drop 4 q).
  subst q. split_and!.
  - by apply be_read_byte.
  - by apply be_read_byte.
  - rewrite take_app_length' by done. by apply be_read_u16.
  - rewrite drop_app_length', take_app_length' by done. by apply be_read_u16.
  - rewrite (app_assoc (be_bytes 2 (u16 r))), drop_app_length' by (rewrite length_app, !H2; done).
    rewrite take_app_length' by done. by apply be_read_u16.
Qed.

Section Props.
Context `{!HashTables} {L : HashTablesLaws _} `{!Stack, !ChannelApp} {next heap : Type}
  `{!Next next, !NextLaws next, !IdsHeap heap, !IdsHeapLaws heap}.
Implicit Types w v : MultiplexHandler next heap.

(** A buffer that can take the headers of all layers. *)
Definition sendable (buf : option FlexBuffer) : Prop :=
  match buf with
  | Some buf => flex_wf buf /\ FLEX_PADDING_LEN <= fx_offset buf /\ fits_below next (fx_size buf)
  | None => True
  end.
Definition payload (buf : option FlexBuffer) : list byte :=
  match buf with Some buf => flex_data buf | None => [] end.

Definition sent_to (n : next) (p : list byte) (n' : next) : Prop := next_sent n' = next_sent n ++ [p].

(** What is handed down for a packet: a buffer with its frame. *)
Lemma send_packet_frame t o l r buf w :
  PacketType_ChannelOpen <= t <= PacketType_ChannelClose -> sendable buf ->
  exists fb, flex_wf fb /\ next_room <= fx_offset fb /\ fx_size fb <= next_max /\
    flex_data fb = frame t o l r (payload buf) /\
    multiplex_handler_send_packet t o l r buf w =
      ('(sent, _, n) ← next_write (mx_next w) fb;
       Ok (if sent <? 0 then i32 sent else Z.of_nat (length (payload buf)), { w with mx_next := n })).
Proof.
  intros Ht Hs. unfold multiplex_handler_send_packet.
  rewrite (proj2 (Z.leb_le PacketType_ChannelOpen _)), (proj2 (Z.leb_le _ PacketType_ChannelClose)) by lia.
  cbn [andb c_assert mbind Res_bind].
  assert (exists pre h d post, match buf with Some buf => buf
    | None => flex_buffer_alloca FLEX_PADDING_LEN FLEX_PADDING_LEN end = flex_at (pre ++ h) d post /\
    length h = 8%nat /\ d = payload buf /\ fx_small (pre ++ h) d post /\ fits_below next (Z.of_nat (length d)) /\
    FLEX_PADDING_LEN - PROTOCOL_HEAD_LEN <= Z.of_nat (length pre))
    as (pre & h & d & post & -> & Hh & Hd & Hsm & Hlen & Hpre).
  { destruct buf as [buf|].
    - destruct Hs as (Hwf & Ho & Hsz). rewrite <- (length_flex_data buf Hwf) in Hsz.
      destruct (flex_wf_at buf Hwf) as (pre & post & E & Hsm). rewrite E in Ho.
      change (128 <= Z.of_nat (length pre)) in Ho. change (FLEX_PADDING_LEN - PROTOCOL_HEAD_LEN) with 120.
      exists (take (length pre - 8) pre), (drop (length pre - 8) pre), (flex_data buf), post.
      rewrite take_drop, length_drop, length_take. split_and!; try done; lia.
    - destruct (flex_at_alloca FLEX_PADDING_LEN) as (pre & -> & Hp); [done|].
      exists (take 120 pre), (drop 120 pre), [], []. rewrite take_drop, length_drop, length_take, Hp.
      split_and!; try done; [unfold fx_small; by rewrite length_app, Hp|].
      pose proof next_max_fits. unfold fits_below. cbn [length]. lia. }
  rewrite <- Hd. cbn [flex_at fx_size]. pose proof next_max_fits as [_ Hmax].
  unfold fits_below, PROTOCOL_HEAD_LEN in Hlen.
  pose proof (flex_at_backward pre h d post Hsm) as Hb. rewrite Hh in Hb. change (Z.of_nat 8) with 8 in Hb.
  rewrite Hb. cbn [mbind Res_bind]. change (fx_offset (flex_at pre (h ++ d) post)) with (Z.of_nat (length pre)).
  rewrite flex_at_write_head by (by rewrite length_ProtocolBuffer). cbn [mbind Res_bind].
  change (ProtocolBuffer t o l r (Z.of_nat (length d)) ++ d) with (frame t o l r d).
  exists (flex_at pre (frame t o l r d) post). rewrite flex_at_data. split_and!.
  - apply flex_at_wf. unfold fx_small, frame in *. rewrite !length_app, length_ProtocolBuffer, Hh in *. lia.
  - pose proof next_room_fits. cbn [flex_at fx_offset]. lia.
  - cbn [flex_at fx_size]. unfold frame. rewrite length_app, length_ProtocolBuffer. lia.
  - done.
  - destruct (next_write _ _) as [[[sent b] n]|f]; [|done]. cbn [mbind Res_bind].
    rewrite (swrap_small _ (Z.of_nat (length d))) by (change (32 - 1) with 31; lia). by destruct (sent <? 0).
Qed.

(** A packet goes down whole or is refused. *)
Lemma send_packet_spec t o l r buf w :
  PacketType_ChannelOpen <= t <= PacketType_ChannelClose -> sendable buf ->
  exists rc n', multiplex_handler_send_packet t o l r buf w = Ok (rc, { w with mx_next := n' }) /\
    (rc = Z.of_nat (length (payload buf)) /\ sent_to (mx_next w) (frame t o l r (payload buf)) n' \/
     rc < 0 /\ next_sent n' = next_sent (mx_next w)).
Proof.
  intros Ht Hs. destruct (send_packet_frame t o l r buf w Ht Hs) as (fb & Hwf & Ho & Hsz & Hd & ->).
  destruct (next_write_spec (mx_next w) fb) as (rc & b' & n' & -> & _ & Hrc); [done..|].
  rewrite Hd in Hrc. cbn [mbind Res_bind]. do 2 eexists. split; [done|]. destruct Hrc as [[Hrc Hn]|[Hrc Hn]].
  - left. by rewrite (proj2 (Z.ltb_ge _ _)).
  - right. rewrite (proj2 (Z.ltb_lt _ _)) by lia. split; [|done].
    rewrite swrap_small by (change (32 - 1) with 31; lia). lia.
Qed.

(** A received packet is dispatched on the fields it was sent with. *)
Lemma notify_frame now t o l r p buf w :
  0 <= t < 256 -> 0 <= o < 256 -> is_u16 l -> is_u16 r -> is_u16 (Z.of_nat (length p)) ->
  flex_wf buf -> flex_data buf = frame t o l r p ->
  multiplex_handler_notify_packet now buf w = handle_packet now t o r l (Z.of_nat (length p)) buf w.
Proof.
  intros Ht Ho Hl Hr Hp Hwf Hd. pose proof (length_flex_data buf Hwf) as Hlen.
  unfold frame in Hd. rewrite Hd, length_app, length_ProtocolBuffer in Hlen.
  unfold multiplex_handler_notify_packet, PROTOCOL_HEAD_LEN.
  rewrite (proj2 (Z.leb_le _ _)), (proj2 (Z.ltb_ge _ _)) by lia. cbn [c_assert mbind Res_bind].
  destruct Hwf as (Hoff & Hsz & Hend & Hcap & _). unfold fx_read. rewrite (proj2 (Z.leb_le _ _)) by lia.
  cbn [mbind Res_bind].
  assert (take (Z.to_nat 8) (drop (Z.to_nat (fx_offset buf)) (fx_buffer buf)) =
    ProtocolBuffer t o l r (Z.of_nat (length p)) ++ []) as ->.
  { rewrite app_nil_r. transitivity (take 8 (flex_data buf)).
    - unfold flex_data. rewrite take_take. f_equal. lia.
    - rewrite Hd. apply take_app_length'. by rewrite length_ProtocolBuffer. }
  destruct (header_fields t o l r (Z.of_nat (length p)) []) as (-> & -> & -> & -> & ->); [done..|].
  rewrite (proj2 (Z.eqb_eq _ _)) by lia. done.
Qed.

(** ** Opening a channel *)

Definition cookie_bytes (cookie : option string) : list byte :=
  match cookie with Some s => c_bytes s | None => [] end.

(** A cookie that fits the length field of a packet and has no terminator inside. *)
Definition cookie_ok (cookie : option string) : Prop :=
  match cookie with
  | Some s => (Init.Byte.x00 ∉ String.list_byte_of_string s) /\ strlen s < 65535
  | None => True
  end.

Lemma cookie_bytes_short cookie : cookie_ok cookie -> Z.of_nat (length (cookie_bytes cookie)) < 2 ^ 16.
Proof. destruct cookie as [s|]; cbn; [|lia]. intros [_ Hs]. rewrite length_c_bytes. lia. Qed.

Definition own_channel (type id timeout sock : Z) (now : timeval) : Channel :=
  let ch := new_channel type id 0 timeout now in
  if type =? ChannelType_TCP_PortForwarding then { ch with ch_sock := sock } else ch.

Lemma own_channel_fields type id timeout sock now : let ch := own_channel type id timeout sock now in
  ch_id ch = id /\ ch_remote_id ch = 0 /\ ch_type ch = type /\ ch_status ch = ChannelStatus_Opening.
Proof. cbn. unfold own_channel. by destruct (type =? _). Qed.

(** An open that succeeds has its channel in the table and its request on the way. *)
Lemma open_channel_inv now type cookie timeout sock w cid w' :
  cookie_ok cookie -> fits_below next (Z.of_nat (length (cookie_bytes cookie))) ->
  multiplex_handler_open_channel now type cookie timeout sock w = Ok (cid, w') -> 0 <= cid ->
  0 <= type <= 2 /\ 0 < cid <= MAX_CHANNEL_ID /\ exists n' ids,
    ids_alloc (channel_ids w) = (cid, ids) /\
    w' = { { { w with channel_ids := ids } with
           channels ::= ht_put cid (own_channel type cid timeout sock now) } with mx_next := n' } /\
    sent_to (mx_next w) (frame PacketType_ChannelOpen type cid 0 (cookie_bytes cookie)) n'.
Proof.
  intros Hcookie Hfit Hopen Hcid. unfold multiplex_handler_open_channel in Hopen.
  apply Res_bind_Ok in Hopen as (u & Htype & Hopen).
  assert (0 <= type <= 2) as Ht.
  { unfold ChannelType_UDP_PortForwarding, ChannelType_TCP_PortForwarding, ChannelType_User in Htype.
    destruct (Z.eqb_spec type 1); [lia|]. destruct (Z.eqb_spec type 2); [lia|].
    apply c_assert_Ok, Z.eqb_eq in Htype. lia. }
  destruct (ids_alloc (channel_ids w)) as [c ids] eqn:Hids.
  destruct (Z.ltb_spec c 0) as [Hc|Hc]; [by injection Hopen as <- <-|].
  destruct (ids_alloc_spec _ _ _ Hids) as [[? _]|(Hr & _)]; [lia|].
  unfold MAX_CHANNEL_ID in *. rewrite u16_small in Hopen by lia.
  change (let ch := new_channel type c 0 timeout now in
    if type =? ChannelType_TCP_PortForwarding then { ch with ch_sock := sock } else ch)
    with (own_channel type c timeout sock now) in Hopen. cbv zeta in Hopen.
  change (if type =? ChannelType_TCP_PortForwarding then
    { new_channel type c 0 timeout now with ch_sock := sock } else new_channel type c 0 timeout now)
    with (own_channel type c timeout sock now) in Hopen.
  destruct (own_channel_fields type c timeout sock now) as (Hid & Hrem & _ & _).
  set (ch := own_channel type c timeout sock now) in *. unfold channels_put in Hopen. rewrite Hid, Hrem in Hopen.
  set (buf := match cookie with Some s => Some _ | None => None end) in Hopen.
  assert (sendable buf /\ payload buf = cookie_bytes cookie) as [Hs Hp].
  { subst buf. pose proof (cookie_bytes_short cookie Hcookie) as Hlen. destruct cookie as [s|]; [|done].
    cbn [cookie_bytes sendable payload] in *. destruct (flex_at_from FLEX_PADDING_LEN (c_bytes s)) as (pre & -> & Hpre); [done|].
    rewrite flex_at_data. split; [|done]. split_and!.
    - apply flex_at_wf. unfold fx_small. rewrite !length_app, Hpre.
      unfold FLEX_PADDING_LEN. cbn [length]. lia.
    - change (128 <= Z.of_nat (length pre)). by rewrite Hpre.
    - exact Hfit. }
  edestruct (send_packet_spec PacketType_ChannelOpen type c 0 buf) as (rc & n' & E & Hrc); [done|done|].
  rewrite E in Hopen. cbn [mbind Res_bind] in Hopen. rewrite Hp in Hrc.
  destruct (Z.ltb_spec rc 0) as [Hneg|Hpos].
  - injection Hopen as <- <-. lia.
  - injection Hopen as <- <-. destruct Hrc as [[_ Hsent]|[? _]]; [|lia].
    split; [done|]. split; [lia|]. by exists n', ids.
Qed.

Lemma sent_to_inv n n' p q : sent_to n p n' -> sent_to n q n' -> p = q.
Proof. unfold sent_to. intros -> Happ. by apply app_inj_tail in Happ as [_ ->]. Qed.

(** The cookie of a request, as the acceptor reads it. *)
Lemma cookie_read buf t o l r cookie :
  flex_wf buf -> flex_data buf = frame t o l r (cookie_bytes cookie) -> cookie_ok cookie ->
  (if Z.of_nat (length (cookie_bytes cookie)) =? 0 then Ok None
   else s ← str_at buf (fx_offset buf + 8); Ok (Some s)) = Ok cookie.
Proof.
  intros Hwf Hd Hc. destruct cookie as [s|]; [|done]. destruct Hc as [Hnul _]. cbn [cookie_bytes] in *.
  pose proof (strlen_nonneg s). rewrite length_c_bytes, (proj2 (Z.eqb_neq _ _)) by lia.
  destruct (flex_wf_at buf Hwf) as (pre & post & E & _). rewrite E, Hd. unfold str_at, flex_at, frame.
  cbn [fx_offset fx_buffer].
  rewrite <- app_assoc, (app_assoc pre), drop_app_length'
    by (rewrite length_app, length_ProtocolBuffer; lia).
  by rewrite c_string_bytes.
Qed.

(** The layer below was given the answer [q] to a request, and took it, or gave [rc]. *)
Definition answered_with (n : next) (q : list byte) (rc : Z) (n' : next) : Prop :=
  exists fb b, flex_data fb = q /\ next_write n fb = Ok (rc, b, n') /\ (0 <= rc -> sent_to n q n').

Lemma send_answer l r w : let q := frame PacketType_ChannelOpenConfirmation 0 l r [] in
  exists rc rc' n, answered_with (mx_next w) q rc n /\ (rc' <? 0) = negb (0 <=? rc) /\
    multiplex_handler_send_packet PacketType_ChannelOpenConfirmation 0 l r None w = Ok (rc', { w with mx_next := n }).
Proof.
  intros q. destruct (send_packet_frame PacketType_ChannelOpenConfirmation 0 l r None w)
    as (fb & Hwf & Ho & Hsz & Hd & ->); [done|done|]. cbn [payload] in Hd. fold q in Hd.
  destruct (next_write_spec (mx_next w) fb) as (rc & b' & n & Hw & _ & Hrc); [done..|].
  rewrite Hw. cbn [mbind Res_bind]. eexists rc, _, n. split; [|split; [|done]].
  - exists fb, b'. split; [done|]. split; [done|]. intros Hpos. unfold sent_to. rewrite <- Hd.
    destruct Hrc as [[_ ?]|[? _]]; [done|lia].
  - destruct Hrc as [[Hrc _]|[Hrc _]].
    + by rewrite (proj2 (Z.ltb_ge rc _)), (proj2 (Z.leb_le 0 rc)) by lia.
    + rewrite (proj2 (Z.ltb_lt rc _)), (proj2 (Z.leb_gt 0 rc)) by lia.
      rewrite swrap_small by (change (32 - 1) with 31; lia). by rewrite (proj2 (Z.ltb_lt rc 0)) by lia.
Qed.

(** What becomes of a request for a channel: with a number left the application is asked,
    and the answer names the channel if it accepts; the channel opens when the answer goes
    down. *)
Lemma receive_open_answer now type rid cookie buf v :
  channel_type_served type v = true -> cookie_ok cookie -> flex_wf buf ->
  flex_data buf = frame PacketType_ChannelOpen type rid 0 (cookie_bytes cookie) ->
  let lid := (ids_alloc (channel_ids v)).1 in
  let asked := EvChannelOpen type lid cookie in
  let accepted := (0 <=? lid) && channel_open (mx_events v) asked in
  exists v' rc, receive_open now type rid (Z.of_nat (length (cookie_bytes cookie))) buf v = Ok v' /\
    answered_with (mx_next v) (frame PacketType_ChannelOpenConfirmation 0 (if accepted then lid else 0)
      (if 0 <=? lid then rid else 0) []) rc (mx_next v') /\ lid <= MAX_CHANNEL_ID /\ lid <> 0 /\
    channels v' =
      (if negb (0 <=? lid) then channels v
       else let t := ht_put lid (new_channel type lid rid 0 now) (channels v) in
            if accepted && (0 <=? rc)
            then ht_put lid { new_channel type lid rid 0 now with ch_status := ChannelStatus_Open } t
            else ht_remove lid t) /\
    mx_events v' =
      (if negb (0 <=? lid) then []
       else if accepted then [if 0 <=? rc then EvChannelOpened type lid
                              else EvChannelClose type lid CloseReason_Error; asked]
       else [asked]) ++ mx_events v.
Proof.
  intros Hserved Hcookie Hwf Hd. unfold receive_open. rewrite Hserved. cbn [negb].
  destruct (ids_alloc (channel_ids v)) as [lid ids] eqn:Hids. cbn [fst].
  destruct (Z.leb_spec 0 lid) as [Hpos|Hneg]; cbn [andb negb].
  2: { rewrite (proj2 (Z.ltb_lt lid 0)) by done.
       destruct (send_answer 0 0 { v with channel_ids := ids }) as (rc & rc' & n & Hans & _ & ->).
       eexists _, rc. split; [reflexivity|]. split; [exact Hans|]. unfold MAX_CHANNEL_ID. split_and!; done || lia. }
  rewrite (proj2 (Z.ltb_ge lid 0)) by done.
  destruct (ids_alloc_spec _ _ _ Hids) as [[? _]|(Hr & _)]; [lia|].
  rewrite u16_small by (unfold MAX_CHANNEL_ID in *; lia).
  rewrite (cookie_read buf PacketType_ChannelOpen type rid 0) by done. cbn [mbind Res_bind].
  unfold notify_channel_open. cbn beta iota zeta. change (channel_open _ _) with
    (channel_open (mx_events v) (EvChannelOpen type lid cookie)).
  destruct (channel_open (mx_events v) (EvChannelOpen type lid cookie)) eqn:Hok; cbn [negb orb andb].
  all: match goal with |- context [multiplex_handler_send_packet _ _ ?l ?r None ?w] =>
    destruct (send_answer l r w) as (rc & rc' & n & Hans & Hrc & ->) end; cbn [mbind Res_bind].
  - rewrite Hrc. destruct (0 <=? rc) eqn:Hz; cbn [negb]; eexists _, rc; (split; [reflexivity|]);
      (split; [exact Hans|]); rewrite Hz; split_and!; done || lia.
  - eexists _, rc. split; [reflexivity|]. split; [exact Hans|]. split_and!; done || lia.
Qed.

(** The other end gets the answer. *)
Lemma receive_answer now lid cid buf w :
  flex_wf buf -> flex_data buf = frame PacketType_ChannelOpenConfirmation 0 lid cid [] ->
  0 <= lid <= MAX_CHANNEL_ID -> 0 <= cid <= MAX_CHANNEL_ID ->
  multiplex_handler_notify_packet now buf w =
    Ok (buf, match ht_get (channels w) cid with
             | Some ch => receive_confirmation now lid ch w | None => w end).
Proof.
  intros Hwf Hd Hl Hc. unfold MAX_CHANNEL_ID in *.
  rewrite (notify_frame now PacketType_ChannelOpenConfirmation 0 lid cid [])
    by (unfold is_u16; cbn; done || lia).
  unfold handle_packet. change (PacketType_ChannelOpenConfirmation =? PacketType_ChannelData) with false.
  rewrite andb_false_r. cbn. by destruct (ht_get (channels w) cid).
Qed.

(** C27. Opening a channel.  The request of a successful open reaches the peer with its
    cookie intact.  If the peer has a number left, its application is asked, once, for that
    number, and its answer is what goes back.  When it goes out, both ends then have the
    channel open under each other's numbers and were told so once, if the application
    accepted; if it refused, the peer keeps nothing and the opener's channel is closed with
    an error.  With no number left nobody is asked, the answer names no channel, and the
    opener is left waiting.  When the layer below does not take the answer, the peer closes
    the channel that its application accepted. *)
Theorem channel_handshake now now' now'' type cookie timeout sock w v cid w' :
  cookie_ok cookie -> fits_below next (Z.of_nat (length (cookie_bytes cookie))) ->
  ht_get (channels w) 0 = None ->
  multiplex_handler_open_channel now type cookie timeout sock w = Ok (cid, w') -> 0 <= cid ->
  channel_type_served type v = true ->
  let lid := (ids_alloc (channel_ids v)).1 in
  let asked := EvChannelOpen type lid cookie in
  let accepted := (0 <=? lid) && channel_open (mx_events v) asked in
  let answer := frame PacketType_ChannelOpenConfirmation 0 (if accepted then lid else 0)
                  (if 0 <=? lid then cid else 0) [] in
  exists p, sent_to (mx_next w) p (mx_next w') /\
  forall req, flex_wf req -> flex_data req = p ->
  exists v' rc, multiplex_handler_notify_packet now' req v = Ok (req, v') /\
    answered_with (mx_next v) answer rc (mx_next v') /\
    if rc <? 0 then
      if accepted
      then ht_get (channels v') lid = None /\
           mx_events v' = EvChannelClose type lid CloseReason_Error :: asked :: mx_events v
      else mx_events v' = (if 0 <=? lid then [asked] else []) ++ mx_events v
    else
      forall rsp, flex_wf rsp -> flex_data rsp = answer ->
      exists w'', multiplex_handler_notify_packet now'' rsp w' = Ok (rsp, w'') /\
      if negb (0 <=? lid) then channels v' = channels v /\ mx_events v' = mx_events v /\ w'' = w'
      else if accepted then
        exists a b, ht_get (channels v') lid = Some a /\ ht_get (channels w'') cid = Some b /\
          ch_status a = ChannelStatus_Open /\ ch_status b = ChannelStatus_Open /\
          ch_id a = lid /\ ch_remote_id a = cid /\ ch_id b = cid /\ ch_remote_id b = lid /\
          ch_type a = type /\ ch_type b = type /\
          mx_events v' = EvChannelOpened type lid :: asked :: mx_events v /\
          mx_events w'' = EvChannelOpened type cid :: mx_events w
      else
        ht_get (channels v') lid = None /\ ht_get (channels w'') cid = None /\
        mx_events v' = asked :: mx_events v /\
        mx_events w'' = EvChannelClose type cid CloseReason_Error :: mx_events w.
Proof.
  intros Hcookie Hfit Hzero Hopen Hcid Hserved. cbv zeta.
  destruct (open_channel_inv _ _ _ _ _ _ _ _ Hcookie Hfit Hopen Hcid) as (Ht & Hr & n' & ids & _ & -> & Hsent).
  eexists. split; [exact Hsent|]. intros req Hreq Hd. pose proof (cookie_bytes_short cookie Hcookie).
  unfold MAX_CHANNEL_ID in *.
  destruct (receive_open_answer now' type cid cookie req v) as (v' & rc & Ev & Hans & Hlid & Hne & Hch & Hev); [done..|].
  set (lid := (ids_alloc (channel_ids v)).1) in *. cbv zeta in Hch.
  exists v', rc. split.
  { rewrite (notify_frame now' PacketType_ChannelOpen type cid 0 (cookie_bytes cookie))
      by (unfold is_u16; done || lia).
    unfold handle_packet. rewrite (proj2 (Z.eqb_neq cid 0)) by lia. cbn [andb]. by rewrite Ev. }
  split; [exact Hans|]. rewrite <- (negb_involutive (rc <? 0)), <- Z.leb_antisym.
  destruct (own_channel_fields type cid timeout sock now) as (Hid & _ & Hty & Hst).
  unfold MAX_CHANNEL_ID in *. clear Hans.
  destruct (Z.leb_spec 0 lid) as [Hpos|Hneg]; cbn [andb negb] in *.
  - destruct (channel_open _ _); cbn [andb] in *; destruct (0 <=? rc); cbn [negb andb] in *;
      try (rewrite Hch, Hev; split; [apply ht_get_remove_eq|done]); try (by rewrite Hev).
    + intros rsp Hrsp Hdr. rewrite (receive_answer now'' lid cid) by (done || unfold MAX_CHANNEL_ID; lia).
      cbn [channels]. eexists. split; [reflexivity|]. cbn. rewrite ht_get_put_eq.
      unfold receive_confirmation. rewrite Hst, bool_decide_true, (proj2 (Z.eqb_neq lid 0)) by (done || lia).
      cbn. rewrite Hid, Hty, Hch, Hev. eexists _, _. rewrite !ht_get_put_eq. split_and!; done.
    + intros rsp Hrsp Hdr. rewrite (receive_answer now'' 0 cid) by (done || unfold MAX_CHANNEL_ID; lia).
      eexists. split; [reflexivity|]. cbn. rewrite ht_get_put_eq.
      unfold receive_confirmation. rewrite Hst, bool_decide_true by done. cbn.
      rewrite Hid, Hty, Hch, Hev, !ht_get_remove_eq. done.
  - destruct (0 <=? rc); cbn [negb]; [|by rewrite Hev].
    intros rsp Hrsp Hdr. rewrite (receive_answer now'' 0 0) by (done || unfold MAX_CHANNEL_ID; lia).
    eexists. split; [reflexivity|]. rewrite Hch, Hev. cbn. by rewrite ht_get_put_ne, Hzero by lia.
Qed.

(** ** Data *)

(** A buffer with [data], as [ela_stream_write_channel] makes it. *)
Lemma from_sendable data : Z.of_nat (length data) < 2 ^ 16 -> fits_below next (Z.of_nat (length data)) ->
  sendable (Some (flex_buffer_from FLEX_PADDING_LEN data)) /\
  payload (Some (flex_buffer_from FLEX_PADDING_LEN data)) = data.
Proof.
  intros Hlen Hfit. destruct (flex_at_from FLEX_PADDING_LEN data) as (pre & E & Hpre); [done|].
  cbn [sendable payload]. rewrite E, flex_at_data. split; [|done]. split_and!.
  - apply flex_at_wf. unfold fx_small. rewrite !length_app, Hpre. unfold FLEX_PADDING_LEN.
    cbn [length]. lia.
  - change (128 <= Z.of_nat (length pre)). by rewrite Hpre.
  - exact Hfit.
Qed.

Lemma forward_frame buf t o l r p : flex_wf buf -> flex_data buf = frame t o l r p ->
  exists buf', flex_buffer_forward_offset buf 8 = Ok buf' /\ flex_data buf' = p.
Proof.
  intros Hwf Hd. destruct (flex_wf_at buf Hwf) as (pre & post & E & Hsm). rewrite Hd in E, Hsm.
  unfold frame in *. eexists. split; [|apply (flex_at_data (pre ++ ProtocolBuffer t o l r
    (Z.of_nat (length p))) p post)].
  rewrite E. pose proof (flex_at_forward _ _ _ _ Hsm) as Hf. rewrite length_ProtocolBuffer in Hf. exact Hf.
Qed.

(** What the owner of a channel is told of data, and what becomes of the channel. *)
Definition told_data (now : timeval) (peer : Channel) (data : list byte) v v' : Prop :=
  let e := EvChannelData (ch_type peer) (ch_id peer) data in
  (if channel_data (mx_events v) e
   then mx_events v' = e :: mx_events v /\
        ht_get (channels v') (ch_id peer) = Some (update_remote_timestamp now peer)
   else mx_events v' = EvChannelClose (ch_type peer) (ch_id peer) CloseReason_Error :: e :: mx_events v /\
        ht_get (channels v') (ch_id peer) = None) /\
  forall id, id <> ch_id peer -> ht_get (channels v') id = ht_get (channels v) id.

Lemma data_frame_delivered now' lid rid data buf peer v :
  is_u16 lid -> is_u16 rid -> is_u16 (Z.of_nat (length data)) -> rid <> 0 ->
  ht_get (channels v) rid = Some peer -> channel_usable peer = true ->
  flex_wf buf -> flex_data buf = frame PacketType_ChannelData 0 lid rid data ->
  exists buf' v', multiplex_handler_notify_packet now' buf v = Ok (buf', v') /\ told_data now' peer data v v' /\
    mx_next v' = mx_next v.
Proof.
  intros Hl Hr Hlen Hrem Hpeer Hup Hwf Hd.
  rewrite (notify_frame now' PacketType_ChannelData 0 lid rid data) by (unfold is_u16 in *; done || lia).
  unfold handle_packet. rewrite (proj2 (Z.eqb_neq rid 0)), andb_false_r by done. cbn.
  rewrite Hpeer. unfold receive_data. rewrite Hup. cbn [negb].
  destruct (forward_frame buf _ _ _ _ _ Hwf Hd) as (buf' & -> & Hpay).
  cbn [mbind Res_bind]. rewrite Hpay. unfold notify_channel_data, told_data. cbn beta iota zeta.
  destruct (channel_data (mx_events v) _) eqn:Hans; cbn [negb].
  - eexists _, _. split; [done|]. split; [|done]. cbn. rewrite ht_get_put_eq. split; [done|].
    intros id Hne. by rewrite ht_get_put_ne.
  - eexists _, _. split; [done|]. split; [|done]. cbn. rewrite ht_get_remove_eq. split; [done|].
    intros id Hne. by rewrite ht_get_remove_ne.
Qed.

(** A write that succeeded handed down one packet of an open channel. *)
Lemma write_channel_frame now cid data w rc w' :
  Z.of_nat (length data) < 2 ^ 16 -> fits_below next (Z.of_nat (length data)) -> 0 < cid ->
  multiplex_handler_write_channel now cid (flex_buffer_from FLEX_PADDING_LEN data) w = Ok (rc, w') -> 0 <= rc ->
  exists ch fb sent b', ht_get (channels w) cid = Some ch /\ channel_usable ch = true /\ ch_remote_id ch <> 0 /\
    rc = Z.of_nat (length data) /\ flex_wf fb /\ next_room <= fx_offset fb /\ fx_size fb <= next_max /\
    flex_data fb = frame PacketType_ChannelData 0 (ch_id ch) (ch_remote_id ch) data /\
    next_write (mx_next w) fb = Ok (sent, b', mx_next w') /\ 0 <= sent.
Proof.
  intros Hlen Hfit Hcid Hwrite Hrc. unfold multiplex_handler_write_channel in Hwrite.
  rewrite (proj2 (Z.leb_le _ _)), (proj2 (Z.eqb_neq cid 0)) in Hwrite by lia.
  cbn [c_assert mbind Res_bind] in Hwrite. unfold send_on_channel in Hwrite.
  destruct (ht_get (channels w) cid) as [ch|] eqn:Hch; [|by injection Hwrite as <- <-].
  destruct (negb (channel_usable ch) || (ch_remote_id ch =? 0)) eqn:Hbad; [by injection Hwrite as <- <-|].
  apply orb_false_iff in Hbad as [Husable%negb_false_iff Hrem%Z.eqb_neq].
  destruct (from_sendable data Hlen Hfit) as [Hs Hp].
  destruct (send_packet_frame PacketType_ChannelData 0 (ch_id ch) (ch_remote_id ch)
    (Some (flex_buffer_from FLEX_PADDING_LEN data)) w) as (fb & Hwf & Ho & Hsz & Hd & E); [done|exact Hs|].
  rewrite E in Hwrite. rewrite Hp in Hd, Hwrite.
  destruct (next_write_spec (mx_next w) fb) as (sent & b' & n' & Ew & _ & Hsent); [done..|].
  rewrite Ew in Hwrite. cbn [mbind Res_bind] in Hwrite. injection Hwrite as <- <-.
  destruct Hsent as [[Hpos _]|[Hneg _]].
  - rewrite (proj2 (Z.ltb_ge _ _)) by done. exists ch, fb, sent, b'. split_and!; try done.
    by destruct (0 <=? _).
  - rewrite (proj2 (Z.ltb_lt _ _)), (swrap_small _ sent) in Hrc by (try change (32 - 1) with 31; lia). lia.
Qed.

(** Data of a channel.  A write that succeeds reports the whole length, and its
    packet gives the owner of the channel at the other end exactly the bytes, once;
    no other channel is touched.  If the owner declines, its channel is closed with
    an error. *)
Theorem channel_data_delivered now now' data cid w rc w' :
  Z.of_nat (length data) < 2 ^ 16 -> fits_below next (Z.of_nat (length data)) -> 0 < cid ->
  (forall id ch, ht_get (channels w) id = Some ch -> is_u16 (ch_id ch) /\ is_u16 (ch_remote_id ch)) ->
  multiplex_handler_write_channel now cid (flex_buffer_from FLEX_PADDING_LEN data) w = Ok (rc, w') ->
  0 <= rc ->
  exists ch p, ht_get (channels w) cid = Some ch /\ channel_usable ch = true /\
    rc = Z.of_nat (length data) /\ sent_to (mx_next w) p (mx_next w') /\
  forall v peer buf, ht_get (channels v) (ch_remote_id ch) = Some peer -> channel_usable peer = true ->
    flex_wf buf -> flex_data buf = p ->
  exists buf' v', multiplex_handler_notify_packet now' buf v = Ok (buf', v') /\ told_data now' peer data v v'.
Proof.
  intros Hlen Hfit Hcid Hids Hwrite Hrc.
  destruct (write_channel_frame now cid data w rc w') as
    (ch & fb & sent & b' & Hch & Hus & Hrem & -> & Hfb & Ho & Hsz & Hd & Ew & Hpos); [done..|].
  destruct (next_write_spec (mx_next w) fb) as (s2 & b2 & n2 & E2 & _ & Hsent); [done..|].
  rewrite Ew in E2. injection E2 as <- <- <-. rewrite Hd in Hsent. destruct Hsent as [[_ Hsent]|[? _]]; [|lia].
  exists ch, (frame PacketType_ChannelData 0 (ch_id ch) (ch_remote_id ch) data).
  split_and!; try done. intros v peer buf Hpeer Hup Hwf Hdata. destruct (Hids cid ch Hch) as [Hid16 Hrem16].
  destruct (data_frame_delivered now' (ch_id ch) (ch_remote_id ch) data buf peer v)
    as (buf' & v' & E & Htold & _); [done|done|unfold is_u16; lia|done..|]. by exists buf', v'.
Qed.
End Props.
