(* ===== verification/MultiplexStream.v ===== *)
(** * Packets out of a byte stream

    Over a reliable stream the multiplexer gets bytes, not packets.  However the
    stream is cut into pieces, [multiplex_handler_notify_data] hands on the same
    packets in the same order, and keeps the beginning of an unfinished one. *)

From S2P Require Import Prelude ElaError FlexBuffer Multiplex MultiplexProps.

(** The room for a packet in [incomplete_buf]. *)
Definition packet_room : Z := FLEX_BUFFER_MAX_LEN - FLEX_PADDING_LEN.

(** Bytes whose length is the one their header gives, and that fit. *)
Definition is_frame (f : list byte) : Prop :=
  8 <= Z.of_nat (length f) <= packet_room /\ be_read (take 2 (drop 6 f)) + 8 = Z.of_nat (length f).

Lemma frame_is_frame t o l r p :
  0 <= t < 256 -> 0 <= o < 256 -> is_u16 l -> is_u16 r -> Z.of_nat (length p) + 8 <= packet_room ->
  is_frame (frame t o l r p).
Proof.
  intros Ht Ho Hl Hr Hp. change packet_room with 2176 in *. unfold is_frame, frame.
  rewrite length_app, length_ProtocolBuffer.
  destruct (header_fields t o l r (Z.of_nat (length p)) p) as (_ & _ & _ & _ & ->);
    [done|done|done|done|unfold is_u16; lia|]. change packet_room with 2176. lia.
Qed.

(** A buffer of the area [B] that holds [acc] as its data. *)
Definition load (acc : list byte) (b : FlexBuffer) : FlexBuffer :=
  flex_at (take 128 (fx_buffer b)) acc (drop (128 + length acc) (fx_buffer b)).

Definition inc_ready (b : FlexBuffer) : Prop :=
  b = load [] b /\ length (fx_buffer b) = 2304%nat.

(** How a handled packet leaves its buffer: the area as it was. *)
Definition same_area (b b' : FlexBuffer) : Prop :=
  fx_buffer b' = fx_buffer b /\ fx_capacity b' = fx_capacity b.

Lemma same_area_refl b : same_area b b.
Proof. done. Qed.

Lemma forward_same_area b n b' : flex_buffer_forward_offset b n = Ok b' -> same_area b b'.
Proof. unfold flex_buffer_forward_offset. destruct (_ <=? _); [|done]. by intros [= <-]. Qed.

Lemma load_append acc s b p t q :
  length (fx_buffer b) = 2304%nat -> (128 + length acc + length s <= 2304)%nat ->
  flex_buffer_append2 (load acc b) (flex_at p (s ++ t) q) (Z.of_nat (length s)) = Ok (load (acc ++ s) b).
Proof.
  intros HB Hle. unfold load. set (B := fx_buffer b) in *.
  rewrite <- (take_drop (length s) (drop (128 + length acc) B)).
  rewrite drop_drop, flex_at_append2.
  - by rewrite length_app, Nat.add_assoc.
  - unfold fx_small. rewrite !length_app, !length_take, !length_drop, HB. lia.
  - rewrite length_take, length_drop, HB. lia.
Qed.

Lemma load_read acc b : (8 <= length acc)%nat ->
  fx_read (load acc b) (fx_offset (load acc b)) 8 = Ok (take 8 acc).
Proof.
  intros Hacc. unfold load, fx_read. cbn [flex_at fx_offset fx_buffer].
  rewrite !length_app, (proj2 (Z.leb_le _ _)) by lia.
  rewrite Nat2Z.id, drop_app_length. f_equal. change (Z.to_nat 8) with 8%nat. apply take_app_le. lia.
Qed.

Lemma length_load acc b :
  length (fx_buffer b) = 2304%nat -> (128 + length acc <= 2304)%nat ->
  length (fx_buffer (load acc b)) = 2304%nat.
Proof. intros HB Hle. cbn. rewrite !length_app, length_take, length_drop. lia. Qed.

(** Taking off what was appended. *)
Lemma at_forward p s t q : Z.of_nat (length (p ++ (s ++ t) ++ q)) < 2 ^ 63 ->
  flex_buffer_forward_offset (flex_at p (s ++ t) q) (Z.of_nat (length s)) = Ok (flex_at (p ++ s) t q).
Proof. apply flex_at_forward. Qed.

Section Stream.
Context `{!HashTables} {L : HashTablesLaws _} `{!Stack, !ChannelApp} {next heap : Type}
  `{!Next next, !IdsHeap heap}.
Implicit Types w : MultiplexHandler next heap.

Definition hold (acc : list byte) w : MultiplexHandler next heap :=
  { w with incomplete_buf ::= load acc }.

Definition ready w : Prop := mx_reliable w = true /\ inc_ready (incomplete_buf w).

(** What a packet leaves alone. *)
Definition kept w w' : Prop :=
  mx_reliable w' = mx_reliable w /\ incomplete_buf w' = incomplete_buf w.

Lemma send_kept t o l r buf w rc w' :
  multiplex_handler_send_packet t o l r buf w = Ok (rc, w') -> kept w w'.
Proof.
  unfold multiplex_handler_send_packet. intros (u & _ & Hr)%Res_bind_Ok.
  apply Res_bind_Ok in Hr as (b & _ & Hr). apply Res_bind_Ok in Hr as (b' & _ & Hr).
  apply Res_bind_Ok in Hr as ([[sent b''] n] & _ & Hr). cbn in Hr.
  by destruct (sent <? 0); injection Hr as <- <-.
Qed.

Lemma receive_open_kept now type rid n buf w w' :
  receive_open now type rid n buf w = Ok w' -> kept w w'.
Proof.
  unfold receive_open. destruct (negb _); [by intros [= <-]|].
  destruct (ids_alloc _) as [cid ids]. destruct (cid <? 0).
  - intros ([rc w1] & Hs%send_kept & [= <-])%Res_bind_Ok. exact Hs.
  - intros (cookie & _ & Hr)%Res_bind_Ok. unfold notify_channel_open in Hr. cbn beta iota zeta in Hr.
    apply Res_bind_Ok in Hr as ([rc w1] & Hs%send_kept & Hr). cbn in Hr.
    destruct (_ || _); injection Hr as <-; [|exact Hs]. by destruct (channel_open _ _).
Qed.

Lemma handle_kept now t o l r n buf w buf' w' :
  handle_packet now t o l r n buf w = Ok (buf', w') -> same_area buf buf' /\ kept w w'.
Proof.
  unfold handle_packet. destruct (_ && _).
  { intros (b & Hf%forward_same_area & [= <- <-])%Res_bind_Ok. done. }
  destruct (t =? PacketType_ChannelOpen).
  { intros (w1 & Ho%receive_open_kept & [= <- <-])%Res_bind_Ok. done. }
  destruct (ht_get _ _) as [ch|]; [|by intros [= <- <-]].
  unfold receive_confirmation, receive_pending, receive_resume, receive_data.
  repeat case_match; try (by intros [= <- <-]).
  intros (b & Hf%forward_same_area & Hr)%Res_bind_Ok. cbn beta iota zeta in Hr.
  unfold notify_channel_data in Hr. cbn beta iota zeta in Hr.
  revert Hr. by case_match; intros [= <- <-].
Qed.

Lemma notify_kept now buf w buf' w' :
  multiplex_handler_notify_packet now buf w = Ok (buf', w') -> same_area buf buf' /\ kept w w'.
Proof.
  unfold multiplex_handler_notify_packet. intros (u & _ & Hr)%Res_bind_Ok.
  destruct (_ <? _); [by injection Hr as <- <-|]. apply Res_bind_Ok in Hr as (pb & _ & Hr).
  cbn beta iota zeta in Hr. destruct (negb _); [by injection Hr as <- <-|].
  by apply handle_kept in Hr.
Qed.

(** A delivered packet leaves the buffer ready for the next. *)
Lemma deliver_ready now f w w' : ready w -> (128 + length f <= 2304)%nat ->
  deliver_incomplete now (hold f w) = Ok w' -> ready w'.
Proof.
  intros (Hrel & _ & HB) Hf. unfold deliver_incomplete.
  intros ([buf w1] & ((Harea & Hcap) & Hrel' & _)%notify_kept & [= <-])%Res_bind_Ok.
  change (incomplete_buf (hold f w)) with (load f (incomplete_buf w)) in *.
  pose proof (length_load f _ HB Hf) as Hlen. rewrite <- Harea in Hlen.
  split; [cbn; by rewrite Hrel'|]. split; cbn [incomplete_buf]; [|exact Hlen].
  apply flex_ext.
  - cbn. rewrite Hcap. cbn. by rewrite take_drop, Hlen, !length_app, length_take, length_drop, HB; lia.
  - cbn. rewrite length_take, Hlen. done.
  - done.
  - cbn. by rewrite take_drop.
Qed.

Lemma hold_nil w : ready w -> hold [] w = w.
Proof.
  intros (_ & Hinc & _). change (hold [] w) with { w with incomplete_buf := load [] (incomplete_buf w) }.
  rewrite <- Hinc. by destruct w.
Qed.

(** ** One round of the loop *)

(** Less than a packet: everything is kept. *)
Lemma loop_keep fuel now p bs q acc g w :
  ready w -> fx_small p bs q -> bs <> [] ->
  is_frame g -> (acc ++ bs) `prefix_of` g -> (length (acc ++ bs) < length g)%nat ->
  notify_data_loop (S fuel) now (flex_at p bs q) (hold acc w) = Ok (hold (acc ++ bs) w).
Proof.
  intros (_ & _ & HB) Hsm Hne [Hg Hlen] Hpre Hlt. change packet_room with 2176 in Hg.
  rewrite length_app in Hlt. assert (0 < length bs)%nat as Hbs by (destruct bs; [done|cbn; lia]).
  cbn [notify_data_loop]. change (fx_size (flex_at p bs q)) with (Z.of_nat (length bs)).
  change (incomplete_buf (hold acc w)) with (load acc (incomplete_buf w)).
  change (fx_size (load acc _)) with (Z.of_nat (length acc)). unfold PROTOCOL_HEAD_LEN.
  rewrite (proj2 (Z.eqb_neq _ _)) by lia. destruct (Z.ltb_spec (Z.of_nat (length acc) + Z.of_nat (length bs)) 8)
    as [Hshort|Hlong].
  { unfold flex_buffer_append. change (fx_size (flex_at p bs q)) with (Z.of_nat (length bs)).
    rewrite <- (app_nil_r bs) at 1. rewrite load_append by (done || lia). done. }
  destruct Hpre as [s Hpre].
  assert (forall a, (8 <= length a)%nat -> a `prefix_of` (acc ++ bs) ->
    be_read (take 2 (drop 6 (take 8 a))) + 8 = Z.of_nat (length g)) as Hhead.
  { intros a Ha [x Hx]. rewrite <- Hlen, Hpre, Hx. do 2 f_equal.
    rewrite skipn_firstn_comm, take_take, <- app_assoc, drop_app_le, take_app_le
      by (rewrite ?length_drop; lia). done. }
  destruct (Z.ltb_spec (Z.of_nat (length acc)) 8) as [Hacc|Hacc].
  - set (n := (8 - length acc)%nat). rewrite <- (take_drop n bs) in Hsm |- *.
    assert (length (take n bs) = n) as Hn by (rewrite length_take; lia).
    replace (8 - Z.of_nat (length acc)) with (Z.of_nat (length (take n bs))) by lia.
    rewrite load_append, at_forward by (done || lia). cbn [mbind Res_bind].
    rewrite load_read by (rewrite length_app; lia). cbn [mbind Res_bind].
    rewrite Hhead; [|rewrite length_app; lia|apply prefix_app; exists (drop n bs); by rewrite take_drop].
    change (fx_size (load _ _)) with (Z.of_nat (length (acc ++ take n bs))).
    change (fx_size (flex_at _ _ _)) with (Z.of_nat (length (drop n bs))).
    rewrite length_app, length_drop, Hn, Z.gtb_ltb, (proj2 (Z.ltb_lt _ _)) by lia.
    unfold flex_buffer_append. change (fx_size (flex_at _ _ _)) with (Z.of_nat (length (drop n bs))).
    rewrite <- (app_nil_r (drop n bs)) at 1.
    rewrite load_append by (rewrite ?length_app, ?length_drop; done || lia). cbn [mbind Res_bind].
    by rewrite <- app_assoc.
  - cbn [mbind Res_bind]. rewrite load_read by lia. cbn [mbind Res_bind].
    rewrite Hhead by (lia || by apply prefix_app_r).
    change (fx_size (load _ _)) with (Z.of_nat (length acc)).
    change (fx_size (flex_at _ _ _)) with (Z.of_nat (length bs)).
    rewrite Z.gtb_ltb, (proj2 (Z.ltb_lt _ _)) by lia.
    unfold flex_buffer_append. change (fx_size (flex_at _ _ _)) with (Z.of_nat (length bs)).
    rewrite <- (app_nil_r bs) at 1. by rewrite load_append by (done || lia).
Qed.

(** With its header complete a packet tells its length. *)
Lemma header_length a s : is_frame (a ++ s) -> (8 <= length a)%nat ->
  be_read (take 2 (drop 6 (take 8 a))) + 8 = Z.of_nat (length a + length s).
Proof.
  intros [_ Hlen] Ha. rewrite length_app in Hlen. rewrite <- Hlen. do 2 f_equal.
  by rewrite skipn_firstn_comm, take_take, drop_app_le, take_app_le by (rewrite ?length_drop; lia).
Qed.

(** The second half of a round: the header is complete, and so is the packet. *)
Lemma complete_packet now fuel p s t q acc acc0 w :
  ready w -> fx_small p (s ++ t) q -> is_frame (acc ++ s) -> (8 <= length acc)%nat ->
  ('(inc, buf) ←
     (if be_read (take 2 (drop 6 (take 8 acc))) + 8 >? Z.of_nat (length acc) then
        inc ← flex_buffer_append2 (load acc (incomplete_buf w)) (flex_at p (s ++ t) q)
          (be_read (take 2 (drop 6 (take 8 acc))) + 8 - Z.of_nat (length acc));
        buf ← flex_buffer_forward_offset (flex_at p (s ++ t) q)
          (be_read (take 2 (drop 6 (take 8 acc))) + 8 - Z.of_nat (length acc));
        Ok (inc, buf)
      else Ok (load acc (incomplete_buf w), flex_at p (s ++ t) q));
   w ← deliver_incomplete now { hold acc0 w with incomplete_buf := inc };
   notify_data_loop fuel now buf w) =
  (w ← deliver_incomplete now (hold (acc ++ s) w); notify_data_loop fuel now (flex_at (p ++ s) t q) w).
Proof.
  intros (_ & _ & HB) Hsm Hf Hacc. pose proof (header_length acc s Hf Hacc) as Hhead.
  destruct Hf as [Hf _]. change packet_room with 2176 in Hf. rewrite length_app in Hf.
  rewrite Hhead, Z.gtb_ltb. destruct (Z.ltb_spec (Z.of_nat (length acc)) (Z.of_nat (length acc + length s)))
    as [Hs|Hs].
  - replace (Z.of_nat (length acc + length s) - Z.of_nat (length acc)) with (Z.of_nat (length s)) by lia.
    by rewrite load_append, at_forward by (done || lia).
  - assert (s = []) as -> by (destruct s; [done|cbn in *; lia]).
    cbn [mbind Res_bind app]. by rewrite !app_nil_r.
Qed.

Lemma loop_deliver fuel now p s t q acc w :
  ready w -> fx_small p (s ++ t) q -> is_frame (acc ++ s) -> s <> [] ->
  notify_data_loop (S fuel) now (flex_at p (s ++ t) q) (hold acc w) =
    (w ← deliver_incomplete now (hold (acc ++ s) w); notify_data_loop fuel now (flex_at (p ++ s) t q) w).
Proof.
  intros Hw Hsm Hf Hne. pose proof Hf as [Hroom Hlen]. change packet_room with 2176 in Hroom.
  pose proof Hw as (_ & _ & HB). rewrite length_app in Hroom, Hlen.
  assert (0 < length s)%nat as Hs by (destruct s; [done|cbn; lia]).
  cbn [notify_data_loop]. change (fx_size (flex_at p (s ++ t) q)) with (Z.of_nat (length (s ++ t))).
  change (incomplete_buf (hold acc w)) with (load acc (incomplete_buf w)).
  change (fx_size (load acc _)) with (Z.of_nat (length acc)). unfold PROTOCOL_HEAD_LEN.
  rewrite length_app, (proj2 (Z.eqb_neq _ 0)), (proj2 (Z.ltb_ge (_ + _) 8)) by lia.
  destruct (Z.ltb_spec (Z.of_nat (length acc)) 8) as [Hacc|Hacc].
  - assert (exists s1 s2, s = s1 ++ s2 /\ length s1 = (8 - length acc)%nat) as (s1 & s2 & -> & Hn).
    { exists (take (8 - length acc) s), (drop (8 - length acc) s).
      rewrite take_drop, length_take. split; [done|lia]. }
    rewrite <- (app_assoc s1) in Hsm |- *. rewrite app_assoc in Hf.
    replace (8 - Z.of_nat (length acc)) with (Z.of_nat (length s1)) by lia.
    rewrite load_append, at_forward by (done || lia). cbn [mbind Res_bind].
    rewrite load_read by (rewrite length_app; lia). cbn [mbind Res_bind].
    change (fx_size (load _ _)) with (Z.of_nat (length (acc ++ s1))).
    change (fx_size (flex_at _ _ _)) with (Z.of_nat (length (s2 ++ t))).
    rewrite Z.gtb_ltb, (proj2 (Z.ltb_ge (_ + _) _)).
    2: { rewrite (header_length _ s2), !length_app by (done || rewrite length_app; lia). lia. }
    rewrite (app_assoc acc), (app_assoc p). apply complete_packet; [done| |done|rewrite length_app; lia].
    unfold fx_small in *. rewrite !length_app in *. lia.
  - cbn [mbind Res_bind]. rewrite load_read by lia. cbn [mbind Res_bind].
    change (fx_size (load _ _)) with (Z.of_nat (length acc)).
    change (fx_size (flex_at _ _ _)) with (Z.of_nat (length (s ++ t))).
    rewrite Z.gtb_ltb, (proj2 (Z.ltb_ge (_ + _) _)).
    2: { rewrite (header_length _ s), length_app by (done || lia). lia. }
    apply complete_packet; [done|done|done|lia].
Qed.

(** ** Whole streams *)

(** The packets one after the other, each complete. *)
Fixpoint deliver_all (now : timeval) (frames : list (list byte)) w : Res (MultiplexHandler next heap) :=
  match frames with
  | [] => Ok w
  | f :: frames => w ← deliver_incomplete now (hold f w); deliver_all now frames w
  end.

(** The stream as it comes, in pieces. *)
Fixpoint on_pieces (now : timeval) (pieces : list FlexBuffer) w : Res (MultiplexHandler next heap) :=
  match pieces with
  | [] => Ok w
  | b :: pieces => w ← multiplex_handler_on_data now b w; on_pieces now pieces w
  end.

(** The beginning of a packet, or nothing. *)
Definition unfinished (r : list byte) : Prop :=
  r = [] \/ exists g, is_frame g /\ r `prefix_of` g /\ (length r < length g)%nat.

Definition shorter_than_head (r : list byte) (frames : list (list byte)) : Prop :=
  match frames with [] => True | f :: _ => (length r < length f)%nat end.

Lemma frame_room f : is_frame f -> (128 + length f <= 2304)%nat.
Proof. intros [Hf _]. change packet_room with 2176 in Hf. lia. Qed.

Lemma loop_frames frames : forall fuel now p bs q acc w rest,
  ready w -> fx_small p bs q -> Forall is_frame frames -> unfinished rest ->
  acc ++ bs = concat frames ++ rest -> shorter_than_head acc frames -> (length bs < fuel)%nat ->
  notify_data_loop fuel now (flex_at p bs q) (hold acc w) =
    (w' ← deliver_all now frames w; Ok (hold rest w')).
Proof.
  induction frames as [|f frames IH]; intros [|fuel] now p bs q acc w rest Hw Hsm Hfs Hrest E Hacc Hfuel;
    try lia; cbn [concat] in E.
  - cbn [deliver_all mbind Res_bind]. destruct bs as [|b bs].
    + rewrite app_nil_r in E. by subst acc.
    + destruct Hrest as [->|(g & Hg & Hpre & Hlt)]; [by destruct acc|].
      cbn [app] in E. rewrite <- E in Hpre, Hlt |- *. by eapply loop_keep.
  - apply Forall_cons in Hfs as [Hf Hfs]. cbn in Hacc. rewrite <- app_assoc in E.
    assert (exists s t, bs = s ++ t /\ f = acc ++ s /\ t = concat frames ++ rest) as (s & t & -> & -> & ->).
    { apply app_eq_inv in E as [(k & -> & _)|(k & -> & ->)]; [|by exists k, (concat frames ++ rest)].
      rewrite length_app in Hacc. lia. }
    assert (s <> []) as Hne by (intros ->; rewrite app_nil_r in Hacc; lia).
    rewrite loop_deliver by done. cbn [deliver_all].
    destruct (deliver_incomplete now (hold (acc ++ s) w)) as [w1|] eqn:Hd; [|done]. cbn [mbind Res_bind].
    pose proof (deliver_ready now _ w w1 Hw (frame_room _ Hf) Hd) as Hw1.
    rewrite <- (hold_nil w1 Hw1) at 1. apply IH; try done.
    + unfold fx_small in *. rewrite !length_app in *. lia.
    + destruct frames as [|g ?]; [done|]. apply Forall_cons in Hfs as [[Hg _] _]. cbn. lia.
    + rewrite !length_app in Hfuel. rewrite length_app. destruct s; [done|cbn in *; lia].
Qed.

(** Where a stream of packets is cut, whole packets are before the cut and the
    beginning of one. *)
Lemma cut_frames frames : forall x d rest, Forall is_frame frames -> unfinished rest ->
  x ++ d = concat frames ++ rest ->
  exists fs1 fs2 r, frames = fs1 ++ fs2 /\ x = concat fs1 ++ r /\ r ++ d = concat fs2 ++ rest /\
    shorter_than_head r fs2 /\ unfinished r.
Proof.
  induction frames as [|f frames IH]; intros x d rest Hfs Hrest E; cbn [concat] in E.
  - exists [], [], x. split_and!; try done. destruct Hrest as [->|(g & Hg & Hpre & Hlt)].
    + left. by apply app_eq_nil in E as [-> _].
    + right. exists g. split; [done|]. assert (x `prefix_of` rest) as Hx by (by exists d).
      split; [by trans rest|]. apply prefix_length in Hx. lia.
  - apply Forall_cons in Hfs as [Hf Hfs]. rewrite <- app_assoc in E.
    destruct (decide (length x < length f)%nat) as [Hlt|Hge].
    + exists [], (f :: frames), x. split_and!; try done; [by rewrite E; cbn; rewrite <- app_assoc|].
      right. exists f. split; [done|]. split; [|done].
      apply app_eq_inv in E as [(k & -> & _)|(k & -> & _)]; [rewrite length_app in Hlt; lia|by exists k].
    + assert (exists k, x = f ++ k /\ k ++ d = concat frames ++ rest) as (k & -> & E').
      { apply app_eq_inv in E as [(k & -> & E)|(k & -> & ->)]; [by exists k|].
        rewrite length_app in Hge. assert (k = []) as -> by (destruct k; [done|cbn in *; lia]).
        exists []. by rewrite !app_nil_r. }
      destruct (IH k d rest Hfs Hrest E') as (fs1 & fs2 & r & -> & -> & E2 & Hs & Hu).
      exists (f :: fs1), fs2, r. split_and!; try done. cbn. by rewrite <- app_assoc.
Qed.

Lemma deliver_all_app now fs1 fs2 w :
  deliver_all now (fs1 ++ fs2) w = (w' ← deliver_all now fs1 w; deliver_all now fs2 w').
Proof.
  revert w. induction fs1 as [|f fs1 IH]; intros w; [done|]. cbn.
  destruct (deliver_incomplete now (hold f w)); [apply IH|done].
Qed.

Lemma deliver_all_ready now fs w w' :
  ready w -> Forall is_frame fs -> deliver_all now fs w = Ok w' -> ready w'.
Proof.
  intros Hw Hfs. revert w Hw. induction Hfs as [|f fs Hf Hfs IH]; intros w Hw; [by intros [= <-]|].
  intros (w1 & Hd & Hr)%Res_bind_Ok. eapply IH; [|done].
  eapply deliver_ready; [done|by apply frame_room|done].
Qed.

Lemma pieces_from pieces : forall now frames acc w rest,
  ready w -> Forall (fun b => flex_wf b /\ flex_data b <> []) pieces ->
  Forall is_frame frames -> unfinished rest ->
  acc ++ concat (flex_data <$> pieces) = concat frames ++ rest -> shorter_than_head acc frames ->
  on_pieces now pieces (hold acc w) = (w' ← deliver_all now frames w; Ok (hold rest w')).
Proof.
  induction pieces as [|b pieces IH]; intros now frames acc w rest Hw Hps Hfs Hrest E Hacc;
    cbn [fmap list_fmap concat] in E.
  - rewrite app_nil_r in E. destruct frames as [|f frames]; [by subst|].
    cbn in E, Hacc. apply (f_equal length) in E. rewrite !length_app in E. lia.
  - apply Forall_cons in Hps as [[Hwf Hne] Hps]. rewrite app_assoc in E.
    destruct (cut_frames _ _ _ _ Hfs Hrest E) as (fs1 & fs2 & r & -> & E1 & E2 & Hs & Hu).
    apply Forall_app in Hfs as [Hfs1 Hfs2]. cbn [on_pieces]. rewrite deliver_all_app.
    assert (multiplex_handler_on_data now b (hold acc w) = (w' ← deliver_all now fs1 w; Ok (hold r w'))) as ->.
    { unfold multiplex_handler_on_data. destruct Hw as [Hrel Hinc].
      change (mx_reliable (hold acc w)) with (mx_reliable w). rewrite Hrel.
      unfold multiplex_handler_notify_data. destruct (flex_wf_at b Hwf) as (p & q & Eb & Hsm).
      pose proof (length_flex_data b Hwf) as Hlen.
      rewrite (proj2 (Z.eqb_neq _ _)) by (destruct (flex_data b); [done|cbn in Hlen; lia]).
      cbn [negb c_assert mbind Res_bind]. rewrite Eb at 2. apply loop_frames; try done.
      - by destruct fs1 as [|f fs1]; [|cbn in Hacc].
      - lia. }
    destruct (deliver_all now fs1 w) as [w1|] eqn:Hd; [|done]. cbn [mbind Res_bind].
    apply IH; try done. exact (deliver_all_ready _ _ _ _ Hw Hfs1 Hd).
Qed.

(** C26. Packets survive any cutting of the stream.  However the bytes of a sequence of
    packets come in over a reliable stream, in whatever pieces, the multiplexer
    handles exactly these packets in this order, each complete, and keeps the bytes
    of an unfinished last one. *)
Theorem stream_reassembly now pieces frames rest w :
  ready w -> Forall (fun b => flex_wf b /\ flex_data b <> []) pieces ->
  Forall is_frame frames -> unfinished rest ->
  concat (flex_data <$> pieces) = concat frames ++ rest ->
  on_pieces now pieces w = (w' ← deliver_all now frames w; Ok (hold rest w')).
Proof.
  intros Hw Hps Hfs Hrest E. rewrite <- (hold_nil w Hw) at 1. apply pieces_from; try done.
  destruct frames as [|f ?]; [done|]. apply Forall_cons in Hfs as [[Hf _] _]. cbn. lia.
Qed.

(** A packet that is longer than the room for it: once the room is full, whatever
    comes in is thrown away until a single piece goes past the announced end. *)
Lemma oversized_packet_discards now b acc w :
  ready w -> Z.of_nat (length acc) = packet_room -> flex_wf b -> flex_data b <> [] ->
  packet_room + fx_size b < be_read (take 2 (drop 6 (take 8 acc))) + 8 ->
  multiplex_handler_on_data now b (hold acc w) = Ok (hold acc w).
Proof.
  intros (Hrel & _ & HB) Hacc Hwf Hne Hlong. change packet_room with 2176 in *.
  unfold multiplex_handler_on_data. change (mx_reliable (hold acc w)) with (mx_reliable w). rewrite Hrel.
  unfold multiplex_handler_notify_data. destruct (flex_wf_at b Hwf) as (p & q & Eb & Hsm).
  pose proof (length_flex_data b Hwf) as Hlen.
  assert (fx_size b <> 0) as Hsz by (destruct (flex_data b); [done|cbn in Hlen; lia]).
  rewrite (proj2 (Z.eqb_neq _ _)) by done. cbn [negb c_assert mbind Res_bind notify_data_loop].
  rewrite (proj2 (Z.eqb_neq _ _)) by done.
  change (incomplete_buf (hold acc w)) with (load acc (incomplete_buf w)).
  change (fx_size (load acc _)) with (Z.of_nat (length acc)). unfold PROTOCOL_HEAD_LEN.
  rewrite (proj2 (Z.ltb_ge (_ + _) 8)), (proj2 (Z.ltb_ge _ 8)) by lia. cbn [mbind Res_bind].
  rewrite load_read by lia. cbn [mbind Res_bind].
  change (fx_size (load acc _)) with (Z.of_nat (length acc)).
  rewrite Z.gtb_ltb, (proj2 (Z.ltb_lt _ _)) by lia.
  assert (load acc (incomplete_buf w) = flex_at (take 128 (fx_buffer (incomplete_buf w))) acc []) as E.
  { unfold load. by rewrite drop_ge by lia. }
  rewrite E. unfold flex_buffer_append. rewrite Eb at 1. rewrite flex_at_append2_full.
  - rewrite <- E. done.
  - unfold fx_small. rewrite !length_app, length_take. cbn [length]. lia.
  - lia.
Qed.
End Stream.
