(* ===== verification/MultiplexInv.v ===== *)
(** * The life of a channel

    The multiplexer as a transition system over all its operations and every packet
    that can come in.  In each reachable state the numbers in use are those of the
    channels in the table, and what the owner of a channel is told follows one
    order: asked or opened, then data, pend and resume while it is open, closed at
    most once, and nothing after that.  Checkpoints close what is overdue. *)

From S2P Require Import Prelude ElaError FlexBuffer Multiplex MultiplexProps MultiplexStream.

Lemma filter_all {A} (P : A -> Prop) `{!forall x, Decision (P x)} l : Forall P l -> base.filter P l = l.
Proof.
  induction 1 as [|x l Hx Hl IH]; [done|]. by rewrite filter_cons_True, IH.
Qed.

Lemma filter_none {A} (P : A -> Prop) `{!forall x, Decision (P x)} l :
  Forall (fun x => ~ P x) l -> base.filter P l = [].
Proof.
  induction 1 as [|x l Hx Hl IH]; [done|]. by rewrite filter_cons_False, IH.
Qed.

(** ** The order of events *)

(** The events of one channel. *)
Definition about (id : Z) (e : mux_event) : Prop :=
  match e with
  | EvChannelOpen _ i _ | EvChannelOpened _ i | EvChannelClose _ i _ | EvChannelData _ i _
  | EvChannelPending _ i | EvChannelResume _ i => i = id
  | EvData _ | EvStateChanged _ => False
  end.
#[export] Instance about_dec id e : Decision (about id e).
Proof. destruct e; cbn; apply _. Defined.

(** The answer that an event got in a history; one that asks for none counts as accepted. *)
Definition answer `{!ChannelApp} (h : list mux_event) (e : mux_event) : bool :=
  match e with
  | EvChannelOpen _ _ _ => channel_open h e
  | EvChannelData _ _ _ => channel_data h e
  | _ => true
  end.

(** [None] while the number is free, else the type and the status of its channel; a step
    without an event is an open of our own, where there are such. *)
Inductive lifecycle (own : bool) :
    option (Z * ChannelStatus) -> list (mux_event * bool) -> option (Z * ChannelStatus) -> Prop :=
| life_refl s : lifecycle own s [] s
| life_asked t id c l s :
    lifecycle own (Some (t, ChannelStatus_Opening)) l s -> lifecycle own None ((EvChannelOpen t id c, true) :: l) s
| life_refused t id c l s :
    lifecycle own None l s -> lifecycle own None ((EvChannelOpen t id c, false) :: l) s
| life_own t l s : own = true ->
    lifecycle own (Some (t, ChannelStatus_Opening)) l s -> lifecycle own None l s
| life_opened t id l s :
    lifecycle own (Some (t, ChannelStatus_Open)) l s ->
    lifecycle own (Some (t, ChannelStatus_Opening)) ((EvChannelOpened t id, true) :: l) s
| life_data t id d b st l s : st = ChannelStatus_Open \/ st = ChannelStatus_Pending ->
    lifecycle own (Some (t, st)) l s -> lifecycle own (Some (t, st)) ((EvChannelData t id d, b) :: l) s
| life_pending t id l s :
    lifecycle own (Some (t, ChannelStatus_Pending)) l s ->
    lifecycle own (Some (t, ChannelStatus_Open)) ((EvChannelPending t id, true) :: l) s
| life_resume t id l s :
    lifecycle own (Some (t, ChannelStatus_Open)) l s ->
    lifecycle own (Some (t, ChannelStatus_Pending)) ((EvChannelResume t id, true) :: l) s
| life_close t id r st l s :
    lifecycle own None l s -> lifecycle own (Some (t, st)) ((EvChannelClose t id r, true) :: l) s.
Create HintDb mux.
#[export] Hint Constructors lifecycle : mux.

Lemma lifecycle_app own s1 l1 s2 l2 s3 :
  lifecycle own s1 l1 s2 -> lifecycle own s2 l2 s3 -> lifecycle own s1 (l1 ++ l2) s3.
Proof. intros H1 H2. induction H1; cbn; eauto with mux. Qed.

(** Events with their answers, newest first, after the history [h]. *)
Fixpoint answered `{!ChannelApp} (h evs : list mux_event) : list (mux_event * bool) :=
  match evs with [] => [] | e :: evs => (e, answer (evs ++ h) e) :: answered h evs end.

(** Those of a channel, oldest first. *)
Definition events_of `{!ChannelApp} (id : Z) (h evs : list mux_event) : list (mux_event * bool) :=
  base.filter (fun p => about id p.1) (reverse (answered h evs)).

Section Events.
Context `{!ChannelApp}.

Lemma answered_app h l1 l2 : answered h (l2 ++ l1) = answered (l1 ++ h) l2 ++ answered h l1.
Proof. induction l2 as [|e l2 IH]; cbn; [done|]. by rewrite IH, app_assoc. Qed.

Lemma answered_fst h evs : (answered h evs).*1 = evs.
Proof. induction evs as [|e evs IH]; cbn; [done|]. by f_equal. Qed.

Lemma Forall_answered (P : mux_event -> Prop) h evs : Forall P evs -> Forall (fun p => P p.1) (answered h evs).
Proof. induction 1; cbn; by constructor. Qed.

Lemma events_of_app id h l1 l2 : events_of id h (l2 ++ l1) = events_of id h l1 ++ events_of id (l1 ++ h) l2.
Proof. unfold events_of. by rewrite answered_app, reverse_app, filter_app. Qed.

Lemma events_of_all id h evs : Forall (about id) evs -> events_of id h evs = reverse (answered h evs).
Proof. intros Hall. unfold events_of. apply filter_all. by apply Forall_reverse, Forall_answered. Qed.

Lemma about_unique id id' e : about id e -> about id' e -> id = id'.
Proof. destruct e; cbn; naive_solver. Qed.

Lemma events_of_none id h evs : Forall (fun e => ~ about id e) evs -> events_of id h evs = [].
Proof.
  intros Hall. unfold events_of. apply filter_none, Forall_reverse.
  by apply (Forall_answered (fun e => ~ about id e)).
Qed.

Lemma events_of_other id id' h evs : Forall (about id) evs -> id <> id' -> events_of id' h evs = [].
Proof.
  intros Hall Hne. apply events_of_none. eapply Forall_impl; [exact Hall|]. intros e He Hab.
  by apply Hne, (about_unique id id' e).
Qed.
End Events.

Section Inv.
Context `{!HashTables} {L : HashTablesLaws _} `{!Stack, !ChannelApp} {next heap : Type}
  `{!Next next, !NextLaws next, !IdsHeap heap, !IdsHeapLaws heap}.
Implicit Types w : MultiplexHandler next heap.

(** Whether channels are opened from this end. *)
Variable own : bool.

(** ** The invariant *)

Definition channel_ok (id : Z) (ch : Channel) : Prop :=
  ch_id ch = id /\ 0 < id <= MAX_CHANNEL_ID /\ is_u16 (ch_remote_id ch) /\ 0 <= ch_type ch <= 2 /\
  ch_status ch <> ChannelStatus_Closing.

Definition mux_wf w : Prop :=
  (forall id ch, ht_get (channels w) id = Some ch -> channel_ok id ch) /\
  (forall id, id ∈ ids_used (channel_ids w) <-> is_Some (ht_get (channels w) id)).

Definition life_of (ch : Channel) : Z * ChannelStatus := (ch_type ch, ch_status ch).
Definition status_of w (id : Z) : option (Z * ChannelStatus) := life_of <$> ht_get (channels w) id.

(** What a step does: the invariant is kept, every channel lives on in order. *)
Definition evolves w w' : Prop :=
  mux_wf w -> mux_wf w' /\
  exists evs, mx_events w' = evs ++ mx_events w /\
    forall id, lifecycle own (status_of w id) (events_of id (mx_events w) evs) (status_of w' id).

Lemma evolves_refl w : evolves w w.
Proof. intros Hwf. split; [done|]. exists []. split; [done|]. intros id. apply life_refl. Qed.

Lemma evolves_trans w1 w2 w3 : evolves w1 w2 -> evolves w2 w3 -> evolves w1 w3.
Proof.
  intros H12 H23 Hwf. destruct (H12 Hwf) as (Hwf2 & e1 & E1 & L1).
  destruct (H23 Hwf2) as (Hwf3 & e2 & E2 & L2). split; [done|]. exists (e2 ++ e1).
  split; [by rewrite E2, E1, app_assoc|]. intros id. rewrite events_of_app, <- E1. by eapply lifecycle_app.
Qed.

(** Steps that change no channel. *)
Lemma evolves_frame w w' evs :
  channels w' = channels w -> ids_used (channel_ids w') = ids_used (channel_ids w) ->
  mx_events w' = evs ++ mx_events w -> (forall k, Forall (fun e => ~ about k e) evs) -> evolves w w'.
Proof.
  intros Hc Hi He Hev [Hwf1 Hwf2]. split.
  - split; [by rewrite Hc|]. intros id. by rewrite Hc, Hi.
  - exists evs. split; [done|]. intros id. rewrite events_of_none by done. unfold status_of. rewrite Hc.
    apply life_refl.
Qed.

(** Steps on one channel. *)
Lemma evolves_one w w' id evs :
  (forall k, k <> id -> ht_get (channels w') k = ht_get (channels w) k) ->
  mx_events w' = evs ++ mx_events w -> Forall (about id) evs ->
  (mux_wf w -> (forall ch, ht_get (channels w') id = Some ch -> channel_ok id ch) /\
    (forall k, k <> id -> k ∈ ids_used (channel_ids w') <-> k ∈ ids_used (channel_ids w)) /\
    (id ∈ ids_used (channel_ids w') <-> is_Some (ht_get (channels w') id)) /\
    lifecycle own (status_of w id) (reverse (answered (mx_events w) evs)) (status_of w' id)) ->
  evolves w w'.
Proof.
  intros Hother He Hab Hid Hwf. destruct (Hid Hwf) as (Hok & Hk & Hi & Hl). destruct Hwf as [Hwf1 Hwf2].
  split.
  - split.
    + intros k ch Hch. destruct (decide (k = id)) as [->|Hne]; [by apply Hok|].
      apply Hwf1. by rewrite <- Hother.
    + intros k. destruct (decide (k = id)) as [->|Hne]; [done|]. by rewrite Hk, Hother.
  - exists evs. split; [done|]. intros k. destruct (decide (k = id)) as [->|Hne].
    + by rewrite events_of_all.
    + rewrite (events_of_other id) by done. unfold status_of. rewrite Hother by done. apply life_refl.
Qed.

(** A channel of the table gets new contents. *)
Lemma evolves_put w w' id ch ch' evs :
  ht_get (channels w) id = Some ch -> channels w' = ht_put id ch' (channels w) ->
  channel_ids w' = channel_ids w -> mx_events w' = evs ++ mx_events w -> Forall (about id) evs ->
  (channel_ok id ch -> channel_ok id ch') ->
  lifecycle own (Some (life_of ch)) (reverse (answered (mx_events w) evs)) (Some (life_of ch')) -> evolves w w'.
Proof.
  intros Hget Hc Hi He Hab Hok Hl. apply (evolves_one w w' id evs); try done.
  - intros k Hne. by rewrite Hc, ht_get_put_ne.
  - intros [Hwf1 Hwf2]. rewrite Hc, Hi, ht_get_put_eq. split_and!.
    + intros ch0 [= <-]. by apply Hok, Hwf1.
    + done.
    + split; intros _; [done|]. by apply Hwf2; rewrite Hget.
    + unfold status_of. by rewrite Hget, Hc, ht_get_put_eq.
Qed.

(** A channel of the table is removed. *)
Lemma evolves_remove w w' id ch evs :
  ht_get (channels w) id = Some ch -> channels w' = ht_remove id (channels w) ->
  channel_ids w' = ids_free (channel_ids w) id -> mx_events w' = evs ++ mx_events w ->
  Forall (about id) evs -> lifecycle own (Some (life_of ch)) (reverse (answered (mx_events w) evs)) None -> evolves w w'.
Proof.
  intros Hget Hc Hi He Hab Hl. apply (evolves_one w w' id evs); try done.
  - intros k Hne. by rewrite Hc, ht_get_remove_ne.
  - intros _. rewrite Hc, Hi, ids_free_spec, ht_get_remove_eq. split_and!.
    + done.
    + intros k Hne. rewrite elem_of_difference, elem_of_singleton. by intuition.
    + rewrite elem_of_difference, elem_of_singleton. split; [by intros [_ []]|by intros []].
    + unfold status_of. by rewrite Hget, Hc, ht_get_remove_eq.
Qed.

(** ** The operations *)

Definition evolves_to {A} w (m : Res (A * MultiplexHandler next heap)) : Prop :=
  forall a w', m = Ok (a, w') -> evolves w w'.

Lemma send_frame t o l r buf w rc w' : multiplex_handler_send_packet t o l r buf w = Ok (rc, w') ->
  exists n, w' = { w with mx_next := n }.
Proof.
  unfold multiplex_handler_send_packet. intros (u & _ & Hr)%Res_bind_Ok.
  apply Res_bind_Ok in Hr as (b & _ & Hr). apply Res_bind_Ok in Hr as (b' & _ & Hr).
  apply Res_bind_Ok in Hr as ([[sent b''] n] & _ & Hr). cbn in Hr.
  destruct (sent <? 0); injection Hr as <- <-; by exists n.
Qed.

Lemma frame_evolves w w' :
  channels w' = channels w -> channel_ids w' = channel_ids w -> mx_events w' = mx_events w ->
  evolves w w'.
Proof.
  intros Hc Hi He. apply (evolves_frame w w' []); [done|by rewrite Hi|done|]. intros k. constructor.
Qed.

Lemma send_evolves t o l r buf w : evolves_to w (multiplex_handler_send_packet t o l r buf w).
Proof. intros rc w' (n & ->)%send_frame. by apply frame_evolves. Qed.

Lemma channel_ok_update id ch ch' : channel_ok id ch -> ch_id ch' = ch_id ch ->
  ch_remote_id ch' = ch_remote_id ch -> ch_type ch' = ch_type ch ->
  ch_status ch' <> ChannelStatus_Closing -> channel_ok id ch'.
Proof. unfold channel_ok. intros (? & ? & ? & ? & ?) -> -> ->. done. Qed.

(** The channel a packet or a call names, with the invariant at hand. *)
Lemma evolves_channel w w' id ch :
  ht_get (channels w) id = Some ch -> (channel_ok id ch -> evolves w w') -> evolves w w'.
Proof. intros Hget He Hwf. pose proof Hwf as [Hwf1 _]. by apply He, Hwf; apply Hwf1. Qed.

(** The conditions of a step on channel [id]: its fields, its events, its life. *)
Ltac channel_step Hid Hst :=
  try done;
  try (lazymatch goal with |- channel_ok _ _ -> _ =>
    let Hok := fresh in intros Hok; by eapply channel_ok_update end);
  cbn; rewrite ?Hid, ?Hst; try done;
  lazymatch goal with
  | |- Forall _ _ => by repeat apply Forall_cons_2; [..|apply Forall_nil_2]
  | |- lifecycle _ _ _ _ => unfold life_of; cbn; rewrite ?Hid, ?Hst; by eauto 6 with mux
  | |- _ => idtac
  end.

Lemma confirmation_evolves now rid id ch w :
  ht_get (channels w) id = Some ch -> is_u16 rid -> evolves w (receive_confirmation now rid ch w).
Proof.
  intros Hget Hrid. apply (evolves_channel w _ id ch Hget). intros (Hid & Hr & Hrem & Hty & Hst).
  unfold receive_confirmation. case_bool_decide as Hop; [|apply evolves_refl]. cbn [negb].
  destruct (rid =? 0); cbn [negb].
  - by eapply (evolves_remove w _ id ch [EvChannelClose (ch_type ch) id CloseReason_Error]);
      channel_step Hid Hop.
  - eapply (evolves_put w _ id ch _ [EvChannelOpened (ch_type ch) id]); channel_step Hid Hop.
Qed.

Lemma data_evolves now id ch buf w :
  ht_get (channels w) id = Some ch -> evolves_to w (receive_data now ch buf w).
Proof.
  intros Hget b w' Hr. apply (evolves_channel w _ id ch Hget). intros Hok. pose proof Hok as (Hid & _).
  unfold receive_data, channel_usable in Hr. destruct (negb _) eqn:Hu; [injection Hr as <- <-; apply evolves_refl|].
  assert (ch_status ch = ChannelStatus_Open \/ ch_status ch = ChannelStatus_Pending) as Hst.
  { apply negb_false_iff, orb_true_iff in Hu as [Hu%bool_decide_eq_true|Hu%bool_decide_eq_true]; auto. }
  apply Res_bind_Ok in Hr as (b' & _ & Hr). unfold notify_channel_data in Hr. cbn beta iota zeta in Hr.
  revert Hr. destruct (channel_data _ _); intros [= <- <-].
  - eapply (evolves_put w _ id ch _ [EvChannelData (ch_type ch) id (flex_data b')]);
      channel_step Hid Hid.
  - eapply (evolves_remove w _ id ch [EvChannelClose (ch_type ch) id CloseReason_Error;
      EvChannelData (ch_type ch) id (flex_data b')]); channel_step Hid Hid.
Qed.

Lemma pending_evolves now id ch w :
  ht_get (channels w) id = Some ch -> evolves w (receive_pending now ch w).
Proof.
  intros Hget. apply (evolves_channel w _ id ch Hget). intros Hok. pose proof Hok as (Hid & _).
  unfold receive_pending. case_bool_decide as Hst; [|apply evolves_refl]. cbn [negb].
  eapply (evolves_put w _ id ch _ [EvChannelPending (ch_type ch) id]); channel_step Hid Hst.
Qed.

Lemma resume_evolves now id ch w :
  ht_get (channels w) id = Some ch -> evolves w (receive_resume now ch w).
Proof.
  intros Hget. apply (evolves_channel w _ id ch Hget). intros Hok. pose proof Hok as (Hid & _).
  unfold receive_resume. case_bool_decide as Hst; [|apply evolves_refl]. cbn [negb].
  eapply (evolves_put w _ id ch _ [EvChannelResume (ch_type ch) id]); channel_step Hid Hst.
Qed.

(** New times of a channel. *)
Lemma touch_evolves w w' id ch ch' :
  ht_get (channels w) id = Some ch -> channels w' = ht_put id ch' (channels w) ->
  channel_ids w' = channel_ids w -> mx_events w' = mx_events w ->
  ch_id ch' = ch_id ch -> ch_remote_id ch' = ch_remote_id ch -> ch_type ch' = ch_type ch ->
  ch_status ch' = ch_status ch -> evolves w w'.
Proof.
  intros Hget Hc Hi He Hid Hrem Hty Hst. apply (evolves_put w w' id ch ch' []); try done.
  - intros Hok. eapply channel_ok_update; try done. rewrite Hst. apply Hok.
  - unfold life_of. rewrite Hty, Hst. apply life_refl.
Qed.

Lemma close_evolves id ch reason w w' :
  ht_get (channels w) id = Some ch -> channels w' = ht_remove id (channels w) ->
  channel_ids w' = ids_free (channel_ids w) id ->
  mx_events w' = EvChannelClose (ch_type ch) (ch_id ch) reason :: mx_events w -> evolves w w'.
Proof.
  intros Hget Hc Hi He. apply (evolves_channel w _ id ch Hget). intros (Hid & _).
  apply (evolves_remove w w' id ch [EvChannelClose (ch_type ch) id reason]); try done.
  - by rewrite He, Hid.
  - channel_step Hid Hid.
  - channel_step Hid Hid.
Qed.

Lemma served_type type w : channel_type_served type w = true -> 0 <= type <= 2.
Proof.
  unfold channel_type_served, ChannelType_UDP_PortForwarding, ChannelType_TCP_PortForwarding, ChannelType_User.
  destruct (Z.eqb_spec type 1); [lia|]. destruct (Z.eqb_spec type 2); [lia|].
  destruct (Z.eqb_spec type 0); [lia|done].
Qed.

(** A number is taken for a channel of ours or of the peer's. *)
Lemma evolves_new w w' id ids ch evs :
  ids_alloc (channel_ids w) = (id, ids) -> 0 <= id -> channels w' = ht_put id ch (channels w) ->
  channel_ids w' = ids -> mx_events w' = evs ++ mx_events w -> Forall (about id) evs ->
  channel_ok id ch -> lifecycle own None (reverse (answered (mx_events w) evs)) (Some (life_of ch)) -> evolves w w'.
Proof.
  intros Hids Hpos Hc Hi He Hab Hok Hl. destruct (ids_alloc_spec _ _ _ Hids) as [[? _]|(_ & Hfree & Hused)]; [lia|].
  apply (evolves_one w w' id evs); try done.
  - intros k Hne. by rewrite Hc, ht_get_put_ne.
  - intros [Hwf1 Hwf2]. rewrite Hc, Hi, Hused, ht_get_put_eq. split_and!.
    + by intros ch0 [= <-].
    + intros k Hne. rewrite elem_of_union, elem_of_singleton. by intuition.
    + rewrite elem_of_union, elem_of_singleton. split; [done|by left].
    + unfold status_of. rewrite Hc, ht_get_put_eq.
      destruct (ht_get (channels w) id) eqn:Hget; [|done]. destruct Hfree. apply Hwf2. by rewrite Hget.
Qed.

Lemma new_channel_ok type id rid timeout now :
  0 < id <= MAX_CHANNEL_ID -> is_u16 rid -> 0 <= type <= 2 -> channel_ok id (new_channel type id rid timeout now).
Proof. intros Hid Hrid Hty. by split; [|split; [|split; [exact Hrid|split; [exact Hty|]]]]. Qed.

(** A number is taken and given back. *)
Lemma evolves_passing w w' id ids ch evs :
  ids_alloc (channel_ids w) = (id, ids) -> 0 <= id -> channels w' = ht_remove id (ht_put id ch (channels w)) ->
  channel_ids w' = ids_free ids id -> mx_events w' = evs ++ mx_events w -> Forall (about id) evs ->
  lifecycle own None (reverse (answered (mx_events w) evs)) None -> evolves w w'.
Proof.
  intros Hids Hpos Hc Hi He Hab Hl. destruct (ids_alloc_spec _ _ _ Hids) as [[? _]|(_ & Hfree & Hused)]; [lia|].
  apply (evolves_one w w' id evs); try done.
  - intros k Hne. by rewrite Hc, ht_get_remove_ne, ht_get_put_ne.
  - intros [Hwf1 Hwf2]. rewrite Hc, Hi, ids_free_spec, Hused, ht_get_remove_eq. split_and!.
    + done.
    + intros k Hne. rewrite elem_of_difference, elem_of_union, !elem_of_singleton. by intuition.
    + rewrite elem_of_difference, elem_of_singleton. split; [by intros [_ []]|by intros []].
    + unfold status_of. rewrite Hc, ht_get_remove_eq.
      destruct (ht_get (channels w) id) eqn:Hget; [|done]. destruct Hfree. apply Hwf2. by rewrite Hget.
Qed.

Lemma open_evolves now type rid n buf w w' :
  is_u16 rid -> receive_open now type rid n buf w = Ok w' -> evolves w w'.
Proof.
  intros Hrid Hr. unfold receive_open in Hr.
  destruct (channel_type_served type w) eqn:Hserved; [|injection Hr as <-; apply evolves_refl].
  apply served_type in Hserved. cbn [negb] in Hr. destruct (ids_alloc _) as [cid ids] eqn:Hids.
  destruct (Z.ltb_spec cid 0) as [Hneg|Hpos].
  { apply Res_bind_Ok in Hr as ([rc w1] & (m & ->)%send_frame & [= <-]).
    destruct (ids_alloc_spec _ _ _ Hids) as [[_ Hsame]|[? _]]; [|lia].
    by apply (evolves_frame w _ []). }
  destruct (ids_alloc_spec _ _ _ Hids) as [[? _]|(Hcid & _)]; [lia|].
  rewrite u16_small in Hr by (unfold MAX_CHANNEL_ID in *; lia).
  apply Res_bind_Ok in Hr as (cookie & _ & Hr). unfold notify_channel_open in Hr. cbn beta iota zeta in Hr.
  set (ok := channel_open _ _) in Hr.
  apply Res_bind_Ok in Hr as ([rc w1] & (m & ->)%send_frame & Hr). cbn beta iota zeta in Hr.
  set (ch := new_channel type cid rid 0 now) in *.
  destruct ok eqn:Hok; cbn [negb orb] in Hr.
  2: { injection Hr as <-. apply (evolves_passing w _ cid ids ch [EvChannelOpen type cid cookie]); try done.
       - by apply Forall_singleton.
       - unfold ok in Hok. cbn in Hok |- *. rewrite Hok. eauto with mux. }
  assert (evolves w { notify (EvChannelOpen (ch_type ch) (ch_id ch) cookie)
    (channels_put ch { w with channel_ids := ids }) with mx_next := m }) as Hnew.
  { apply (evolves_new w _ cid ids ch [EvChannelOpen type cid cookie]); try done.
    - by apply Forall_singleton.
    - unfold ok in Hok. unfold life_of. cbn in Hok |- *. rewrite Hok. eauto with mux. }
  eapply evolves_trans; [exact Hnew|]. set (w1 := { notify _ _ with mx_next := m }) in *.
  assert (ht_get (channels w1) cid = Some ch) as Hget by apply ht_get_put_eq.
  destruct (rc <? 0); injection Hr as <-; [by apply (close_evolves cid ch CloseReason_Error)|].
  apply (evolves_put w1 _ cid ch { update_remote_timestamp now ch with
    ch_status := ChannelStatus_Open } [EvChannelOpened type cid]); try done.
  - by apply Forall_singleton.
  - unfold life_of. cbn. eauto with mux.
Qed.

Lemma packet_evolves now t o l r n buf w :
  is_u16 l -> is_u16 r -> evolves_to w (handle_packet now t o l r n buf w).
Proof.
  intros Hl Hr b w' Hp. unfold handle_packet in Hp. destruct (_ && _).
  { apply Res_bind_Ok in Hp as (b' & _ & [= <- <-]).
    apply (evolves_frame w _ [EvData (flex_data b')]); try done.
    intros k. apply Forall_singleton. by intros []. }
  destruct (t =? PacketType_ChannelOpen).
  { apply Res_bind_Ok in Hp as (w1 & Ho & [= <- <-]). by eapply open_evolves in Ho. }
  destruct (ht_get (channels w) l) as [ch|] eqn:Hget; [|injection Hp as <- <-; apply evolves_refl].
  destruct (t =? PacketType_ChannelOpenConfirmation); [injection Hp as <- <-; by eapply confirmation_evolves|].
  destruct (t =? PacketType_ChannelData); [by eapply data_evolves|].
  apply (evolves_channel w _ l ch Hget). intros (Hid & _).
  destruct (t =? PacketType_ChannelKeepAlive).
  { injection Hp as <- <-. apply (touch_evolves w _ l ch { ch with ch_remote_timestamp := now }); try done.
    cbn. by rewrite Hid. }
  destruct (t =? PacketType_ChannelPending); [injection Hp as <- <-; by eapply pending_evolves|].
  destruct (t =? PacketType_ChannelResume); [injection Hp as <- <-; by eapply resume_evolves|].
  destruct (t =? PacketType_ChannelClose); injection Hp as <- <-; [|apply evolves_refl].
  apply (close_evolves l ch CloseReason_Normal); cbn; by rewrite ?Hid.
Qed.

Lemma notify_packet_evolves now buf w : evolves_to w (multiplex_handler_notify_packet now buf w).
Proof.
  intros b w' Hp. unfold multiplex_handler_notify_packet in Hp. apply Res_bind_Ok in Hp as (u & _ & Hp).
  destruct (_ <? _); [injection Hp as <- <-; apply evolves_refl|].
  apply Res_bind_Ok in Hp as (pb & Hpb & Hp). cbn beta iota zeta in Hp.
  destruct (negb _); [injection Hp as <- <-; apply evolves_refl|]. revert b w' Hp.
  assert (forall bs, (length bs <= 2)%nat -> is_u16 (be_read bs)) as H16.
  { intros bs Hbs. pose proof (be_read_range bs) as Hrange. unfold is_u16. split; [lia|].
    eapply Z.lt_le_trans; [apply Hrange|]. apply Z.pow_le_mono_r; lia. }
  apply packet_evolves; apply H16; rewrite length_take; lia.
Qed.

Lemma buffer_evolves w inc : evolves w { w with incomplete_buf := inc }.
Proof. by apply frame_evolves. Qed.

Lemma loop_evolves fuel : forall now buf w w', notify_data_loop fuel now buf w = Ok w' -> evolves w w'.
Proof.
  induction fuel as [|fuel IH]; intros now buf w w' Hr; [done|]. cbn [notify_data_loop] in Hr.
  destruct (fx_size buf =? 0); [injection Hr as <-; apply evolves_refl|].
  destruct (_ <? PROTOCOL_HEAD_LEN).
  { apply Res_bind_Ok in Hr as (inc & _ & [= <-]). apply buffer_evolves. }
  apply Res_bind_Ok in Hr as ([inc b1] & _ & Hr). apply Res_bind_Ok in Hr as (pb & _ & Hr).
  cbn beta iota zeta in Hr. destruct (_ >? _).
  { apply Res_bind_Ok in Hr as (inc' & _ & [= <-]). apply buffer_evolves. }
  apply Res_bind_Ok in Hr as ([inc' b2] & _ & Hr). apply Res_bind_Ok in Hr as (w1 & Hd & Hr).
  eapply evolves_trans; [apply (buffer_evolves w inc')|]. eapply evolves_trans; [|by eapply IH].
  unfold deliver_incomplete in Hd. apply Res_bind_Ok in Hd as ([b3 w2] & Hp & [= <-]).
  eapply evolves_trans; [by eapply notify_packet_evolves|]. apply buffer_evolves.
Qed.

Lemma on_data_evolves now buf w w' : multiplex_handler_on_data now buf w = Ok w' -> evolves w w'.
Proof.
  unfold multiplex_handler_on_data. destruct (mx_reliable w).
  - intros (u & _ & Hr)%Res_bind_Ok. by eapply loop_evolves.
  - intros ([b w1] & Hp & [= <-])%Res_bind_Ok. by eapply notify_packet_evolves.
Qed.

Lemma open_channel_evolves now type cookie timeout sock w : own = true ->
  evolves_to w (multiplex_handler_open_channel now type cookie timeout sock w).
Proof.
  intros Hown rc w' Hr. unfold multiplex_handler_open_channel in Hr. apply Res_bind_Ok in Hr as (u & Htype & Hr).
  assert (0 <= type <= 2) as Ht.
  { unfold ChannelType_UDP_PortForwarding, ChannelType_TCP_PortForwarding, ChannelType_User in Htype.
    destruct (Z.eqb_spec type 1); [lia|]. destruct (Z.eqb_spec type 2); [lia|].
    apply c_assert_Ok, Z.eqb_eq in Htype. lia. }
  destruct (ids_alloc _) as [cid ids] eqn:Hids. destruct (Z.ltb_spec cid 0) as [Hneg|Hpos].
  { injection Hr as <- <-. destruct (ids_alloc_spec _ _ _ Hids) as [[_ Hsame]|[? _]]; [|lia].
    by apply (evolves_frame w _ []). }
  destruct (ids_alloc_spec _ _ _ Hids) as [[? _]|(Hcid & _)]; [lia|].
  rewrite u16_small in Hr by (unfold MAX_CHANNEL_ID in *; lia). cbn beta iota zeta in Hr.
  set (ch := if type =? ChannelType_TCP_PortForwarding then _ else _) in Hr.
  assert (channel_ok cid ch /\ ch_status ch = ChannelStatus_Opening) as [Hok Hst].
  { pose proof (new_channel_ok type cid 0 timeout now Hcid) as Hnew. subst ch.
    destruct (type =? ChannelType_TCP_PortForwarding); split; try done; by apply Hnew. }
  pose proof Hok as (Hid & _).
  apply Res_bind_Ok in Hr as ([c w1] & (m & ->)%send_frame & Hr).
  destruct (c <? 0); injection Hr as <- <-.
  - apply (evolves_passing w _ cid ids ch []); try done; [cbn; by rewrite Hid|constructor].
  - apply (evolves_new w _ cid ids ch []); try done; [cbn; by rewrite Hid|].
    unfold life_of. rewrite Hst. by eapply life_own, life_refl.
Qed.

Lemma close_channel_evolves cid w : evolves_to w (multiplex_handler_close_channel cid w).
Proof.
  intros rc w' Hr. unfold multiplex_handler_close_channel in Hr. apply Res_bind_Ok in Hr as (u & _ & Hr).
  destruct (ht_get (channels w) cid) as [ch|] eqn:Hget; [|injection Hr as <- <-; apply evolves_refl].
  apply Res_bind_Ok in Hr as (w1 & Hs & [= <- <-]).
  assert (exists n, w1 = { w with mx_next := n }) as (n & ->).
  { destruct (negb _); [|injection Hs as <-; exists (mx_next w); by destruct w].
    by apply Res_bind_Ok in Hs as ([c w2] & Hs%send_frame & [= <-]). }
  by apply (close_evolves cid ch CloseReason_Normal).
Qed.

Lemma send_on_evolves t cid buf done now w : evolves_to w (send_on_channel t cid buf done now w).
Proof.
  intros rc w' Hr. unfold send_on_channel in Hr.
  destruct (ht_get (channels w) cid) as [ch|] eqn:Hget; [|injection Hr as <- <-; apply evolves_refl].
  destruct (_ || _); [injection Hr as <- <-; apply evolves_refl|].
  apply Res_bind_Ok in Hr as ([c w1] & (n & ->)%send_frame & [= <- <-]).
  destruct (done c); [|by apply frame_evolves]. apply (evolves_channel w _ cid ch Hget). intros (Hid & _).
  apply (touch_evolves w _ cid ch (touch_local now ch)); try done. cbn. by rewrite Hid.
Qed.

(** ** Whole tables *)

(** The channels of a table, as a walk over it sees them one after the other. *)
Definition still_there (l : list Channel) w : Prop :=
  NoDup (ch_id <$> l) /\ forall ch, ch ∈ l -> ht_get (channels w) (ch_id ch) = Some ch.

Lemma all_there w : mux_wf w -> still_there (ht_items (channels w)).*2 w.
Proof.
  intros [Hwf _].
  assert (forall p, p ∈ ht_items (channels w) -> ch_id p.2 = p.1) as Hkey.
  { intros [k ch] Hp%ht_items_get. by apply Hwf in Hp as [? _]. }
  split.
  - replace (ch_id <$> (ht_items (channels w)).*2) with (ht_items (channels w)).*1; [apply ht_items_nodup|].
    rewrite <- list_fmap_compose. apply list_fmap_ext. intros i p Hp. symmetry. apply Hkey.
    by eapply list_elem_of_lookup_2.
  - intros ch (p & -> & Hp)%list_elem_of_fmap. rewrite Hkey by done. apply ht_items_get. by destruct p.
Qed.

Lemma still_there_tail ch l w w' :
  still_there (ch :: l) w ->
  (forall k, k <> ch_id ch -> ht_get (channels w') k = ht_get (channels w) k) -> still_there l w'.
Proof.
  intros [Hnd Hall] Hother. cbn in Hnd. apply NoDup_cons in Hnd as [Hnin Hnd]. split; [done|].
  intros ch' Hch'. rewrite Hother; [apply Hall; by right|]. intros E. apply Hnin. rewrite <- E.
  apply list_elem_of_fmap. by exists ch'.
Qed.

(** *** Closing all *)

Definition close_event (reason : CloseReason) (ch : Channel) : mux_event :=
  EvChannelClose (ch_type ch) (ch_id ch) reason.

Lemma close_all_spec reason l : forall w, still_there l w ->
  evolves w (close_all reason l w) /\
  mx_events (close_all reason l w) = reverse (close_event reason <$> l) ++ mx_events w /\
  forall id, ht_get (channels (close_all reason l w)) id =
    if decide (id ∈ ch_id <$> l) then None else ht_get (channels w) id.
Proof.
  induction l as [|ch l IH]; intros w Hl.
  { split; [apply evolves_refl|]. split; [done|]. intros id. by rewrite decide_False by apply not_elem_of_nil. }
  cbn [close_all]. set (w1 := channels_remove _ _).
  assert (forall k, ht_get (channels w1) k = if decide (k = ch_id ch) then None else ht_get (channels w) k)
    as Hw1.
  { intros k. unfold w1. cbn. case_decide as Hk; [by rewrite Hk, ht_get_remove_eq|by rewrite ht_get_remove_ne]. }
  destruct (IH w1) as (He & Hev & Hget).
  { eapply still_there_tail; [exact Hl|]. intros k Hne. by rewrite Hw1, decide_False. }
  split; [|split].
  - eapply evolves_trans; [|exact He]. destruct Hl as [_ Hall].
    apply (close_evolves (ch_id ch) ch reason); try done. apply Hall. by left.
  - rewrite Hev, fmap_cons, reverse_cons, <- app_assoc. done.
  - intros id. rewrite Hget, Hw1, fmap_cons. repeat case_decide; rewrite ?elem_of_cons in *; tauto.
Qed.

Lemma close_channels_spec reason w : mux_wf w -> let w' := multiplex_handler_close_channels reason w in
  evolves w w' /\
  mx_events w' = reverse (close_event reason <$> (ht_items (channels w)).*2) ++ mx_events w /\
  forall id, ht_get (channels w') id = None.
Proof.
  intros Hwf. pose proof (all_there w Hwf) as Hl. cbv zeta.
  destruct (close_all_spec reason _ w Hl) as (He & Hev & Hget). split; [done|]. split; [done|].
  intros id. unfold multiplex_handler_close_channels. rewrite Hget. case_decide as Hid; [done|].
  destruct (ht_get (channels w) id) as [ch|] eqn:Hch; [|done]. destruct Hid.
  destruct Hwf as [Hwf _]. pose proof (Hwf id ch Hch) as [Hk _].
  apply ht_items_get in Hch. apply list_elem_of_fmap. exists ch. split; [done|].
  apply list_elem_of_fmap. by exists (id, ch).
Qed.

Lemma close_channels_evolves reason w : evolves w (multiplex_handler_close_channels reason w).
Proof. intros Hwf. by apply close_channels_spec. Qed.

(** *** Checkpoints *)

(** The timeout of its data, or silence of the peer for 130 seconds. *)
Definition overdue (now : timeval) (ch : Channel) : bool :=
  (negb (ch_timeout ch =? 0) && (i32 (ch_timeout ch * 1000) <=? interval_ms now (ch_last_activity ch)))
  || (KEEPALIVE_TIMEOUT_INTERVAL <=? interval_ms now (ch_remote_timestamp ch)).

(** Nothing of ours for 30 seconds. *)
Definition idle (now : timeval) (ch : Channel) : bool :=
  negb (overdue now ch) && (KEEPALIVE_INTERVAL <=? interval_ms now (ch_local_timestamp ch)).

Definition keepalive (ch : Channel) : list byte :=
  frame PacketType_ChannelKeepAlive 0 (ch_id ch) (ch_remote_id ch) [].

Lemma check_channel_spec now ch w : ht_get (channels w) (ch_id ch) = Some ch ->
  exists w' ks, check_channel now ch w = Ok w' /\
    evolves w w' /\
    mx_events w' = (if overdue now ch then [close_event CloseReason_Timeout ch] else []) ++ mx_events w /\
    next_sent (mx_next w') = next_sent (mx_next w) ++ (keepalive <$> ks) /\
    (ks = [] \/ idle now ch = true /\ ks = [ch]) /\
    (forall k, k <> ch_id ch -> ht_get (channels w') k = ht_get (channels w) k) /\
    ht_get (channels w') (ch_id ch) =
      if overdue now ch then None
      else Some (if decide (ks = []) then ch else { ch with ch_local_timestamp := now }).
Proof.
  intros Hget. unfold check_channel. fold (overdue now ch). unfold idle.
  destruct (overdue now ch) eqn:Hover; cbn [negb andb].
  { eexists _, []. split; [done|]. split; [by apply (close_evolves (ch_id ch) ch CloseReason_Timeout)|].
    split; [done|]. split; [by rewrite app_nil_r|]. split; [by left|]. split.
    - intros k Hne. cbn. by rewrite ht_get_remove_ne.
    - cbn. by rewrite ht_get_remove_eq. }
  destruct (KEEPALIVE_INTERVAL <=? _) eqn:Hidle.
  2: { eexists _, []. split; [done|]. split; [apply evolves_refl|]. split; [done|].
       split; [by rewrite app_nil_r|]. split; [by left|]. by split. }
  destruct (send_packet_spec PacketType_ChannelKeepAlive 0 (ch_id ch) (ch_remote_id ch) None w)
    as (rc & n' & E & Hrc); [done|done|]. rewrite E. cbn [mbind Res_bind].
  destruct Hrc as [[-> Hn]|[Hneg Hn]].
  - change (Z.of_nat (length (payload None)) =? 0) with true. eexists _, [ch]. split; [done|].
    split; [by apply (touch_evolves w _ (ch_id ch) ch { ch with ch_local_timestamp := now })|].
    split; [done|]. split; [exact Hn|]. split; [by right|]. split.
    + intros k Hne. cbn. by rewrite ht_get_put_ne.
    + cbn. by rewrite ht_get_put_eq.
  - rewrite (proj2 (Z.eqb_neq rc 0)) by lia. eexists _, []. split; [done|].
    split; [by apply frame_evolves|]. split; [done|]. split; [cbn; by rewrite app_nil_r|]. split; [by left|].
    by split.
Qed.

Lemma check_channels_spec now l : forall w, still_there l w ->
  exists w' ks, check_channels now l w = Ok w' /\ evolves w w' /\
    mx_events w' = reverse (close_event CloseReason_Timeout <$> base.filter (fun ch => overdue now ch) l)
                   ++ mx_events w /\
    ks `sublist_of` base.filter (fun ch => idle now ch) l /\
    next_sent (mx_next w') = next_sent (mx_next w) ++ (keepalive <$> ks) /\
    (forall k, k ∉ ch_id <$> l -> ht_get (channels w') k = ht_get (channels w) k) /\
    (forall ch, ch ∈ l -> ht_get (channels w') (ch_id ch) =
      if overdue now ch then None
      else Some (if decide (ch_id ch ∈ ch_id <$> ks) then { ch with ch_local_timestamp := now } else ch)).
Proof.
  induction l as [|ch l IH]; intros w Hl.
  { eexists w, []. split; [done|]. split; [apply evolves_refl|]. split; [done|]. split; [done|].
    split; [by rewrite app_nil_r|]. split; [done|]. intros ch Hch. by apply not_elem_of_nil in Hch. }
  pose proof Hl as [Hnd Hall]. rewrite fmap_cons in Hnd. apply NoDup_cons in Hnd as [Hnin Hnd].
  destruct (check_channel_spec now ch w) as (w1 & k1 & E1 & Ev1 & Hev1 & Hs1 & Hk1 & Ho1 & Hg1);
    [apply Hall; by left|].
  destruct (IH w1 (still_there_tail _ _ _ _ Hl Ho1)) as (w' & ks & E & Ev & Hev & Hsub & Hs & Ho & Hg).
  assert (forall k, k ∈ ch_id <$> ks -> k ∈ ch_id <$> l) as Hks.
  { intros k (c & -> & Hc)%list_elem_of_fmap. apply list_elem_of_fmap. exists c. split; [done|].
    eapply elem_of_sublist in Hc; [|exact Hsub]. by apply list_elem_of_filter in Hc as [_ ?]. }
  exists w', (k1 ++ ks). cbn [check_channels]. rewrite E1. cbn [mbind Res_bind].
  split; [done|]. split; [by eapply evolves_trans|]. split_and!.
  - rewrite Hev, Hev1, filter_cons. destruct (overdue now ch).
    + rewrite decide_True, fmap_cons, reverse_cons, <- app_assoc by done. done.
    + by rewrite decide_False by (by intros []).
  - rewrite filter_cons. destruct Hk1 as [->|[Hi ->]].
    + destruct (decide (idle now ch)); [by apply sublist_cons|done].
    + rewrite decide_True by (by rewrite Hi). by constructor.
  - by rewrite Hs, Hs1, fmap_app, <- app_assoc.
  - intros k Hk. apply not_elem_of_cons in Hk as [Hk Hk']. by rewrite Ho, Ho1.
  - intros c Hc. apply elem_of_cons in Hc as [->|Hc].
    + rewrite Ho, Hg1 by done. destruct (overdue now ch); [done|]. f_equal. rewrite fmap_app.
      destruct Hk1 as [->|[_ ->]].
      * rewrite decide_True by done. rewrite decide_False; [done|]. cbn. intros Hin. by apply Hnin, Hks.
      * rewrite decide_False by done. rewrite decide_True; [done|]. cbn. by left.
    + rewrite Hg by done. destruct (overdue now c); [done|]. f_equal. rewrite fmap_app.
      assert (ch_id c <> ch_id ch) as Hne.
      { intros Heq. apply Hnin. rewrite <- Heq. apply list_elem_of_fmap. by exists c. }
      destruct Hk1 as [->|[_ ->]]; [done|]. rewrite fmap_cons, fmap_nil. cbn [app].
      repeat case_decide; rewrite ?elem_of_cons in *; tauto.
Qed.

(** A channel on which we have not written yet counts from 1970, and the elapsed time
    is cut to 32 bits of milliseconds: for weeks at a time it is never idle. *)
Lemma fresh_channel_never_idle sec ch :
  1600000000 <= sec <= 1602000000 -> ch_local_timestamp ch = tv_zero ->
  idle {| tv_sec := sec; tv_usec := 0 |} ch = false.
Proof.
  intros Hsec Hl. unfold idle. rewrite Hl. unfold interval_ms. cbn [tv_sec tv_usec tv_zero].
  replace (Z.quot (0 - 0) 1000) with 0 by done. change (i32 0) with 0.
  rewrite (proj2 (Z.leb_gt _ _)); [apply andb_false_r|]. unfold KEEPALIVE_INTERVAL. machine_int.
Qed.
(** ** All operations *)

Lemma state_changed_evolves state w : evolves w (multiplex_handler_on_state_changed state w).
Proof.
  unfold multiplex_handler_on_state_changed.
  assert (forall w1, evolves w1 (notify (EvStateChanged state) w1)) as Hn.
  { intros w1. apply (evolves_frame w1 _ [EvStateChanged state]); try done. intros k.
    repeat constructor. by intros []. }
  destruct (_ <=? _); [|apply Hn]. eapply evolves_trans; [apply close_channels_evolves|apply Hn].
Qed.

Lemma stop_evolves error w : evolves w (multiplex_handler_stop error w).
Proof. eapply evolves_trans; [apply close_channels_evolves|]. by apply frame_evolves. Qed.

Lemma start_evolves ct ws w : evolves_to w (multiplex_handler_start ct ws w).
Proof.
  intros rc w' ([r n] & _ & Hr)%Res_bind_Ok. cbv zeta in Hr.
  repeat case_match; injection Hr as <- <-; by apply frame_evolves.
Qed.

Lemma checkpoint_evolves now w w' : multiplex_handler_checkpoint now w = Ok w' -> evolves w w'.
Proof.
  intros Hr Hwf. destruct (check_channels_spec now _ w (all_there w Hwf)) as (w1 & ks & E & Ev & _).
  unfold multiplex_handler_checkpoint in Hr. rewrite E in Hr. injection Hr as <-. by apply Ev.
Qed.

(** Everything that happens to a handler: the calls of its owner and of the
    application, its timer, and what comes in from the layer below. *)
Inductive mux_op :=
| MuxStart (create_timer worker_start : Z)
| MuxStop (error : Z)
| MuxOpen (now : timeval) (type : Z) (cookie : option string) (timeout sock : Z)
| MuxClose (cid : Z)
| MuxWrite (now : timeval) (cid : Z) (data : list byte)
| MuxPend (now : timeval) (cid : Z)
| MuxResume (now : timeval) (cid : Z)
| MuxCheckpoint (now : timeval)
| MuxData (now : timeval) (buf : FlexBuffer)
| MuxState (state : Z).

Definition mux_step (op : mux_op) w : Res (MultiplexHandler next heap) :=
  match op with
  | MuxStart ct ws => '(_, w) ← multiplex_handler_start ct ws w; Ok w
  | MuxStop error => Ok (multiplex_handler_stop error w)
  | MuxOpen now type cookie timeout sock =>
      '(_, w) ← multiplex_handler_open_channel now type cookie timeout sock w; Ok w
  | MuxClose cid => '(_, w) ← multiplex_handler_close_channel cid w; Ok w
  | MuxWrite now cid data =>
      '(_, w) ← multiplex_handler_write_channel now cid (flex_buffer_from FLEX_PADDING_LEN data) w; Ok w
  | MuxPend now cid => '(_, w) ← multiplex_handler_pend_channel now cid w; Ok w
  | MuxResume now cid => '(_, w) ← multiplex_handler_resume_channel now cid w; Ok w
  | MuxCheckpoint now => multiplex_handler_checkpoint now w
  | MuxData now buf => multiplex_handler_on_data now buf w
  | MuxState state => Ok (multiplex_handler_on_state_changed state w)
  end.

Fixpoint mux_run (ops : list mux_op) w : Res (MultiplexHandler next heap) :=
  match ops with
  | [] => Ok w
  | op :: ops => w ← mux_step op w; mux_run ops w
  end.

Lemma call_evolves (m : Res (Z * MultiplexHandler next heap)) w w' :
  evolves_to w m -> ('(_, w1) ← m; Ok w1) = Ok w' -> evolves w w'.
Proof. intros Hm ([rc w1] & E & [= <-])%Res_bind_Ok. by eapply Hm. Qed.

Lemma write_evolves now cid buf w : evolves_to w (multiplex_handler_write_channel now cid buf w).
Proof.
  intros rc w' (u & _ & Hr)%Res_bind_Ok. destruct (cid =? 0).
  - by eapply send_evolves.
  - by eapply send_on_evolves.
Qed.

(** Whether it opens a channel from this end. *)
Definition opens (op : mux_op) : bool := match op with MuxOpen _ _ _ _ _ => true | _ => false end.

Lemma step_evolves op w w' : (opens op = true -> own = true) -> mux_step op w = Ok w' -> evolves w w'.
Proof.
  intros Hown. destruct op; cbn [mux_step].
  - apply call_evolves, start_evolves.
  - intros [= <-]. apply stop_evolves.
  - apply call_evolves, open_channel_evolves. by apply Hown.
  - apply call_evolves, close_channel_evolves.
  - apply call_evolves, write_evolves.
  - apply call_evolves. intros rc w1 (u & _ & Hr)%Res_bind_Ok. by eapply send_on_evolves.
  - apply call_evolves. intros rc w1 (u & _ & Hr)%Res_bind_Ok. by eapply send_on_evolves.
  - apply checkpoint_evolves.
  - apply on_data_evolves.
  - intros [= <-]. apply state_changed_evolves.
Qed.

Lemma create_wf reliable portforwarding n ids :
  ids_used ids = ∅ -> mux_wf (multiplex_handler_create reliable portforwarding n ids).
Proof.
  intros Hids. split; cbn [channels channel_ids multiplex_handler_create].
  - intros id ch. by rewrite ht_get_empty.
  - intros id. rewrite Hids, ht_get_empty. split; [by intros ?%not_elem_of_empty|by intros []].
Qed.

End Inv.

Section Life.
Context `{!HashTables} {L : HashTablesLaws _} `{!Stack, !ChannelApp} {next heap : Type}
  `{!Next next, !NextLaws next, !IdsHeap heap, !IdsHeapLaws heap}.
Implicit Types w : MultiplexHandler next heap.

(** A checkpoint closes exactly the channels that are overdue - their own timeout
    without activity, or 130 seconds without a sign of the peer - each reported once,
    and sends keep-alives for idle ones only; a channel whose keep-alive went out
    counts from now, and nothing else of the table changes. *)
Theorem checkpoint_spec now w : mux_wf w ->
  exists w' ks, multiplex_handler_checkpoint now w = Ok w' /\ mux_wf w' /\
    let l := (ht_items (channels w)).*2 in
    mx_events w' = reverse (close_event CloseReason_Timeout <$> base.filter (fun ch => overdue now ch) l)
                   ++ mx_events w /\
    ks `sublist_of` base.filter (fun ch => idle now ch) l /\
    next_sent (mx_next w') = next_sent (mx_next w) ++ (keepalive <$> ks) /\
    forall id, ht_get (channels w') id =
      ch ← ht_get (channels w) id;
      if overdue now ch then None
      else Some (if decide (id ∈ ch_id <$> ks) then { ch with ch_local_timestamp := now } else ch).
Proof.
  intros Hwf. destruct (check_channels_spec true now _ w (all_there w Hwf))
    as (w' & ks & E & Ev & Hev & Hsub & Hs & Ho & Hg).
  exists w', ks. split; [exact E|]. split; [by apply Ev|]. split; [done|]. split; [done|]. split; [done|].
  intros id. destruct Hwf as [Hwf _]. destruct (ht_get (channels w) id) as [ch|] eqn:Hch; cbn.
  - destruct (Hwf id ch Hch) as [<- _]. apply Hg. apply list_elem_of_fmap. exists (ch_id ch, ch).
    split; [done|]. by apply ht_items_get.
  - rewrite Ho; [done|]. intros (c & -> & Hc)%list_elem_of_fmap.
    apply list_elem_of_fmap in Hc as ([k c'] & -> & Hc%ht_items_get). cbn in Hch.
    destruct (Hwf k c' Hc) as [E' _]. rewrite <- E', Hch in Hc. done.
Qed.

Lemma run_evolves ops : forall w w', mux_run ops w = Ok w' -> evolves true w w'.
Proof.
  induction ops as [|op ops IH]; intros w w' Hr.
  - injection Hr as <-. apply evolves_refl.
  - cbn [mux_run] in Hr. apply Res_bind_Ok in Hr as (w1 & Hop & Hops%IH).
    eapply evolves_trans; [|exact Hops]. by apply (step_evolves true op).
Qed.

(** *** Histories

    What happens to the channel of a number, in the order in which it does: the opens of
    our own that gave it, and what its owner is told, with the answer. *)
Inductive life_item := OwnOpen (type : Z) | Told (e : mux_event) (b : bool).

(** What may come next, and what it makes of the channel: its type and status, [None] while
    the number is free. *)
Definition life_step (s : option (Z * ChannelStatus)) (i : life_item) : option (option (Z * ChannelStatus)) :=
  match s, i with
  | None, OwnOpen t => Some (Some (t, ChannelStatus_Opening))
  | None, Told (EvChannelOpen t _ _) b => Some (if b then Some (t, ChannelStatus_Opening) else None)
  | Some (t, st), Told e _ =>
      let next (t' : Z) (here : list ChannelStatus) to := if (t' =? t) && bool_decide (st ∈ here) then Some to else None in
      match e with
      | EvChannelOpened t' _ => next t' [ChannelStatus_Opening] (Some (t, ChannelStatus_Open))
      | EvChannelData t' _ _ => next t' [ChannelStatus_Open; ChannelStatus_Pending] s
      | EvChannelPending t' _ => next t' [ChannelStatus_Open] (Some (t, ChannelStatus_Pending))
      | EvChannelResume t' _ => next t' [ChannelStatus_Pending] (Some (t, ChannelStatus_Open))
      | EvChannelClose t' _ _ => if t' =? t then Some None else None
      | _ => None
      end
  | _, _ => None
  end.

Fixpoint life_run (s : option (Z * ChannelStatus)) (l : list life_item) : option (option (Z * ChannelStatus)) :=
  match l with
  | [] => Some s
  | i :: l => s ← life_step s i; life_run s l
  end.

Definition told (l : list life_item) : list (mux_event * bool) :=
  omap (fun i => match i with Told e b => Some (e, b) | OwnOpen _ => None end) l.

(** One step's part of the history of [id]. *)
Definition step_history (id : Z) (op : mux_op) w w' : list life_item :=
  (match op with
   | MuxOpen now type cookie timeout sock =>
       match multiplex_handler_open_channel now type cookie timeout sock w with
       | Ok (rc, _) => if (0 <? rc) && (rc =? id) then [OwnOpen type] else []
       | Fault _ => []
       end
   | _ => []
   end) ++
  ((fun p => Told p.1 p.2) <$>
    events_of id (mx_events w) (take (length (mx_events w') - length (mx_events w)) (mx_events w'))).

Fixpoint history (id : Z) (ops : list mux_op) w : list life_item :=
  match ops with
  | [] => []
  | op :: ops =>
      match mux_step op w with
      | Ok w' => step_history id op w w' ++ history id ops w'
      | Fault _ => []
      end
  end.

Lemma life_run_app s l1 l2 : life_run s (l1 ++ l2) = (s ← life_run s l1; life_run s l2).
Proof. induction l1 as [|i l1 IH] in s |- *; cbn; [done|]. destruct (life_step s i); cbn; [apply IH|done]. Qed.

Lemma told_app l1 l2 : told (l1 ++ l2) = told l1 ++ told l2.
Proof. apply omap_app. Qed.

Lemma told_events (l : list (mux_event * bool)) : told ((fun p => Told p.1 p.2) <$> l) = l.
Proof. induction l as [|[e b] l IH]; cbn; [done|]. f_equal. exact IH. Qed.

(** Without opens of our own a life is a history. *)
Lemma lifecycle_run s l s' : lifecycle false s l s' -> life_run s ((fun p => Told p.1 p.2) <$> l) = Some s'.
Proof.
  induction 1; try done; cbn; rewrite ?Z.eqb_refl; cbn; try assumption.
  by destruct st; cbn; naive_solver.
Qed.

(** An open of our own tells nothing; it takes a free number and no other. *)
Lemma open_channel_opens now type cookie timeout sock w rc w' : mux_wf w ->
  multiplex_handler_open_channel now type cookie timeout sock w = Ok (rc, w') ->
  mx_events w' = mx_events w /\ forall id,
    if (0 <? rc) && (rc =? id)
    then status_of w id = None /\ status_of w' id = Some (type, ChannelStatus_Opening)
    else status_of w' id = status_of w id.
Proof.
  intros [_ Hwf] Hr. unfold multiplex_handler_open_channel in Hr. apply Res_bind_Ok in Hr as (u & _ & Hr).
  destruct (ids_alloc _) as [cid ids] eqn:Hids. destruct (Z.ltb_spec cid 0) as [Hneg|Hpos].
  { injection Hr as <- <-. by split. }
  destruct (ids_alloc_spec _ _ _ Hids) as [[? _]|(Hcid & Hfree & _)]; [lia|].
  assert (ht_get (channels w) cid = None) as Hnone.
  { destruct (ht_get (channels w) cid) eqn:Hget; [|done]. destruct Hfree. apply Hwf. by rewrite Hget. }
  rewrite u16_small in Hr by (unfold MAX_CHANNEL_ID in *; lia). cbn beta iota zeta in Hr.
  set (ch := if type =? ChannelType_TCP_PortForwarding then _ else _) in Hr.
  assert (ch_id ch = cid /\ life_of ch = (type, ChannelStatus_Opening)) as [Hid Hlife]
    by (subst ch; by destruct (type =? ChannelType_TCP_PortForwarding)).
  apply Res_bind_Ok in Hr as ([c w1] & (m & ->)%send_frame & Hr).
  destruct (Z.ltb_spec c 0) as [Hc|Hc]; injection Hr as <- <-; (split; [done|]); intros id; unfold status_of; cbn; rewrite Hid.
  - rewrite (proj2 (Z.ltb_ge _ _)) by lia. cbn [andb]. destruct (decide (id = cid)) as [->|Hne].
    + by rewrite ht_get_remove_eq, Hnone.
    + by rewrite ht_get_remove_ne, ht_get_put_ne.
  - rewrite (proj2 (Z.ltb_lt _ _)) by lia. cbn [andb]. destruct (Z.eqb_spec cid id) as [<-|Hne].
    + rewrite Hnone, ht_get_put_eq. split; [done|]. cbn. by rewrite Hlife.
    + by rewrite ht_get_put_ne.
Qed.

Lemma step_history_run op w w' : mux_wf w -> mux_step op w = Ok w' ->
  mux_wf w' /\ exists evs, mx_events w' = evs ++ mx_events w /\ forall id,
    life_run (status_of w id) (step_history id op w w') = Some (status_of w' id) /\
    told (step_history id op w w') = events_of id (mx_events w) evs.
Proof.
  intros Hwf Hop. destruct (step_evolves true op w w' (fun _ => eq_refl) Hop Hwf) as (Hwf' & evs & E & _).
  split; [done|]. exists evs. split; [done|]. intros id. unfold step_history.
  rewrite E, length_app, Nat.add_sub, take_app_length, told_app, told_events.
  destruct (opens op) eqn:Ho.
  - destruct op as [| |now type cookie timeout sock| | | | | | |]; try done. cbn [mux_step] in Hop.
    apply Res_bind_Ok in Hop as ([rc w1] & Hr & [= ->]). rewrite Hr.
    destruct (open_channel_opens _ _ _ _ _ _ _ _ Hwf Hr) as [Hev Hst]. specialize (Hst id).
    assert (evs = []) as ->.
    { apply (f_equal length) in E. rewrite Hev, length_app in E. by apply length_zero_iff_nil; lia. }
    destruct (_ && _); [|by rewrite Hst]. destruct Hst as [-> ->]. done.
  - destruct (step_evolves false op w w' ltac:(by rewrite Ho) Hop Hwf) as (_ & evs' & E' & Hl).
    assert (evs' = evs) as -> by (apply (app_inv_tail (mx_events w)); congruence).
    assert (match op with MuxOpen _ _ _ _ _ => False | _ => True end) as Hno by by destruct op.
    destruct op; try done; (split; [apply lifecycle_run, Hl|done]).
Qed.

Lemma history_run ops : forall w w', mux_wf w -> mux_run ops w = Ok w' ->
  mux_wf w' /\ exists evs, mx_events w' = evs ++ mx_events w /\ forall id,
    life_run (status_of w id) (history id ops w) = Some (status_of w' id) /\
    told (history id ops w) = events_of id (mx_events w) evs.
Proof.
  induction ops as [|op ops IH]; intros w w' Hwf Hr.
  { injection Hr as <-. split; [done|]. exists []. by split. }
  cbn [mux_run] in Hr. apply Res_bind_Ok in Hr as (w1 & Hop & Hops).
  destruct (step_history_run op w w1 Hwf Hop) as (Hwf1 & e1 & E1 & G1).
  destruct (IH w1 w' Hwf1 Hops) as (Hwf' & e2 & E2 & G2). split; [done|]. exists (e2 ++ e1).
  split; [by rewrite E2, E1, app_assoc|]. intros id. destruct (G1 id) as [Hl1 Ht1], (G2 id) as [Hl2 Ht2].
  cbn [history]. rewrite Hop, life_run_app, Hl1, told_app, Ht1, Ht2, events_of_app, <- E1. done.
Qed.

(** C25. The life of a channel.  Whatever the application calls and whatever comes in, in
    any order: the numbers handed out are those of the channels in the table, each
    channel has its number and a number of the peer in 16 bits, and the history of every
    number - the opens of our own that gave it and all that its owner was told of it, with
    the answers, in their order - follows the protocol: an open of our own or an opening
    that the owner accepted while the number is free, then opened, data, pend and resume in
    turn, one close, and nothing of a number that is free or whose opening was refused; the
    type of the channel and whether it is opening, open or paused are those of its
    history. *)
Theorem channel_lifecycle reliable portforwarding n ids ops w :
  ids_used ids = ∅ ->
  mux_run ops (multiplex_handler_create reliable portforwarding n ids) = Ok w ->
  mux_wf w /\ forall id,
    let l := history id ops (multiplex_handler_create reliable portforwarding n ids) in
    told l = events_of id [] (mx_events w) /\ life_run None l = Some (status_of w id).
Proof.
  intros Hids Hr. destruct (history_run ops _ _ (create_wf _ _ _ _ Hids) Hr) as (Hwf & evs & E & Hl).
  split; [done|]. intros id. destruct (Hl id) as [Hrun Htold]. unfold status_of in Hrun at 1. cbn in Hrun.
  rewrite ht_get_empty in Hrun. rewrite E. cbn [mx_events multiplex_handler_create].
  rewrite app_nil_r. by split.
Qed.
End Life.
