(* ===== verification/CryptoHandler.v ===== *)
(** * The crypto handler (src/src/session/crypto_handler.c)

    Encrypts what goes down a stream and decrypts what comes up, with the key and
    the nonce of the session.  The cipher is a parameter, [Crypto], in the shape of
    NaCl's secret boxes: the first [ZERO_BYTES] of a message and the first
    [ZERO_BYTES - MAC_BYTES] of a cipher are room that the functions own.

    Packets come out of the peer's handler as they went in, and the handler is a
    lower layer in the sense of [MultiplexProps.NextLaws], so the theorems on the
    multiplexer hold over an encrypted stream. *)

From S2P Require Import Prelude ElaError FlexBuffer Multiplex MultiplexProps.

(** crypto.h (libcrystal).  The length or what is not positive; the message with its
    room as the function leaves it; the result. *)
Class Crypto := {
  ZERO_BYTES : Z;
  MAC_BYTES : Z;
  crypto_encrypt2 : list byte -> list byte -> list byte -> Z * list byte * list byte;
  crypto_decrypt2 : list byte -> list byte -> list byte -> Z * list byte * list byte
}.

Definition ELAERR_ENCRYPT : Z := 0x12.

(** The handler: [ws->crypto.key], [ws->nonce], and the handler below. *)
Record CryptoHandler {next : Type} := {
  cr_key : list byte;
  cr_nonce : list byte;
  cr_next : next
}.
Arguments CryptoHandler next : clear implicits.

Section Crypto.
Context `{!Stack, !Crypto} {next : Type} `{!Next next}.
Implicit Types h : CryptoHandler next.

(** The error word is an [unsigned int] returned as a [ssize_t] of 64 bits, so it is not
    negative, unlike the words that pass through an [int]. *)
Definition crypto_handler_write h (buf : FlexBuffer) : Res (Z * FlexBuffer * CryptoHandler next) :=
  _ ← c_assert (ZERO_BYTES <=? fx_offset buf);
  let cipher_buf := flex_buffer_alloca (u64 (fx_size buf + FLEX_PADDING_LEN)) (FLEX_PADDING_LEN - ZERO_BYTES) in
  buf ← flex_buffer_backward_offset buf ZERO_BYTES;
  let '(cipher_len, plain, cipher) := crypto_encrypt2 (cr_key h) (cr_nonce h) (flex_data buf) in
  buf ← fx_write buf (fx_offset buf) plain;
  cipher_buf ← fx_write cipher_buf (fx_offset cipher_buf) cipher;
  buf ← flex_buffer_forward_offset buf ZERO_BYTES;
  if cipher_len <=? 0 then Ok (u32 (ELA_GENERAL_ERROR ELAERR_ENCRYPT), buf, h)
  else
    let cipher_buf := flex_buffer_set_size cipher_buf cipher_len in
    cipher_buf ← flex_buffer_forward_offset cipher_buf (ZERO_BYTES - MAC_BYTES);
    '(written, cipher_buf, n) ← next_write (cr_next h) cipher_buf;
    Ok (if u64 written =? fx_size cipher_buf then fx_size buf else written, buf, { h with cr_next := n }).

(** What the handler above gets, if anything. *)
Definition crypto_handler_on_rx_data h (buf : FlexBuffer) : Res (option FlexBuffer) :=
  _ ← c_assert (ZERO_BYTES - MAC_BYTES <=? fx_offset buf);
  let plain_buf := flex_buffer_alloca (u64 (fx_size buf + FLEX_PADDING_LEN))
                     (FLEX_PADDING_LEN - (ZERO_BYTES - MAC_BYTES)) in
  buf ← flex_buffer_backward_offset buf (ZERO_BYTES - MAC_BYTES);
  let '(plain_len, cipher, plain) := crypto_decrypt2 (cr_key h) (cr_nonce h) (flex_data buf) in
  buf ← fx_write buf (fx_offset buf) cipher;
  plain_buf ← fx_write plain_buf (fx_offset plain_buf) plain;
  buf ← flex_buffer_forward_offset buf (ZERO_BYTES - MAC_BYTES);
  if plain_len <=? 0 then Ok None
  else
    let plain_buf := flex_buffer_set_size plain_buf plain_len in
    plain_buf ← flex_buffer_forward_offset plain_buf ZERO_BYTES;
    Ok (Some plain_buf).

(** The other entries of the handler are the defaults of stream_handler.h. *)
Definition default_handler_start h : Res (Z * CryptoHandler next) :=
  '(rc, n) ← next_start (cr_next h); Ok (rc, { h with cr_next := n }).
Definition default_handler_stop h (error : Z) : CryptoHandler next :=
  { h with cr_next ::= fun n => next_stop n error }.

#[export] Instance crypto_next : Next (CryptoHandler next) := {
  next_write := crypto_handler_write;
  next_start := default_handler_start;
  next_stop := default_handler_stop
}.
End Crypto.

(** ** Laws and properties *)

(** What the documentation of the cipher promises: encryption does not fail, areas keep
    their lengths, and a cipher opens to the message under the same key and nonce,
    whatever is in its room. *)
Class CryptoLaws `{!Crypto} := {
  crypto_room : 0 <= MAC_BYTES /\ 0 < ZERO_BYTES /\ MAC_BYTES <= ZERO_BYTES <= FLEX_PADDING_LEN - PROTOCOL_HEAD_LEN;
  encrypt_spec key nonce room m : Z.of_nat (length room) = ZERO_BYTES ->
    exists len room' cipher,
      crypto_encrypt2 key nonce (room ++ m) = (len, room' ++ m, cipher) /\
      length room' = length room /\ length cipher = length (room ++ m) /\
      (len = Z.of_nat (length (room ++ m)) /\
       forall room2, Z.of_nat (length room2) = ZERO_BYTES - MAC_BYTES ->
       exists room3 c,
         crypto_decrypt2 key nonce (room2 ++ drop (Z.to_nat (ZERO_BYTES - MAC_BYTES)) cipher) =
           (len, c, room3 ++ m) /\ length c = length cipher /\ Z.of_nat (length room3) = ZERO_BYTES)
}.
Arguments CryptoLaws : clear implicits.
Arguments CryptoLaws {_}.

(** Fresh room filled to its end. *)
Lemma alloca_fill `{!Stack} n o src : 0 <= o -> n = o + Z.of_nat (length src) ->
  exists pre, Z.of_nat (length pre) = o /\
    fx_write (flex_buffer_alloca n o) (fx_offset (flex_buffer_alloca n o)) src = Ok (flex_at pre [] src).
Proof.
  intros Ho ->. exists (take (Z.to_nat o) (stack_bytes (o + Z.of_nat (length src)))).
  pose proof (stack_length (o + Z.of_nat (length src))) as Hs. rewrite length_take. split; [lia|].
  unfold fx_write, flex_buffer_alloca. cbn. rewrite Hs, (proj2 (Z.leb_le _ _)) by lia. f_equal.
  apply flex_ext; cbn; rewrite ?length_app, ?length_take; try lia.
  unfold splice. rewrite (drop_ge _ (_ + _)) by lia. by rewrite app_nil_r.
Qed.

Lemma fill_set_size pre src : flex_buffer_set_size (flex_at pre [] src) (Z.of_nat (length src)) = flex_at pre src [].
Proof. apply flex_ext; cbn; rewrite ?app_nil_r; done. Qed.

Section Props.
Context `{!Stack, !Crypto, !CryptoLaws} {next : Type} `{!Next next, !NextLaws next}.
Context (Hroom : MAC_BYTES + next_room <= FLEX_PADDING_LEN - PROTOCOL_HEAD_LEN)
  (Hmax : MAC_BYTES + PROTOCOL_HEAD_LEN <= next_max).
Implicit Types h : CryptoHandler next.

(** What a packet of the layer below opens to. *)
Definition opened h (p : list byte) : list byte :=
  let '(_, _, plain) := crypto_decrypt2 (cr_key h) (cr_nonce h) (zeroed (ZERO_BYTES - MAC_BYTES) ++ p) in
  drop (Z.to_nat ZERO_BYTES) plain.

(** Opens to [m], in any room. *)
Definition opens h (p m : list byte) : Prop :=
  forall room2, Z.of_nat (length room2) = ZERO_BYTES - MAC_BYTES -> exists room3 c,
    crypto_decrypt2 (cr_key h) (cr_nonce h) (room2 ++ p) = (Z.of_nat (length (room2 ++ p)), c, room3 ++ m) /\
    length c = length (room2 ++ p) /\ length (room2 ++ p) = length (room3 ++ m) /\
    Z.of_nat (length room3) = ZERO_BYTES.

Lemma opens_opened h p m : opens h p m -> opened h p = m.
Proof.
  intros Ho. destruct crypto_room as (? & ? & ? & _). unfold opened.
  destruct (Ho (zeroed (ZERO_BYTES - MAC_BYTES))) as (room3 & c & -> & _ & _ & Hr3).
  { rewrite length_zeroed. lia. }
  apply drop_app_length'. lia.
Qed.

(** A buffer with [n] bytes of room before its data. *)
Lemma split_room b n : flex_wf b -> 0 <= n <= fx_offset b -> exists pre room post,
  b = flex_at (pre ++ room) (flex_data b) post /\ fx_small (pre ++ room) (flex_data b) post /\
  Z.of_nat (length room) = n /\ Z.of_nat (length (flex_data b)) = fx_size b.
Proof.
  intros Hwf Hn. destruct (flex_wf_at b Hwf) as (pre & post & E & Hsm).
  assert (fx_offset b = Z.of_nat (length pre)) as Ho by (rewrite E; done).
  exists (take (length pre - Z.to_nat n) pre), (drop (length pre - Z.to_nat n) pre), post.
  rewrite take_drop, length_drop. split; [done|]. split; [done|]. split; [lia|]. by apply length_flex_data.
Qed.

Lemma overwrite_all pre d d' post : length d = length d' ->
  fx_write (flex_at pre d post) (fx_offset (flex_at pre d post)) d' = Ok (flex_at pre d' post).
Proof.
  intros Hl. pose proof (flex_at_write_head pre d d' [] post Hl) as E. by rewrite !app_nil_r in E.
Qed.

(** What a write hands down: a buffer that opens to the packet. *)
Lemma crypto_write_seal h b : flex_wf b -> ZERO_BYTES <= fx_offset b -> fx_size b <= next_max - MAC_BYTES ->
  exists b' cbuf, flex_wf b' /\ flex_wf cbuf /\ next_room <= fx_offset cbuf /\ fx_size cbuf <= next_max /\
    opens h (flex_data cbuf) (flex_data b) /\
    crypto_handler_write h b =
      ('(written, cbuf, n) ← next_write (cr_next h) cbuf;
       Ok (if u64 written =? fx_size cbuf then fx_size b else written, b', { h with cr_next := n })).
Proof.
  intros Hwf Ho Hsz. pose proof crypto_room as (Hm & Hz & Hzm). unfold FLEX_PADDING_LEN, PROTOCOL_HEAD_LEN in *.
  destruct (split_room b ZERO_BYTES) as (pre & room & post & E & Hsm & Hr & Hlen); [done|lia|].
  revert E Hsm Hlen Hsz. generalize (flex_data b). intros d -> Hsm _ Hsz.
  change (Z.of_nat (length d) <= next_max - MAC_BYTES) in Hsz.
  pose proof next_max_fits as [_ Hmax31].
  unfold crypto_handler_write. rewrite (proj2 (Z.leb_le _ _)) by done. cbn [c_assert mbind Res_bind].
  pose proof (flex_at_backward pre room d post Hsm) as Hb. rewrite Hr in Hb.
  rewrite Hb. cbn [mbind Res_bind]. rewrite flex_at_data.
  destruct (encrypt_spec (cr_key h) (cr_nonce h) room d Hr) as (len & room' & cipher & -> & Hr' & Hc & Henc).
  rewrite overwrite_all by (by rewrite !length_app, Hr'). cbn [mbind Res_bind].
  change (fx_size (flex_at (pre ++ room) d post)) with (Z.of_nat (length d)). change FLEX_PADDING_LEN with 128.
  rewrite (u64_small (Z.of_nat (length d) + 128)) by lia.
  destruct (alloca_fill (Z.of_nat (length d) + 128) (128 - ZERO_BYTES) cipher)
    as (pre' & Hpre' & Hfill); [lia|rewrite Hc, length_app; lia|]. rewrite Hfill. cbn [mbind Res_bind].
  assert (fx_small pre (room' ++ d) post) as Hsm' by (unfold fx_small in *; rewrite !length_app in *; lia).
  pose proof (flex_at_forward pre room' d post Hsm') as Hf. rewrite Hr', Hr in Hf. rewrite Hf. cbn [mbind Res_bind].
  destruct Henc as [-> Henc].
  rewrite (proj2 (Z.leb_gt _ _)), <- Hc, fill_set_size by (rewrite length_app; lia).
  set (n := Z.to_nat (ZERO_BYTES - MAC_BYTES)) in *.
  assert (fx_small pre' (take n cipher ++ drop n cipher) []) as Hsm2.
  { unfold fx_small. rewrite take_drop, !length_app, Hc, length_app. cbn [length]. lia. }
  assert (Z.of_nat (length (take n cipher)) = ZERO_BYTES - MAC_BYTES) as Hn.
  { rewrite length_take, Hc, length_app. unfold n. lia. }
  pose proof (flex_at_forward _ _ _ _ Hsm2) as Hf2. rewrite take_drop, Hn in Hf2. rewrite Hf2. cbn [mbind Res_bind].
  exists (flex_at (pre ++ room') d post), (flex_at (pre' ++ take n cipher) (drop n cipher) []).
  rewrite flex_at_data. split_and!.
  - apply flex_at_wf. unfold fx_small in *. by rewrite <- app_assoc in *.
  - apply flex_at_wf. unfold fx_small in *. by rewrite <- !app_assoc in *.
  - cbn [flex_at fx_offset]. rewrite length_app. unfold FLEX_PADDING_LEN, PROTOCOL_HEAD_LEN in *. lia.
  - cbn [flex_at fx_size]. rewrite length_drop, Hc, length_app. lia.
  - intros room2 Hr2. destruct (Henc room2 Hr2) as (room3 & c & -> & Hlc & Hr3). exists room3, c.
    assert (length (room2 ++ drop n cipher) = length (room ++ d)) as El.
    { rewrite length_app, length_drop, Hc, !length_app. lia. }
    rewrite El, Hlc, Hc. split_and!; try done. rewrite !length_app. lia.
  - done.
Qed.

(** The handler takes a packet, as what opens to it, or refuses it. *)
Lemma crypto_write_spec h b : flex_wf b -> ZERO_BYTES <= fx_offset b -> fx_size b <= next_max - MAC_BYTES ->
  exists rc b' n', crypto_handler_write h b = Ok (rc, b', { h with cr_next := n' }) /\ flex_wf b' /\
  (0 <= rc /\ (exists p, sent_to (cr_next h) p n' /\ opens h p (flex_data b)) \/
   - 2 ^ 31 <= rc < 0 /\ next_sent n' = next_sent (cr_next h)).
Proof.
  intros Hwf Ho Hsz. pose proof (length_flex_data b Hwf). pose proof next_max_fits as [_ ?].
  destruct (crypto_write_seal h b Hwf Ho Hsz) as (b' & cbuf & Hwf' & Hc & Hco & Hcs & Hop & E).
  destruct (next_write_spec (cr_next h) cbuf) as (rc & c' & n' & Ew & Hwfc & Hrc); [done..|].
  rewrite Ew in E. cbn [mbind Res_bind] in E. do 3 eexists. split; [exact E|]. split; [done|].
  destruct Hrc as [[Hrc Hs]|[Hrc Hs]].
  - left. split; [by destruct (_ =? _); lia|]. by exists (flex_data cbuf).
  - right. split; [|done]. destruct Hwfc as (? & ? & ? & _ & ?).
    rewrite (proj2 (Z.eqb_neq _ _)); [lia|]. unfold u64, uwrap.
    rewrite <- (Z_mod_plus_full rc 1), Z.mod_small; lia.
Qed.

#[export] Program Instance crypto_laws : NextLaws (CryptoHandler next) := {
  next_sent h := opened h <$> next_sent (cr_next h);
  next_room := Z.max ZERO_BYTES (MAC_BYTES + next_room);
  next_max := next_max - MAC_BYTES
}.
Next Obligation.
  pose proof crypto_room as (? & ? & ? & ?). pose proof next_room_fits. lia.
Qed.
Next Obligation.
  pose proof crypto_room as (? & _). pose proof next_max_fits. lia.
Qed.
Next Obligation.
  intros h b Hwf Ho Hsz. destruct (crypto_write_spec h b) as (rc & b' & n' & E & Hwf' & Hrc); [done|lia|lia|].
  exists rc, b', { h with cr_next := n' }. split; [exact E|]. split; [done|].
  change (opened { h with cr_next := n' }) with (opened h). cbn [cr_next].
  destruct Hrc as [(Hrc & p & Hs & Hop)|[Hrc Hs]]; [left|right].
  - split; [done|]. unfold sent_to in Hs. cbn. by rewrite Hs, fmap_app, fmap_cons, (opens_opened h p (flex_data b)).
  - split; [done|]. cbn. by rewrite Hs.
Qed.

(** A packet that opens to [m] comes up as [m]. *)
Lemma crypto_rx_spec h b m : opens h (flex_data b) m ->
  flex_wf b -> ZERO_BYTES - MAC_BYTES <= fx_offset b -> fx_size b < 2 ^ 32 ->
  exists plain_buf, crypto_handler_on_rx_data h b = Ok (Some plain_buf) /\
    flex_wf plain_buf /\ flex_data plain_buf = m /\ FLEX_PADDING_LEN <= fx_offset plain_buf.
Proof.
  intros Hop Hwf Ho Hsz. pose proof crypto_room as (Hm & Hz & Hzm). unfold FLEX_PADDING_LEN, PROTOCOL_HEAD_LEN in *.
  destruct (split_room b (ZERO_BYTES - MAC_BYTES)) as (pre & room & post & E & Hsm & Hr & Hlen); [done|lia|].
  destruct (Hop room Hr) as (room3 & c & Hdec & Hc & Hl & Hr3).
  revert E Hsm Hsz Hdec Hc Hl. generalize (flex_data b). intros p -> Hsm Hsz Hdec Hc Hl.
  change (Z.of_nat (length p) < 2 ^ 32) in Hsz.
  unfold crypto_handler_on_rx_data. rewrite (proj2 (Z.leb_le _ _)) by done. cbn [c_assert mbind Res_bind].
  pose proof (flex_at_backward pre room p post Hsm) as Hb. rewrite Hr in Hb.
  rewrite Hb. cbn [mbind Res_bind]. rewrite flex_at_data, Hdec, overwrite_all by done. cbn [mbind Res_bind].
  change (fx_size (flex_at (pre ++ room) p post)) with (Z.of_nat (length p)). change FLEX_PADDING_LEN with 128.
  rewrite (u64_small (Z.of_nat (length p) + 128)) by lia. rewrite !length_app in Hl.
  destruct (alloca_fill (Z.of_nat (length p) + 128) (128 - (ZERO_BYTES - MAC_BYTES)) (room3 ++ m))
    as (pre' & Hpre' & Hfill); [lia|rewrite length_app; lia|]. rewrite Hfill. cbn [mbind Res_bind].
  assert (fx_small pre (take (length room) c ++ drop (length room) c) post) as Hsm'.
  { unfold fx_small in *. rewrite take_drop, !length_app, Hc, length_app. rewrite !length_app in Hsm. lia. }
  pose proof (flex_at_forward _ _ _ _ Hsm') as Hf.
  rewrite take_drop, length_take, Hc, length_app, Nat.min_l, Hr in Hf by lia. rewrite Hf.
  cbn [mbind Res_bind]. rewrite (proj2 (Z.leb_gt _ _)) by (rewrite length_app; lia).
  assert (length (room ++ p) = length (room3 ++ m)) as -> by (by rewrite !length_app).
  rewrite fill_set_size, <- Hr3. rewrite flex_at_forward.
  2: { unfold fx_small. rewrite !length_app. cbn [length]. lia. }
  eexists. split; [done|]. split; [|split; [apply flex_at_data|]].
  - apply flex_at_wf. unfold fx_small. rewrite !length_app. cbn [length]. lia.
  - cbn [flex_at fx_offset]. rewrite length_app. unfold FLEX_PADDING_LEN. lia.
Qed.

(** Encryption is transparent.  What the handler writes to the layer below, handed
    to a handler with the same key and nonce, gives the layer above it exactly the
    bytes that were written. *)
Theorem crypto_roundtrip h b rc b' h' h2 p cipher_buf :
  flex_wf b -> ZERO_BYTES <= fx_offset b -> fx_size b <= next_max - MAC_BYTES ->
  crypto_handler_write h b = Ok (rc, b', h') -> 0 <= rc ->
  sent_to (cr_next h) p (cr_next h') ->
  cr_key h2 = cr_key h -> cr_nonce h2 = cr_nonce h ->
  flex_wf cipher_buf -> flex_data cipher_buf = p -> ZERO_BYTES - MAC_BYTES <= fx_offset cipher_buf ->
  fx_size cipher_buf < 2 ^ 32 ->
  exists plain_buf, crypto_handler_on_rx_data h2 cipher_buf = Ok (Some plain_buf) /\
    flex_wf plain_buf /\ flex_data plain_buf = flex_data b.
Proof.
  intros Hwf Ho Hsz Hw Hrc Hsent Hk Hn Hcwf Hcd Hco Hcs.
  destruct (crypto_write_spec h b) as (rc1 & b1 & n1 & E & _ & Hrc1); [done|done|done|].
  rewrite Hw in E. injection E as <- <- ->. destruct Hrc1 as [(_ & p1 & Hp1 & Hop)|[? _]]; [|lia].
  rewrite (sent_to_inv _ _ _ _ Hsent Hp1) in Hcd. rewrite <- Hcd in Hop.
  destruct (crypto_rx_spec h2 cipher_buf (flex_data b)) as (plain & Ep & Hpw & Hpd & _); try done.
  - unfold opens in *. by rewrite Hk, Hn.
  - by exists plain.
Qed.
End Props.
