(* ===== verification/MuxSample.v ===== *)
(** * Concrete multiplexers

    A lower layer that keeps what it is given, a heap of numbers that hands out the
    least one, and an application that accepts everything, with the laws the theorems
    on the multiplexer ask for; and the theorems evaluated on two handlers that face
    each other.  Nothing of the code is modelled here. *)

From S2P Require Import Prelude ElaError FlexBuffer Multiplex MultiplexProps MultiplexStream MultiplexInv CryptoHandler.

#[export] Instance zero_stack : Stack.
Proof. refine {| stack_bytes n := replicate (Z.to_nat n) Init.Byte.x00 |}. intros n. apply length_replicate. Defined.

#[export] Instance wire_next : Next (list (list byte)) := {
  next_write l b := Ok (fx_size b, b, l ++ [flex_data b]);
  next_start l := Ok (0, l);
  next_stop l _ := l
}.

#[export] Instance wire_laws : NextLaws (list (list byte)).
Proof.
  refine {| next_sent l := l; next_room := 0; next_max := 2 ^ 20 |}; [done|done|].
  intros n b Hb _ _. do 3 eexists. split; [reflexivity|]. split; [done|]. left. split; [|done]. by destruct Hb as (_ & ? & _).
Defined.

(** The least number that is not in use, or -1. *)
#[export] Instance least_heap : IdsHeap (gset Z) := {
  ids_alloc h :=
    match base.filter (fun i => i ∉ h) (seqZ 1 MAX_CHANNEL_ID) with
    | [] => (-1, h)
    | i :: _ => (i, {[i]} ∪ h)
    end;
  ids_free h i := h ∖ {[i]}
}.

#[export] Instance least_laws : IdsHeapLaws (gset Z).
Proof.
  refine {| ids_used h := h |}.
  - intros h cid h'. cbn. destruct (base.filter _ _) as [|i l] eqn:E; intros [= <- <-]; [by left|]. right.
    assert (i ∈ i :: l) as Hi by left. rewrite <- E in Hi. apply list_elem_of_filter in Hi as [? Hi].
    apply elem_of_seqZ in Hi. unfold MAX_CHANNEL_ID in *. split; [lia|done].
  - done.
Defined.

#[export] Instance all_accepted : ChannelApp := { channel_open _ _ := true; channel_data _ _ := true }.

Definition sample_mux : Type := @MultiplexHandler gmap_HashTables (list (list byte)) (gset Z).

Definition fresh_mux (reliable : bool) : sample_mux := multiplex_handler_create reliable false [] ∅.

Definition at_sec (s : Z) : timeval := {| tv_sec := s; tv_usec := 0 |}.

(** One end after it asked for a channel, what it sent, and both ends once the channel
    is open. *)
Definition asked : Z * sample_mux :=
  match multiplex_handler_open_channel (at_sec 10) ChannelType_User (Some "hi"%string) 60 0 (fresh_mux false) with
  | Ok r => r | Fault _ => (0, fresh_mux false)
  end.

Definition last_sent (w : sample_mux) : FlexBuffer := flex_at [] (default [] (last (mx_next w))) [].

Definition after (op : mux_op) (w : sample_mux) : sample_mux :=
  match mux_step op w with Ok w => w | Fault _ => w end.

Definition answering : sample_mux := after (MuxData (at_sec 11) (last_sent asked.2)) (fresh_mux false).
Definition opened : sample_mux := after (MuxData (at_sec 12) (last_sent answering)) asked.2.

Example handshake_runs :
  mx_events answering = [EvChannelOpened 0 1; EvChannelOpen 0 1 (Some "hi"%string)] /\
  mx_events opened = [EvChannelOpened 0 1].
Proof. by vm_compute. Qed.

Lemma channel_handshake_witness :
  exists p, sent_to (mx_next (fresh_mux false)) p (mx_next asked.2) /\
  forall req, flex_wf req -> flex_data req = p ->
  exists v' rc, multiplex_handler_notify_packet (at_sec 11) req (fresh_mux false) = Ok (req, v') /\
    answered_with (mx_next (fresh_mux false)) (frame PacketType_ChannelOpenConfirmation 0 1 1 []) rc (mx_next v').
Proof.
  edestruct (channel_handshake (at_sec 10) (at_sec 11) (at_sec 12) ChannelType_User (Some "hi"%string) 60 0
    (fresh_mux false) (fresh_mux false) 1 asked.2) as (p & Hp & Hreq).
  - split; [|by vm_compute]. apply (bool_decide_unpack _). by vm_compute.
  - by vm_compute.
  - reflexivity.
  - vm_compute. reflexivity.
  - done.
  - reflexivity.
  - exists p. split; [exact Hp|]. intros req Hw Hd. destruct (Hreq req Hw Hd) as (v' & rc & E & Ha & _). exists v', rc. split; [exact E|exact Ha].
Defined.

Definition wrote : Z * sample_mux :=
  match multiplex_handler_write_channel (at_sec 13) 1
          (flex_buffer_from FLEX_PADDING_LEN (String.list_byte_of_string "data")) opened with
  | Ok r => r | Fault _ => (0, opened)
  end.

Lemma channel_data_delivered_witness : wrote.1 = 4 /\
  exists ch p, ht_get (channels opened) 1 = Some ch /\ sent_to (mx_next opened) p (mx_next wrote.2).
Proof.
  edestruct (channel_data_delivered (at_sec 13) (at_sec 14) (String.list_byte_of_string "data") 1 opened
    wrote.1 wrote.2) as (ch & p & Hch & _ & Hrc & Hp & _).
  - by vm_compute.
  - by vm_compute.
  - done.
  - intros id ch Hch.
    apply ht_items_get in Hch. vm_compute in Hch.
    apply list_elem_of_singleton in Hch. injection Hch as -> ->.
    unfold is_u16. cbn. lia.
  - vm_compute. reflexivity.
  - by vm_compute.
  - split; [exact Hrc|]. exists ch, p. split; [exact Hch|exact Hp].
Defined.

Definition two_frames : list (list byte) :=
  [frame PacketType_ChannelKeepAlive 0 1 1 []; frame PacketType_ChannelData 0 1 1 (String.list_byte_of_string "abc")].

Definition cut (n : nat) (l : list byte) : list FlexBuffer := [flex_at [] (take n l) []; flex_at [] (drop n l) []].

Lemma stream_reassembly_witness :
  on_pieces (at_sec 10) (cut 5 (concat two_frames)) (fresh_mux true) =
    (w' ← deliver_all (at_sec 10) two_frames (fresh_mux true); Ok (hold [] w')).
Proof.
  apply (stream_reassembly (at_sec 10) (cut 5 (concat two_frames)) two_frames [] (fresh_mux true)).
  - split; [done|]. by split; vm_compute.
  - repeat constructor; try (by vm_compute).
  - repeat constructor; by vm_compute.
  - by left.
  - by vm_compute.
Defined.

Lemma checkpoint_spec_witness : mux_wf opened /\
  exists w' ks, multiplex_handler_checkpoint (at_sec 200) opened = Ok w' /\
    ks `sublist_of` base.filter (fun ch => idle (at_sec 200) ch) (ht_items (channels opened)).*2.
Proof.
  assert (mux_wf opened) as Hwf.
  { assert (mux_run [MuxOpen (at_sec 10) ChannelType_User (Some "hi"%string) 60 0;
                     MuxData (at_sec 12) (last_sent answering)] (fresh_mux false) = Ok opened) as Hr
      by (vm_compute; reflexivity).
    apply run_evolves in Hr. by apply Hr, create_wf. }
  split; [exact Hwf|].
  destruct (checkpoint_spec (at_sec 200) opened Hwf) as (w' & ks & E & _ & _ & Hks & _).
  exists w', ks. split; [exact E|exact Hks].
Defined.

Definition opening_ops : list mux_op :=
  [MuxOpen (at_sec 10) ChannelType_User (Some "hi"%string) 60 0; MuxData (at_sec 12) (last_sent answering)].

Lemma channel_lifecycle_witness : mux_wf opened /\
  let l := history 1 opening_ops (fresh_mux false) in
  told l = events_of 1 [] (mx_events opened) /\ life_run None l = Some (status_of opened 1).
Proof.
  edestruct (channel_lifecycle false false ([] : list (list byte)) (∅ : gset Z) opening_ops opened) as [Hwf Hl].
  - reflexivity.
  - vm_compute. reflexivity.
  - split; [exact Hwf|exact (Hl 1)].
Defined.

(** An open of our own that the peer answers. *)
Example opening_history :
  history 1 opening_ops (fresh_mux false) =
    [OwnOpen ChannelType_User; Told (EvChannelOpened ChannelType_User 1) true].
Proof. vm_compute. reflexivity. Qed.

(** ** Over an encrypted stream *)

(** A cipher that turns the message around behind its authenticator. *)
#[export] Instance reverse_crypto : Crypto := {
  ZERO_BYTES := 32;
  MAC_BYTES := 16;
  crypto_encrypt2 _ _ m :=
    (Z.of_nat (length m), zeroed 32 ++ drop 32 m, zeroed 32 ++ reverse (drop 32 m));
  crypto_decrypt2 _ _ c := (Z.of_nat (length c), c, zeroed 32 ++ reverse (drop 32 c))
}.

#[export] Instance reverse_laws : CryptoLaws.
Proof.
  split; [by vm_compute; split_and!|].
  intros key nonce room m Hr. change ZERO_BYTES with 32 in *. change MAC_BYTES with 16.
  assert (drop 32 (room ++ m) = m) as Em by (apply drop_app_length'; lia).
  exists (Z.of_nat (length (room ++ m))). do 2 eexists. cbn [crypto_encrypt2 crypto_decrypt2 reverse_crypto].
  rewrite Em. split; [done|]. rewrite length_zeroed, !length_app, length_zeroed, length_reverse.
  split; [lia|]. split; [lia|]. split; [done|]. intros room2 Hr2.
  change (Z.to_nat (32 - 16)) with 16%nat. change (drop 16 (zeroed 32 ++ reverse m)) with (zeroed 16 ++ reverse m).
  assert (drop 32 (room2 ++ zeroed 16 ++ reverse m) = reverse m) as Ec.
  { rewrite app_assoc. apply drop_app_length'. rewrite length_app, length_zeroed. lia. }
  exists (zeroed 32), (room2 ++ zeroed 16 ++ reverse m). rewrite Ec, reverse_involutive.
  assert (length (room2 ++ zeroed 16 ++ reverse m) = length room + length m)%nat as ->
    by (rewrite !length_app, length_zeroed, length_reverse; lia).
  rewrite length_zeroed. split_and!; try done; lia.
Defined.

Definition session_key : list byte := replicate 32 Init.Byte.x6b.
Definition session_nonce : list byte := replicate 24 Init.Byte.x6e.
Definition crypto_over (l : list (list byte)) : CryptoHandler (list (list byte)) :=
  {| cr_key := session_key; cr_nonce := session_nonce; cr_next := l |}.

Definition hello : FlexBuffer := flex_buffer_from FLEX_PADDING_LEN (String.list_byte_of_string "hello").

(** A failed encryption is not seen by the layers above, which look for negative results:
    nothing was sent, and the result is positive. *)
Example failed_encryption_looks_sent :
  (let C := {| ZERO_BYTES := 32; MAC_BYTES := 16; crypto_encrypt2 _ _ m := (0, m, m); crypto_decrypt2 _ _ m := (0, m, m) |} in
   '(rc, _, h) ← crypto_handler_write (crypto_over []) hello; Ok (rc, cr_next h)) = Ok (0x81000012, []).
Proof. vm_compute. reflexivity. Qed.

Definition hello_sent : list byte := zeroed 16 ++ reverse (String.list_byte_of_string "hello").

Lemma crypto_roundtrip_witness :
  crypto_handler_write (crypto_over []) hello = Ok (5, hello, crypto_over [hello_sent]) /\
  exists plain_buf,
    crypto_handler_on_rx_data (crypto_over []) (flex_at (zeroed 16) hello_sent []) = Ok (Some plain_buf) /\
    flex_data plain_buf = String.list_byte_of_string "hello".
Proof.
  assert (crypto_handler_write (crypto_over []) hello = Ok (5, hello, crypto_over [hello_sent])) as Hw
    by (vm_compute; reflexivity).
  split; [exact Hw|].
  assert (MAC_BYTES + @next_room _ _ wire_laws <= FLEX_PADDING_LEN - PROTOCOL_HEAD_LEN) as Hroom by (by vm_compute).
  assert (MAC_BYTES + PROTOCOL_HEAD_LEN <= @next_max _ _ wire_laws) as Hmax by (by vm_compute).
  edestruct (crypto_roundtrip Hroom Hmax (crypto_over []) hello 5 hello
    (crypto_over [hello_sent]) (crypto_over []) hello_sent (flex_at (zeroed 16) hello_sent []))
    as (plain & E & _ & Hd).
  - by vm_compute.
  - by vm_compute.
  - by vm_compute.
  - exact Hw.
  - done.
  - reflexivity.
  - reflexivity.
  - reflexivity.
  - by vm_compute.
  - reflexivity.
  - by vm_compute.
  - by vm_compute.
  - exists plain. split; [exact E|]. rewrite Hd. by vm_compute.
Defined.

(** The two ends of a channel, each over its own crypto handler. *)
Definition secure_mux : Type := @MultiplexHandler gmap_HashTables (CryptoHandler (list (list byte))) (gset Z).
Definition fresh_secure : secure_mux := multiplex_handler_create false false (crypto_over []) ∅.

Definition secure_asked : secure_mux :=
  match multiplex_handler_open_channel (at_sec 10) ChannelType_User (Some "hi"%string) 60 0 fresh_secure with
  | Ok (_, w) => w | Fault _ => fresh_secure
  end.

Definition secure_receive (from to : secure_mux) : secure_mux :=
  let p := default [] (last (cr_next (mx_next from))) in
  match crypto_handler_on_rx_data (mx_next to) (flex_at (zeroed 16) p []) with
  | Ok (Some plain) => match multiplex_handler_on_data (at_sec 11) plain to with Ok to => to | Fault _ => to end
  | _ => to
  end.

Example secure_handshake_runs :
  let v := secure_receive secure_asked fresh_secure in
  mx_events v = [EvChannelOpened 0 1; EvChannelOpen 0 1 (Some "hi"%string)] /\
  mx_events (secure_receive v secure_asked) = [EvChannelOpened 0 1].
Proof. by vm_compute. Qed.
