(* ===== verification/Session.v ===== *)
(** * Sessions (src/src/session/session.c)

    The session extension of a node with the callbacks for requests, and a session
    with its streams: their table, their handlers, the calls on streams and on their
    channels, requests over invitations, the start and the end of a session.

    A stream's handlers are the multiplexer, if it has one, over what is below it
    ([Pipeline]); that, with the reliable and the crypto handler and the transport in
    it, is the interface [Lower].  The functions that the transport puts into
    [ElaSession] are the interface [SdpLayer].  A call is a function to its result and
    the session, [ela_set_error] sets [ws_errno]; the extension is a field of its
    session, and the numbers of streams a field of the extension, stored back.  What
    the application's callbacks are told is appended to [s_events] and [ws_events],
    newest first; they do not call back into the session. *)

From S2P Require Import Prelude ElaError ElaCP Carrier Invite FlexBuffer Multiplex.

Definition ELAERR_NOT_IMPLEMENTED : Z := 0x15.

Definition SDP_MAX_LEN : Z := 2048.
Definition extension_name : string := "session".

(** [ElaStreamType] *)
Definition ElaStreamType_audio : Z := 0.
Definition ElaStreamType_video : Z := 1.
Definition ElaStreamType_text : Z := 2.
Definition ElaStreamType_application : Z := 3.
Definition ElaStreamType_message : Z := 4.

(** The options of a stream. *)
Definition ELA_STREAM_COMPRESS : Z := 0x01.
Definition ELA_STREAM_PLAIN : Z := 0x02.
Definition ELA_STREAM_RELIABLE : Z := 0x04.
Definition ELA_STREAM_MULTIPLEXING : Z := 0x08.
Definition ELA_STREAM_PORT_FORWARDING : Z := 0x10.

Definition PortForwardingProtocol_TCP : Z := 1.

(** ** The extension *)

(** A callback stands for the function with its context; it may be null. *)
Record BundledRequestCallback {cb : Type} := { brc_prefix : string; brc_callback : option cb }.
Arguments BundledRequestCallback cb : clear implicits.

(** A call of a request callback. *)
Record request_call {cb : Type} := {
  rq_callback : cb; rq_from : string; rq_bundle : option string; rq_data : list byte; rq_len : Z
}.
Arguments request_call cb : clear implicits.

Record SessionExtension {cb ids : Type} := {
  ext_default : option cb;
  ext_callbacks : list (BundledRequestCallback cb);
  ext_transport : bool;                   (* the pointer is not null *)
  ext_stream_ids : ids;
  ext_calls : list (request_call cb)
}.
Arguments SessionExtension cb ids : clear implicits.

Section Extension.
Context {cb ids : Type}.
Implicit Types ext : SessionExtension cb ids.

(** The callback for a bundle: of the first prefix that fits, or the default. *)
Definition find_callback ext (bundle : string) : option cb :=
  match list_find (fun brc => String.prefix (brc_prefix brc) bundle) (ext_callbacks ext) with
  | Some (_, {| brc_callback := Some f |}) => Some f
  | _ => ext_default ext
  end.

Definition friend_invite ext (from : string) (bundle : option string) (data : list byte) (len : Z) :
    SessionExtension cb ids :=
  let '(callback, bundle) :=
    match bundle with
    | None | Some ""%string => (ext_default ext, None)
    | Some b => (find_callback ext b, bundle)
    end in
  match callback with
  | Some f => { ext with ext_calls ::=
                  cons {| rq_callback := f; rq_from := from; rq_bundle := bundle; rq_data := data; rq_len := len |} }
  | None => ext
  end.

(** The place of a prefix in the list, longer prefixes first. *)
Fixpoint place_callback (prefix : string) (f : option cb) (l : list (BundledRequestCallback cb)) :
    list (BundledRequestCallback cb) :=
  match l with
  | [] => [{| brc_prefix := prefix; brc_callback := f |}]
  | brc :: l' =>
      if strlen (brc_prefix brc) =? strlen prefix then
        if str_eqb (brc_prefix brc) prefix then
          match f with Some _ => { brc with brc_callback := f } :: l' | None => l' end
        else brc :: place_callback prefix f l'
      else if strlen (brc_prefix brc) <? strlen prefix
      then {| brc_prefix := prefix; brc_callback := f |} :: l
      else brc :: place_callback prefix f l'
  end.

(** The result and the error it sets. *)
Definition ela_session_set_callback (ext : option (SessionExtension cb ids)) (bundle_prefix : option string)
    (callback : option cb) : Z * Z * option (SessionExtension cb ids) :=
  if match bundle_prefix with Some p => strlen p >? ELA_MAX_BUNDLE_LEN | None => false end
  then (-1, ELA_GENERAL_ERROR ELAERR_INVALID_ARGS, ext)
  else
    match ext with
    | None => (-1, ELA_GENERAL_ERROR ELAERR_NOT_EXIST, ext)
    | Some e =>
        match bundle_prefix with
        | None | Some ""%string => (0, 0, Some { e with ext_default := callback })
        | Some p => (0, 0, Some { e with ext_callbacks ::= place_callback p callback })
        end
    end.

(** [w->extension] with its references.  [created] is what creating the lock, the heap
    of numbers and the transport gives. *)
Definition ela_session_init (created : Z) (empty_ids : ids) (w : option (nat * SessionExtension cb ids)) :
    Z * Z * option (nat * SessionExtension cb ids) :=
  match w with
  | Some (n, ext) => (0, 0, Some (S n, ext))
  | None =>
      if created <? 0 then (-1, created, None)
      else (0, 0, Some (1%nat, {| ext_default := None; ext_callbacks := []; ext_transport := true;
                                  ext_stream_ids := empty_ids; ext_calls := [] |}))
  end.

Definition ela_session_cleanup (w : option (nat * SessionExtension cb ids)) :
    option (nat * SessionExtension cb ids) :=
  match w with
  | Some (S (S n), ext) => Some (S n, ext)
  | _ => None
  end.
End Extension.

(** ** Streams and sessions *)

(** The handlers below the multiplexer.  [lower_create reliable unencrypt] stacks them;
    each reads [s->state] and the session's key and nonce where it needs them. *)
Class Lower (next tr : Type) := {
  lower_create : bool -> bool -> next;
  lower_init : next -> Z * next;
  lower_prepare : tr -> next -> Z * next;
  (* the states that stopping reports before it returns *)
  lower_stop_reports : next -> Z -> list Z;
  lower_state : next -> Z;
  lower_set_state : Z -> next -> next;
  lower_set_keys : list byte -> list byte -> next -> next;
  lower_fire_state_changed : Z -> next -> next;
  (* references to the stream other than the session's *)
  lower_held : next -> bool;
  ElaTransportInfo : Type;
  lower_get_info : next -> Z + ElaTransportInfo
}.

Inductive Pipeline `{!HashTables} {next heap : Type} :=
| Plain (n : next)
| Muxed (m : MultiplexHandler next heap).
Arguments Pipeline {_} next heap.

(** Which of [ElaStreamCallbacks] are set; those of channels are [ChannelApp]'s. *)
Record StreamCallbacks := { has_state_changed : bool; has_stream_data : bool }.

Inductive session_event :=
| SevState (state : Z)
| SevData (data : list byte).

Record ElaStream `{!HashTables} {next heap : Type} := {
  s_id : Z;
  s_type : Z;
  s_compress : bool; s_unencrypt : bool; s_reliable : bool; s_multiplexing : bool; s_portforwarding : bool;
  s_deactivate : bool;
  s_callbacks : StreamCallbacks;
  s_pipe : Pipeline next heap;
  s_events : list session_event
}.
Arguments ElaStream {_} next heap.

Record Service := { svc_name : string; svc_host : string; svc_port : string; svc_protocol : Z }.

(** The answer to a request, as its callback is told. *)
Record session_response := {
  rp_bundle : option string; rp_status : Z; rp_reason : option string; rp_data : list byte; rp_len : Z
}.

Record ElaSession `{!HashTables} {next heap cb ids tr : Type} := {
  ws_errno : Z;
  ws_ext : SessionExtension cb ids;
  ws_to : string;
  ws_worker : bool;                       (* the worker runs *)
  ws_offerer : bool;
  ws_complete_callback : bool;
  ws_userdata : Z;
  ws_streams : list (ElaStream next heap);
  ws_transport : tr;                      (* what the transport's session adds *)
  ws_public_key : list byte; ws_secret_key : list byte; ws_peer_pubkey : list byte;
  ws_nonce : list byte; ws_credential : list byte;
  ws_crypto_enabled : bool; ws_crypto_key : list byte;
  ws_services : option (hashtable string Service);
  ws_events : list session_response
}.
Arguments ElaSession {_} next heap cb ids.

(** [set_offer], [encode_local_sdp] and [apply_remote_sdp] of the session; the text
    of a description of at most so many bytes, or an error. *)
Class SdpLayer (session : Type) := {
  set_offer : bool -> session -> bool * session;
  encode_local_sdp : Z -> session -> Res (Z + list byte);
  apply_remote_sdp : list byte -> session -> Res (Z * session)
}.

(** crypto.h (libcrystal).  [crypto_compute_symmetric_key peer_pk sk area]: what is in
    the area of the key afterwards. *)
Class KeyExchange := {
  PUBLIC_KEY_BYTES : nat; SECRET_KEY_BYTES : nat; NONCE_BYTES : nat; SYMMETRIC_KEY_BYTES : nat;
  crypto_compute_symmetric_key : list byte -> list byte -> list byte -> list byte
}.

(** What [crypto_create_keypair] and [crypto_random_nonce] give for a request. *)
Record fresh_keys := { fk_public : list byte; fk_secret : list byte; fk_nonce : list byte; fk_credential : list byte }.

Section Session.
Context `{!HashTables, !Stack, !ChannelApp} {next heap cb ids tr : Type}
  `{!Next next, !Lower next tr, !IdsHeap heap, !IdsHeap ids}.
Implicit Types s : ElaStream next heap.
Implicit Types ws : ElaSession next heap cb ids tr.

(** [ela_set_error(code); return -1;] *)
Definition session_fails (code : Z) ws : Res (Z * ElaSession next heap cb ids tr) :=
  Ok (-1, { ws with ws_errno := code }).

(** ** The handlers of a stream *)

Definition pipe_lower (p : Pipeline next heap) : next :=
  match p with Plain n => n | Muxed m => mx_next m end.

Definition map_lower (f : next -> next) (p : Pipeline next heap) : Pipeline next heap :=
  match p with Plain n => Plain (f n) | Muxed m => Muxed { m with mx_next ::= f } end.

Definition s_state s : Z := lower_state (pipe_lower (s_pipe s)).

Definition stream_base_on_data (data : list byte) s : ElaStream next heap :=
  if has_stream_data (s_callbacks s) then { s with s_events ::= cons (SevData data) } else s.

Definition stream_base_on_state_chagned (state : Z) s : ElaStream next heap :=
  let s := { s with s_pipe ::= map_lower (lower_set_state state) } in
  if has_state_changed (s_callbacks s) then { s with s_events ::= cons (SevState state) } else s.

(** A state that comes up from below the multiplexer. *)
Definition stream_on_state_changed (state : Z) s : ElaStream next heap :=
  let s :=
    match s_pipe s with
    | Plain _ => s
    | Muxed m => { s with s_pipe := Muxed (multiplex_handler_on_state_changed state m) }
    end in
  stream_base_on_state_chagned state s.

(** Data that the multiplexer passed on since it had been told [before]. *)
Definition passed_on (before after : list mux_event) : list (list byte) :=
  omap (fun e => match e with EvData d => Some d | _ => None end)
    (reverse (take (length after - length before) after)).

(** Data that comes up from below the multiplexer. *)
Definition stream_on_data (now : timeval) (buf : FlexBuffer) s : Res (ElaStream next heap) :=
  match s_pipe s with
  | Plain _ => Ok (stream_base_on_data (flex_data buf) s)
  | Muxed m =>
      m' ← multiplex_handler_on_data now buf m;
      Ok (foldl (fun s d => stream_base_on_data d s) { s with s_pipe := Muxed m' }
            (passed_on (mx_events m) (mx_events m')))
  end.

Definition pipe_init (p : Pipeline next heap) : Z * Pipeline next heap :=
  let '(rc, n) := lower_init (pipe_lower p) in (rc, map_lower (fun _ => n) p).

Definition pipe_prepare (transport : tr) (p : Pipeline next heap) : Z * Pipeline next heap :=
  let '(rc, n) := lower_prepare transport (pipe_lower p) in (rc, map_lower (fun _ => n) p).

(** [timer] and [worker]: what [multiplex_handler_start] gets for its timer and its worker. *)
Definition pipe_start (timer worker : Z) (p : Pipeline next heap) : Res (Z * Pipeline next heap) :=
  match p with
  | Plain n => '(rc, n) ← next_start n; Ok (rc, Plain n)
  | Muxed m => '(rc, m) ← multiplex_handler_start timer worker m; Ok (rc, Muxed m)
  end.

Definition pipe_write (now : timeval) (buf : FlexBuffer) (p : Pipeline next heap) : Res (Z * Pipeline next heap) :=
  match p with
  | Plain n => '(sent, _, n) ← next_write n buf; Ok (sent, Plain n)
  | Muxed m => '(sent, m) ← multiplex_handler_write now buf m; Ok (sent, Muxed m)
  end.

Definition pipe_stop (error : Z) (p : Pipeline next heap) : Pipeline next heap :=
  match p with
  | Plain n => Plain (next_stop n error)
  | Muxed m => Muxed (multiplex_handler_stop error m)
  end.

(** [s->pipeline.stop]; what it reports goes up when it is done. *)
Definition stream_stop (error : Z) s : ElaStream next heap :=
  let reports := lower_stop_reports (pipe_lower (s_pipe s)) error in
  foldl (fun s state => stream_on_state_changed state s) { s with s_pipe ::= pipe_stop error } reports.

(** ** The table of streams *)

Definition get_stream (stream : Z) (l : list (ElaStream next heap)) : option (ElaStream next heap) :=
  snd <$> list_find (fun s => s_id s = stream) l.

(** What happens to the object in the list. *)
Fixpoint set_stream s (l : list (ElaStream next heap)) : list (ElaStream next heap) :=
  match l with
  | [] => []
  | s0 :: l => if s_id s0 =? s_id s then s :: l else s0 :: set_stream s l
  end.

Fixpoint remove_stream_entry (stream : Z) (l : list (ElaStream next heap)) : list (ElaStream next heap) :=
  match l with
  | [] => []
  | s :: l => if s_id s =? stream then l else s :: remove_stream_entry stream l
  end.

(** The session's last reference to a stream goes; [stream_base_destroy] when there is
    no other. *)
Definition deref_stream s ws : ElaSession next heap cb ids tr :=
  if lower_held (pipe_lower (s_pipe s)) || (s_id s <=? 0) then ws
  else { ws with ws_ext := { ws_ext ws with ext_stream_ids ::= fun h => ids_free h (s_id s) } }.

Definition has_option (options bit : Z) : bool := negb (Z.land options bit =? 0).

Definition new_stream (id type options : Z) (callbacks : option StreamCallbacks) (empty : heap) ws :
    ElaStream next heap :=
  let portforwarding := has_option options ELA_STREAM_PORT_FORWARDING in
  let multiplexing := has_option options ELA_STREAM_MULTIPLEXING || portforwarding in
  let reliable := has_option options ELA_STREAM_RELIABLE in
  let unencrypt := has_option options ELA_STREAM_PLAIN in
  let n := lower_set_keys (ws_crypto_key ws) (ws_nonce ws) (lower_set_state 0 (lower_create reliable unencrypt)) in
  {| s_id := id; s_type := type; s_compress := has_option options ELA_STREAM_COMPRESS;
     s_unencrypt := unencrypt; s_reliable := reliable; s_multiplexing := multiplexing;
     s_portforwarding := portforwarding; s_deactivate := false;
     s_callbacks := default {| has_state_changed := false; has_stream_data := false |} callbacks;
     s_pipe := if multiplexing then Muxed (multiplex_handler_create reliable portforwarding n empty) else Plain n;
     s_events := [] |}.

(** [created] is what [ws->create_stream] gives, [handlers] what
    creating the multiplexer gives, [empty] an empty heap for channels. *)
Definition ela_session_add_stream (type options : Z) (callbacks : option StreamCallbacks)
    (created handlers : Z) (empty : heap) ws : Res (Z * ElaSession next heap cb ids tr) :=
  if (type =? ElaStreamType_audio) || (type =? ElaStreamType_video)
  then session_fails (ELA_GENERAL_ERROR ELAERR_NOT_IMPLEMENTED) ws
  else if negb (created =? 0) then session_fails created ws
  else
    let '(id, h) := ids_alloc (ext_stream_ids (ws_ext ws)) in
    let ws := { ws with ws_ext := { ws_ext ws with ext_stream_ids := h } } in
    if id <=? 0 then session_fails (ELA_GENERAL_ERROR ELAERR_OUT_OF_MEMORY) ws
    else
      let s := new_stream id type options callbacks empty ws in
      if handlers <? 0 then session_fails handlers (deref_stream s ws)
      else
        let ws := { ws with ws_crypto_enabled ::= orb (negb (s_unencrypt s)) } in
        let '(rc, p) := pipe_init (s_pipe s) in
        let s := { s with s_pipe := p } in
        if rc <? 0 then session_fails rc (deref_stream s ws)
        else Ok (id, { ws with ws_streams ::= fun l => l ++ [s] }).

Definition ela_session_remove_stream (stream : Z) ws : Res (Z * ElaSession next heap cb ids tr) :=
  if stream <=? 0 then session_fails (ELA_GENERAL_ERROR ELAERR_INVALID_ARGS) ws
  else
    match get_stream stream (ws_streams ws) with
    | None => session_fails (ELA_GENERAL_ERROR ELAERR_NOT_EXIST) ws
    | Some s =>
        let s := stream_stop 0 s in
        Ok (0, deref_stream s { ws with ws_streams ::= remove_stream_entry stream })
    end.

(** ** The calls on a stream *)

(** The frame that these calls share: [bad] is their check of the arguments, [op] what
    they do with the stream. *)
Definition stream_call (bad : bool) (stream : Z) (op : ElaStream next heap -> Res (Z * ElaStream next heap)) ws :
    Res (Z * ElaSession next heap cb ids tr) :=
  if (stream <=? 0) || bad then session_fails (ELA_GENERAL_ERROR ELAERR_INVALID_ARGS) ws
  else
    match get_stream stream (ws_streams ws) with
    | None => session_fails (ELA_GENERAL_ERROR ELAERR_NOT_EXIST) ws
    | Some s =>
        '(rc, s) ← op s;
        let ws := { ws with ws_streams ::= set_stream s } in
        if rc <? 0 then session_fails rc ws else Ok (rc, ws)
    end.

Definition when_connected (op : ElaStream next heap -> Res (Z * ElaStream next heap)) s :
    Res (Z * ElaStream next heap) :=
  if negb (s_state s =? ElaStreamState_connected) then Ok (ELA_GENERAL_ERROR ELAERR_WRONG_STATE, s) else op s.

(** A call of the multiplexer, if there is one. *)
Definition on_mux (f : MultiplexHandler next heap -> Res (Z * MultiplexHandler next heap)) s :
    Res (Z * ElaStream next heap) :=
  match s_pipe s with
  | Plain _ => Ok (ELA_GENERAL_ERROR ELAERR_WRONG_STATE, s)
  | Muxed m => '(rc, m) ← f m; Ok (rc, { s with s_pipe := Muxed m })
  end.

(** The result of the calls that report no number. *)
Definition zero_if_done (m : Res (Z * ElaSession next heap cb ids tr)) : Res (Z * ElaSession next heap cb ids tr) :=
  '(rc, ws) ← m; Ok (if rc <? 0 then -1 else 0, ws).

Definition ela_stream_write (now : timeval) (stream : Z) (data : option (list byte)) ws :=
  let bytes := default [] data in
  let len := Z.of_nat (length bytes) in
  stream_call (negb (bool_decide (is_Some data)) || (len =? 0) || (len >? ELA_MAX_USER_DATA_LEN)) stream
    (fun s =>
       if (s_type s =? ElaStreamType_audio) || (s_type s =? ElaStreamType_video)
       then Ok (ELA_GENERAL_ERROR ELAERR_NOT_IMPLEMENTED, s)
       else
         when_connected
           (fun s => '(sent, p) ← pipe_write now (flex_buffer_from FLEX_PADDING_LEN bytes) (s_pipe s);
                     Ok (sent, { s with s_pipe := p })) s) ws.

(** What the calls that only read give, or the error they set. *)
Definition read_stream {A} (stream : Z) (f : ElaStream next heap -> Z + A) ws : Z + A :=
  if stream <=? 0 then inl (ELA_GENERAL_ERROR ELAERR_INVALID_ARGS)
  else
    match get_stream stream (ws_streams ws) with
    | None => inl (ELA_GENERAL_ERROR ELAERR_NOT_EXIST)
    | Some s => f s
    end.

Definition ela_stream_get_type (stream : Z) ws : Z + Z := read_stream stream (fun s => inr (s_type s)) ws.
Definition ela_stream_get_state (stream : Z) ws : Z + Z := read_stream stream (fun s => inr (s_state s)) ws.
Definition ela_stream_get_transport_info (stream : Z) ws : Z + ElaTransportInfo :=
  read_stream stream
    (fun s => if negb (s_state s =? ElaStreamState_connected) then inl (ELA_GENERAL_ERROR ELAERR_WRONG_STATE)
              else lower_get_info (pipe_lower (s_pipe s))) ws.

Definition ela_stream_open_channel (now : timeval) (stream : Z) (cookie : option string) ws :=
  stream_call false stream
    (when_connected (on_mux (multiplex_handler_open_channel now ChannelType_User cookie 0 0))) ws.

Definition ela_stream_close_channel (stream channel : Z) ws :=
  zero_if_done (stream_call false stream (on_mux (multiplex_handler_close_channel channel)) ws).

(** [data] is null where it is [None].  Unlike the other calls, it gives what the multiplexer
    gave, a code of an error too.  The error word of a stream without a multiplexer is an
    [unsigned int] put into a [ssize_t] of 64 bits, which is not negative. *)
Definition ela_stream_write_channel (now : timeval) (stream channel : Z) (data : option (list byte)) ws :
    Res (Z * ElaSession next heap cb ids tr) :=
  let bytes := default [] data in
  let len := Z.of_nat (length bytes) in
  if (stream <=? 0) || (channel <? 0) || (bool_decide (is_Some data) && (len =? 0)) || (len >? ELA_MAX_USER_DATA_LEN)
  then session_fails (ELA_GENERAL_ERROR ELAERR_INVALID_ARGS) ws
  else
    match get_stream stream (ws_streams ws) with
    | None => session_fails (ELA_GENERAL_ERROR ELAERR_NOT_EXIST) ws
    | Some s =>
        if negb (s_state s =? ElaStreamState_connected) then session_fails (ELA_GENERAL_ERROR ELAERR_WRONG_STATE) ws
        else
          '(written, s) ←
            match s_pipe s with
            | Plain _ => Ok (u32 (ELA_GENERAL_ERROR ELAERR_WRONG_STATE), s)
            | Muxed _ => on_mux (multiplex_handler_write_channel now channel (flex_buffer_from FLEX_PADDING_LEN bytes)) s
            end;
          let ws := { ws with ws_streams ::= set_stream s } in
          Ok (written, if written <? 0 then { ws with ws_errno := written } else ws)
    end.

Definition ela_stream_pend_channel (now : timeval) (stream channel : Z) ws :=
  zero_if_done (stream_call (channel <=? 0) stream (on_mux (multiplex_handler_pend_channel now channel)) ws).

Definition ela_stream_resume_channel (now : timeval) (stream channel : Z) ws :=
  zero_if_done (stream_call (channel <=? 0) stream (on_mux (multiplex_handler_resume_channel now channel)) ws).

(** ** Services for port forwarding *)

Definition ela_session_add_service (service host port : option string) (protocol : Z) ws :
    Z * ElaSession next heap cb ids tr :=
  match service, host, port with
  | Some (String.String _ _ as name), Some (String.String _ _ as host), Some (String.String _ _ as port) =>
      if negb (protocol =? PortForwardingProtocol_TCP)
      then (-1, { ws with ws_errno := ELA_GENERAL_ERROR ELAERR_INVALID_ARGS })
      else
        let services := default ht_empty (ws_services ws) in
        let ws := { ws with ws_services := Some services } in
        if ht_exist services name then (-1, { ws with ws_errno := ELA_GENERAL_ERROR ELAERR_ALREADY_EXIST })
        else
          let svc := {| svc_name := name; svc_host := host; svc_port := port; svc_protocol := protocol |} in
          (0, { ws with ws_services := Some (ht_put name svc services) })
  | _, _, _ => (-1, { ws with ws_errno := ELA_GENERAL_ERROR ELAERR_INVALID_ARGS })
  end.

Definition ela_session_remove_service (service : option string) ws : ElaSession next heap cb ids tr :=
  match service with
  | Some (String.String _ _ as name) =>
      { ws with ws_services ::= fmap (ht_remove name) }
  | _ => { ws with ws_errno := ELA_GENERAL_ERROR ELAERR_INVALID_ARGS }
  end.

(** ** The session *)

(** [None] for a null argument; [found], [created], [turn], [worker] and [inited] are
    whether the address is a friend and the results of [create_session],
    [ela_get_turn_server], [create_worker] and [init], [transport] is what the
    transport's session starts with. *)
Definition ela_session_new `{!KeyExchange} (ext : option (SessionExtension cb ids)) (address : option string)
    (found : bool) (created turn worker inited : Z) (transport : tr) : Z + ElaSession next heap cb ids tr :=
  match address with
  | None => inl (ELA_GENERAL_ERROR ELAERR_INVALID_ARGS)
  | Some to =>
      match ext with
      | None => inl (ELA_GENERAL_ERROR ELAERR_NOT_EXIST)
      | Some ext =>
          if negb found then inl (ELA_GENERAL_ERROR ELAERR_NOT_EXIST)
          else if negb (ext_transport ext) then inl (ELA_GENERAL_ERROR ELAERR_NOT_EXIST)
          else if negb (created =? 0) then inl created
          else if turn <? 0 then inl turn
          else if worker <? 0 then inl worker
          else if inited <? 0 then inl inited
          else
            inr {| ws_errno := 0; ws_ext := ext; ws_to := to; ws_worker := true; ws_offerer := false;
                   ws_complete_callback := false; ws_userdata := 0; ws_streams := [];
                   ws_transport := transport;
                   ws_public_key := zeroed (Z.of_nat PUBLIC_KEY_BYTES);
                   ws_secret_key := zeroed (Z.of_nat SECRET_KEY_BYTES);
                   ws_peer_pubkey := zeroed (Z.of_nat PUBLIC_KEY_BYTES);
                   ws_nonce := zeroed (Z.of_nat NONCE_BYTES); ws_credential := zeroed (Z.of_nat NONCE_BYTES);
                   ws_crypto_enabled := false; ws_crypto_key := zeroed (Z.of_nat SYMMETRIC_KEY_BYTES);
                   ws_services := None; ws_events := [] |}
      end
  end.

(** The peer's address into an area of [size] bytes. *)
Definition ela_session_get_peer (size : Z) ws : Z + string :=
  if size =? 0 then inl (ELA_GENERAL_ERROR ELAERR_INVALID_ARGS)
  else if size <=? strlen (ws_to ws) then inl (ELA_GENERAL_ERROR ELAERR_BUFFER_TOO_SMALL)
  else inr (ws_to ws).

Definition ela_session_set_userdata (userdata : Z) ws : ElaSession next heap cb ids tr :=
  { ws with ws_userdata := userdata }.
Definition ela_session_get_userdata ws : Z := ws_userdata ws.

(** The streams' handlers read the key and the nonce of their session. *)
Definition share_keys ws : ElaSession next heap cb ids tr :=
  { ws with ws_streams ::= map (fun s => { s with s_pipe ::= map_lower (lower_set_keys (ws_crypto_key ws) (ws_nonce ws)) }) }.

Definition cleared (l : list byte) : list byte := zeroed (Z.of_nat (length l)).

Definition session_internal_close ws : ElaSession next heap cb ids tr :=
  let ws := { ws with ws_streams ::= map (stream_stop 0) } in
  let ws := { ws with ws_worker := false } in
  share_keys { ws with ws_secret_key ::= cleared; ws_credential ::= cleared; ws_nonce ::= cleared;
                       ws_crypto_key ::= cleared }.

(** The extension and the streams as the last reference to the session leaves them. *)
Definition ela_session_close ws : SessionExtension cb ids * list (ElaStream next heap) :=
  let ws := session_internal_close ws in
  (ws_ext (foldl (fun ws s => deref_stream s ws) ws (ws_streams ws)), ws_streams ws).
End Session.

(** portforwarding.c: the worker of a multiplexer. *)
Class PortForwarding (mux : Type) := {
  pf_open : mux -> string -> string -> string -> Z * mux;
  pf_close : mux -> Z -> mux
}.

Section PortForwarding.
Context `{!HashTables, !Stack, !ChannelApp} {next heap cb ids tr : Type}
  `{!Next next, !Lower next tr, !IdsHeap heap, !IdsHeap ids, !PortForwarding (MultiplexHandler next heap)}.
Implicit Types ws : ElaSession next heap cb ids tr.

Definition multiplex_handler_open_portforwarding (service : string) (protocol : Z) (host port : string)
    (m : MultiplexHandler next heap) : Res (Z * MultiplexHandler next heap) :=
  _ ← c_assert (negb (str_eqb service ""));
  _ ← c_assert (protocol =? PortForwardingProtocol_TCP);
  _ ← c_assert (negb (str_eqb host "") && negb (str_eqb port ""));
  if negb (mx_worker m) then Ok (ELA_GENERAL_ERROR ELAERR_WRONG_STATE, m) else Ok (pf_open m service host port).

Definition multiplex_handler_close_portforwarding (portforwarding : Z) (m : MultiplexHandler next heap) :
    Res (Z * MultiplexHandler next heap) :=
  _ ← c_assert (0 <? portforwarding);
  Ok (0, if mx_worker m then pf_close m portforwarding else m).

Definition ela_stream_open_port_forwarding (stream : Z) (service : option string) (protocol : Z)
    (host port : option string) ws : Res (Z * ElaSession next heap cb ids tr) :=
  stream_call (null_or_empty service || null_or_empty port || negb (protocol =? PortForwardingProtocol_TCP)) stream
    (fun s =>
       if (protocol =? PortForwardingProtocol_TCP) && negb (s_reliable s)
       then Ok (ELA_GENERAL_ERROR ELAERR_WRONG_STATE, s)
       else
         let host := if null_or_empty host then "127.0.0.1"%string else or_empty host in
         if negb (s_portforwarding s) then Ok (ELA_GENERAL_ERROR ELAERR_WRONG_STATE, s)
         else on_mux (multiplex_handler_open_portforwarding (or_empty service) protocol host (or_empty port)) s) ws.

Definition ela_stream_close_port_forwarding (stream portforwarding : Z) ws : Res (Z * ElaSession next heap cb ids tr) :=
  zero_if_done
    (stream_call (portforwarding <=? 0) stream
       (fun s => if negb (s_portforwarding s) then Ok (ELA_GENERAL_ERROR ELAERR_WRONG_STATE, s)
                 else on_mux (multiplex_handler_close_portforwarding portforwarding) s) ws).
End PortForwarding.

(** ** Requests, replies, the start *)

Section Requests.
Context `{!HashTables, !Base58, !Stack, !ChannelApp, !KeyExchange} {dht buffer next heap cb ids tr : Type}
  `{!Dht dht buffer, !FlatBuffers buffer, !Next next, !Lower next tr, !IdsHeap heap, !IdsHeap ids,
    !SdpLayer (ElaSession next heap cb ids tr)}.
Implicit Types ws : ElaSession next heap cb ids tr.

(** The loops over the streams stop at the first that fails. *)
Fixpoint prepare_streams (transport : tr) (l : list (ElaStream next heap)) : Z * list (ElaStream next heap) :=
  match l with
  | [] => (0, [])
  | s :: l =>
      let '(rc, p) := pipe_prepare transport (s_pipe s) in
      let s := { s with s_pipe := p } in
      if negb (rc =? 0) then (rc, s :: l)
      else let '(rc, l) := prepare_streams transport l in (rc, s :: l)
  end.

Definition prepare_session ws : Z * ElaSession next heap cb ids tr :=
  let '(rc, l) := prepare_streams (ws_transport ws) (ws_streams ws) in (rc, { ws with ws_streams := l }).

Definition set_fresh_keys (keys : fresh_keys) ws : ElaSession next heap cb ids tr :=
  share_keys { ws with ws_public_key := fk_public keys; ws_secret_key := fk_secret keys;
                       ws_nonce := fk_nonce keys; ws_credential := fk_credential keys }.

(** The description with its terminator, in the area of [SDP_MAX_LEN] bytes. *)
Definition local_description ws : Res (Z + list byte) :=
  sdp ← encode_local_sdp SDP_MAX_LEN ws;
  match sdp with
  | inl rc => Ok (inl rc)
  | inr sdp =>
      if Z.of_nat (length sdp) <? SDP_MAX_LEN then Ok (inr (sdp ++ [Init.Byte.x00])) else Fault BufferOverflow
  end.

Definition peer_address ws : Res string :=
  strcpy (ELA_MAX_ID_LEN + strlen extension_name + 2) (ws_to ws +:+ ":" +:+ extension_name).

(** [fn] is [friend_invite_response] and [self] the session as its context. *)
Definition ela_session_request (bundle : option string) (callback : bool) (keys : fresh_keys)
    (fn self tid uninit now : Z) (w : ElaCarrier dht) ws :
    Res (Z * ElaCarrier dht * ElaSession next heap cb ids tr) :=
  let failed (code : Z) ws := Ok (-1, w, { ws with ws_errno := code }) in
  if negb callback || bad_bundle bundle then failed (ELA_GENERAL_ERROR ELAERR_INVALID_ARGS) ws
  else if Z.of_nat (length (ws_streams ws)) =? 0 then failed (ELA_GENERAL_ERROR ELAERR_WRONG_STATE) ws
  else
    let '(offered, ws) := set_offer true { ws with ws_offerer := true } in
    if negb offered then failed (ELA_GENERAL_ERROR ELAERR_WRONG_STATE) ws
    else
      let '(rc, ws) := prepare_session (set_fresh_keys keys ws) in
      if negb (rc =? 0) then failed rc ws
      else
        sdp ← local_description ws;
        match sdp with
        | inl rc => failed rc ws
        | inr sdp =>
            let ws := { ws with ws_complete_callback := true } in
            ext_to ← peer_address ws;
            '(rc, w) ← ela_invite_friend w (Some ext_to) bundle (Some sdp) fn self tid uninit now;
            Ok (rc, w, ws)
        end.

Definition friend_invite_response (bundle : option string) (status : Z) (reason : option string)
    (data : list byte) (len : Z) ws : ElaSession next heap cb ids tr :=
  if ws_complete_callback ws
  then { ws with ws_events ::= cons {| rp_bundle := bundle; rp_status := status; rp_reason := reason;
                                       rp_data := data; rp_len := len |} }
  else ws.

Definition ela_session_reply_request (bundle : option string) (status : Z) (reason : option string)
    (keys : fresh_keys) (w : ElaCarrier dht) ws : Res (Z * ElaCarrier dht * ElaSession next heap cb ids tr) :=
  let failed (code : Z) ws := Ok (-1, w, { ws with ws_errno := code }) in
  if (negb (status =? 0) && negb (bool_decide (is_Some reason))) || bad_bundle bundle
  then failed (ELA_GENERAL_ERROR ELAERR_INVALID_ARGS) ws
  else
    let '(offered, ws) := set_offer false { ws with ws_offerer := false } in
    if negb offered then failed (ELA_GENERAL_ERROR ELAERR_WRONG_STATE) ws
    else
      let ws := set_fresh_keys keys ws in
      let reply sdp ws :=
        ext_to ← peer_address ws;
        '(rc, w) ← ela_reply_friend_invite w (Some ext_to) bundle status reason sdp;
        Ok (rc, w, ws) in
      if status =? 0 then
        if Z.of_nat (length (ws_streams ws)) =? 0 then failed (ELA_GENERAL_ERROR ELAERR_WRONG_STATE) ws
        else
          let '(rc, ws) := prepare_session ws in
          if negb (rc =? 0) then failed rc ws
          else
            sdp ← local_description ws;
            match sdp with
            | inl rc => failed rc ws
            | inr sdp => reply (Some sdp) ws
            end
      else reply None ws.

Definition start_stream (timer worker : Z) (s : ElaStream next heap) : Res (ElaStream next heap) :=
  if negb (s_deactivate s)
  then '(_, p) ← pipe_start timer worker (s_pipe s); Ok { s with s_pipe := p }
  else Ok { s with s_pipe ::= map_lower (lower_fire_state_changed ElaStreamState_deactivated) }.

Definition is_ready_stream (s : ElaStream next heap) : bool := s_state s =? ElaStreamState_transport_ready.

Definition ela_session_start (timer worker : Z) (sdp : option (list byte)) ws :
    Res (Z * ElaSession next heap cb ids tr) :=
  let text := default [] sdp in
  if Z.of_nat (length text) =? 0 then session_fails (ELA_GENERAL_ERROR ELAERR_INVALID_ARGS) ws
  else if Z.of_nat (length (ws_streams ws)) =? 0 then session_fails (ELA_GENERAL_ERROR ELAERR_WRONG_STATE) ws
  else
    let ws :=
      if ws_crypto_enabled ws
      then share_keys { ws with ws_crypto_key ::= crypto_compute_symmetric_key (ws_peer_pubkey ws) (ws_secret_key ws) }
      else ws in
    if negb (forallb is_ready_stream (ws_streams ws))
    then session_fails (ELA_GENERAL_ERROR ELAERR_WRONG_STATE) ws
    else
      '(rc, ws) ← apply_remote_sdp (take (length text - 1) text) ws;
      if rc <? 0 then session_fails rc ws
      else l ← mapM (start_stream timer worker) (ws_streams ws); Ok (0, { ws with ws_streams := l }).
End Requests.
