(* ===== verification/SessionDispatch.v ===== *)
(** * Which callback a request is given to

    The callbacks of the session extension are kept in a list, longer prefixes first,
    and a request goes to the first whose prefix begins its bundle.  The reference is
    a map from prefixes to callbacks and the longest prefix of the bundle in it. *)

From Stdlib Require Import Sorted.
From S2P Require Import Prelude ElaError Carrier Invite Session.

Section Dispatch.
Context {cb ids : Type}.
Implicit Types (ext : SessionExtension cb ids) (m : gmap string (option cb)).
Implicit Types l : list (BundledRequestCallback cb).

(** Registering; a null callback takes a prefix away, or registers a null callback
    where there is none. *)
Definition register (p : string) (f : option cb) m : gmap string (option cb) :=
  match f, m !! p with None, Some _ => delete p m | _, _ => <[p := f]> m end.

(** The longest prefix of [b] in the map, from [n] characters down. *)
Fixpoint longest (n : nat) (b : string) m : option (option cb) :=
  match m !! String.substring 0 n b with
  | Some v => Some v
  | None => match n with O => None | S n => longest n b m end
  end.

Record registry := { reg_default : option cb; reg_map : gmap string (option cb) }.
Definition no_callbacks : registry := {| reg_default := None; reg_map := ∅ |}.

Definition set_in_registry (r : registry) (c : option string * option cb) : registry :=
  match c with
  | (Some (String.String _ _ as p), f) =>
      if strlen p >? ELA_MAX_BUNDLE_LEN then r else {| reg_default := reg_default r; reg_map := register p f (reg_map r) |}
  | (_, f) => {| reg_default := f; reg_map := reg_map r |}
  end.

(** What a request with this bundle is given to. *)
Definition dispatch (r : registry) (bundle : option string) : option cb :=
  match bundle with
  | Some (String.String _ _ as b) =>
      match longest (String.length b) b (reg_map r) with Some (Some f) => Some f | _ => reg_default r end
  | _ => reg_default r
  end.

(** ** The list stands for the map *)

(** Longer prefixes first, each once, and the entries of the map. *)
Record stands_for l m : Prop := {
  sf_sorted : StronglySorted (fun a b => strlen (brc_prefix b) <= strlen (brc_prefix a)) l;
  sf_nodup : NoDup (brc_prefix <$> l);
  sf_entries p v : m !! p = Some v <-> {| brc_prefix := p; brc_callback := v |} ∈ l
}.

Lemma brc_eta (a : BundledRequestCallback cb) : {| brc_prefix := brc_prefix a; brc_callback := brc_callback a |} = a.
Proof. by destruct a. Qed.

Lemma sf_lookup l m a : stands_for l m -> a ∈ l -> m !! brc_prefix a = Some (brc_callback a).
Proof. intros Hm Ha. apply (sf_entries _ _ Hm). by rewrite brc_eta. Qed.

Lemma sf_absent l m p : stands_for l m -> (forall a, a ∈ l -> brc_prefix a <> p) -> m !! p = None.
Proof.
  intros Hm Hno. destruct (m !! p) as [v|] eqn:E; [|done].
  apply (sf_entries _ _ Hm) in E. by destruct (Hno _ E).
Qed.

(** Taking an entry off the head. *)
Lemma sf_cons a l m : stands_for (a :: l) m -> stands_for l (delete (brc_prefix a) m).
Proof.
  intros Hm. pose proof (sf_sorted _ _ Hm) as Hs. pose proof (sf_nodup _ _ Hm) as Hn. rewrite fmap_cons in Hn.
  apply StronglySorted_inv in Hs as [Hs _]. apply NoDup_cons in Hn as [Hna Hn].
  split; [done|done|]. intros p v. rewrite lookup_delete_Some, (sf_entries _ _ Hm). split.
  - intros [Hne [<-|Hin]%elem_of_cons]; done.
  - intros Hin. split; [|by right]. intros E. apply Hna. rewrite E.
    apply list_elem_of_fmap. by exists {| brc_prefix := p; brc_callback := v |}.
Qed.

Lemma sf_push a l m : stands_for l m -> m !! brc_prefix a = None ->
  (forall b, b ∈ l -> strlen (brc_prefix b) <= strlen (brc_prefix a)) ->
  stands_for (a :: l) (<[brc_prefix a := brc_callback a]> m).
Proof.
  intros Hm Hnone Hle. split.
  - constructor; [apply (sf_sorted _ _ Hm)|]. by apply Forall_forall.
  - rewrite fmap_cons. constructor; [|apply (sf_nodup _ _ Hm)]. intros (b & E & Hb)%list_elem_of_fmap.
    rewrite E, (sf_lookup _ _ _ Hm Hb) in Hnone. done.
  - intros p v. rewrite lookup_insert_Some, (sf_entries _ _ Hm), elem_of_cons. split.
    + intros [[<- <-]|[_ ?]]; [left; apply brc_eta|by right].
    + intros [E|Hin]; [left; by rewrite <- E|]. right. split; [|done]. intros E.
      apply (sf_entries _ _ Hm) in Hin. congruence.
Qed.

Lemma sorted_head a l m b : stands_for (a :: l) m -> b ∈ l -> strlen (brc_prefix b) <= strlen (brc_prefix a).
Proof.
  intros Hm Hb. pose proof (sf_sorted _ _ Hm) as Hs. apply StronglySorted_inv in Hs as [_ Hs].
  by apply (proj1 (Forall_forall _ _) Hs).
Qed.

Lemma place_elem p f l a : a ∈ place_callback p f l -> brc_prefix a = p \/ a ∈ l.
Proof.
  induction l as [|b l IH]; cbn.
  - intros ->%list_elem_of_singleton. by left.
  - assert (a = b \/ a ∈ place_callback p f l -> brc_prefix a = p \/ a ∈ b :: l) as Hskip.
    { intros [-> |Hin]; [right; left|]. destruct (IH Hin); [by left|right; by right]. }
    destruct (_ =? _); [destruct (str_eqb _ _) eqn:E|destruct (_ <? _)].
    + destruct f; [|intros Hin; right; by right]. intros [-> |Hin]%elem_of_cons; [left; by apply str_eqb_eq|].
      right. by right.
    + by intros Hin%elem_of_cons; apply Hskip.
    + intros [-> |Hin]%elem_of_cons; [by left|by right].
    + by intros Hin%elem_of_cons; apply Hskip.
Qed.

Lemma register_other p f m q v : p <> q -> m !! q = Some v ->
  <[q := v]> (register p f (delete q m)) = register p f m.
Proof.
  intros Hne Hq. unfold register. rewrite lookup_delete_ne by done.
  assert (forall m', <[q := v]> (delete q m') = <[q := v]> m') as Hd by (intros; apply insert_delete_eq).
  destruct f as [f|], (m !! p) as [w|] eqn:E; rewrite ?(insert_insert_ne _ q p) by done;
    rewrite ?Hd, ?(insert_id m q) by done; try done.
  rewrite <- delete_insert_ne by done. by rewrite Hd, insert_id.
Qed.

Lemma place_spec p f l m : stands_for l m -> stands_for (place_callback p f l) (register p f m).
Proof.
  revert m. induction l as [|a l IH]; intros m Hm.
  - assert (m !! p = None) as Hno by (eapply sf_absent; [exact Hm|]; by intros ? ?%not_elem_of_nil).
    unfold register. rewrite Hno. replace (match f with Some _ => _ | None => _ end) with (<[p := f]> m) by by destruct f.
    apply (sf_push {| brc_prefix := p; brc_callback := f |} [] m); [done|done|]. by intros ? ?%not_elem_of_nil.
  - pose proof (sf_lookup _ _ a Hm ltac:(by left)) as Ha. pose proof (sf_cons _ _ _ Hm) as Hl.
    assert (brc_prefix a <> p -> strlen p <= strlen (brc_prefix a) ->
      stands_for (a :: place_callback p f l) (register p f m)) as Hskip.
    { intros Hne Hle. rewrite <- (register_other p f m (brc_prefix a) (brc_callback a)) by done.
      apply sf_push; [by apply IH| |].
      - unfold register. rewrite lookup_delete_ne by done. destruct f, (m !! p); cbn;
          rewrite ?lookup_delete_ne, ?lookup_insert_ne by done; by rewrite lookup_delete_eq.
      - intros b [-> |Hb]%place_elem; [done|]. by apply (sorted_head a l m b). }
    cbn. destruct (Z.eqb_spec (strlen (brc_prefix a)) (strlen p)) as [El|El].
    + destruct (str_eqb (brc_prefix a) p) eqn:Ep; [apply str_eqb_eq in Ep|apply str_eqb_neq in Ep; apply Hskip; [done|lia]].
      unfold register. rewrite <- Ep, Ha. destruct f as [f|]; [|done]. rewrite <- insert_delete_eq.
      apply (sf_push {| brc_prefix := brc_prefix a; brc_callback := Some f |} l); [done|apply lookup_delete_eq|].
      intros b Hb. by apply (sorted_head a l m b).
    + destruct (Z.ltb_spec (strlen (brc_prefix a)) (strlen p)) as [Hlt|Hge]; [|apply Hskip; [congruence|lia]].
      assert (forall b, b ∈ a :: l -> strlen (brc_prefix b) < strlen p) as Hsh.
      { intros b [-> |Hb]%elem_of_cons; [done|]. pose proof (sorted_head a l m b Hm Hb). lia. }
      assert (m !! p = None) as Hno.
      { apply (sf_absent _ _ _ Hm). intros b Hb <-. specialize (Hsh b Hb). lia. }
      unfold register. rewrite Hno. replace (match f with Some _ => _ | None => _ end) with (<[p := f]> m) by by destruct f.
      apply (sf_push {| brc_prefix := p; brc_callback := f |} (a :: l) m); [done|done|].
      intros b Hb. specialize (Hsh b Hb). cbn. lia.
Qed.

(** ** The first that fits is the longest *)

Lemma substring_length b n : (n <= String.length b)%nat -> String.length (String.substring 0 n b) = n.
Proof. revert n. induction b as [|c b IH]; intros [|n] Hn; cbn in *; try done; try lia. rewrite IH by lia. done. Qed.

Lemma substring_prefix b n : (n <= String.length b)%nat -> String.prefix (String.substring 0 n b) b = true.
Proof. intros Hn. apply String.prefix_correct. by rewrite substring_length. Qed.

Lemma prefix_le p b : String.prefix p b = true -> (String.length p <= String.length b)%nat.
Proof.
  revert b. induction p as [|c p IH]; intros [|d b] Hp; cbn in *; try done; try lia.
  destruct (Ascii.ascii_dec c d); [|done]. specialize (IH b Hp). lia.
Qed.

Lemma longest_at n b m k v : (k <= n)%nat -> m !! String.substring 0 k b = Some v ->
  (forall k', (k < k' <= n)%nat -> m !! String.substring 0 k' b = None) -> longest n b m = Some v.
Proof.
  induction n as [|n IH]; intros Hk Hv Hno; cbn [longest].
  - assert (k = 0%nat) as -> by lia. by rewrite Hv.
  - destruct (decide (k = S n)) as [->|Hne]; [by rewrite Hv|].
    rewrite Hno by lia. apply IH; [lia|done|]. intros k' Hk'. apply Hno. lia.
Qed.

Lemma longest_delete n b m p : (forall k, (k <= n)%nat -> String.substring 0 k b <> p) ->
  longest n b (delete p m) = longest n b m.
Proof.
  induction n as [|n IH]; intros Hno; cbn [longest]; rewrite lookup_delete_ne by (intros E; by apply (Hno _ (le_n _))); [done|].
  rewrite IH; [done|]. intros k Hk. apply Hno. lia.
Qed.

Lemma longest_empty n b m : (forall p, m !! p = None) -> longest n b m = None.
Proof. intros Hm. induction n as [|n IH]; cbn [longest]; by rewrite Hm. Qed.

Lemma find_longest l m b : stands_for l m ->
  brc_callback ∘ snd <$> list_find (fun brc => String.prefix (brc_prefix brc) b) l = longest (String.length b) b m.
Proof.
  revert m. induction l as [|a l IH]; intros m Hm.
  { symmetry. apply longest_empty. intros p. apply (sf_absent _ _ _ Hm). by intros ? ?%not_elem_of_nil. }
  cbn [list_find]. destruct (decide _) as [Hp|Hp].
  - apply Is_true_true in Hp. cbn. symmetry.
    apply (longest_at _ _ _ (String.length (brc_prefix a))); [by apply prefix_le| |].
    + rewrite (proj1 (String.prefix_correct _ _) Hp). apply (sf_lookup _ _ a Hm). by left.
    + intros k [Hlo Hhi]. apply (sf_absent _ _ _ Hm). intros c Hc E.
      assert (strlen (brc_prefix c) <= strlen (brc_prefix a)) as Hle.
      { apply elem_of_cons in Hc as [-> |Hc]; [done|]. by apply (sorted_head a l m). }
      unfold strlen in Hle. rewrite E, substring_length in Hle by lia. lia.
  - assert (String.prefix (brc_prefix a) b = false) as Hp' by (by destruct (String.prefix _ _); [destruct Hp|]).
    rewrite <- (longest_delete _ _ _ (brc_prefix a)).
    + rewrite <- (IH _ (sf_cons _ _ _ Hm)). by destruct (list_find _ l) as [[i c]|].
    + intros k Hk E. rewrite <- E, substring_prefix in Hp' by done. done.
Qed.

(** ** Any history of registrations *)

Definition set_callbacks (w : option (SessionExtension cb ids)) (history : list (option string * option cb)) :
    option (SessionExtension cb ids) :=
  foldl (fun (w : option (SessionExtension cb ids)) c => (ela_session_set_callback w c.1 c.2).2) w history.

Definition agrees (r : registry) ext : Prop :=
  ext_default ext = reg_default r /\ stands_for (ext_callbacks ext) (reg_map r).

Lemma set_callback_agrees r ext c : agrees r ext ->
  exists ext', (ela_session_set_callback (Some ext) c.1 c.2).2 = Some ext' /\
    agrees (set_in_registry r c) ext' /\ ext_calls ext' = ext_calls ext.
Proof.
  intros [Hd Hm]. destruct c as [[[|a p]|] f]; cbn [fst snd]; try (by eexists).
  unfold ela_session_set_callback, set_in_registry. destruct (_ >? _); [by eexists|].
  eexists. split; [done|]. split; [|done]. split; [done|]. by apply place_spec.
Qed.

Lemma set_callbacks_agree r ext history : agrees r ext ->
  exists ext', set_callbacks (Some ext) history = Some ext' /\ agrees (foldl set_in_registry r history) ext' /\
    ext_calls ext' = ext_calls ext.
Proof.
  revert r ext. induction history as [|c history IH]; intros r ext Ha; [by eexists|].
  destruct (set_callback_agrees r ext c Ha) as (ext1 & E1 & Ha1 & Hc1). unfold set_callbacks. cbn [foldl]. rewrite E1.
  destruct (IH _ _ Ha1) as (ext2 & E2 & Ha2 & Hc2). exists ext2. split; [exact E2|]. split; [done|]. by rewrite Hc2.
Qed.

Lemma find_callback_dispatch r ext c b : agrees r ext ->
  find_callback ext (String.String c b) = dispatch r (Some (String.String c b)).
Proof.
  intros [Hd Hm]. unfold find_callback, dispatch. rewrite <- (find_longest _ _ _ Hm), <- Hd.
  by destruct (list_find _ _) as [[i [p [f|]]]|].
Qed.

Lemma friend_invite_dispatch r ext from bundle data len : agrees r ext ->
  ext_calls (friend_invite ext from bundle data len) =
    match dispatch r bundle with
    | Some f => {| rq_callback := f; rq_from := from;
                   rq_bundle := if null_or_empty bundle then None else bundle; rq_data := data; rq_len := len |}
                :: ext_calls ext
    | None => ext_calls ext
    end.
Proof.
  intros Ha. pose proof Ha as [Hd _]. destruct bundle as [[|c b]|]; unfold friend_invite.
  - cbn. rewrite Hd. by destruct (reg_default r).
  - rewrite (find_callback_dispatch r) by done. by destruct (dispatch _ _).
  - cbn. rewrite Hd. by destruct (reg_default r).
Qed.

(** C15. Dispatch of requests.  Whatever callbacks were registered, replaced and taken
    away before, a request is given to exactly one callback, once and as it came: the
    one registered for the longest prefix of its bundle, or the default callback when
    there is no such prefix, when its callback is null, or when there is no bundle. *)
Theorem request_dispatch empty_ids history from bundle data len :
  exists ext, set_callbacks (snd <$> (ela_session_init 0 empty_ids None).2) history = Some ext /\
  let r := foldl set_in_registry no_callbacks history in
  ext_calls (friend_invite ext from bundle data len) =
    match dispatch r bundle with
    | Some f => [{| rq_callback := f; rq_from := from;
                    rq_bundle := if null_or_empty bundle then None else bundle; rq_data := data; rq_len := len |}]
    | None => []
    end.
Proof.
  destruct (set_callbacks_agree no_callbacks
    {| ext_default := None; ext_callbacks := []; ext_transport := true; ext_stream_ids := empty_ids; ext_calls := [] |}
    history) as (ext & E & Ha & Hc).
  - split; [done|]. split; [constructor|constructor|]. intros p v. cbn. rewrite lookup_empty.
    split; [done|]. by intros ?%not_elem_of_nil.
  - exists ext. split; [exact E|]. cbv zeta. rewrite (friend_invite_dispatch _ ext) by exact Ha. by rewrite Hc.
Qed.
End Dispatch.
