(* ===== verification/SessionProps.v ===== *)
(** * The streams of a session

    Every call of the application and every report from below as a step of the session
    with its node; the invariant of the table of streams and their numbers; what the
    start and the end of a session do; what the keys depend on. *)

From S2P Require Import Prelude ElaError ElaCP Carrier Invite FlexBuffer Multiplex MultiplexProps Session.

(** What is relied on of the layers below: the state of a stream is what was set last and
    does not depend on the keys; a transport that failed to initialise holds no
    reference. *)
Class LowerLaws (next tr : Type) `{!Lower next tr} := {
  lower_state_set state (n : next) : lower_state (lower_set_state state n) = state;
  lower_state_keys key nonce (n : next) : lower_state (lower_set_keys key nonce n) = lower_state n;
  lower_held_new reliable unencrypt : lower_held (lower_create reliable unencrypt) = false;
  lower_held_state state (n : next) : lower_held (lower_set_state state n) = lower_held n;
  lower_held_keys key nonce (n : next) : lower_held (lower_set_keys key nonce n) = lower_held n;
  lower_init_failed (n n' : next) rc : lower_init n = (rc, n') -> rc < 0 -> lower_held n' = false
}.

(** The numbers of the streams of a session, and all that are in use. *)
Definition stream_ids `{!HashTables} {next heap cb ids tr} (ws : ElaSession next heap cb ids tr) : list Z :=
  s_id <$> ws_streams ws.
Definition numbers `{!HashTables} {next heap cb ids tr} `{!IdsHeap ids, !IdsHeapLaws ids}
    (ws : ElaSession next heap cb ids tr) : gset Z := ids_used (ext_stream_ids (ws_ext ws)).

(** The same streams and the same numbers in use. *)
Definition same_table `{!HashTables} {next heap cb ids tr} (ws ws' : ElaSession next heap cb ids tr) : Prop :=
  stream_ids ws' = stream_ids ws /\ ext_stream_ids (ws_ext ws') = ext_stream_ids (ws_ext ws).

(** The same peer, the same public key of it and the same key. *)
Definition same_peer `{!HashTables} {next heap cb ids tr} (ws ws' : ElaSession next heap cb ids tr) : Prop :=
  ws_to ws' = ws_to ws /\ ws_peer_pubkey ws' = ws_peer_pubkey ws /\ ws_crypto_key ws' = ws_crypto_key ws.
Definition same_session `{!HashTables} {next heap cb ids tr} (ws ws' : ElaSession next heap cb ids tr) : Prop :=
  same_table ws ws' /\ same_peer ws ws'.

(** The descriptions of a session do not touch its table of streams and its key. *)
Class SdpLaws `{!HashTables} {next heap cb ids tr} `{!SdpLayer (ElaSession next heap cb ids tr)} := {
  set_offer_keeps offerer ws : same_session ws (set_offer offerer ws).2;
  apply_sdp_keeps sdp ws rc ws' : apply_remote_sdp sdp ws = Ok (rc, ws') ->
    same_table ws ws' /\ ws_crypto_key ws' = ws_crypto_key ws
}.
Arguments SdpLaws {_} next heap cb ids tr {_}.

Lemma singleton_back (id : Z) (X : gset Z) : id ∉ X -> ({[id]} ∪ X) ∖ {[id]} = X.
Proof. set_solver. Qed.
Lemma union_new (id : Z) (X Y : gset Z) : {[id]} ∪ (X ∪ Y) = X ∪ (Y ∪ {[id]}).
Proof. set_solver. Qed.
Lemma disjoint_new (id : Z) (X Y : gset Z) : X ## Y -> id ∉ X -> X ## Y ∪ {[id]}.
Proof. set_solver. Qed.
(** A number leaves [Y] and the numbers in use, or only [Y]. *)
Lemma union_gone (id : Z) (X Y : gset Z) : X ## Y -> id ∈ Y -> (X ∪ Y) ∖ {[id]} = X ∪ Y ∖ {[id]} /\ X ## Y ∖ {[id]}.
Proof. intros. split; set_solver. Qed.
Lemma union_kept (id : Z) (X Y : gset Z) : X ## Y -> id ∈ Y -> X ∪ Y = (X ∪ {[id]}) ∪ Y ∖ {[id]} /\ X ∪ {[id]} ## Y ∖ {[id]}.
Proof. intros Hd Hi. split; [|set_solver]. apply set_eq. intros x. destruct (decide (x = id)); set_solver. Qed.

Lemma filter_absent (id : Z) (l : list Z) : id ∉ l -> filter (fun x => x <> id) l = l.
Proof.
  induction l as [|x l IH]; [done|]. intros [Hne Hno]%not_elem_of_cons. rewrite filter_cons_True by congruence. by rewrite IH.
Qed.
Lemma filter_forall {P : Z -> Prop} (id : Z) (l : list Z) : Forall P l -> Forall P (filter (fun x => x <> id) l).
Proof. rewrite !Forall_forall. intros Hl x [_ Hx]%list_elem_of_filter. by apply Hl. Qed.

Section Steps.
Context `{!HashTables, !Base58, !Stack, !ChannelApp, !KeyExchange} {dht buffer next heap cb ids tr : Type}
  `{!Dht dht buffer, !FlatBuffers buffer, !Next next, !Lower next tr, !IdsHeap heap, !IdsHeap ids,
    !PortForwarding (MultiplexHandler next heap), !SdpLayer (ElaSession next heap cb ids tr)}.
Implicit Types s : ElaStream next heap.
Implicit Types ws : ElaSession next heap cb ids tr.
Implicit Types w : ElaCarrier dht.

(** What happens to a session: the calls of session.c, the answer to its request, and
    what comes up a stream from below. *)
Inductive session_call :=
| CallAddStream (type options : Z) (callbacks : option StreamCallbacks) (created handlers : Z) (empty : heap)
| CallRemoveStream (stream : Z)
| CallWrite (now : timeval) (stream : Z) (data : option (list byte))
| CallOpenChannel (now : timeval) (stream : Z) (cookie : option string)
| CallCloseChannel (stream channel : Z)
| CallWriteChannel (now : timeval) (stream channel : Z) (data : option (list byte))
| CallPendChannel (now : timeval) (stream channel : Z)
| CallResumeChannel (now : timeval) (stream channel : Z)
| CallAddService (service host port : option string) (protocol : Z)
| CallRemoveService (service : option string)
| CallOpenPortForwarding (stream : Z) (service : option string) (protocol : Z) (host port : option string)
| CallClosePortForwarding (stream portforwarding : Z)
| CallSetUserdata (userdata : Z)
| CallRequest (bundle : option string) (callback : bool) (keys : fresh_keys) (fn self tid uninit now : Z)
| CallReply (bundle : option string) (status : Z) (reason : option string) (keys : fresh_keys)
| CallStart (timer worker : Z) (sdp : option (list byte))
| OnResponse (bundle : option string) (status : Z) (reason : option string) (data : list byte) (len : Z)
| OnState (stream state : Z)
| OnData (now : timeval) (stream : Z) (buf : FlexBuffer).

(** What comes up the stream of this number, if there is one. *)
Definition on_stream (stream : Z) (f : ElaStream next heap -> Res (ElaStream next heap)) ws :
    Res (Z * ElaSession next heap cb ids tr) :=
  match get_stream stream (ws_streams ws) with
  | None => Ok (0, ws)
  | Some s => s ← f s; Ok (0, { ws with ws_streams ::= set_stream s })
  end.

Definition run_call (c : session_call) w ws : Res (Z * ElaCarrier dht * ElaSession next heap cb ids tr) :=
  let on_session (m : Res (Z * ElaSession next heap cb ids tr)) := '(rc, ws) ← m; Ok (rc, w, ws) in
  match c with
  | CallAddStream type options callbacks created handlers empty =>
      on_session (ela_session_add_stream type options callbacks created handlers empty ws)
  | CallRemoveStream stream => on_session (ela_session_remove_stream stream ws)
  | CallWrite now stream data => on_session (ela_stream_write now stream data ws)
  | CallOpenChannel now stream cookie => on_session (ela_stream_open_channel now stream cookie ws)
  | CallCloseChannel stream channel => on_session (ela_stream_close_channel stream channel ws)
  | CallWriteChannel now stream channel data => on_session (ela_stream_write_channel now stream channel data ws)
  | CallPendChannel now stream channel => on_session (ela_stream_pend_channel now stream channel ws)
  | CallResumeChannel now stream channel => on_session (ela_stream_resume_channel now stream channel ws)
  | CallAddService service host port protocol =>
      on_session (Ok (ela_session_add_service service host port protocol ws))
  | CallRemoveService service => on_session (Ok (0, ela_session_remove_service service ws))
  | CallOpenPortForwarding stream service protocol host port =>
      on_session (ela_stream_open_port_forwarding stream service protocol host port ws)
  | CallClosePortForwarding stream portforwarding =>
      on_session (ela_stream_close_port_forwarding stream portforwarding ws)
  | CallSetUserdata userdata => on_session (Ok (0, ela_session_set_userdata userdata ws))
  | CallRequest bundle callback keys fn self tid uninit now =>
      ela_session_request bundle callback keys fn self tid uninit now w ws
  | CallReply bundle status reason keys => ela_session_reply_request bundle status reason keys w ws
  | CallStart timer worker sdp => on_session (ela_session_start timer worker sdp ws)
  | OnResponse bundle status reason data len =>
      on_session (Ok (0, friend_invite_response bundle status reason data len ws))
  | OnState stream state => on_session (on_stream stream (fun s => Ok (stream_on_state_changed state s)) ws)
  | OnData now stream buf => on_session (on_stream stream (stream_on_data now buf) ws)
  end.

Fixpoint run_calls (l : list session_call) w ws : Res (ElaCarrier dht * ElaSession next heap cb ids tr) :=
  match l with
  | [] => Ok (w, ws)
  | c :: l => '(_, w, ws) ← run_call c w ws; run_calls l w ws
  end.

(** ** Operations that leave the table alone *)

Lemma same_table_trans ws1 ws2 ws3 : same_table ws1 ws2 -> same_table ws2 ws3 -> same_table ws1 ws3.
Proof. intros [E1 F1] [E2 F2]. split; congruence. Qed.
Lemma same_session_trans ws1 ws2 ws3 : same_session ws1 ws2 -> same_session ws2 ws3 -> same_session ws1 ws3.
Proof. intros [T1 (E1 & F1 & G1)] [T2 (E2 & F2 & G2)]. split; [by eapply same_table_trans|]. split_and!; congruence. Qed.

(** Only the streams changed, and not their numbers. *)
Lemma streams_changed ws (l : list (ElaStream next heap)) : s_id <$> l = stream_ids ws ->
  same_session ws { ws with ws_streams := l }.
Proof. done. Qed.

Lemma set_stream_ids s l : s_id <$> set_stream s l = s_id <$> l.
Proof.
  induction l as [|s0 l IH]; [done|]. cbn. destruct (Z.eqb_spec (s_id s0) (s_id s)) as [E|E]; cbn; [by rewrite E|].
  by f_equal.
Qed.

Lemma map_lower_ids f (l : list (ElaStream next heap)) :
  s_id <$> ((fun s => { s with s_pipe ::= map_lower f }) <$> l) = s_id <$> l.
Proof. rewrite <- list_fmap_compose. by apply list_fmap_ext. Qed.

Lemma share_keys_same ws : same_session ws (share_keys ws).
Proof. apply streams_changed, map_lower_ids. Qed.

Lemma session_fails_same code ws rc ws' : session_fails code ws = Ok (rc, ws') -> same_session ws ws'.
Proof. by intros [= _ <-]. Qed.

Lemma stream_call_same bad stream op ws rc ws' :
  (forall s rc s', op s = Ok (rc, s') -> s_id s' = s_id s) ->
  stream_call bad stream op ws = Ok (rc, ws') -> same_session ws ws'.
Proof.
  intros Hop Hc. unfold stream_call in Hc. destruct (_ || _); [by eapply session_fails_same|].
  destruct (get_stream _ _) as [s|]; [|by eapply session_fails_same].
  apply Res_bind_Ok in Hc as ([rc1 s1] & E & Hc).
  assert (same_session ws { ws with ws_streams ::= set_stream s1 }) as Hs by (apply streams_changed, set_stream_ids).
  destruct (rc1 <? 0); [|injection Hc as _ <-; done].
  eapply same_session_trans; [exact Hs|]. by eapply session_fails_same.
Qed.

Lemma when_connected_id op s rc s' : (forall s rc s', op s = Ok (rc, s') -> s_id s' = s_id s) ->
  when_connected op s = Ok (rc, s') -> s_id s' = s_id s.
Proof. intros Hop. unfold when_connected. destruct (negb _); [by intros [= _ <-]|apply Hop]. Qed.

Lemma on_mux_id f s rc s' : on_mux f s = Ok (rc, s') -> s_id s' = s_id s.
Proof.
  unfold on_mux. destruct (s_pipe s) as [n|m0]; [by intros [= _ <-]|].
  intros ([rc1 m] & _ & [= _ <-])%Res_bind_Ok. done.
Qed.

Lemma zero_if_done_same m ws rc ws' : (forall rc ws', m = Ok (rc, ws') -> same_session ws ws') ->
  zero_if_done m = Ok (rc, ws') -> same_session ws ws'.
Proof. intros Hm ([rc1 ws1] & E & [= _ <-])%Res_bind_Ok. by eapply Hm. Qed.

Lemma write_channel_same now stream channel data ws rc ws' :
  ela_stream_write_channel now stream channel data ws = Ok (rc, ws') -> same_session ws ws'.
Proof.
  unfold ela_stream_write_channel. destruct (_ || _); [apply session_fails_same|].
  destruct (get_stream _ _) as [s|]; [|apply session_fails_same]. destruct (negb _); [apply session_fails_same|].
  intros ([rc1 s1] & _ & [= _ <-])%Res_bind_Ok.
  assert (same_session ws { ws with ws_streams ::= set_stream s1 }) as Hs by (apply streams_changed, set_stream_ids).
  by destruct (_ <? 0).
Qed.

Lemma base_on_data_id d s : s_id (stream_base_on_data d s) = s_id s.
Proof. unfold stream_base_on_data. by case_match. Qed.
Lemma on_state_changed_id state s : s_id (stream_on_state_changed state s) = s_id s.
Proof. unfold stream_on_state_changed, stream_base_on_state_chagned. by repeat case_match. Qed.

Lemma foldl_id {A} (f : ElaStream next heap -> A -> ElaStream next heap) l s :
  (forall s a, s_id (f s a) = s_id s) -> s_id (foldl f s l) = s_id s.
Proof. intros Hf. revert s. induction l as [|a l IH]; intros s; [done|]. cbn. by rewrite IH. Qed.

Lemma stream_stop_id error s : s_id (stream_stop error s) = s_id s.
Proof. unfold stream_stop. rewrite foldl_id; [done|]. intros. apply on_state_changed_id. Qed.

Lemma on_data_id now buf s s' : stream_on_data now buf s = Ok s' -> s_id s' = s_id s.
Proof.
  unfold stream_on_data. destruct (s_pipe s); [intros [= <-]; apply base_on_data_id|].
  intros (m' & _ & [= <-])%Res_bind_Ok. rewrite foldl_id; [done|]. intros. apply base_on_data_id.
Qed.

Lemma on_stream_same stream f ws rc ws' : (forall s s', f s = Ok s' -> s_id s' = s_id s) ->
  on_stream stream f ws = Ok (rc, ws') -> same_session ws ws'.
Proof.
  intros Hf. unfold on_stream. destruct (get_stream _ _) as [s|]; [|by intros [= _ <-]].
  intros (s1 & E & [= _ <-])%Res_bind_Ok. apply streams_changed, set_stream_ids.
Qed.

Lemma prepare_streams_ids transport (l : list (ElaStream next heap)) : s_id <$> (prepare_streams transport l).2 = s_id <$> l.
Proof.
  induction l as [|s l IH]; [done|]. cbn [prepare_streams]. destruct (pipe_prepare _ _) as [rc p].
  destruct (negb _); [done|]. destruct (prepare_streams transport l) as [rc' l']. cbn in IH |- *. by rewrite IH.
Qed.

Lemma prepare_session_same ws : same_session ws (prepare_session ws).2.
Proof.
  unfold prepare_session. pose proof (prepare_streams_ids (ws_transport ws) (ws_streams ws)) as E.
  destruct (prepare_streams _ _) as [rc l]. by apply streams_changed.
Qed.

Lemma set_fresh_keys_same keys ws : same_session ws (set_fresh_keys keys ws).
Proof. eapply same_session_trans; [|apply share_keys_same]. done. Qed.

Lemma start_streams_ids timer worker (l l' : list (ElaStream next heap)) :
  mapM (start_stream timer worker) l = Ok l' -> s_id <$> l' = s_id <$> l.
Proof.
  revert l'. induction l as [|s l IH]; intros l' E; cbn in E; [by injection E as <-|].
  apply Res_bind_Ok in E as (s1 & E1 & E). apply Res_bind_Ok in E as (l1 & El & E). injection E as <-.
  cbn. rewrite (IH _ El). f_equal. unfold start_stream in E1. destruct (negb _); [|by injection E1 as <-].
  apply Res_bind_Ok in E1 as ([rc p] & _ & [= <-]). done.
Qed.

(** ** The table and the numbers *)

(** The numbers in use are those of [others] and those of the streams, each once. *)
Context `{!IdsHeapLaws ids, !LowerLaws next tr, !SdpLaws next heap cb ids tr}.

Record table_ok (others : gset Z) ws : Prop := {
  tk_nodup : NoDup (stream_ids ws);
  tk_positive : Forall (fun id => 0 < id) (stream_ids ws);
  tk_numbers : numbers ws = others ∪ list_to_set (stream_ids ws);
  tk_disjoint : others ## list_to_set (stream_ids ws)
}.

Lemma same_table_ok others ws ws' : same_table ws ws' -> table_ok others ws -> table_ok others ws'.
Proof. intros [E1 E2] [Hn Hp Hu Hd]. split; unfold numbers in *; rewrite ?E1, ?E2; done. Qed.

Lemma deref_numbers s ws : 0 < s_id s -> numbers (deref_stream s ws) =
  if lower_held (pipe_lower (s_pipe s)) then numbers ws else numbers ws ∖ {[s_id s]}.
Proof.
  intros Hp. unfold deref_stream. rewrite (proj2 (Z.leb_gt _ _)), orb_false_r by done.
  destruct (lower_held _); [done|]. unfold numbers. cbn. apply ids_free_spec.
Qed.

Lemma deref_ids s ws : stream_ids (deref_stream s ws) = stream_ids ws.
Proof. unfold deref_stream. by destruct (_ || _). Qed.

(** A new number that goes back at once. *)
Lemma alloc_free_ok others ws id h s : table_ok others ws -> ids_alloc (ext_stream_ids (ws_ext ws)) = (id, h) ->
  0 < id -> s_id s = id -> lower_held (pipe_lower (s_pipe s)) = false ->
  forall ws', stream_ids ws' = stream_ids ws -> ext_stream_ids (ws_ext ws') = h -> table_ok others (deref_stream s ws').
Proof.
  intros [Hn Hp Hu Hd] Ha Hid Hs Hh ws' E1 E2.
  destruct (ids_alloc_spec _ _ _ Ha) as [[? _]|(_ & Hnew & Hused)]; [lia|].
  split; rewrite ?deref_ids, ?E1; try done. rewrite deref_numbers, Hh by lia. unfold numbers in *.
  rewrite E2, Hused, Hs. rewrite (singleton_back _ _ Hnew). exact Hu.
Qed.

Lemma add_stream_ok others type options callbacks created handlers empty ws rc ws' : table_ok others ws ->
  ela_session_add_stream type options callbacks created handlers empty ws = Ok (rc, ws') -> table_ok others ws'.
Proof.
  intros Hok Hadd. unfold ela_session_add_stream in Hadd.
  destruct (_ || _); [injection Hadd as _ <-; by apply (same_table_ok _ ws)|].
  destruct (negb _); [injection Hadd as _ <-; by apply (same_table_ok _ ws)|].
  destruct (ids_alloc _) as [id h] eqn:Ha. destruct (Z.leb_spec id 0) as [Hle|Hpos].
  { destruct (ids_alloc_spec _ _ _ Ha) as [[_ Hused]|[? _]]; [|lia]. injection Hadd as _ <-.
    destruct Hok as [Hn Hp Hu Hd]. split; try done. unfold numbers in *. cbn. by rewrite Hused. }
  set (ws1 := { ws with ws_ext := _ }) in *. set (s := new_stream _ _ _ _ _ _) in *. cbv zeta in Hadd.
  assert (lower_held (pipe_lower (s_pipe s)) = false) as Hheld.
  { unfold s, new_stream. cbn [s_pipe]. by destruct (_ || _); cbn [pipe_lower mx_next multiplex_handler_create]; rewrite lower_held_keys, lower_held_state, lower_held_new. }
  destruct (handlers <? 0).
  { injection Hadd as _ <-. eapply (same_table_ok _ (deref_stream s ws1)); [done|].
    by apply (alloc_free_ok others ws id h). }
  destruct (pipe_init _) as [rc1 p] eqn:Ei. destruct (Z.ltb_spec rc1 0) as [Hneg|Hok1].
  - injection Hadd as _ <-. unfold pipe_init in Ei. destruct (lower_init _) as [rc2 n] eqn:El. injection Ei as <- <-.
    match goal with |- table_ok _ { deref_stream ?s1 ?ws2 with ws_errno := _ } =>
      eapply (same_table_ok _ (deref_stream s1 ws2)); [done|]; apply (alloc_free_ok others ws id h); try done end.
    cbn [s_pipe]. replace (pipe_lower _) with n; [by eapply lower_init_failed|].
    cbn. by destruct (if has_option _ _ || _ then _ else _).
  - injection Hadd as <- <-. destruct Hok as [Hn Hp Hu Hd].
    destruct (ids_alloc_spec _ _ _ Ha) as [[? _]|(_ & Hnew & Hused)]; [lia|]. unfold numbers in *.
    rewrite Hu in Hnew. apply not_elem_of_union in Hnew as [Hno Hnl]. rewrite elem_of_list_to_set in Hnl.
    split; unfold numbers, stream_ids in *; cbn; rewrite fmap_app; cbn [fmap list_fmap s_id].
    + apply NoDup_app. split; [done|]. split; [|apply NoDup_singleton]. intros x Hx ->%list_elem_of_singleton. done.
    + apply Forall_app. split; [done|]. by constructor.
    + rewrite Hused, Hu, list_to_set_app_L. cbn [list_to_set]. rewrite union_empty_r_L. apply union_new.
    + rewrite list_to_set_app_L. cbn [list_to_set]. rewrite union_empty_r_L. by apply disjoint_new.
Qed.

Lemma get_stream_Some stream l s : get_stream stream l = Some s -> s_id s = stream /\ stream ∈ s_id <$> l.
Proof.
  unfold get_stream. destruct (list_find _ l) as [[i s']|] eqn:E; [|done]. intros [= ->].
  apply list_find_Some in E as (Hi & Hs & _). split; [done|]. rewrite <- Hs.
  apply list_elem_of_fmap_2. by eapply list_elem_of_lookup_2.
Qed.

Lemma remove_entry_ids stream (l : list (ElaStream next heap)) : NoDup (s_id <$> l) ->
  s_id <$> remove_stream_entry stream l = filter (fun id => id <> stream) (s_id <$> l).
Proof.
  induction l as [|s l IH]; [done|]. rewrite fmap_cons. intros [Hno Hn]%NoDup_cons. cbn [remove_stream_entry].
  destruct (Z.eqb_spec (s_id s) stream) as [<-|Hne].
  - rewrite filter_cons_False by (intros C; by apply C). symmetry. by apply filter_absent.
  - rewrite filter_cons_True, fmap_cons by done. by rewrite IH.
Qed.

Lemma filter_not_set (stream : Z) (l : list Z) :
  list_to_set (C:=gset Z) (filter (fun id => id <> stream) l) = list_to_set l ∖ {[stream]}.
Proof.
  apply set_eq. intros x. rewrite elem_of_difference, !elem_of_list_to_set, list_elem_of_filter, elem_of_singleton. tauto.
Qed.

(** The numbers of removed streams that something still refers to. *)
Lemma remove_stream_ok others stream ws rc ws' : table_ok others ws ->
  ela_session_remove_stream stream ws = Ok (rc, ws') ->
  table_ok others ws' \/
  exists s, get_stream stream (ws_streams ws) = Some s /\ lower_held (pipe_lower (s_pipe (stream_stop 0 s))) = true /\
    table_ok (others ∪ {[stream]}) ws'.
Proof.
  intros Hok Hrem. unfold ela_session_remove_stream in Hrem.
  destruct (Z.leb_spec stream 0); [injection Hrem as _ <-; left; by apply (same_table_ok _ ws)|].
  destruct (get_stream _ _) as [s|] eqn:Hg; [|injection Hrem as _ <-; left; by apply (same_table_ok _ ws)].
  injection Hrem as _ <-. destruct (get_stream_Some _ _ _ Hg) as [Hs Hin]. destruct Hok as [Hn Hp Hu Hd].
  assert (stream_ids { ws with ws_streams ::= remove_stream_entry stream } =
    filter (fun id => id <> stream) (stream_ids ws)) as Eids by by apply remove_entry_ids.
  assert (stream ∈ list_to_set (C:=gset Z) (stream_ids ws)) as Hin' by by apply elem_of_list_to_set.
  assert (0 < s_id (stream_stop 0 s)) as Hpos by (rewrite stream_stop_id; lia).
  destruct (lower_held (pipe_lower (s_pipe (stream_stop 0 s)))) eqn:Hheld; [right; exists s; split; [done|]; split; [done|]|left];
    split; rewrite ?deref_ids, ?Eids, ?filter_not_set; rewrite ?deref_numbers, ?Hheld by done;
    try (by apply NoDup_filter); try (by apply filter_forall).
  - change (numbers _) with (numbers ws). rewrite Hu. by apply union_kept.
  - by apply (union_kept _ others).
  - change (numbers _) with (numbers ws) at 1. rewrite Hu, stream_stop_id, Hs. by apply union_gone.
  - by apply union_gone.
Qed.

Lemma request_same bundle callback keys fn self tid uninit now w ws rc w' ws' :
  ela_session_request bundle callback keys fn self tid uninit now w ws = Ok (rc, w', ws') -> same_session ws ws'.
Proof.
  unfold ela_session_request. cbv zeta. destruct (_ || _); [by intros [= _ _ <-]|]. destruct (_ =? 0); [by intros [= _ _ <-]|].
  pose proof (set_offer_keeps true { ws with ws_offerer := true }) as Ho. destruct (set_offer _ _) as [offered ws1].
  destruct (negb _); [by intros [= _ _ <-]|].
  pose proof (prepare_session_same (set_fresh_keys keys ws1)) as Hp. destruct (prepare_session _) as [rc2 ws2].
  assert (same_session ws ws2) as Ht.
  { eapply same_session_trans; [exact Ho|]. eapply same_session_trans; [apply set_fresh_keys_same|exact Hp]. }
  destruct (negb _); [by intros [= _ _ <-]|]. intros ([code|sdp] & _ & Hr)%Res_bind_Ok; [by injection Hr as _ _ <-|].
  apply Res_bind_Ok in Hr as (to & _ & Hr). apply Res_bind_Ok in Hr as ([rc3 w3] & _ & Hr). by injection Hr as _ _ <-.
Qed.

Lemma reply_same bundle status reason keys w ws rc w' ws' :
  ela_session_reply_request bundle status reason keys w ws = Ok (rc, w', ws') -> same_session ws ws'.
Proof.
  unfold ela_session_reply_request. cbv zeta. destruct (_ || _); [by intros [= _ _ <-]|].
  pose proof (set_offer_keeps false { ws with ws_offerer := false }) as Ho. destruct (set_offer _ _) as [offered ws1].
  destruct (negb _); [by intros [= _ _ <-]|].
  assert (same_session ws (set_fresh_keys keys ws1)) as Hk by (eapply same_session_trans; [exact Ho|apply set_fresh_keys_same]).
  assert (forall sdp ws2 rc3, (ext_to ← peer_address ws2;
      '(rc, w) ← ela_reply_friend_invite w (Some ext_to) bundle status reason sdp; Ok (rc, w, ws2)) = Ok (rc3, w', ws') ->
      ws' = ws2) as Hr.
  { intros sdp ws2 rc3 (to & _ & Hr)%Res_bind_Ok. apply Res_bind_Ok in Hr as ([rc4 w4] & _ & Hr). by injection Hr as _ _ <-. }
  destruct (status =? 0); [|by intros ->%Hr]. destruct (_ =? 0); [by intros [= _ _ <-]|].
  pose proof (prepare_session_same (set_fresh_keys keys ws1)) as Hp. destruct (prepare_session _) as [rc2 ws2].
  assert (same_session ws ws2) as Ht by (eapply same_session_trans; [exact Hk|exact Hp]).
  destruct (negb _); [by intros [= _ _ <-]|].
  intros ([code|sdp] & _ & E)%Res_bind_Ok; [by injection E as _ _ <-|]. by apply Hr in E as ->.
Qed.

Lemma start_same timer worker sdp ws rc ws' : ela_session_start timer worker sdp ws = Ok (rc, ws') ->
  same_table ws ws' /\
  (ws_crypto_key ws' = ws_crypto_key ws \/
   ws_crypto_enabled ws = true /\
   ws_crypto_key ws' = crypto_compute_symmetric_key (ws_peer_pubkey ws) (ws_secret_key ws) (ws_crypto_key ws)) /\
  (rc = 0 -> ws_crypto_enabled ws = true ->
   ws_crypto_key ws' = crypto_compute_symmetric_key (ws_peer_pubkey ws) (ws_secret_key ws) (ws_crypto_key ws)).
Proof.
  unfold ela_session_start, session_fails. cbv zeta.
  destruct (_ =? 0); [by intros [= <- <-]; split_and!; [..|left|]|]. destruct (_ =? 0); [by intros [= <- <-]; split_and!; [..|left|]|].
  set (ws1 := if ws_crypto_enabled ws then _ else _).
  assert (same_table ws ws1 /\ ws_crypto_key ws1 = if ws_crypto_enabled ws
    then crypto_compute_symmetric_key (ws_peer_pubkey ws) (ws_secret_key ws) (ws_crypto_key ws) else ws_crypto_key ws) as [Ht Hk].
  { unfold ws1. destruct (ws_crypto_enabled ws); [|done].
    match goal with |- same_table _ (share_keys ?x) /\ _ => pose proof (share_keys_same x) as [Hx _] end.
    split; [|done]. by eapply same_table_trans; [|exact Hx]. }
  assert (forall ws2, same_table ws1 ws2 -> ws_crypto_key ws2 = ws_crypto_key ws1 -> rc = -1 \/ rc = 0 ->
    same_table ws ws2 /\ (ws_crypto_key ws2 = ws_crypto_key ws \/ ws_crypto_enabled ws = true /\
      ws_crypto_key ws2 = crypto_compute_symmetric_key (ws_peer_pubkey ws) (ws_secret_key ws) (ws_crypto_key ws)) /\
    (rc = 0 -> ws_crypto_enabled ws = true ->
     ws_crypto_key ws2 = crypto_compute_symmetric_key (ws_peer_pubkey ws) (ws_secret_key ws) (ws_crypto_key ws))) as Hend.
  { intros ws2 Ht2 Hk2 _. split; [by eapply same_table_trans|]. rewrite Hk2, Hk. destruct (ws_crypto_enabled ws).
    - split; [by right|done].
    - split; [by left|done]. }
  destruct (negb _); [intros [= <- <-]; apply Hend; [done..|by left]|].
  intros ([rc2 ws2] & E2 & E)%Res_bind_Ok. destruct (apply_sdp_keeps _ _ _ _ E2) as [Ht2 Hk2].
  destruct (rc2 <? 0); [injection E as <- <-; apply Hend; [done..|by left]|].
  apply Res_bind_Ok in E as (l & El & [= <- <-]). apply Hend; [|done|by right].
  eapply same_table_trans; [exact Ht2|]. split; [|done]. by eapply start_streams_ids.
Qed.

(** Every call but those that add and remove. *)
Lemma other_calls_same c w ws rc w' ws' :
  (forall type options cbs created handlers empty, c <> CallAddStream type options cbs created handlers empty) ->
  (forall stream, c <> CallRemoveStream stream) ->
  (forall timer worker sdp, c <> CallStart timer worker sdp) ->
  run_call c w ws = Ok (rc, w', ws') -> same_session ws ws'.
Proof.
  intros Hadd Hrem Hst.
  assert (forall m : Res (Z * ElaSession next heap cb ids tr), (forall rc ws', m = Ok (rc, ws') -> same_session ws ws') ->
    ('(rc, ws) ← m; Ok (rc, w, ws)) = Ok (rc, w', ws') -> same_session ws ws') as Hm.
  { intros m Hm ([rc1 ws1] & E & [= _ _ <-])%Res_bind_Ok. by eapply Hm. }
  destruct c; cbn [run_call]; try (by destruct (Hadd type options callbacks created handlers empty)); try (by destruct (Hrem stream));
    try (by destruct (Hst timer worker sdp)); try (by apply request_same); try (by apply reply_same); apply Hm; intros rc1 ws1.
  - unfold ela_stream_write. apply stream_call_same. intros s rc2 s2. destruct (_ || _); [by intros [= _ <-]|].
    apply when_connected_id. intros s3 rc3 s4 ([sent p] & _ & [= _ <-])%Res_bind_Ok. done.
  - apply stream_call_same. intros s rc2 s2. apply when_connected_id. intros *. apply on_mux_id.
  - apply zero_if_done_same. intros *. apply stream_call_same. intros *. apply on_mux_id.
  - apply write_channel_same.
  - apply zero_if_done_same. intros *. apply stream_call_same. intros *. apply on_mux_id.
  - apply zero_if_done_same. intros *. apply stream_call_same. intros *. apply on_mux_id.
  - intros [= E]. unfold ela_session_add_service in E. repeat case_match; by injection E as _ <-.
  - intros [= _ <-]. unfold ela_session_remove_service. by repeat case_match.
  - apply stream_call_same. intros s rc2 s2. destruct (_ && _); [by intros [= _ <-]|].
    destruct (negb _); [by intros [= _ <-]|apply on_mux_id].
  - apply zero_if_done_same. intros *. apply stream_call_same. intros s rc3 s3.
    destruct (negb _); [by intros [= _ <-]|apply on_mux_id].
  - by intros [= _ <-].
  - intros [= _ <-]. unfold friend_invite_response. by case_match.
  - apply on_stream_same. intros s s2 [= <-]. apply on_state_changed_id.
  - apply on_stream_same. apply on_data_id.
Qed.

(** The numbers of the streams that calls removed. *)
Definition removed (l : list session_call) : gset Z :=
  list_to_set (omap (fun c => match c with CallRemoveStream stream => Some stream | _ => None end) l).

(** A stopped stream that nothing refers to. *)
Definition all_let_go : Prop := forall s, lower_held (pipe_lower (s_pipe (stream_stop 0 s))) = false.

Lemma run_call_ok others c w ws rc w' ws' : table_ok others ws -> run_call c w ws = Ok (rc, w', ws') ->
  exists held, table_ok (others ∪ held) ws' /\ held ⊆ removed [c] /\ (all_let_go -> held = ∅).
Proof.
  intros Hok Hrun.
  assert (table_ok others ws' -> exists held, table_ok (others ∪ held) ws' /\ held ⊆ removed [c] /\ (all_let_go -> held = ∅)) as Hnone.
  { intros Hok'. exists ∅. rewrite union_empty_r_L. split; [done|]. split; [apply empty_subseteq|done]. }
  assert ((exists stream, c = CallRemoveStream stream) \/ forall stream, c <> CallRemoveStream stream) as [[stream ->]|Hrem]
    by (destruct c; first [by right|left; by eexists]).
  - cbn [run_call] in Hrun. apply Res_bind_Ok in Hrun as ([rc1 ws1] & E & [= <- <- <-]).
    destruct (remove_stream_ok _ _ _ _ _ Hok E) as [Hok'|(s & Hs & Hheld & Hok')]; [by apply Hnone|].
    exists {[stream]}. split; [done|]. split; [unfold removed; cbn; by rewrite union_empty_r_L|].
    intros Hgo. by rewrite Hgo in Hheld.
  - apply Hnone. destruct c; try (eapply same_table_ok; [|exact Hok]; eapply other_calls_same; [..|exact Hrun]; done).
    + cbn [run_call] in Hrun. apply Res_bind_Ok in Hrun as ([rc1 ws1] & E & [= <- <- <-]). by eapply add_stream_ok.
    + cbn [run_call] in Hrun. apply Res_bind_Ok in Hrun as ([rc1 ws1] & E & [= <- <- <-]).
      eapply same_table_ok; [|exact Hok]. by apply start_same in E as [? _].
Qed.

(** C14. The streams of a session and their numbers.  Through any calls, answers and
    reports, every stream of a session has a number of its own, greater than 0, and
    the numbers in use are exactly those of the streams, those that were in use
    elsewhere, and those of removed streams that something still refers to: none when
    every stopped stream is let go. *)
Theorem stream_numbers others calls w ws w' ws' :
  table_ok others ws -> run_calls calls w ws = Ok (w', ws') ->
  exists held, NoDup (stream_ids ws') /\ Forall (fun id => 0 < id) (stream_ids ws') /\
    numbers ws' = others ∪ held ∪ list_to_set (stream_ids ws') /\
    (forall id, id ∈ stream_ids ws' -> (id ∉ others) /\ (id ∉ held)) /\
    held ⊆ removed calls /\ (all_let_go -> held = ∅).
Proof.
  intros Hok Hrun.
  assert (exists held, table_ok (others ∪ held) ws' /\ held ⊆ removed calls /\ (all_let_go -> held = ∅)) as (held & [Hn Hp Hu Hd] & Hrem & Hgo).
  { revert others w ws Hok Hrun. induction calls as [|c calls IH]; intros others w ws Hok Hrun.
    - injection Hrun as <- <-. exists ∅. by rewrite union_empty_r_L.
    - cbn [run_calls] in Hrun. apply Res_bind_Ok in Hrun as ([[rc w1] ws1] & E & Hrun).
      destruct (run_call_ok _ _ _ _ _ _ _ Hok E) as (h1 & Hok1 & Hr1 & Hg1).
      destruct (IH _ _ _ Hok1 Hrun) as (h2 & Hok2 & Hr2 & Hg2).
      exists (h1 ∪ h2). rewrite union_assoc_L. split; [done|]. split.
      + replace (removed (c :: calls)) with (removed [c] ∪ removed calls) by (unfold removed; by rewrite <- list_to_set_app_L, <- omap_app).
        by apply union_mono.
      + intros Hgo. by rewrite Hg1, Hg2. }
  exists held. split_and!; try done. intros id Hin.
  assert (id ∉ others ∪ held) as [??]%not_elem_of_union; [|done].
  intros Hin'. apply (Hd id Hin'). by apply elem_of_list_to_set.
Qed.
End Steps.
