(* ===== verification/SessionKeys.v ===== *)
(** * The key of a session, and its end

    What the key that a session encrypts with depends on, and what is left of a session
    that was closed. *)

From S2P Require Import Prelude ElaError ElaCP Carrier Invite FlexBuffer Multiplex MultiplexProps Session SessionProps.

(** Elements with distinct images. *)
Lemma fmap_nodup_inj {A B} (f : A -> B) (l : list A) x y :
  NoDup (f <$> l) -> x ∈ l -> y ∈ l -> f x = f y -> x = y.
Proof.
  induction l as [|a l IH]; [by intros _ ?%not_elem_of_nil|]. rewrite fmap_cons.
  intros [Hno Hn]%NoDup_cons [-> |Hx]%elem_of_cons [-> |Hy]%elem_of_cons E; [done|..|by apply IH].
  - destruct Hno. rewrite E. by apply list_elem_of_fmap_2.
  - destruct Hno. rewrite <- E. by apply list_elem_of_fmap_2.
Qed.

Lemma filtered_id {A} (f : A -> Z) (P : A -> Prop) `{!forall x, Decision (P x)} (l : list A) x :
  NoDup (f <$> l) -> x ∈ l -> f x ∈ f <$> filter P l <-> P x.
Proof.
  intros Hn Hx. split.
  - intros (y & E & [Hy Hin]%list_elem_of_filter)%list_elem_of_fmap. by rewrite (fmap_nodup_inj f l x y).
  - intros Hp. apply list_elem_of_fmap_2. by apply list_elem_of_filter.
Qed.

Lemma kept_numbers {A} (f : A -> Z) (P : A -> Prop) `{!forall x, Decision (P x)} (l : list A) (others : gset Z) :
  NoDup (f <$> l) -> others ## list_to_set (f <$> l) ->
  (others ∪ list_to_set (f <$> l)) ∖ list_to_set (f <$> filter (fun x => ~ P x) l) =
    others ∪ list_to_set (f <$> filter P l).
Proof.
  intros Hn Hd. apply set_eq. intros id. rewrite elem_of_difference, !elem_of_union, !elem_of_list_to_set.
  specialize (Hd id). rewrite elem_of_list_to_set in Hd.
  assert (forall Q : A -> Prop, forall HQ : (forall x, Decision (Q x)), id ∈ f <$> filter Q l -> id ∈ f <$> l) as Hsub.
  { intros Q HQ (x & -> & [_ Hx]%list_elem_of_filter)%list_elem_of_fmap. by apply list_elem_of_fmap_2. }
  split.
  - intros [[Ho|(x & -> & Hx)%list_elem_of_fmap] Hno]; [by left|right]. rewrite filtered_id in Hno |- * by done.
    destruct (decide (P x)); [done|by destruct Hno].
  - intros [Ho|Hin].
    + split; [by left|]. intros Hin%Hsub. by apply Hd.
    + split; [right; by eapply Hsub|]. apply list_elem_of_fmap in Hin as (x & -> & [Hx Hin]%list_elem_of_filter).
      rewrite filtered_id by done. intros C. by apply C.
Qed.

Section Keys.
Context `{!HashTables, !Base58, !Stack, !ChannelApp, !KeyExchange} {dht buffer next heap cb ids tr : Type}
  `{!Dht dht buffer, !FlatBuffers buffer, !Next next, !Lower next tr, !IdsHeap heap, !IdsHeap ids,
    !PortForwarding (MultiplexHandler next heap), !SdpLayer (ElaSession next heap cb ids tr)}
  `{!SdpLaws next heap cb ids tr}.
Implicit Types s : ElaStream next heap.
Implicit Types ws : ElaSession next heap cb ids tr.
Implicit Types w : ElaCarrier dht.

Lemma deref_stream_keys s ws : same_peer ws (deref_stream s ws).
Proof. unfold deref_stream. by destruct (_ || _). Qed.

Ltac deref_keys :=
  match goal with |- context [deref_stream ?s ?w] => pose proof (deref_stream_keys s w) as (? & ? & ?); by split_and! end.

Lemma add_stream_keys type options callbacks created handlers empty ws rc ws' :
  ela_session_add_stream type options callbacks created handlers empty ws = Ok (rc, ws') -> same_peer ws ws'.
Proof.
  unfold ela_session_add_stream. destruct (_ || _); [by intros [= _ <-]|]. destruct (negb _); [by intros [= _ <-]|].
  destruct (ids_alloc _) as [id h]. destruct (id <=? 0); [by intros [= _ <-]|]. cbv zeta.
  destruct (handlers <? 0); [intros [= _ <-]; deref_keys|].
  destruct (pipe_init _) as [rc1 p]. destruct (rc1 <? 0); [|by intros [= _ <-]].
  intros [= _ <-]. deref_keys.
Qed.

Lemma remove_stream_keys stream ws rc ws' : ela_session_remove_stream stream ws = Ok (rc, ws') -> same_peer ws ws'.
Proof.
  unfold ela_session_remove_stream. destruct (_ <=? 0); [by intros [= _ <-]|].
  destruct (get_stream _ _) as [s|]; [|by intros [= _ <-]]. intros [= _ <-]. deref_keys.
Qed.

Definition is_start (c : session_call (heap:=heap)) : bool := match c with CallStart _ _ _ => true | _ => false end.

Lemma run_call_keys c w ws rc w' ws' : is_start c = false -> run_call c w ws = Ok (rc, w', ws') -> same_peer ws ws'.
Proof.
  intros Hc Hrun.
  destruct c; try (eapply other_calls_same; [..|exact Hrun]; done); try done; cbn [run_call] in Hrun;
    apply Res_bind_Ok in Hrun as ([rc1 ws1] & E & [= <- <- <-]).
  - by eapply add_stream_keys.
  - by eapply remove_stream_keys.
Qed.

Lemma run_calls_keys calls w ws w' ws' : Forall (fun c => is_start c = false) calls ->
  run_calls calls w ws = Ok (w', ws') -> same_peer ws ws'.
Proof.
  intros Hc. revert w ws. induction Hc as [|c calls Hc _ IH]; intros w ws Hrun; [by injection Hrun as <- <-|].
  cbn [run_calls] in Hrun. apply Res_bind_Ok in Hrun as ([[rc w1] ws1] & E & Hrun).
  destruct (run_call_keys _ _ _ _ _ _ Hc E) as (E1 & F1 & G1).
  destruct (IH _ _ Hrun) as (E2 & F2 & G2). split_and!; congruence.
Qed.

(** C17. The key does not depend on the peer.  Whatever was called and came in on a new
    session before it is started, and whatever description the peer sent, a successful
    start of a session with encryption leaves the key that is computed from the
    session's own secret key and a public key of zeros: [ela_session_start] computes it
    before [apply_remote_sdp] reads the peer's public key. *)
Theorem session_key_ignores_peer ext to transport ws0 calls w0 w ws timer worker sdp rc ws' :
  ela_session_new (Some ext) (Some to) true 0 0 0 0 transport = inr ws0 ->
  Forall (fun c => is_start c = false) calls -> run_calls calls w0 ws0 = Ok (w, ws) ->
  ws_crypto_enabled ws = true -> ela_session_start timer worker sdp ws = Ok (rc, ws') -> rc = 0 ->
  ws_crypto_key ws' =
    crypto_compute_symmetric_key (zeroed (Z.of_nat PUBLIC_KEY_BYTES)) (ws_secret_key ws)
      (zeroed (Z.of_nat SYMMETRIC_KEY_BYTES)).
Proof.
  intros Hnew Hc Hrun Hen Hstart Hrc. destruct (run_calls_keys _ _ _ _ _ Hc Hrun) as (_ & Hpeer & Hkey).
  unfold ela_session_new in Hnew. destruct (ext_transport ext); [|done]. injection Hnew as <-.
  destruct (start_same _ _ _ _ _ _ Hstart) as (_ & _ & Hk). rewrite (Hk Hrc Hen), Hpeer, Hkey. done.
Qed.

(** ** The end *)

Context `{!IdsHeapLaws ids, !LowerLaws next tr}.

Lemma foldl_deref_numbers l ws : Forall (fun s => 0 < s_id s) l ->
  numbers (foldl (fun ws s => deref_stream s ws) ws l) =
    numbers ws ∖ list_to_set (s_id <$> filter (fun s => lower_held (pipe_lower (s_pipe s)) = false) l).
Proof.
  intros Hl. revert ws. induction Hl as [|s l Hs _ IH]; intros ws; cbn [foldl].
  { cbn. by rewrite difference_empty_L. }
  rewrite IH, deref_numbers by done. destruct (lower_held _) eqn:Hh.
  - by rewrite filter_cons_False by congruence.
  - rewrite filter_cons_True by done. cbn. by rewrite difference_difference_l_L.
Qed.

(** A stream that was stopped, with the session's keys wiped. *)
Definition wiped ws s : ElaStream next heap :=
  { stream_stop 0 s with s_pipe ::= map_lower (lower_set_keys (cleared (ws_crypto_key ws)) (cleared (ws_nonce ws))) }.

Lemma wiped_held ws s : lower_held (pipe_lower (s_pipe (wiped ws s))) = lower_held (pipe_lower (s_pipe (stream_stop 0 s))).
Proof. unfold wiped. cbn. destruct (s_pipe (stream_stop 0 s)); cbn; apply lower_held_keys. Qed.

(** Something refers to the stream when it is stopped. *)
Definition stays_held s : Prop := lower_held (pipe_lower (s_pipe (stream_stop 0 s))) = true.
#[local] Instance stays_held_dec s : Decision (stays_held s).
Proof. unfold stays_held. apply _. Defined.

(** C16. The end of a session.  Closing stops every stream, in order and once, wipes the
    key and the nonce that they encrypt with, and gives back the numbers of exactly the
    streams that nothing else refers to; those of other sessions stay in use. *)
Theorem session_closed others ws ext l :
  table_ok others ws -> ela_session_close ws = (ext, l) ->
  l = wiped ws <$> ws_streams ws /\
  exists held, held ⊆ list_to_set (stream_ids ws) /\ ids_used (ext_stream_ids ext) = others ∪ held /\
    forall s, s ∈ ws_streams ws -> (s_id s ∈ held <-> stays_held s).
Proof.
  intros [Hn Hp Hu Hd] Hclose. unfold ela_session_close in Hclose. cbv zeta in Hclose.
  assert (ws_streams (session_internal_close ws) = wiped ws <$> ws_streams ws) as El.
  { unfold session_internal_close, share_keys. cbn. rewrite map_map. done. }
  assert (ext = ws_ext (foldl (fun ws s => deref_stream s ws) (session_internal_close ws) (ws_streams (session_internal_close ws)))
    /\ l = ws_streams (session_internal_close ws)) as [-> ->] by (by injection Hclose).
  rewrite El. split; [done|].
  exists (list_to_set (s_id <$> filter stays_held (ws_streams ws))). split; [|split].
  - intros id. rewrite !elem_of_list_to_set. intros (s & -> & [_ Hs]%list_elem_of_filter)%list_elem_of_fmap.
    by apply list_elem_of_fmap_2.
  - change (ids_used _) with (numbers (foldl (fun ws s => deref_stream s ws) (session_internal_close ws) (wiped ws <$> ws_streams ws))).
    rewrite foldl_deref_numbers.
    2: { apply Forall_fmap. unfold stream_ids in Hp. rewrite Forall_fmap in Hp. eapply Forall_impl; [exact Hp|].
         intros s Hs. cbn in *. by rewrite stream_stop_id. }
    change (numbers (session_internal_close ws)) with (numbers ws). rewrite Hu. unfold stream_ids in *.
    assert (s_id <$> filter (fun s => lower_held (pipe_lower (s_pipe s)) = false) (wiped ws <$> ws_streams ws) =
      s_id <$> filter (fun s => ~ stays_held s) (ws_streams ws)) as ->.
    { clear -LowerLaws0. induction (ws_streams ws) as [|s l IH]; [done|]. rewrite fmap_cons, !filter_cons, wiped_held.
      assert (lower_held (pipe_lower (s_pipe (stream_stop 0 s))) = false <-> ~ stays_held s) as Hiff
        by (unfold stays_held; by destruct (lower_held _)).
      case_decide as Ha; case_decide as Hb; [|exfalso; tauto|exfalso; tauto|done].
      cbn. by rewrite IH, stream_stop_id. }
    by apply kept_numbers.
  - intros s Hs. rewrite elem_of_list_to_set. by apply filtered_id.
Qed.
End Keys.
