(* ===== verification/SessionRequest.v ===== *)
(** * Requests and replies between two sessions

    A request of one session, carried as an invitation, comes to a callback of the
    other node's extension with the first session's description; the reply comes to the
    callback of the first session with the description of the second. *)

From Stdlib Require Import Ascii.
From S2P Require Import Prelude ElaError ElaCP Carrier Invite InviteProps InviteReply FlexBuffer Multiplex Session SessionDispatch SessionProps.

(** What the node tells its session extension. *)
Definition extension_hears {cb ids} (e : carrier_event) (ext : SessionExtension cb ids) : SessionExtension cb ids :=
  match e with EvFriendInvite true from bundle data len => friend_invite ext from bundle data len | _ => ext end.

(** What the node tells a session whose request had the callback [fn] with the context [self]. *)
Definition session_hears `{!HashTables} {next heap cb ids tr} (fn self : Z) (e : carrier_event)
    (ws : ElaSession next heap cb ids tr) : ElaSession next heap cb ids tr :=
  match e with
  | EvInviteResponse callback context _ bundle status reason data len =>
      if (callback =? fn) && (context =? self) then friend_invite_response bundle status reason data len ws else ws
  | _ => ws
  end.

Lemma parse_extension a e : (parse_address a).2 = None -> parse_address (a +:+ String ":"%char e) = (a, Some e).
Proof.
  induction a as [|c a IH]; [done|]. intros Hno. cbn [parse_address] in Hno.
  change (parse_address (String c (a +:+ String ":"%char e)) = (String c a, Some e)). cbn [parse_address].
  destruct (bool_decide _); [done|]. destruct (parse_address a) as [u x]. cbn in Hno. by rewrite IH.
Qed.

Section Request.
Context `{!HashTables} {L : HashTablesLaws _} `{!Base58, !Stack, !ChannelApp, !KeyExchange}
  {dht buffer next heap cb ids tr : Type}
  `{!Dht dht buffer, !FlatBuffers buffer} {FL : FlatBuffersLaws buffer}
  `{!Next next, !Lower next tr, !IdsHeap heap, !IdsHeap ids,
    !PortForwarding (MultiplexHandler next heap), !SdpLayer (ElaSession next heap cb ids tr),
    !SdpLaws next heap cb ids tr}.
Implicit Types ws v : ElaSession next heap cb ids tr.
Implicit Types w wr : ElaCarrier dht.

Lemma peer_address_Ok ws to : peer_address ws = Ok to -> to = ws_to ws +:+ String ":"%char extension_name.
Proof. unfold peer_address. intros E. by apply strcpy_inv in E as [-> _]. Qed.

Lemma local_description_inr ws sdp : local_description ws = Ok (inr sdp) ->
  exists text, encode_local_sdp SDP_MAX_LEN ws = Ok (inr text) /\ Z.of_nat (length text) < SDP_MAX_LEN /\ sdp = text ++ [Init.Byte.x00].
Proof.
  unfold local_description. intros ([rc|text] & E & Ht)%Res_bind_Ok; [done|]. revert Ht.
  destruct (Z.ltb_spec (Z.of_nat (length text)) SDP_MAX_LEN); [|done]. intros [= <-]. by exists text.
Qed.

(** A request that succeeds: every stream was prepared, and the description of the
    session went out as an invitation for the extension. *)
Lemma request_inv bundle callback keys fn self tid uninit now w ws w' ws' :
  ela_session_request bundle callback keys fn self tid uninit now w ws = Ok (0, w', ws') ->
  exists ws1 text, encode_local_sdp SDP_MAX_LEN ws1 = Ok (inr text) /\ Z.of_nat (length text) < SDP_MAX_LEN /\
    ws' = { ws1 with ws_complete_callback := true } /\ same_session ws ws1 /\
    ela_invite_friend w (Some (ws_to ws +:+ String ":"%char extension_name)) bundle (Some (text ++ [Init.Byte.x00]))
      fn self tid uninit now = Ok (0, w').
Proof.
  unfold ela_session_request. cbv zeta. destruct (_ || _); [done|]. destruct (_ =? 0); [done|].
  pose proof (set_offer_keeps true { ws with ws_offerer := true }) as Ho. destruct (set_offer _ _) as [offered ws1].
  destruct (negb _); [done|].
  pose proof (prepare_session_same (set_fresh_keys keys ws1)) as Hp. destruct (prepare_session _) as [rc2 ws2].
  destruct (negb _); [done|]. intros ([code|sdp] & Hd & Hr)%Res_bind_Ok; [done|].
  apply Res_bind_Ok in Hr as (to & Hto & Hr). apply Res_bind_Ok in Hr as ([rc3 w3] & Hi & Hr). injection Hr as -> -> <-.
  apply local_description_inr in Hd as (text & He & Hl & ->).
  assert (same_session ws ws2) as Hs.
  { eapply same_session_trans; [exact Ho|]. eapply same_session_trans; [apply set_fresh_keys_same|exact Hp]. }
  exists ws2, text. split_and!; [done..|exact Hs|]. apply peer_address_Ok in Hto as ->.
  destruct Hs as [_ (Eto & _)]. cbn [ws_to] in Hi. by rewrite <- Eto.
Qed.

(** C11. A request comes to the peer's application.  When [ela_session_request] returns 0,
    the description of the session, ended by its terminator, went out as packets to the
    DHT; delivered in order, at whatever times, they make the peer's extension give
    exactly these bytes and the bundle, once, to the callback registered for the longest
    prefix of the bundle, or to the default callback. *)
Theorem session_request_delivered bundle callback keys fn self tid uninit now w ws w' ws' wr number u
    (r : registry (cb:=cb)) (ext : SessionExtension cb ids) :
  is_i64 tid -> tid <> 0 -> ht_get (tcallbacks w) tid = None -> (parse_address (ws_to ws)).2 = None ->
  ela_session_request bundle callback keys fn self tid uninit now w ws = Ok (0, w', ws') ->
  knows wr number u -> ht_get (tassembly_ireqs wr) tid = None -> cb_session_invite (callbacks wr) = true ->
  agrees r ext ->
  exists ws1 text n packets rc, encode_local_sdp SDP_MAX_LEN ws1 = Ok (inr text) /\ ws' = { ws1 with ws_complete_callback := true } /\
    send_packets (dht_state w) n packets = (rc, dht_state w') /\
    forall times, length times = length packets ->
    exists wr' e, deliver wr number (zip times packets) = Ok wr' /\ events wr' = e :: events wr /\
      ext_calls (extension_hears e ext) =
        match dispatch r bundle with
        | Some f => [{| rq_callback := f; rq_from := u; rq_bundle := if null_or_empty bundle then None else bundle;
                        rq_data := text ++ [Init.Byte.x00]; rq_len := Z.of_nat (length text) + 1 |}]
        | None => []
        end ++ ext_calls ext.
Proof.
  intros Hi64 Htid Hfresh Hto Hreq Hk Hfr Hcb Hag.
  destruct (request_inv _ _ _ _ _ _ _ _ _ _ _ _ Hreq) as (ws1 & text & He & Hl & -> & Hs & Hinv).
  destruct (invite_delivered _ _ _ _ _ _ _ _ _ _ wr number u Hi64 Htid Hfresh Hinv Hk Hfr)
    as (bytes & n & packets & rc & [= <-] & Hsend & Hrc & Hdel).
  exists ws1, text, n, packets, rc. split; [done|]. split; [done|]. split; [exact Hsend|].
  intros times Htimes. destruct (Hdel times Htimes) as (t & Hd & _). change (or_empty (Some ?x)) with x in Hd.
  rewrite (parse_extension _ _ Hto) in Hd. cbn [snd] in Hd.
  eexists _, (EvFriendInvite true u bundle (text ++ [Init.Byte.x00]) (Z.of_nat (length (text ++ [Init.Byte.x00])))).
  split; [exact Hd|]. split.
  - cbn [invited]. unfold invited. cbn. by rewrite Hcb.
  - cbn [extension_hears]. rewrite (friend_invite_dispatch r) by done. rewrite length_app. cbn [length].
    rewrite Nat2Z.inj_add. by destruct (dispatch r bundle).
Qed.

(** A reply that succeeds; the description goes out with an acceptance only. *)
Lemma reply_inv bundle status reason keys w ws w' ws' :
  ela_session_reply_request bundle status reason keys w ws = Ok (0, w', ws') ->
  exists data, ela_reply_friend_invite w (Some (ws_to ws +:+ String ":"%char extension_name)) bundle status reason data = Ok (0, w') /\
    same_session ws ws' /\
    (if status =? 0
     then exists text, encode_local_sdp SDP_MAX_LEN ws' = Ok (inr text) /\ Z.of_nat (length text) < SDP_MAX_LEN /\
       data = Some (text ++ [Init.Byte.x00])
     else data = None).
Proof.
  unfold ela_session_reply_request. cbv zeta. destruct (_ || _); [done|].
  pose proof (set_offer_keeps false { ws with ws_offerer := false }) as Ho. destruct (set_offer _ _) as [offered ws1].
  destruct (negb _); [done|].
  assert (same_session ws (set_fresh_keys keys ws1)) as Hk by (eapply same_session_trans; [exact Ho|apply set_fresh_keys_same]).
  assert (forall sdp ws2, same_session ws ws2 -> (ext_to ← peer_address ws2;
      '(rc, w) ← ela_reply_friend_invite w (Some ext_to) bundle status reason sdp; Ok (rc, w, ws2)) = Ok (0, w', ws') ->
      ws' = ws2 /\ ela_reply_friend_invite w (Some (ws_to ws +:+ String ":"%char extension_name)) bundle status reason sdp = Ok (0, w')) as Hr.
  { intros sdp ws2 (_ & Eto & _) (to & Hto & Hr)%Res_bind_Ok. apply Res_bind_Ok in Hr as ([rc4 w4] & Hi & Hr).
    injection Hr as -> -> <-. split; [done|]. by rewrite <- Eto, <- (peer_address_Ok _ _ Hto). }
  destruct (status =? 0).
  - destruct (_ =? 0); [done|].
    pose proof (prepare_session_same (set_fresh_keys keys ws1)) as Hp. destruct (prepare_session _) as [rc2 ws2].
    assert (same_session ws ws2) as Ht by (eapply same_session_trans; [exact Hk|exact Hp]).
    destruct (negb _); [done|]. intros ([code|sdp] & Hd & E)%Res_bind_Ok; [done|].
    apply Hr in E as [-> E]; [|done]. apply local_description_inr in Hd as (text & He & Hl & ->).
    exists (Some (text ++ [Init.Byte.x00])). split; [exact E|]. split; [exact Ht|]. by exists text.
  - intros [-> E]%Hr; [|done]. by exists None.
Qed.

(** C12. A reply comes to the session that asked.  When [ela_session_reply_request] returns
    0, its packets, delivered in order at whatever times, make the callback of the
    pending request be called once, with the bundle, the status and the reason, and with
    exactly the description of the session that accepted, ended by its terminator. *)
Theorem session_reply_delivered bundle status reason keys fn self w ws w' ws' wr tid tcb number u v :
  is_i64 tid -> is_i32 status -> (parse_address (ws_to ws)).2 = None ->
  transaction_history_get_invite (ws_to ws +:+ String ":"%char extension_name) w = Ok tid ->
  ela_session_reply_request bundle status reason keys w ws = Ok (0, w', ws') ->
  knows wr number u -> ht_get (tcallbacks wr) tid = Some tcb -> ht_get (tassembly_irsps wr) tid = None ->
  tcb_callback_func tcb = fn -> tcb_callback_context tcb = self -> ws_complete_callback v = true ->
  exists data n packets rc,
    (if status =? 0 then exists text, encode_local_sdp SDP_MAX_LEN ws' = Ok (inr text) /\ data = text ++ [Init.Byte.x00] else data = []) /\
    send_packets (dht_state w) n packets = (rc, dht_state w') /\
    forall times, length times = length packets ->
    exists wr' e, deliver wr number (zip times packets) = Ok wr' /\ events wr' = e :: events wr /\
      ht_get (tcallbacks wr') tid = None /\
      session_hears fn self e v =
        { v with ws_events ::= cons {| rp_bundle := bundle; rp_status := status; rp_reason := reason;
                                       rp_data := data; rp_len := Z.of_nat (length data) |} }.
Proof.
  intros Hi64 Hi32 Hto Hh Hrep Hk Htcb Hfr Hfn Hself Hv.
  destruct (reply_inv _ _ _ _ _ _ _ _ Hrep) as (data & Hinv & _ & Hdata).
  destruct (reply_delivered w (Some (ws_to ws +:+ String ":"%char extension_name)) _ _ _ _ _ tid wr number u tcb Hi64 Hi32 Hh Hinv Hk Htcb Hfr)
    as (n & packets & rc & Hsend & _ & Hdel).
  exists (default [] data), n, packets, rc. split; [|split; [exact Hsend|]].
  { destruct (status =? 0); [|by rewrite Hdata]. destruct Hdata as (text & He & _ & ->). by exists text. }
  intros times Htimes. destruct (Hdel times Htimes) as (t & Hd & _). do 2 eexists. split; [exact Hd|].
  split; [done|]. split; [apply ht_get_remove_eq|].
  unfold session_hears, friend_invite_response. rewrite Hfn, Hself, !Z.eqb_refl, Hv. done.
Qed.
End Request.
