(* ===== verification/IceStream.v ===== *)
(** * The transport of a stream (src/src/session/ice.c)

    The lowest handler of a stream, [IceHandler] with its [IceStream]: how a stream
    goes from state to state, the packets it frames data in, keep-alives and time-outs,
    and its end.  The ICE transport itself is pjnath's, the interface [IceStrans].

    A change of state is queued for the worker ([is_notifications], oldest first) and
    goes up the handlers when the worker takes it; only stopping reports at once.  The
    state of the stream is a field here, as every handler reaches it through its
    stream; the handler on top sets it. *)

From S2P Require Import Prelude ElaError FlexBuffer Multiplex.

Definition DEFAULT_KEEPALIVE_INTERVAL : Z := 30000.
Definition DEFAULT_TIMEOUT_INTERVAL : Z := 120000.

Definition PKT_SHUTDOWN : Z := 0.
Definition PKT_KEEPALIVE : Z := 1.
Definition PKT_DATA : Z := 2.

(** The size that the SDK builds pjnath with. *)
Definition PJ_STUN_SOCK_PKT_LEN : Z := 2176.
(** [sizeof(IcePacket)] *)
Definition ICE_HEAD_LEN : Z := 4.

Definition ELAERR_BUSY : Z := 0x10.
Definition ELA_ICE_ERROR (code : Z) : Z := ELA_MK_ERROR ELAF_ICE code.

Inductive pj_ice_sess_role :=
| PJ_ICE_SESS_ROLE_UNKNOWN
| PJ_ICE_SESS_ROLE_CONTROLLED
| PJ_ICE_SESS_ROLE_CONTROLLING.

(** [pj_ice_strans_*]; 0 is [PJ_SUCCESS]. *)
Class IceStrans (st cand : Type) := {
  PJ_EBUSY : Z;
  strans_has_sess : st -> bool;
  strans_init_ice : st -> pj_ice_sess_role -> string -> string -> Z * st;
  strans_start_ice : st -> string -> string -> list cand -> Z * st;
  strans_stop_ice : st -> st;
  strans_sendto : st -> list byte -> Z * st
}.

Record IceSession := { ic_role : pj_ice_sess_role; ic_ufrag : string; ic_pwd : string }.

Definition ice_session_set_offer (offerer : bool) (session : IceSession) : bool * IceSession :=
  (true, { session with ic_role := if offerer then PJ_ICE_SESS_ROLE_CONTROLLING
                                   else PJ_ICE_SESS_ROLE_CONTROLLED }).

Record IceStream {st cand : Type} := {
  is_state : Z;                       (* base.state *)
  is_st : st;
  is_stopping : bool;
  is_clock : timeval;                 (* gettimeofday *)
  is_local_timestamp : timeval;
  is_remote_timestamp : timeval;
  is_keepalive_timer : bool;
  is_remote_ufrag : string;
  is_remote_pwd : string;
  is_comp_cnt : Z;
  is_cands : list cand;
  is_held : bool;                     (* the reference that ice_handler_init took *)
  is_notifications : list Z
}.
Arguments IceStream st cand : clear implicits.

Section Ice.
Context `{!Stack} {st cand : Type} `{!IceStrans st cand}.
Implicit Types s : IceStream st cand.

Definition ice_notify_state_changed (state : Z) s : IceStream st cand :=
  { s with is_notifications ::= fun l => l ++ [state] }.

(** The worker takes the oldest change: what goes up from the handler. *)
Definition ice_on_ioqueue_read s : option (Z * IceStream st cand) :=
  match is_notifications s with
  | [] => None
  | state :: l => Some (state, { s with is_notifications := l })
  end.

(** A stream whose transport [pj_ice_strans_create] made, or its status. *)
Definition ice_handler_init (now : timeval) (created : Z * st) : Z + IceStream st cand :=
  if negb (created.1 =? 0) then inl (ELA_ICE_ERROR created.1)
  else
    inr {| is_state := 0; is_st := created.2; is_stopping := false; is_clock := now;
           is_local_timestamp := tv_zero; is_remote_timestamp := tv_zero; is_keepalive_timer := false;
           is_remote_ufrag := ""; is_remote_pwd := ""; is_comp_cnt := 0; is_cands := [];
           is_held := true; is_notifications := [] |}.

(** [PJ_ICE_STRANS_OP_INIT] and [PJ_ICE_STRANS_OP_NEGOTIATION]. *)
Inductive ice_op := OpInit | OpNegotiation | OpOther.

Definition stream_on_ice_complete (op : ice_op) (status : Z) s : IceStream st cand :=
  match op with
  | OpInit =>
      ice_notify_state_changed (if status =? 0 then ElaStreamState_initialized else ElaStreamState_failed) s
  | OpNegotiation =>
      ice_notify_state_changed (if status =? 0 then ElaStreamState_connected else ElaStreamState_failed) s
  | OpOther => s
  end.

Definition ice_handler_prepare (session : IceSession) s : Z * IceStream st cand :=
  if strans_has_sess (is_st s) then (0, s)
  else if negb (is_state s =? ElaStreamState_initialized)
  then (ELA_GENERAL_ERROR ELAERR_WRONG_STATE, s)
  else
    let '(status, x) := strans_init_ice (is_st s) (ic_role session) (ic_ufrag session) (ic_pwd session) in
    let s := { s with is_st := x } in
    let s := ice_notify_state_changed
      (if negb (status =? 0) then ElaStreamState_failed else ElaStreamState_transport_ready) s in
    (if status =? 0 then 0 else ELA_ICE_ERROR status, s).

(** [timer] is the result of [ice_worker_create_timer]. *)
Definition ice_handler_start (timer : Z) s : Res (Z * IceStream st cand) :=
  _ ← c_assert ((0 <? Z.of_nat (length (is_cands s))) && (0 <? is_comp_cnt s));
  _ ← c_assert (is_state s =? ElaStreamState_transport_ready);
  if negb (timer =? 0) then Ok (timer, s)
  else
    let s := ice_notify_state_changed ElaStreamState_connecting { s with is_keepalive_timer := true } in
    let s := { s with is_local_timestamp := is_clock s; is_remote_timestamp := is_clock s } in
    let '(status, x) := strans_start_ice (is_st s) (is_remote_ufrag s) (is_remote_pwd s) (is_cands s) in
    let s := { s with is_st := x } in
    if status =? 0 then Ok (0, s)
    else Ok (ELA_ICE_ERROR status, ice_notify_state_changed ElaStreamState_failed s).

(** [IcePacket]: version, type, length, data. *)
Definition ice_packet (type len : Z) (data : list byte) : list byte :=
  byte.of_Z 0 :: byte.of_Z type :: be_bytes 2 len ++ data.

(** [ice_handler_write_packet] behind its assertion. *)
Definition send_packet (packet : list byte) s : Z * IceStream st cand :=
  let '(status, x) := strans_sendto (is_st s) packet in
  let s := { s with is_st := x } in
  if negb (status =? 0)
  then (if status =? PJ_EBUSY then ELA_GENERAL_ERROR ELAERR_BUSY else ELA_ICE_ERROR status, s)
  else (0, { s with is_local_timestamp := is_clock s }).

(** [len] is the packet's field before it is turned to network order. *)
Definition ice_handler_write_packet (len : Z) (packet : list byte) s : Res (Z * IceStream st cand) :=
  _ ← c_assert (len + ICE_HEAD_LEN <=? PJ_STUN_SOCK_PKT_LEN);
  Ok (send_packet packet s).

Definition ice_handler_write s (buf : FlexBuffer) : Res (Z * FlexBuffer * IceStream st cand) :=
  let len := fx_size buf in
  _ ← c_assert (len <=? PJ_STUN_SOCK_PKT_LEN - ICE_HEAD_LEN);
  _ ← c_assert (ICE_HEAD_LEN <=? fx_offset buf);
  buf ← flex_buffer_backward_offset buf ICE_HEAD_LEN;
  buf ← fx_write buf (fx_offset buf) (ice_packet PKT_DATA (u16 len) []);
  '(rc, s) ← ice_handler_write_packet (u16 len) (flex_data buf) s;
  if negb (rc =? 0) then Ok (rc, buf, s) else Ok (len, buf, s).

(** A datagram of the peer: what goes up the handlers, if anything. *)
Definition stream_on_rx_data (data : list byte) s : Res (option FlexBuffer * IceStream st cand) :=
  if negb (strans_has_sess (is_st s)) then Ok (None, s)
  else if negb (is_state s =? ElaStreamState_connecting) && negb (is_state s =? ElaStreamState_connected)
  then Ok (None, s)
  else
    version ← packet_field data 0 1;
    pkttype ← packet_field data 1 1;
    len ← packet_field data 2 2;
    let version := be_read version in
    let pkttype := be_read pkttype in
    let len := be_read len in
    if negb (version =? 0) || negb (len + ICE_HEAD_LEN =? Z.of_nat (length data)) || (pkttype <? PKT_SHUTDOWN)
       || (pkttype >? PKT_DATA)
    then Ok (None, s)
    else if pkttype =? PKT_SHUTDOWN then Ok (None, ice_notify_state_changed ElaStreamState_closed s)
    else
      let s := { s with is_remote_timestamp := is_clock s } in
      if pkttype =? PKT_KEEPALIVE then Ok (None, s)
      else Ok (Some (flex_buffer_from FLEX_PADDING_LEN (drop 4 data)), s).

(** Microseconds since a time, in a [long]. *)
Definition usec (t : timeval) : Z := i64 (i64 (tv_sec t * 1000000) + tv_usec t).
Definition usec_since (now before : timeval) : Z := i64 (usec now - usec before).

(** The timer; whether it goes on. *)
Definition ice_stream_keepalive_callback s : Res (bool * IceStream st cand) :=
  if is_state s <? ElaStreamState_connected then Ok (true, s)
  else if is_state s >? ElaStreamState_connected then Ok (false, s)
  else if DEFAULT_TIMEOUT_INTERVAL * 1000 <=? usec_since (is_clock s) (is_remote_timestamp s)
  then Ok (false, ice_notify_state_changed ElaStreamState_closed s)
  else if DEFAULT_KEEPALIVE_INTERVAL * 1000 <=? usec_since (is_clock s) (is_local_timestamp s)
  then '(_, s) ← ice_handler_write_packet 0 (ice_packet PKT_KEEPALIVE 0 []) s; Ok (true, s)
  else Ok (true, s).

(** What stopping reports before it returns. *)
Definition ice_stop_reports (error : Z) s : list Z :=
  if negb (is_stopping s) && (is_state s <=? ElaStreamState_connected)
  then [if error =? 0 then ElaStreamState_closed else ElaStreamState_failed] else [].

Definition ice_handler_stop (error : Z) s : IceStream st cand :=
  if is_stopping s then s
  else
    let s := { s with is_stopping := true } in
    let s :=
      if (ElaStreamState_connecting <=? is_state s) && (is_state s <=? ElaStreamState_connected)
      then (send_packet (ice_packet PKT_SHUTDOWN 0 []) s).2 (* its length is 0 *) else s in
    let s := { s with is_keepalive_timer := false } in
    if strans_has_sess (is_st s)
    then { s with is_st ::= strans_stop_ice; is_held := false } else s.

Definition ice_stream_fire_state_changed (state : Z) s : IceStream st cand := ice_notify_state_changed state s.

(** The handler as a lower layer; the timer for keep-alives can be made. *)
#[export] Instance ice_next : Next (IceStream st cand) := {
  next_write := ice_handler_write;
  next_start := ice_handler_start 0;
  next_stop s error := ice_handler_stop error s
}.
End Ice.
