(* ===== verification/IceStreamProps.v ===== *)
(** * Properties of the transport of a stream

    What one end sends comes up at the other as it was; what a datagram of a peer can
    do; the keep-alive timer; the end of a stream.  The handler is a lower layer in the
    sense of [MultiplexProps.NextLaws]. *)

From S2P Require Import Prelude ElaError FlexBuffer Multiplex MultiplexProps CryptoHandler IceStream.

(** What the documentation of pjlib and pjnath says: a datagram is taken whole or
    refused with a status of pjlib's range. *)
Class IceLaws (st cand : Type) `{!IceStrans st cand} := {
  strans_sent : st -> list (list byte);
  sendto_spec x p status x' : strans_sendto x p = (status, x') ->
    strans_has_sess x' = strans_has_sess x /\
    (status = 0 /\ strans_sent x' = strans_sent x ++ [p] \/
     0 < status < 2 ^ 24 /\ strans_sent x' = strans_sent x);
  stop_ice_spec x : strans_has_sess (strans_stop_ice x) = false /\ strans_sent (strans_stop_ice x) = strans_sent x
}.

Lemma ice_error_range code : 0 <= code < 2 ^ 24 -> - 2 ^ 31 <= ELA_ICE_ERROR code < 0.
Proof.
  intros Hc. unfold ELA_ICE_ERROR, ELAF_ICE. rewrite ELA_MK_ERROR_value by lia. lia.
Qed.

(** ** Packets *)

Lemma length_ice_packet type len d : length (ice_packet type len d) = (4 + length d)%nat.
Proof. unfold ice_packet. cbn [length]. by rewrite length_app, length_be_bytes. Qed.

Lemma ice_packet_fields type len d : 0 <= type < 256 -> is_u16 len ->
  packet_field (ice_packet type len d) 0 1 = Ok [byte.of_Z 0] /\
  packet_field (ice_packet type len d) 1 1 = Ok [byte.of_Z type] /\
  packet_field (ice_packet type len d) 2 2 = Ok (be_bytes 2 len) /\
  be_read [byte.of_Z 0] = 0 /\ be_read [byte.of_Z type] = type /\ be_read (be_bytes 2 len) = len.
Proof.
  intros Ht Hl. unfold packet_field. rewrite length_ice_packet, !(proj2 (Nat.leb_le _ _)) by lia.
  split_and!; [done|done| |done|by apply be_read_byte|].
  - change (drop 2 (ice_packet type len d)) with (be_bytes 2 len ++ d).
    by rewrite take_app_length' by (by rewrite length_be_bytes).
  - rewrite be_read_bytes. change (8 * Z.of_nat 2) with 16. by apply u16_small.
Qed.

Section Props.
Context `{!Stack} {st cand : Type} `{!IceStrans st cand, !IceLaws st cand}.
Implicit Types s : IceStream st cand.

Lemma send_packet_inv p s rc s' : send_packet p s = (rc, s') ->
  rc = 0 /\ strans_sent (is_st s') = strans_sent (is_st s) ++ [p] /\
    (exists x, s' = { s with is_st := x; is_local_timestamp := is_clock s }) \/
  - 2 ^ 31 <= rc < 0 /\ strans_sent (is_st s') = strans_sent (is_st s) /\ (exists x, s' = { s with is_st := x }).
Proof.
  unfold send_packet. destruct (strans_sendto (is_st s) p) as [status x] eqn:E.
  apply sendto_spec in E as (_ & [[-> Hs]|[Hr Hs]]); cbn.
  - intros [= <- <-]. left. split; [done|]. split; [done|]. by exists x.
  - rewrite (proj2 (Z.eqb_neq status 0)) by lia. intros [= <- <-]. right. split; [|split; [done|by exists x]].
    destruct (_ =? PJ_EBUSY); [vm_compute; done|]. apply ice_error_range. lia.
Qed.

(** The data that a datagram carries. *)
Definition ice_payload (p : list byte) : option (list byte) :=
  if be_read (take 1 (drop 1 p)) =? PKT_DATA then Some (drop 4 p) else None.

Lemma ice_payload_data len d : ice_payload (ice_packet PKT_DATA len d) = Some d.
Proof.
  unfold ice_payload. change (take 1 (drop 1 (ice_packet PKT_DATA len d))) with [byte.of_Z PKT_DATA].
  by rewrite be_read_byte by done.
Qed.

Lemma ice_write_spec s b : flex_wf b -> ICE_HEAD_LEN <= fx_offset b ->
  fx_size b <= PJ_STUN_SOCK_PKT_LEN - ICE_HEAD_LEN ->
  exists rc b' s', ice_handler_write s b = Ok (rc, b', s') /\ flex_wf b' /\ is_state s' = is_state s /\
  (rc = fx_size b /\
     strans_sent (is_st s') = strans_sent (is_st s) ++ [ice_packet PKT_DATA (fx_size b) (flex_data b)] \/
   - 2 ^ 31 <= rc < 0 /\ strans_sent (is_st s') = strans_sent (is_st s)).
Proof.
  intros Hwf Ho Hsz. change ICE_HEAD_LEN with 4 in *. unfold PJ_STUN_SOCK_PKT_LEN in *.
  pose proof (length_flex_data b Hwf) as Hl.
  destruct (split_room b 4) as (pre & h & post & E & Hsm & Hh & _); [done|lia|].
  assert (is_u16 (fx_size b)) as Hu by (unfold is_u16; lia).
  unfold ice_handler_write, ice_handler_write_packet. change ICE_HEAD_LEN with 4. unfold PJ_STUN_SOCK_PKT_LEN.
  rewrite (proj2 (Z.leb_le (fx_size b) _)), (proj2 (Z.leb_le 4 _)), u16_small by done. cbn [c_assert mbind Res_bind].
  revert Hsz Hl Hu E Hsm. generalize (fx_size b). generalize (flex_data b). intros d len Hsz Hl Hu -> Hsm.
  pose proof (flex_at_backward pre h d post Hsm) as Hb. rewrite Hh in Hb. rewrite Hb. cbn [mbind Res_bind].
  change (fx_offset (flex_at pre (h ++ d) post)) with (Z.of_nat (length pre)).
  rewrite flex_at_write_head by (rewrite length_ice_packet; cbn [length]; lia). cbn [mbind Res_bind].
  rewrite flex_at_data, (proj2 (Z.leb_le _ _)) by lia. cbn [c_assert mbind Res_bind].
  assert (ice_packet PKT_DATA len [] ++ d = ice_packet PKT_DATA len d) as Ep.
  { unfold ice_packet. by rewrite app_nil_r. }
  rewrite Ep. destruct (send_packet _ s) as [rc s'] eqn:Es. cbn [mbind Res_bind].
  assert (flex_wf (flex_at pre (ice_packet PKT_DATA len d) post)) as Hwf'.
  { apply flex_at_wf. unfold fx_small in *. rewrite !length_app in *. rewrite length_ice_packet. lia. }
  apply send_packet_inv in Es as [(-> & Hs & x & ->)|(Hr & Hs & x & ->)].
  - do 3 eexists. split; [done|]. split; [done|]. split; [done|]. by left.
  - rewrite (proj2 (Z.eqb_neq rc 0)) by lia. do 3 eexists. split; [done|]. split; [done|]. split; [done|]. by right.
Qed.

#[export] Program Instance ice_laws : NextLaws (IceStream st cand) := {
  next_sent s := omap ice_payload (strans_sent (is_st s));
  next_room := ICE_HEAD_LEN;
  next_max := PJ_STUN_SOCK_PKT_LEN - ICE_HEAD_LEN
}.
Next Obligation. done. Qed.
Next Obligation. done. Qed.
Next Obligation.
  intros s b Hwf Ho Hsz. destruct (ice_write_spec s b) as (rc & b' & s' & E & Hwf' & _ & Hrc); [done..|].
  exists rc, b', s'. split; [exact E|]. split; [done|]. destruct Hrc as [[-> Hs]|[Hr Hs]]; [left|right].
  - split; [by destruct Hwf as (_ & ? & _)|]. rewrite Hs, omap_app. cbn. by rewrite ice_payload_data.
  - split; [done|]. by rewrite Hs.
Qed.

(** ** What comes in *)

(** A stream that takes datagrams. *)
Definition takes_data s : Prop :=
  strans_has_sess (is_st s) = true /\
  (is_state s = ElaStreamState_connecting \/ is_state s = ElaStreamState_connected).

Definition heard s : IceStream st cand := { s with is_remote_timestamp := is_clock s }.

(** A packet of one of the three types with the length of its data. *)
Definition well_formed (data : list byte) : Prop :=
  exists type d, PKT_SHUTDOWN <= type <= PKT_DATA /\ Z.of_nat (length d) < 2 ^ 16 /\
    data = ice_packet type (Z.of_nat (length d)) d.

(** What a datagram comes to: data for the handlers above, a change of the stream. *)
Inductive datagram s : list byte -> option (list byte) -> IceStream st cand -> Prop :=
| DgData d : datagram s (ice_packet PKT_DATA (Z.of_nat (length d)) d) (Some d) (heard s)
| DgKeepAlive d : datagram s (ice_packet PKT_KEEPALIVE (Z.of_nat (length d)) d) None (heard s)
| DgShutdown d : datagram s (ice_packet PKT_SHUTDOWN (Z.of_nat (length d)) d) None
    (ice_notify_state_changed ElaStreamState_closed s)
| DgIgnored data : ~ well_formed data -> datagram s data None s.

Lemma takes_data_guard s : takes_data s ->
  strans_has_sess (is_st s) = true /\
  negb (is_state s =? ElaStreamState_connecting) && negb (is_state s =? ElaStreamState_connected) = false.
Proof. intros [Hs [-> | ->]]; by split. Qed.

Lemma byte_of_read b : byte.of_Z (be_read [b]) = b.
Proof.
  pose proof (be_bytes_read 1 [b] eq_refl) as E. change (be_bytes 1 (be_read [b])) with [byte.of_Z (be_read [b])] in E.
  by injection E as E.
Qed.

Lemma packet_of_fields b0 b1 b2 b3 d : be_read [b0] = 0 ->
  b0 :: b1 :: b2 :: b3 :: d = ice_packet (be_read [b1]) (be_read [b2; b3]) d.
Proof.
  intros H0. unfold ice_packet. rewrite <- H0, !byte_of_read.
  by rewrite (be_bytes_read 2 [b2; b3]) by done.
Qed.

Lemma fields_of_packet b0 b1 b2 b3 d type d' : 0 <= type < 256 -> Z.of_nat (length d') < 2 ^ 16 ->
  b0 :: b1 :: b2 :: b3 :: d = ice_packet type (Z.of_nat (length d')) d' ->
  be_read [b0] = 0 /\ be_read [b1] = type /\ be_read [b2; b3] = Z.of_nat (length d') /\ d = d'.
Proof.
  intros Ht Hd E. unfold ice_packet in E. change (byte.of_Z type) with (hd b0 (be_bytes 1 type)) in E.
  assert (be_read (be_bytes 1 type) = type) as E1 by (rewrite be_read_bytes; apply Z.mod_small; lia).
  assert (be_read (be_bytes 2 (Z.of_nat (length d'))) = Z.of_nat (length d')) as E2
    by (rewrite be_read_bytes; apply Z.mod_small; lia).
  destruct (be_bytes 1 type) as [|c [|? ?]] eqn:F1; try by (apply (f_equal length) in F1).
  destruct (be_bytes 2 (Z.of_nat (length d'))) as [|c2 [|c3 [|? ?]]] eqn:F2;
    try by (apply (f_equal length) in F2).
  injection E as -> -> -> -> ->. done.
Qed.

(** C32. Every datagram.  Whatever four bytes or more come in on an active stream, the
    handler does not fault: it hands up exactly the payload of a well-formed data
    packet, notes that the peer is alive, queues the end of the stream for a shutdown,
    and ignores what is not well formed and nothing else; a stream that is not active ignores everything; and shorter
    datagrams are read past their end. *)
Theorem ice_datagrams data s :
  (~ takes_data s -> stream_on_rx_data data s = Ok (None, s)) /\
  (takes_data s -> (4 <= length data)%nat -> exists r up s', stream_on_rx_data data s = Ok (r, s') /\
     datagram s data up s' /\ flex_data <$> r = up /\
     (forall buf, r = Some buf -> Z.of_nat (length data) < 2 ^ 62 -> flex_wf buf /\ FLEX_PADDING_LEN <= fx_offset buf)) /\
  (takes_data s -> (length data < 4)%nat -> stream_on_rx_data data s = Fault BufferOverflow).
Proof.
  split; [|split].
  - intros Hno. unfold stream_on_rx_data. destruct (strans_has_sess (is_st s)) eqn:Hs; [|done]. cbn [negb].
    destruct (Z.eqb_spec (is_state s) ElaStreamState_connecting); [by destruct Hno; split; [|left]|].
    destruct (Z.eqb_spec (is_state s) ElaStreamState_connected); [by destruct Hno; split; [|right]|]. done.
  - intros Hact Hlen. destruct (takes_data_guard s Hact) as [Hs Hg]. unfold stream_on_rx_data. rewrite Hs, Hg.
    destruct data as [|b0 [|b1 [|b2 [|b3 d]]]]; cbn [length] in Hlen; try lia. cbn [negb].
    change (packet_field _ 0 1) with (Ok [b0]). change (packet_field _ 1 1) with (Ok [b1]).
    change (packet_field _ 2 2) with (Ok [b2; b3]). cbn [mbind Res_bind].
    destruct (_ || _) eqn:Hbad.
    { exists None, None, s. split; [done|]. split; [|done]. apply DgIgnored. intros (type & d' & Ht & Hd & E).
      revert Hbad. unfold PKT_SHUTDOWN, PKT_DATA in *.
      destruct (fields_of_packet b0 b1 b2 b3 d type d') as (-> & -> & -> & ->); [lia|done..|].
      rewrite Z.gtb_ltb, (proj2 (Z.eqb_eq (_ + _) _)), (proj2 (Z.ltb_ge type 0)), (proj2 (Z.ltb_ge 2 type)); [done|lia|lia|].
      unfold ICE_HEAD_LEN. cbn [length]. lia. }
    apply orb_false_iff in Hbad as [[[H0%negb_false_iff%Z.eqb_eq Hl%negb_false_iff%Z.eqb_eq]%orb_false_iff Hlo]%orb_false_iff Hhi].
    apply Z.ltb_ge in Hlo. rewrite Z.gtb_ltb in Hhi. apply Z.ltb_ge in Hhi.
    assert (be_read [b2; b3] = Z.of_nat (length d)) as Hd by (cbn [length] in Hl; unfold ICE_HEAD_LEN in Hl; lia).
    rewrite (packet_of_fields b0 b1 b2 b3 d H0), Hd. unfold PKT_DATA, PKT_SHUTDOWN, PKT_KEEPALIVE in *.
    destruct (Z.eqb_spec (be_read [b1]) 0) as [->|Hn0].
    { exists None, None, (ice_notify_state_changed ElaStreamState_closed s). split; [done|]. split; [apply DgShutdown|done]. }
    destruct (Z.eqb_spec (be_read [b1]) 1) as [->|Hn1].
    { exists None, None, (heard s). split; [done|]. split; [apply DgKeepAlive|done]. }
    assert (be_read [b1] = 2) as -> by lia.
    destruct (flex_at_from FLEX_PADDING_LEN d) as (pre & E & Hpre); [done|].
    exists (Some (flex_buffer_from FLEX_PADDING_LEN d)), (Some d), (heard s). split; [done|]. split; [apply DgData|].
    rewrite E. split; [cbn; by rewrite flex_at_data|]. intros buf [= <-] Hsm. split.
    + apply flex_at_wf. unfold fx_small. rewrite length_ice_packet in Hsm. rewrite !length_app, Hpre. unfold FLEX_PADDING_LEN.
      cbn [length]. lia.
    + change (128 <= Z.of_nat (length pre)). by rewrite Hpre.
  - intros Hact Hlen. destruct (takes_data_guard s Hact) as [Hs Hg]. unfold stream_on_rx_data. rewrite Hs, Hg.
    by destruct data as [|b0 [|b1 [|b2 [|b3 d]]]]; cbn [length] in Hlen; try lia.
Qed.

(** ** The timer *)

Definition sane_time (t : timeval) : Prop := 0 <= tv_sec t < 2 ^ 40 /\ 0 <= tv_usec t < 1000000.

(** Microseconds from one time to another. *)
Definition elapsed (before now : timeval) : Z :=
  (tv_sec now - tv_sec before) * 1000000 + (tv_usec now - tv_usec before).

Lemma usec_since_elapsed now before : sane_time now -> sane_time before -> usec_since now before = elapsed before now.
Proof.
  intros [? ?] [? ?]. unfold usec_since, usec, elapsed.
  assert (forall z, - 2 ^ 63 <= z < 2 ^ 63 -> i64 z = z) as Hi by (intros; by apply swrap_small).
  rewrite !(Hi (_ * 1000000)) by lia. rewrite !(Hi (_ + _)) by lia. rewrite Hi by lia. lia.
Qed.

(** Keep-alives and time-outs.  On a connected stream the timer queues the end of
    the stream and stops when nothing was heard of the peer for two minutes; it sends
    one keep-alive when nothing was sent for half a minute; otherwise, and in any other
    state, it changes nothing.  It goes on until the stream is past connected. *)
Theorem ice_keepalive s :
  sane_time (is_clock s) -> sane_time (is_local_timestamp s) -> sane_time (is_remote_timestamp s) ->
  exists more s', ice_stream_keepalive_callback s = Ok (more, s') /\ is_state s' = is_state s /\
  (if is_state s =? ElaStreamState_connected then
     if 120000000 <=? elapsed (is_remote_timestamp s) (is_clock s)
     then more = false /\ s' = ice_notify_state_changed ElaStreamState_closed s
     else more = true /\
       if 30000000 <=? elapsed (is_local_timestamp s) (is_clock s)
       then exists rc, send_packet (ice_packet PKT_KEEPALIVE 0 []) s = (rc, s') /\
              is_notifications s' = is_notifications s /\
              (rc = 0 /\ is_local_timestamp s' = is_clock s /\
                 strans_sent (is_st s') = strans_sent (is_st s) ++ [ice_packet PKT_KEEPALIVE 0 []] \/
               rc < 0 /\ strans_sent (is_st s') = strans_sent (is_st s))
       else s' = s
   else s' = s /\ more = (is_state s <? ElaStreamState_connected)).
Proof.
  intros Hc Hl Hr. unfold ice_stream_keepalive_callback.
  rewrite !usec_since_elapsed by done. change (DEFAULT_TIMEOUT_INTERVAL * 1000) with 120000000.
  change (DEFAULT_KEEPALIVE_INTERVAL * 1000) with 30000000. rewrite Z.gtb_ltb.
  destruct (Z.eqb_spec (is_state s) ElaStreamState_connected) as [Hst|Hst].
  - rewrite Hst, Z.ltb_irrefl. destruct (120000000 <=? _); [by do 2 eexists|].
    destruct (30000000 <=? _); [|by do 2 eexists].
    change (ice_handler_write_packet 0 (ice_packet PKT_KEEPALIVE 0 []) s)
      with (Ok (send_packet (ice_packet PKT_KEEPALIVE 0 []) s)). cbn [mbind Res_bind].
    destruct (send_packet _ s) as [rc s'] eqn:E. exists true, s'.
    destruct (send_packet_inv _ _ _ _ E) as [(-> & Hs & x & ->)|(Hrc & Hs & x & ->)].
    + split; [done|]. split; [done|]. split; [done|]. exists 0. split; [done|]. split; [done|]. by left.
    + split; [done|]. split; [done|]. split; [done|]. exists rc. split; [done|]. split; [done|]. right. split; [lia|done].
  - destruct (Z.ltb_spec (is_state s) ElaStreamState_connected); [by do 2 eexists|].
    rewrite (proj2 (Z.ltb_lt _ _)) by lia. by do 2 eexists.
Qed.

(** ** The end *)

(** The last part of a stop. *)
Lemma stop_end s :
  let s' := if strans_has_sess (is_st { s with is_keepalive_timer := false })
    then { { s with is_keepalive_timer := false } with is_st ::= strans_stop_ice; is_held := false }
    else { s with is_keepalive_timer := false } in
  is_stopping s' = is_stopping s /\ strans_has_sess (is_st s') = false /\ is_keepalive_timer s' = false /\
  is_state s' = is_state s /\ strans_sent (is_st s') = strans_sent (is_st s).
Proof.
  cbn. destruct (strans_has_sess (is_st s)) eqn:E; [|done].
  destruct (stop_ice_spec (is_st s)) as [? ?]. by split_and!.
Qed.

(** What the first stop leaves of the stream and sends to the peer. *)
Definition stopped (told : bool) s s' : Prop :=
  is_stopping s' = true /\ strans_has_sess (is_st s') = false /\ is_keepalive_timer s' = false /\
  is_state s' = is_state s /\
  strans_sent (is_st s') = strans_sent (is_st s) ++ (if told then [ice_packet PKT_SHUTDOWN 0 []] else []).

Lemma first_stop error s : is_stopping s = false ->
  exists told, stopped told s (ice_handler_stop error s) /\
    (told = true -> ElaStreamState_connecting <= is_state s <= ElaStreamState_connected) /\
    (ElaStreamState_connecting <= is_state s <= ElaStreamState_connected -> told = false ->
     (send_packet (ice_packet PKT_SHUTDOWN 0 []) { s with is_stopping := true }).1 < 0).
Proof.
  intros Hstop. unfold ice_handler_stop, stopped. rewrite Hstop. cbv zeta.
  change (is_state { s with is_stopping := true }) with (is_state s). destruct (_ && _) eqn:Hact.
  - apply andb_true_iff in Hact as [Hlo%Z.leb_le Hhi%Z.leb_le]. destruct (send_packet _ _) as [rc s1] eqn:E. cbn [snd fst].
    destruct (stop_end s1) as (E1 & E2 & E3 & E4 & E5).
    destruct (send_packet_inv _ _ _ _ E) as [(-> & Hs & x & ->)|(Hrc & Hs & x & ->)].
    + exists true. split; [|done]. split_and!; [exact E1|exact E2|exact E3|exact E4|]. by rewrite E5, Hs.
    + exists false. split; [|split; [done|lia]]. split_and!; [exact E1|exact E2|exact E3|exact E4|].
      by rewrite E5, Hs, app_nil_r.
  - destruct (stop_end { s with is_stopping := true }) as (E1 & E2 & E3 & E4 & E5). exists false.
    split; [split_and!; [exact E1|exact E2|exact E3|exact E4|by rewrite E5, app_nil_r]|].
    split; [done|]. intros [Hlo Hhi] _. exfalso.
    apply andb_false_iff in Hact as [Hb%Z.leb_gt|Hb%Z.leb_gt]; lia.
Qed.

(** A stream ends once.  The first stop tells the peer when the stream is connecting
    or connected, and only then; it ends the transport's session and the timer.  It
    reports closed, or failed, unless the end was known; every other stop does and
    reports nothing. *)
Theorem ice_stops_once error error' s :
  let s' := ice_handler_stop error s in
  let active := ElaStreamState_connecting <= is_state s <= ElaStreamState_connected in
  let shutdown := ice_packet PKT_SHUTDOWN 0 [] in
  ice_handler_stop error' s' = s' /\ ice_stop_reports error' s' = [] /\
  (is_stopping s = false ->
     strans_has_sess (is_st s') = false /\ is_keepalive_timer s' = false /\ is_state s' = is_state s /\
     (is_state s <= ElaStreamState_connected ->
        exists state, ice_stop_reports error s = [state] /\
          (state = ElaStreamState_closed /\ error = 0 \/ state = ElaStreamState_failed /\ error <> 0)) /\
     exists told : bool, (told = true -> active) /\
       strans_sent (is_st s') = strans_sent (is_st s) ++ (if told then [shutdown] else []) /\
       (active -> told = false -> (send_packet shutdown { s with is_stopping := true }).1 < 0)).
Proof.
  cbv zeta. destruct (is_stopping s) eqn:Hstop.
  { unfold ice_handler_stop, ice_stop_reports. by rewrite Hstop, Hstop. }
  destruct (first_stop error s Hstop) as (told & (E1 & E2 & E3 & E4 & E5) & Ht & Hn).
  split; [unfold ice_handler_stop at 1; by rewrite E1|]. split; [unfold ice_stop_reports; by rewrite E1|].
  intros _. split_and!; [done..| |by exists told]. intros Hle. unfold ice_stop_reports.
  rewrite Hstop, (proj2 (Z.leb_le _ _)) by done. cbn [negb andb].
  eexists. split; [done|]. destruct (Z.eqb_spec error 0); [by left|by right].
Qed.

(** What was queued is still delivered after the end: a stream that was stopped becomes
    connected when its negotiation had just ended. *)
Lemma stop_keeps_queue error s : is_notifications (ice_handler_stop error s) = is_notifications s.
Proof.
  unfold ice_handler_stop. destruct (is_stopping s); [done|]. cbv zeta.
  assert (forall p (s1 : IceStream st cand), is_notifications (send_packet p s1).2 = is_notifications s1) as Hq.
  { intros p s1. destruct (send_packet p s1) as [rc s2] eqn:E.
    by destruct (send_packet_inv _ _ _ _ E) as [(_ & _ & x & ->)|(_ & _ & x & ->)]. }
  destruct (_ && _), (strans_has_sess _); cbn; rewrite ?Hq; done.
Qed.

(** A stream that is stopped before it was prepared keeps the reference that
    [ice_handler_init] took: it is never destroyed and its number never given back. *)
Lemma unprepared_stream_held error s : strans_has_sess (is_st s) = false -> is_stopping s = false ->
  is_state s < ElaStreamState_connecting -> is_held (ice_handler_stop error s) = is_held s.
Proof.
  intros Hs Hstop Hst. unfold ice_handler_stop. rewrite Hstop. cbv zeta.
  change (is_state { s with is_stopping := true }) with (is_state s).
  rewrite (proj2 (Z.leb_gt _ _)) by done. cbn [andb]. cbn. by rewrite Hs.
Qed.
End Props.
