(* ===== verification/Link.v ===== *)
(** * From end to end over a link

    What a stack of handlers puts on the wire and what the stack of the peer makes of
    it, as an interface, [Link], that a handler implements over the one below it: the
    transport ([IceStream]), and encryption over any link ([CryptoHandler]).  Against
    it the data of a channel is followed from the call of one application to the
    callback of the other. *)

From S2P Require Import Prelude ElaError FlexBuffer Multiplex MultiplexProps CryptoHandler IceStream IceStreamProps.

(** ** The interface *)

(** The wire side of a handler: what it sent, and its [on_data] for what comes in. *)
Class Link (next wire : Type) := {
  link_sent : next -> list wire;
  link_rx : next -> wire -> Res (option FlexBuffer * next);
  (* the second end takes what the first one sends *)
  link_matches : next -> next -> Prop
}.

(** A write that is taken is one message, and comes up at the peer as it was. *)
Class LinkLaws (next wire : Type) `{!Next next, !NextLaws next, !Link next wire} := {
  link_spec (n : next) b rc b' n' : flex_wf b -> next_room <= fx_offset b -> fx_size b <= next_max ->
    next_write n b = Ok (rc, b', n') -> 0 <= rc ->
    exists p, link_sent n' = link_sent n ++ [p] /\ forall m, link_matches n m ->
    exists buf m', link_rx m p = Ok (Some buf, m') /\ flex_wf buf /\ FLEX_PADDING_LEN <= fx_offset buf /\
      flex_data buf = flex_data b
}.

(** ** The transport *)

Section IceLink.
Context `{!Stack} {st cand : Type} `{!IceStrans st cand, !IceLaws st cand}.

#[export] Instance ice_link : Link (IceStream st cand) (list byte) := {
  link_sent s := strans_sent (is_st s);
  link_rx s d := stream_on_rx_data d s;
  link_matches _ m := takes_data m
}.

Lemma ice_rx_data (d : list byte) (m : IceStream st cand) : takes_data m -> Z.of_nat (length d) < 2 ^ 16 ->
  stream_on_rx_data (ice_packet PKT_DATA (Z.of_nat (length d)) d) m =
    Ok (Some (flex_buffer_from FLEX_PADDING_LEN d), heard m).
Proof.
  intros Hm Hl. destruct (takes_data_guard m Hm) as [Hs Hg]. unfold stream_on_rx_data. rewrite Hs, Hg. cbn [negb].
  destruct (ice_packet_fields PKT_DATA (Z.of_nat (length d)) d) as (E1 & E2 & E3 & F1 & F2 & F3);
    [done|unfold is_u16; lia|].
  rewrite E1, E2, E3. cbn [mbind Res_bind]. rewrite F1, F2, F3, length_ice_packet.
  unfold ICE_HEAD_LEN. rewrite (proj2 (Z.eqb_eq _ (Z.of_nat (4 + _)))) by lia. done.
Qed.

#[export] Instance ice_link_laws : LinkLaws (IceStream st cand) (list byte).
Proof.
  split. intros n b rc b' n' Hwf Ho Hsz Hw Hrc. change (@next_room _ _ ice_laws) with ICE_HEAD_LEN in Ho.
  change (@next_max _ _ ice_laws) with (PJ_STUN_SOCK_PKT_LEN - ICE_HEAD_LEN) in Hsz.
  destruct (ice_write_spec n b) as (rc1 & b1 & n1 & E & _ & _ & Hrc1); [done..|].
  change (ice_handler_write n b) with (next_write n b) in E. rewrite Hw in E. injection E as <- <- <-.
  destruct Hrc1 as [[-> Hs]|[? _]]; [|lia]. pose proof (length_flex_data b Hwf) as Hl.
  rewrite <- Hl in Hs, Hsz. eexists. split; [exact Hs|]. intros m Hm. unfold PJ_STUN_SOCK_PKT_LEN, ICE_HEAD_LEN in Hsz.
  destruct (flex_at_from FLEX_PADDING_LEN (flex_data b)) as (pre & E & Hpre); [done|].
  do 2 eexists. split; [by apply ice_rx_data; [|lia]|]. rewrite E, flex_at_data. split_and!; [|..|done].
  - apply flex_at_wf. unfold fx_small. rewrite !length_app, Hpre. unfold FLEX_PADDING_LEN. cbn [length]. lia.
  - change (128 <= Z.of_nat (length pre)). by rewrite Hpre.
Qed.
End IceLink.

(** ** Encryption over a link *)

Section CryptoLink.
Context `{!Stack, !Crypto, !CryptoLaws} {next wire : Type}
  `{!Next next, !NextLaws next, !Link next wire, !LinkLaws next wire}.
Context (Hroom : MAC_BYTES + next_room <= FLEX_PADDING_LEN - PROTOCOL_HEAD_LEN)
  (Hmax : MAC_BYTES + PROTOCOL_HEAD_LEN <= next_max).

Definition crypto_link_rx (h : CryptoHandler next) (p : wire) : Res (option FlexBuffer * CryptoHandler next) :=
  '(buf, n) ← link_rx (cr_next h) p;
  let h := { h with cr_next := n } in
  match buf with
  | None => Ok (None, h)
  | Some buf => plain ← crypto_handler_on_rx_data h buf; Ok (plain, h)
  end.

#[export] Instance crypto_link : Link (CryptoHandler next) wire := {
  link_sent h := link_sent (cr_next h);
  link_rx := crypto_link_rx;
  link_matches h m := cr_key m = cr_key h /\ cr_nonce m = cr_nonce h /\ link_matches (wire:=wire) (cr_next h) (cr_next m)
}.

#[local] Existing Instance crypto_laws.
Lemma crypto_link_laws : @LinkLaws (CryptoHandler next) wire _ (crypto_laws Hroom Hmax) _.
Proof.
  split. intros h b rc b' h' Hwf Ho Hsz Hw Hrc.
  change (Z.max ZERO_BYTES (MAC_BYTES + next_room) <= fx_offset b) in Ho.
  change (fx_size b <= next_max - MAC_BYTES) in Hsz. change (crypto_handler_write h b = Ok (rc, b', h')) in Hw.
  destruct (crypto_write_seal Hroom Hmax h b) as (b1 & cbuf & _ & Hc & Hco & Hcs & Hop & E); [done|lia|done|..].
  rewrite E in Hw. destruct (next_write_spec (cr_next h) cbuf) as (sent & c' & n' & Ew & Hwfc & Hsent); [done..|].
  rewrite Ew in Hw. cbn [mbind Res_bind] in Hw. injection Hw as Hrc' <- <-.
  assert (0 <= sent) as Hpos.
  { destruct Hsent as [[? _]|[Hneg _]]; [done|]. destruct Hwfc as (? & ? & ? & _ & ?).
    revert Hrc'. rewrite (proj2 (Z.eqb_neq _ _)); [lia|]. unfold u64, uwrap.
    rewrite <- (Z_mod_plus_full sent 1), Z.mod_small; lia. }
  destruct (link_spec (wire:=wire) (cr_next h) cbuf sent c' n') as (p & Hp & Hup); [done..|].
  exists p. split; [exact Hp|]. intros m (Hk & Hn & Hm). destruct (Hup (cr_next m) Hm) as (buf & n2 & Erx & Hb & Hbo & Hbd).
  cbn [link_rx crypto_link]. unfold crypto_link_rx. rewrite Erx. cbn [mbind Res_bind].
  pose proof crypto_room as (? & ? & ?). pose proof next_max_fits as [_ ?].
  destruct (crypto_rx_spec { m with cr_next := n2 } buf (flex_data b)) as (plain & Epl & Hpw & Hpd & Hpo).
  - rewrite Hbd. unfold opens in *. cbn. by rewrite Hk, Hn.
  - done.
  - unfold FLEX_PADDING_LEN, PROTOCOL_HEAD_LEN in *. lia.
  - rewrite <- (length_flex_data buf Hb), Hbd, (length_flex_data cbuf Hc). lia.
  - rewrite Epl. cbn [mbind Res_bind]. by do 2 eexists.
Qed.
End CryptoLink.

(** ** The data of a channel, from one application to the other *)

Section Channels.
Context `{!HashTables} {L : HashTablesLaws _} `{!Stack, !ChannelApp} {next wire heap : Type}
  `{!Next next, !NextLaws next, !Link next wire, !LinkLaws next wire, !IdsHeap heap}.
Implicit Types w v : MultiplexHandler next heap.

(** A message comes in and goes up to the multiplexer. *)
Definition link_on_data (now : timeval) (p : wire) w : Res (MultiplexHandler next heap) :=
  '(buf, n) ← link_rx (mx_next w) p;
  let w := { w with mx_next := n } in
  match buf with Some buf => multiplex_handler_on_data now buf w | None => Ok w end.

Lemma channel_over_link now now' data cid w rc w' :
  Z.of_nat (length data) < 2 ^ 16 -> fits_below next (Z.of_nat (length data)) -> 0 < cid ->
  (forall id ch, ht_get (channels w) id = Some ch -> is_u16 (ch_id ch) /\ is_u16 (ch_remote_id ch)) ->
  multiplex_handler_write_channel now cid (flex_buffer_from FLEX_PADDING_LEN data) w = Ok (rc, w') -> 0 <= rc ->
  exists ch (p : wire), ht_get (channels w) cid = Some ch /\ rc = Z.of_nat (length data) /\
    link_sent (mx_next w') = link_sent (mx_next w) ++ [p] /\
  forall v peer, mx_reliable v = false -> link_matches (wire:=wire) (mx_next w) (mx_next v) ->
    ht_get (channels v) (ch_remote_id ch) = Some peer -> channel_usable peer = true ->
  exists v', link_on_data now' p v = Ok v' /\ told_data now' peer data v v'.
Proof.
  intros Hlen Hfit Hcid Hids Hwrite Hrc.
  destruct (write_channel_frame now cid data w rc w') as
    (ch & fb & sent & b' & Hch & Hus & Hrem & -> & Hfb & Ho & Hsz & Hd & Ew & Hpos); [done..|].
  destruct (link_spec (wire:=wire) _ _ _ _ _ Hfb Ho Hsz Ew Hpos) as (p & Hp & Hup).
  destruct (Hids cid ch Hch) as [Hid16 Hrem16].
  exists ch, p. split; [done|]. split; [done|]. split; [done|]. intros v peer Hrel Hm Hpeer Hpu.
  destruct (Hup (mx_next v) Hm) as (buf & n & Erx & Hbuf & _ & Hbd). rewrite Hd in Hbd.
  destruct (data_frame_delivered now' (ch_id ch) (ch_remote_id ch) data buf peer { v with mx_next := n })
    as (buf' & v' & En & Htold & _); [done|done|unfold is_u16; lia|done..|].
  exists v'. unfold link_on_data. rewrite Erx. cbn [mbind Res_bind]. unfold multiplex_handler_on_data.
  change (mx_reliable { v with mx_next := n }) with (mx_reliable v). rewrite Hrel, En. by split.
Qed.
End Channels.

(** ** The stack of an encrypted stream *)

Section Secure.
Context `{!HashTables} {L : HashTablesLaws _} `{!Stack, !ChannelApp, !Crypto, !CryptoLaws} {st cand heap : Type}
  `{!IceStrans st cand, !IceLaws st cand, !IdsHeap heap}.

(** Data of the greatest length, with all headers, is what the transport takes. *)
Context (Hmac : ELA_MAX_USER_DATA_LEN + PROTOCOL_HEAD_LEN + MAC_BYTES <= PJ_STUN_SOCK_PKT_LEN - ICE_HEAD_LEN)
  (Hroom : MAC_BYTES <= FLEX_PADDING_LEN - PROTOCOL_HEAD_LEN - ICE_HEAD_LEN).

(** Multiplexer over encryption over the transport, as [ela_session_add_stream] stacks
    them for a stream that is multiplexed, encrypted and not reliable. *)
Definition secure_stream : Type := MultiplexHandler (CryptoHandler (IceStream st cand)) heap.
Implicit Types w v : secure_stream.

Definition stream_ice w : IceStream st cand := cr_next (mx_next w).

(** [on_data] of the handlers, from the transport up. *)
Definition secure_on_data (now : timeval) (datagram : list byte) w : Res secure_stream :=
  '(buf, ice) ← stream_on_rx_data datagram (stream_ice w);
  let h := { mx_next w with cr_next := ice } in
  match buf with
  | None => Ok { w with mx_next := h }
  | Some buf =>
      plain ← crypto_handler_on_rx_data h buf;
      match plain with
      | None => Ok { w with mx_next := h }
      | Some plain => multiplex_handler_on_data now plain { w with mx_next := h }
      end
  end.

Lemma secure_on_data_link now d w : secure_on_data now d w = link_on_data now d w.
Proof.
  unfold secure_on_data, link_on_data. cbn [link_rx crypto_link]. unfold crypto_link_rx. cbn [link_rx ice_link].
  unfold stream_ice. destruct (stream_on_rx_data d (cr_next (mx_next w))) as [[[buf|] ice]|f]; cbn [mbind Res_bind]; try done.
  by destruct (crypto_handler_on_rx_data _ buf) as [[plain|]|f].
Qed.

(** C31. Data over an encrypted stream.  A successful write of at most the greatest
    length to a channel hands the transport exactly one datagram; at a peer whose stream
    is active and has the same key and nonce, this datagram makes the owner of the
    channel be told exactly the bytes that were written, once, and changes no other
    channel. *)
Theorem secure_channel_data now now' data cid w rc w' :
  Z.of_nat (length data) <= ELA_MAX_USER_DATA_LEN -> 0 < cid ->
  (forall id ch, ht_get (channels w) id = Some ch -> is_u16 (ch_id ch) /\ is_u16 (ch_remote_id ch)) ->
  multiplex_handler_write_channel now cid (flex_buffer_from FLEX_PADDING_LEN data) w = Ok (rc, w') -> 0 <= rc ->
  exists ch datagram, ht_get (channels w) cid = Some ch /\ rc = Z.of_nat (length data) /\
    strans_sent (is_st (stream_ice w')) = strans_sent (is_st (stream_ice w)) ++ [datagram] /\
  forall v peer, mx_reliable v = false -> takes_data (stream_ice v) ->
    cr_key (mx_next v) = cr_key (mx_next w) -> cr_nonce (mx_next v) = cr_nonce (mx_next w) ->
    ht_get (channels v) (ch_remote_id ch) = Some peer -> channel_usable peer = true ->
  exists v', secure_on_data now' datagram v = Ok v' /\ told_data now' peer data v v'.
Proof.
  intros Hlen Hcid Hids Hwrite Hrc.
  assert (MAC_BYTES + @next_room _ _ (ice_laws (cand:=cand)) <= FLEX_PADDING_LEN - PROTOCOL_HEAD_LEN) as Hr.
  { change (@next_room _ _ _) with ICE_HEAD_LEN. lia. }
  assert (MAC_BYTES + PROTOCOL_HEAD_LEN <= @next_max _ _ (ice_laws (cand:=cand))) as Hm.
  { change (@next_max _ _ _) with (PJ_STUN_SOCK_PKT_LEN - ICE_HEAD_LEN). unfold ELA_MAX_USER_DATA_LEN in *. lia. }
  pose proof (crypto_link_laws (wire:=list byte) Hr Hm) as Hlink.
  destruct (@channel_over_link _ _ _ _ (CryptoHandler (IceStream st cand)) (list byte) heap _ (crypto_laws Hr Hm) _ Hlink _
    now now' data cid w rc w') as (ch & p & Hch & -> & Hp & Hup).
  - unfold ELA_MAX_USER_DATA_LEN in *. lia.
  - unfold fits_below. change (@next_max _ _ (crypto_laws Hr Hm)) with (PJ_STUN_SOCK_PKT_LEN - ICE_HEAD_LEN - MAC_BYTES). lia.
  - done.
  - done.
  - done.
  - done.
  - exists ch, p. split; [done|]. split; [done|]. split; [exact Hp|]. intros v peer Hrel Htakes Hk Hn Hpeer Hpu.
    rewrite secure_on_data_link. by apply Hup.
Qed.
End Secure.
