(* ===== verification/LinkSample.v ===== *)
(** * Concrete encrypted streams

    A transport that keeps the datagrams it is given, and two streams over it whose
    channel is opened and used; the theorems on transports and links evaluated on them.
    Nothing of the code is modelled here. *)

From S2P Require Import Prelude ElaError FlexBuffer Multiplex MultiplexProps CryptoHandler MuxSample IceStream IceStreamProps Link.

Record wire_strans := { ws_sess : bool; ws_sent : list (list byte) }.

#[export] Instance wire_ice : IceStrans wire_strans (list byte) := {
  PJ_EBUSY := 70011;
  strans_has_sess := ws_sess;
  strans_init_ice x _ _ _ := (0, { x with ws_sess := true });
  strans_start_ice x _ _ _ := (0, x);
  strans_stop_ice x := { x with ws_sess := false };
  strans_sendto x p := (0, { x with ws_sent ::= fun l => l ++ [p] })
}.

#[export] Instance wire_ice_laws : IceLaws wire_strans (list byte).
Proof.
  refine {| strans_sent := ws_sent |}.
  - intros x p status x' [= <- <-]. split; [done|]. by left.
  - done.
Defined.

(** ** From a new stream to a connected one *)

Definition wire_stream : Type := IceStream wire_strans (list byte).

(** The worker takes everything queued; the handler on top sets the state. *)
Fixpoint settle (fuel : nat) (s : wire_stream) : wire_stream :=
  match fuel, ice_on_ioqueue_read s with
  | S fuel, Some (state, s) => settle fuel { s with is_state := state }
  | _, _ => s
  end.

Definition raw : wire_stream :=
  match ice_handler_init (at_sec 0) (0, {| ws_sess := false; ws_sent := [] |}) with
  | inr s => s
  | inl _ => {| is_state := 0; is_st := {| ws_sess := false; ws_sent := [] |}; is_stopping := true;
                is_clock := at_sec 0; is_local_timestamp := at_sec 0; is_remote_timestamp := at_sec 0;
                is_keepalive_timer := false; is_remote_ufrag := ""; is_remote_pwd := ""; is_comp_cnt := 0;
                is_cands := []; is_held := false; is_notifications := [] |}
  end.
Definition some_session : IceSession :=
  {| ic_role := PJ_ICE_SESS_ROLE_CONTROLLING; ic_ufrag := "u"; ic_pwd := "p" |}.

Definition initialized : wire_stream := settle 4 (stream_on_ice_complete OpInit 0 raw).
Definition prepared : wire_stream := settle 4 (ice_handler_prepare some_session initialized).2.
Definition started : wire_stream :=
  match ice_handler_start 0 { prepared with is_comp_cnt := 1; is_cands := [session_key] } with
  | Ok (_, s) => settle 4 s | Fault _ => raw
  end.
Definition connected : wire_stream := settle 4 (stream_on_ice_complete OpNegotiation 0 started).

Example stream_connects :
  is_state initialized = ElaStreamState_initialized /\ is_state prepared = ElaStreamState_transport_ready /\
  is_state started = ElaStreamState_connecting /\ is_state connected = ElaStreamState_connected.
Proof. by vm_compute. Qed.

(** Stopped between the end of its negotiation and the worker's turn, a stream is told to
    be closed and becomes connected afterwards. *)
Example stopped_becomes_connected :
  let negotiated := stream_on_ice_complete OpNegotiation 0 started in
  ice_stop_reports 0 negotiated = [ElaStreamState_closed] /\
  is_state (settle 4 { ice_handler_stop 0 negotiated with is_state := ElaStreamState_closed })
    = ElaStreamState_connected.
Proof. by vm_compute. Qed.

Lemma ice_keepalive_witness :
  ice_stream_keepalive_callback { connected with is_clock := at_sec 130 } =
    Ok (false, ice_notify_state_changed ElaStreamState_closed { connected with is_clock := at_sec 130 }).
Proof.
  destruct (ice_keepalive { connected with is_clock := at_sec 130 }) as (more & s' & E & _ & Hr).
  - vm_compute. by split.
  - vm_compute. by split.
  - vm_compute. by split.
  - rewrite E. destruct Hr as [-> ->]. reflexivity.
Defined.

Lemma ice_datagrams_witness :
  exists r up s', stream_on_rx_data (ice_packet PKT_DATA 1 [byte.of_Z 7]) connected = Ok (r, s') /\
    datagram connected (ice_packet PKT_DATA 1 [byte.of_Z 7]) up s' /\ flex_data <$> r = up.
Proof.
  destruct (ice_datagrams (ice_packet PKT_DATA 1 [byte.of_Z 7]) connected) as (_ & Hup & _).
  destruct Hup as (r & up & s' & E & Hd & Hr & _).
  - split; [by vm_compute|right; by vm_compute].
  - vm_compute. lia.
  - exists r, up, s'. by split_and!.
Defined.

Lemma ice_stops_once_witness :
  ice_stop_reports 0 connected = [ElaStreamState_closed] /\
  strans_has_sess (is_st (ice_handler_stop 0 connected)) = false /\
  ice_handler_stop 1 (ice_handler_stop 0 connected) = ice_handler_stop 0 connected.
Proof.
  destruct (ice_stops_once 0 1 connected) as (E & _ & Hs). split; [by vm_compute|]. split; [|exact E].
  by apply Hs; vm_compute.
Defined.

(** ** A channel over two encrypted streams *)

Definition sec_stream : Type :=
  @MultiplexHandler gmap_HashTables (CryptoHandler wire_stream) (gset Z).

Definition fresh_stream : sec_stream :=
  multiplex_handler_create false false
    {| cr_key := session_key; cr_nonce := session_nonce; cr_next := connected |} ∅.

Definition last_datagram (w : sec_stream) : list byte := default [] (last (ws_sent (is_st (stream_ice w)))).

Definition hears (from to : sec_stream) : sec_stream :=
  match secure_on_data (at_sec 11) (last_datagram from) to with Ok to => to | Fault _ => to end.

Definition opener_asks : sec_stream :=
  match multiplex_handler_open_channel (at_sec 10) ChannelType_User (Some "hi"%string) 60 0 fresh_stream with
  | Ok (_, w) => w | Fault _ => fresh_stream
  end.
Definition acceptor : sec_stream := hears opener_asks fresh_stream.
Definition opener : sec_stream := hears acceptor opener_asks.

Definition some_text : list byte := String.list_byte_of_string "data".

Definition opener_wrote : sec_stream :=
  match multiplex_handler_write_channel (at_sec 12) 1 (flex_buffer_from FLEX_PADDING_LEN some_text) opener with
  | Ok (_, w) => w | Fault _ => opener
  end.

Lemma secure_channel_data_witness :
  exists ch datagram, ht_get (channels opener) 1 = Some ch /\
    strans_sent (is_st (stream_ice opener_wrote)) = strans_sent (is_st (stream_ice opener)) ++ [datagram] /\
  exists v', secure_on_data (at_sec 13) datagram acceptor = Ok v' /\
    mx_events v' = EvChannelData ChannelType_User 1 some_text :: mx_events acceptor.
Proof.
  assert (ELA_MAX_USER_DATA_LEN + PROTOCOL_HEAD_LEN + MAC_BYTES <= PJ_STUN_SOCK_PKT_LEN - ICE_HEAD_LEN)
    as Hmac by (by vm_compute).
  assert (MAC_BYTES <= FLEX_PADDING_LEN - PROTOCOL_HEAD_LEN - ICE_HEAD_LEN) as Hroom by (by vm_compute).
  destruct (secure_channel_data Hmac Hroom (at_sec 12) (at_sec 13) some_text 1 opener 4 opener_wrote)
    as (ch & d & Hch & _ & Hd & Hup).
  - by vm_compute.
  - done.
  - intros id ch Hch. apply ht_items_get in Hch. vm_compute in Hch.
    apply list_elem_of_singleton in Hch. injection Hch as -> ->. unfold is_u16. cbn. lia.
  - vm_compute. reflexivity.
  - done.
  - exists ch, d. split; [exact Hch|]. split; [exact Hd|].
    vm_compute in Hch. injection Hch as <-.
    destruct (Hup acceptor (default (new_channel 0 0 0 0 (at_sec 0)) (ht_get (channels acceptor) 1)))
      as (v' & E & Htold & _).
    + reflexivity.
    + split; [by vm_compute|right; by vm_compute].
    + reflexivity.
    + reflexivity.
    + vm_compute. reflexivity.
    + by vm_compute.
    + exists v'. split; [exact E|]. by destruct Htold as [Htold _].
Defined.
