(* ===== verification/CText.v ===== *)
(** * Formatted text

    What the code uses of [sprintf] and [sscanf]: words ([%s], [%Ns], [%*s]), unsigned
    numbers ([%u], [%llu]) and signed ones ([%d]).  A scan gives what it converted and the rest of the
    text, or nothing; what is printed scans back. *)

From Stdlib Require Import Ascii.
From S2P Require Import Prelude.

(** [isspace] in the C locale. *)
Definition isspace (c : ascii) : bool :=
  let n := Z.of_nat (nat_of_ascii c) in (n =? 32) || ((9 <=? n) && (n <=? 13)).

Definition isdigit (c : ascii) : bool :=
  let n := Z.of_nat (nat_of_ascii c) in (48 <=? n) && (n <=? 57).

Fixpoint skip_space (s : string) : string :=
  match s with
  | String c r => if isspace c then skip_space r else s
  | EmptyString => s
  end.

(** The first word, [n] characters at most. *)
Fixpoint span_word (n : nat) (s : string) : string * string :=
  match n, s with
  | S n, String c r =>
      if isspace c then (""%string, s) else let '(w, rest) := span_word n r in (String c w, rest)
  | _, _ => (""%string, s)
  end.

(** [%Ns] *)
Definition scan_word (n : nat) (s : string) : option (string * string) :=
  let '(w, rest) := span_word n (skip_space s) in
  if str_eqb w "" then None else Some (w, rest).

(** [%*s] *)
Definition scan_skip (s : string) : option string := snd <$> scan_word (String.length s) s.

Fixpoint scan_digits (acc : Z) (s : string) : Z * string :=
  match s with
  | String c r =>
      if isdigit c then scan_digits (acc * 10 + (Z.of_nat (nat_of_ascii c) - 48)) r else (acc, s)
  | EmptyString => (acc, s)
  end.

Definition scan_sign (s : string) : bool * string :=
  match s with
  | String "-" r => (true, r)
  | String "+" r => (false, r)
  | _ => (false, s)
  end.

Definition UINT64_MAX : Z := 2 ^ 64 - 1.

(** [%llu]: a sign is accepted, and what is too large gives the largest value. *)
Definition scan_llu (s : string) : option (Z * string) :=
  let s := skip_space s in
  let '(neg, s) := scan_sign s in
  match s with
  | String c _ =>
      if isdigit c then
        let '(v, rest) := scan_digits 0 s in
        Some (if v >? UINT64_MAX then UINT64_MAX else if neg then u64 (- v) else v, rest)
      else None
  | EmptyString => None
  end.

(** [%d]: the value that [strtol] gives, as an [int]. *)
Definition scan_d (s : string) : option (Z * string) :=
  let s := skip_space s in
  let '(neg, s) := scan_sign s in
  match s with
  | String c _ =>
      if isdigit c then
        let '(v, rest) := scan_digits 0 s in
        Some (i32 (if neg then Z.max (- v) (- 2 ^ 63) else Z.min v (2 ^ 63 - 1)), rest)
      else None
  | EmptyString => None
  end.

(** [atoi] *)
Definition atoi (s : string) : Z := default 0 (fst <$> scan_d s).

(** White space and the characters of a format. *)
Fixpoint scan_chars (lit s : string) : option string :=
  match lit, s with
  | EmptyString, _ => Some s
  | String a lit, String b s => if bool_decide (a = b) then scan_chars lit s else None
  | String _ _, EmptyString => None
  end.
Definition scan_literal (lit s : string) : option string := scan_chars lit (skip_space s).

Definition digit (d : Z) : ascii := ascii_of_nat (Z.to_nat (48 + d)).

(** [%u] and [%llu]; a 64-bit number has 20 digits at most. *)
Fixpoint print_digits (fuel : nat) (n : Z) : string :=
  match fuel with
  | O => ""
  | S fuel =>
      if n <? 10 then String (digit n) ""
      else print_digits fuel (n / 10) +:+ String (digit (n mod 10)) ""
  end.
Definition print_llu (n : Z) : string := print_digits 20 n.

(** ** Round trips *)

Fixpoint all_chars (p : ascii -> bool) (s : string) : bool :=
  match s with String c r => p c && all_chars p r | EmptyString => true end.

Lemma all_chars_app p a b : all_chars p (a +:+ b) = all_chars p a && all_chars p b.
Proof. induction a as [|c a IH]; simpl; [done|]. by rewrite IH, andb_assoc. Qed.

(** A word that [%Ns] takes whole. *)
Definition is_word (n : Z) (s : string) : bool :=
  negb (str_eqb s "") && all_chars (fun c => negb (isspace c)) s && (strlen s <=? n).

Definition ends_word (rest : string) : bool :=
  match rest with String c _ => isspace c | EmptyString => true end.

Lemma span_word_app n w rest : all_chars (fun c => negb (isspace c)) w = true ->
  (String.length w <= n)%nat -> ends_word rest = true -> span_word n (w +:+ rest) = (w, rest).
Proof.
  intros Hw Hn Hr. revert n Hw Hn. induction w as [|c w IH]; intros n Hw Hn.
  - destruct rest as [|c rest]; destruct n; try done. simpl in *. by rewrite Hr.
  - destruct n as [|n]; [cbn in Hn; lia|]. simpl in Hw, Hn |- *.
    apply andb_true_iff in Hw as [Hc%negb_true_iff Hw]. rewrite Hc, IH by (done || lia). done.
Qed.

Lemma skip_word n w rest : is_word n w = true -> skip_space (w +:+ rest) = w +:+ rest.
Proof.
  unfold is_word. destruct w as [|c w]; [done|]. simpl. intros Hw.
  repeat (apply andb_true_iff in Hw as [Hw ?]). by destruct (isspace c).
Qed.

(** The word that [sscanf] finds after a space. *)
Lemma scan_word_app n w rest : is_word (Z.of_nat n) w = true -> ends_word rest = true ->
  scan_word n (w +:+ rest) = Some (w, rest) /\ scan_word n (String " " (w +:+ rest)) = Some (w, rest).
Proof.
  intros Hw Hr. unfold scan_word. change (skip_space (String " " (w +:+ rest))) with (skip_space (w +:+ rest)).
  rewrite (skip_word (Z.of_nat n)) by done. unfold is_word in Hw.
  apply andb_true_iff in Hw as [[Hne Hsp]%andb_true_iff Hlen%Z.leb_le].
  rewrite span_word_app by (unfold strlen in *; done || lia). by apply negb_true_iff in Hne as ->.
Qed.

Lemma digit_value d : 0 <= d < 10 -> isdigit (digit d) = true /\ Z.of_nat (nat_of_ascii (digit d)) - 48 = d.
Proof.
  intros Hd. unfold isdigit, digit. rewrite nat_ascii_embedding, Z2Nat.id by lia. cbv zeta. lia.
Qed.

(** The number a run of digits stands for. *)
Fixpoint value (acc : Z) (s : string) : Z :=
  match s with
  | String c r => value (acc * 10 + (Z.of_nat (nat_of_ascii c) - 48)) r
  | EmptyString => acc
  end.

Lemma value_app acc a b : value acc (a +:+ b) = value (value acc a) b.
Proof. revert acc. induction a as [|c a IH]; intros acc; simpl; [done|]. apply IH. Qed.

Lemma scan_digits_app acc w rest : all_chars isdigit w = true ->
  scan_digits acc (w +:+ rest) = scan_digits (value acc w) rest.
Proof.
  revert acc. induction w as [|c w IH]; intros acc Hw; simpl in Hw |- *; [done|].
  apply andb_true_iff in Hw as [-> Hw]. by apply IH.
Qed.

Lemma print_digits_spec fuel : forall n, (fuel <> 0)%nat -> 0 <= n < 10 ^ Z.of_nat fuel ->
  all_chars isdigit (print_digits fuel n) = true /\ value 0 (print_digits fuel n) = n /\
  print_digits fuel n <> ""%string /\ strlen (print_digits fuel n) <= Z.of_nat fuel.
Proof.
  induction fuel as [|fuel IH]; intros n Hf Hn; [done|]. cbn [print_digits].
  destruct (Z.ltb_spec n 10) as [Hs|Hs].
  - destruct (digit_value n) as [Hd Hv]; [lia|].
    change (strlen (String (digit n) "")) with 1. cbn [all_chars value]. rewrite Hd, Hv.
    split_and!; try done; lia.
  - rewrite Nat2Z.inj_succ, Z.pow_succ_r in Hn by lia.
    destruct (IH (n / 10)) as (Hall & Hval & Hne & Hlen).
    { intros ->. change (10 ^ Z.of_nat 0) with 1 in Hn. lia. }
    { split; [apply Z.div_pos; lia|apply Z.div_lt_upper_bound; lia]. }
    pose proof (Z.mod_pos_bound n 10). destruct (digit_value (n mod 10)) as [Hd Hv]; [lia|].
    rewrite all_chars_app, value_app, strlen_app, Hall, Hval. simpl. rewrite Hd, Hv.
    change (strlen (String (digit (n mod 10)) "")) with 1. split_and!; try done.
    + pose proof (Z.div_mod n 10). lia.
    + by destruct (print_digits fuel (n / 10)).
    + lia.
Qed.

Lemma print_llu_length n : is_u64 n -> strlen (print_llu n) <= 20.
Proof. intros Hn. apply (print_digits_spec 20 n); [done|]. unfold is_u64 in Hn. lia. Qed.

Lemma str_app_nil s : s +:+ "" = s.
Proof. induction s as [|c s IH]; [done|]. change (String c (s +:+ "") = String c s). by rewrite IH. Qed.

Lemma str_app_assoc a b c : (a +:+ b) +:+ c = a +:+ (b +:+ c).
Proof. induction a as [|x a IH]; [done|]. change (String x ((a +:+ b) +:+ c) = String x (a +:+ (b +:+ c))). by rewrite IH. Qed.

(** The digits that are printed, at the head of a text. *)
Definition ends_digits (rest : string) : bool :=
  match rest with String c _ => negb (isdigit c) | EmptyString => true end.

Lemma isdigit_not_space c : isdigit c = true -> isspace c = false.
Proof. unfold isdigit, isspace. intros [H1 H2]%andb_true_iff. destruct (_ || _) eqn:E; [lia|done]. Qed.

Lemma scan_digits_stop acc rest : ends_digits rest = true -> scan_digits acc rest = (acc, rest).
Proof. destruct rest as [|c rest]; [done|]. cbn. by intros ->%negb_true_iff. Qed.

Lemma scan_sign_digit c r : isdigit c = true -> scan_sign (String c r) = (false, String c r).
Proof. intros Hc. destruct c as [[] [] [] [] [] [] [] []]; try done; by vm_compute in Hc. Qed.

Lemma scan_digits_print n rest : is_u64 n -> ends_digits rest = true ->
  exists c w, print_llu n = String c w /\ isdigit c = true /\ skip_space (print_llu n +:+ rest) = print_llu n +:+ rest /\
    scan_digits 0 (print_llu n +:+ rest) = (n, rest).
Proof.
  intros Hn Hr. unfold print_llu. destruct (print_digits_spec 20 n) as (Hall & Hval & Hne & _);
    [done|unfold is_u64 in Hn; lia|].
  destruct (print_digits 20 n) as [|c w] eqn:E; [done|]. exists c, w.
  pose proof Hall as Hc. cbn in Hc. apply andb_true_iff in Hc as [Hc _]. split; [done|]. split; [done|]. split.
  - change (String c w +:+ rest) with (String c (w +:+ rest)). cbn [skip_space]. by rewrite (isdigit_not_space c).
  - rewrite scan_digits_app, Hval by done. by apply scan_digits_stop.
Qed.

Lemma scan_d_print n rest : 0 <= n < 2 ^ 31 -> ends_digits rest = true ->
  scan_d (print_llu n +:+ rest) = Some (n, rest) /\ scan_d (String " " (print_llu n +:+ rest)) = Some (n, rest).
Proof.
  intros Hn Hr. destruct (scan_digits_print n rest) as (c & w & E & Hc & Hs & Hd); [unfold is_u64; lia|done|].
  unfold scan_d. change (skip_space (String " " ?s)) with (skip_space s). rewrite Hs, E in *.
  change (String c w +:+ rest) with (String c (w +:+ rest)) in *.
  rewrite (scan_sign_digit c) by done.
  rewrite Hc, Hd. rewrite Z.min_l by lia. by rewrite (swrap_small 32) by lia.
Qed.

Lemma atoi_print n : 0 <= n < 2 ^ 31 -> atoi (print_llu n) = n.
Proof. intros Hn. unfold atoi. destruct (scan_d_print n "") as [E _]; [done|done|]. rewrite str_app_nil in E. by rewrite E. Qed.

Lemma scan_chars_app lit rest : scan_chars lit (lit +:+ rest) = Some rest.
Proof. induction lit as [|c lit IH]; [done|].
  change (scan_chars (String c lit) (String c (lit +:+ rest)) = Some rest). cbn [scan_chars]. by rewrite bool_decide_true. Qed.

Lemma scan_literal_app n lit rest : is_word n lit = true -> scan_literal lit (String " " (lit +:+ rest)) = Some rest.
Proof.
  intros Hw. unfold scan_literal. change (skip_space (String " " ?s)) with (skip_space s).
  rewrite (skip_word n) by done. apply scan_chars_app.
Qed.

Lemma scan_literal_none c lit : scan_literal (String c lit) "" = None.
Proof. done. Qed.

Lemma scan_llu_print n : is_u64 n -> scan_llu (String " " (print_llu n)) = Some (n, ""%string).
Proof.
  intros Hn. destruct (scan_digits_print n "") as (c & w & E & Hc & Hs & Hd); [done|done|].
  rewrite str_app_nil in Hs, Hd. unfold scan_llu. change (skip_space (String " " ?s)) with (skip_space s).
  rewrite Hs, E in *.
  rewrite (scan_sign_digit c) by done.
  rewrite Hc, Hd. unfold UINT64_MAX, is_u64 in *. by rewrite Z.gtb_ltb, (proj2 (Z.ltb_ge _ _)) by lia.
Qed.
