(* ===== verification/Sdp.v ===== *)
(** * Session descriptions (src/src/session/ice.c)

    What a session tells its peer of itself, [ice_session_encode_local_sdp], and what it
    takes from the peer's description, [ice_session_apply_remote_sdp].  The text is
    pjmedia's, the interface [PjMedia] from and to the tree of a description; addresses
    are pjlib's, [SockAddr]; the text of a nonce is libcrystal's.  The operations are
    the functions [encode_local_sdp], [apply_remote_sdp] and [set_offer] of a session,
    whose streams have the transport of [IceStream] at the bottom ([IceBottom]). *)

From Stdlib Require Import Ascii.
From S2P Require Import Prelude ElaError Carrier FlexBuffer Multiplex Session IceStream CText.

Definition ELAERR_SDP_TOO_LONG : Z := 0x13.
Definition ELAERR_INVALID_SDP : Z := 0x14.

Record pj_sockaddr := { sa_addr : string; sa_port : Z }.
#[export] Instance pj_sockaddr_eq_dec : EqDecision pj_sockaddr.
Proof. solve_decision. Defined.

Inductive pj_ice_cand_type :=
| PJ_ICE_CAND_TYPE_HOST | PJ_ICE_CAND_TYPE_SRFLX | PJ_ICE_CAND_TYPE_PRFLX | PJ_ICE_CAND_TYPE_RELAYED.

(** The foundation of a candidate is a pointer; [None] points to memory that is gone. *)
Record pj_ice_sess_cand := {
  cand_type : pj_ice_cand_type;
  cand_comp_id : Z;
  cand_foundation : option string;
  cand_prio : Z;
  cand_addr : pj_sockaddr;
  cand_rel_addr : pj_sockaddr
}.

(** The tree of a description.  The values of a tree that was parsed point into the text, and
    C goes on reading where a value ends: [md_after] has, attribute by attribute, the rest of
    the text.  A tree that is being built has none. *)
Record sdp_media := {
  md_media : string; md_port : Z; md_fmt : list string; md_conn : option string; md_attrs : list (string * string);
  md_after : list string
}.
Record sdp_session := {
  sd_user : string; sd_id : Z; sd_addr : string; sd_name : string;
  sd_attrs : list (string * string); sd_media : list sdp_media
}.

(** pjmedia: a status that is not 0, or the tree; the text, if it fits the area. *)
Class PjMedia := {
  PJMEDIA_MAX_SDP_MEDIA : Z;
  PJMEDIA_MAX_SDP_ATTR : Z;
  PJ_ETOOMANY : Z;
  sdp_parse : list byte -> Z + sdp_session;
  sdp_validate : sdp_session -> Z;
  sdp_print : sdp_session -> Z -> option (list byte)
}.

(** The time and, of pjlib, the address of the host and addresses as text; whether a
    text is IPv6 is an argument. *)
Class SockAddr := {
  time : Z;
  gethostip : Z + pj_sockaddr;
  sockaddr_print : pj_sockaddr -> string;
  sockaddr_init : bool -> string -> Z -> pj_sockaddr
}.

(** pjnath, beside [IceStrans]: the components that run, the default candidate of the
    first and the candidates of each. *)
Class IceCands (st : Type) := {
  PJ_ICE_ST_MAX_CAND : Z;
  strans_running_comp_cnt : st -> Z;
  strans_def_cand : st -> Z + pj_ice_sess_cand;
  strans_enum_cands : st -> Z -> Z + list pj_ice_sess_cand
}.

(** crypto.h (libcrystal) *)
Class NonceText := {
  crypto_nonce_to_str : list byte -> string;
  crypto_nonce_from_str : string -> list byte -> list byte
}.

(** The handler at the bottom of what is below a stream's multiplexer. *)
Class IceBottom (next st : Type) := {
  ice_of : next -> IceStream st pj_ice_sess_cand;
  map_ice : (IceStream st pj_ice_sess_cand -> IceStream st pj_ice_sess_cand) -> next -> next
}.

Definition pj_ice_get_cand_type_name (t : pj_ice_cand_type) : string :=
  match t with
  | PJ_ICE_CAND_TYPE_HOST => "host"
  | PJ_ICE_CAND_TYPE_SRFLX => "srflx"
  | PJ_ICE_CAND_TYPE_PRFLX => "prflx"
  | PJ_ICE_CAND_TYPE_RELAYED => "relay"
  end.

Definition stream_type_str (type : Z) : string :=
  default "" (["audio"; "video"; "text"; "application"; "message"]%string !! Z.to_nat type).

(** [snprintf] into an area of [n] bytes. *)
Definition snprintf (n : Z) (s : string) : string := String.substring 0 (Z.to_nat (n - 1)) s.

Fixpoint words (l : list string) : string :=
  match l with
  | [] => ""
  | [w] => w
  | w :: l => w +:+ String " "%char (words l)
  end.

Section Encode.
Context `{!HashTables, !Base58, !PjMedia, !SockAddr, !NonceText} {next heap cb ids st : Type}
  `{!IceStrans st pj_ice_sess_cand, !IceCands st, !IceBottom next st}.
Implicit Types ws : ElaSession next heap cb ids IceSession.
Implicit Types s : ElaStream next heap.

(** [stream->handler] *)
Definition bottom_ice s : IceStream st pj_ice_sess_cand := ice_of (pipe_lower (s_pipe s)).

(** The bits of the options of a stream that both ends must have alike. *)
Definition stream_ops s : Z :=
  Z.lor (if s_unencrypt s then ELA_STREAM_PLAIN else 0)
    (Z.lor (if s_multiplexing s then ELA_STREAM_MULTIPLEXING else 0)
       (Z.lor (if s_reliable s then ELA_STREAM_RELIABLE else 0)
          (if s_portforwarding s then ELA_STREAM_PORT_FORWARDING else 0))).

Definition candidate_text (c : pj_ice_sess_cand) : Res string :=
  let fixed :=
    [or_empty (cand_foundation c); print_llu (cand_comp_id c); "UDP"; print_llu (cand_prio c);
     sockaddr_print (cand_addr c); print_llu (sa_port (cand_addr c)); "typ";
     pj_ice_get_cand_type_name (cand_type c)]%string in
  match cand_type c with
  | PJ_ICE_CAND_TYPE_HOST => Ok (snprintf 128 (words fixed))
  | PJ_ICE_CAND_TYPE_SRFLX | PJ_ICE_CAND_TYPE_RELAYED =>
      Ok (snprintf 128 (words (fixed ++
        ["raddr"; sockaddr_print (cand_rel_addr c); "rport"; print_llu (sa_port (cand_rel_addr c))]%string)))
  | PJ_ICE_CAND_TYPE_PRFLX => Fault Uninitialised
  end.

(** The attributes of a stream's candidates, one after the other, or a status. *)
Fixpoint add_candidates (l : list pj_ice_sess_cand) (attrs : list (string * string)) : Res (Z + list (string * string)) :=
  match l with
  | [] => Ok (inr attrs)
  | c :: l =>
      text ← candidate_text c;
      if PJMEDIA_MAX_SDP_ATTR <=? Z.of_nat (length attrs) then Ok (inl PJ_ETOOMANY)
      else add_candidates l (attrs ++ [("candidate"%string, text)])
  end.

Fixpoint add_components (n : nat) (comp : Z) (x : st) (attrs : list (string * string)) : Res (Z + list (string * string)) :=
  match n with
  | O => Ok (inr attrs)
  | S n =>
      match strans_enum_cands x comp with
      | inl status => Ok (inl status)
      | inr l =>
          r ← add_candidates l attrs;
          match r with inl status => Ok (inl status) | inr attrs => add_components n (comp + 1) x attrs end
      end
  end.

(** The description of one stream, or an error; [ops] of the streams before it. *)
Definition encode_stream (ops : Z) s : Res (Z + Z * sdp_media) :=
  let x := is_st (bottom_ice s) in
  if negb (strans_has_sess x) then Ok (inl (ELA_GENERAL_ERROR ELAERR_WRONG_STATE))
  else if strans_running_comp_cnt x =? 0 then Ok (inl (ELA_GENERAL_ERROR ELAERR_WRONG_STATE))
  else
    match strans_def_cand x with
    | inl status => Ok (inl (ELA_ICE_ERROR status))
    | inr c =>
        let ops := Z.lor ops (stream_ops s) in
        attrs ← add_components (Z.to_nat (strans_running_comp_cnt x)) 1 x [];
        match attrs with
        | inl status => Ok (inl (ELA_ICE_ERROR status))
        | inr attrs =>
            Ok (inr (ops, {| md_media := stream_type_str (s_type s); md_port := sa_port (cand_addr c);
                             md_fmt := [print_llu ops]; md_conn := Some (sockaddr_print (cand_addr c));
                             md_attrs := attrs; md_after := [] |}))
        end
    end.

Fixpoint encode_streams (ops : Z) (l : list (ElaStream next heap)) (media : list sdp_media) : Res (Z + list sdp_media) :=
  match l with
  | [] => Ok (inr media)
  | s :: l =>
      r ← encode_stream ops s;
      match r with
      | inl rc => Ok (inl rc)
      | inr (ops, m) =>
          if PJMEDIA_MAX_SDP_MEDIA <=? Z.of_nat (length media) then Fault BufferOverflow
          else encode_streams ops l (media ++ [m])
      end
  end.

Definition ice_session_encode_local_sdp (len : Z) ws : Res (Z + list byte) :=
  match gethostip with
  | inl status => Ok (inl (ELA_ICE_ERROR status))
  | inr addr =>
      let attrs :=
        [("ice-ufrag"%string, ic_ufrag (ws_transport ws)); ("ice-pwd"%string, ic_pwd (ws_transport ws))]
        ++ (if ws_crypto_enabled ws then [("nonce"%string, crypto_nonce_to_str (ws_nonce ws))] else []) in
      media ← encode_streams 0 (ws_streams ws) [];
      match media with
      | inl rc => Ok (inl rc)
      | inr media =>
          let sdp := {| sd_user := base58_encode (ws_public_key ws); sd_id := u32 time;
                        sd_addr := sockaddr_print addr; sd_name := "elastos-ice-session";
                        sd_attrs := attrs; sd_media := media |} in
          let status := sdp_validate sdp in
          if negb (status =? 0) then Ok (inl (ELA_ICE_ERROR status))
          else
            match sdp_print sdp len with
            | None => Ok (inl (ELA_GENERAL_ERROR ELAERR_SDP_TOO_LONG))
            | Some text => Ok (inr text)
            end
      end
  end.
End Encode.

(** ** The description of the peer *)

(** A candidate as its text gives it. *)
Record cand_line := {
  cl_foundation : string; cl_comp_id : Z; cl_prio : Z; cl_ipaddr : string; cl_port : Z; cl_type : string;
  cl_related : option (string * Z)
}.

(** [%Ns] into an area of [N] bytes: a word of [N] characters leaves no room for the
    terminator. *)
Definition scan_field {A} (n : nat) (s : string) (k : string -> string -> Res (option A)) : Res (option A) :=
  match scan_word n s with
  | None => Ok None
  | Some (w, s) => if strlen w <? Z.of_nat n then k w s else Fault BufferOverflow
  end.

Definition scan_number {A} (s : string) (k : Z -> string -> Res (option A)) : Res (option A) :=
  match scan_d s with None => Ok None | Some (v, s) => k v s end.

(** The [sscanf] of a candidate; nothing unless it converts 7 or 9 fields. *)
Definition scan_candidate (s : string) : Res (option cand_line) :=
  scan_field 32 s (fun foundation s =>
  scan_number s (fun comp_id s =>
  scan_field 12 s (fun _ s =>
  scan_number s (fun prio s =>
  scan_field 80 s (fun ipaddr s =>
  scan_number s (fun port s =>
  match scan_literal "typ" s with
  | None => Ok None
  | Some s =>
      scan_field 32 s (fun type s =>
        let line related :=
          {| cl_foundation := foundation; cl_comp_id := comp_id; cl_prio := prio; cl_ipaddr := ipaddr;
             cl_port := port; cl_type := type; cl_related := related |} in
        match scan_literal "raddr" s with
        | None => Ok (Some (line None))
        | Some s =>
            match scan_word 80 s with
            | None => Ok (Some (line None))
            | Some _ =>
                scan_field 80 s (fun raddr s =>
                  match scan_literal "rport" s with
                  | None => Ok None
                  | Some s => scan_number s (fun rport _ => Ok (Some (line (Some (raddr, rport)))))
                  end)
            end
        end)
  end)))))).

Definition cand_type_of (name : string) : option pj_ice_cand_type :=
  if str_eqb name "host" then Some PJ_ICE_CAND_TYPE_HOST
  else if str_eqb name "srflx" then Some PJ_ICE_CAND_TYPE_SRFLX
  else if str_eqb name "relay" then Some PJ_ICE_CAND_TYPE_RELAYED
  else if str_eqb name "prflx" then Some PJ_ICE_CAND_TYPE_PRFLX
  else None.

Fixpoint has_char (c : ascii) (s : string) : bool :=
  match s with EmptyString => false | String d s => bool_decide (c = d) || has_char c s end.

(** [strncpy] into an area of [cap] bytes with the length of the source. *)
Definition strncpy (cap : Z) (s : string) : Res string := if strlen s <=? cap then Ok s else Fault BufferOverflow.

(** The last attribute of a name. *)
Fixpoint last_attr (name : string) (l : list (string * string)) : option string :=
  match l with
  | [] => None
  | (n, v) :: l => match last_attr name l with Some v => Some v | None => if str_eqb n name then Some v else None end
  end.

Section Apply.
Context `{!HashTables, !Base58, !PjMedia, !SockAddr, !NonceText} {next heap cb ids st : Type}
  `{!Lower next IceSession, !IceStrans st pj_ice_sess_cand, !IceCands st, !IceBottom next st}.
Implicit Types ws : ElaSession next heap cb ids IceSession.
Implicit Types s : ElaStream next heap.
Implicit Types x : IceStream st pj_ice_sess_cand.

Definition is_controlling (role : pj_ice_sess_role) : bool :=
  match role with PJ_ICE_SESS_ROLE_CONTROLLING => true | _ => false end.

Definition no_sockaddr : pj_sockaddr := {| sa_addr := ""; sa_port := 0 |}.

Definition candidate_of (l : cand_line) (type : pj_ice_cand_type) : pj_ice_sess_cand :=
  {| cand_type := type; cand_comp_id := u8 (cl_comp_id l); cand_foundation := None; cand_prio := u32 (cl_prio l);
     cand_addr := sockaddr_init (has_char ":" (cl_ipaddr l)) (cl_ipaddr l) (u16 (cl_port l));
     cand_rel_addr := match cl_related l with
                      | Some (raddr, rport) => sockaddr_init (has_char ":" (cl_ipaddr l)) raddr (u16 rport)
                      | None => no_sockaddr
                      end |}.

(** The candidates of a stream; [false] when one of them is not well formed.  A value is
    scanned from its pointer on, whatever its length: [after] is what follows each. *)
Fixpoint apply_candidates (attrs : list (string * string)) (after : list string) x :
    Res (bool * IceStream st pj_ice_sess_cand) :=
  match attrs with
  | [] => Ok (true, x)
  | (name, value) :: attrs =>
      if negb (str_eqb name "candidate") then apply_candidates attrs (tail after) x
      else
        line ← scan_candidate (value +:+ or_empty (head after));
        match line with
        | None => Ok (false, x)
        | Some l =>
            match cand_type_of (cl_type l) with
            | None => Ok (false, x)
            | Some type =>
                if PJ_ICE_ST_MAX_CAND <=? Z.of_nat (length (is_cands x)) then Fault BufferOverflow
                else
                  apply_candidates attrs (tail after)
                    { x with is_cands ::= fun l' => l' ++ [candidate_of l type];
                             is_comp_cnt ::= Z.max (cl_comp_id l) }
            end
        end
  end.

Definition no_remote x : IceStream st pj_ice_sess_cand :=
  { x with is_remote_ufrag := ""; is_remote_pwd := ""; is_comp_cnt := 0; is_cands := [] }.

Definition map_stream (f : IceStream st pj_ice_sess_cand -> IceStream st pj_ice_sess_cand) s : ElaStream next heap :=
  { s with s_pipe ::= map_lower (map_ice f) }.

(** One stream with its part of the description, if there is one: whether the rest goes
    on, the options so far, and the stream. *)
Definition apply_media (ufrag pwd : option string) (ops : Z) (m : option sdp_media) s :
    Res (bool * Z * ElaStream next heap) :=
  match m with
  | None => Ok (true, ops, { s with s_deactivate := true })
  | Some m =>
      ufrag ← strncpy 80 (or_empty ufrag);
      pwd ← strncpy 80 (or_empty pwd);
      _ ← deref (md_conn m);
      fmt ← deref (md_fmt m !! 0%nat);
      let x := { no_remote (bottom_ice s) with is_remote_ufrag := ufrag; is_remote_pwd := pwd } in
      let ops := Z.lor ops (stream_ops s) in
      if negb (ops =? atoi fmt) then Ok (true, ops, { map_stream (fun _ => x) s with s_deactivate := true })
      else
        '(ok, x) ← apply_candidates (md_attrs m) (md_after m) x;
        Ok (ok, ops, map_stream (fun _ => if ok : bool then x else no_remote x) s)
  end.

Fixpoint apply_streams (ufrag pwd : option string) (ops : Z) (media : list sdp_media)
    (l : list (ElaStream next heap)) : Res (bool * list (ElaStream next heap)) :=
  match l with
  | [] => Ok (true, [])
  | s :: l =>
      '(go, ops, s) ← apply_media ufrag pwd ops (head media) s;
      if negb go then Ok (false, s :: l)
      else '(ok, l) ← apply_streams ufrag pwd ops (tail media) l; Ok (ok, s :: l)
  end.

Definition ice_session_apply_remote_sdp (text : list byte) ws : Res (Z * ElaSession next heap cb ids IceSession) :=
  _ ← c_assert (negb (Z.of_nat (length text) =? 0));
  match sdp_parse text with
  | inl status => Ok (ELA_ICE_ERROR status, ws)
  | inr sdp =>
      if negb (str_eqb (sd_name sdp) "elastos-ice-session") then Ok (ELA_GENERAL_ERROR ELAERR_INVALID_SDP, ws)
      else
        match base58_decode (sd_user sdp) (Z.of_nat (length (ws_peer_pubkey ws))) with
        | None => Ok (ELA_GENERAL_ERROR ELAERR_INVALID_SDP, ws)
        | Some key =>
            let ws := { ws with ws_peer_pubkey ::= splice 0 key } in
            let ws :=
              match last_attr "nonce" (sd_attrs sdp) with
              | Some nonce =>
                  if negb (is_controlling (ic_role (ws_transport ws)))
                  then share_keys { ws with ws_nonce ::= crypto_nonce_from_str nonce } else ws
              | None => ws
              end in
            '(ok, l) ← apply_streams (last_attr "ice-ufrag" (sd_attrs sdp)) (last_attr "ice-pwd" (sd_attrs sdp)) 0
              (sd_media sdp) (ws_streams ws);
            let ws := { ws with ws_streams := l } in
            Ok (if ok : bool then 0 else ELA_GENERAL_ERROR ELAERR_INVALID_SDP, ws)
        end
  end.

#[export] Instance ice_sdp : SdpLayer (ElaSession next heap cb ids IceSession) := {
  set_offer offerer ws :=
    let '(ok, session) := ice_session_set_offer offerer (ws_transport ws) in (ok, { ws with ws_transport := session });
  encode_local_sdp := ice_session_encode_local_sdp;
  apply_remote_sdp := ice_session_apply_remote_sdp
}.
End Apply.
