(* ===== verification/SdpProps.v ===== *)
(** * What a description carries

    The text of a candidate gives the candidate back; the description of one session,
    taken in by another, gives it the peer's public key, the nonce and, stream by
    stream, the peer's credentials and candidates, and deactivates the streams whose
    options differ. *)

From Stdlib Require Import Ascii.
From S2P Require Import Prelude ElaError Carrier FlexBuffer Multiplex Session SessionProps IceStream CText Sdp.

(** ** Scanning what was printed *)

Lemma is_word_more n m w : is_word n w = true -> n <= m -> is_word m w = true.
Proof.
  unfold is_word. intros [Hw Hl%Z.leb_le]%andb_true_iff Hm. apply andb_true_iff. split; [done|]. apply Z.leb_le. lia.
Qed.

Lemma scan_field_app {A} n w rest (k : string -> string -> Res (option A)) :
  is_word (Z.of_nat n - 1) w = true -> ends_word rest = true ->
  scan_field n (w +:+ rest) k = k w rest /\ scan_field n (String " " (w +:+ rest)) k = k w rest.
Proof.
  intros Hw Hr. unfold scan_field. destruct (scan_word_app n w rest) as [-> ->]; [eapply is_word_more; [done|lia]|done|].
  assert (strlen w <= Z.of_nat n - 1).
  { unfold is_word in Hw. apply andb_true_iff in Hw as [_ ?%Z.leb_le]. done. }
  by rewrite (proj2 (Z.ltb_lt _ _)) by lia.
Qed.

Lemma scan_number_print {A} v rest (k : Z -> string -> Res (option A)) : 0 <= v < 2 ^ 31 -> ends_digits rest = true ->
  scan_number (String " " (print_llu v +:+ rest)) k = k v rest.
Proof. intros Hv Hr. unfold scan_number. by destruct (scan_d_print v rest) as [_ ->]. Qed.

Lemma substring_all s n : (String.length s <= n)%nat -> String.substring 0 n s = s.
Proof. revert n. induction s as [|c s IH]; intros [|n] Hn; cbn in *; try done; try lia. by rewrite IH by lia. Qed.

Lemma snprintf_fits n s : strlen s < n -> snprintf n s = s.
Proof. unfold snprintf, strlen. intros Hn. apply substring_all. lia. Qed.

(** What is relied on of pjlib and libcrystal: an address that prints as a word of at
    most 79 characters is read back, whatever its port; a nonce is read back from its
    text; a text that pjmedia prints of a valid tree parses to it, with every attribute on a
    line of its own. *)
Class SockAddrLaws `{!SockAddr} := {
  sockaddr_valid : pj_sockaddr -> Prop;
  sockaddr_word a : sockaddr_valid a -> is_word 79 (sockaddr_print a) = true /\ 0 <= sa_port a < 2 ^ 16;
  sockaddr_back a : sockaddr_valid a ->
    sockaddr_init (has_char ":" (sockaddr_print a)) (sockaddr_print a) (sa_port a) = a
}.
Arguments SockAddrLaws : clear implicits.
Arguments SockAddrLaws {_}.

(** What follows a value that a line break ends: the next line does not begin with the word
    that a scan of the value could still take. *)
Definition line_end (t : string) : bool :=
  ends_word t && match scan_literal "raddr" t with None => true | Some _ => false end.

(** A tree without what the text has after the values. *)
Definition bare (m : sdp_media) : sdp_media := { m with md_after := [] }.

Class PjMediaLaws `{!PjMedia} := {
  sdp_back sdp len text : sdp_validate sdp = 0 -> sdp_print sdp len = Some text ->
    text <> [] /\ exists sdp', sdp_parse text = inr sdp' /\
      { sdp' with sd_media ::= fmap bare } = { sdp with sd_media ::= fmap bare } /\
      Forall (fun m => forallb line_end (md_after m) = true) (sd_media sdp')
}.
Arguments PjMediaLaws : clear implicits.
Arguments PjMediaLaws {_}.

Section Candidates.
Context `{!SockAddr, !SockAddrLaws}.
Implicit Types c : pj_ice_sess_cand.

(** A candidate as pjnath gathers them, with a related address (a host its own) of the
    same family. *)
Record cand_ok c : Prop := {
  co_type : cand_type c <> PJ_ICE_CAND_TYPE_PRFLX;
  co_foundation : is_word 31 (or_empty (cand_foundation c)) = true;
  co_comp_id : 0 < cand_comp_id c < 256;
  co_prio : 0 <= cand_prio c < 2 ^ 31;
  co_addr : sockaddr_valid (cand_addr c);
  co_rel_addr : sockaddr_valid (cand_rel_addr c);
  co_family : has_char ":" (sockaddr_print (cand_rel_addr c)) = has_char ":" (sockaddr_print (cand_addr c));
  co_length : forall text, candidate_text c = Ok text -> strlen text < 127
}.

Definition is_host c : bool := match cand_type c with PJ_ICE_CAND_TYPE_HOST => true | _ => false end.

(** What the peer has of a candidate: its foundation points into a local of
    [ice_session_apply_remote_sdp]. *)
Definition received_cand c : pj_ice_sess_cand :=
  {| cand_type := cand_type c; cand_comp_id := cand_comp_id c; cand_foundation := None; cand_prio := cand_prio c;
     cand_addr := cand_addr c; cand_rel_addr := if is_host c then no_sockaddr else cand_rel_addr c |}.

Definition cand_words c : list string :=
  [or_empty (cand_foundation c); print_llu (cand_comp_id c); "UDP"; print_llu (cand_prio c);
   sockaddr_print (cand_addr c); print_llu (sa_port (cand_addr c)); "typ";
   pj_ice_get_cand_type_name (cand_type c)]%string ++
  (if is_host c then [] else
     ["raddr"; sockaddr_print (cand_rel_addr c); "rport"; print_llu (sa_port (cand_rel_addr c))]%string).

Lemma snprintf_short n s : 1 < n -> strlen (snprintf n s) < n - 1 -> snprintf n s = s.
Proof.
  intros Hn Hs. apply snprintf_fits. destruct (Z.lt_ge_cases (strlen s) n) as [|Hge]; [done|exfalso].
  revert Hs. unfold snprintf, strlen in *. 
  assert (forall m s, (m <= String.length s)%nat -> String.length (String.substring 0 m s) = m) as Hsub.
  { intros m. induction m as [|m IH]; intros [|a t] Hm; cbn in *; try done; try lia. by rewrite IH by lia. }
  rewrite Hsub by lia. lia.
Qed.

Lemma candidate_text_words c : cand_ok c -> candidate_text c = Ok (words (cand_words c)).
Proof.
  intros Hc. pose proof (co_length _ Hc) as Hl. pose proof (co_type _ Hc) as Ht. unfold candidate_text, cand_words, is_host in *.
  destruct (cand_type c) eqn:Et; try done; (specialize (Hl _ eq_refl); rewrite snprintf_short in * by (done || lia); done).
Qed.

Lemma type_name_back c : cand_type_of (pj_ice_get_cand_type_name (cand_type c)) = Some (cand_type c).
Proof. by destruct (cand_type c). Qed.

Lemma type_name_word c : is_word 31 (pj_ice_get_cand_type_name (cand_type c)) = true.
Proof. by destruct (cand_type c). Qed.

(** The line that scanning gives. *)
Definition line_of c : cand_line :=
  {| cl_foundation := or_empty (cand_foundation c); cl_comp_id := cand_comp_id c; cl_prio := cand_prio c;
     cl_ipaddr := sockaddr_print (cand_addr c); cl_port := sa_port (cand_addr c);
     cl_type := pj_ice_get_cand_type_name (cand_type c);
     cl_related := if is_host c then None else Some (sockaddr_print (cand_rel_addr c), sa_port (cand_rel_addr c)) |}.

Lemma words_last l w t : words (l ++ [w]) +:+ t = words (l ++ [w +:+ t]).
Proof.
  induction l as [|v l IH]; [done|]. cbn [app words]. destruct (l ++ [w]) as [|x k] eqn:E; [by destruct l|].
  destruct (l ++ [w +:+ t]) as [|y k'] eqn:E'; [by destruct l|]. rewrite str_app_assoc. f_equal.
  change (String " " (words (x :: k)) +:+ t) with (String " " (words (x :: k) +:+ t)). by rewrite IH.
Qed.

Lemma words_more w l : l <> [] -> words (w :: l) = w +:+ String " " (words l).
Proof. by destruct l. Qed.

Lemma line_end_digits t : ends_word t = true -> ends_digits t = true.
Proof. destruct t as [|c t]; [done|]. cbn. unfold isspace, isdigit. cbv zeta. lia. Qed.

(** A candidate is read from the text of a description as from its value alone. *)
Lemma scan_candidate_words c t : cand_ok c -> line_end t = true ->
  scan_candidate (words (cand_words c) +:+ t) = Ok (Some (line_of c)).
Proof.
  intros [Ht Hf Hc Hp Ha Hr _ _] [Hend Hno]%andb_true_iff. destruct (sockaddr_word _ Ha) as [Hwa Hpa], (sockaddr_word _ Hr) as [Hwr Hpr].
  pose proof (type_name_word c) as Hty.
  assert (words (cand_words c) +:+ t = words (
    [or_empty (cand_foundation c); print_llu (cand_comp_id c); "UDP"; print_llu (cand_prio c);
     sockaddr_print (cand_addr c); print_llu (sa_port (cand_addr c)); "typ"]%string ++
    (if is_host c then [pj_ice_get_cand_type_name (cand_type c) +:+ t] else
      [pj_ice_get_cand_type_name (cand_type c); "raddr"; sockaddr_print (cand_rel_addr c); "rport";
       print_llu (sa_port (cand_rel_addr c)) +:+ t]%string))) as ->.
  { unfold cand_words. destruct (is_host c); [exact (words_last (_ :: _ :: _ :: _ :: _ :: _ :: [_]) _ t)|].
    exact (words_last (_ :: _ :: _ :: _ :: _ :: _ :: _ :: _ :: _ :: _ :: [_]) _ t). }
  unfold scan_candidate. set (tail := if is_host c then _ else _).
  assert (tail <> []) as Hne by (unfold tail; by destruct (is_host c)).
  cbn [app]. rewrite !words_more by done.
  rewrite (proj1 (scan_field_app 32 _ (String " " _) _ Hf eq_refl)). rewrite scan_number_print by (done || lia).
  rewrite (proj2 (scan_field_app 12 "UDP" (String " " _) _ eq_refl eq_refl)). rewrite scan_number_print by (done || lia).
  rewrite (proj2 (scan_field_app 80 _ (String " " _) _ Hwa eq_refl)). rewrite scan_number_print by (done || lia).
  rewrite (scan_literal_app 3 "typ") by done.
  unfold tail, line_of. destruct (is_host c); cbn [app words].
  - rewrite (proj2 (scan_field_app 32 _ t _ Hty Hend)). by destruct (scan_literal "raddr" t).
  - rewrite (proj2 (scan_field_app 32 _ (String " " _) _ Hty eq_refl)). rewrite (scan_literal_app 5 "raddr") by done.
    pose proof (is_word_more 79 80 _ Hwr ltac:(lia)) as Hwr'.
    destruct (scan_word_app 80 _ (String " " ("rport" +:+ String " " (print_llu (sa_port (cand_rel_addr c)) +:+ t))) Hwr' eq_refl) as [_ ->].
    rewrite (proj2 (scan_field_app 80 _ (String " " _) _ Hwr eq_refl)). rewrite (scan_literal_app 5 "rport") by done.
    by rewrite scan_number_print by (lia || by apply line_end_digits).
Qed.

Lemma candidate_back c : cand_ok c -> candidate_of (line_of c) (cand_type c) = received_cand c.
Proof.
  intros [Ht Hf Hc Hp Ha Hr Hfam _]. destruct (sockaddr_word _ Ha) as [_ Hpa], (sockaddr_word _ Hr) as [_ Hpr].
  unfold candidate_of, line_of, received_cand. cbn [cl_foundation cl_comp_id cl_prio cl_ipaddr cl_port cl_related].
  rewrite u8_small, u32_small, u16_small, sockaddr_back by (done || lia). f_equal.
  destruct (is_host c); [done|]. rewrite u16_small by lia. rewrite <- Hfam. by apply sockaddr_back.
Qed.
End Candidates.

(** ** The streams *)

Section Exchange.
Context `{!HashTables, !Base58, !PjMedia, !PjMediaLaws, !SockAddr, !SockAddrLaws, !NonceText}
  {next heap cb ids st : Type}
  `{!Lower next IceSession, !IceStrans st pj_ice_sess_cand, !IceCands st, !IceBottom next st}.
Implicit Types a b : ElaSession next heap cb ids IceSession.
Implicit Types s : ElaStream next heap.
Implicit Types x : IceStream st pj_ice_sess_cand.

(** Base58 and the text of a nonce are read back. *)
Context (Hkey : forall key, length key = 32%nat -> base58_decode (base58_encode key) 32 = Some key)
  (Hnonce : forall nonce old, length nonce = length old -> crypto_nonce_from_str (crypto_nonce_to_str nonce) old = nonce).

(** The candidates of the components from [comp] on. *)
Fixpoint gathered (n : nat) (comp : Z) (y : st) : option (list pj_ice_sess_cand) :=
  match n with
  | O => Some []
  | S n =>
      match strans_enum_cands y comp, gathered n (comp + 1) y with
      | inr l, Some l' => Some (l ++ l')
      | _, _ => None
      end
  end.
Definition local_cands s : option (list pj_ice_sess_cand) :=
  let y := is_st (bottom_ice s) in gathered (Z.to_nat (strans_running_comp_cnt y)) 1 y.

(** Local candidates that the peer has room for. *)
Definition cands_ok s : Prop :=
  (forall comp l, strans_enum_cands (is_st (bottom_ice s)) comp = inr l -> Forall cand_ok l) /\
  (forall l, local_cands s = Some l -> Z.of_nat (length l) <= PJ_ICE_ST_MAX_CAND).

Definition cand_attr (c : pj_ice_sess_cand) : string * string := ("candidate"%string, words (cand_words c)).

Lemma add_candidates_spec l : forall attrs attrs', Forall cand_ok l ->
  add_candidates l attrs = Ok (inr attrs') -> attrs' = attrs ++ (cand_attr <$> l).
Proof.
  induction l as [|c l IH]; intros attrs attrs' Hl E; [injection E as <-; by rewrite app_nil_r|].
  apply Forall_cons in Hl as [Hc Hl]. cbn [add_candidates] in E. rewrite candidate_text_words in E by done.
  cbn [mbind Res_bind] in E. destruct (_ <=? _); [done|]. rewrite (IH _ _ Hl E), <- app_assoc. done.
Qed.

Lemma add_components_spec y n : forall comp attrs attrs',
  (forall comp l, strans_enum_cands y comp = inr l -> Forall cand_ok l) ->
  add_components n comp y attrs = Ok (inr attrs') ->
  exists l, gathered n comp y = Some l /\ Forall cand_ok l /\ attrs' = attrs ++ (cand_attr <$> l).
Proof.
  induction n as [|n IH]; intros comp attrs attrs' Hok E; cbn [add_components gathered] in *.
  { injection E as <-. exists []. rewrite app_nil_r. by split_and!. }
  destruct (strans_enum_cands y comp) as [status|l] eqn:El; [done|].
  apply Res_bind_Ok in E as ([status|attrs1] & E1 & E); [done|]. pose proof (Hok _ _ El) as Hl.
  apply add_candidates_spec in E1 as ->; [|done]. destruct (IH _ _ _ Hok E) as (l' & -> & Hl' & ->).
  exists (l ++ l'). split; [done|]. split; [by apply Forall_app|]. by rewrite fmap_app, app_assoc.
Qed.

(** The part of a description that is a stream's, after streams with the options [ops]. *)
Definition describes (ops : Z) s (m : sdp_media) (l : list pj_ice_sess_cand) : Prop :=
  local_cands s = Some l /\ Forall cand_ok l /\ Z.of_nat (length l) <= PJ_ICE_ST_MAX_CAND /\
  md_fmt m = [print_llu (Z.lor ops (stream_ops s))] /\ is_Some (md_conn m) /\ md_attrs m = cand_attr <$> l /\
  forallb line_end (md_after m) = true.

Inductive describe : Z -> list (ElaStream next heap) -> list sdp_media -> Prop :=
| DescNil ops : describe ops [] []
| DescCons ops s l m ms cands :
    describes ops s m cands -> describe (Z.lor ops (stream_ops s)) l ms -> describe ops (s :: l) (m :: ms).

Lemma encode_stream_spec ops s ops' m : cands_ok s -> encode_stream ops s = Ok (inr (ops', m)) ->
  ops' = Z.lor ops (stream_ops s) /\ exists l, describes ops s m l.
Proof.
  intros [Hok Hlen] E. unfold encode_stream in E. destruct (negb _); [done|]. destruct (_ =? 0); [done|].
  destruct (strans_def_cand _) as [status|c]; [done|]. apply Res_bind_Ok in E as ([status|attrs] & Ea & E); [done|].
  injection E as <- <-. split; [done|]. apply add_components_spec in Ea as (l & Hl & Hall & ->); [|done].
  exists l. pose proof (Hlen _ Hl). unfold describes. by split_and!.
Qed.

Lemma encode_streams_spec l : forall ops media media', Forall cands_ok l ->
  encode_streams ops l media = Ok (inr media') -> exists ms, media' = media ++ ms /\ describe ops l ms.
Proof.
  induction l as [|s l IH]; intros ops media media' Hl E; cbn [encode_streams] in E.
  { injection E as <-. exists []. rewrite app_nil_r. split; [done|constructor]. }
  apply Forall_cons in Hl as [Hs Hl]. apply Res_bind_Ok in E as ([status|[ops' m]] & Es & E); [done|].
  destruct (_ <=? _); [done|]. apply encode_stream_spec in Es as [-> (cands & Hd)]; [|done].
  destruct (IH _ _ _ Hl E) as (ms & -> & Hms). exists (m :: ms). rewrite <- app_assoc. split; [done|]. by econstructor.
Qed.

(** A tree describes the streams as another does that is the same but for the text around. *)
Lemma describe_bare ops l ms : describe ops l ms -> forall ms', bare <$> ms' = bare <$> ms ->
  Forall (fun m => forallb line_end (md_after m) = true) ms' -> describe ops l ms'.
Proof.
  induction 1 as [ops|ops s l m ms cands (Hl & Hok & Hlen & Hf & Hc & Ha & _) _ IH]; intros ms' E Hafter.
  { destruct ms'; [constructor|done]. }
  destruct ms' as [|m' ms']; [done|]. injection E as _ _ Ef Ec Ea E. apply Forall_cons in Hafter as [Hm' Hafter].
  econstructor; [|by apply IH]. unfold describes. rewrite Ef, Ec, Ea. by split_and!.
Qed.

(** ** Taking it in *)

Definition with_cands (l : list pj_ice_sess_cand) x : IceStream st pj_ice_sess_cand :=
  { x with is_cands ::= fun l' => l' ++ (received_cand <$> l);
           is_comp_cnt ::= fun n => foldl (fun n c => Z.max (cand_comp_id c) n) n l }.

(** What the transport of a stream knows of the peer. *)
Definition knows_peer (ufrag pwd : string) (l : list pj_ice_sess_cand) x : IceStream st pj_ice_sess_cand :=
  with_cands l { no_remote x with is_remote_ufrag := ufrag; is_remote_pwd := pwd }.

Lemma with_cands_nil x : with_cands [] x = x.
Proof. destruct x. cbv -[app]. by rewrite app_nil_r. Qed.
Lemma with_cands_cons c l x : with_cands (c :: l) x = with_cands l (with_cands [c] x).
Proof. destruct x. cbv -[app received_cand Z.max foldl]. by rewrite <- app_assoc. Qed.

Lemma line_ends_head after : forallb line_end after = true ->
  line_end (or_empty (head after)) = true /\ forallb line_end (tail after) = true.
Proof. by destruct after as [|t after]; [|intros [? ?]%andb_true_iff]. Qed.

Lemma apply_candidates_spec l : forall after x, Forall cand_ok l -> forallb line_end after = true ->
  Z.of_nat (length (is_cands x)) + Z.of_nat (length l) <= PJ_ICE_ST_MAX_CAND ->
  apply_candidates (cand_attr <$> l) after x = Ok (true, with_cands l x).
Proof.
  induction l as [|c l IH]; intros after x Hl [Ht Hafter]%line_ends_head Hlen; cbn [fmap list_fmap apply_candidates].
  { by rewrite with_cands_nil. }
  apply Forall_cons in Hl as [Hc Hl]. cbn [length] in Hlen. unfold cand_attr at 1.
  change (negb (str_eqb "candidate" "candidate")) with false. cbn iota. rewrite scan_candidate_words by done.
  cbn [mbind Res_bind]. change (cl_type (line_of c)) with (pj_ice_get_cand_type_name (cand_type c)).
  rewrite type_name_back, candidate_back, (proj2 (Z.leb_gt _ _)) by (done || lia).
  rewrite with_cands_cons. apply (IH (tail after) (with_cands [c] x)); [done..|].
  unfold with_cands. cbn. rewrite length_app. cbn [length]. lia.
Qed.

(** What becomes of the streams of the one that takes the description in. *)
Inductive negotiated (ufrag pwd : string) : Z -> Z -> list (ElaStream next heap) -> list (ElaStream next heap) ->
    list (ElaStream next heap) -> Prop :=
| NgEnd oa ob la : negotiated ufrag pwd oa ob la [] []
| NgMissing oa ob s l l' : negotiated ufrag pwd oa ob [] l l' ->
    negotiated ufrag pwd oa ob [] (s :: l) ({ s with s_deactivate := true } :: l')
| NgDiffer oa ob sa la s l l' :
    Z.lor oa (stream_ops sa) <> Z.lor ob (stream_ops s) ->
    negotiated ufrag pwd (Z.lor oa (stream_ops sa)) (Z.lor ob (stream_ops s)) la l l' ->
    negotiated ufrag pwd oa ob (sa :: la) (s :: l)
      ({ map_stream (fun _ => knows_peer ufrag pwd [] (bottom_ice s)) s with s_deactivate := true } :: l')
| NgAgree oa ob sa la s l l' cands :
    Z.lor oa (stream_ops sa) = Z.lor ob (stream_ops s) -> local_cands sa = Some cands ->
    negotiated ufrag pwd (Z.lor oa (stream_ops sa)) (Z.lor ob (stream_ops s)) la l l' ->
    negotiated ufrag pwd oa ob (sa :: la) (s :: l)
      (map_stream (fun _ => knows_peer ufrag pwd cands (bottom_ice s)) s :: l').

Lemma stream_ops_range s : 0 <= stream_ops s < 32.
Proof. unfold stream_ops. destruct (s_unencrypt s), (s_multiplexing s), (s_reliable s), (s_portforwarding s); vm_compute; split; congruence. Qed.

Lemma lor_range m n : 0 <= m < 32 -> 0 <= n < 32 -> 0 <= Z.lor m n < 32.
Proof.
  intros Hm Hn. split; [apply Z.lor_nonneg; lia|]. destruct (Z.eq_dec (Z.lor m n) 0) as [->|Hne]; [lia|].
  assert (0 <= Z.lor m n) by (apply Z.lor_nonneg; lia). apply (Z.log2_lt_pow2 _ 5); [lia|].
  rewrite Z.log2_lor by lia. apply Z.max_lub_lt.
  - destruct (Z.eq_dec m 0) as [->|]; [vm_compute; done|]. apply Z.log2_lt_pow2; lia.
  - destruct (Z.eq_dec n 0) as [->|]; [vm_compute; done|]. apply Z.log2_lt_pow2; lia.
Qed.

Lemma apply_streams_spec ufrag pwd l : forall oa ob la ms, 0 <= oa < 32 ->
  strlen (or_empty ufrag) <= 80 -> strlen (or_empty pwd) <= 80 -> describe oa la ms ->
  exists l', apply_streams ufrag pwd ob ms l = Ok (true, l') /\
    negotiated (or_empty ufrag) (or_empty pwd) oa ob la l l'.
Proof.
  induction l as [|s l IH]; intros oa ob la ms Ha Hu Hp Hd; cbn [apply_streams]; [by eexists; split; [|constructor]|].
  destruct Hd as [oa|oa sa la m ms cands (Hloc & Hok & Hlen & Hfmt & [conn Hconn] & Hattrs & Hafter) Hd].
  - destruct (IH oa ob [] []) as (l' & E & Hn); [done..|constructor|].
    cbn [head apply_media mbind Res_bind negb tail]. rewrite E. eexists. split; [done|]. by constructor.
  - pose proof (lor_range _ _ Ha (stream_ops_range sa)) as Ha'.
    destruct (IH _ (Z.lor ob (stream_ops s)) la ms Ha' Hu Hp Hd) as (l' & E & Hn).
    cbn [head tail apply_media]. unfold strncpy. rewrite !(proj2 (Z.leb_le _ _)) by done.
    rewrite Hconn, Hfmt. cbn [mbind Res_bind deref lookup list_lookup]. rewrite atoi_print by lia.
    destruct (Z.eqb_spec (Z.lor ob (stream_ops s)) (Z.lor oa (stream_ops sa))) as [He|Hne]; cbn [negb].
    + rewrite Hattrs, apply_candidates_spec by (done || (cbn; lia)). cbn [mbind Res_bind negb]. rewrite E.
      eexists. split; [done|]. by eapply NgAgree.
    + cbn [mbind Res_bind negb]. rewrite E. eexists. split; [done|]. 
      replace (map_stream _ s) with (map_stream (fun _ => knows_peer (or_empty ufrag) (or_empty pwd) [] (bottom_ice s)) s) by done.
      apply NgDiffer; [congruence|done].
Qed.

(** The nonce of the description, taken by the session and by its streams. *)
Lemma taken_nonce pk f nonce b : f (ws_nonce b) = nonce ->
  ws_streams (share_keys { { b with ws_peer_pubkey ::= pk } with ws_nonce ::= f }) =
    ws_streams (share_keys { b with ws_nonce := nonce }) /\
  ws_nonce (share_keys { { b with ws_peer_pubkey ::= pk } with ws_nonce ::= f }) = nonce.
Proof. by intros <-. Qed.

(** C13. The exchange of descriptions.  When a session encodes its description, with local
    candidates that fit, every session that takes it in succeeds: it has the peer's
    public key, and the peer's nonce when the peer encrypts and it does not control the
    session; stream by stream, in order, it knows the peer's credentials and exactly the
    peer's candidates, without their foundations, where the options of the streams up to
    this one agree, and deactivates the stream where they do not or the peer has none. *)
Theorem sdp_exchange len a text b :
  ice_session_encode_local_sdp len a = Ok (inr text) ->
  Forall cands_ok (ws_streams a) -> length (ws_public_key a) = 32%nat -> length (ws_peer_pubkey b) = 32%nat ->
  length (ws_nonce a) = length (ws_nonce b) ->
  strlen (ic_ufrag (ws_transport a)) <= 80 -> strlen (ic_pwd (ws_transport a)) <= 80 ->
  let takes_nonce := ws_crypto_enabled a && negb (is_controlling (ic_role (ws_transport b))) in
  let b1 := if takes_nonce then share_keys { b with ws_nonce := ws_nonce a } else b in
  exists b', ice_session_apply_remote_sdp text b = Ok (0, b') /\
    ws_peer_pubkey b' = ws_public_key a /\ ws_nonce b' = ws_nonce b1 /\
    negotiated (ic_ufrag (ws_transport a)) (ic_pwd (ws_transport a)) 0 0 (ws_streams a) (ws_streams b1) (ws_streams b').
Proof.
  intros He Hc Hpk Hpp Hnn Hu Hp. cbv zeta. unfold ice_session_encode_local_sdp in He.
  destruct gethostip as [status|addr]; [done|]. apply Res_bind_Ok in He as ([rc|media] & Hm & He); [done|].
  apply encode_streams_spec in Hm as (ms & -> & Hd); [|done].
  set (attrs := [("ice-ufrag"%string, ic_ufrag (ws_transport a)); ("ice-pwd"%string, ic_pwd (ws_transport a))]
    ++ (if ws_crypto_enabled a then [("nonce"%string, crypto_nonce_to_str (ws_nonce a))] else [])) in *.
  assert (last_attr "ice-ufrag" attrs = Some (ic_ufrag (ws_transport a)) /\
    last_attr "ice-pwd" attrs = Some (ic_pwd (ws_transport a)) /\
    last_attr "nonce" attrs = if ws_crypto_enabled a then Some (crypto_nonce_to_str (ws_nonce a)) else None) as (E1 & E2 & E3)
    by (unfold attrs; by destruct (ws_crypto_enabled a)).
  clearbody attrs. destruct (sdp_validate _) eqn:Hv; try done. cbn [Z.eqb negb] in He.
  destruct (sdp_print _ _) as [text'|] eqn:Hpr; [|done]. injection He as <-.
  destruct (sdp_back _ _ _ Hv Hpr) as (Hne & [user id addr' name attrs' media] & Hback & Hbare & Hafter).
  injection Hbare as -> -> -> -> -> Hmedia. apply (describe_bare _ _ _ Hd) in Hmedia; [|done]. clear Hd.
  rename Hmedia into Hd. unfold ice_session_apply_remote_sdp.
  assert (negb (Z.of_nat (length text') =? 0) = true) as -> by (by destruct text').
  cbn [c_assert mbind Res_bind]. rewrite Hback. cbn [sd_name sd_user sd_attrs sd_media].
  change (negb (str_eqb "elastos-ice-session" "elastos-ice-session")) with false. cbn iota.
  rewrite Hpp, Hkey, E1, E2, E3 by done.
  assert (splice 0 (ws_public_key a) (ws_peer_pubkey b) = ws_public_key a) as Hsp.
  { unfold splice. rewrite drop_ge by lia. cbn. by rewrite app_nil_r. }
  assert (crypto_nonce_from_str (crypto_nonce_to_str (ws_nonce a)) (ws_nonce b) = ws_nonce a) as Hno by auto.
  assert (forall l, exists l', apply_streams (Some (ic_ufrag (ws_transport a))) (Some (ic_pwd (ws_transport a))) 0 media l =
      Ok (true, l') /\ negotiated (ic_ufrag (ws_transport a)) (ic_pwd (ws_transport a)) 0 0 (ws_streams a) l l') as Hst
    by (intros l; by eapply (apply_streams_spec (Some _) (Some _))).
  destruct (ws_crypto_enabled a); [destruct (negb (is_controlling (ic_role (ws_transport b)))) eqn:Hr|]; cbn [andb];
    try (change (ic_role (ws_transport { b with ws_peer_pubkey ::= splice 0 (ws_public_key a) }))
           with (ic_role (ws_transport b)); rewrite Hr);
    rewrite ?(proj1 (taken_nonce (splice 0 (ws_public_key a)) _ _ _ Hno));
    (match goal with |- context [apply_streams _ _ _ _ (ws_streams ?w)] =>
       destruct (Hst (ws_streams w)) as (l' & -> & Hn) end);
    (eexists; split; [done|]; split; [exact Hsp|]; split; [exact Hno || done|exact Hn]).
Qed.
End Exchange.

(** ** What the operations of the session rely on *)

Section Laws.
Context `{!HashTables, !Base58, !PjMedia, !SockAddr, !NonceText} {next heap cb ids st : Type}
  `{!Lower next IceSession, !IceStrans st pj_ice_sess_cand, !IceCands st, !IceBottom next st}.
Implicit Types ws : ElaSession next heap cb ids IceSession.
Implicit Types s : ElaStream next heap.

Lemma apply_media_id ufrag pwd ops m s go ops' s' : apply_media ufrag pwd ops m s = Ok (go, ops', s') -> s_id s' = s_id s.
Proof.
  destruct m as [m|]; [|by intros [= _ _ <-]]. intros E. cbn [apply_media] in E.
  apply Res_bind_Ok in E as (u & _ & E). apply Res_bind_Ok in E as (p & _ & E).
  apply Res_bind_Ok in E as (conn & _ & E). apply Res_bind_Ok in E as (fmt & _ & E). destruct (negb _); [by injection E as _ _ <-|].
  apply Res_bind_Ok in E as ([ok y] & _ & E). by injection E as _ _ <-.
Qed.

Lemma apply_streams_ids ufrag pwd (l : list (ElaStream next heap)) : forall ops media ok l',
  apply_streams ufrag pwd ops media l = Ok (ok, l') -> s_id <$> l' = s_id <$> l.
Proof.
  induction l as [|s l IH]; intros ops media ok l' E; cbn [apply_streams] in E; [by injection E as _ <-|].
  apply Res_bind_Ok in E as ([[go ops'] s'] & Es & E). apply apply_media_id in Es.
  destruct (negb go); [injection E as _ <-; cbn; by f_equal|].
  apply Res_bind_Ok in E as ([ok' l1] & El & E). injection E as _ <-. cbn. f_equal; [done|by eapply IH].
Qed.

#[export] Instance ice_sdp_laws : SdpLaws next heap cb ids IceSession.
Proof.
  split.
  - intros offerer ws. done.
  - intros text ws rc ws' E. cbn in E. unfold ice_session_apply_remote_sdp in E.
    apply Res_bind_Ok in E as (_ & _ & E). destruct (sdp_parse _) as [status|sdp]; [by injection E as _ <-|].
    destruct (negb _); [by injection E as _ <-|]. destruct (base58_decode _ _) as [key|]; [|by injection E as _ <-].
    apply Res_bind_Ok in E as ([ok l] & El & E). apply apply_streams_ids in El. injection E as _ <-.
    unfold same_table, stream_ids. cbn. rewrite El. destruct (last_attr _ _); [|done]. destruct (negb _); [|done].
    cbn. split; [split; [|done]|done]. rewrite map_map. reflexivity.
Qed.
(** ** Descriptions that no honest peer sends *)

Lemma span_word_full w rest : all_chars (fun c => negb (isspace c)) w = true ->
  span_word (String.length w) (w +:+ rest) = (w, rest).
Proof.
  induction w as [|c w IH]; [done|]. simpl. intros [Hc%negb_true_iff Hw]%andb_true_iff. by rewrite Hc, IH.
Qed.

Lemma scan_field_long {A} n w rest (k : string -> string -> Res (option A)) :
  is_word (Z.of_nat n) w = true -> strlen w = Z.of_nat n -> scan_field n (w +:+ rest) k = Fault BufferOverflow.
Proof.
  intros Hw Hl. unfold scan_field, scan_word. rewrite (skip_word (Z.of_nat n)) by done.
  assert (n = String.length w) as -> by (unfold strlen in Hl; lia). unfold is_word in Hw.
  apply andb_true_iff in Hw as [[Hne%negb_true_iff Hsp]%andb_true_iff _]. rewrite span_word_full, Hne by done.
  by rewrite (proj2 (Z.ltb_ge _ _)) by lia.
Qed.

Lemma too_many_candidates `{!SockAddrLaws} l : forall after x, Forall cand_ok l -> forallb line_end after = true ->
  Z.of_nat (length (is_cands x)) <= PJ_ICE_ST_MAX_CAND ->
  PJ_ICE_ST_MAX_CAND < Z.of_nat (length (is_cands x)) + Z.of_nat (length l) ->
  apply_candidates (cand_attr <$> l) after x = Fault BufferOverflow.
Proof.
  induction l as [|c l IH]; intros after x Hl [Ht Hafter]%line_ends_head Hx Hlen; cbn [fmap list_fmap apply_candidates]; [cbn in Hlen; lia|].
  apply Forall_cons in Hl as [Hc Hl]. cbn [length] in Hlen. unfold cand_attr at 1.
  change (negb (str_eqb "candidate" "candidate")) with false. cbn iota. rewrite scan_candidate_words by done.
  cbn [mbind Res_bind]. change (cl_type (line_of c)) with (pj_ice_get_cand_type_name (cand_type c)).
  rewrite type_name_back. destruct (Z.leb_spec PJ_ICE_ST_MAX_CAND (Z.of_nat (length (is_cands x)))) as [|Hlt]; [done|].
  apply IH; [done|done|cbn; rewrite length_app; cbn [length]; lia..].
Qed.

(** A part of a description, under the credentials given, and the fault it is for a
    stream. *)
Inductive hostile `{!SockAddrLaws} s m : option string -> option string -> fault -> Prop :=
| HostileUfrag ufrag pwd : 80 < strlen ufrag -> hostile s m (Some ufrag) pwd BufferOverflow
| HostilePwd ufrag pwd : strlen (or_empty ufrag) <= 80 -> 80 < strlen pwd -> hostile s m ufrag (Some pwd) BufferOverflow
| HostileConn ufrag pwd : strlen (or_empty ufrag) <= 80 -> strlen (or_empty pwd) <= 80 ->
    md_conn m = None -> hostile s m ufrag pwd NullDeref
| HostileFoundation ufrag pwd conn w rest attrs : strlen (or_empty ufrag) <= 80 -> strlen (or_empty pwd) <= 80 ->
    md_conn m = Some conn -> md_fmt m = [print_llu (stream_ops s)] ->
    md_attrs m = ("candidate"%string, w +:+ rest) :: attrs -> is_word 32 w = true -> strlen w = 32 ->
    hostile s m ufrag pwd BufferOverflow
| HostileCandidates ufrag pwd conn l : strlen (or_empty ufrag) <= 80 -> strlen (or_empty pwd) <= 80 ->
    md_conn m = Some conn -> md_fmt m = [print_llu (stream_ops s)] ->
    md_attrs m = (cand_attr <$> l) -> forallb line_end (md_after m) = true -> Forall cand_ok l ->
    PJ_ICE_ST_MAX_CAND < Z.of_nat (length l) ->
    hostile s m ufrag pwd BufferOverflow.

Lemma apply_media_hostile `{!SockAddrLaws} ufrag pwd m s f : 0 <= PJ_ICE_ST_MAX_CAND -> hostile s m ufrag pwd f ->
  apply_media ufrag pwd 0 (Some m) s = Fault f.
Proof.
  pose proof (stream_ops_range s) as Hops.
  intros Hmax [u p Hu|u p Hu Hp|u p Hu Hp Hc|u p conn w rest attrs Hu Hp Hc Hf Ha Hw Hl|u p conn l Hu Hp Hc Hf Ha Hafter Hok Hl];
    cbn [apply_media or_empty]; unfold strncpy.
  - change (or_empty (Some u)) with u. by rewrite (proj2 (Z.leb_gt (strlen u) 80)).
  - change (or_empty (Some p)) with p. by rewrite (proj2 (Z.leb_le (strlen (or_empty u)) 80)), (proj2 (Z.leb_gt (strlen p) 80)).
  - by rewrite !(proj2 (Z.leb_le _ _)), Hc.
  - rewrite !(proj2 (Z.leb_le _ _)), Hc, Hf, Ha by done. cbn [mbind Res_bind deref lookup list_lookup].
    rewrite atoi_print, Z.lor_0_l, Z.eqb_refl by lia. cbn [negb apply_candidates].
    change (negb (str_eqb "candidate" "candidate")) with false. cbn iota. unfold scan_candidate.
    by rewrite str_app_assoc, (scan_field_long 32).
  - rewrite !(proj2 (Z.leb_le _ _)), Hc, Hf, Ha by done. cbn [mbind Res_bind deref lookup list_lookup].
    rewrite atoi_print, Z.lor_0_l, Z.eqb_refl by lia. cbn [negb].
    by rewrite too_many_candidates by (done || (cbn; lia)).
Qed.

(** C18. Hostile descriptions.  A description that parses, with a peer's key that decodes,
    is fatal to the session that takes it in when its part for the first stream has: a
    user fragment or a password of more than 80 characters, copied into areas of 80
    with the length of the source; no connection line, whose address is read all the
    same; a candidate whose foundation fills an area of 32 bytes without its
    terminator; or more candidates than a stream has room for. *)
Theorem hostile_description `{!SockAddrLaws} text sdp ws key s l m ms f : 0 <= PJ_ICE_ST_MAX_CAND ->
  text <> [] -> sdp_parse text = inr sdp -> sd_name sdp = "elastos-ice-session"%string ->
  base58_decode (sd_user sdp) (Z.of_nat (length (ws_peer_pubkey ws))) = Some key ->
  last_attr "nonce" (sd_attrs sdp) = None -> ws_streams ws = s :: l -> sd_media sdp = m :: ms ->
  hostile s m (last_attr "ice-ufrag" (sd_attrs sdp)) (last_attr "ice-pwd" (sd_attrs sdp)) f ->
  ice_session_apply_remote_sdp text ws = Fault f.
Proof.
  intros Hmax Ht Hs Hn Hk Hnonce Hl Hm Hh. unfold ice_session_apply_remote_sdp.
  assert (negb (Z.of_nat (length text) =? 0) = true) as -> by (by destruct text). cbn [c_assert mbind Res_bind].
  rewrite Hs, Hn, Hk, Hnonce. change (negb (str_eqb _ _)) with false. cbn iota.
  change (ws_streams { ws with ws_peer_pubkey ::= splice 0 key }) with (ws_streams ws).
  rewrite Hl, Hm. cbn [head apply_streams]. by rewrite (apply_media_hostile _ _ _ _ f).
Qed.
End Laws.
