(* ===== verification/SessionSample.v ===== *)
(** * Concrete sessions

    Two nodes with a session each, over an encrypted transport whose candidates are
    fixed, with descriptions as lines of text; the theorems on sessions and on their
    descriptions evaluated on them.  Nothing of the code is modelled here. *)

From Stdlib Require Import Ascii.
From S2P Require Import Prelude ElaError ElaCP Carrier Sample Invite InviteProps InviteReply FlexBuffer Multiplex MultiplexProps CryptoHandler MuxSample Session SessionDispatch SessionProps SessionKeys SessionRequest IceStream LinkSample CText Sdp SdpProps.

(** ** Below the multiplexer *)

#[export] Instance cand_ice : IceStrans wire_strans pj_ice_sess_cand := {
  PJ_EBUSY := 70011;
  strans_has_sess := ws_sess;
  strans_init_ice x _ _ _ := (0, { x with ws_sess := true });
  strans_start_ice x _ _ _ := (0, x);
  strans_stop_ice x := { x with ws_sess := false };
  strans_sendto x p := (0, { x with ws_sent ::= fun l => l ++ [p] })
}.

Definition ice_stream : Type := IceStream wire_strans pj_ice_sess_cand.
Definition below : Type := CryptoHandler ice_stream.

Definition new_ice : ice_stream :=
  {| is_state := 0; is_st := {| ws_sess := false; ws_sent := [] |}; is_stopping := false;
     is_clock := at_sec 0; is_local_timestamp := at_sec 0; is_remote_timestamp := at_sec 0;
     is_keepalive_timer := false; is_remote_ufrag := ""; is_remote_pwd := ""; is_comp_cnt := 0;
     is_cands := []; is_held := false; is_notifications := [] |}.

#[export] Instance below_lower : Lower below IceSession := {
  lower_create _ _ := {| cr_key := []; cr_nonce := []; cr_next := new_ice |};
  lower_init n := (0, { n with cr_next ::= fun s => { s with is_held := true } });
  lower_prepare session n :=
    let '(rc, s) := ice_handler_prepare session (cr_next n) in (rc, { n with cr_next := s });
  lower_stop_reports n error := ice_stop_reports error (cr_next n);
  lower_state n := is_state (cr_next n);
  lower_set_state state n := { n with cr_next ::= fun s => { s with is_state := state } };
  lower_set_keys key nonce n := { n with cr_key := key; cr_nonce := nonce };
  lower_fire_state_changed state n := { n with cr_next ::= ice_stream_fire_state_changed state };
  lower_held n := is_held (cr_next n);
  ElaTransportInfo := unit;
  lower_get_info _ := inr tt
}.

#[export] Instance below_laws : LowerLaws below IceSession.
Proof. split; try done. by intros n n' rc [= <- _]. Qed.

#[export] Instance below_bottom : IceBottom below wire_strans := {
  ice_of := cr_next;
  map_ice f n := { n with cr_next ::= f }
}.

#[export] Instance no_forwarding : PortForwarding (MultiplexHandler below (gset Z)) := {
  pf_open m _ _ _ := (1, m);
  pf_close m _ := m
}.

#[export] Instance adding_keys : KeyExchange := {
  PUBLIC_KEY_BYTES := 32; SECRET_KEY_BYTES := 32; NONCE_BYTES := 24; SYMMETRIC_KEY_BYTES := 32;
  crypto_compute_symmetric_key pk sk _ :=
    (fun p => byte.of_Z ((byte.unsigned p.1 + byte.unsigned p.2) mod 256)) <$> zip pk sk
}.

(** ** Descriptions as lines *)

Definition newline : ascii := "010"%char.

Fixpoint split_at (c : ascii) (s : string) : list string :=
  match s with
  | EmptyString => [EmptyString]
  | String d s =>
      match split_at c s with
      | l :: ls => if bool_decide (d = c) then EmptyString :: l :: ls else String d l :: ls
      | [] => []
      end
  end.

Fixpoint join_lines (l : list string) : string :=
  match l with [] => EmptyString | s :: l => s +:+ String newline (join_lines l) end.

Definition attr_line (a : string * string) : string := "a" +:+ a.1 +:+ "=" +:+ a.2.
Definition media_lines (m : sdp_media) : list string :=
  ["m" +:+ md_media m; "p" +:+ print_llu (md_port m)] ++ (String "f" <$> md_fmt m) ++
  match md_conn m with Some c => ["c" +:+ c] | None => [] end ++ (attr_line <$> md_attrs m).
Definition session_lines (s : sdp_session) : list string :=
  ["u" +:+ sd_user s; "i" +:+ print_llu (sd_id s); "d" +:+ sd_addr s; "s" +:+ sd_name s] ++
  (attr_line <$> sd_attrs s) ++ concat (media_lines <$> sd_media s).

Definition in_last (f : sdp_media -> sdp_media) (l : list sdp_media) : list sdp_media :=
  match last l with None => l | Some m => take (length l - 1) l ++ [f m] end.

(** [after] is the text behind the line. *)
Definition read_line (s : sdp_session) (line after : string) : sdp_session :=
  match line with
  | String "u" v => { s with sd_user := v }
  | String "i" v => { s with sd_id := match scan_d v with Some (n, _) => n | None => 0 end }
  | String "d" v => { s with sd_addr := v }
  | String "s" v => { s with sd_name := v }
  | String "m" v =>
      { s with sd_media ::= fun l =>
          l ++ [{| md_media := v; md_port := 0; md_fmt := []; md_conn := None; md_attrs := []; md_after := [] |}] }
  | String "p" v => { s with sd_media ::= in_last (fun m => { m with md_port := atoi v }) }
  | String "f" v => { s with sd_media ::= in_last (fun m => { m with md_fmt ::= fun l => l ++ [v] }) }
  | String "c" v => { s with sd_media ::= in_last (fun m => { m with md_conn := Some v }) }
  | String "a" v =>
      let a := match split_at "=" v with n :: w => (n, foldr (fun x y => x +:+ y) EmptyString w) | [] => (EmptyString, EmptyString) end in
      match sd_media s with
      | [] => { s with sd_attrs ::= fun l => l ++ [a] }
      | _ => { s with sd_media ::= in_last (fun m =>
                 { m with md_attrs ::= fun l => l ++ [a]; md_after ::= fun l => l ++ [after] }) }
      end
  | _ => s
  end.

Fixpoint read_from (s : sdp_session) (lines : list string) : sdp_session :=
  match lines with
  | [] => s
  | line :: lines =>
      read_from (read_line s line (match lines with [] => EmptyString | _ => String newline (join_lines lines) end)) lines
  end.

Definition no_description : sdp_session :=
  {| sd_user := ""; sd_id := 0; sd_addr := ""; sd_name := ""; sd_attrs := []; sd_media := [] |}.
Definition read_lines (text : list byte) : sdp_session :=
  read_from no_description (split_at newline (String.string_of_list_byte text)).
Definition write_lines (s : sdp_session) : list byte := String.list_byte_of_string (join_lines (session_lines s)).

#[export] Instance sdp_media_eq_dec : EqDecision sdp_media.
Proof. solve_decision. Defined.
#[export] Instance sdp_session_eq_dec : EqDecision sdp_session.
Proof. solve_decision. Defined.

Definition bare_session (s : sdp_session) : sdp_session := { s with sd_media ::= fmap bare }.

(** A description is valid when its lines read back, each attribute from a line of its own. *)
Definition reads_back (s : sdp_session) : bool :=
  let s' := read_lines (write_lines s) in
  bool_decide (bare_session s' = bare_session s) && forallb (fun m => forallb line_end (md_after m)) (sd_media s').

#[export] Instance line_media : PjMedia := {
  PJMEDIA_MAX_SDP_MEDIA := 16;
  PJMEDIA_MAX_SDP_ATTR := 68;
  PJ_ETOOMANY := 70010;
  sdp_parse text := inr (read_lines text);
  sdp_validate s := if reads_back s then 0 else 220001;
  sdp_print s len := if Z.of_nat (length (write_lines s)) <=? len then Some (write_lines s) else None
}.

#[export] Instance line_media_laws : PjMediaLaws.
Proof.
  split. intros s len text Hv Hp. cbn [sdp_validate sdp_print line_media] in Hv, Hp. unfold reads_back in Hv. cbv zeta in Hv.
  case_bool_decide as Hd; cbn [andb] in Hv; [|done].
  destruct (forallb _ (sd_media _)) eqn:Hf; [|done].
  destruct (_ <=? len); [|done]. injection Hp as <-. split.
  - assert (exists b l, write_lines s = b :: l) as (b & l & ->) by (do 2 eexists; reflexivity). done.
  - exists (read_lines (write_lines s)). split; [done|]. split; [exact Hd|].
    apply Forall_forall. intros m Hm. by apply (proj1 (forallb_forall _ _) Hf), list_elem_of_In.
Qed.

#[export] Instance plain_addr : SockAddr := {
  time := 1000;
  gethostip := inr {| sa_addr := "10.0.0.1"; sa_port := 0 |};
  sockaddr_print := sa_addr;
  sockaddr_init _ addr port := {| sa_addr := addr; sa_port := port |}
}.

#[export] Instance plain_addr_laws : SockAddrLaws.
Proof.
  refine {| sockaddr_valid a := is_word 79 (sa_addr a) = true /\ 0 <= sa_port a < 2 ^ 16 |}; [done|].
  by intros [addr port].
Defined.

#[export] Instance byte_nonce : NonceText := {
  crypto_nonce_to_str := String.string_of_list_byte;
  crypto_nonce_from_str s _ := String.list_byte_of_string s
}.

Definition host_cand : pj_ice_sess_cand :=
  {| cand_type := PJ_ICE_CAND_TYPE_HOST; cand_comp_id := 1; cand_foundation := Some "Ha000001"%string;
     cand_prio := 1694498815; cand_addr := {| sa_addr := "10.0.0.1"; sa_port := 4000 |};
     cand_rel_addr := {| sa_addr := "10.0.0.1"; sa_port := 4000 |} |}.
Definition srflx_cand : pj_ice_sess_cand :=
  {| cand_type := PJ_ICE_CAND_TYPE_SRFLX; cand_comp_id := 1; cand_foundation := Some "Sc0a80001"%string;
     cand_prio := 1694498814; cand_addr := {| sa_addr := "192.0.2.7"; sa_port := 5000 |};
     cand_rel_addr := {| sa_addr := "10.0.0.1"; sa_port := 4000 |} |}.

#[export] Instance two_cands : IceCands wire_strans := {
  PJ_ICE_ST_MAX_CAND := 8;
  strans_running_comp_cnt _ := 1;
  strans_def_cand _ := inr host_cand;
  strans_enum_cands _ _ := inr [host_cand; srflx_cand]
}.

(** ** Two sessions *)

Definition session : Type := @ElaSession gmap_HashTables below (gset Z) Z (gset Z) IceSession.

(** An extension with a default callback and one for "file". *)
Definition some_extension : SessionExtension Z (gset Z) :=
  {| ext_default := Some 1; ext_callbacks := [{| brc_prefix := "file"; brc_callback := Some 2 |}];
     ext_transport := true; ext_stream_ids := ∅; ext_calls := [] |}.
Definition some_registry : registry (cb:=Z) := {| reg_default := Some 1; reg_map := {[ "file"%string := Some 2 ]} |}.

Definition session_with (peer : string) : Z + session :=
  ela_session_new (Some some_extension) (Some peer) true 0 0 0 0
    {| ic_role := PJ_ICE_SESS_ROLE_UNKNOWN; ic_ufrag := "user"; ic_pwd := "secret" |}.
Definition the_session (s : Z + session) : session :=
  match s with inr ws => ws | inl _ => {|
    ws_errno := 0; ws_ext := some_extension; ws_to := ""; ws_worker := false; ws_offerer := false;
    ws_complete_callback := false; ws_userdata := 0; ws_streams := [];
    ws_transport := {| ic_role := PJ_ICE_SESS_ROLE_UNKNOWN; ic_ufrag := ""; ic_pwd := "" |};
    ws_public_key := []; ws_secret_key := []; ws_peer_pubkey := []; ws_nonce := []; ws_credential := [];
    ws_crypto_enabled := false; ws_crypto_key := []; ws_services := None; ws_events := [] |} end.

Definition text_options : Z := Z.lor ELA_STREAM_MULTIPLEXING ELA_STREAM_COMPRESS.
Definition add_text : session_call (heap:=gset Z) := CallAddStream ElaStreamType_text text_options None 0 0 ∅.
Definition is_initialized (stream : Z) : session_call (heap:=gset Z) := OnState stream ElaStreamState_initialized.

Definition keys_of (n : Z) : fresh_keys :=
  {| fk_public := replicate 32 (byte.of_Z n); fk_secret := replicate 32 (byte.of_Z (n + 1));
     fk_nonce := replicate 24 (byte.of_Z (n + 2)); fk_credential := replicate 24 (byte.of_Z (n + 3)) |}.

Definition ran (calls : list session_call) (w : ElaCarrier sdht) (ws : session) : ElaCarrier sdht * session :=
  match run_calls calls w ws with Ok r => r | Fault _ => (w, ws) end.

Definition alice_session : session := the_session (session_with bob_id).
Definition two_streams : list session_call := [add_text; add_text; is_initialized 1; is_initialized 2].
Definition alice_ready : session := (ran two_streams alice alice_session).2.

(** A request with one stream and one that was removed. *)
Lemma stream_numbers_witness :
  let calls := two_streams ++ [CallRemoveStream 1] in
  run_calls calls alice alice_session = Ok (ran calls alice alice_session) /\
  stream_ids (ran calls alice alice_session).2 = [2].
Proof.
  assert (table_ok ∅ alice_session) as Hok by (split; [constructor|constructor|by vm_compute|by vm_compute]).
  cbv zeta. set (calls := two_streams ++ _).
  assert (run_calls calls alice alice_session = Ok (ran calls alice alice_session)) as Hrun by (vm_compute; reflexivity).
  destruct (ran calls alice alice_session) as [w' ws'] eqn:E.
  destruct (stream_numbers ∅ calls alice alice_session w' ws' Hok Hrun) as (held & Hn & _).
  split; [exact Hrun|]. assert (ws' = (ran calls alice alice_session).2) as -> by by rewrite E. by vm_compute.
Defined.

Definition alice_request : Res (Z * ElaCarrier sdht * session) :=
  ela_session_request (Some "file:x"%string) true (keys_of 65) 7 8 42 0 1000 alice alice_ready.
Definition requesting : ElaCarrier sdht * session :=
  match alice_request with Ok (_, w, ws) => (w, ws) | Fault _ => (alice, alice_ready) end.

Example request_succeeds : alice_request = Ok (0, requesting.1, requesting.2).
Proof. vm_compute. reflexivity. Qed.

Definition bob_hearing : ElaCarrier sdht := run (deliver bob 9 ((fun p => (2000, p)) <$> sent requesting.1)) bob.
Definition bob_session : session := the_session (session_with alice_id).
Definition bob_ready : session := (ran two_streams bob bob_session).2.
Definition bob_reply : Res (Z * ElaCarrier sdht * session) :=
  ela_session_reply_request (Some "file:x"%string) 0 None (keys_of 75) bob_hearing bob_ready.
Definition replied : ElaCarrier sdht * session :=
  match bob_reply with Ok (_, w, ws) => (w, ws) | Fault _ => (bob_hearing, bob_ready) end.
Definition alice_hearing : ElaCarrier sdht :=
  run (deliver requesting.1 5 ((fun p => (3000, p)) <$> sent replied.1)) alice.
Definition alice_told : session :=
  match events alice_hearing with e :: _ => session_hears 7 8 e requesting.2 | [] => requesting.2 end.
Definition is_prepared : list (session_call (heap:=gset Z)) :=
  [OnState 1 ElaStreamState_transport_ready; OnState 2 ElaStreamState_transport_ready].
Definition starts (w : ElaCarrier sdht) (ws : session) (sdp : list byte) : Z * session :=
  match ela_session_start 0 0 (Some sdp) (ran is_prepared w ws).2 with Ok r => r | Fault _ => (-9, ws) end.
Definition alice_started : Z * session :=
  starts alice_hearing alice_told match ws_events alice_told with r :: _ => rp_data r | [] => [] end.
Definition bob_started : Z * session :=
  starts replied.1 replied.2
    match ext_calls (foldr extension_hears some_extension (events bob_hearing)) with c :: _ => rq_data c | [] => [] end.

(** From the request to the start of both, and their keys: neither is the other's. *)
Example sessions_start :
  alice_started.1 = 0 /\ bob_started.1 = 0 /\
  ws_peer_pubkey alice_started.2 = replicate 32 (byte.of_Z 75) /\
  ws_crypto_key alice_started.2 = replicate 32 (byte.of_Z 66) /\
  ws_crypto_key bob_started.2 = replicate 32 (byte.of_Z 76).
Proof. vm_compute. split_and!; reflexivity. Qed.

Definition prepared_calls : list (session_call (heap:=gset Z)) :=
  two_streams ++ [CallRequest (Some "file:x"%string) true (keys_of 65) 7 8 42 0 1000] ++ is_prepared.
Definition alice_prepared : session := (ran prepared_calls alice alice_session).2.
Definition bob_text : list byte := match ws_events alice_told with r :: _ => rp_data r | [] => [] end.
Definition key_started : session :=
  match ela_session_start 0 0 (Some bob_text) alice_prepared with Ok (_, ws) => ws | Fault _ => alice_prepared end.

Lemma session_key_ignores_peer_witness :
  run_calls prepared_calls alice alice_session = Ok ((ran prepared_calls alice alice_session).1, alice_prepared) /\
  ela_session_start 0 0 (Some bob_text) alice_prepared = Ok (0, key_started) /\
  ws_crypto_key key_started = crypto_compute_symmetric_key (zeroed (Z.of_nat PUBLIC_KEY_BYTES))
      (ws_secret_key alice_prepared) (zeroed (Z.of_nat SYMMETRIC_KEY_BYTES)).
Proof.
  assert (run_calls prepared_calls alice alice_session = Ok ((ran prepared_calls alice alice_session).1, alice_prepared))
    as Hrun by (vm_compute; reflexivity).
  assert (ela_session_start 0 0 (Some bob_text) alice_prepared = Ok (0, key_started)) as Hst by (vm_compute; reflexivity).
  split; [exact Hrun|]. split; [exact Hst|].
  exact (session_key_ignores_peer some_extension bob_id _ alice_session prepared_calls alice _ alice_prepared
    0 0 (Some bob_text) 0 key_started (eq_refl : session_with bob_id = inr alice_session) ltac:(repeat constructor) Hrun
    ltac:(by vm_compute) Hst eq_refl).
Defined.

Definition closed : SessionExtension Z (gset Z) * list (ElaStream below (gset Z)) := ela_session_close alice_ready.

Lemma session_closed_witness :
  closed.2 = wiped alice_ready <$> ws_streams alice_ready /\ closed.1 = (ela_session_close alice_ready).1 /\
  exists held, held ⊆ list_to_set (stream_ids alice_ready) /\ ids_used (ext_stream_ids closed.1) = ∅ ∪ held.
Proof.
  assert (table_ok ∅ alice_ready) as Hok.
  { split; [apply (bool_decide_unpack _); by vm_compute|apply (bool_decide_unpack _); by vm_compute|by vm_compute|by apply disjoint_empty_l]. }
  destruct (session_closed ∅ alice_ready closed.1 closed.2 Hok (surjective_pairing _)) as (El & held & Hsub & Hused & _).
  split; [exact El|]. split; [done|]. by exists held.
Defined.

Lemma some_agrees : agrees some_registry some_extension.
Proof.
  split; [done|]. split; [repeat constructor|repeat constructor; set_solver|]. intros p v. cbn.
  rewrite lookup_singleton_Some, list_elem_of_singleton. naive_solver.
Qed.

Lemma session_request_delivered_witness :
  alice_request = Ok (0, requesting.1, requesting.2) /\
  exists (ws1 : session) text n packets rc, encode_local_sdp SDP_MAX_LEN ws1 = Ok (inr text) /\
    send_packets (dht_state alice) n packets = (rc, dht_state requesting.1) /\
    forall times, length times = length packets ->
    exists wr' e, deliver bob 9 (zip times packets) = Ok wr' /\ events wr' = e :: events bob /\
      ext_calls (extension_hears e some_extension) =
        [{| rq_callback := 2; rq_from := alice_id; rq_bundle := Some "file:x"%string;
            rq_data := text ++ [Init.Byte.x00]; rq_len := Z.of_nat (length text) + 1 |}].
Proof.
  assert (alice_request = Ok (0, requesting.1, requesting.2)) as Hr by (vm_compute; reflexivity). split; [exact Hr|].
  destruct (session_request_delivered (Some "file:x"%string) true (keys_of 65) 7 8 42 0 1000 alice alice_ready
    requesting.1 requesting.2 bob 9 alice_id some_registry some_extension)
    as (ws1 & text & n & packets & rc & He & _ & Hs & Hd).
  - machine_int.
  - done.
  - reflexivity.
  - by vm_compute.
  - exact Hr.
  - apply bob_knows_alice.
  - reflexivity.
  - reflexivity.
  - apply some_agrees.
  - exists ws1, text, n, packets, rc. split; [exact He|]. split; [exact Hs|]. exact Hd.
Defined.

(** Alice's transaction, waiting for the answer. *)
Definition alice_waits : TransactedCallback := default alice_tcb (ht_get (tcallbacks requesting.1) 42).

Lemma session_reply_delivered_witness :
  ela_session_reply_request (Some "file:x"%string) 0 None (keys_of 75) bob_hearing bob_ready =
    Ok (0, replied.1, replied.2) /\
  exists data n packets rc, send_packets (dht_state bob_hearing) n packets = (rc, dht_state replied.1) /\
    forall times, length times = length packets ->
    exists wr' e, deliver requesting.1 5 (zip times packets) = Ok wr' /\ events wr' = e :: events requesting.1 /\
      session_hears 7 8 e requesting.2 =
        { requesting.2 with ws_events ::= cons {| rp_bundle := Some "file:x"%string; rp_status := 0; rp_reason := None;
                                                  rp_data := data; rp_len := Z.of_nat (length data) |} }.
Proof.
  assert (ela_session_reply_request (Some "file:x"%string) 0 None (keys_of 75) bob_hearing bob_ready =
    Ok (0, replied.1, replied.2)) as Hr by (vm_compute; reflexivity). split; [exact Hr|].
  destruct (session_reply_delivered (Some "file:x"%string) 0 None (keys_of 75) 7 8 bob_hearing bob_ready replied.1 replied.2
    requesting.1 42 alice_waits 5 bob_id requesting.2) as (data & n & packets & rc & _ & Hs & Hd).
  - machine_int.
  - machine_int.
  - by vm_compute.
  - by vm_compute.
  - exact Hr.
  - split_and!; [done|done|]. exists (new_friend bob_id 5). split; vm_compute; reflexivity.
  - by vm_compute.
  - by vm_compute.
  - by vm_compute.
  - by vm_compute.
  - by vm_compute.
  - exists data, n, packets, rc. split; [exact Hs|]. intros times Ht.
    destruct (Hd times Ht) as (wr' & e & E & Ee & _ & Eh). exists wr', e.
    split; [exact E|]. split; [exact Ee|exact Eh].
Defined.

(** ** Descriptions *)

Lemma host_ok : cand_ok host_cand.
Proof. split; try (by vm_compute); try (vm_compute; split_and!; congruence). intros text [= <-]. by vm_compute. Qed.
Lemma srflx_ok : cand_ok srflx_cand.
Proof. split; try (by vm_compute); try (vm_compute; split_and!; congruence). intros text [= <-]. by vm_compute. Qed.
Lemma some_cands_ok : Forall cand_ok [host_cand; srflx_cand].
Proof. constructor; [apply host_ok|]. constructor; [apply srflx_ok|constructor]. Qed.

(** What Alice's session says of itself. *)
Definition alice_describes : ElaSession below (gset Z) Z (gset Z) IceSession := requesting.2.
Definition alice_description : list byte :=
  match ice_session_encode_local_sdp SDP_MAX_LEN alice_describes with Ok (inr text) => text | _ => [] end.
Definition bob_takes : session := (ran is_prepared bob replied.2).2.

Lemma sdp_exchange_witness :
  ice_session_encode_local_sdp SDP_MAX_LEN alice_describes = Ok (inr alice_description) /\
  exists b', ice_session_apply_remote_sdp alice_description bob_takes = Ok (0, b') /\
    ws_peer_pubkey b' = ws_public_key alice_describes.
Proof.
  assert (ice_session_encode_local_sdp SDP_MAX_LEN alice_describes = Ok (inr alice_description)) as He by (vm_compute; reflexivity).
  split; [exact He|].
  assert (forall key, length key = 32%nat -> base58_decode (base58_encode key) 32 = Some key) as Hkey.
  { intros key Hl. cbn [base58_decode base58_encode sample_base58].
    by rewrite String.list_byte_of_string_of_list_byte, Hl. }
  assert (forall nonce old, length nonce = length old -> crypto_nonce_from_str (crypto_nonce_to_str nonce) old = nonce) as Hnonce.
  { intros nonce old _. apply String.list_byte_of_string_of_list_byte. }
  assert (Forall cands_ok (ws_streams alice_describes)) as Hc.
  { apply Forall_forall. intros s _. split; [intros comp l [= <-]; apply some_cands_ok|]. intros l [= <-]. vm_compute. congruence. }
  destruct (sdp_exchange Hkey Hnonce SDP_MAX_LEN alice_describes alice_description bob_takes He Hc)
    as (b' & E & Hk & _); [by vm_compute..|].
  exists b'. split; [exact E|exact Hk].
Defined.

(** A description whose only part has no connection line. *)
Definition no_conn : sdp_session :=
  {| sd_user := String.string_of_list_byte (replicate 32 (byte.of_Z 65)); sd_id := 1; sd_addr := "10.0.0.1";
     sd_name := "elastos-ice-session"; sd_attrs := [("ice-ufrag"%string, "user"%string)];
     sd_media := [{| md_media := "text"; md_port := 1; md_fmt := ["10"%string]; md_conn := None; md_attrs := []; md_after := [] |}] |}.

Lemma hostile_description_witness :
  sdp_parse (write_lines no_conn) = inr no_conn /\
  ice_session_apply_remote_sdp (write_lines no_conn) bob_takes = Fault NullDeref.
Proof.
  assert (sdp_parse (write_lines no_conn) = inr no_conn) as Hp by (vm_compute; reflexivity). split; [exact Hp|].
  eapply (hostile_description (write_lines no_conn) no_conn bob_takes).
  - vm_compute. congruence.
  - vm_compute. congruence.
  - exact Hp.
  - reflexivity.
  - vm_compute. reflexivity.
  - reflexivity.
  - vm_compute. reflexivity.
  - reflexivity.
  - by apply HostileConn; vm_compute.
Defined.

(** A candidate that is cut short goes on in the next line. *)
Example candidate_past_value :
  scan_candidate "Ha 1 UDP 7" = Ok None /\
  scan_candidate ("Ha 1 UDP 7" +:+ String newline "a=x 9 typ host") =
    Ok (Some {| cl_foundation := "Ha"; cl_comp_id := 1; cl_prio := 7; cl_ipaddr := "a=x"; cl_port := 9;
                cl_type := "host"; cl_related := None |}).
Proof. split; by vm_compute. Qed.

(** The options of a stream are compared together with those of the streams before it:
    the second streams differ here, and both stay. *)
Definition differ (first second : Z) : session :=
  (ran [CallAddStream ElaStreamType_text first None 0 0 ∅; CallAddStream ElaStreamType_text second None 0 0 ∅]
     bob bob_session).2.
Definition prepared_like (ws : session) : session :=
  { ws with ws_streams ::= map (fun s => { s with s_pipe ::= map_lower (fun n => { n with cr_next ::= fun x =>
      { x with is_st ::= fun y => { y with ws_sess := true } } }) }) }.

Example options_accumulate :
  match ice_session_encode_local_sdp SDP_MAX_LEN (prepared_like (differ ELA_STREAM_PLAIN ELA_STREAM_PLAIN)) with
  | Ok (inr text) =>
      match ice_session_apply_remote_sdp text (differ ELA_STREAM_PLAIN 0) with
      | Ok (rc, ws) => rc = 0 /\ s_deactivate <$> ws_streams ws = [false; false]
      | Fault _ => False
      end
  | _ => False
  end.
Proof. vm_compute. split; reflexivity. Qed.
