(* ===== verification/ReliableHandler.v ===== *)
(** * The reliable handler of a stream (src/src/session/reliable_handler.c)

    Carries the bytes of a stream over packets that may get lost, by a socket of
    [PseudoTcp] between the layer above, here the list [rh_up] of what it was given, and
    the layers below, the interfaces [Multiplex.Next] and [Session.Lower], which also hold
    [stream->state].

    The engine calls back while it works.  Its trace says when: the answers of its
    [WritePacket] are computed by replaying the calls so far on the handler
    ([engine_env]), and when the operation is over the same calls are made on the handler
    ([replay]).  Reading is called back last, so it comes after ([readable]).

    The clock is a function of how often it was read.  What other threads do while a
    writer sleeps is an argument of [write_loop].  Allocation failures, the lock and the
    creation of timers that fails are not modelled; a layer below reports, while it is
    stopped, only that it closed or failed. *)

From S2P Require Import Prelude ElaError FlexBuffer Multiplex Fifo SeqArith PseudoTcp Session IceStream.

Definition DEFAULT_TCP_MTU : Z := 1400.
Definition INT_MAX : Z := 2 ^ 31 - 1.

Class MonotonicClock := monotonic_time : nat -> Z.

(** The timer: how it was created, or when it was last told to go off. *)
Inductive clock_timer := TimerEvery (interval : Z) | TimerAt (next : Z).

(** [prev->on_data] and [prev->on_state_changed]. *)
Inductive up_event := UpData (data : list byte) | UpState (state : Z).

Record ReliableHandler {next : Type} := {
  rh_sock : option PseudoTcpSocket;
  rh_sock_closed : bool;
  rh_last_clock_timeout : Z;
  rh_clock : option clock_timer;
  rh_next : next;
  rh_up : list up_event                   (* newest first *)
}.
Arguments ReliableHandler next : clear implicits.

Section Reliable.
Context `{St : !Stack, Malloc0 : !Malloc, MC : !MonotonicClock} {next tr : Type} `{!Next next, !Lower next tr}.
Implicit Types h : ReliableHandler next.

Definition reliable_handler_create (n : next) : ReliableHandler next :=
  {| rh_sock := None; rh_sock_closed := false; rh_last_clock_timeout := 0; rh_clock := None;
     rh_next := n; rh_up := [] |}.

(** [base->stream->state] *)
Definition rh_state h : Z := lower_state (rh_next h).

(** [prev->on_state_changed], which ends at the stream. *)
Definition report_state (state : Z) h : ReliableHandler next :=
  { h with rh_next ::= lower_set_state state; rh_up ::= cons (UpState state) }.

(** ** The callbacks of the socket *)

Definition reliable_handler_destroy_timer h : ReliableHandler next := { h with rh_clock := None }.

(** What [reliable_handler_stop] does after it closed the socket; the states that the
    layer below reports come up through the handler. *)
Definition stop_below (error : Z) h : ReliableHandler next :=
  let h := reliable_handler_destroy_timer h in
  let reports := lower_stop_reports (rh_next h) error in
  foldl (fun h state => report_state state h) { h with rh_next ::= fun n => next_stop n error } reports.

Definition pseudo_tcp_socket_opened h : ReliableHandler next := report_state ElaStreamState_connected h.

(** With [sock_closed] set [reliable_handler_stop] does not close the socket again. *)
Definition pseudo_tcp_socket_closed (err : Z) h : ReliableHandler next :=
  let h := { h with rh_sock_closed := true } in
  let err := if err =? ECONNABORTED then 0 else err in
  let err := if err =? ECONNRESET then 0 else err in
  stop_below err h.

(** The result of [write] has 64 bits and the error word 32, so a busy layer below, which
    gives it as a negative [int], is not recognised. *)
Definition pseudo_tcp_socket_write_packet (buffer : list byte) h :
    Res (PseudoTcpWriteResult * ReliableHandler next) :=
  if (rh_state h =? ElaStreamState_connected) || (rh_state h =? ElaStreamState_connecting) then
    '(rc, _, n) ← next_write (rh_next h) (flex_buffer_from FLEX_PADDING_LEN buffer);
    Ok (if (rc >? 0) || (rc =? u32 (ELA_GENERAL_ERROR ELAERR_BUSY)) then WR_SUCCESS else WR_FAIL,
        { h with rh_next := n })
  else Ok (WR_FAIL, h).

Definition socket_callback (e : event) h : Res (ReliableHandler next) :=
  match e with
  | EvPacket bytes _ => '(_, h) ← pseudo_tcp_socket_write_packet bytes h; Ok h
  | EvOpened => Ok (pseudo_tcp_socket_opened h)
  | EvClosed err => Ok (pseudo_tcp_socket_closed err h)
  | EvReadable | EvWritable => Ok h
  end.

(** ** Calls of the socket *)

(** Callbacks in their order. *)
Fixpoint replay (l : list event) h : Res (ReliableHandler next) :=
  match l with
  | [] => Ok h
  | e :: l => h ← socket_callback e h; replay l h
  end.

(** What was added to a trace, oldest first. *)
Definition recent (old new : list event) : list event := reverse (take (length new - length old) new).

Definition engine_env (sock : PseudoTcpSocket) h : PseudoTcpEnv := {|
  WritePacket tr bytes :=
    match h ← replay (recent (trace sock) tr) h; pseudo_tcp_socket_write_packet bytes h with
    | Ok (wres, _) => wres | Fault _ => WR_FAIL
    end;
  get_monotonic_time := monotonic_time
|}.

(** A call of the socket with its callbacks, which are given back. *)
Definition engine {A} (call : PseudoTcpEnv -> PseudoTcpSocket -> Res (A * PseudoTcpSocket)) h :
    Res (A * list event * ReliableHandler next) :=
  sock ← deref (rh_sock h);
  '(a, sock') ← call (engine_env sock h) sock;
  let events := recent (trace sock) (trace sock') in
  h ← replay events h;
  Ok (a, events, { h with rh_sock := Some sock' }).

(** The data of a buffer with its length as a [uint32_t]. *)
Definition data_u32 (buf : FlexBuffer) : list byte := take (Z.to_nat (u32 (fx_size buf))) (flex_data buf).

(** A call without a result. *)
Definition run (call : PseudoTcpEnv -> PseudoTcpSocket -> Res PseudoTcpSocket)
    (env : PseudoTcpEnv) (sock : PseudoTcpSocket) : Res (unit * PseudoTcpSocket) :=
  sock ← call env sock; Ok (tt, sock).

(** ** Stopping and the clock *)

Definition reliable_handler_stop (error : Z) h : Res (ReliableHandler next) :=
  h ← match rh_sock h with
      | Some sock =>
          if negb (rh_sock_closed h) && negb (pseudo_tcp_socket_is_closed sock)
          then '(_, _, h) ← engine (run (fun E s => pseudo_tcp_socket_close s true)) h; Ok h
          else Ok h
      | None => Ok h
      end;
  Ok (stop_below error h).

(** [get_monotonic_time] read by the handler itself. *)
Definition read_clock h : Res (Z * ReliableHandler next) :=
  sock ← deref (rh_sock h);
  Ok (monotonic_time (ticks sock), { h with rh_sock := Some { sock with ticks ::= S } }).

(** [timeout] is a [uint64_t], which [get_next_clock] leaves when it fails. *)
Definition reliable_handler_adjust_clock h : Res (ReliableHandler next) :=
  sock ← deref (rh_sock h);
  if pseudo_tcp_socket_is_closed sock then Ok h
  else
    '(r, _, h) ← engine (fun E s => pseudo_tcp_socket_get_next_clock s (rh_last_clock_timeout h)) h;
    match r with
    | Some timeout =>
        if timeout =? rh_last_clock_timeout h then Ok h
        else
          let h := { h with rh_last_clock_timeout := timeout } in
          match rh_clock h with
          | Some _ => Ok { h with rh_clock := Some (TimerAt timeout) }
          | None =>
              '(now, h) ← read_clock h;
              let interval := i64 (u64 (timeout - now / 1000)) in
              let interval := if (interval <? 0) || (interval >? INT_MAX) then INT_MAX else interval in
              Ok { h with rh_clock := Some (TimerEvery interval) }
          end
    | None => reliable_handler_stop (-1) h
    end.

(** Whether the timer goes on. *)
Definition reliable_handler_timer_callback h : Res (bool * ReliableHandler next) :=
  _ ← deref (rh_sock h);
  match rh_clock h with
  | None => Ok (false, h)
  | Some _ =>
      '(_, _, h) ← engine (run (fun E s => pseudo_tcp_socket_notify_clock s)) h;
      h ← reliable_handler_adjust_clock h;
      Ok (true, h)
  end.

(** ** Receiving *)

(** The loop of [pseudo_tcp_socket_readable]; the result says whether the function
    returns without a look at the clock.  Every round but the last takes data out of
    the socket. *)
Fixpoint readable_loop (fuel : nat) (buf : FlexBuffer) h : Res (bool * ReliableHandler next) :=
  match fuel with
  | O => Fault Diverges
  | S fuel =>
      let buf := flex_buffer_reset buf FLEX_PADDING_LEN in
      '(r, _, h) ← engine (fun E s => pseudo_tcp_socket_recv s (flex_buffer_available buf)) h;
      let '(len, data) := r in
      buf ← fx_write buf (fx_offset buf) data;
      if len =? 0 then
        '(_, _, h) ← engine (run (fun E s => pseudo_tcp_socket_close s false)) h; Ok (false, h)
      else if len <? 0 then
        sock ← deref (rh_sock h);
        let error := pseudo_tcp_socket_get_error sock in
        h ← (if negb (error =? EWOULDBLOCK) then reliable_handler_stop error h else Ok h);
        Ok (false, h)
      else
        let buf := flex_buffer_set_size buf len in
        let h := { h with rh_up ::= cons (UpData (flex_data buf)) } in
        sock ← deref (rh_sock h);
        if pseudo_tcp_socket_is_closed sock then Ok (true, h) else readable_loop fuel buf h
  end.

Definition pseudo_tcp_socket_readable h : Res (ReliableHandler next) :=
  sock ← deref (rh_sock h);
  let buf := flex_buffer_alloca FLEX_BUFFER_MAX_LEN FLEX_PADDING_LEN in
  '(done, h) ← readable_loop (Z.to_nat (pseudo_tcp_socket_get_available_bytes sock) + 2) buf h;
  if (done : bool) then Ok h else reliable_handler_adjust_clock h.

Definition is_readable (e : event) : bool := match e with EvReadable => true | _ => false end.

Definition reliable_handler_on_rx_data (buf : FlexBuffer) h : Res (ReliableHandler next) :=
  '(_, events, h) ← engine (fun E s => pseudo_tcp_socket_notify_packet s (data_u32 buf)) h;
  h ← (if existsb is_readable events then pseudo_tcp_socket_readable h else Ok h);
  sock ← deref (rh_sock h);
  if pseudo_tcp_socket_is_closed sock then Ok h else reliable_handler_adjust_clock h.

Definition reliable_handler_on_state_changed (state : Z) h : Res (ReliableHandler next) :=
  if state =? ElaStreamState_connected then
    '(ok, _, h) ← engine (fun E s => pseudo_tcp_socket_connect s) h;
    if (ok : bool) then reliable_handler_adjust_clock h else Ok h
  else Ok (report_state state h).

(** ** Writing *)

(** What comes in from the network or the timer while a writer sleeps. *)
Inductive handler_input := InRx (buf : FlexBuffer) | InTimer.

Definition handle_input (i : handler_input) h : Res (ReliableHandler next) :=
  match i with
  | InRx buf => reliable_handler_on_rx_data buf h
  | InTimer => '(_, h) ← reliable_handler_timer_callback h; Ok h
  end.

Fixpoint handle_inputs (l : list handler_input) h : Res (ReliableHandler next) :=
  match l with
  | [] => Ok h
  | i :: l => h ← handle_input i h; handle_inputs l h
  end.

(** The loop of [reliable_handler_write]: [sleeps] says what happens during each of its
    sleeps.  The result is the error it returns, if there is one, or none with what is
    left of the buffer; it is not empty when the writer still sleeps at the end. *)
Fixpoint write_loop (fuel : nat) (sleeps : list (list handler_input)) (buf : FlexBuffer) h :
    Res (option Z * FlexBuffer * ReliableHandler next) :=
  if negb (fx_size buf >? 0) then Ok (None, buf, h)
  else
    match fuel with
    | O => Fault Diverges
    | S fuel =>
        '(sent, _, h) ← engine (fun E s => pseudo_tcp_socket_send s (data_u32 buf)) h;
        h ← reliable_handler_adjust_clock h;
        if sent <? 0 then
          sock ← deref (rh_sock h);
          let error := pseudo_tcp_socket_get_error sock in
          if negb (error =? EWOULDBLOCK) then
            h ← reliable_handler_stop error h;
            Ok (Some (u32 (ELA_SYS_ERROR error)), buf, h)
          else
            match sleeps with
            | [] => Ok (None, buf, h)
            | inputs :: sleeps =>
                h ← handle_inputs inputs h;
                h ← reliable_handler_adjust_clock h;
                write_loop fuel sleeps buf h
            end
        else
          buf ← flex_buffer_forward_offset buf sent;
          write_loop fuel sleeps buf h
    end.

(** A round that does not sleep sends something. *)
Definition write_fuel (sleeps : list (list handler_input)) (buf : FlexBuffer) : nat :=
  Z.to_nat (fx_size buf) + length sleeps + 1.

(** [None] while it sleeps. *)
Definition reliable_handler_write (sleeps : list (list handler_input)) (buf : FlexBuffer) h :
    Res (option Z * FlexBuffer * ReliableHandler next) :=
  _ ← deref (rh_sock h);
  if negb (rh_state h =? ElaStreamState_connected)
  then Ok (Some (u32 (ELA_GENERAL_ERROR ELAERR_WRONG_STATE)), buf, h)
  else
    let len := fx_size buf in
    '(error, buf, h) ← write_loop (write_fuel sleeps buf) sleeps buf h;
    Ok (match error with
        | Some rc => Some rc
        | None => if fx_size buf >? 0 then None else Some len
        end, buf, h).

(** ** The other entries of the handler *)

Definition reliable_handler_prepare (transport : tr) h : Res (Z * ReliableHandler next) :=
  let '(rc, n) := lower_prepare transport (rh_next h) in
  let h := { h with rh_next := n } in
  if negb (rc =? 0) then Ok (rc, h)
  else
    let callbacks := {| PseudoTcpOpened := true; PseudoTcpReadable := true;
                        PseudoTcpWritable := true; PseudoTcpClosed := true |} in
    let h := { h with rh_sock := Some (pseudo_tcp_socket_new 1 callbacks) } in
    '(_, _, h) ← engine (run (fun _ s => pseudo_tcp_socket_notify_mtu s DEFAULT_TCP_MTU)) h;
    Ok (0, h).

Definition reliable_handler_start h : Res (Z * ReliableHandler next) :=
  '(rc, n) ← next_start (rh_next h); Ok (rc, { h with rh_next := n }).

(** The layer below loses its reference afterwards. *)
Definition reliable_handler_destroy h : Res (ReliableHandler next) :=
  h ← match rh_sock h with
      | Some sock =>
          h ← (if negb (pseudo_tcp_socket_is_closed sock)
               then '(_, _, h) ← engine (run (fun E s => pseudo_tcp_socket_close s true)) h; Ok h
               else Ok h);
          Ok { h with rh_sock := None }
      | None => Ok h
      end;
  Ok (reliable_handler_destroy_timer h).

End Reliable.
