(* ===== verification/ReliableProps.v ===== *)
(** * Streams over packets that may get lost

    Two reliable handlers joined by a network that loses, repeats, delays and reorders
    what their lower layers send: whatever is written, read, timed out or stopped, no
    operation faults, and what a handler gave to the layer above is the beginning of what
    was written at the other end.  So the multiplexer above it handles exactly the packets
    of the other one, in their order. *)

From S2P Require Import Prelude ElaError FlexBuffer Multiplex MultiplexProps MultiplexStream.
From S2P Require Import Fifo SeqArith PseudoTcp PseudoTcpProps PseudoTcpRecv PseudoTcpSend PseudoTcpEnd PseudoTcpPair.
From S2P Require Import Session ReliableHandler.

(** What is relied on of the layers below: neither a change of the state nor stopping sends
    a packet of data. *)
Class BelowLaws (next tr : Type) `{!Next next, !Lower next tr, !NextLaws next} := {
  set_state_sent state (n : next) : next_sent (lower_set_state state n) = next_sent n;
  stop_sent (n : next) error : next_sent (next_stop n error) = next_sent n
}.

(** What the layer above was given. *)
Definition pieces {next} (h : ReliableHandler next) : list (list byte) :=
  omap (fun e => match e with UpData d => Some d | UpState _ => None end) (reverse (rh_up h)).
Definition received {next} (h : ReliableHandler next) : list byte := concat (pieces h).

Section Props.
Context `{MB : !MssBound, St : !Stack, Malloc0 : !Malloc, MC : !MonotonicClock} {next tr : Type}.
Context `{!Next next, !Lower next tr, !NextLaws next, !BelowLaws next tr}.
Context (Hfits : HEADER_SIZE + mss_max <= next_max).
Implicit Types h : ReliableHandler next.

(** ** Callbacks *)

Definition sent_ok (sent : list byte) h : Prop := Forall (packet_ok sent) (next_sent (rh_next h)).

(** A callback touches neither the socket nor what was read, and sends pieces only. *)
Record calm (sent : list byte) h h' : Prop := {
  cl_sock : rh_sock h' = rh_sock h;
  cl_pieces : pieces h' = pieces h;
  cl_next : sent_ok sent h'
}.

Lemma calm_trans sent h1 h2 h3 : calm sent h1 h2 -> calm sent h2 h3 -> calm sent h1 h3.
Proof. intros [] []. split; congruence || done. Qed.

Lemma report_state_calm sent state h : sent_ok sent h -> calm sent h (report_state state h).
Proof.
  intros H. split; [done| |unfold sent_ok; cbn; by rewrite set_state_sent].
  unfold pieces. change (rh_up (report_state state h)) with (UpState state :: rh_up h).
  by rewrite reverse_cons, omap_app, app_nil_r.
Qed.

Lemma stop_below_calm sent error h : sent_ok sent h -> calm sent h (stop_below error h).
Proof.
  intros H. unfold stop_below. cbn zeta.
  set (h0 := { reliable_handler_destroy_timer h with rh_next ::= fun n => next_stop n error }).
  assert (calm sent h h0) as H0 by (split; [done..|]; unfold sent_ok, h0; cbn; by rewrite stop_sent).
  clearbody h0. generalize (lower_stop_reports (rh_next (reliable_handler_destroy_timer h)) error). intros l.
  induction l as [|state l IH] in h0, H0 |- *; [done|]. cbn [foldl]. apply IH.
  eapply calm_trans; [exact H0|]. apply report_state_calm, H0.
Qed.

Lemma write_packet_calm sent bytes h : packet_ok sent bytes -> sent_ok sent h ->
  exists wres h', pseudo_tcp_socket_write_packet bytes h = Ok (wres, h') /\ calm sent h h'.
Proof.
  intros Hb Hs. unfold pseudo_tcp_socket_write_packet. destruct (_ || _); [|by exists WR_FAIL, h].
  pose proof Hb as [[_ Hlen] _]. pose proof next_room_fits. pose proof mss_max_fits. unfold zlen, HEADER_SIZE in *.
  destruct (flex_at_from FLEX_PADDING_LEN bytes) as (pre & E & Hpre); [done|].
  destruct (next_write_spec (rh_next h) (flex_buffer_from FLEX_PADDING_LEN bytes)) as (rc & b' & n' & -> & _ & Hrc).
  - rewrite E. apply flex_at_wf. unfold fx_small. rewrite !length_app. cbn [length]. unfold FLEX_PADDING_LEN in *. lia.
  - unfold flex_buffer_from. cbn. unfold FLEX_PADDING_LEN, PROTOCOL_HEAD_LEN in *. lia.
  - unfold flex_buffer_from. cbn. lia.
  - cbn [mbind Res_bind]. do 2 eexists. split; [reflexivity|]. split; [done..|]. unfold sent_ok. cbn.
    destruct Hrc as [[_ ->]|[_ ->]]; [|done]. rewrite E, flex_at_data. by apply Forall_app_2, Forall_singleton.
Qed.

Lemma socket_callback_calm sent e h : event_ok sent e -> sent_ok sent h ->
  exists h', socket_callback e h = Ok h' /\ calm sent h h'.
Proof.
  intros He Hs. destruct e as [bytes w| | | |err]; cbn [socket_callback].
  - destruct (write_packet_calm sent bytes h He Hs) as (wres & h' & -> & Hc). by exists h'.
  - eexists. split; [reflexivity|]. by apply report_state_calm.
  - by exists h.
  - by exists h.
  - eexists. split; [reflexivity|]. unfold pseudo_tcp_socket_closed. cbn zeta.
    set (h0 := { h with rh_sock_closed := true }). eapply (calm_trans _ _ h0); [by split|by apply stop_below_calm].
Qed.

Lemma replay_calm sent l h : Forall (event_ok sent) l -> sent_ok sent h ->
  exists h', replay l h = Ok h' /\ calm sent h h'.
Proof.
  induction l as [|e l IH] in h |- *; intros Hl Hs; cbn [replay]; [by exists h|].
  apply Forall_cons in Hl as [He Hl]. destruct (socket_callback_calm sent e h He Hs) as (h1 & -> & H1).
  cbn [mbind Res_bind]. destruct (IH h1 Hl (cl_next _ _ _ H1)) as (h2 & -> & H2).
  exists h2. split; [done|by eapply calm_trans].
Qed.

(** A call of the socket, and what it comes to for the handler. *)
Lemma engine_spec {A} (call : PseudoTcpEnv -> PseudoTcpSocket -> Res (A * PseudoTcpSocket)) h sock sent more
    (Q : A -> PseudoTcpSocket -> Prop) :
  rh_sock h = Some sock -> sent_ok sent h ->
  (forall E, exists a sock', call E sock = Ok (a, sock') /\ Q a sock' /\ sender (sent ++ more a) sock') ->
  exists a sock' events h', engine call h = Ok (a, events, h') /\ Q a sock' /\ rh_sock h' = Some sock' /\
    pieces h' = pieces h /\ sent_ok (sent ++ more a) h'.
Proof.
  intros Hsock Hs Hcall. unfold engine. rewrite Hsock. cbn [deref mbind Res_bind].
  destruct (Hcall (engine_env sock h)) as (a & sock' & -> & HQ & (una & nxt & Hinv)). cbn [mbind Res_bind].
  destruct (replay_calm (sent ++ more a) (recent (trace sock) (trace sock')) h) as (h' & -> & Hc).
  - unfold recent. apply Forall_reverse, Forall_take, Hinv.
  - unfold sent_ok in *. eapply Forall_impl; [exact Hs|]. intros x Hx. exact (event_ok_app sent (more a) (EvPacket x WR_FAIL) Hx).
  - cbn [mbind Res_bind]. do 4 eexists. split; [reflexivity|]. destruct Hc. by split_and!.
Qed.

(** ** The invariant *)

(** [sent] was written here and [peer] at the other end. *)
Record handler_inv (sent peer : list byte) h : Prop := {
  hi_sock : exists sock, rh_sock h = Some sock /\
      end_inv (opening ++ sent) (opening ++ peer) (OPENING + zlen (received h)) sock;
  hi_read : received h `prefix_of` peer;
  hi_pieces : Forall (fun d => d <> []) (pieces h);
  hi_next : sent_ok (opening ++ sent) h
}.

Lemma pieces_received h h' : pieces h' = pieces h -> received h' = received h.
Proof. unfold received. by intros ->. Qed.

Lemma calm_inv sent peer h h' : calm (opening ++ sent) h h' -> handler_inv sent peer h -> handler_inv sent peer h'.
Proof.
  intros [Es Ep Hn] [Hs Hr Hp _]. pose proof (pieces_received _ _ Ep) as Er. split; rewrite ?Er, ?Ep, ?Es; done.
Qed.

(** A call that reads nothing. *)
Lemma engine_inv {A} (call : PseudoTcpEnv -> PseudoTcpSocket -> Res (A * PseudoTcpSocket)) h sent peer
    (more : A -> list byte) (Q : A -> PseudoTcpSocket -> Prop) :
  handler_inv sent peer h ->
  (forall E sock, rh_sock h = Some sock ->
    end_inv (opening ++ sent) (opening ++ peer) (OPENING + zlen (received h)) sock ->
    exists a sock', call E sock = Ok (a, sock') /\ Q a sock' /\
      end_inv (opening ++ sent ++ more a) (opening ++ peer) (OPENING + zlen (received h)) sock') ->
  exists a events h', engine call h = Ok (a, events, h') /\ handler_inv (sent ++ more a) peer h' /\
    exists sock', rh_sock h' = Some sock' /\ Q a sock'.
Proof.
  intros [(sock & Hsock & Hend) Hr Hp Hn] Hcall.
  destruct (engine_spec call h sock (opening ++ sent) more
    (fun a s => Q a s /\ end_inv (opening ++ sent ++ more a) (opening ++ peer) (OPENING + zlen (received h)) s))
    as (a & sock' & evs & h' & -> & (HQ & He) & Hsock' & Ep & Hn'); [done|done| |].
  - intros E. destruct (Hcall E sock Hsock Hend) as (a & sock' & -> & HQ & He).
    exists a, sock'. split; [done|]. split; [done|]. rewrite <- app_assoc. apply He.
  - exists a, evs, h'. split; [done|]. split; [|by exists sock'].
    rewrite <- app_assoc in Hn'. pose proof (pieces_received _ _ Ep) as Er.
    split; rewrite ?Er, ?Ep; [by exists sock'|done..].
Qed.

(** One that also writes nothing. *)
Lemma engine_quiet {A} (call : PseudoTcpEnv -> PseudoTcpSocket -> Res (A * PseudoTcpSocket)) h sent peer
    (Q : A -> PseudoTcpSocket -> Prop) :
  handler_inv sent peer h ->
  (forall E sock, rh_sock h = Some sock ->
    end_inv (opening ++ sent) (opening ++ peer) (OPENING + zlen (received h)) sock ->
    exists a sock', call E sock = Ok (a, sock') /\ Q a sock' /\
      end_inv (opening ++ sent) (opening ++ peer) (OPENING + zlen (received h)) sock') ->
  exists a events h', engine call h = Ok (a, events, h') /\ handler_inv sent peer h' /\
    exists sock', rh_sock h' = Some sock' /\ Q a sock'.
Proof.
  intros Hinv Hcall. destruct (engine_inv call h sent peer (fun _ => []) Q Hinv) as (a & evs & h' & E & H' & HQ).
  - intros E sock. rewrite app_nil_r. apply Hcall.
  - rewrite app_nil_r in H'. by exists a, evs, h'.
Qed.

(** ** The operations *)

Lemma close_inv sent peer h : handler_inv sent peer h -> exists a evs h',
  engine (run (fun E s => pseudo_tcp_socket_close s true)) h = Ok (a, evs, h') /\ handler_inv sent peer h'.
Proof.
  intros Hinv. destruct (engine_quiet (run (fun E s => pseudo_tcp_socket_close s true)) h sent peer (fun _ _ => True) Hinv)
    as (a & evs & h' & E & H' & _); [|by exists a, evs, h'].
  intros E sock _ Hend. destruct (force_close_spec _ _ _ _ Hend) as (s & Hs & H').
  exists tt, s. unfold run. by rewrite Hs.
Qed.

Lemma stop_inv sent peer error h : handler_inv sent peer h ->
  exists h', reliable_handler_stop error h = Ok h' /\ handler_inv sent peer h'.
Proof.
  intros Hinv. unfold reliable_handler_stop. destruct (hi_sock _ _ _ Hinv) as (sock & -> & _).
  assert (forall h1, handler_inv sent peer h1 -> handler_inv sent peer (stop_below error h1)) as Hstop.
  { intros h1 H1. eapply calm_inv; [|exact H1]. apply stop_below_calm, H1. }
  destruct (_ && _); cbn [mbind Res_bind].
  - destruct (close_inv sent peer h Hinv) as (a & evs & h1 & -> & H1). cbn [mbind Res_bind].
    eexists. by split; [reflexivity|apply Hstop].
  - eexists. by split; [reflexivity|apply Hstop].
Qed.

(** Fields of the handler that no invariant is about. *)
Lemma handler_ext sent peer h h' :
  rh_sock h' = rh_sock h -> rh_next h' = rh_next h -> rh_up h' = rh_up h ->
  handler_inv sent peer h -> handler_inv sent peer h'.
Proof.
  intros Es En Eu Hinv. eapply calm_inv; [|exact Hinv].
  split; [done|unfold pieces; by rewrite Eu|unfold sent_ok; rewrite En; apply Hinv].
Qed.

Lemma read_clock_inv sent peer h : handler_inv sent peer h -> exists now h',
  read_clock h = Ok (now, h') /\ handler_inv sent peer h' /\ rh_clock h' = rh_clock h.
Proof.
  intros [(sock & Hsock & Hend) Hr Hp Hn]. unfold read_clock. rewrite Hsock. cbn [deref mbind Res_bind].
  do 2 eexists. split; [reflexivity|]. split; [|done]. split; [|done..]. eexists. split; [reflexivity|].
  by apply (receives_end _ _ _ sock).
Qed.

Lemma adjust_clock_inv sent peer h : handler_inv sent peer h ->
  exists h', reliable_handler_adjust_clock h = Ok h' /\ handler_inv sent peer h'.
Proof.
  intros Hinv. unfold reliable_handler_adjust_clock. destruct (hi_sock _ _ _ Hinv) as (sock & Hsock & _).
  rewrite Hsock. cbn [deref mbind Res_bind]. destruct (pseudo_tcp_socket_is_closed sock); [by exists h|].
  destruct (engine_quiet (fun E s => pseudo_tcp_socket_get_next_clock s (rh_last_clock_timeout h)) h sent peer
    (fun _ _ => True) Hinv) as (r & evs & h1 & -> & H1 & _).
  { intros E s _ Hend. destruct (next_clock_spec s (rh_last_clock_timeout h) (en_live _ _ _ _ Hend)) as (r & s' & Hrun & Hq & _).
    exists r, s'. split; [done|]. split; [done|]. eapply sends_end; [|done]. apply quiet_sends; [done|apply Hend]. }
  cbn [mbind Res_bind]. destruct r as [timeout|]; [|by apply stop_inv].
  destruct (timeout =? _); [by exists h1|]. cbn zeta.
  set (h2 := { h1 with rh_last_clock_timeout := timeout }).
  assert (handler_inv sent peer h2) as H2 by (by apply (handler_ext sent peer h1)).
  destruct (rh_clock h2).
  - eexists. split; [reflexivity|]. by apply (handler_ext sent peer h2).
  - destruct (read_clock_inv sent peer h2 H2) as (now & h3 & -> & H3 & _). cbn [mbind Res_bind].
    eexists. split; [reflexivity|]. by apply (handler_ext sent peer h3).
Qed.

Lemma timer_inv sent peer h : handler_inv sent peer h ->
  exists b h', reliable_handler_timer_callback h = Ok (b, h') /\ handler_inv sent peer h'.
Proof.
  intros Hinv. unfold reliable_handler_timer_callback. destruct (hi_sock _ _ _ Hinv) as (sock & -> & _).
  cbn [deref mbind Res_bind]. destruct (rh_clock h); [|by exists false, h].
  destruct (engine_quiet (run (fun E s => pseudo_tcp_socket_notify_clock s)) h sent peer (fun _ _ => True) Hinv)
    as (a & evs & h1 & -> & H1 & _).
  { intros E s _ Hend. destruct (clock_spec _ _ _ _ Hend) as (s' & Hs & H'). exists tt, s'. unfold run. by rewrite Hs. }
  cbn [mbind Res_bind]. destruct (adjust_clock_inv sent peer h1 H1) as (h2 & -> & H2). by exists true, h2.
Qed.

Lemma state_changed_inv sent peer state h : handler_inv sent peer h ->
  exists h', reliable_handler_on_state_changed state h = Ok h' /\ handler_inv sent peer h'.
Proof.
  intros Hinv. unfold reliable_handler_on_state_changed. destruct (state =? _).
  - destruct (engine_quiet (fun E s => pseudo_tcp_socket_connect s) h sent peer (fun _ _ => True) Hinv)
      as (ok & evs & h1 & -> & H1 & _).
    { intros E s _ Hend. destruct (connect_end _ _ _ _ Hend) as (s' & Hs & H'). by exists false, s'. }
    cbn [mbind Res_bind]. destruct ok; [by apply adjust_clock_inv|by exists h1].
  - eexists. split; [reflexivity|]. eapply calm_inv; [|exact Hinv]. apply report_state_calm, Hinv.
Qed.

(** ** Receiving *)

(** What was put at the start of the data area is its data. *)
Lemma area_data buf d :
  fx_offset buf = FLEX_PADDING_LEN -> FLEX_PADDING_LEN + zlen d <= zlen (fx_buffer buf) ->
  exists b, fx_write buf (fx_offset buf) d = Ok b /\ fx_capacity b = fx_capacity buf /\
    zlen (fx_buffer b) = zlen (fx_buffer buf) /\ flex_data (flex_buffer_set_size b (zlen d)) = d.
Proof.
  intros Ho Hl. unfold fx_write. rewrite Ho. fold (zlen d). fold (zlen (fx_buffer buf)).
  rewrite (proj2 (Z.leb_le _ _)) by done. eexists. split; [reflexivity|]. split; [done|].
  unfold zlen, FLEX_PADDING_LEN in *. cbn. rewrite length_splice by lia. split; [done|].
  unfold flex_data. cbn. rewrite Ho, Nat2Z.id. unfold splice.
  rewrite drop_app_length', take_app_length by (rewrite length_take; lia). done.
Qed.

Definition recv_call n (E : PseudoTcpEnv) (s : PseudoTcpSocket) : Res (Z * list byte * PseudoTcpSocket) :=
  pseudo_tcp_socket_recv s n.

(** A read of the socket: bytes that follow what was read, or none and why. *)
Lemma recv_call_spec sent peer base n E sock :
  0 < n < 2 ^ 31 -> end_inv sent peer base sock ->
  exists r data sock', recv_call n E sock = Ok (r, data, sock') /\ zlen data <= n /\
    data = take (length data) (drop (Z.to_nat base) peer) /\ end_inv sent peer (base + zlen data) sock' /\
    (r = zlen data /\ 0 < r /\ data_length (rbuf sock') = data_length (rbuf sock) - zlen data \/
     data = [] /\ r = 0 /\ state sock' = TCP_CLOSED \/
     data = [] /\ r = -1 /\ error sock' = EWOULDBLOCK).
Proof.
  intros Hn Hend. unfold recv_call. destruct (shutdown_reads sock) eqn:Hsr.
  { unfold pseudo_tcp_socket_recv. rewrite (lv_fin_ack _ (en_live _ _ _ _ Hend)), Hsr. cbn [andb mbind Res_bind].
    do 3 eexists. split; [reflexivity|]. split; [unfold zlen; cbn; lia|]. split; [done|].
    split; [unfold zlen; cbn; by rewrite Z.add_0_r|]. right. left. split_and!; [done..|].
    by apply (lv_reads _ (en_live _ _ _ _ Hend)). }
  destruct (recv_spec _ _ _ _ n Hend Hn Hsr) as (r & data & s & -> & Hdata & Hs & Hr & Hclosed & _ & Hlen).
  pose proof (end_received _ _ _ _ Hend) as Hrcv.
  pose proof (wf_data _ (ri_wf _ _ _ _ _ (en_recv _ _ _ _ Hend _ (begins_stream_of peer Byte.x00)))) as Hdl.
  pose proof (en_base _ _ _ _ Hend) as Hb. unfold OPENING in Hb.
  assert (zlen data = Z.min n (data_length (rbuf sock))) as El.
  { rewrite Hdata. unfold zlen in *. rewrite length_take, length_drop. lia. }
  cbn [mbind Res_bind]. do 3 eexists. split; [reflexivity|]. split; [lia|].
  split; [|split; [done|]].
  { rewrite Hdata at 1. f_equal. unfold zlen in El. lia. }
  destruct Hr as [Hr|(-> & -> & Herr)]; [|by right; right].
  destruct (Z.eq_dec r 0) as [E0|Hne]; [right; left|left; unfold zlen in *; lia].
  split_and!; [apply nil_length_inv; unfold zlen in *; lia|done|by apply Hclosed].
Qed.

Lemma close_false_inv sent peer h sock : handler_inv sent peer h -> rh_sock h = Some sock -> state sock = TCP_CLOSED ->
  exists a evs h', engine (run (fun E s => pseudo_tcp_socket_close s false)) h = Ok (a, evs, h') /\ handler_inv sent peer h'.
Proof.
  intros Hinv Hsock Hst.
  destruct (engine_quiet (run (fun E s => pseudo_tcp_socket_close s false)) h sent peer (fun _ _ => True) Hinv)
    as (a & evs & h' & E & H' & _); [|by exists a, evs, h'].
  intros E sock' Hsock' Hend. rewrite Hsock in Hsock'. injection Hsock' as <-.
  destruct (force_close_spec _ _ _ _ Hend) as (s & Hs & H').
  exists tt, s. unfold run. by rewrite close_closed, Hs.
Qed.

(** A round of the loop: what it read goes up. *)
Lemma readable_round sent peer h n :
  handler_inv sent peer h -> 0 < n < 2 ^ 31 ->
  exists r data evs h' sock', engine (recv_call n) h = Ok (r, data, evs, h') /\ zlen data <= n /\
    rh_sock h' = Some sock' /\
    (r = zlen data /\ 0 < r /\ handler_inv sent peer { h' with rh_up ::= cons (UpData data) } /\
       (forall sock, rh_sock h = Some sock -> data_length (rbuf sock') = data_length (rbuf sock) - zlen data) \/
     data = [] /\ handler_inv sent peer h' /\
       (r = 0 /\ state sock' = TCP_CLOSED \/ r = -1 /\ error sock' = EWOULDBLOCK)).
Proof.
  intros [(sock & Hsock & Hend) Hr Hp Hn] Hlen.
  destruct (engine_spec (recv_call n) h sock (opening ++ sent) (fun _ => [])
    (fun '(r, data) s => zlen data <= n /\
       data = take (length data) (drop (Z.to_nat (OPENING + zlen (received h))) (opening ++ peer)) /\
       end_inv (opening ++ sent) (opening ++ peer) (OPENING + zlen (received h) + zlen data) s /\
       (r = zlen data /\ 0 < r /\ data_length (rbuf s) = data_length (rbuf sock) - zlen data \/
        data = [] /\ r = 0 /\ state s = TCP_CLOSED \/ data = [] /\ r = -1 /\ error s = EWOULDBLOCK)))
    as ([r data] & sock' & evs & h' & -> & (Hdl & Hdata & He & Hcase) & Hsock' & Ep & Hn'); [done|done| |].
  { intros E. destruct (recv_call_spec _ _ _ n E sock Hlen Hend) as (r & data & s & -> & H1 & H2 & H3 & H4).
    exists (r, data), s. split; [done|]. split; [by split_and!|]. rewrite app_nil_r. apply H3. }
  rewrite app_nil_r in Hn'. pose proof (pieces_received _ _ Ep) as Er.
  exists r, data, evs, h', sock'. split; [done|]. split; [done|]. split; [done|].
  destruct Hcase as [(Hrl & Hpos & Hd)|Hcase].
  - left. split; [done|]. split; [done|]. split; [|intros s; rewrite Hsock; by intros [= <-]].
    set (h2 := { h' with rh_up ::= cons (UpData data) }).
    assert (pieces h2 = pieces h ++ [data]) as Ep2.
    { rewrite <- Ep. unfold pieces. change (rh_up h2) with (UpData data :: rh_up h'). by rewrite reverse_cons, omap_app. }
    assert (received h2 = received h ++ data) as Er2.
    { unfold received. rewrite Ep2, concat_app. cbn. by rewrite app_nil_r. }
    split.
    + exists sock'. split; [done|]. by rewrite Er2, zlen_app, Z.add_assoc.
    + rewrite Er2, Hdata, drop_opening by (unfold zlen; lia). unfold zlen. rewrite Nat2Z.id. by apply prefix_more.
    + rewrite Ep2. apply Forall_app_2; [done|]. apply Forall_singleton. intros ->. unfold zlen in *. cbn in *. lia.
    + done.
  - right. assert (data = []) as -> by (destruct Hcase as [(? & _)|(? & _)]; done).
    split; [done|]. split; [|destruct Hcase as [(_ & ? & ?)|(_ & ? & ?)]; auto].
    split; rewrite ?Er, ?Ep; [|done..]. exists sock'. split; [done|]. by rewrite <- (Z.add_0_r (OPENING + _)).
Qed.

(** Every round but the last takes something out, so the rounds are enough. *)
Lemma readable_loop_inv sent peer fuel : forall buf h sock,
  handler_inv sent peer h -> rh_sock h = Some sock ->
  fx_capacity buf = FLEX_BUFFER_MAX_LEN -> zlen (fx_buffer buf) = FLEX_BUFFER_MAX_LEN ->
  data_length (rbuf sock) + 1 < Z.of_nat fuel ->
  exists b h', readable_loop fuel buf h = Ok (b, h') /\ handler_inv sent peer h'.
Proof.
  induction fuel as [|fuel IH]; intros buf h sock Hinv Hsock Hcap Hbuf Hfuel.
  { destruct (hi_sock _ _ _ Hinv) as (s & Hs & Hend). rewrite Hsock in Hs. injection Hs as <-.
    pose proof (wf_data _ (ri_wf _ _ _ _ _ (en_recv _ _ _ _ Hend _ (begins_stream_of (opening ++ peer) Byte.x00)))). lia. }
  cbn [readable_loop]. cbn zeta. set (buf0 := flex_buffer_reset buf FLEX_PADDING_LEN).
  assert (flex_buffer_available buf0 = FLEX_BUFFER_MAX_LEN - FLEX_PADDING_LEN) as Hav.
  { unfold flex_buffer_available, buf0. cbn. rewrite Hcap. reflexivity. }
  rewrite Hav.
  destruct (readable_round sent peer h (FLEX_BUFFER_MAX_LEN - FLEX_PADDING_LEN) Hinv)
    as (r & data & evs & h1 & sock1 & Hrun & Hdl & Hsock1 & Hcase); [by vm_compute|].
  unfold recv_call in Hrun. rewrite Hrun. cbn [mbind Res_bind].
  destruct (area_data buf0 data) as (b & Hw & Hcb & Hlb & Hd); [done|unfold buf0; cbn; lia|].
  rewrite Hw. cbn [mbind Res_bind].
  destruct Hcase as [(-> & Hpos & H1 & Hrest)|(-> & H1 & Hend)].
  - rewrite (proj2 (Z.eqb_neq _ _)), (proj2 (Z.ltb_ge _ _)) by lia. rewrite Hd.
    set (h2 := { h1 with rh_up ::= cons (UpData data) }) in *. change (rh_sock h2) with (rh_sock h1). rewrite Hsock1.
    cbn [deref mbind Res_bind]. destruct (pseudo_tcp_socket_is_closed sock1); [by eexists true, _|].
    eapply (IH _ _ sock1); [exact H1|exact Hsock1|..].
    + cbn. by rewrite Hcb.
    + cbn. by rewrite Hlb.
    + rewrite (Hrest sock Hsock). lia.
  - destruct Hend as [[-> Hst]|[-> Herr]].
    + cbn [Z.eqb]. destruct (close_false_inv sent peer h1 sock1 H1 Hsock1 Hst) as (a & ev2 & h2 & -> & H2).
      cbn [mbind Res_bind]. by exists false, h2.
    + cbn [Z.eqb Z.ltb Z.compare]. rewrite Hsock1. cbn [deref mbind Res_bind]. unfold pseudo_tcp_socket_get_error.
      rewrite Herr. cbn [negb Z.eqb]. change (EWOULDBLOCK =? EWOULDBLOCK) with true. cbn [negb mbind Res_bind].
      by exists false, h1.
Qed.

Lemma readable_inv sent peer h : handler_inv sent peer h ->
  exists h', pseudo_tcp_socket_readable h = Ok h' /\ handler_inv sent peer h'.
Proof.
  intros Hinv. unfold pseudo_tcp_socket_readable. destruct (hi_sock _ _ _ Hinv) as (sock & Hsock & Hend).
  rewrite Hsock. cbn [deref mbind Res_bind].
  destruct (readable_loop_inv sent peer (Z.to_nat (pseudo_tcp_socket_get_available_bytes sock) + 2)
    (flex_buffer_alloca FLEX_BUFFER_MAX_LEN FLEX_PADDING_LEN) h sock Hinv Hsock) as (b & h1 & -> & H1).
  - done.
  - unfold zlen. cbn [flex_buffer_alloca fx_buffer]. rewrite stack_length. done.
  - unfold pseudo_tcp_socket_get_available_bytes, pseudo_tcp_fifo_get_buffered. lia.
  - cbn [mbind Res_bind]. destruct b; [by exists h1|by apply adjust_clock_inv].
Qed.

(** A buffer with a packet of the other end. *)
Definition rx_ok (peer : list byte) (buf : FlexBuffer) : Prop :=
  flex_wf buf /\ packet_ok (opening ++ peer) (flex_data buf).

Lemma data_u32_data buf : flex_wf buf -> fx_size buf < 2 ^ 32 -> data_u32 buf = flex_data buf.
Proof.
  intros Hwf Hs. unfold data_u32. pose proof (length_flex_data buf Hwf). destruct Hwf as (_ & ? & _).
  rewrite u32_small by lia. apply firstn_all2. lia.
Qed.

Lemma rx_inv sent peer buf h : handler_inv sent peer h -> rx_ok peer buf ->
  exists h', reliable_handler_on_rx_data buf h = Ok h' /\ handler_inv sent peer h'.
Proof.
  intros Hinv [Hwf Hok]. unfold reliable_handler_on_rx_data.
  pose proof (length_flex_data buf Hwf) as Hl. pose proof Hok as [[_ Hmax] _]. pose proof mss_max_fits.
  rewrite data_u32_data by (first [done|unfold zlen, HEADER_SIZE in *; lia]).
  destruct (engine_quiet (fun E s => pseudo_tcp_socket_notify_packet s (flex_data buf)) h sent peer (fun _ _ => True) Hinv)
    as (a & evs & h1 & -> & H1 & _).
  { intros E s _ Hend. destruct (notify_packet_spec _ _ _ _ _ Hend Hok) as (r & s' & Hs & H'). by exists r, s'. }
  cbn [mbind Res_bind].
  assert (exists h2, (if existsb is_readable evs then pseudo_tcp_socket_readable h1 else Ok h1) = Ok h2 /\
    handler_inv sent peer h2) as (h2 & -> & H2) by (destruct (existsb _ _); [by apply readable_inv|by exists h1]).
  cbn [mbind Res_bind]. destruct (hi_sock _ _ _ H2) as (sock & -> & _). cbn [deref mbind Res_bind].
  destruct (pseudo_tcp_socket_is_closed sock); [by exists h2|by apply adjust_clock_inv].
Qed.

Definition input_ok (peer : list byte) (i : handler_input) : Prop :=
  match i with InRx buf => rx_ok peer buf | InTimer => True end.

Lemma inputs_inv sent peer l h : handler_inv sent peer h -> Forall (input_ok peer) l ->
  exists h', handle_inputs l h = Ok h' /\ handler_inv sent peer h'.
Proof.
  induction l as [|i l IH] in h |- *; intros Hinv Hl; cbn [handle_inputs]; [by exists h|].
  apply Forall_cons in Hl as [Hi Hl].
  assert (exists h1, handle_input i h = Ok h1 /\ handler_inv sent peer h1) as (h1 & -> & H1).
  { destruct i as [buf|]; cbn [handle_input]; [by apply rx_inv|].
    destruct (timer_inv sent peer h Hinv) as (b & h1 & -> & H1). by exists h1. }
  cbn [mbind Res_bind]. by apply IH.
Qed.

(** ** Writing *)

(** The writer ends, or still sleeps when the sleeps are over; what it took out of the
    buffer is part of the stream. *)
Lemma write_loop_inv peer fuel : forall sent sleeps buf h,
  handler_inv sent peer h -> Forall (Forall (input_ok peer)) sleeps -> flex_wf buf ->
  OPENING + zlen sent + fx_size buf < STREAM_MAX ->
  (Z.to_nat (fx_size buf) + length sleeps < fuel)%nat ->
  exists rc buf' h' taken, write_loop fuel sleeps buf h = Ok (rc, buf', h') /\ flex_wf buf' /\
    flex_data buf = taken ++ flex_data buf' /\ handler_inv (sent ++ taken) peer h'.
Proof.
  induction fuel as [|fuel IH]; intros sent sleeps buf h Hinv Hsl Hwf Hmax Hfuel; [lia|]. cbn [write_loop].
  pose proof (length_flex_data buf Hwf) as Hlen. pose proof Hwf as (_ & Hsz & _).
  rewrite Z.gtb_ltb. destruct (Z.ltb_spec 0 (fx_size buf)) as [Hpos|?]; cbn [negb].
  2: { exists None, buf, h, []. by rewrite app_nil_r. }
  unfold STREAM_MAX, OPENING in Hmax. rewrite data_u32_data by (first [done|unfold zlen in *; lia]).
  destruct (engine_inv (fun E s => pseudo_tcp_socket_send s (flex_data buf)) h sent peer
    (fun n => take (Z.to_nat n) (flex_data buf)) (fun n _ => -1 <= n <= fx_size buf /\ n <> 0) Hinv)
    as (n & evs & h1 & -> & H1 & _ & _ & Hn & Hn0).
  { intros E s _ Hend. destruct (send_end _ _ _ _ (flex_data buf) Hend) as (n & s' & Hs & Hn & Hne & H').
    - rewrite zlen_opening. unfold zlen, STREAM_MAX, OPENING in *. lia.
    - exists n, s'. rewrite <- app_assoc in H'. unfold zlen in *. split; [done|]. split; [lia|done]. }
  cbn [mbind Res_bind]. destruct (adjust_clock_inv _ peer h1 H1) as (h2 & -> & H2). cbn [mbind Res_bind].
  destruct (Z.ltb_spec n 0) as [Hneg|Hge].
  - assert (n = -1) as -> by lia. cbn [Z.to_nat] in H2. rewrite take_0, app_nil_r in H2.
    destruct (hi_sock _ _ _ H2) as (sock & -> & _). cbn [deref mbind Res_bind].
    destruct (pseudo_tcp_socket_get_error sock =? EWOULDBLOCK); cbn [negb].
    + destruct sleeps as [|inputs sleeps]; [exists None, buf, h2, []; by rewrite app_nil_r|].
      apply Forall_cons in Hsl as [Hin Hsl].
      destruct (inputs_inv _ _ inputs h2 H2 Hin) as (h3 & -> & H3). cbn [mbind Res_bind].
      destruct (adjust_clock_inv _ _ h3 H3) as (h4 & -> & H4). cbn [mbind Res_bind].
      apply IH; try done. cbn in Hfuel. lia.
    + destruct (stop_inv _ _ (pseudo_tcp_socket_get_error sock) h2 H2) as (h3 & -> & H3). cbn [mbind Res_bind].
      do 2 eexists. exists h3, []. split; [reflexivity|]. by rewrite app_nil_r.
  - destruct (flex_wf_at buf Hwf) as (pre & post & E & Hsm). set (k := Z.to_nat n) in *.
    revert E Hsm Hlen IH Hmax Hfuel Hsz Hpos Hn H2. generalize (flex_data buf). intros d -> Hsm Hlen IH Hmax Hfuel Hsz Hpos Hn H2.
    change (fx_size (flex_at pre d post)) with (Z.of_nat (length d)) in *.
    rewrite <- (take_drop k d) in Hsm. pose proof (flex_at_forward _ _ _ _ Hsm) as Hf.
    assert (Z.of_nat (length (take k d)) = n) as Ek by (rewrite length_take; lia).
    rewrite Ek, take_drop in Hf. rewrite Hf. cbn [mbind Res_bind].
    assert (flex_wf (flex_at (pre ++ take k d) (drop k d) post)) as Hwf2.
    { apply flex_at_wf. unfold fx_small in *. by rewrite <- !app_assoc in *. }
    destruct (IH (sent ++ take k d) sleeps _ h2 H2 Hsl Hwf2) as (rc & buf' & h3 & taken & -> & Hwf' & Ed & H3).
    + unfold zlen, STREAM_MAX, OPENING in *. rewrite length_app. cbn [flex_at fx_size]. rewrite length_drop. lia.
    + cbn [flex_at fx_size]. rewrite length_drop. lia.
    + exists rc, buf', h3, (take k d ++ taken). split; [done|]. split; [done|].
      rewrite flex_at_data in Ed. split; [by rewrite <- app_assoc, <- Ed, take_drop|]. by rewrite app_assoc.
Qed.

Lemma write_inv sent peer sleeps buf h :
  handler_inv sent peer h -> Forall (Forall (input_ok peer)) sleeps -> flex_wf buf ->
  OPENING + zlen sent + fx_size buf < STREAM_MAX ->
  exists rc buf' h' taken, reliable_handler_write sleeps buf h = Ok (rc, buf', h') /\ flex_wf buf' /\
    flex_data buf = taken ++ flex_data buf' /\ handler_inv (sent ++ taken) peer h'.
Proof.
  intros Hinv Hsl Hwf Hmax. unfold reliable_handler_write. destruct (hi_sock _ _ _ Hinv) as (sock & -> & _).
  cbn [deref mbind Res_bind]. destruct (negb _).
  { do 2 eexists. exists h, []. split; [reflexivity|]. by rewrite app_nil_r. }
  destruct (write_loop_inv peer (write_fuel sleeps buf) sent sleeps buf h Hinv Hsl Hwf Hmax)
    as (rc & buf' & h' & taken & -> & H'); [unfold write_fuel; lia|].
  cbn [mbind Res_bind]. do 2 eexists. exists h', taken. by split; [reflexivity|].
Qed.

(** ** Two handlers *)

(** A handler and what was taken from its writers. *)
Record link_end := { le_handler : ReliableHandler next; le_wrote : list byte }.

Inductive link_op :=
| LinkWrite (sleeps : list (list handler_input)) (buf : FlexBuffer)
| LinkResume (sleeps : list (list handler_input)) (buf : FlexBuffer)   (* a writer that slept goes on *)
| LinkInput (i : handler_input)
| LinkState (state : Z)                                                 (* reported from below *)
| LinkStop (error : Z).

(** What was taken out of a buffer. *)
Definition taken_from (buf buf' : FlexBuffer) : list byte :=
  take (length (flex_data buf) - length (flex_data buf')) (flex_data buf).

Definition link_do (op : link_op) (e : link_end) : Res link_end :=
  let h := le_handler e in
  match op with
  | LinkWrite sleeps buf =>
      '(_, buf', h) ← reliable_handler_write sleeps buf h;
      Ok {| le_handler := h; le_wrote := le_wrote e ++ taken_from buf buf' |}
  | LinkResume sleeps buf =>
      '(_, buf', h) ← write_loop (write_fuel sleeps buf) sleeps buf h;
      Ok {| le_handler := h; le_wrote := le_wrote e ++ taken_from buf buf' |}
  | LinkInput i => h ← handle_input i h; Ok {| le_handler := h; le_wrote := le_wrote e |}
  | LinkState state => h ← reliable_handler_on_state_changed state h; Ok {| le_handler := h; le_wrote := le_wrote e |}
  | LinkStop error => h ← reliable_handler_stop error h; Ok {| le_handler := h; le_wrote := le_wrote e |}
  end.

Definition link_step (st : side * link_op) (p : link_end * link_end) : Res (link_end * link_end) :=
  match st.1 with
  | SideA => a ← link_do st.2 p.1; Ok (a, p.2)
  | SideB => b ← link_do st.2 p.2; Ok (p.1, b)
  end.

Fixpoint link_run (steps : list (side * link_op)) (p : link_end * link_end) : Res (link_end * link_end) :=
  match steps with
  | [] => Ok p
  | st :: steps => p ← link_step st p; link_run steps p
  end.

(** The network may deliver whatever the other end gave to its lower layers. *)
Definition input_from (other : link_end) (i : handler_input) : Prop :=
  match i with
  | InRx buf => flex_wf buf /\ flex_data buf ∈ next_sent (rh_next (le_handler other))
  | InTimer => True
  end.

Definition link_possible (op : link_op) (e other : link_end) : Prop :=
  match op with
  | LinkWrite sleeps buf | LinkResume sleeps buf =>
      Forall (Forall (input_from other)) sleeps /\ flex_wf buf /\
      OPENING + zlen (le_wrote e) + fx_size buf < STREAM_MAX
  | LinkInput i => input_from other i
  | _ => True
  end.

Definition link_step_possible (st : side * link_op) (p : link_end * link_end) : Prop :=
  match st.1 with SideA => link_possible st.2 p.1 p.2 | SideB => link_possible st.2 p.2 p.1 end.

Fixpoint link_run_possible (steps : list (side * link_op)) (p : link_end * link_end) : Prop :=
  match steps with
  | [] => True
  | st :: steps => link_step_possible st p /\
      match link_step st p with Ok p => link_run_possible steps p | Fault _ => True end
  end.

(** After the handshake: nothing was read, and only pieces of the openings were sent. *)
Record joined h : Prop := {
  jn_sock : exists sock, rh_sock h = Some sock /\ PseudoTcpPair.connected sock;
  jn_read : pieces h = [];
  jn_next : sent_ok opening h
}.

Definition begin_link h : link_end := {| le_handler := h; le_wrote := [] |}.

Definition link_end_inv (e other : link_end) : Prop :=
  handler_inv (le_wrote e) (le_wrote other) (le_handler e) /\ OPENING + zlen (le_wrote e) < STREAM_MAX.

Lemma taken_app buf buf' taken : flex_data buf = taken ++ flex_data buf' -> taken_from buf buf' = taken.
Proof. intros E. unfold taken_from. rewrite E, length_app. apply take_app_length'. lia. Qed.

Lemma input_from_ok other i : sent_ok (opening ++ le_wrote other) (le_handler other) ->
  input_from other i -> input_ok (le_wrote other) i.
Proof.
  intros Hs. destruct i as [buf|]; [|done]. intros [Hwf Hin]. split; [done|].
  unfold sent_ok in Hs. rewrite Forall_forall in Hs. by apply Hs.
Qed.

Lemma inputs_from_ok other l : sent_ok (opening ++ le_wrote other) (le_handler other) ->
  Forall (Forall (input_from other)) l -> Forall (Forall (input_ok (le_wrote other))) l.
Proof.
  intros Hs Hl. eapply Forall_impl; [exact Hl|]. intros x Hx. eapply Forall_impl; [exact Hx|].
  intros i. by apply input_from_ok.
Qed.

Lemma link_do_spec op e other : link_end_inv e other -> link_end_inv other e -> link_possible op e other ->
  exists e' more, link_do op e = Ok e' /\ le_wrote e' = le_wrote e ++ more /\ link_end_inv e' other.
Proof.
  intros [Hinv Hsize] [Hother _] Hop. pose proof (hi_next _ _ _ Hother) as Hs.
  assert (forall h, handler_inv (le_wrote e) (le_wrote other) h ->
    exists e' more, Ok {| le_handler := h; le_wrote := le_wrote e |} = Ok e' /\ le_wrote e' = le_wrote e ++ more /\
      link_end_inv e' other) as Hsame.
  { intros h Hh. eexists _, []. by rewrite app_nil_r. }
  assert (forall rc buf buf' h taken (m : Res (option Z * FlexBuffer * ReliableHandler next)), flex_wf buf ->
    OPENING + zlen (le_wrote e) + fx_size buf < STREAM_MAX ->
    m = Ok (rc, buf', h) -> flex_wf buf' -> flex_data buf = taken ++ flex_data buf' ->
    handler_inv (le_wrote e ++ taken) (le_wrote other) h ->
    exists e' more, ('(_, buf', h) ← m; Ok {| le_handler := h; le_wrote := le_wrote e ++ taken_from buf buf' |}) = Ok e' /\
      le_wrote e' = le_wrote e ++ more /\ link_end_inv e' other) as Hwrite.
  { intros rc buf buf' h taken m Hwf Hmax -> Hwf' E Hh. cbn [mbind Res_bind]. rewrite (taken_app _ _ _ E).
    eexists _, taken. split; [reflexivity|]. split; [done|]. split; [done|]. cbn.
    rewrite zlen_app. pose proof (length_flex_data buf Hwf) as Hl. rewrite E, length_app in Hl. unfold zlen in *. lia. }
  destruct op as [sleeps buf|sleeps buf|i|state|error]; cbn [link_do link_possible] in *.
  - destruct Hop as (Hsl & Hwf & Hmax).
    destruct (write_inv _ _ sleeps buf _ Hinv (inputs_from_ok _ _ Hs Hsl) Hwf Hmax) as (rc & buf' & h' & taken & E & Hwf' & Ed & H').
    by eapply Hwrite.
  - destruct Hop as (Hsl & Hwf & Hmax).
    destruct (write_loop_inv (le_wrote other) (write_fuel sleeps buf) _ sleeps buf _ Hinv (inputs_from_ok _ _ Hs Hsl) Hwf Hmax)
      as (rc & buf' & h' & taken & E & Hwf' & Ed & H'); [unfold write_fuel; lia|]. by eapply Hwrite.
  - destruct (inputs_inv _ _ [i] _ Hinv) as (h' & Hrun & H'); [by apply Forall_singleton, input_from_ok|].
    cbn [handle_inputs] in Hrun. destruct (handle_input i (le_handler e)) as [h1|]; [|done].
    cbn [mbind Res_bind] in *. injection Hrun as ->. by apply Hsame.
  - destruct (state_changed_inv _ _ state _ Hinv) as (h' & -> & H'). by apply Hsame.
  - destruct (stop_inv _ _ error _ Hinv) as (h' & -> & H'). by apply Hsame.
Qed.

(** The other end of one that wrote more. *)
Lemma link_end_other e other e' more : link_end_inv other e -> le_wrote e' = le_wrote e ++ more ->
  OPENING + zlen (le_wrote e') < STREAM_MAX -> link_end_inv other e'.
Proof.
  intros [[(sock & Hsock & Hend) Hr Hp Hn] Hsize] E Hmax. split; [|done]. rewrite E in *. split; [|by apply prefix_app_r|done|done].
  exists sock. split; [done|]. rewrite app_assoc. apply end_peer_app; [done|]. by rewrite <- app_assoc, zlen_opening.
Qed.

Lemma link_run_spec steps : forall p, link_end_inv p.1 p.2 -> link_end_inv p.2 p.1 -> link_run_possible steps p ->
  exists p', link_run steps p = Ok p' /\ link_end_inv p'.1 p'.2 /\ link_end_inv p'.2 p'.1.
Proof.
  induction steps as [|[who op] steps IH]; intros [a b] Ha Hb Hposs; [by exists (a, b)|].
  cbn [link_run link_run_possible] in *. unfold link_step, link_step_possible in Hposs |- *. cbn [fst snd] in *.
  destruct Hposs as [Hop Hrest]. destruct who.
  - destruct (link_do_spec op a b Ha Hb Hop) as (a' & more & E & Ew & Ha'). rewrite E in *. cbn [mbind Res_bind] in *.
    apply IH; [done| |done]. eapply link_end_other; [exact Hb|exact Ew|apply Ha'].
  - destruct (link_do_spec op b a Hb Ha Hop) as (b' & more & E & Ew & Hb'). rewrite E in *. cbn [mbind Res_bind] in *.
    apply IH; [|done|done]. eapply link_end_other; [exact Ha|exact Ew|apply Hb'].
Qed.

Lemma joined_inv h : joined h -> handler_inv [] [] h.
Proof.
  intros [(sock & Hsock & Hc) Hp Hn]. assert (received h = []) as Er by (unfold received; by rewrite Hp).
  split; rewrite ?Er, ?Hp, ?app_nil_r; [|done..]. exists sock. split; [done|]. by apply connected_end_inv.
Qed.
End Props.

(** ** With the multiplexer above *)

Section Packets.
Context `{MB : !MssBound, St : !Stack, Malloc0 : !Malloc, MC : !MonotonicClock} {next tr : Type}.
Context `{!Next next, !Lower next tr, !NextLaws next, !BelowLaws next tr}.
Context `{!HashTables} {L : HashTablesLaws _} `{!ChannelApp} {above heap : Type} `{!Next above, !IdsHeap heap}.

(** What came up of a stream of packets is handled as its first packets, whole and in
    order. *)
Lemma first_packets now frames rest bufs d (w : MultiplexHandler above heap) :
  ready w -> Forall is_frame frames -> unfinished rest ->
  Forall flex_wf bufs -> Forall (fun d => d <> []) (flex_data <$> bufs) ->
  concat (flex_data <$> bufs) ++ d = concat frames ++ rest ->
  exists k r, concat (flex_data <$> bufs) = concat (take k frames) ++ r /\ unfinished r /\
    on_pieces now bufs w = (w' ← deliver_all now (take k frames) w; Ok (hold r w')).
Proof.
  intros Hw Hfs Hrest Hwf Hne E.
  destruct (cut_frames frames _ d rest Hfs Hrest E) as (fs1 & fs2 & r & -> & Er & _ & Hs & Hu).
  exists (length fs1), r. rewrite take_app_length. split; [done|]. split; [done|].
  apply Forall_app in Hfs as [Hfs1 _]. rewrite <- (hold_nil w Hw) at 1. apply pieces_from; try done.
  - rewrite Forall_fmap in Hne. apply Forall_and. by split.
  - destruct fs1 as [|f ?]; [done|]. apply Forall_cons in Hfs1 as [[Hf _] _]. cbn. lia.
Qed.

(** C6. Reliable streams: two handlers after their handshake, whatever is written to them
    and in what sizes, however long the writers sleep, whatever the network does with the
    packets of their lower layers, however the timers run and whenever one is stopped: no
    operation faults and no loop runs on; what a handler gave to the layer above is at
    every moment the beginning of what was written at the other end; and when packets of
    a multiplexer were written there, the multiplexer above it handles the first of them,
    each whole, once and in order, and keeps the beginning of the next. *)
Theorem reliable_packets (a b : ReliableHandler next) steps :
  HEADER_SIZE + mss_max <= next_max -> joined a -> joined b ->
  link_run_possible steps (begin_link a, begin_link b) ->
  exists a' b', link_run steps (begin_link a, begin_link b) = Ok (a', b') /\
    received (le_handler a') `prefix_of` le_wrote b' /\ received (le_handler b') `prefix_of` le_wrote a' /\
    forall now frames rest bufs (w : MultiplexHandler above heap), ready w ->
      Forall is_frame frames -> unfinished rest -> le_wrote a' = concat frames ++ rest ->
      Forall flex_wf bufs -> flex_data <$> bufs = pieces (le_handler b') ->
      exists k r, received (le_handler b') = concat (take k frames) ++ r /\ unfinished r /\
        on_pieces now bufs w = (w' ← deliver_all now (take k frames) w; Ok (hold r w')).
Proof.
  intros Hfits Ha Hb Hrun.
  assert (forall h, joined h -> handler_inv [] [] h /\ OPENING + zlen (@nil byte) < STREAM_MAX) as Hj
    by (intros h Hh; split; [by apply joined_inv|done]).
  destruct (link_run_spec Hfits steps (begin_link a, begin_link b)) as ([a' b'] & -> & [Ha' _] & [Hb' _]);
    [by apply Hj|by apply Hj|done|].
  cbn [fst snd] in *. exists a', b'. split; [done|]. split; [apply Ha'|]. split; [apply Hb'|].
  intros now frames rest bufs w Hw Hfs Hrest E Hwf Ebufs. destruct (hi_read _ _ _ Hb') as [d Ed].
  pose proof (hi_pieces _ _ _ Hb') as Hne. unfold received in *. rewrite <- Ebufs in Hne, Ed |- *.
  eapply (first_packets now frames rest bufs d); try done. by rewrite <- E.
Qed.
End Packets.
