(* ===== verification/ReliableSample.v ===== *)
(** * Two concrete reliable handlers

    Handlers over an encrypted transport, joined by a network that drops, repeats and
    reorders; the theorem on reliable streams evaluated on them.  Nothing of the code is
    modelled here. *)

From S2P Require Import Prelude ElaError Sample FlexBuffer Multiplex MultiplexProps MultiplexStream CryptoHandler MuxSample.
From S2P Require Import Fifo SeqArith PseudoTcp PseudoTcpProps PseudoTcpRecv PseudoTcpSend PseudoTcpEnd PseudoTcpPair.
From S2P Require Import Session IceStream IceStreamProps LinkSample Sdp SessionSample ReliableHandler ReliableProps.

(** ** Below the handlers *)

#[export] Instance cand_ice_laws : IceLaws wire_strans pj_ice_sess_cand.
Proof.
  refine {| strans_sent := ws_sent |}.
  - intros x p status x' [= <- <-]. split; [done|]. by left.
  - done.
Defined.

#[export] Instance below_next : NextLaws below.
Proof. apply crypto_laws; by vm_compute. Defined.

#[export] Instance below_quiet : BelowLaws below IceSession.
Proof.
  split; [done|]. intros n error. cbn. unfold default_handler_stop. cbn. f_equal. unfold ice_handler_stop.
  destruct (is_stopping (cr_next n)); [done|]. destruct (_ && _); cbn;
    (destruct (ws_sess _); [|]; cbn; rewrite ?omap_app, ?app_nil_r; done).
Defined.

(** A clock that goes on by 200 ms with every look at it. *)
#[export] Instance hand_clock : MonotonicClock := fun n => 1000000 + 200000 * Z.of_nat n.
#[export] Existing Instance sample_malloc.

(** A handler that was prepared, with smaller buffers, over a transport that is
    connecting. *)
Definition keyed_ice : below :=
  {| cr_key := session_key; cr_nonce := session_nonce;
     cr_next := { new_ice with is_state := ElaStreamState_connecting;
                               is_st := {| ws_sess := true; ws_sent := [] |} } |}.

Definition sample_handler : Type := ReliableHandler below.
Definition fresh_handler : sample_handler :=
  {| rh_sock := Some small_socket; rh_sock_closed := false; rh_last_clock_timeout := 0; rh_clock := None;
     rh_next := keyed_ice; rh_up := [] |}.

Definition rx (bytes : list byte) : handler_input := InRx (flex_at [] bytes []).
Definition gave (h : sample_handler) : list (list byte) := next_sent (rh_next h).

(** The handshake: both transports connect, the packets are exchanged, the timers go off. *)
Definition handshake_run : Res (sample_handler * sample_handler) :=
  a ← reliable_handler_on_state_changed (tr := IceSession) ElaStreamState_connected fresh_handler;
  b ← reliable_handler_on_state_changed (tr := IceSession) ElaStreamState_connected fresh_handler;
  b' ← handle_inputs (tr := IceSession) (rx <$> gave a) b;
  a' ← handle_inputs (tr := IceSession) (rx <$> gave b) a;
  a ← handle_inputs (tr := IceSession) [InTimer] a';
  b ← handle_inputs (tr := IceSession) [InTimer] b';
  b' ← handle_inputs (tr := IceSession) (rx <$> gave a) b;
  a' ← handle_inputs (tr := IceSession) (rx <$> gave b) a;
  Ok (a', b').

Definition joined_a : sample_handler := Eval vm_compute in match handshake_run with Ok p => p.1 | Fault _ => fresh_handler end.
Definition joined_b : sample_handler := Eval vm_compute in match handshake_run with Ok p => p.2 | Fault _ => fresh_handler end.

Example handshake_joins :
  rh_state (tr := IceSession) joined_a = ElaStreamState_connected /\ rh_up joined_a = [UpState ElaStreamState_connected].
Proof. vm_compute. done. Qed.

(** ** A run *)

#[export] Instance flex_wf_dec b : Decision (flex_wf b).
Proof. unfold flex_wf. apply _. Defined.

#[export] Instance input_from_dec (other : @link_end below) i : Decision (input_from other i).
Proof. destruct i; cbn; apply _. Defined.

#[export] Instance link_possible_dec op (e other : @link_end below) : Decision (link_possible op e other).
Proof. destruct op; cbn; apply _. Defined.

Fixpoint possible_run (steps : list (side * link_op)) (p : @link_end below * @link_end below) : bool :=
  match steps with
  | [] => true
  | st :: steps =>
      match st.1 with
      | SideA => bool_decide (link_possible st.2 p.1 p.2)
      | SideB => bool_decide (link_possible st.2 p.2 p.1)
      end &&
      match link_step (tr := IceSession) st p with Ok p => possible_run steps p | Fault _ => true end
  end.

Lemma possible_run_sound steps p : possible_run steps p = true -> link_run_possible (tr := IceSession) steps p.
Proof.
  induction steps as [|st steps IH] in p |- *; [done|]. cbn [possible_run link_run_possible].
  intros [H1 H2]%andb_true_iff. split.
  - unfold link_step_possible. destruct st.1; by apply bool_decide_eq_true_1 in H1.
  - destruct (link_step st p); [by apply IH|done].
Qed.

Definition frame_buf (k : nat) : FlexBuffer := flex_buffer_from FLEX_PADDING_LEN (default [] (two_frames !! k)).
Definition joined_pair : @link_end below * @link_end below := (begin_link joined_a, begin_link joined_b).

(** What an end gave to its transport after some steps, the last first. *)
Definition newest_packet (steps : list (side * link_op)) (who : side) (k : nat) : list byte :=
  match link_run (tr := IceSession) steps joined_pair with
  | Ok (a, b) => default [] (reverse (gave (le_handler (match who with SideA => a | SideB => b end))) !! k)
  | Fault _ => []
  end.

(** Two packets of a multiplexer are written, by a writer that sleeps while its timer goes
    off; the first segment is lost and comes twice when it was sent again; its
    acknowledgement lets the rest go. *)
Definition steps_1 : list (side * link_op) :=
  [(SideA, LinkWrite [] (frame_buf 0)); (SideA, LinkWrite [[InTimer]] (frame_buf 1));
   (SideA, LinkInput InTimer); (SideA, LinkInput InTimer); (SideA, LinkInput InTimer)].
Definition segment_1 : list byte := Eval vm_compute in newest_packet steps_1 SideA 0.
Definition steps_2 : list (side * link_op) :=
  steps_1 ++ [(SideB, LinkInput (rx segment_1)); (SideB, LinkInput (rx segment_1)); (SideB, LinkInput InTimer)].
Definition answer_1 : list byte := Eval vm_compute in newest_packet steps_2 SideB 0.
Definition steps_3 : list (side * link_op) :=
  steps_2 ++ [(SideA, LinkInput (rx answer_1)); (SideA, LinkInput InTimer); (SideA, LinkInput InTimer)].
Definition segment_2 : list byte := Eval vm_compute in newest_packet steps_3 SideA 0.
Definition sample_steps : list (side * link_op) :=
  steps_3 ++ [(SideB, LinkInput (rx segment_2)); (SideB, LinkInput (rx segment_1)); (SideA, LinkStop 0);
              (SideB, LinkWrite [] (frame_buf 0))].

Example sample_received :
  match link_run (tr := IceSession) sample_steps joined_pair with
  | Ok (a, b) => Some (pieces (le_handler b), le_wrote a, pieces (le_handler a), le_wrote b)
  | Fault _ => None
  end = Some (two_frames, concat two_frames, [], default [] (two_frames !! 0%nat)).
Proof. vm_compute. reflexivity. Qed.

Definition sock_a : PseudoTcpSocket := Eval vm_compute in default small_socket (rh_sock joined_a).
Definition sock_b : PseudoTcpSocket := Eval vm_compute in default small_socket (rh_sock joined_b).

Lemma sock_a_connected : PseudoTcpPair.connected sock_a.
Proof. concrete_connected. unfold sock_a. cbn [trace]. repeat (apply Forall_cons_2; [concrete_piece|]). apply Forall_nil_2. Qed.

Lemma sock_b_connected : PseudoTcpPair.connected sock_b.
Proof. concrete_connected. unfold sock_b. cbn [trace]. repeat (apply Forall_cons_2; [concrete_piece|]). apply Forall_nil_2. Qed.

(** What the transport was given is what the socket sent. *)
Lemma joined_of (h : sample_handler) sock :
  rh_sock h = Some sock -> PseudoTcpPair.connected sock -> pieces h = [] -> gave h = sent sock -> joined h.
Proof.
  intros Hs Hc Hp Hg. split; [by exists sock|done|]. unfold sent_ok. change (next_sent (rh_next h)) with (gave h).
  rewrite Hg. unfold sent. apply Forall_rev, Forall_forall. intros p Hin0.
  apply list_elem_of_omap in Hin0 as ([bytes w| | | |] & Hin & [= <-]).
  pose proof (cn_trace _ Hc) as Ht. rewrite Forall_forall in Ht. exact (Ht _ Hin).
Qed.

Lemma joined_a_joined : joined joined_a.
Proof. eapply joined_of; [vm_compute; reflexivity|exact sock_a_connected|vm_compute; reflexivity..]. Qed.

Lemma joined_b_joined : joined joined_b.
Proof. eapply joined_of; [vm_compute; reflexivity|exact sock_b_connected|vm_compute; reflexivity..]. Qed.

Lemma sample_steps_possible : link_run_possible (tr := IceSession) sample_steps joined_pair.
Proof. apply possible_run_sound. vm_compute. reflexivity. Qed.

Definition frame_bufs : list FlexBuffer := (fun d => flex_at [] d []) <$> two_frames.

Lemma reliable_packets_witness :
  joined joined_a /\ joined joined_b /\ link_run_possible (tr := IceSession) sample_steps joined_pair /\
  exists a' b', link_run (tr := IceSession) sample_steps joined_pair = Ok (a', b') /\
    received (le_handler b') `prefix_of` le_wrote a' /\
    exists k r, received (le_handler b') = concat (take k two_frames) ++ r /\
      on_pieces (at_sec 10) frame_bufs (fresh_mux true) =
        (w' ← deliver_all (at_sec 10) (take k two_frames) (fresh_mux true); Ok (hold r w')).
Proof.
  split; [exact joined_a_joined|]. split; [exact joined_b_joined|]. split; [exact sample_steps_possible|].
  destruct (reliable_packets (tr := IceSession) (above := list (list byte)) (heap := gset Z) joined_a joined_b sample_steps)
    as (a' & b' & Hrun & _ & Hb & Hpackets);
    [by vm_compute|exact joined_a_joined|exact joined_b_joined|exact sample_steps_possible|].
  pose proof sample_received as E. unfold joined_pair in *. rewrite Hrun in E. injection E as Eb Ea _ _.
  exists a', b'. split; [exact Hrun|]. split; [exact Hb|].
  destruct (Hpackets (at_sec 10) two_frames [] frame_bufs (fresh_mux true)) as (k & r & Ek & _ & Er).
  - split; [done|]. by split; vm_compute.
  - repeat constructor; by vm_compute.
  - by left.
  - by rewrite app_nil_r.
  - repeat constructor; by vm_compute.
  - rewrite Eb. vm_compute. reflexivity.
  - exists k, r. split; [exact Ek|exact Er].
Defined.

(** ** What the handler makes of failures *)

(** A transport that is busy: the segment is not dropped, as a comment in the code means it
    to be, but the stream is closed, and the writer is told that everything was written. *)
Example busy_transport_closes :
  (let busy : Next below := {| next_write n b := Ok (ELA_GENERAL_ERROR ELAERR_BUSY, b, n);
                               next_start := next_start; next_stop := next_stop |} in
   '(rc, _, h) ← reliable_handler_write (Next0 := busy) (tr := IceSession) [] (frame_buf 0) joined_a;
   Ok (rc, state <$> rh_sock h, rh_up h)) =
  Ok (Some 8, Some TCP_CLOSED, [UpState ElaStreamState_closed; UpState ElaStreamState_connected]).
Proof. vm_compute. reflexivity. Qed.

(** A stream that is stopped because of an error is reported as closed, not as failed: the
    socket, closed first, stops the layers below without the error. *)
Example failure_reported_as_close :
  (h ← reliable_handler_stop (tr := IceSession) 5 joined_a; Ok (rh_up h)) =
  Ok [UpState ElaStreamState_closed; UpState ElaStreamState_connected].
Proof. vm_compute. reflexivity. Qed.

(** The machine runs for fifty days: the time of the socket has wrapped, that of the handler
    has not, and the timer is set to 24 days from now. *)
Example old_clock_stops_timer :
  (let late : MonotonicClock := fun n => (2 ^ 32 + 1000) * 1000 in
   h ← reliable_handler_on_state_changed (MC := late) (tr := IceSession) ElaStreamState_connected fresh_handler;
   Ok (rh_clock h)) = Ok (Some (TimerEvery INT_MAX)).
Proof. vm_compute. reflexivity. Qed.

(** The socket a handler is prepared with. *)
Example prepared_socket :
  ('(rc, h) ← reliable_handler_prepare (tr := IceSession) some_session
      (reliable_handler_create {| cr_key := session_key; cr_nonce := session_nonce;
         cr_next := { new_ice with is_state := ElaStreamState_initialized } |});
   Ok (rc, (fun s => (state s, conv s, mtu_advise s, mss s)) <$> rh_sock h)) =
  Ok (0, Some (TCP_LISTEN, 1, DEFAULT_TCP_MTU, 180)).
Proof. vm_compute. reflexivity. Qed.
