(* ===== verification/ToxDht.v ===== *)
(** * The adapter of toxcore (src/carrier/dht/dht.c)

    The functions of toxcore the adapter calls are an interface, [Tox]: each gives
    its value and its error, and the new state where it changes one; the getters
    that fill a buffer give the bytes they write.  The adapter's own functions
    follow, with their assertions, and the events of toxcore with the filters that
    stand before the node's notifications. *)

From Stdlib Require Import Ascii.
From S2P Require Import Prelude ElaError ToxErrors Carrier CText.

(** ** toxcore *)

Inductive TOX_CONNECTION :=
| TOX_CONNECTION_NONE | TOX_CONNECTION_TCP | TOX_CONNECTION_UDP | TOX_CONNECTION_other (code : Z).

Inductive TOX_MESSAGE_TYPE := TOX_MESSAGE_TYPE_NORMAL | TOX_MESSAGE_TYPE_ACTION.

Inductive TOX_CONFERENCE_TYPE := TOX_CONFERENCE_TYPE_TEXT | TOX_CONFERENCE_TYPE_AV.

(** The options the adapter sets; the others keep toxcore's defaults. *)
Record Tox_Options := {
  local_discovery_enabled : bool; ipv6_enabled : bool; opt_udp_enabled : bool;
  savedata_data : option (list byte)
}.

(** [bool] results are true on success; an error comes with every call that has one. *)
Class Tox (tox : Type) := {
  TOX_MAX_STATUS_MESSAGE_LENGTH : Z;
  tox_new : Tox_Options -> option tox * TOX_ERR_NEW;
  tox_bootstrap : tox -> string -> Z -> list byte -> bool * TOX_ERR_BOOTSTRAP * tox;
  tox_add_tcp_relay : tox -> string -> Z -> list byte -> bool * TOX_ERR_BOOTSTRAP * tox;
  tox_get_savedata : tox -> list byte;
  tox_iteration_interval : tox -> Z;
  (* the user *)
  tox_self_set_nospam : tox -> Z -> tox;
  tox_self_get_nospam : tox -> Z;
  tox_self_get_secret_key : tox -> list byte;
  tox_self_set_status : tox -> Z -> tox;
  tox_self_get_status : tox -> Z;
  tox_self_get_address : tox -> list byte;
  tox_self_get_public_key : tox -> list byte;
  tox_self_get_status_message : tox -> list byte;
  tox_self_set_status_message : tox -> list byte -> bool * TOX_ERR_SET_INFO * tox;
  tox_self_get_name : tox -> list byte;
  tox_self_set_name : tox -> list byte -> bool * TOX_ERR_SET_INFO * tox;
  tox_self_get_random_tcp_relay : tox -> Z * list byte * list byte;
  (* friends *)
  tox_self_get_friend_list : tox -> list Z;
  tox_friend_get_status_message : tox -> Z -> bool * list byte * TOX_ERR_FRIEND_QUERY;
  tox_friend_get_status_message_size : tox -> Z -> Z * TOX_ERR_FRIEND_QUERY;
  tox_friend_get_status : tox -> Z -> Z * TOX_ERR_FRIEND_QUERY;
  tox_friend_get_public_key : tox -> Z -> bool * list byte * TOX_ERR_FRIEND_GET_PUBLIC_KEY;
  tox_friend_by_public_key : tox -> list byte -> Z * TOX_ERR_FRIEND_BY_PUBLIC_KEY;
  tox_friend_add : tox -> list byte -> list byte -> Z * TOX_ERR_FRIEND_ADD * tox;
  tox_friend_add_norequest : tox -> list byte -> Z * TOX_ERR_FRIEND_ADD * tox;
  tox_friend_send_message : tox -> Z -> TOX_MESSAGE_TYPE -> list byte -> TOX_ERR_FRIEND_SEND_MESSAGE * tox;
  tox_friend_delete : tox -> Z -> TOX_ERR_FRIEND_DELETE * tox;
  (* conferences *)
  tox_conference_get_id : tox -> Z -> bool * list byte;
  tox_conference_by_id : tox -> list byte -> Z * TOX_ERR_CONFERENCE_BY_ID;
  tox_conference_new : tox -> Z * TOX_ERR_CONFERENCE_NEW * tox;
  tox_conference_delete : tox -> Z -> bool * TOX_ERR_CONFERENCE_DELETE * tox;
  tox_conference_invite : tox -> Z -> Z -> TOX_ERR_CONFERENCE_INVITE * tox;
  tox_conference_join : tox -> Z -> list byte -> Z * TOX_ERR_CONFERENCE_JOIN * tox;
  tox_conference_send_message : tox -> Z -> TOX_MESSAGE_TYPE -> list byte -> TOX_ERR_CONFERENCE_SEND_MESSAGE * tox;
  tox_conference_get_title_size : tox -> Z -> Z * TOX_ERR_CONFERENCE_TITLE;
  tox_conference_get_title : tox -> Z -> list byte * TOX_ERR_CONFERENCE_TITLE;
  tox_conference_set_title : tox -> Z -> list byte -> TOX_ERR_CONFERENCE_TITLE * tox;
  tox_conference_peer_count : tox -> Z -> Z * TOX_ERR_CONFERENCE_PEER_QUERY;
  tox_conference_peer_get_name_size : tox -> Z -> Z -> Z * TOX_ERR_CONFERENCE_PEER_QUERY;
  tox_conference_peer_get_name : tox -> Z -> Z -> list byte * TOX_ERR_CONFERENCE_PEER_QUERY;
  tox_conference_peer_get_public_key : tox -> Z -> Z -> list byte * TOX_ERR_CONFERENCE_PEER_QUERY;
  tox_conference_get_chatlist : tox -> list Z
}.

Section Adapter.
Context {tox : Type} `{!Tox tox}.
Implicit Types t : tox.

(** Bytes written to a buffer of [cap] bytes. *)
Definition written (cap : Z) (bs : list byte) : Res (list byte) :=
  if Z.of_nat (length bs) <=? cap then Ok bs else Fault BufferOverflow.

(** A length returned as an [int]. *)
Definition as_int (n : Z) : Z := i32 n.

(** ** Start, bootstrap, the data to save *)

Definition dht_new (savedata : list byte) (udp_enabled : bool) : Z * option tox :=
  let options := {| local_discovery_enabled := true; ipv6_enabled := false;
                    opt_udp_enabled := udp_enabled;
                    savedata_data := match savedata with [] => None | _ => Some savedata end |} in
  match tox_new options with
  | (Some t, _) => (0, Some t)
  | (None, error) => (__dht_new_error error, None)
  end.

(** One address, unless it is empty: bootstrap to it, and use it as a relay.  A
    failure gives what the function returns at once. *)
Definition bootstrap_host t (host : string) (port : Z) (address : list byte) : option Z * tox :=
  if str_eqb host "" then (None, t)
  else
    let '(rc, error, t) := tox_bootstrap t host (u16 port) address in
    if negb rc then (Some (__dht_bootstrap_error error), t)
    else
      let '(rc, error, t) := tox_add_tcp_relay t host (u16 port) address in
      if negb rc then (Some (__dht_bootstrap_error error), t) else (None, t).

Definition _dht_bootstrap t (ipv4 ipv6 : string) (port : Z) (address : list byte) : Res (Z * tox) :=
  c_assert (negb (str_eqb ipv4 "") || negb (str_eqb ipv6 ""));;
  c_assert (port >? 0);;
  match bootstrap_host t ipv4 port address with
  | (Some rc, t) => Ok (rc, t)
  | (None, t) =>
      let '(rc, t) := bootstrap_host t ipv6 port address in
      Ok (default 0 rc, t)
  end.

Definition dht_get_savedata t : list byte := tox_get_savedata t.
Definition dht_get_savedata_size t : Z := Z.of_nat (length (tox_get_savedata t)).
Definition dht_iteration_idle t : Z := as_int (tox_iteration_interval t).

(** ** The user *)

Definition dht_self_set_nospam t (nospam : Z) : tox := tox_self_set_nospam t nospam.
Definition dht_self_get_nospam t : Z := tox_self_get_nospam t.
Definition dht_self_get_secret_key t : list byte := tox_self_get_secret_key t.
Definition dht_self_set_status t (status : Z) : tox := tox_self_set_status t status.
Definition dht_self_get_status t : Z := tox_self_get_status t.

(** What the callback is given: the address, the key, the status, and the
    description when it is not empty. *)
Definition dht_get_self_info t : Res (list byte * list byte * Z * option (list byte)) :=
  address ← written DHT_ADDRESS_SIZE (tox_self_get_address t);
  public_key ← written DHT_PUBLIC_KEY_SIZE (tox_self_get_public_key t);
  let desc := tox_self_get_status_message t in
  Ok (address, public_key, tox_self_get_status t, match desc with [] => None | _ => Some desc end).

(** The length of the name and the name, in a buffer of [length] bytes. *)
Definition dht_self_get_name t (len : Z) : Res (Z * list byte) :=
  c_assert (negb (len =? 0));;
  let nm := tox_self_get_name t in
  if Z.of_nat (length nm) >? len then Fault AssertFailed
  else Ok (as_int (Z.of_nat (length nm)), nm).

Definition dht_self_set_name t (nm : list byte) : Z * tox :=
  let '(success, error, t) := tox_self_set_name t nm in
  if negb success then (__dht_set_info_error error, t) else (0, t).

Definition dht_self_set_desc t (desc : list byte) : Z * tox :=
  let '(rc, error, t) := tox_self_set_status_message t desc in
  if negb rc then (__dht_set_info_error error, t) else (0, t).

(** ** Friends *)

(** One friend of the list: an error, or what the callback is given. *)
Definition get_friend t (number : Z) : Res (Z + list byte * Z * option (list byte)) :=
  let '(desc_len, error) := tox_friend_get_status_message_size t number in
  if negb (tox_ok error) then Ok (inl (__dht_friend_query_error error))
  else
    let '(rc, desc, error) := tox_friend_get_status_message t number in
    if negb rc then Ok (inl (__dht_friend_query_error error))
    else
      desc ← written (TOX_MAX_STATUS_MESSAGE_LENGTH (tox := tox)) desc;
      let '(user_status, error) := tox_friend_get_status t number in
      if negb (tox_ok error) then Ok (inl (__dht_friend_query_error error))
      else
        let '(rc, public_key, error) := tox_friend_get_public_key t number in
        if negb rc then Ok (inl (__dht_friend_get_pk_error error))
        else
          public_key ← written DHT_PUBLIC_KEY_SIZE public_key;
          let desc := take (Z.to_nat desc_len) desc in
          Ok (inr (public_key, user_status, match desc with [] => None | _ => Some desc end)).

(** The callback keeps its own state and says whether to go on; the list is
    toxcore's at the start of the call. *)
Fixpoint get_friends_loop {St} t (friend_list : list Z)
    (cb : Z -> list byte -> Z -> option (list byte) -> St -> Res (bool * St)) (s : St) : Res (Z * St) :=
  match friend_list with
  | [] => Ok (0, s)
  | number :: friend_list =>
      r ← get_friend t number;
      match r : Z + list byte * Z * option (list byte) with
      | inl rc => Ok (rc, s)
      | inr (public_key, user_status, desc) =>
          '(more, s) ← cb number public_key user_status desc s;
          if more : bool then get_friends_loop t friend_list cb s else Ok (0, s)
      end
  end.

Definition dht_get_friends {St} t (cb : Z -> list byte -> Z -> option (list byte) -> St -> Res (bool * St))
    (s : St) : Res (Z * St) :=
  get_friends_loop t (tox_self_get_friend_list t) cb s.

Definition dht_get_friend_number t (public_key : list byte) : Z * Z :=
  let '(friend_number, error) := tox_friend_by_public_key t public_key in
  if friend_number =? UINT32_MAX then (__dht_friend_by_pk_error error, friend_number)
  else (0, friend_number).

Definition dht_friend_add t (address msg : list byte) : Res (Z * Z * tox) :=
  c_assert (negb (bool_decide (msg = [])));;
  let '(fid, error, t) := tox_friend_add t address msg in
  if fid =? UINT32_MAX then Ok (__dht_friend_add_error error, 0, t) else Ok (0, fid, t).

Definition dht_friend_add_norequest t (public_key : list byte) : Z * Z * tox :=
  let '(fid, error, t) := tox_friend_add_norequest t public_key in
  if fid =? UINT32_MAX then (__dht_friend_add_error error, 0, t) else (0, fid, t).

Definition dht_friend_message t (friend_number : Z) (data : list byte) : Res (Z * tox) :=
  c_assert (negb (friend_number =? UINT32_MAX));;
  c_assert (negb (bool_decide (data = [])));;
  let '(error, t) := tox_friend_send_message t friend_number TOX_MESSAGE_TYPE_NORMAL data in
  if negb (tox_ok error) then Ok (__dht_friend_send_msg_error error, t) else Ok (0, t).

Definition dht_friend_delete t (friend_number : Z) : Res (Z * tox) :=
  c_assert (negb (friend_number =? UINT32_MAX));;
  let '(error, t) := tox_friend_delete t friend_number in
  if negb (tox_ok error) then Ok (__dht_friend_delete_error error, t) else Ok (0, t).

(** [inet_ntop(AF_INET, ...)] of four bytes: decimal numbers with dots. *)
Definition inet_ntop (addr : list byte) : string :=
  String.concat "." ((fun b => print_llu (byte.unsigned b)) <$> addr).

(** The relay's address, in a buffer of [buflen] bytes, and its key. *)
Definition dht_get_random_tcp_relay t (buflen : Z) : Z * string * list byte :=
  let '(rc, in_addr, public_key) := tox_self_get_random_tcp_relay t in
  if rc <? 0 then (rc, "", public_key)
  else
    let addr := inet_ntop in_addr in
    if strlen addr >=? buflen then (-1, "", public_key) else (0, addr, public_key).

(** ** Groups *)

Definition dht_group_get_public_key t (group_number : Z) : Res (Z * list byte) :=
  c_assert (negb (group_number =? UINT32_MAX));;
  let '(rc, public_key) := tox_conference_get_id t group_number in
  if negb rc then Ok (ELA_DHT_ERROR ELAERR_NOT_EXIST, [])
  else public_key ← written DHT_PUBLIC_KEY_SIZE public_key; Ok (0, public_key).

Definition dht_group_number_by_public_key t (public_key : list byte) : Z * Z :=
  let '(group_number, error) := tox_conference_by_id t public_key in
  if negb (tox_ok error) then (__dht_group_number_by_public_key_error error, group_number)
  else (0, group_number).

Definition dht_group_new t : Z * Z * tox :=
  let '(group_number, error, t) := tox_conference_new t in
  if negb (tox_ok error) then (__dht_group_new_error error, group_number, t) else (0, group_number, t).

Definition dht_group_leave t (group_number : Z) : Res (Z * tox) :=
  c_assert (negb (group_number =? UINT32_MAX));;
  let '(rc, error, t) := tox_conference_delete t group_number in
  if negb rc then Ok (__dht_group_delete_error error, t) else Ok (0, t).

Definition dht_group_invite t (group_number friend_number : Z) : Res (Z * tox) :=
  c_assert (negb (group_number =? UINT32_MAX));;
  c_assert (negb (friend_number =? UINT32_MAX));;
  let '(error, t) := tox_conference_invite t friend_number group_number in
  if negb (tox_ok error) then Ok (__dht_group_invite_error error, t) else Ok (0, t).

Definition dht_group_join t (friend_number : Z) (cookie : list byte) : Res (Z * Z * tox) :=
  c_assert (negb (friend_number =? UINT32_MAX));;
  c_assert (negb (bool_decide (cookie = [])));;
  let '(group_number, error, t) := tox_conference_join t friend_number cookie in
  if negb (tox_ok error) then Ok (__dht_group_join_error error, group_number, t)
  else Ok (0, group_number, t).

Definition dht_group_send_message t (group_number : Z) (msg : list byte) : Res (Z * tox) :=
  c_assert (negb (group_number =? UINT32_MAX));;
  c_assert (negb (bool_decide (msg = [])));;
  let '(error, t) := tox_conference_send_message t group_number TOX_MESSAGE_TYPE_NORMAL msg in
  if negb (tox_ok error) then Ok (__dht_group_send_message_error error, t) else Ok (0, t).

(** The result and the bytes written to the buffer of [len] bytes. *)
Definition dht_group_get_title t (group_number len : Z) : Res (Z * list byte) :=
  c_assert (negb (group_number =? UINT32_MAX));;
  c_assert (len >? 0);;
  let '(size, error) := tox_conference_get_title_size t group_number in
  match error with
  | TOX_ERR_CONFERENCE_TITLE_INVALID_LENGTH => Ok (0, [])
  | _ =>
      if negb (tox_ok error) then Ok (__dht_group_title_error error, [])
      else if size >? len then Ok (ELA_DHT_ERROR ELAERR_BUFFER_TOO_SMALL, [])
      else
        let '(title, error) := tox_conference_get_title t group_number in
        if negb (tox_ok error) then Ok (__dht_group_title_error error, [])
        else title ← written len title; Ok (as_int size, title)
  end.

Definition dht_group_set_title t (group_number : Z) (title : list byte) : Res (Z * tox) :=
  c_assert (negb (group_number =? UINT32_MAX));;
  let '(error, t) := tox_conference_set_title t group_number title in
  if negb (tox_ok error) then Ok (__dht_group_title_error error, t) else Ok (0, t).

(** The code compares with [TOX_ERR_CONFERENCE_TITLE_OK], which is 0 too. *)
Definition dht_group_peer_count t (group_number : Z) : Res (Z * Z) :=
  c_assert (negb (group_number =? UINT32_MAX));;
  let '(peer_count, error) := tox_conference_peer_count t group_number in
  if negb (tox_ok error) then Ok (__dht_group_peer_query_error error, peer_count)
  else Ok (0, peer_count).

Definition dht_group_get_peer_name t (group_number peer_number len : Z) : Res (Z * list byte) :=
  c_assert (negb (group_number =? UINT32_MAX));;
  c_assert (negb (peer_number =? UINT32_MAX));;
  c_assert (len >? 0);;
  let '(size, error) := tox_conference_peer_get_name_size t group_number peer_number in
  if negb (tox_ok error) then Ok (__dht_group_peer_query_error error, [])
  else if size =? 0 then Ok (0, [])
  else if size >? len then Ok (ELA_DHT_ERROR ELAERR_BUFFER_TOO_SMALL, [])
  else
    let '(nm, error) := tox_conference_peer_get_name t group_number peer_number in
    if negb (tox_ok error) then Ok (__dht_group_peer_query_error error, [])
    else nm ← written len nm; Ok (as_int size, nm).

Definition dht_group_get_peer_public_key t (group_number peer_number : Z) : Res (Z * list byte) :=
  c_assert (negb (group_number =? UINT32_MAX));;
  c_assert (negb (peer_number =? UINT32_MAX));;
  let '(public_key, error) := tox_conference_peer_get_public_key t group_number peer_number in
  if negb (tox_ok error) then Ok (__dht_group_peer_query_error error, [])
  else public_key ← written DHT_PUBLIC_KEY_SIZE public_key; Ok (0, public_key).

Definition dht_get_group_count t : Z := Z.of_nat (length (tox_conference_get_chatlist t)).
Definition dht_get_group_list t : list Z := tox_conference_get_chatlist t.
End Adapter.

(** ** Events

    What toxcore calls back while it iterates, and what the adapter passes on to
    the node's notifications. *)

Inductive tox_event :=
| self_connection_status (connection : TOX_CONNECTION)
| friend_status_message (friend_number : Z) (status_message : list byte)
| friend_connection_status (friend_number : Z) (connection : TOX_CONNECTION)
| friend_status (friend_number status : Z)
| friend_request (public_key hello : list byte)
| friend_message (friend_number : Z) (type : TOX_MESSAGE_TYPE) (message : list byte)
| conference_invite (friend_number : Z) (type : TOX_CONFERENCE_TYPE) (cookie : list byte)
| conference_connected (conference_number : Z)
| conference_message (conference_number peer_number : Z) (type : TOX_MESSAGE_TYPE) (message : list byte)
| conference_title (conference_number peer_number : Z) (title : list byte)
| conference_peer_name (conference_number peer_number : Z) (nm : list byte)
| conference_peer_list_changed (conference_number : Z).

Definition is_connected (connection : TOX_CONNECTION) : bool :=
  match connection with
  | TOX_CONNECTION_NONE | TOX_CONNECTION_other _ => false
  | TOX_CONNECTION_TCP | TOX_CONNECTION_UDP => true
  end.
