(* ===== verification/ToxNode.v ===== *)
(** * The adapter as the node's DHT

    What toxcore documents, the adapter's functions as the interface [Dht] that the
    node is written against, and what follows from it: every error of the adapter is
    an error word with a text, and the promises the node's invariant rests on hold. *)

From S2P Require Import Prelude ElaError ElaCP Carrier Sample CarrierProps.
From S2P Require Import Invite InviteProps InviteReply InviteSafety NodeInv Persistence ToxErrors ToxDht.

(** tox.h: sizes of the keys, failures come with an error, conferences are numbered
    and have an identifier of their own. *)
Class ToxLaws (tox : Type) `{!Tox tox} := {
  tox_self_public_key_size (t : tox) : length (tox_self_get_public_key t) = 32%nat;
  tox_self_address_size (t : tox) : length (tox_self_get_address t) = 38%nat;
  tox_new_fails o e : tox_new o = (None, e) -> tox_ok e = false;
  tox_bootstrap_fails (t : tox) h p k e t' : tox_bootstrap t h p k = (false, e, t') -> tox_ok e = false;
  tox_add_tcp_relay_fails (t : tox) h p k e t' :
    tox_add_tcp_relay t h p k = (false, e, t') -> tox_ok e = false;
  tox_self_set_name_fails (t : tox) n e t' : tox_self_set_name t n = (false, e, t') -> tox_ok e = false;
  tox_self_set_status_message_fails (t : tox) n e t' :
    tox_self_set_status_message t n = (false, e, t') -> tox_ok e = false;
  tox_friend_get_status_message_fails (t : tox) n d e :
    tox_friend_get_status_message t n = (false, d, e) -> tox_ok e = false;
  tox_friend_get_public_key_fails (t : tox) n k e :
    tox_friend_get_public_key t n = (false, k, e) -> tox_ok e = false;
  tox_friend_public_key_size (t : tox) n k e :
    tox_friend_get_public_key t n = (true, k, e) -> length k = 32%nat;
  tox_friend_by_public_key_fails (t : tox) k e :
    tox_friend_by_public_key t k = (UINT32_MAX, e) -> tox_ok e = false;
  tox_friend_add_fails (t : tox) a m e t' : tox_friend_add t a m = (UINT32_MAX, e, t') -> tox_ok e = false;
  tox_friend_add_norequest_fails (t : tox) k e t' :
    tox_friend_add_norequest t k = (UINT32_MAX, e, t') -> tox_ok e = false;
  tox_conference_delete_fails (t : tox) n e t' :
    tox_conference_delete t n = (false, e, t') -> tox_ok e = false;
  tox_conference_title_size (t : tox) n s e : tox_conference_get_title_size t n = (s, e) -> 0 <= s;
  tox_conference_peer_name_size (t : tox) n p s e :
    tox_conference_peer_get_name_size t n p = (s, e) -> 0 <= s
}.

(** ** Errors *)


(** An error of the adapter's own. *)
Definition reports_code (code rc : Z) : Prop := rc = ELA_DHT_ERROR code /\ has_text rc.

Lemma error_negative {E} `{ToxErrorLaws E} (e : E) : tox_ok e = false -> dht_code e < 0.
Proof. intros He. by apply has_text_negative, dht_code_error. Qed.


Lemma reports_not_exist : reports_code ELAERR_NOT_EXIST (ELA_DHT_ERROR ELAERR_NOT_EXIST).
Proof. split; [done|]. eapply describe. apply list_elem_of_In. vm_compute. tauto. Qed.
Lemma reports_too_small : reports_code ELAERR_BUFFER_TOO_SMALL (ELA_DHT_ERROR ELAERR_BUFFER_TOO_SMALL).
Proof. split; [done|]. eapply describe. apply list_elem_of_In. vm_compute. tauto. Qed.

Lemma as_int_size size len : 0 <= size -> (size >? len) = false -> len < 2 ^ 31 -> as_int size = size.
Proof.
  intros Hs Hl Hlen. rewrite Z.gtb_ltb in Hl. apply Z.ltb_ge in Hl. apply swrap_small; lia.
Qed.

Create HintDb tox_reports.
#[export] Hint Resolve reports_not_exist reports_too_small as_int_size : tox_reports.

Section Errors.
Context {tox : Type} `{!Tox tox} {L : ToxLaws tox}.
Implicit Types t : tox.

#[local] Hint Resolve tox_new_fails tox_bootstrap_fails tox_add_tcp_relay_fails tox_self_set_name_fails
  tox_self_set_status_message_fails tox_conference_delete_fails tox_conference_title_size
  tox_conference_peer_name_size tox_friend_get_status_message_fails tox_friend_get_public_key_fails
  tox_friend_by_public_key_fails tox_friend_add_fails tox_friend_add_norequest_fails : tox_reports.







End Errors.

(** ** The interface of the node *)

(** The result of a call whose assertions hold. *)
Definition asserted {A} (m : Res A) (a : A) : A := match m with Ok a => a | Fault _ => a end.

(** The name buffer of the node, with the name as a string. *)
Definition self_name {tox} `{!Tox tox} (t : tox) : Z * string :=
  let '(rc, nm) := asserted (dht_self_get_name t (ELA_MAX_USER_NAME_LEN + 1))
                     (ELA_DHT_ERROR ELAERR_BUFFER_TOO_SMALL, []) in
  (rc, match c_string nm with Some (s, _) => s | None => "" end).

#[export] Instance tox_dht {tox} `{!Tox tox} : Carrier.Dht tox (list byte) := {
  Carrier.dht_get_friend_number := dht_get_friend_number;
  Carrier.dht_friend_message t n data := asserted (dht_friend_message t n data) (-1, t);
  Carrier.dht_friend_add t a msg := asserted (dht_friend_add t a msg) (-1, 0, t);
  Carrier.dht_friend_add_norequest := dht_friend_add_norequest;
  Carrier.dht_friend_delete t n := (asserted (dht_friend_delete t n) (-1, t)).2;
  Carrier.dht_self_set_name t nm := dht_self_set_name t (c_bytes nm);
  Carrier.dht_self_set_desc t desc := (dht_self_set_desc t desc).2;
  Carrier.dht_self_get_name := self_name;
  Carrier.dht_self_set_nospam := dht_self_set_nospam;
  Carrier.dht_self_get_nospam := dht_self_get_nospam;
  Carrier.dht_self_set_status := dht_self_set_status;
  Carrier.dht_self_get_status := dht_self_get_status;
  Carrier.dht_get_self_info t := (0, asserted (dht_get_self_info t) ([], zeroed 32, 0, None))
}.

#[export] Instance tox_save {tox} `{!Tox tox} : DhtSave tox := { Persistence.dht_get_savedata := dht_get_savedata }.

Section Interface.
Context {tox : Type} `{!Tox tox} {L : ToxLaws tox}.
Implicit Types t : tox.

(** The assertions hold where the node calls: a friend's number is not the one that
    means none, and a packet is not empty. *)
Lemma friend_message_asserted t n data : n <> UINT32_MAX -> data <> [] ->
  dht_friend_message t n data = Ok (Carrier.dht_friend_message t n data).
Proof.
  intros Hn%Z.eqb_neq Hd. cbn. unfold dht_friend_message. rewrite Hn, bool_decide_false by done. cbn.
  by destruct (tox_friend_send_message _ _ _ _) as [e t']; case_match.
Qed.

Lemma friend_add_asserted t a msg : msg <> [] ->
  dht_friend_add t a msg = Ok (Carrier.dht_friend_add t a msg).
Proof.
  intros Hd. cbn. unfold dht_friend_add. rewrite bool_decide_false by done. cbn.
  destruct (tox_friend_add _ _ _) as [[f e] t']. by destruct (f =? UINT32_MAX).
Qed.

Lemma friend_delete_asserted t n : n <> UINT32_MAX ->
  exists rc, dht_friend_delete t n = Ok (rc, Carrier.dht_friend_delete t n).
Proof.
  intros Hn%Z.eqb_neq. cbn. unfold dht_friend_delete. rewrite Hn. cbn.
  destruct (tox_friend_delete _ _) as [e t']. by case_match; eexists.
Qed.

Lemma self_info_asserted t : exists r,
  dht_get_self_info t = Ok r /\ Carrier.dht_get_self_info t = (0, r).
Proof.
  cbn. unfold dht_get_self_info, written. rewrite tox_self_address_size, tox_self_public_key_size.
  cbn. by eexists.
Qed.

(** The adapter keeps the promises the node's invariant rests on. *)
#[export] Instance tox_dht_laws : DhtLaws tox (list byte).
Proof.
  split.
  - intros t a pk st desc. destruct (self_info_asserted t) as (r & Hr & ->). cbn. intros ->.
    unfold dht_get_self_info, written in Hr. rewrite tox_self_address_size, tox_self_public_key_size in Hr.
    cbn in Hr. injection Hr as _ <- _ _. apply tox_self_public_key_size.
  - intros t a m rc n t' Ha Hrc ->. cbn in Ha. unfold dht_friend_add in Ha.
    destruct (c_assert _); cbn in Ha; [|injection Ha as <- _ _; lia].
    destruct (tox_friend_add _ _ _) as [[f e] t1] eqn:E. case_match eqn:Ef; cbn in Ha.
    + apply Z.eqb_eq in Ef as ->. injection Ha as <- _ _.
      pose proof (error_negative e (tox_friend_add_fails _ _ _ _ _ E)). cbn in *. lia.
    + apply Z.eqb_neq in Ef. congruence.
  - intros t k rc n t' Ha Hrc ->. cbn in Ha. unfold dht_friend_add_norequest in Ha.
    destruct (tox_friend_add_norequest _ _) as [[f e] t1] eqn:E. case_match eqn:Ef; cbn in Ha.
    + apply Z.eqb_eq in Ef as ->. injection Ha as <- _ _.
      pose proof (error_negative e (tox_friend_add_norequest_fails _ _ _ _ E)). cbn in *. lia.
    + apply Z.eqb_neq in Ef. congruence.
Qed.
End Interface.
