(* ===== verification/Groups.v ===== *)
(** * Groups (src/carrier/ela_carrier.c)

    The group calls of the application and the group notifications of the DHT, over
    the adapter of toxcore.  The node keeps nothing of its own about groups: a group
    is toxcore's conference, known by a number inside and by the base58 text of its
    identifier outside.

    A callback that walks over groups or peers is a function that says whether to go
    on; the walk gives what it was called with. *)

From S2P Require Import Prelude ElaError ElaCP ToxErrors ToxDht Carrier Sample CarrierProps.
From S2P Require Import Invite Persistence ToxNode.

Definition ELA_MAX_GROUP_TITLE_LEN : Z := 127.

(** The name is what was stored of it: the bytes after them are unspecified in
    [ela_group_get_peers] and zero in [ela_group_get_peer]. *)
Record ElaGroupPeer := { gp_name : list byte; gp_userid : string }.

(** [strcmp] is zero: the buffer holds the text and its terminator.  Reading past
    the bytes that were stored is reading an uninitialised buffer. *)
Fixpoint strcmp_zero (buf text : list byte) : Res bool :=
  match buf, text with
  | _, [] => Ok true
  | [], _ => Fault Uninitialised
  | b :: buf, c :: text => if bool_decide (b = c) then strcmp_zero buf text else Ok false
  end.

Section Groups.
Context `{!HashTables, !Base58} {tox : Type} `{!Tox tox}.
Implicit Types w : ElaCarrier tox.

(** ** Numbers and identifiers *)

Definition get_groupid_by_number w (group_number len : Z) : Res (option string * ElaCarrier tox) :=
  c_assert (len >=? ELA_MAX_ID_LEN + 1);;
  '(rc, public_key) ← dht_group_get_public_key (dht_state w) group_number;
  if rc <? 0 then Ok (None, set_last_error rc w)
  else groupid ← strcpy len (base58_encode public_key); Ok (Some groupid, w).

Definition get_peerid_by_number w (group_number peer_number len : Z) :
    Res (option string * ElaCarrier tox) :=
  c_assert (len >=? ELA_MAX_ID_LEN + 1);;
  '(rc, public_key) ← dht_group_get_peer_public_key (dht_state w) group_number peer_number;
  if rc <? 0 then Ok (None, set_last_error rc w)
  else peerid ← strcpy len (base58_encode public_key); Ok (Some peerid, w).

(** The result code, and the number when it is not negative. *)
Definition get_group_number w (groupid : string) : Z * Z :=
  match base58_decode groupid DHT_PUBLIC_KEY_SIZE with
  | None => (i32 (ELA_GENERAL_ERROR ELAERR_INVALID_ARGS), 0)
  | Some public_key =>
      if negb (Z.of_nat (length public_key) =? DHT_PUBLIC_KEY_SIZE)
      then (i32 (ELA_GENERAL_ERROR ELAERR_INVALID_ARGS), 0)
      else
        let '(rc, number) := dht_group_number_by_public_key (dht_state w) public_key in
        if rc <? 0 then (i32 (ELA_GENERAL_ERROR ELAERR_NOT_EXIST), 0) else (rc, number)
  end.

(** ** Notifications *)

Definition notify_group_invite_cb (friend_number : Z) (cookie : list byte) w : Res (ElaCarrier tox) :=
  fi ← friends_get w friend_number;
  match fi with
  | None => Ok w
  | Some fi =>
      friendid ← (if cb_group_invite (callbacks w)
                  then strcpy (ELA_MAX_ID_LEN + 1) (userid (user_info (info fi))) else Ok "");
      Ok (emit_if (cb_group_invite (callbacks w)) (EvGroupInvite friendid cookie) w)
  end.

Definition notify_group_connected_cb (group_number : Z) w : Res (ElaCarrier tox) :=
  '(groupid, w) ← get_groupid_by_number w group_number (ELA_MAX_ID_LEN + 1);
  match groupid : option string with
  | None => Ok w
  | Some groupid => Ok (emit_if (cb_group_connected (callbacks w)) (EvGroupConnected groupid) w)
  end.

(** What the notifications about a peer do: both identifiers, then the callback. *)
Definition with_peer (group_number peer_number : Z) w
    (k : string -> string -> ElaCarrier tox -> ElaCarrier tox) : Res (ElaCarrier tox) :=
  '(groupid, w) ← get_groupid_by_number w group_number (ELA_MAX_ID_LEN + 1);
  match groupid : option string with
  | None => Ok w
  | Some groupid =>
      '(peerid, w) ← get_peerid_by_number w group_number peer_number (ELA_MAX_ID_LEN + 1);
      match peerid : option string with
      | None => Ok w
      | Some peerid => Ok (k groupid peerid w)
      end
  end.

Definition notify_group_message_cb (group_number peer_number : Z) (msg : list byte) w :
    Res (ElaCarrier tox) :=
  with_peer group_number peer_number w (fun groupid peerid w =>
    emit_if (cb_group_message (callbacks w)) (EvGroupMessage groupid peerid msg) w).

(** The title and the name go to the callback as pointers, with no terminator added. *)
Definition notify_group_title_cb (group_number peer_number : Z) (title : list byte) w :
    Res (ElaCarrier tox) :=
  if peer_number =? UINT32_MAX then Ok w
  else with_peer group_number peer_number w (fun groupid peerid w =>
    emit_if (cb_group_title (callbacks w)) (EvGroupTitle groupid peerid title) w).

Definition notify_group_peer_name_cb (group_number peer_number : Z) (nm : list byte) w :
    Res (ElaCarrier tox) :=
  with_peer group_number peer_number w (fun groupid peerid w =>
    emit_if (cb_group_peer_name (callbacks w)) (EvGroupPeerName groupid peerid nm) w).

Definition notify_group_peer_list_changed_cb (group_number : Z) w : Res (ElaCarrier tox) :=
  '(groupid, w) ← get_groupid_by_number w group_number (ELA_MAX_ID_LEN + 1);
  match groupid : option string with
  | None => Ok w
  | Some groupid =>
      Ok (emit_if (cb_group_peer_list_changed (callbacks w)) (EvGroupPeerListChanged groupid) w)
  end.

(** ** Calls: creating, joining, leaving *)

(** [ela_set_error(code); return -1;] of the calls that give an identifier. *)
Definition no_group (code : Z) w : Res (option string * ElaCarrier tox) :=
  Ok (None, set_last_error code w).

(** The end of creating and joining: the identifier, or the group is left again.
    The error is the result -1 of [get_groupid_by_number]. *)
Definition name_group w (group_number len : Z) : Res (option string * ElaCarrier tox) :=
  '(groupid, w) ← get_groupid_by_number w group_number len;
  match groupid : option string with
  | Some groupid => Ok (Some groupid, w)
  | None =>
      '(_, t) ← dht_group_leave (dht_state w) group_number;
      no_group (-1) { w with dht_state := t }
  end.

Definition ela_new_group w (len : Z) : Res (option string * ElaCarrier tox) :=
  if len <=? ELA_MAX_ID_LEN then no_group (ELA_GENERAL_ERROR ELAERR_INVALID_ARGS) w
  else if negb (is_ready w) then no_group (ELA_GENERAL_ERROR ELAERR_NOT_READY) w
  else
    let '(rc, group_number, t) := dht_group_new (dht_state w) in
    let w := { w with dht_state := t } in
    if rc <? 0 then no_group rc w else name_group w group_number len.

Definition ela_group_join w (friendid : option string) (cookie : option (list byte)) (len : Z) :
    Res (option string * ElaCarrier tox) :=
  match friendid, cookie with
  | None, _ | Some "", _ | _, None | _, Some [] => no_group (ELA_GENERAL_ERROR ELAERR_INVALID_ARGS) w
  | Some friendid, Some cookie =>
      if len <=? ELA_MAX_ID_LEN then no_group (ELA_GENERAL_ERROR ELAERR_INVALID_ARGS) w
      else if negb (is_ready w) then no_group (ELA_GENERAL_ERROR ELAERR_NOT_READY) w
      else
        let '(rc, friend_number) := get_friend_number w friendid in
        if rc <? 0 then no_group rc w
        else
          '(rc, group_number, t) ← dht_group_join (dht_state w) friend_number cookie;
          let w := { w with dht_state := t } in
          if rc <? 0 then no_group rc w else name_group w group_number len
  end.

Definition ela_leave_group w (groupid : option string) : Res (Z * ElaCarrier tox) :=
  match groupid with
  | None | Some "" => fails (ELA_GENERAL_ERROR ELAERR_INVALID_ARGS) w
  | Some groupid =>
      if negb (is_ready w) then fails (ELA_GENERAL_ERROR ELAERR_NOT_READY) w
      else
        let '(rc, group_number) := get_group_number w groupid in
        if rc <? 0 then fails rc w
        else
          '(rc, t) ← dht_group_leave (dht_state w) group_number;
          let w := { w with dht_state := t } in
          if rc <? 0 then fails rc w else Ok (0, w)
  end.

Definition ela_group_invite w (groupid friendid : option string) : Res (Z * ElaCarrier tox) :=
  match groupid, friendid with
  | None, _ | Some "", _ | _, None | _, Some "" => fails (ELA_GENERAL_ERROR ELAERR_INVALID_ARGS) w
  | Some groupid, Some friendid =>
      if negb (is_ready w) then fails (ELA_GENERAL_ERROR ELAERR_NOT_READY) w
      else
        let '(rc, group_number) := get_group_number w groupid in
        if rc <? 0 then fails rc w
        else
          let '(rc, friend_number) := get_friend_number w friendid in
          if rc <? 0 then fails rc w
          else
            '(rc, t) ← dht_group_invite (dht_state w) group_number friend_number;
            let w := { w with dht_state := t } in
            if rc <? 0 then fails rc w else Ok (0, w)
  end.

(** ** Messages and titles *)

Definition ela_group_send_message w (groupid : option string) (msg : option (list byte)) :
    Res (Z * ElaCarrier tox) :=
  match groupid, msg with
  | None, _ | Some "", _ | _, None | _, Some [] => fails (ELA_GENERAL_ERROR ELAERR_INVALID_ARGS) w
  | Some groupid, Some msg =>
      if Z.of_nat (length msg) >? ELA_MAX_APP_MESSAGE_LEN
      then fails (ELA_GENERAL_ERROR ELAERR_INVALID_ARGS) w
      else if negb (is_ready w) then fails (ELA_GENERAL_ERROR ELAERR_NOT_READY) w
      else
        let '(rc, group_number) := get_group_number w groupid in
        if rc <? 0 then fails rc w
        else
          '(rc, t) ← dht_group_send_message (dht_state w) group_number msg;
          let w := { w with dht_state := t } in
          if rc <? 0 then fails rc w else Ok (0, w)
  end.

(** The caller's buffer of [len] bytes: zeros, with the title at its start. *)
Definition ela_group_get_title w (groupid : option string) (len : Z) :
    Res (option (list byte) * ElaCarrier tox) :=
  let fails code w := Ok (None, set_last_error code w) in
  match groupid with
  | None | Some "" => fails (ELA_GENERAL_ERROR ELAERR_INVALID_ARGS) w
  | Some groupid =>
      if len =? 0 then fails (ELA_GENERAL_ERROR ELAERR_INVALID_ARGS) w
      else if negb (is_ready w) then fails (ELA_GENERAL_ERROR ELAERR_NOT_READY) w
      else
        let '(rc, group_number) := get_group_number w groupid in
        if rc <? 0 then fails rc w
        else
          '(rc, title) ← dht_group_get_title (dht_state w) group_number len;
          if rc <? 0 then fails rc w else Ok (Some (splice 0 title (zeroed len)), w)
  end.

(** The title is read into an uninitialised buffer and compared first. *)
Definition ela_group_set_title w (groupid title : option string) : Res (Z * ElaCarrier tox) :=
  match groupid, title with
  | None, _ | Some "", _ | _, None | _, Some "" => fails (ELA_GENERAL_ERROR ELAERR_INVALID_ARGS) w
  | Some groupid, Some title =>
      if strlen title >? ELA_MAX_GROUP_TITLE_LEN then fails (ELA_GENERAL_ERROR ELAERR_INVALID_ARGS) w
      else if negb (is_ready w) then fails (ELA_GENERAL_ERROR ELAERR_NOT_READY) w
      else
        let '(rc, group_number) := get_group_number w groupid in
        if rc <? 0 then fails rc w
        else
          '(rc, buf) ← dht_group_get_title (dht_state w) group_number (ELA_MAX_GROUP_TITLE_LEN + 1);
          if rc <? 0 then fails rc w
          else
            same ← (if rc >? 1 then strcmp_zero buf (c_bytes title) else Ok (str_eqb title ""));
            if same : bool then Ok (0, w)
            else
              '(rc, t) ← dht_group_set_title (dht_state w) group_number (c_bytes title);
              let w := { w with dht_state := t } in
              if rc <? 0 then fails rc w else Ok (0, w)
  end.

(** ** Peers and groups *)

(** Peer [i] as the walk gives it to the callback; [None] when it is left out. *)
Definition read_peer w (group_number i : Z) : Res (option ElaGroupPeer) :=
  '(rc, nm) ← dht_group_get_peer_name (dht_state w) group_number i (ELA_MAX_USER_NAME_LEN + 1);
  if rc <? 0 then Ok None
  else
    let nm := if rc =? 0 then [byte.of_Z 0] else nm in
    '(rc, public_key) ← dht_group_get_peer_public_key (dht_state w) group_number i;
    if rc <? 0 then Ok None
    else
      let peerid := base58_encode public_key in
      if strlen peerid >=? ELA_MAX_ID_LEN + 1 then Ok None
      else Ok (Some {| gp_name := nm; gp_userid := peerid |}).

(** The peers from [i] on, [n] of them; the end of the list is [None]. *)
Fixpoint peers_loop (n : nat) w (group_number i : Z) (callback : option ElaGroupPeer -> bool) :
    Res (list (option ElaGroupPeer)) :=
  match n with
  | O => Ok [None]
  | S n =>
      peer ← read_peer w group_number i;
      match peer : option ElaGroupPeer with
      | None => peers_loop n w group_number (i + 1) callback
      | Some peer =>
          if callback (Some peer) then
            rest ← peers_loop n w group_number (i + 1) callback;
            Ok (Some peer :: rest)
          else Ok [Some peer]
      end
  end.

Definition ela_group_get_peers w (groupid : option string) (callback : option ElaGroupPeer -> bool) :
    Res (option (list (option ElaGroupPeer)) * ElaCarrier tox) :=
  let fails code w := Ok (None, set_last_error code w) in
  match groupid with
  | None | Some "" => fails (ELA_GENERAL_ERROR ELAERR_INVALID_ARGS) w
  | Some groupid =>
      if negb (is_ready w) then fails (ELA_GENERAL_ERROR ELAERR_NOT_READY) w
      else
        let '(rc, group_number) := get_group_number w groupid in
        if rc <? 0 then fails rc w
        else
          '(rc, peer_count) ← dht_group_peer_count (dht_state w) group_number;
          if rc <? 0 then fails rc w
          else
            peers ← peers_loop (Z.to_nat peer_count) w group_number 0 callback;
            Ok (Some peers, w)
  end.

(** The first peer with the key, of [n] from [i] on. *)
Fixpoint find_peer (n : nat) w (group_number i : Z) (peerpk : list byte) : Res (option Z) :=
  match n with
  | O => Ok None
  | S n =>
      '(rc, public_key) ← dht_group_get_peer_public_key (dht_state w) group_number i;
      if rc <? 0 then find_peer n w group_number (i + 1) peerpk
      else if bool_decide (peerpk = public_key) then Ok (Some i)
      else find_peer n w group_number (i + 1) peerpk
  end.

Definition ela_group_get_peer w (groupid peerid : option string) :
    Res (option ElaGroupPeer * ElaCarrier tox) :=
  let fails code w := Ok (None, set_last_error code w) in
  match groupid, peerid with
  | None, _ | Some "", _ | _, None | _, Some "" => fails (ELA_GENERAL_ERROR ELAERR_INVALID_ARGS) w
  | Some groupid, Some peerid =>
      match base58_decode peerid DHT_PUBLIC_KEY_SIZE with
      | None => fails (ELA_GENERAL_ERROR ELAERR_INVALID_ARGS) w
      | Some peerpk =>
          if negb (Z.of_nat (length peerpk) =? DHT_PUBLIC_KEY_SIZE)
          then fails (ELA_GENERAL_ERROR ELAERR_INVALID_ARGS) w
          else if negb (is_ready w) then fails (ELA_GENERAL_ERROR ELAERR_NOT_READY) w
          else
            let '(rc, group_number) := get_group_number w groupid in
            if rc <? 0 then fails rc w
            else
              '(rc, peer_count) ← dht_group_peer_count (dht_state w) group_number;
              if rc <? 0 then fails rc w
              else
                found ← find_peer (Z.to_nat peer_count) w group_number 0 peerpk;
                match found : option Z with
                | None => fails (ELA_GENERAL_ERROR ELAERR_NOT_EXIST) w
                | Some i =>
                    '(rc, nm) ← dht_group_get_peer_name (dht_state w) group_number i
                                  (ELA_MAX_USER_NAME_LEN + 1);
                    if rc <? 0 then fails rc w
                    else
                      id ← strcpy (ELA_MAX_ID_LEN + 1) peerid;
                      Ok (Some {| gp_name := splice 0 nm (zeroed (ELA_MAX_USER_NAME_LEN + 1));
                                  gp_userid := id |}, w)
                end
      end
  end.

(** The groups of the list; one without an identifier is left out. *)
Fixpoint groups_loop (l : list Z) w (callback : option string -> bool) :
    Res (list (option string) * ElaCarrier tox) :=
  match l with
  | [] => Ok ([None], w)
  | group_number :: l =>
      '(groupid, w) ← get_groupid_by_number w group_number (ELA_MAX_ID_LEN + 1);
      match groupid : option string with
      | None => groups_loop l w callback
      | Some groupid =>
          if callback (Some groupid) then
            '(rest, w) ← groups_loop l w callback;
            Ok (Some groupid :: rest, w)
          else Ok ([Some groupid], w)
      end
  end.

Definition ela_get_groups w (callback : option string -> bool) :
    Res (option (list (option string)) * ElaCarrier tox) :=
  if negb (is_ready w) then Ok (None, set_last_error (ELA_GENERAL_ERROR ELAERR_NOT_READY) w)
  else if dht_get_group_count (dht_state w) =? 0 then Ok (Some [None], w)
  else
    '(groups, w) ← groups_loop (dht_get_group_list (dht_state w)) w callback;
    Ok (Some groups, w).
End Groups.
