(* ===== verification/GroupProps.v ===== *)
(** * What the group calls do

    The groups of a node as a set of identifiers, which the calls create, join, leave
    and list; titles and messages. *)

From S2P Require Import Prelude ElaError ElaCP ToxErrors ToxDht Carrier Sample CarrierProps.
From S2P Require Import Invite InviteProps InviteReply InviteSafety NodeInv Persistence ToxNode Groups.

(** The codec reads back what it writes. *)
Class Base58Reads `{!Base58} := {
  base58_decode_encode bs : length bs = 32%nat -> base58_decode (base58_encode bs) 32 = Some bs
}.
Arguments Base58Reads : clear implicits.

(** ** What toxcore promises *)

Section Conferences.
Context {tox : Type} `{!Tox tox}.
Implicit Types t : tox.

(** Conferences that stay keep their identifiers. *)
Definition kept t t' : Prop := forall n,
  n ∈ tox_conference_get_chatlist t -> n ∈ tox_conference_get_chatlist t' ->
  tox_conference_get_id t' n = tox_conference_get_id t n.

Definition same_conferences t t' : Prop :=
  (tox_conference_get_chatlist t' ≡ₚ tox_conference_get_chatlist t) /\ kept t t'.

Definition joined t n t' : Prop :=
  (n ∉ tox_conference_get_chatlist t) /\
  (tox_conference_get_chatlist t' ≡ₚ n :: tox_conference_get_chatlist t) /\ kept t t'.

Definition parted t n t' : Prop :=
  tox_conference_get_chatlist t' ≡ₚ base.filter (.≠ n) (tox_conference_get_chatlist t) /\ kept t t'.
End Conferences.

(** The numbers in the list are those of the conferences that exist; each has an
    identifier by which it is found, and keeps it while others come and go. *)
Class ConferenceLaws (tox : Type) `{!Tox tox} := {
  conference_number (t : tox) n : n ∈ tox_conference_get_chatlist t -> n <> UINT32_MAX;
  conference_id (t : tox) n : n ∈ tox_conference_get_chatlist t ->
    exists k, tox_conference_get_id t n = (true, k) /\ length k = 32%nat /\
      tox_conference_by_id t k = (n, TOX_ERR_CONFERENCE_BY_ID_OK);
  conference_by_id (t : tox) k n e : tox_conference_by_id t k = (n, e) -> tox_ok e = true ->
    n ∈ tox_conference_get_chatlist t /\ tox_conference_get_id t n = (true, k);
  conference_new (t : tox) n e t' : tox_conference_new t = (n, e, t') ->
    if tox_ok e then joined t n t' else same_conferences t t';
  conference_join (t : tox) f c n e t' : tox_conference_join t f c = (n, e, t') ->
    if tox_ok e then joined t n t' else same_conferences t t';
  conference_delete (t : tox) n : n ∈ tox_conference_get_chatlist t ->
    exists t', tox_conference_delete t n = (true, TOX_ERR_CONFERENCE_DELETE_OK, t') /\ parted t n t'
}.

Section Groups.
Context `{!HashTables, !Base58} {B : Base58Laws _} {R : Base58Reads _} {tox : Type} `{!Tox tox}
  {C : ConferenceLaws tox}.
Implicit Types (w : ElaCarrier tox) (t : tox).

(** ** The groups of a node *)

Definition id_of t (n : Z) : string := base58_encode (tox_conference_get_id t n).2.

(** The identifiers of the groups the node is in. *)
Definition groups_of t : gset string := list_to_set (id_of t <$> tox_conference_get_chatlist t).

Lemma elem_of_groups t id :
  id ∈ groups_of t <-> exists n, n ∈ tox_conference_get_chatlist t /\ id = id_of t n.
Proof. unfold groups_of. rewrite elem_of_list_to_set, list_elem_of_fmap. naive_solver. Qed.

(** An identifier is the text of its key, and the key is found again. *)
Lemma id_of_spec t n : n ∈ tox_conference_get_chatlist t ->
  strlen (id_of t n) <= 44 /\
  exists k, tox_conference_get_id t n = (true, k) /\ length k = 32%nat /\ id_of t n = base58_encode k /\
    base58_decode (id_of t n) 32 = Some k /\ tox_conference_by_id t k = (n, TOX_ERR_CONFERENCE_BY_ID_OK).
Proof.
  intros Hn. destruct (conference_id t n Hn) as (k & Hk & Hl & Hf). unfold id_of. rewrite Hk. cbn.
  split; [by apply base58_key_length|]. exists k. by rewrite base58_decode_encode.
Qed.

Lemma id_of_inj t n m : n ∈ tox_conference_get_chatlist t -> m ∈ tox_conference_get_chatlist t ->
  id_of t n = id_of t m -> n = m.
Proof.
  intros (_ & k & _ & _ & _ & Hk & Hf)%id_of_spec (_ & k' & _ & _ & _ & Hk' & Hf')%id_of_spec Heq.
  rewrite Heq, Hk' in Hk. injection Hk as ->. congruence.
Qed.

Lemma id_of_kept t t' n : kept t t' ->
  n ∈ tox_conference_get_chatlist t -> n ∈ tox_conference_get_chatlist t' -> id_of t' n = id_of t n.
Proof. intros Hk Hn Hn'. unfold id_of. by rewrite (Hk n). Qed.

Lemma groups_same t t' : same_conferences t t' -> groups_of t' = groups_of t.
Proof.
  intros [Hp Hk]. apply set_eq. intros id. rewrite !elem_of_groups.
  split; intros (n & Hn & ->); exists n; rewrite Hp in *; [|symmetry in Hp]; (split; [done|]).
  - apply id_of_kept; [done|done|by rewrite Hp].
  - symmetry. apply id_of_kept; [done..|]. by rewrite <- Hp.
Qed.

Lemma groups_joined t n t' : joined t n t' ->
  n ∈ tox_conference_get_chatlist t' /\ (id_of t' n ∉ groups_of t) /\
  groups_of t' = ({[id_of t' n]} ∪ groups_of t).
Proof.
  intros (Hn & Hp & Hk).
  assert (n ∈ tox_conference_get_chatlist t') as Hn' by (rewrite Hp; by constructor).
  assert (forall m, m ∈ tox_conference_get_chatlist t -> m ∈ tox_conference_get_chatlist t') as Hin
    by (intros m Hm; rewrite Hp; by constructor).
  split_and!; [done| |].
  - intros (m & Hm & Heq)%elem_of_groups. rewrite <- (id_of_kept t t' m) in Heq by auto.
    apply id_of_inj in Heq as ->; auto.
  - apply set_eq. intros id. rewrite elem_of_union, elem_of_singleton, !elem_of_groups. split.
    + intros (m & Hm & ->). rewrite Hp in Hm. apply elem_of_cons in Hm as [->|Hm]; [by left|right].
      exists m. rewrite (id_of_kept t t'); auto.
    + intros [->|(m & Hm & ->)]; [by exists n|]. exists m. rewrite (id_of_kept t t'); auto.
Qed.

Lemma groups_left t n t' : n ∈ tox_conference_get_chatlist t -> parted t n t' ->
  groups_of t' = groups_of t ∖ {[id_of t n]}.
Proof.
  intros Hn (Hp & Hk). apply set_eq. intros id.
  rewrite elem_of_difference, elem_of_singleton, !elem_of_groups.
  assert (forall m, m ∈ tox_conference_get_chatlist t' <-> m <> n /\ m ∈ tox_conference_get_chatlist t) as Hin
    by (intros m; by rewrite Hp, list_elem_of_filter).
  split.
  - intros (m & Hm & ->). pose proof Hm as [Hne Hmt]%Hin. rewrite (id_of_kept t t') by auto.
    split; [by exists m|]. intros Heq. by apply id_of_inj in Heq.
  - intros [(m & Hm & ->) Hne]. exists m. assert (m <> n) by congruence.
    assert (m ∈ tox_conference_get_chatlist t') by by apply Hin. by rewrite (id_of_kept t t').
Qed.

(** ** The calls of the adapter *)

Context {T : ToxLaws tox}.

Lemma has_text_error rc : has_text rc -> i32 rc = rc /\ rc < 0.
Proof.
  intros (code & text & Hin%error_codes_range & ->). unfold ELA_DHT_ERROR.
  rewrite ELA_MK_ERROR_value by (unfold ELAF_DHT; lia). unfold ELAF_DHT. split; [machine_int|lia].
Qed.

Lemma general_error code : 0 <= code < 256 ->
  i32 (ELA_GENERAL_ERROR code) = ELA_GENERAL_ERROR code /\ ELA_GENERAL_ERROR code < 0.
Proof.
  intros Hc. unfold ELA_GENERAL_ERROR. rewrite ELA_MK_ERROR_value by (unfold ELAF_GENERAL; lia).
  unfold ELAF_GENERAL. split; [machine_int|lia].
Qed.

Lemma general_negative code : 0 <= code < 256 -> i32 (i32 (ELA_GENERAL_ERROR code)) < 0.
Proof. intros Hc. destruct (general_error code Hc) as [E ?]. by rewrite !E. Qed.

Lemma general_fails code id (s : gset string) (P : Prop) : 0 <= code < 256 -> id ∉ s ->
  if i32 (ELA_GENERAL_ERROR code) <? 0 then i32 (i32 (ELA_GENERAL_ERROR code)) < 0 /\ (id ∉ s) else P.
Proof. intros Hc Hid. destruct (general_error code Hc) as [E Hlt]. by rewrite !E, (proj2 (Z.ltb_lt _ _) Hlt). Qed.

Lemma code_error {E} `{ToxErrorLaws E} (e : E) : tox_ok e = false ->
  (dht_code e <? 0) = true /\ i32 (dht_code e) < 0.
Proof.
  intros He. destruct (has_text_error _ (dht_code_error e He)) as [-> Hlt].
  split; [by apply Z.ltb_lt|done].
Qed.

Lemma groupid_of_number w n len : n ∈ tox_conference_get_chatlist (dht_state w) -> ELA_MAX_ID_LEN < len ->
  get_groupid_by_number w n len = Ok (Some (id_of (dht_state w) n), w).
Proof.
  intros Hn Hlen. unfold ELA_MAX_ID_LEN in Hlen.
  destruct (id_of_spec _ _ Hn) as (Hs & k & Hk & Hl & Hid & _).
  pose proof (conference_number _ _ Hn) as Hne%Z.eqb_neq.
  unfold get_groupid_by_number, dht_group_get_public_key, written, ELA_MAX_ID_LEN.
  rewrite (proj2 (Z.geb_le _ _)), Hne, Hk, Hl by lia. rewrite Hid in *.
  change (Z.of_nat 32 <=? DHT_PUBLIC_KEY_SIZE) with true. cbn [mbind Res_bind negb Z.ltb Z.compare c_assert].
  by rewrite strcpy_Ok by lia.
Qed.

Lemma number_of_group w n : n ∈ tox_conference_get_chatlist (dht_state w) ->
  get_group_number w (id_of (dht_state w) n) = (0, n).
Proof.
  intros (_ & k & _ & Hl & _ & Hd & Hf)%id_of_spec. unfold get_group_number.
  unfold DHT_PUBLIC_KEY_SIZE. rewrite Hd, Hl. unfold dht_group_number_by_public_key. by rewrite Hf.
Qed.

(** A number found for an identifier is that of the group with this identifier. *)
Lemma group_number_inv w id rc n : get_group_number w id = (rc, n) ->
  if rc <? 0 then i32 rc < 0 /\ id ∉ groups_of (dht_state w)
  else rc = 0 /\ n ∈ tox_conference_get_chatlist (dht_state w) /\ id = id_of (dht_state w) n.
Proof.
  intros Hg. destruct (decide (id ∈ groups_of (dht_state w))) as [(m & Hm & ->)%elem_of_groups|Hid].
  { rewrite number_of_group in Hg by done. by injection Hg as <- <-. }
  unfold get_group_number in Hg.
  destruct (base58_decode id DHT_PUBLIC_KEY_SIZE) as [k|] eqn:Hd.
  2:{ injection Hg as <- <-. by apply general_fails. }
  case_match; [injection Hg as <- <-; by apply general_fails|].
  unfold dht_group_number_by_public_key in Hg.
  destruct (tox_conference_by_id _ k) as [m e] eqn:Hb. destruct (tox_ok e) eqn:Ho; cbn [negb] in Hg.
  - destruct (conference_by_id _ _ _ _ Hb Ho) as [Hm Hk]. destruct Hid. apply elem_of_groups.
    exists m. split; [done|]. unfold id_of. rewrite Hk. cbn. by rewrite (base58_canonical _ _ _ Hd).
  - destruct (code_error e Ho) as [Hlt _]. change (dht_code e) with (__dht_group_number_by_public_key_error e) in Hlt.
    rewrite Hlt in Hg. injection Hg as <- <-. by apply general_fails.
Qed.

Lemma friend_number_max w id rc n : get_friend_number w id = (rc, n) -> (rc <? 0) = false -> n <> UINT32_MAX.
Proof.
  intros Hg Hrc ->. unfold get_friend_number in Hg.
  destruct (base58_decode _ _); [|by simplify_eq]. case_match; [by simplify_eq|]. cbn in Hg.
  unfold ToxDht.dht_get_friend_number in Hg.
  destruct (tox_friend_by_public_key _ _) as [f e] eqn:E. destruct (f =? UINT32_MAX) eqn:Ef.
  - apply Z.eqb_eq in Ef as ->. pose proof (tox_friend_by_public_key_fails _ _ _ E) as [Hlt _]%code_error.
    change (dht_code e) with (__dht_friend_by_pk_error e) in Hlt. rewrite Hlt in Hg. by simplify_eq.
  - apply Z.eqb_neq in Ef. cbn in Hg. congruence.
Qed.

(** ** Creating, joining, leaving *)

(** The calls that change which groups the node is in, with what they give. *)
Inductive group_call :=
| NewGroup (len : Z)
| JoinGroup (friendid : option string) (cookie : option (list byte)) (len : Z)
| LeaveGroup (groupid : string).

Definition run_group (c : group_call) w : Res (option string * ElaCarrier tox) :=
  match c with
  | NewGroup len => ela_new_group w len
  | JoinGroup friendid cookie len => ela_group_join w friendid cookie len
  | LeaveGroup groupid =>
      '(rc, w') ← ela_leave_group w (Some groupid); Ok (if rc =? 0 then Some groupid else None, w')
  end.

(** What a call does to a set of identifiers. *)
Definition group_spec (c : group_call) (s : gset string) (r : option string) (s' : gset string) : Prop :=
  match r with
  | None => s' = s
  | Some id =>
      match c with
      | LeaveGroup groupid => id = groupid /\ (id ∈ s) /\ s' = s ∖ {[id]}
      | _ => (id ∉ s) /\ s' = ({[id]} ∪ s)
      end
  end.

(** A call of the node that returns, with nothing but toxcore and the error changed. *)
Definition group_outcome (c : group_call) w (m : Res (option string * ElaCarrier tox)) : Prop :=
  exists r w', m = Ok (r, w') /\
    group_spec c (groups_of (dht_state w)) r (groups_of (dht_state w')) /\
    (r = None -> last_error w' < 0) /\
    { w' with dht_state := dht_state w; last_error := last_error w } = w.

Lemma outcome_fails c w code : i32 code < 0 -> group_outcome c w (no_group code w).
Proof. intros Hc. eexists _, _. split; [done|]. split_and!; [done|done|by destruct w]. Qed.

Lemma friend_number_negative w id rc n : get_friend_number w id = (rc, n) -> (rc <? 0) = true -> i32 rc < 0.
Proof.
  intros Hg Hrc. unfold get_friend_number in Hg.
  destruct (base58_decode _ _); [|injection Hg as <- _; by apply general_negative].
  case_match; [injection Hg as <- _; by apply general_negative|].
  destruct (Carrier.dht_get_friend_number _ _) as [rc0 f]. case_match eqn:Hlt; injection Hg as <- _.
  - by apply general_negative.
  - congruence.
Qed.

(** The common end of creating and joining. *)
Lemma outcome_entered c w (rc n : Z) t len (ok : bool) :
  ELA_MAX_ID_LEN < len -> (forall g, c <> LeaveGroup g) ->
  (if ok then joined (dht_state w) n t else same_conferences (dht_state w) t) ->
  (if ok then rc = 0 else (rc <? 0) = true /\ i32 rc < 0) ->
  group_outcome c w (if rc <? 0 then no_group rc { w with dht_state := t }
                     else name_group { w with dht_state := t } n len).
Proof.
  intros Hlen Hc Ht Hrc. destruct ok.
  - subst rc. change (0 <? 0) with false. destruct (groups_joined _ _ _ Ht) as (Hn & Hfresh & Hg).
    unfold name_group. rewrite groupid_of_number by done. eexists _, _. split; [done|].
    split_and!; [|done|by destruct w]. cbn. destruct c; [done..|]. by destruct (Hc groupid).
  - destruct Hrc as [-> Hlt]. eexists _, _. split; [done|]. split_and!; [|done|by destruct w].
    by apply groups_same.
Qed.

Lemma new_outcome w len : group_outcome (NewGroup len) w (ela_new_group w len).
Proof.
  unfold ela_new_group. case_match eqn:Hlen; [by apply outcome_fails|].
  case_match; [by apply outcome_fails|]. unfold dht_group_new.
  destruct (tox_conference_new _) as [[n e] t] eqn:E. pose proof (conference_new _ _ _ _ E) as Ht.
  apply Z.leb_gt in Hlen.
  destruct (tox_ok e) eqn:He; cbn [negb].
  - by apply (outcome_entered _ w 0 n t len true).
  - by apply (outcome_entered _ w _ n t len false), (code_error e He).
Qed.

Lemma join_outcome w friendid cookie len :
  group_outcome (JoinGroup friendid cookie len) w (ela_group_join w friendid cookie len).
Proof.
  unfold ela_group_join.
  destruct friendid as [[|ch f]|]; try by apply outcome_fails.
  destruct cookie as [[|b cookie]|]; try by apply outcome_fails.
  case_match eqn:Hlen; [by apply outcome_fails|]. apply Z.leb_gt in Hlen.
  case_match; [by apply outcome_fails|].
  destruct (get_friend_number w (String ch f)) as [rc m] eqn:Hf.
  destruct (rc <? 0) eqn:Hrc; [by eapply outcome_fails, friend_number_negative|].
  unfold dht_group_join. pose proof (friend_number_max _ _ _ _ Hf Hrc) as ->%Z.eqb_neq. cbn [negb c_assert].
  cbn [mbind Res_bind]. rewrite bool_decide_false by done. cbn [negb c_assert mbind Res_bind].
  destruct (tox_conference_join _ _ _) as [[n e] t] eqn:E. pose proof (conference_join _ _ _ _ _ _ E) as Ht.
  destruct (tox_ok e) eqn:He; cbn [negb].
  - by apply (outcome_entered _ w 0 n t len true).
  - by apply (outcome_entered _ w _ n t len false), (code_error e He).
Qed.

Lemma leave_outcome w id : group_outcome (LeaveGroup id) w (run_group (LeaveGroup id) w) /\
  (is_ready w = true -> id <> "" -> id ∈ groups_of (dht_state w) ->
   exists w', run_group (LeaveGroup id) w = Ok (Some id, w')).
Proof.
  assert (forall code, i32 code < 0 ->
    group_outcome (LeaveGroup id) w ('(rc, w') ← fails code w; Ok (if rc =? 0 then Some id else None, w'))) as Hfail.
  { intros code Hc. by apply (outcome_fails (LeaveGroup id) w code). }
  cbn [run_group]. unfold ela_leave_group. destruct id as [|ch id]; [split; [by apply Hfail|done]|].
  destruct (is_ready w); cbn [negb]; [|split; [by apply Hfail|done]].
  destruct (get_group_number w (String ch id)) as [rc n] eqn:Hg. apply group_number_inv in Hg.
  destruct (rc <? 0); [destruct Hg; split; [by apply Hfail|done]|]. destruct Hg as (_ & Hn & Hid).
  destruct (conference_delete _ _ Hn) as (t & Hdel & Ht). unfold dht_group_leave.
  rewrite (proj2 (Z.eqb_neq _ _) (conference_number _ _ Hn)). cbn [negb c_assert mbind Res_bind].
  rewrite Hdel. cbn. split; [|by eexists]. eexists _, _. split; [done|].
  split_and!; [|done|by destruct w]. cbn. rewrite Hid. split_and!; [done| |by apply groups_left].
  apply elem_of_groups. by exists n.
Qed.

(** C20. The groups of a node are a set of identifiers, and the calls are operations on
    it: creating and joining add an identifier that is not in the set and give it back;
    leaving removes the identifier, and always succeeds for a group of a ready node; a
    call that fails leaves the set as it is and sets an error.  No call fails an
    assertion or overruns a buffer, and nothing of the node but toxcore's state and the
    error changes. *)
Theorem group_calls_refine c w :
  (exists r w', run_group c w = Ok (r, w') /\
    group_spec c (groups_of (dht_state w)) r (groups_of (dht_state w')) /\
    (r = None -> last_error w' < 0) /\
    { w' with dht_state := dht_state w; last_error := last_error w } = w) /\
  (forall id, c = LeaveGroup id -> is_ready w = true -> id <> "" -> id ∈ groups_of (dht_state w) ->
    exists w', run_group c w = Ok (Some id, w')).
Proof.
  destruct c as [len|friendid cookie len|id].
  - split; [apply new_outcome|done].
  - split; [apply join_outcome|done].
  - destruct (leave_outcome w id) as [Ho Hs]. split; [done|]. by intros ? [= <-].
Qed.

(** ** Listing *)

(** What a walk over [l] calls its callback with. *)
Fixpoint walk {A} (callback : option A -> bool) (l : list A) : list (option A) :=
  match l with
  | [] => [None]
  | a :: l => Some a :: (if callback (Some a) then walk callback l else [])
  end.

Lemma walk_all {A} (l : list A) : walk (fun _ => true) l = (Some <$> l) ++ [None].
Proof. induction l as [|a l IH]; cbn; [done|]. by rewrite IH. Qed.

Lemma groups_loop_walk w callback l : (forall n, n ∈ l -> n ∈ tox_conference_get_chatlist (dht_state w)) ->
  groups_loop l w callback = Ok (walk callback (id_of (dht_state w) <$> l), w).
Proof.
  induction l as [|n l IH]; intros Hl; [done|]. cbn [groups_loop].
  rewrite groupid_of_number by (apply Hl || done; by constructor). cbn [mbind Res_bind fmap list_fmap walk].
  case_match; [|done]. rewrite IH; [done|]. intros m Hm. apply Hl. by constructor.
Qed.

(** Walking over the groups of a ready node calls the callback with the identifiers
    of exactly the groups it is in, in toxcore's order, until the callback refuses one,
    and with the end mark after the last one; it changes nothing. *)
Theorem get_groups_lists w callback : is_ready w = true ->
  exists ids, list_to_set ids = groups_of (dht_state w) /\
    ela_get_groups w callback = Ok (Some (walk callback ids), w) /\
    ela_get_groups w (fun _ => true) = Ok (Some ((Some <$> ids) ++ [None]), w).
Proof.
  intros Hr. exists (id_of (dht_state w) <$> tox_conference_get_chatlist (dht_state w)). split; [done|].
  assert (forall cb, ela_get_groups w cb =
    Ok (Some (walk cb (id_of (dht_state w) <$> tox_conference_get_chatlist (dht_state w))), w)) as Hw.
  { intros cb. unfold ela_get_groups, dht_get_group_count, dht_get_group_list. rewrite Hr. cbn [negb].
    case_match eqn:Hn; [|by rewrite groups_loop_walk].
    by destruct (tox_conference_get_chatlist (dht_state w)). }
  by rewrite !Hw, walk_all.
Qed.
End Groups.
