(* ===== verification/GroupTalk.v ===== *)
(** * Titles, messages and peers of groups

    A title that is set is read back, a message reaches the peers with the sender's
    identifier, and the two ways of asking for a peer agree. *)

From Stdlib Require Import Ascii.
From S2P Require Import Prelude ElaError ElaCP ToxErrors ToxDht Carrier Sample CarrierProps.
From S2P Require Import Invite InviteProps InviteReply InviteSafety NodeInv Persistence ToxNode Groups GroupProps.

(** A title that was set is the conference's title, and the conference is still found. *)
Class TitleLaws (tox : Type) `{!Tox tox} := {
  title_set (t : tox) n bs e t' : tox_conference_set_title t n bs = (e, t') -> tox_ok e = true ->
    tox_conference_get_title_size t' n = (Z.of_nat (length bs), TOX_ERR_CONFERENCE_TITLE_OK) /\
    tox_conference_get_title t' n = (bs, TOX_ERR_CONFERENCE_TITLE_OK) /\
    (forall k, tox_conference_by_id t' k = tox_conference_by_id t k)
}.

Lemma strcmp_zero_true buf text : strcmp_zero buf text = Ok true -> exists rest, buf = text ++ rest.
Proof.
  induction text as [|c text IH] in buf |- *; [by exists buf|].
  destruct buf as [|b buf]; cbn; [done|]. case_bool_decide; [|done]. subst.
  intros (rest & ->)%IH. by exists rest.
Qed.

(** The comparison with a text that goes on after the buffer reads past it. *)
Lemma strcmp_zero_short buf more : more <> [] -> strcmp_zero buf (buf ++ more) = Fault Uninitialised.
Proof.
  intros Hm. induction buf as [|b buf IH]; [by destruct more|]. cbn. by rewrite bool_decide_true.
Qed.

Section Talk.
Context `{!HashTables, !Base58} {B : Base58Laws _} {R : Base58Reads _} {tox : Type} `{!Tox tox}
  {C : ConferenceLaws tox} {T : ToxLaws tox}.
Implicit Types (w : ElaCarrier tox) (t : tox).

(** ** Titles *)

Lemma get_title_ok t n len bs : n <> UINT32_MAX ->
  tox_conference_get_title_size t n = (Z.of_nat (length bs), TOX_ERR_CONFERENCE_TITLE_OK) ->
  tox_conference_get_title t n = (bs, TOX_ERR_CONFERENCE_TITLE_OK) ->
  Z.of_nat (length bs) <= len < 2 ^ 31 -> 0 < len ->
  dht_group_get_title t n len = Ok (Z.of_nat (length bs), bs).
Proof.
  intros Hn%Z.eqb_neq Hs Ht Hl Hp. unfold dht_group_get_title, written. rewrite Hn, Hs, Ht.
  rewrite !Z.gtb_ltb, (proj2 (Z.ltb_lt _ _) Hp), (proj2 (Z.ltb_ge _ _)), (proj2 (Z.leb_le _ _)) by lia.
  cbn. do 2 f_equal. unfold as_int. machine_int.
Qed.

(** A title that was read is read the same with more room. *)
Lemma get_title_grow t n len len' rc buf : dht_group_get_title t n len = Ok (rc, buf) -> 0 < rc ->
  len <= len' -> dht_group_get_title t n len' = Ok (rc, buf) /\ Z.of_nat (length buf) <= len.
Proof.
  intros Hg Hrc Hl. unfold dht_group_get_title in *. apply Res_bind_Ok in Hg as ([] & Hn%c_assert_Ok & Hg).
  apply Res_bind_Ok in Hg as ([] & Hp%c_assert_Ok & Hg). rewrite Hn, !Z.gtb_ltb in *.
  apply Z.ltb_lt in Hp. rewrite (proj2 (Z.ltb_lt 0 len')) by lia. cbn [c_assert mbind Res_bind].
  destruct (tox_conference_get_title_size t n) as [size e].
  destruct e; cbn [tox_ok TOX_ERR_CONFERENCE_TITLE_class negb] in *;
    try (injection Hg as <- <-; by vm_compute in Hrc).
  rewrite Z.gtb_ltb in *. case_match eqn:Hsz; [injection Hg as <- <-; by vm_compute in Hrc|].
  apply Z.ltb_ge in Hsz. rewrite (proj2 (Z.ltb_ge len' size)) by lia.
  destruct (tox_conference_get_title t n) as [bs e].
  destruct e; cbn [tox_ok TOX_ERR_CONFERENCE_TITLE_class negb] in *;
    try (injection Hg as <- <-; by vm_compute in Hrc).
  unfold written in *. destruct (Z.leb_spec (Z.of_nat (length bs)) len); cbn [mbind Res_bind] in *; [|done].
  rewrite (proj2 (Z.leb_le _ _)) by lia. cbn [mbind Res_bind]. by injection Hg as <- <-.
Qed.

Lemma group_number_frame w t id :
  (forall k, tox_conference_by_id t k = tox_conference_by_id (dht_state w) k) ->
  get_group_number { w with dht_state := t } id = get_group_number w id.
Proof.
  intros Hk. unfold get_group_number, dht_group_number_by_public_key.
  case_match; [|done]. change (dht_state { w with dht_state := t }) with t. by rewrite Hk.
Qed.

(** A title is read back: after [ela_group_set_title] returned 0, whether it changed
    the title or found it already set, [ela_group_get_title] with room for a title
    fills the whole buffer, and the string in it is the title. *)
Theorem title_roundtrip `{!TitleLaws tox} w w' groupid title len :
  Init.Byte.x00 ∉ String.list_byte_of_string title ->
  ela_group_set_title w (Some groupid) (Some title) = Ok (0, w') ->
  ELA_MAX_GROUP_TITLE_LEN < len < 2 ^ 31 ->
  exists buf rest, ela_group_get_title w' (Some groupid) len = Ok (Some buf, w') /\
    Z.of_nat (length buf) = len /\ c_string buf = Some (title, rest).
Proof.
  intros Hnul Hset Hlen. unfold ela_group_set_title in Hset. unfold ELA_MAX_GROUP_TITLE_LEN in *.
  destruct groupid as [|cg g]; [by destruct title|]. destruct title as [|ct title]; [done|].
  destruct (strlen (String ct title) >? 127) eqn:Hl; [done|]. rewrite Z.gtb_ltb in Hl. apply Z.ltb_ge in Hl.
  destruct (is_ready w) eqn:Hr; [|done]. cbn [negb] in Hset.
  destruct (get_group_number w (String cg g)) as [rc n] eqn:Hg. pose proof Hg as Hinv%group_number_inv.
  destruct (rc <? 0) eqn:Hrc; [done|]. destruct Hinv as (-> & Hn & _). apply conference_number in Hn.
  apply Res_bind_Ok in Hset as ([rc buf] & Hget & Hset).
  destruct (rc <? 0) eqn:Hrc2; [done|]. apply Res_bind_Ok in Hset as (same & Hsame & Hset).
  assert (exists bs more, ela_group_get_title w' (Some (String cg g)) len = Ok (Some (splice 0 bs (zeroed len)), w') /\
    bs = c_bytes (String ct title) ++ more /\ Z.of_nat (length bs) <= len) as (bs & more & -> & -> & Hbs).
  { destruct same.
    - injection Hset as <-. destruct (rc >? 1) eqn:Hrc1; [|done]. rewrite Z.gtb_ltb in Hrc1. apply Z.ltb_lt in Hrc1.
      apply strcmp_zero_true in Hsame as (more & ->).
      destruct (get_title_grow _ _ _ len _ _ Hget) as [Hget' Hb]; [lia..|].
      exists (c_bytes (String ct title) ++ more), more. split_and!; [|done|lia].
      unfold ela_group_get_title. by rewrite (proj2 (Z.eqb_neq len 0)), Hr, Hg, Hget' by lia; cbn; rewrite Hrc2.
    - apply Res_bind_Ok in Hset as ([rc3 t] & Hs & Hset). unfold dht_group_set_title in Hs.
      rewrite (proj2 (Z.eqb_neq _ _) Hn) in Hs. cbn [negb c_assert mbind Res_bind] in Hs.
      destruct (tox_conference_set_title _ n _) as [e t'] eqn:Ht. destruct (tox_ok e) eqn:He; cbn [negb] in Hs.
      + injection Hs as <- <-. injection Hset as <-.
        destruct (title_set _ _ _ _ _ Ht He) as (Hsz & Htt & Hby).
        exists (c_bytes (String ct title)), []. rewrite app_nil_r, length_c_bytes. split_and!; [|done|lia].
        unfold ela_group_get_title. change (is_ready { w with dht_state := t' }) with (is_ready w).
        change (dht_state { w with dht_state := t' }) with t'. rewrite (proj2 (Z.eqb_neq len 0)), Hr by lia.
        rewrite (group_number_frame w t'), Hg by done. cbn [negb Z.ltb Z.compare]. rewrite (get_title_ok _ _ _ _ Hn Hsz Htt) by (rewrite ?length_c_bytes; done || lia).
        cbn. by rewrite (proj2 (Z.ltb_ge _ _)) by lia.
      + injection Hs as <- <-. destruct (code_error e He) as [Hlt _].
        change (dht_code e) with (__dht_group_title_error e) in Hlt. by rewrite Hlt in Hset. }
  rewrite length_app in Hbs.
  assert (splice 0 (c_bytes (String ct title) ++ more) (zeroed len) =
    c_bytes (String ct title) ++ more ++ drop (length (c_bytes (String ct title) ++ more)) (zeroed len)) as ->
    by (by rewrite app_assoc).
  do 2 eexists. split; [done|]. split; [|by apply c_string_bytes].
  rewrite !length_app, length_drop, length_zeroed. lia.
Qed.

(** A title that another client set without a terminator, and that the new title
    goes on from, makes [ela_group_set_title] compare past the bytes it read, in a
    buffer that was never set. *)
Theorem title_unterminated w groupid title n bs more :
  is_ready w = true -> groupid <> "" -> get_group_number w groupid = (0, n) ->
  tox_conference_get_title_size (dht_state w) n = (Z.of_nat (length bs), TOX_ERR_CONFERENCE_TITLE_OK) ->
  tox_conference_get_title (dht_state w) n = (bs, TOX_ERR_CONFERENCE_TITLE_OK) ->
  (2 <= length bs)%nat -> String.list_byte_of_string title = bs ++ more ->
  strlen title <= ELA_MAX_GROUP_TITLE_LEN ->
  ela_group_set_title w (Some groupid) (Some title) = Fault Uninitialised.
Proof.
  intros Hr Hne Hg Hs Ht Hl Htitle Hlen. unfold ela_group_set_title, ELA_MAX_GROUP_TITLE_LEN in *.
  destruct groupid as [|cg g]; [done|].
  assert (strlen title = Z.of_nat (length bs + length more)) as Hst.
  { pose proof (length_c_bytes title) as Hc. unfold c_bytes in Hc. rewrite Htitle, !length_app in Hc. cbn in Hc. lia. }
  destruct title as [|ct title]; [change (strlen "") with 0 in Hst; lia|]. rewrite Z.gtb_ltb, (proj2 (Z.ltb_ge _ _)), Hr, Hg by done.
  pose proof (group_number_inv _ _ _ _ Hg) as (_ & Hn%conference_number & _).
  change (0 <? 0) with false. cbv iota. cbn [negb].
  rewrite (get_title_ok _ _ _ _ Hn Hs Ht) by lia. cbn [mbind Res_bind].
  rewrite (proj2 (Z.ltb_ge _ 0)), Z.gtb_ltb, (proj2 (Z.ltb_lt 1 _)) by lia.
  unfold c_bytes. rewrite Htitle, <- app_assoc, strcmp_zero_short; [done|]. by destruct more.
Qed.

(** ** Messages *)

Lemma peerid_of_number w n p key e len : n <> UINT32_MAX -> p <> UINT32_MAX ->
  tox_conference_peer_get_public_key (dht_state w) n p = (key, e) -> tox_ok e = true ->
  length key = 32%nat -> ELA_MAX_ID_LEN < len ->
  get_peerid_by_number w n p len = Ok (Some (base58_encode key), w).
Proof.
  intros Hn%Z.eqb_neq Hp%Z.eqb_neq Hk He Hl Hlen. unfold ELA_MAX_ID_LEN in *.
  pose proof (base58_key_length _ Hl) as Hs.
  unfold get_peerid_by_number, dht_group_get_peer_public_key, written, ELA_MAX_ID_LEN.
  rewrite (proj2 (Z.geb_le _ _)), Hn, Hp, Hk, He, Hl by lia.
  change (Z.of_nat 32 <=? DHT_PUBLIC_KEY_SIZE) with true. cbn [mbind Res_bind negb Z.ltb Z.compare c_assert].
  by rewrite strcpy_Ok by lia.
Qed.

(** C21. A message that [ela_group_send_message] accepted has between 1 and 1024 bytes and
    was given to toxcore, unchanged, for the conference of the group; and when toxcore
    brings it to a node that is in the same conference, with a peer number that has the
    sender's key, that node's callback gets the same group, the sender's user id and
    the same bytes. *)
Theorem group_message_delivered w w' groupid msg :
  ela_group_send_message w (Some groupid) (Some msg) = Ok (0, w') ->
  1 <= Z.of_nat (length msg) <= ELA_MAX_APP_MESSAGE_LEN /\
  exists n e, n ∈ tox_conference_get_chatlist (dht_state w) /\ groupid = id_of (dht_state w) n /\
    tox_conference_send_message (dht_state w) n TOX_MESSAGE_TYPE_NORMAL msg = (e, dht_state w') /\
    tox_ok e = true /\
    forall wr n' p key e', n' ∈ tox_conference_get_chatlist (dht_state wr) ->
      tox_conference_get_id (dht_state wr) n' = tox_conference_get_id (dht_state w) n ->
      p <> UINT32_MAX -> tox_conference_peer_get_public_key (dht_state wr) n' p = (key, e') ->
      tox_ok e' = true -> length key = 32%nat -> base58_encode key = userid (me w) ->
      notify_group_message_cb n' p msg wr =
        Ok (emit_if (cb_group_message (callbacks wr)) (EvGroupMessage groupid (userid (me w)) msg) wr).
Proof.
  unfold ela_group_send_message. intros Hs. destruct groupid as [|c g]; [by destruct msg|].
  destruct msg as [|b msg]; [done|]. destruct (Z.of_nat _ >? _) eqn:Hl; [done|].
  rewrite Z.gtb_ltb in Hl. apply Z.ltb_ge in Hl. split; [cbn in *; lia|].
  destruct (is_ready w); [|done]. cbn [negb] in Hs.
  destruct (get_group_number w (String c g)) as [rc n] eqn:Hg. apply group_number_inv in Hg.
  destruct (rc <? 0); [done|]. destruct Hg as (_ & Hn & Hid).
  apply Res_bind_Ok in Hs as ([rc1 t] & Hsend & Hs). unfold dht_group_send_message in Hsend.
  apply Res_bind_Ok in Hsend as ([] & _ & Hsend). apply Res_bind_Ok in Hsend as ([] & _ & Hsend).
  destruct (tox_conference_send_message _ n _ _) as [e t'] eqn:Ht. destruct (tox_ok e) eqn:He; cbn [negb] in Hsend.
  2:{ injection Hsend as <- <-. destruct (code_error e He) as [Hlt _].
      change (dht_code e) with (__dht_group_send_message_error e) in Hlt. by rewrite Hlt in Hs. }
  injection Hsend as <- <-. injection Hs as <-. exists n, e. split_and!; [done..|].
  intros wr n' p key e' Hn' Hconf Hp Hkey He' Hlk Hme. unfold notify_group_message_cb, with_peer.
  rewrite groupid_of_number by done. cbn [mbind Res_bind].
  assert (id_of (dht_state wr) n' = String c g) as ->.
  { rewrite Hid. unfold id_of. by rewrite Hconf. }
  rewrite (peerid_of_number wr n' p key e' (ELA_MAX_ID_LEN + 1)) by (done || by eapply conference_number). by rewrite Hme.
Qed.

(** ** Peers *)

(** What toxcore promises about the peers of a conference: the name it copies has the
    size it tells, keys have 32 bytes, and a conference has a name for each number. *)
Class PeerLaws : Prop := {
  peer_name_size t n p s nm : tox_conference_peer_get_name_size t n p = (s, TOX_ERR_CONFERENCE_PEER_QUERY_OK) ->
    tox_conference_peer_get_name t n p = (nm, TOX_ERR_CONFERENCE_PEER_QUERY_OK) -> s = Z.of_nat (length nm);
  peer_key_size t n p k : tox_conference_peer_get_public_key t n p = (k, TOX_ERR_CONFERENCE_PEER_QUERY_OK) ->
    length k = 32%nat;
  peer_count_range t n c e : tox_conference_peer_count t n = (c, e) -> 0 <= c <= UINT32_MAX
}.

(** A peer is visible when toxcore gives its key and a name that fits. *)
Definition peer_at t (n i : Z) : option ElaGroupPeer :=
  let '(size, e) := tox_conference_peer_get_name_size t n i in
  let '(nm, e') := tox_conference_peer_get_name t n i in
  let '(key, e'') := tox_conference_peer_get_public_key t n i in
  if tox_ok e && ((size =? 0) || ((size <=? ELA_MAX_USER_NAME_LEN + 1) && tox_ok e')) && tox_ok e''
  then Some {| gp_name := if size =? 0 then [byte.of_Z 0] else nm; gp_userid := base58_encode key |}
  else None.

Context {P : PeerLaws}.

Lemma tox_ok_peer (e : TOX_ERR_CONFERENCE_PEER_QUERY) : tox_ok e = true -> e = TOX_ERR_CONFERENCE_PEER_QUERY_OK.
Proof. by destruct e. Qed.

Lemma peer_error (e : TOX_ERR_CONFERENCE_PEER_QUERY) : tox_ok e = false ->
  (__dht_group_peer_query_error e <? 0) = true /\ i32 (__dht_group_peer_query_error e) < 0.
Proof. intros He. exact (code_error e He). Qed.

(** Reading the key of a peer, and reading its name. *)
Lemma peer_key_read t n i key e : n <> UINT32_MAX -> i <> UINT32_MAX ->
  tox_conference_peer_get_public_key t n i = (key, e) ->
  exists rc key', dht_group_get_peer_public_key t n i = Ok (rc, key') /\
    (rc <? 0) = negb (tox_ok e) /\ (tox_ok e = true -> key' = key /\ length key = 32%nat).
Proof.
  intros Hn%Z.eqb_neq Hi%Z.eqb_neq Hk. unfold dht_group_get_peer_public_key. rewrite Hn, Hi, Hk.
  cbn [negb c_assert mbind Res_bind]. destruct (tox_ok e) eqn:He; cbn [negb].
  - pose proof (tox_ok_peer e He) as ->. pose proof (peer_key_size _ _ _ _ Hk) as Hl. unfold written. rewrite Hl.
    exists 0, key. done.
  - destruct (peer_error e He) as [Hlt _]. do 2 eexists. split; [done|]. by rewrite Hlt.
Qed.

Lemma peer_name_read t n i size e nm e' : n <> UINT32_MAX -> i <> UINT32_MAX ->
  tox_conference_peer_get_name_size t n i = (size, e) -> tox_conference_peer_get_name t n i = (nm, e') ->
  let b := tox_ok e && ((size =? 0) || ((size <=? ELA_MAX_USER_NAME_LEN + 1) && tox_ok e')) in
  exists rc nm', dht_group_get_peer_name t n i (ELA_MAX_USER_NAME_LEN + 1) = Ok (rc, nm') /\
    (rc <? 0) = negb b /\ (b = true -> rc = size /\ nm' = if size =? 0 then [] else nm).
Proof.
  intros Hn%Z.eqb_neq Hi%Z.eqb_neq Hs Hnm b. subst b. unfold dht_group_get_peer_name, ELA_MAX_USER_NAME_LEN.
  rewrite Hn, Hi, Hs, Hnm. change (63 + 1) with 64. cbn [negb c_assert mbind Res_bind Z.gtb Z.compare].
  pose proof (tox_conference_peer_name_size _ _ _ _ _ Hs) as Hpos.
  destruct (tox_ok e) eqn:He; cbn [negb andb].
  2:{ destruct (peer_error e He) as [Hlt _]. do 2 eexists. split; [done|]. by rewrite Hlt. }
  destruct (Z.eqb_spec size 0) as [->|Hz]; cbn [orb negb]; [by do 2 eexists|].
  rewrite Z.gtb_ltb. destruct (Z.leb_spec size 64) as [Hle|Hgt]; cbn [andb negb].
  2:{ rewrite (proj2 (Z.ltb_lt _ _) Hgt). by do 2 eexists. }
  rewrite (proj2 (Z.ltb_ge _ _) Hle). destruct (tox_ok e') eqn:He'; cbn [negb].
  2:{ destruct (peer_error e' He') as [Hlt _]. do 2 eexists. split; [done|]. by rewrite Hlt. }
  pose proof (tox_ok_peer e He) as ->. pose proof (tox_ok_peer e' He') as ->.
  pose proof (peer_name_size _ _ _ _ _ Hs Hnm) as Hsz. unfold written.
  rewrite <- Hsz, (proj2 (Z.leb_le _ _) Hle). cbn [mbind Res_bind]. do 2 eexists. split; [done|].
  assert (as_int size = size) as -> by (unfold as_int; machine_int).
  by rewrite (proj2 (Z.ltb_ge _ _) Hpos).
Qed.

Lemma read_peer_spec w n i : n <> UINT32_MAX -> i <> UINT32_MAX ->
  read_peer w n i = Ok (peer_at (dht_state w) n i).
Proof.
  intros Hn Hi. unfold read_peer, peer_at.
  destruct (tox_conference_peer_get_name_size _ n i) as [size e] eqn:Hs.
  destruct (tox_conference_peer_get_name _ n i) as [nm e'] eqn:Hnm.
  destruct (tox_conference_peer_get_public_key _ n i) as [key e''] eqn:Hk.
  destruct (peer_name_read _ _ _ _ _ _ _ Hn Hi Hs Hnm) as (rc & nm' & -> & Hrc & Hname).
  cbn [mbind Res_bind]. rewrite Hrc. destruct (tox_ok e && _); cbn [negb andb]; [|done].
  destruct (Hname eq_refl) as [-> ->].
  destruct (peer_key_read _ _ _ _ _ Hn Hi Hk) as (rc' & key' & -> & Hrc' & Hkey).
  cbn [mbind Res_bind]. rewrite Hrc'. destruct (tox_ok e''); cbn [negb]; [|done].
  destruct (Hkey eq_refl) as [-> Hl]. pose proof (base58_key_length _ Hl). unfold ELA_MAX_ID_LEN.
  rewrite Z.geb_leb, (proj2 (Z.leb_gt _ _)) by lia. by destruct (size =? 0).
Qed.

Lemma peers_loop_walk w n callback : forall count i, n <> UINT32_MAX -> 0 <= i ->
  i + Z.of_nat count <= UINT32_MAX ->
  peers_loop count w n i callback =
    Ok (walk callback (omap (peer_at (dht_state w) n) (seqZ i (Z.of_nat count)))).
Proof.
  intros count. induction count as [|count IH]; intros i Hn Hi Hc; [done|].
  cbn [peers_loop]. rewrite read_peer_spec by (done || lia). cbn [mbind Res_bind].
  rewrite seqZ_cons by lia. cbn [omap list_omap].
  replace (Z.pred (Z.of_nat (S count))) with (Z.of_nat count) by lia.
  replace (Z.succ i) with (i + 1) by lia.
  destruct (peer_at (dht_state w) n i) as [peer|]; [|by apply IH; lia].
  cbn [walk]. case_match; [|done]. by rewrite IH by lia.
Qed.

(** The peers of a group that the walk shows, in order. *)
Definition visible_peers t (n count : Z) : list ElaGroupPeer := omap (peer_at t n) (seqZ 0 count).

Lemma peer_count_read w n count e : n <> UINT32_MAX ->
  tox_conference_peer_count (dht_state w) n = (count, e) -> tox_ok e = true ->
  dht_group_peer_count (dht_state w) n = Ok (0, count).
Proof. intros Hn%Z.eqb_neq Hc He. unfold dht_group_peer_count. by rewrite Hn, Hc, He. Qed.

(** Walking over the peers of a group calls the callback with every peer whose key
    toxcore gives and whose name fits, in order, until the callback refuses one, with
    the end mark after the last one; a peer without a name has the empty one. *)
Theorem group_peers_listed w groupid n count e callback :
  is_ready w = true -> groupid <> "" -> get_group_number w groupid = (0, n) ->
  tox_conference_peer_count (dht_state w) n = (count, e) -> tox_ok e = true ->
  ela_group_get_peers w (Some groupid) callback =
    Ok (Some (walk callback (visible_peers (dht_state w) n count)), w).
Proof.
  intros Hr Hne Hg Hc He. unfold ela_group_get_peers. destruct groupid as [|ch g]; [done|].
  rewrite Hr, Hg. change (0 <? 0) with false. cbn [negb].
  pose proof (group_number_inv _ _ _ _ Hg) as (_ & Hn%conference_number & _).
  rewrite (peer_count_read _ _ _ _ Hn Hc He). cbn [mbind Res_bind]. change (0 <? 0) with false. cbv iota.
  destruct (peer_count_range _ _ _ _ Hc). rewrite peers_loop_walk by (done || lia).
  by rewrite Z2Nat.id by lia.
Qed.

(** Peer [i] has the key [k]. *)
Definition has_key t (n i : Z) (k : list byte) : Prop :=
  tox_conference_peer_get_public_key t n i = (k, TOX_ERR_CONFERENCE_PEER_QUERY_OK).

Lemma find_peer_spec w n k count : forall i, n <> UINT32_MAX -> 0 <= i -> i + Z.of_nat count <= UINT32_MAX ->
  exists r, find_peer count w n i k = Ok r /\
    match r with
    | Some j => i <= j < i + Z.of_nat count /\ has_key (dht_state w) n j k
    | None => forall j, i <= j < i + Z.of_nat count -> ~ has_key (dht_state w) n j k
    end.
Proof.
  induction count as [|count IH]; intros i Hn Hi Hc; [exists None; split; [done|lia]|].
  cbn [find_peer]. destruct (tox_conference_peer_get_public_key (dht_state w) n i) as [key e] eqn:Hk.
  destruct (peer_key_read _ _ i _ _ Hn ltac:(lia) Hk) as (rc & key' & -> & Hrc & Hkey).
  cbn [mbind Res_bind]. rewrite Hrc.
  destruct (IH (i + 1) Hn ltac:(lia) ltac:(lia)) as (r & Hf & Hr).
  assert (~ has_key (dht_state w) n i k -> exists r, find_peer count w n (i + 1) k = Ok r /\
    match r with
    | Some j => i <= j < i + Z.of_nat (S count) /\ has_key (dht_state w) n j k
    | None => forall j, i <= j < i + Z.of_nat (S count) -> ~ has_key (dht_state w) n j k
    end) as Hnext.
  { intros Hno. exists r. split; [done|]. destruct r as [j|]; [destruct Hr; split; [lia|done]|].
    intros j Hj. destruct (decide (j = i)) as [->|]; [done|]. apply Hr. lia. }
  destruct (tox_ok e) eqn:He; cbn [negb].
  - apply tox_ok_peer in He as ->. destruct (Hkey eq_refl) as [-> _]. case_bool_decide as Hkk.
    + subst. exists (Some i). split; [done|]. split; [lia|done].
    + apply Hnext. unfold has_key. rewrite Hk. congruence.
  - apply Hnext. unfold has_key. rewrite Hk. by intros [= _ ->].
Qed.

Lemma visible_peer_inv t n count peer : peer ∈ visible_peers t n count ->
  exists i, 0 <= i < count /\ peer_at t n i = Some peer.
Proof.
  unfold visible_peers. rewrite list_elem_of_omap. intros (i & Hi%elem_of_seqZ & Hp). exists i. split; [lia|done].
Qed.

(** What is left of [ela_group_get_peer] once the peer was looked for. *)
Lemma get_peer_found w groupid n count e k :
  is_ready w = true -> groupid <> "" -> get_group_number w groupid = (0, n) ->
  tox_conference_peer_count (dht_state w) n = (count, e) -> tox_ok e = true ->
  length k = 32%nat -> base58_encode k <> "" ->
  exists found,
    match found with
    | Some j => 0 <= j < count /\ has_key (dht_state w) n j k
    | None => forall j, 0 <= j < count -> ~ has_key (dht_state w) n j k
    end /\
    ela_group_get_peer w (Some groupid) (Some (base58_encode k)) =
      match found with
      | None => Ok (None, set_last_error (ELA_GENERAL_ERROR ELAERR_NOT_EXIST) w)
      | Some i =>
          '(rc, nm) ← dht_group_get_peer_name (dht_state w) n i (ELA_MAX_USER_NAME_LEN + 1);
          if rc <? 0 then Ok (None, set_last_error rc w)
          else Ok (Some {| gp_name := splice 0 nm (zeroed (ELA_MAX_USER_NAME_LEN + 1));
                           gp_userid := base58_encode k |}, w)
      end.
Proof.
  intros Hr Hne Hg Hc He Hl Hid.
  pose proof (group_number_inv _ _ _ _ Hg) as (_ & Hn%conference_number & _).
  destruct (peer_count_range _ _ _ _ Hc) as [Hc0 Hcm].
  destruct (find_peer_spec w n k (Z.to_nat count) 0 Hn) as (found & Hf & Hs); [lia..|].
  exists found. rewrite Z2Nat.id in Hs by lia. split; [by destruct found|].
  unfold ela_group_get_peer. destruct groupid as [|cg g]; [done|].
  destruct (base58_encode k) as [|ck ks] eqn:Hek; [done|].
  unfold DHT_PUBLIC_KEY_SIZE. rewrite <- Hek, base58_decode_encode, Hl, Hr, Hg by done.
  change (0 <? 0) with false. change (Z.of_nat 32 =? 32) with true. cbn [negb].
  rewrite (peer_count_read _ _ _ _ Hn Hc He). cbn [mbind Res_bind]. change (0 <? 0) with false. cbv iota.
  rewrite Hf. pose proof (base58_key_length _ Hl).
  by rewrite (strcpy_Ok _ (base58_encode k)) by (unfold ELA_MAX_ID_LEN; lia).
Qed.

(** Asking for a peer by its id agrees with the walk: when the peers of a group have
    different keys, every peer the walk shows is found by its id, with the same name in
    a zeroed buffer; and an id that is no peer's key is refused with NOT_EXIST. *)
Theorem group_peer_lookup w groupid n count e :
  is_ready w = true -> groupid <> "" -> get_group_number w groupid = (0, n) ->
  tox_conference_peer_count (dht_state w) n = (count, e) -> tox_ok e = true ->
  (forall i j k, 0 <= i < count -> 0 <= j < count ->
     has_key (dht_state w) n i k -> has_key (dht_state w) n j k -> i = j) ->
  (forall peer, peer ∈ visible_peers (dht_state w) n count -> gp_userid peer <> "" ->
     ela_group_get_peer w (Some groupid) (Some (gp_userid peer)) =
       Ok (Some {| gp_name := splice 0 (gp_name peer) (zeroed (ELA_MAX_USER_NAME_LEN + 1));
                   gp_userid := gp_userid peer |}, w)) /\
  (forall k, length k = 32%nat -> base58_encode k <> "" ->
     (forall i, 0 <= i < count -> ~ has_key (dht_state w) n i k) ->
     ela_group_get_peer w (Some groupid) (Some (base58_encode k)) =
       Ok (None, set_last_error (ELA_GENERAL_ERROR ELAERR_NOT_EXIST) w)).
Proof.
  intros Hr Hne Hg Hc He Hkeys.
  pose proof (group_number_inv _ _ _ _ Hg) as (_ & Hn%conference_number & _).
  destruct (peer_count_range _ _ _ _ Hc) as [Hc0 Hcm].
  split.
  - intros peer (i & Hi & Hp)%visible_peer_inv Hid. unfold peer_at in Hp.
    destruct (tox_conference_peer_get_name_size _ n i) as [size es] eqn:Hs.
    destruct (tox_conference_peer_get_name _ n i) as [nm e'] eqn:Hnm.
    destruct (tox_conference_peer_get_public_key _ n i) as [key e''] eqn:Hk.
    destruct (tox_ok es && _ && _) eqn:Hb; [|done]. injection Hp as <-. cbn [gp_name gp_userid] in *.
    apply andb_true_iff in Hb as [Hb ->%tox_ok_peer]. pose proof (peer_key_size _ _ _ _ Hk) as Hl.
    destruct (get_peer_found w groupid n count e key) as (found & Hf & ->); [done..|]. destruct found as [j|]; [|by destruct (Hf i Hi)].
    destruct Hf as [Hj Hkj]. assert (j = i) as -> by by eapply Hkeys.
    destruct (peer_name_read _ _ i _ _ _ _ Hn ltac:(lia) Hs Hnm) as (rc & nm' & -> & Hrc & Hname).
    cbn [mbind Res_bind]. rewrite Hrc, Hb. destruct (Hname Hb) as [-> ->]. cbn [negb].
    by destruct (size =? 0).
  - intros k Hl Hid Hno. destruct (get_peer_found w groupid n count e k) as (found & Hf & ->); [done..|].
    destruct found as [j|]; [|done]. destruct Hf as [Hj Hkj]. by destruct (Hno j Hj).
Qed.
End Talk.
