(* ===== verification/TurnServer.v ===== *)
(** * The TURN server of a node (src/carrier/ela_carrier.c, [ela_get_turn_server])

    A relay of toxcore serves as TURN server; the credentials are derived from the key
    that the node shares with it, over a fresh nonce.  The key agreement and the keyed
    hash (libcrystal, libsodium) are an interface. *)

From S2P Require Import Prelude ElaError ElaCP ToxErrors CText Carrier Sample CarrierProps.
From S2P Require Import Invite InviteProps InviteReply InviteSafety NodeInv Persistence ToxDht ToxNode.

Definition ELA_MAX_TURN_SERVER_LEN : Z := 63.
Definition ELA_MAX_TURN_USERNAME_LEN : Z := 127.
Definition ELA_MAX_TURN_PASSWORD_LEN : Z := 63.
Definition ELA_MAX_TURN_REALM_LEN : Z := 127.
Definition TURN_SERVER_PORT : Z := 3478.
Definition TURN_SERVER_USER_SUFFIX : string := "auth.tox".
Definition TURN_REALM : string := "elastos.org".

Record ElaTurnServer := {
  server : string; port : Z; username : string; password : string; realm : string
}.

Class TurnCrypto := {
  symmetric_key : list byte -> list byte -> list byte;
  (* the number of bytes written, and the digest *)
  hmac_sha256 : list byte -> list byte -> Z * list byte
}.

Section Turn.
Context `{!HashTables, !Base58, !TurnCrypto} {tox : Type} `{!Tox tox}.
Implicit Types w : ElaCarrier tox.

(** The node sleeps between two attempts while toxcore goes on: [states] are
    toxcore's states at the attempts, from the [times]-th on. *)
Fixpoint redo_get_tcp_relay (tries : nat) (states : nat -> tox) (times : nat) : option (string * list byte) :=
  match tries with
  | O => None
  | S tries =>
      let '(rc, server, public_key) := dht_get_random_tcp_relay (states times) (ELA_MAX_TURN_SERVER_LEN + 1) in
      if rc <? 0 then redo_get_tcp_relay tries states (S times) else Some (server, public_key)
  end.

(** [base58_encode] into a buffer of [cap] bytes. *)
Definition encode_into (cap : Z) (bs : list byte) : Res string := strcpy cap (base58_encode bs).

Definition ela_get_turn_server w (states : nat -> tox) (nonce : list byte) :
    Res (option ElaTurnServer * ElaCarrier tox) :=
  if negb (is_ready w) then Ok (None, set_last_error (ELA_GENERAL_ERROR ELAERR_NOT_READY) w)
  else
    match redo_get_tcp_relay 5 states 0 with
    | None => Ok (None, set_last_error (ELA_GENERAL_ERROR ELAERR_NOT_EXIST) w)
    | Some (server, public_key) =>
        let secret_key := dht_self_get_secret_key (dht_state w) in
        let shared_key := symmetric_key public_key secret_key in
        let '(rc, digest) := hmac_sha256 shared_key nonce in
        if negb (rc =? SHA256_BYTES) then Ok (None, w)
        else
          password ← encode_into (ELA_MAX_TURN_PASSWORD_LEN + 1) digest;
          nonce_str ← encode_into 64 nonce;
          username ← strcpy (ELA_MAX_TURN_USERNAME_LEN + 1)
                       (userid (me w) +:+ "@" +:+ nonce_str +:+ "." +:+ TURN_SERVER_USER_SUFFIX);
          realm ← strcpy (ELA_MAX_TURN_REALM_LEN + 1) TURN_REALM;
          Ok (Some {| server := server; port := TURN_SERVER_PORT; username := username;
                      password := password; realm := realm |}, w)
    end.

(** ** The credentials *)

Lemma print_byte_length (b : byte) : strlen (print_llu (byte.unsigned b)) <= 3.
Proof. destruct b; vm_compute; congruence. Qed.

Lemma inet_ntop_length addr : length addr = 4%nat -> strlen (inet_ntop addr) <= 15.
Proof.
  intros Hl. destruct addr as [|a [|b [|c [|d [|]]]]]; try done. unfold inet_ntop. cbn [fmap list_fmap String.concat].
  rewrite !strlen_app. change (strlen ".") with 1.
  pose proof (print_byte_length a). pose proof (print_byte_length b).
  pose proof (print_byte_length c). pose proof (print_byte_length d). lia.
Qed.

(** The first attempt that finds a relay decides. *)
Lemma relay_found states addr key : forall i tries times, (i < tries)%nat ->
  (forall j, (j < i)%nat -> (tox_self_get_random_tcp_relay (states (times + j)%nat)).1.1 < 0) ->
  tox_self_get_random_tcp_relay (states (times + i)%nat) = (0, addr, key) -> length addr = 4%nat ->
  redo_get_tcp_relay tries states times = Some (inet_ntop addr, key).
Proof.
  intros i. induction i as [|i IH]; intros tries times Hi Hbad Hgood Hl; (destruct tries as [|tries]; [lia|]);
    cbn [redo_get_tcp_relay]; unfold dht_get_random_tcp_relay.
  - rewrite Nat.add_0_r in Hgood. rewrite Hgood. change (0 <? 0) with false. cbv iota.
    pose proof (inet_ntop_length _ Hl). unfold ELA_MAX_TURN_SERVER_LEN.
    by rewrite Z.geb_leb, (proj2 (Z.leb_gt _ _)) by lia.
  - pose proof (Hbad 0%nat ltac:(lia)) as Hrc. rewrite Nat.add_0_r in Hrc.
    destruct (tox_self_get_random_tcp_relay (states times)) as [[rc a] k]. cbn in Hrc.
    rewrite (proj2 (Z.ltb_lt _ _) Hrc), (proj2 (Z.ltb_lt _ _) Hrc). apply IH; [lia| | |done].
    + intros j Hj. specialize (Hbad (S j) ltac:(lia)). by rewrite Nat.add_succ_r in Hbad.
    + by rewrite Nat.add_succ_r in Hgood.
Qed.

Lemma relay_none states : forall tries times,
  (forall j, (j < tries)%nat -> (tox_self_get_random_tcp_relay (states (times + j)%nat)).1.1 < 0) ->
  redo_get_tcp_relay tries states times = None.
Proof.
  induction tries as [|tries IH]; intros times Hbad; [done|]. cbn [redo_get_tcp_relay].
  unfold dht_get_random_tcp_relay. pose proof (Hbad 0%nat ltac:(lia)) as Hrc. rewrite Nat.add_0_r in Hrc.
  destruct (tox_self_get_random_tcp_relay (states times)) as [[rc a] k]. cbn in Hrc.
  rewrite (proj2 (Z.ltb_lt _ _) Hrc), (proj2 (Z.ltb_lt _ _) Hrc). apply IH.
  intros j Hj. specialize (Hbad (S j) ltac:(lia)). by rewrite Nat.add_succ_r in Hbad.
Qed.

(** C23. The first relay that toxcore finds in five attempts becomes the TURN server, with
    its address in dotted form and credentials the relay can check: from the user id at
    the start of the user name, its own secret key and the nonce in the user name it
    computes the same password.  Every text fits its field.  When no attempt finds a
    relay, the call fails with NOT_EXIST. *)
Theorem turn_credentials `{!Base58Laws _} w states nonce (pub : list byte -> list byte) :
  is_ready w = true -> strlen (userid (me w)) <= 44 -> strlen (base58_encode nonce) <= 63 ->
  (forall a b, symmetric_key (pub a) b = symmetric_key (pub b) a) ->
  (forall k m, exists d, hmac_sha256 k m = (SHA256_BYTES, d) /\ length d = 32%nat) ->
  base58_decode (userid (me w)) 32 = Some (pub (tox_self_get_secret_key (dht_state w))) ->
  (forall i addr relay, (i < 5)%nat ->
     (forall j, (j < i)%nat -> (tox_self_get_random_tcp_relay (states j)).1.1 < 0) ->
     tox_self_get_random_tcp_relay (states i) = (0, addr, pub relay) -> length addr = 4%nat ->
     exists ts key, ela_get_turn_server w states nonce = Ok (Some ts, w) /\
       server ts = inet_ntop addr /\ port ts = 3478 /\ realm ts = "elastos.org" /\
       username ts = userid (me w) +:+ "@" +:+ base58_encode nonce +:+ ".auth.tox" /\
       base58_decode (userid (me w)) 32 = Some key /\
       password ts = base58_encode (hmac_sha256 (symmetric_key key relay) nonce).2) /\
  ((forall j, (j < 5)%nat -> (tox_self_get_random_tcp_relay (states j)).1.1 < 0) ->
   ela_get_turn_server w states nonce =
     Ok (None, set_last_error (ELA_GENERAL_ERROR ELAERR_NOT_EXIST) w)).
Proof.
  intros Hr Hu Hn Hdh Hmac Hid. unfold ela_get_turn_server. rewrite Hr. cbn [negb]. split.
  - intros i addr relay Hi Hbad Hgood Hl.
    rewrite (relay_found states addr (pub relay) i 5 0 Hi Hbad Hgood Hl).
    unfold dht_self_get_secret_key. set (sk := tox_self_get_secret_key (dht_state w)) in *.
    rewrite (Hdh relay sk).
    destruct (Hmac (symmetric_key (pub sk) relay) nonce) as (d & Hd & Hdl). rewrite Hd.
    rewrite Z.eqb_refl. cbn [negb]. pose proof (base58_key_length _ Hdl).
    unfold encode_into, ELA_MAX_TURN_PASSWORD_LEN, ELA_MAX_TURN_USERNAME_LEN, ELA_MAX_TURN_REALM_LEN.
    rewrite (strcpy_Ok _ (base58_encode d)), (strcpy_Ok _ (base58_encode nonce)) by lia. cbn [mbind Res_bind].
    set (user := userid (me w) +:+ _).
    assert (strlen user <= 126) as Huser.
    { unfold user. rewrite !strlen_app. change (strlen "@") with 1. change (strlen ".") with 1.
      change (strlen TURN_SERVER_USER_SUFFIX) with 8. lia. }
    rewrite (strcpy_Ok _ user) by lia.
    cbn [mbind Res_bind]. rewrite strcpy_Ok by done. cbn [mbind Res_bind].
    eexists _, (pub sk). split; [done|]. by rewrite Hd.
  - intros Hbad. by rewrite (relay_none states 5 0 Hbad).
Qed.
End Turn.
