(* ===== verification/NodeRun.v ===== *)
(** * Creating a node and its main loop (src/carrier/ela_carrier.c, dht.c)

    [ela_new] from the options and the files, the bootstrap nodes, the dispatch of
    toxcore's events to the node's notifications, and [ela_run] as a sequence of
    rounds.  Allocation failures, the session extension's mutex and the preparation
    of the random numbers are left out. *)

From S2P Require Import Prelude ElaError ElaCP ToxErrors CText ToxDht Carrier Sample CarrierProps.
From S2P Require Import Invite InviteProps InviteReply InviteSafety NodeInv Persistence ToxNode Groups.

Definition MAX_IPV4_ADDRESS_LEN : Z := 15.
Definition MAX_IPV6_ADDRESS_LEN : Z := 47.

(** ** Options *)

Record BootstrapNode := {
  b_ipv4 : option string; b_ipv6 : option string; b_port : string; b_public_key : string
}.

Record BootstrapNodeBuf := {
  bi_ipv4 : string; bi_ipv6 : string; bi_port : Z; bi_public_key : list byte
}.

Record ElaOptions := {
  udp_enabled : bool; persistent_location : option string; bootstraps : list BootstrapNode
}.

Record Preferences := {
  pref_udp_enabled : bool; pref_data_location : string; pref_bootstraps : list BootstrapNodeBuf
}.

(** [(int)strtol(s, &endptr, 10)] and what [endptr] points to. *)
Definition strtol (s : string) : Z * string := default (0, s) (scan_d s).

Section NodeRun.
Context `{!HashTables, !Base58, !Sha256} {tox : Type} `{!Tox tox, !FlatBuffers (list byte)}.
Implicit Types w : ElaCarrier tox.

(** One entry of the list: an error code, or the copy. *)
Definition copy_bootstrap (b : BootstrapNode) : Res (Z + BootstrapNodeBuf) :=
  let invalid := Ok (inl (ELA_GENERAL_ERROR ELAERR_INVALID_ARGS)) in
  if strlen (or_empty (b_ipv4 b)) >? MAX_IPV4_ADDRESS_LEN then invalid
  else if strlen (or_empty (b_ipv6 b)) >? MAX_IPV6_ADDRESS_LEN then invalid
  else if bool_decide (b_ipv4 b = None) && bool_decide (b_ipv6 b = None) then invalid
  else
    ipv4 ← strcpy (MAX_IPV4_ADDRESS_LEN + 1) (or_empty (b_ipv4 b));
    ipv6 ← strcpy (MAX_IPV6_ADDRESS_LEN + 1) (or_empty (b_ipv6 b));
    let '(port, endptr) := strtol (b_port b) in
    if negb (str_eqb endptr "") then invalid
    else
      match base58_decode (b_public_key b) DHT_PUBLIC_KEY_SIZE with
      | None => invalid
      | Some public_key =>
          if negb (Z.of_nat (length public_key) =? DHT_PUBLIC_KEY_SIZE) then invalid
          else Ok (inr {| bi_ipv4 := ipv4; bi_ipv6 := ipv6; bi_port := u16 port;
                          bi_public_key := public_key |})
      end.

Fixpoint copy_bootstraps (l : list BootstrapNode) : Res (Z + list BootstrapNodeBuf) :=
  match l with
  | [] => Ok (inr [])
  | b :: l =>
      r ← copy_bootstrap b;
      match r : Z + BootstrapNodeBuf with
      | inl code => Ok (inl code)
      | inr bi =>
          r ← copy_bootstraps l;
          Ok (match r : Z + list BootstrapNodeBuf with inl code => inl code | inr l => inr (bi :: l) end)
      end
  end.

(** ** Creation *)

Definition no_callbacks : ElaCallbacks :=
  {| cb_idle := false; cb_connection_status := false; cb_ready := false; cb_friend_list := false;
     cb_friend_connection := false; cb_friend_info := false; cb_friend_presence := false;
     cb_friend_request := false; cb_friend_added := false; cb_friend_removed := false;
     cb_friend_message := false; cb_friend_invite := false; cb_session_invite := false;
     cb_group_invite := false; cb_group_connected := false; cb_group_message := false;
     cb_group_title := false; cb_group_peer_name := false; cb_group_peer_list_changed := false |}.

(** The node as it is allocated, with zeros, and with empty tables. *)
Definition zero_node (t : tox) (err : Z) : ElaCarrier tox :=
  {| last_error := err; dht_state := t; public_key := zeroed 32; address := zeroed 38; base58_addr := "";
     me := empty_user_info; presence_status := ElaPresenceStatus_None;
     connection_status := ElaConnectionStatus_Connected; is_ready := false; callbacks := no_callbacks;
     friend_events := []; friends := ht_empty; tcallbacks := ht_empty; thistory := ht_empty;
     tassembly_ireqs := ht_empty; tassembly_irsps := ht_empty; events := [] |}.

(** The rest of [ela_new] once toxcore runs: who we are, our friends, their labels. *)
Definition load_node (t : tox) (err : Z) (data : option persistence_data) (cbs : option ElaCallbacks) :
    Res (Z + ElaCarrier tox) :=
  '(addr, pk, user_status, desc) ← ToxDht.dht_get_self_info t;
  w ← get_self_info_cb addr pk user_status desc (zero_node t err);
  '(rc, w) ← dht_get_friends (dht_state w) friends_iterate_cb w;
  if rc <? 0 then Ok (inl rc)
  else
    w ← match data with
        | Some data => apply_extra_data w (extra_savedata data) (extra_savedata_len data)
        | None => Ok w
        end;
    let w := store_persistence_data w in
    Ok (inr { w with callbacks ::= fun c => default c cbs }).

(** The node, or the error that is set; the preferences; the files after loading. *)
Definition ela_new (opts : option ElaOptions) (cbs : option ElaCallbacks) (err : Z) (io : file_io)
    (fs : files) : Res ((Z + ElaCarrier tox * Preferences) * files) :=
  match opts with
  | None => Ok (inl (ELA_GENERAL_ERROR ELAERR_INVALID_ARGS), fs)
  | Some opts =>
      match persistent_location opts with
      | None | Some "" => Ok (inl (ELA_GENERAL_ERROR ELAERR_INVALID_ARGS), fs)
      | Some data_location =>
          nodes ← copy_bootstraps (bootstraps opts);
          match nodes : Z + list BootstrapNodeBuf with
          | inl code => Ok (inl code, fs)
          | inr nodes =>
              '(data, fs) ← load_persistence_data io fs;
              let savedata := match data with
                              | Some data => take (Z.to_nat (dht_savedata_len data)) (dht_savedata data)
                              | None => []
                              end in
              match dht_new savedata (udp_enabled opts) with
              | (_, Some t) =>
                  r ← load_node t err data cbs;
                  Ok (match r : Z + ElaCarrier tox with
                      | inl rc => inl rc
                      | inr w => inr (w, {| pref_udp_enabled := udp_enabled opts;
                                            pref_data_location := data_location;
                                            pref_bootstraps := nodes |})
                      end, fs)
              | (rc, None) => Ok (inl rc, fs)
              end
          end
      end
  end.

(** ** The main loop *)

(** An address that cannot be reached is logged. *)
Fixpoint connect_to_bootstraps (l : list BootstrapNodeBuf) w : Res (ElaCarrier tox) :=
  match l with
  | [] => Ok w
  | bi :: l =>
      '(_, t) ← _dht_bootstrap (dht_state w) (bi_ipv4 bi) (bi_ipv6 bi) (bi_port bi) (bi_public_key bi);
      connect_to_bootstraps l { w with dht_state := t }
  end.

(** The callbacks of dht.c: each hands an event over to the notification of the node,
    or drops it. *)
Definition tox_callback (now : Z) (event : tox_event) w : Res (ElaCarrier tox) :=
  match event with
  | self_connection_status connection => Ok (notify_connection_cb (is_connected connection) w)
  | friend_status_message n message =>
      notify_friend_description_cb n (match message with [] => None | _ => Some message end) w
  | friend_connection_status n connection => notify_friend_connection_cb n (is_connected connection) w
  | ToxDht.friend_status n status => notify_friend_status_cb n status w
  | friend_request public_key hello =>
      c_assert (negb (bool_decide (hello = [])));; notify_friend_request_cb public_key hello w
  | friend_message n type message =>
      match type with
      | TOX_MESSAGE_TYPE_NORMAL => notify_friend_message_cb now w n message
      | TOX_MESSAGE_TYPE_ACTION => Ok w
      end
  | conference_invite n type cookie =>
      match type with
      | TOX_CONFERENCE_TYPE_TEXT => notify_group_invite_cb n cookie w
      | TOX_CONFERENCE_TYPE_AV => Ok w
      end
  | conference_connected g => notify_group_connected_cb g w
  | conference_message g p type message =>
      match type with
      | TOX_MESSAGE_TYPE_NORMAL => notify_group_message_cb g p message w
      | TOX_MESSAGE_TYPE_ACTION => Ok w
      end
  | conference_title g p title => notify_group_title_cb g p title w
  | conference_peer_name g p nm => notify_group_peer_name_cb g p nm w
  | conference_peer_list_changed g => notify_group_peer_list_changed_cb g w
  end.

(** What toxcore calls back in one iteration: when, in which state of its own, what. *)
Fixpoint dht_iterate (calls : list (Z * tox * tox_event)) w : Res (ElaCarrier tox) :=
  match calls with
  | [] => Ok w
  | (now, t, event) :: calls =>
      w ← tox_callback now event { w with dht_state := t };
      dht_iterate calls w
  end.

(** A round of the loop: the time, what toxcore calls back, and the state it is in at
    the end. *)
Record round := { rd_now : Z; rd_calls : list (Z * tox * tox_event); rd_tox : tox }.

Definition idle_interval (interval : Z) w : Z :=
  let idle := dht_iteration_idle (dht_state w) in if idle >? interval then interval else idle.

Definition run_round (interval : Z) (rd : round) w : Res (ElaCarrier tox) :=
  let idle := idle_interval interval w in
  let w := do_friend_events w in
  let w := { w with tassembly_ireqs ::= do_tassemblies_expire (rd_now rd) } in
  let w := { w with tassembly_irsps ::= do_tassemblies_expire (rd_now rd) } in
  w ← do_transacted_callabcks_check (rd_now rd) w;
  let w := if idle >? 0 then notify_idle w else w in
  w ← dht_iterate (rd_calls rd) w;
  Ok { w with dht_state := rd_tox rd }.

Fixpoint run_rounds (interval : Z) (rounds : list round) w : Res (ElaCarrier tox) :=
  match rounds with
  | [] => Ok w
  | rd :: rounds => w ← run_round interval rd w; run_rounds interval rounds w
  end.

(** The rounds until the node is told to quit. *)
Definition ela_run w (pref : Preferences) (interval : Z) (rounds : list round) :
    Res (Z * ElaCarrier tox) :=
  if interval <? 0 then fails (ELA_GENERAL_ERROR ELAERR_INVALID_ARGS) w
  else
    let interval := if interval =? 0 then 1000 else interval in
    let w := notify_friends w in
    w ← connect_to_bootstraps (pref_bootstraps pref) w;
    w ← run_rounds interval rounds w;
    Ok (0, store_persistence_data w).
End NodeRun.
