(* ===== verification/NodeRunProps.v ===== *)
(** * The life of a node

    Creation establishes the node's invariant and every round of the main loop keeps
    it; which bootstrap nodes the main loop survives; what a round delivers. *)

From S2P Require Import Prelude ElaError ElaCP ToxErrors CText ToxDht Carrier Sample CarrierProps.
From S2P Require Import Invite InviteProps InviteReply InviteSafety NodeInv Persistence ToxNode Groups NodeRun.

Section Life.
Context `{!HashTables} {HL : HashTablesLaws _} `{!Base58} {B : Base58Laws _} `{!Sha256} {tox : Type}
  `{!Tox tox} {T : ToxLaws tox} `{!FlatBuffers (list byte)}.
Implicit Types w : ElaCarrier tox.

(** ** The invariant *)

Lemma zero_node_wf (t : tox) err : node_wf (zero_node t err).
Proof.
  split; try (intros ?? Hx; cbn in Hx; by rewrite ht_get_empty in Hx); try done.
Qed.

Lemma keeps_apply_entries fuel : forall w pos len w',
  node_wf w -> apply_entries fuel w pos len = Ok w' -> node_wf w'.
Proof.
  induction fuel as [|fuel IH]; intros w pos len w' Hw; [done|]. cbn [apply_entries].
  destruct (len >? 0); [|by intros [= <-]]. destruct (_ <? 4); [done|].
  destruct (c_string _) as [[lb rest]|]; [|done]. destruct (strlen lb =? 0); [by intros [= <-]|].
  intros Hr. apply Res_bind_Ok in Hr as (fi & Hfi & Hr). apply Res_bind_Ok in Hr as (w1 & Hw1 & Hr).
  eapply IH, Hr. destruct fi as [fi|]; [|by injection Hw1 as <-].
  apply Res_bind_Ok in Hw1 as (lb' & [-> Hl]%strcpy_inv & Hw1). injection Hw1 as <-.
  pose proof (wf_friends_get _ _ _ Hw Hfi) as (Hn & Hne & Hu & _ & Hp).
  apply wf_put; [done|]. cbn. split; [done|]. split; [congruence|]. split; [done|]. split; [|done]. cbn. lia.
Qed.

Lemma written_inv cap bs bs' : written cap bs = Ok bs' -> bs' = bs.
Proof. unfold written. case_match; [congruence|done]. Qed.

Lemma friend_key_size t n pk st desc : get_friend t n = Ok (inr (pk, st, desc)) -> length pk = 32%nat.
Proof.
  unfold get_friend. destruct (tox_friend_get_status_message_size t n) as [s e].
  destruct (tox_ok e); [|done]. destruct (tox_friend_get_status_message t n) as [[[] d] e2]; [|done].
  cbn [negb]. intros (d' & _ & Hr)%Res_bind_Ok. destruct (tox_friend_get_status t n) as [u e3].
  destruct (tox_ok e3); [|done]. cbn [negb] in Hr.
  destruct (tox_friend_get_public_key t n) as [[[] k] e4] eqn:Hk; [|done]. cbn [negb] in Hr.
  apply Res_bind_Ok in Hr as (k' & ->%written_inv & Hr). injection Hr as <- _ _.
  by eapply tox_friend_public_key_size.
Qed.

Lemma keeps_friends_loop t l : forall w rc w',
  node_wf w -> get_friends_loop t l friends_iterate_cb w = Ok (rc, w') -> node_wf w'.
Proof.
  induction l as [|n l IH]; intros w rc w' Hw; cbn [get_friends_loop]; [by intros [= _ <-]|]. intros Hr.
  apply Res_bind_Ok in Hr as ([rc0|[[pk st] desc]] & Hg & Hr); [by injection Hr as _ <-|].
  apply Res_bind_Ok in Hr as ([more w1] & Hcb & Hr).
  apply keeps_iterate in Hcb; [|by eapply friend_key_size|done].
  destruct more; [by eapply IH|by injection Hr as _ <-].
Qed.

Lemma load_node_wf t err data cbs w : load_node t err data cbs = Ok (inr w) -> node_wf w.
Proof.
  unfold load_node. intros Hr. apply Res_bind_Ok in Hr as ([[[addr pk] st] desc] & Hinfo & Hr).
  apply Res_bind_Ok in Hr as (w1 & Hw1 & Hr).
  assert (length pk = 32%nat) as Hpk.
  { unfold ToxDht.dht_get_self_info in Hinfo. apply Res_bind_Ok in Hinfo as (a & _ & Hinfo).
    apply Res_bind_Ok in Hinfo as (k & ->%written_inv & Hinfo). injection Hinfo as _ <- _ _.
    apply tox_self_public_key_size. }
  apply keeps_get_self_info in Hw1; [|done|apply zero_node_wf].
  apply Res_bind_Ok in Hr as ([rc w2] & Hfr & Hr). apply keeps_friends_loop in Hfr; [|done].
  destruct (rc <? 0); [done|]. apply Res_bind_Ok in Hr as (w3 & Hw3 & Hr).
  assert (node_wf w3) as Hwf.
  { destruct data; [by eapply keeps_apply_entries|by injection Hw3 as <-]. }
  injection Hr as <-. eapply wf_frame; [apply (wf_emit EvStore _ Hwf)|done..].
Qed.

(** ** Notifications and rounds *)

(** What toxcore and the packet runtime promise of an event. *)
Definition event_ok (event : tox_event) : Prop :=
  match event with
  | friend_message n _ message =>
      n <> UINT32_MAX /\ forall cp, elacp_decode message = Ok (Some cp) -> well_typed cp
  | _ => True
  end.

Lemma groupid_wf w n len r w' : node_wf w -> get_groupid_by_number w n len = Ok (r, w') -> node_wf w'.
Proof.
  intros Hw Hr. unfold get_groupid_by_number in Hr. apply Res_bind_Ok in Hr as ([] & _ & Hr).
  apply Res_bind_Ok in Hr as ([rc k] & _ & Hr). destruct (rc <? 0); [injection Hr as _ <-; by apply wf_error|].
  apply Res_bind_Ok in Hr as (id & _ & Hr). by injection Hr as _ <-.
Qed.

Lemma peerid_wf w n p len r w' : node_wf w -> get_peerid_by_number w n p len = Ok (r, w') -> node_wf w'.
Proof.
  intros Hw Hr. unfold get_peerid_by_number in Hr. apply Res_bind_Ok in Hr as ([] & _ & Hr).
  apply Res_bind_Ok in Hr as ([rc k] & _ & Hr). destruct (rc <? 0); [injection Hr as _ <-; by apply wf_error|].
  apply Res_bind_Ok in Hr as (id & _ & Hr). by injection Hr as _ <-.
Qed.

Lemma with_peer_wf w n p k w' : node_wf w -> (forall g u w, node_wf w -> node_wf (k g u w)) ->
  with_peer n p w k = Ok w' -> node_wf w'.
Proof.
  intros Hw Hk Hr. unfold with_peer in Hr. apply Res_bind_Ok in Hr as ([[g|] w1] & Hg & Hr);
    apply groupid_wf in Hg; try done; [|by injection Hr as <-].
  apply Res_bind_Ok in Hr as ([[u|] w2] & Hp & Hr); apply peerid_wf in Hp; try done; injection Hr as <-; auto.
Qed.

Lemma callback_wf now event w w' : node_wf w -> event_ok event -> tox_callback now event w = Ok w' -> node_wf w'.
Proof.
  intros Hw He Hr. destruct event as [c|n m|n c|n st|pk hello|n ty m|n ty cookie|g|g p ty m|g p t|g p nm|g];
    cbn [tox_callback] in Hr.
  - injection Hr as <-. by apply keeps_connection.
  - by eapply keeps_description.
  - by eapply keeps_friend_connection.
  - by eapply keeps_friend_status.
  - apply Res_bind_Ok in Hr as ([] & _ & Hr). by eapply keeps_friend_request.
  - destruct ty; [|by injection Hr as <-]. destruct He. by eapply keeps_message.
  - destruct ty; [|by injection Hr as <-]. unfold notify_group_invite_cb in Hr.
    apply Res_bind_Ok in Hr as ([fi|] & _ & Hr); [|by injection Hr as <-].
    apply Res_bind_Ok in Hr as (id & _ & Hr). injection Hr as <-. by apply wf_emit_if.
  - unfold notify_group_connected_cb in Hr. apply Res_bind_Ok in Hr as ([[id|] w1] & Hg & Hr);
      apply groupid_wf in Hg; try done; injection Hr as <-; by try apply wf_emit_if.
  - destruct ty; [|by injection Hr as <-]. eapply with_peer_wf, Hr; [done|].
    intros g' u w1 Hw1. by apply wf_emit_if.
  - unfold notify_group_title_cb in Hr. destruct (p =? UINT32_MAX); [by injection Hr as <-|].
    eapply with_peer_wf, Hr; [done|]. intros g' u w1 Hw1. by apply wf_emit_if.
  - eapply with_peer_wf, Hr; [done|]. intros g' u w1 Hw1. by apply wf_emit_if.
  - unfold notify_group_peer_list_changed_cb in Hr. apply Res_bind_Ok in Hr as ([[id|] w1] & Hg & Hr);
      apply groupid_wf in Hg; try done; injection Hr as <-; by try apply wf_emit_if.
Qed.

Lemma iterate_wf calls : forall w w', node_wf w -> Forall (fun c => event_ok c.2) calls ->
  dht_iterate calls w = Ok w' -> node_wf w'.
Proof.
  induction calls as [|[[now t] event] calls IH]; intros w w' Hw Hok; [by intros [= <-]|].
  cbn [dht_iterate]. intros (w1 & Hw1 & Hr)%Res_bind_Ok. apply Forall_cons in Hok as [He Hok].
  eapply IH; [|done|exact Hr]. eapply callback_wf, Hw1; [by apply wf_dht|done].
Qed.

Lemma round_wf interval rd w w' : node_wf w -> Forall (fun c => event_ok c.2) (rd_calls rd) ->
  run_round interval rd w = Ok w' -> node_wf w'.
Proof.
  intros Hw Hok Hr. unfold run_round in Hr. apply Res_bind_Ok in Hr as (w1 & Hw1 & Hr).
  apply keeps_callbacks_check in Hw1.
  2:{ apply (keeps_expire (rd_now rd)). by apply keeps_events. }
  apply Res_bind_Ok in Hr as (w2 & Hw2 & Hr). injection Hr as <-. apply wf_dht.
  eapply iterate_wf, Hw2; [|done]. destruct (_ >? 0); [by apply wf_emit_if|done].
Qed.

Lemma rounds_wf interval rounds : forall w w', node_wf w ->
  Forall (fun rd => Forall (fun c => event_ok c.2) (rd_calls rd)) rounds ->
  run_rounds interval rounds w = Ok w' -> node_wf w'.
Proof.
  induction rounds as [|rd rounds IH]; intros w w' Hw Hok; [by intros [= <-]|]. cbn [run_rounds].
  intros (w1 & Hw1 & Hr)%Res_bind_Ok. apply Forall_cons in Hok as [Hrd Hok].
  eapply IH; [|done|exact Hr]. by eapply round_wf.
Qed.

Lemma list_friends_wf l : forall w, node_wf w -> node_wf (list_friends l w).
Proof. induction l as [|fi l IH]; intros w Hw; [done|]. cbn. by apply IH, wf_emit_if. Qed.

Lemma bootstraps_wf l : forall w w', node_wf w -> connect_to_bootstraps l w = Ok w' -> node_wf w'.
Proof.
  induction l as [|bi l IH]; intros w w' Hw; [by intros [= <-]|]. cbn [connect_to_bootstraps].
  intros ([rc t] & _ & Hr)%Res_bind_Ok. eapply IH, Hr. by apply wf_dht.
Qed.

Lemma run_wf w pref interval rounds rc w' : node_wf w ->
  Forall (fun rd => Forall (fun c => event_ok c.2) (rd_calls rd)) rounds ->
  ela_run w pref interval rounds = Ok (rc, w') -> node_wf w'.
Proof.
  intros Hw Hok Hr. unfold ela_run in Hr. destruct (interval <? 0); [by eapply keeps_fails|].
  apply Res_bind_Ok in Hr as (w1 & Hw1 & Hr). apply Res_bind_Ok in Hr as (w2 & Hw2 & Hr).
  injection Hr as _ <-. apply wf_emit. eapply rounds_wf, Hw2; [|done]. eapply bootstraps_wf, Hw1.
  by apply wf_emit_if, list_friends_wf.
Qed.

(** C19. From creation to the end: a node that [ela_new] made from any options, saved
    data and files satisfies the node's invariant, and still does when [ela_run]
    returns, after any number of rounds in which toxcore reported any events in any
    states. *)
Theorem node_life opts cbs err io fs w pref fs' interval rounds rc w' :
  ela_new opts cbs err io fs = Ok (inr (w, pref), fs') ->
  Forall (fun rd => Forall (fun c => event_ok c.2) (rd_calls rd)) rounds ->
  ela_run w pref interval rounds = Ok (rc, w') -> node_wf w /\ node_wf w'.
Proof.
  intros Hnew Hok Hrun.
  assert (node_wf w) as Hw; [|split; [done|by eapply run_wf]].
  unfold ela_new in Hnew. destruct opts as [opts|]; [|done].
  destruct (persistent_location opts) as [[|c loc]|]; try done.
  apply Res_bind_Ok in Hnew as ([code|nodes] & _ & Hnew); [done|].
  apply Res_bind_Ok in Hnew as ([data fs1] & _ & Hnew).
  destruct (dht_new _ _) as [rc0 [t|]]; [|done].
  apply Res_bind_Ok in Hnew as ([rc1|w1] & Hload & Hnew); [done|]. injection Hnew as <- _ _.
  by eapply load_node_wf.
Qed.

(** ** Bootstrap nodes *)

(** An entry the main loop cannot use: no address, or a port that is 0 as a 16-bit
    number. *)
Definition unusable (b : BootstrapNode) : Prop :=
  (or_empty (b_ipv4 b) = "" /\ or_empty (b_ipv6 b) = "") \/ u16 (strtol (b_port b)).1 = 0.

#[export] Instance unusable_dec b : Decision (unusable b).
Proof. unfold unusable. apply _. Defined.

Lemma copy_bootstrap_spec b : exists r, copy_bootstrap b = Ok r /\
  forall bi, r = inr bi -> bi_ipv4 bi = or_empty (b_ipv4 b) /\ bi_ipv6 bi = or_empty (b_ipv6 b) /\
    bi_port bi = u16 (strtol (b_port b)).1.
Proof.
  unfold copy_bootstrap, MAX_IPV4_ADDRESS_LEN, MAX_IPV6_ADDRESS_LEN. rewrite !Z.gtb_ltb.
  destruct (Z.ltb_spec 15 (strlen (or_empty (b_ipv4 b)))); [by eexists|].
  destruct (Z.ltb_spec 47 (strlen (or_empty (b_ipv6 b)))); [by eexists|].
  destruct (_ && _); [by eexists|]. rewrite !strcpy_Ok by lia. cbn [mbind Res_bind].
  destruct (strtol (b_port b)) as [port endptr]. destruct (negb _); [by eexists|].
  destruct (base58_decode _ _) as [k|]; [|by eexists]. destruct (negb _); [by eexists|].
  eexists. split; [done|]. by intros bi [= <-].
Qed.

(** The assertions of the adapter on one entry. *)
Lemma bootstrap_asserts (t : tox) ipv4 ipv6 port k :
  if decide ((ipv4 = "" /\ ipv6 = "") \/ ~ 0 < port) then _dht_bootstrap t ipv4 ipv6 port k = Fault AssertFailed
  else exists r, _dht_bootstrap t ipv4 ipv6 port k = Ok r.
Proof.
  unfold _dht_bootstrap. rewrite Z.gtb_ltb.
  destruct (str_eqb ipv4 "") eqn:E4, (str_eqb ipv6 "") eqn:E6; cbn [negb orb c_assert];
    rewrite ?str_eqb_eq, ?str_eqb_neq in *;
    destruct (Z.ltb_spec 0 port); case_decide; cbn [c_assert mbind Res_bind];
    try done; try (naive_solver (lia));
    destruct (bootstrap_host t ipv4 port k) as [[rc|] t1]; try (by eexists);
    destruct (bootstrap_host t1 ipv6 port k) as [[rc|] t2]; by eexists.
Qed.

Lemma connect_asserts l : forall nodes w, copy_bootstraps l = Ok (inr nodes) ->
  if decide (Exists unusable l) then connect_to_bootstraps nodes w = Fault AssertFailed
  else exists t, connect_to_bootstraps nodes w = Ok { w with dht_state := t }.
Proof.
  induction l as [|b l IH]; intros nodes w Hc.
  { injection Hc as <-. rewrite decide_False by (by intros ?%Exists_nil). exists (dht_state w). by destruct w. }
  cbn [copy_bootstraps] in Hc. destruct (copy_bootstrap_spec b) as (r & Hb & Hbi). rewrite Hb in Hc.
  cbn [mbind Res_bind] in Hc. destruct r as [code|bi]; [done|]. destruct (Hbi bi eq_refl) as (H4 & H6 & Hp).
  apply Res_bind_Ok in Hc as ([code|nodes'] & Hc' & Hc); [done|]. injection Hc as <-.
  cbn [connect_to_bootstraps].
  pose proof (bootstrap_asserts (dht_state w) (bi_ipv4 bi) (bi_ipv6 bi) (bi_port bi) (bi_public_key bi)) as Ha.
  pose proof (uwrap_range 16 (strtol (b_port b)).1 ltac:(lia)) as Hrange.
  rewrite H4, H6, Hp in *.
  destruct (decide (unusable b)) as [Hbad|Hgood].
  - rewrite decide_True in Ha by (destruct Hbad; [by left|right; lia]). rewrite Ha.
    rewrite decide_True by by constructor. done.
  - rewrite decide_False in Ha by (unfold unusable in Hgood; change (uwrap 16 ?z) with (u16 z) in *; naive_solver lia).
    destruct Ha as ([rc t] & ->). cbn [mbind Res_bind]. specialize (IH nodes' { w with dht_state := t } Hc').
    destruct (decide (Exists unusable l)) as [He|He].
    + by rewrite decide_True by by constructor.
    + rewrite decide_False by (by intros [?|?]%Exists_cons). destruct IH as (t' & ->). by exists t'.
Qed.

(** C24. The bootstrap nodes of the options are copied without an overrun, whatever they
    are; and of a list that [ela_new] accepted, [ela_run] survives connecting exactly
    when every entry has an address that is not empty and a port that is not 0 as a
    16-bit number: otherwise the adapter's assertion ends the program, though [ela_new]
    could have refused the entry. *)
Theorem bootstraps_asserted l :
  exists r, copy_bootstraps l = Ok r /\
    forall nodes w, r = inr nodes ->
      if decide (Exists unusable l) then connect_to_bootstraps nodes w = Fault AssertFailed
      else exists t, connect_to_bootstraps nodes w = Ok { w with dht_state := t }.
Proof.
  assert (exists r, copy_bootstraps l = Ok r) as [r Hr].
  { induction l as [|b l [r IH]]; [by eexists|]. cbn [copy_bootstraps].
    destruct (copy_bootstrap_spec b) as ([code|bi] & -> & _); cbn [mbind Res_bind]; [by eexists|].
    rewrite IH. by eexists. }
  exists r. split; [done|]. intros nodes w ->. by apply connect_asserts.
Qed.
End Life.
