(* ===== verification/ToxSample.v ===== *)
(** * A concrete toxcore

    A toxcore of lists that keeps its promises, and the properties of the adapter, the
    groups and the life of a node at concrete inputs. *)

From S2P Require Import Prelude ElaError ElaCP ToxErrors CText ToxDht Carrier Sample CarrierProps.
From S2P Require Import Invite InviteProps InviteReply InviteSafety NodeInv Persistence PersistenceProps ToxNode.
From S2P Require Import Groups GroupProps GroupTalk TurnServer NodeRun NodeRunProps.

(** A conference: its title and its peers, with their keys and names. *)
Record sconf := { sc_title : list byte; sc_peers : list (list byte * list byte) }.

Record stox := {
  st_key : list byte; st_name : list byte; st_message : list byte; st_status : Z; st_nospam : Z;
  st_friends : list (list byte * Z); st_next : Z; st_confs : list (Z * sconf);
  st_sent : list (Z * list byte); st_relay : option (list byte * list byte)
}.

(** Thirty-two bytes. *)
Definition key_of (bs : list byte) : list byte := take 32 (bs ++ zeroed 32).

Lemma length_key_of bs : length (key_of bs) = 32%nat.
Proof. unfold key_of. rewrite length_take, length_app, length_zeroed. lia. Qed.

(** The numbers of the conferences, and the identifier of a number. *)
Definition st_chatlist (t : stox) : list Z := base.filter (fun n => 0 <= n < UINT32_MAX) (st_confs t).*1.
Definition conf_id (n : Z) : list byte := le_split 4 n ++ zeroed 28.

Fixpoint find_conf (l : list (Z * sconf)) (n : Z) : sconf :=
  match l with
  | [] => {| sc_title := []; sc_peers := [] |}
  | (m, c) :: l => if n =? m then c else find_conf l n
  end.

Definition st_conf (t : stox) (n : Z) : sconf := find_conf (st_confs t) n.

Definition st_by_id (t : stox) (k : list byte) : option Z :=
  head (base.filter (fun n => conf_id n = k) (st_chatlist t)).

Definition st_fresh (t : stox) : Z := 1 + foldr Z.max 0 (st_confs t).*1.

Definition st_enter (t : stox) (c : sconf) : option (Z * stox) :=
  let n := st_fresh t in
  if n <? UINT32_MAX then Some (n, { t with st_confs ::= cons (n, c) }) else None.

Definition st_add (t : stox) (pk : list byte) : Z * TOX_ERR_FRIEND_ADD * stox :=
  if st_next t =? UINT32_MAX then (UINT32_MAX, TOX_ERR_FRIEND_ADD_MALLOC, t)
  else (st_next t, TOX_ERR_FRIEND_ADD_OK,
        { t with st_friends ::= cons (pk, st_next t); st_next ::= Z.add 1 }).

Definition st_find_number (t : stox) (pk : list byte) : Z * TOX_ERR_FRIEND_BY_PUBLIC_KEY :=
  match find_friend (st_friends t) pk with
  | Some n => if n =? UINT32_MAX then (n, TOX_ERR_FRIEND_BY_PUBLIC_KEY_NOT_FOUND)
              else (n, TOX_ERR_FRIEND_BY_PUBLIC_KEY_OK)
  | None => (UINT32_MAX, TOX_ERR_FRIEND_BY_PUBLIC_KEY_NOT_FOUND)
  end.

Definition st_peer (t : stox) (n p : Z) : option (list byte * list byte) :=
  if (n =? UINT32_MAX) || (p <? 0) then None else sc_peers (st_conf t n) !! Z.to_nat p.

Definition st_set_title (n : Z) (title : list byte) (e : Z * sconf) : Z * sconf :=
  if n =? e.1 then (e.1, { e.2 with sc_title := title }) else e.

#[export] Instance sample_tox : Tox stox := {
  TOX_MAX_STATUS_MESSAGE_LENGTH := 1007;
  tox_new o := (Some {| st_key := default (zeroed 32) (savedata_data o); st_name := []; st_message := [];
                        st_status := 0; st_nospam := 0; st_friends := []; st_next := 0; st_confs := [];
                        st_sent := []; st_relay := None |}, TOX_ERR_NEW_OK);
  tox_bootstrap t _ _ _ := (true, TOX_ERR_BOOTSTRAP_OK, t);
  tox_add_tcp_relay t _ _ _ := (true, TOX_ERR_BOOTSTRAP_OK, t);
  tox_get_savedata t := st_key t;
  tox_iteration_interval _ := 50;
  tox_self_set_nospam t n := { t with st_nospam := n };
  tox_self_get_nospam := st_nospam;
  tox_self_get_secret_key t := key_of (st_key t);
  tox_self_set_status t s := { t with st_status := s };
  tox_self_get_status := st_status;
  tox_self_get_address t := key_of (st_key t) ++ zeroed 6;
  tox_self_get_public_key t := key_of (st_key t);
  tox_self_get_status_message := st_message;
  tox_self_set_status_message t m := (true, TOX_ERR_SET_INFO_OK, { t with st_message := m });
  tox_self_get_name := st_name;
  tox_self_set_name t n := (true, TOX_ERR_SET_INFO_OK, { t with st_name := n });
  tox_self_get_random_tcp_relay t :=
    match st_relay t with Some (a, k) => (0, a, k) | None => (-1, [], []) end;
  tox_self_get_friend_list t := (st_friends t).*2;
  tox_friend_get_status_message _ _ := (true, [], TOX_ERR_FRIEND_QUERY_OK);
  tox_friend_get_status_message_size _ _ := (0, TOX_ERR_FRIEND_QUERY_OK);
  tox_friend_get_status _ _ := (0, TOX_ERR_FRIEND_QUERY_OK);
  tox_friend_get_public_key t n :=
    match find (fun f => f.2 =? n) (st_friends t) with
    | Some (k, _) => (true, key_of k, TOX_ERR_FRIEND_GET_PUBLIC_KEY_OK)
    | None => (false, [], TOX_ERR_FRIEND_GET_PUBLIC_KEY_FRIEND_NOT_FOUND)
    end;
  tox_friend_by_public_key := st_find_number;
  tox_friend_add t a _ := st_add t (take 32 a);
  tox_friend_add_norequest := st_add;
  tox_friend_send_message t n _ m := (TOX_ERR_FRIEND_SEND_MESSAGE_OK, { t with st_sent ::= cons (n, m) });
  tox_friend_delete t n := (TOX_ERR_FRIEND_DELETE_OK, { t with st_friends ::= base.filter (fun f => f.2 <> n) });
  tox_conference_get_id t n :=
    if bool_decide (n ∈ st_chatlist t) then (true, conf_id n) else (false, []);
  tox_conference_by_id t k :=
    match st_by_id t k with
    | Some n => (n, TOX_ERR_CONFERENCE_BY_ID_OK)
    | None => (UINT32_MAX, TOX_ERR_CONFERENCE_BY_ID_NOT_FOUND)
    end;
  tox_conference_new t :=
    match st_enter t {| sc_title := []; sc_peers := [(key_of (st_key t), st_name t)] |} with
    | Some (n, t) => (n, TOX_ERR_CONFERENCE_NEW_OK, t)
    | None => (UINT32_MAX, TOX_ERR_CONFERENCE_NEW_INIT, t)
    end;
  tox_conference_delete t n :=
    if bool_decide (n ∈ st_chatlist t)
    then (true, TOX_ERR_CONFERENCE_DELETE_OK, { t with st_confs ::= base.filter (fun c => c.1 <> n) })
    else (false, TOX_ERR_CONFERENCE_DELETE_CONFERENCE_NOT_FOUND, t);
  tox_conference_invite t f g := (TOX_ERR_CONFERENCE_INVITE_OK, { t with st_sent ::= cons (f, le_split 4 g) });
  tox_conference_join t f c :=
    match st_enter t {| sc_title := c; sc_peers := [] |} with
    | Some (n, t) => (n, TOX_ERR_CONFERENCE_JOIN_OK, t)
    | None => (UINT32_MAX, TOX_ERR_CONFERENCE_JOIN_INIT_FAIL, t)
    end;
  tox_conference_send_message t n _ m :=
    if bool_decide (n ∈ st_chatlist t)
    then (TOX_ERR_CONFERENCE_SEND_MESSAGE_OK, { t with st_sent ::= cons (n, m) })
    else (TOX_ERR_CONFERENCE_SEND_MESSAGE_CONFERENCE_NOT_FOUND, t);
  tox_conference_get_title_size t n :=
    if bool_decide (n ∈ st_chatlist t)
    then (Z.of_nat (length (sc_title (st_conf t n))), TOX_ERR_CONFERENCE_TITLE_OK)
    else (0, TOX_ERR_CONFERENCE_TITLE_CONFERENCE_NOT_FOUND);
  tox_conference_get_title t n :=
    if bool_decide (n ∈ st_chatlist t) then (sc_title (st_conf t n), TOX_ERR_CONFERENCE_TITLE_OK)
    else ([], TOX_ERR_CONFERENCE_TITLE_CONFERENCE_NOT_FOUND);
  tox_conference_set_title t n title :=
    if bool_decide (n ∈ st_chatlist t)
    then (TOX_ERR_CONFERENCE_TITLE_OK, { t with st_confs ::= fmap (st_set_title n title) })
    else (TOX_ERR_CONFERENCE_TITLE_CONFERENCE_NOT_FOUND, t);
  tox_conference_peer_count t n :=
    (Z.min UINT32_MAX (Z.of_nat (length (sc_peers (st_conf t n)))), TOX_ERR_CONFERENCE_PEER_QUERY_OK);
  tox_conference_peer_get_name_size t n p :=
    match st_peer t n p with
    | Some (_, nm) => (Z.of_nat (length nm), TOX_ERR_CONFERENCE_PEER_QUERY_OK)
    | None => (0, TOX_ERR_CONFERENCE_PEER_QUERY_PEER_NOT_FOUND)
    end;
  tox_conference_peer_get_name t n p :=
    match st_peer t n p with
    | Some (_, nm) => (nm, TOX_ERR_CONFERENCE_PEER_QUERY_OK)
    | None => ([], TOX_ERR_CONFERENCE_PEER_QUERY_PEER_NOT_FOUND)
    end;
  tox_conference_peer_get_public_key t n p :=
    match st_peer t n p with
    | Some (k, _) => (key_of k, TOX_ERR_CONFERENCE_PEER_QUERY_OK)
    | None => ([], TOX_ERR_CONFERENCE_PEER_QUERY_PEER_NOT_FOUND)
    end;
  tox_conference_get_chatlist := st_chatlist
}.

#[export] Instance sample_tox_laws : ToxLaws stox.
Proof.
  split; cbn.
  - intros t. apply length_key_of.
  - intros t. by rewrite length_app, length_key_of, length_zeroed.
  - done.
  - congruence.
  - congruence.
  - congruence.
  - congruence.
  - congruence.
  - intros t n k e. case_match; [case_match|]; by intros [= _ <-].
  - intros t n k e. case_match; [case_match|]; [|done]. intros [= <- _]. apply length_key_of.
  - intros t k e. unfold st_find_number. case_match; [|by intros [= <-]].
    case_match; [by intros [= _ <-]|]. intros [= -> _]. done.
  - intros t a m e t'. unfold st_add. case_match eqn:E; [by intros [= <- _]|]. intros [= Hn _ _].
    by apply Z.eqb_neq in E.
  - intros t k e t'. unfold st_add. case_match eqn:E; [by intros [= <- _]|]. intros [= Hn _ _].
    by apply Z.eqb_neq in E.
  - intros t n e t'. case_match; [done|by intros [= <- _]].
  - intros t n s e. case_match; intros [= <- _]; lia.
  - intros t n p s e. case_match; [case_match|]; intros [= <- _]; lia.
Qed.

(** ** The conferences keep their promises *)

Lemma elem_of_chatlist t n : n ∈ st_chatlist t <-> 0 <= n < UINT32_MAX /\ n ∈ (st_confs t).*1.
Proof. unfold st_chatlist. by rewrite list_elem_of_filter. Qed.

Lemma conf_id_inj n m : 0 <= n < UINT32_MAX -> 0 <= m < UINT32_MAX -> conf_id n = conf_id m -> n = m.
Proof.
  unfold conf_id, UINT32_MAX. intros Hn Hm Heq. apply app_inv_tail in Heq.
  apply (f_equal le_combine) in Heq. rewrite !le_combine_u32 in Heq; lia.
Qed.

Lemma st_by_id_spec t k n : st_by_id t k = Some n <-> n ∈ st_chatlist t /\ conf_id n = k.
Proof.
  unfold st_by_id. destruct (base.filter _ (st_chatlist t)) as [|m l] eqn:E; cbn.
  - split; [done|]. intros [Hn Hk].
    assert (n ∈ base.filter (fun n => conf_id n = k) (st_chatlist t)) as Hin by by apply list_elem_of_filter.
    rewrite E in Hin. by apply not_elem_of_nil in Hin.
  - assert (m ∈ base.filter (fun n => conf_id n = k) (st_chatlist t)) as Hm by (rewrite E; constructor).
    apply list_elem_of_filter in Hm as [Hk Hm]. split; [intros [= <-]; done|].
    intros [Hn Hk']. f_equal. apply elem_of_chatlist in Hm as [Hm _], Hn as [Hn _].
    apply conf_id_inj; [done..|]. congruence.
Qed.

Lemma st_fresh_above t n : n ∈ (st_confs t).*1 -> n < st_fresh t.
Proof.
  unfold st_fresh. generalize (st_confs t).*1 as l. intros l Hn.
  enough (n <= foldr Z.max 0 l) by lia.
  induction Hn as [n l|n m l _ IH]; cbn; lia.
Qed.

Lemma st_fresh_pos t : 0 < st_fresh t.
Proof. unfold st_fresh. induction (st_confs t).*1; cbn; lia. Qed.

(** The numbers in range of a list of conferences. *)
Lemma numbers_cons n c (l : list (Z * sconf)) : 0 <= n < UINT32_MAX ->
  base.filter (fun n => 0 <= n < UINT32_MAX) ((n, c) :: l).*1 =
    n :: base.filter (fun n => 0 <= n < UINT32_MAX) l.*1.
Proof. intros Hn. rewrite fmap_cons. by rewrite filter_cons_True. Qed.

Lemma numbers_without n (l : list (Z * sconf)) :
  base.filter (fun n => 0 <= n < UINT32_MAX) (base.filter (fun c => c.1 <> n) l).*1 =
    base.filter (.≠ n) (base.filter (fun n => 0 <= n < UINT32_MAX) l.*1).
Proof.
  induction l as [|[m c] l IH]; [done|].
  destruct (decide (m = n)) as [->|Hne].
  - rewrite (filter_cons_False (fun c => c.1 <> n)) by naive_solver. rewrite IH, fmap_cons. cbn [fst].
    destruct (decide (0 <= n < UINT32_MAX)).
    + rewrite (filter_cons_True _ n) by done. by rewrite (filter_cons_False (.≠ n)) by naive_solver.
    + by rewrite (filter_cons_False _ n) by done.
  - rewrite (filter_cons_True (fun c => c.1 <> n)) by done. rewrite !fmap_cons. cbn [fst].
    destruct (decide (0 <= m < UINT32_MAX)).
    + rewrite !(filter_cons_True (fun n => 0 <= n < UINT32_MAX)) by done.
      rewrite (filter_cons_True (.≠ n)) by done. by rewrite IH.
    + by rewrite !(filter_cons_False (fun n => 0 <= n < UINT32_MAX)) by done.
Qed.

Lemma st_enter_joined t c n t' : st_enter t c = Some (n, t') -> joined t n t'.
Proof.
  unfold st_enter. destruct (Z.ltb_spec (st_fresh t) UINT32_MAX) as [Hlt|]; [|done]. intros [= <- <-].
  pose proof (st_fresh_pos t). split_and!.
  - cbn. intros [_ Hin%st_fresh_above]%elem_of_chatlist. lia.
  - apply reflexive_eq, numbers_cons. lia.
  - intros m Hm Hm'. cbn in *. by rewrite !bool_decide_true.
Qed.

Lemma st_enter_same t : same_conferences t t.
Proof. done. Qed.

#[export] Instance sample_conferences : ConferenceLaws stox.
Proof.
  split; cbn.
  - intros t n [Hn _]%elem_of_chatlist. unfold UINT32_MAX in *. lia.
  - intros t n Hn. exists (conf_id n). rewrite bool_decide_true by done. split; [done|]. split.
    + unfold conf_id. by rewrite length_app, length_le_split, length_zeroed.
    + by rewrite (proj2 (st_by_id_spec t _ n)).
  - intros t k n e. destruct (st_by_id t k) as [m|] eqn:E; intros [= <- <-] He; [|done].
    apply st_by_id_spec in E as [Hm Hk]. by rewrite bool_decide_true, Hk.
  - intros t n e t'. destruct (st_enter _ _) as [[m t1]|] eqn:E; intros [= <- <- <-]; [|apply st_enter_same].
    by eapply st_enter_joined.
  - intros t f c n e t'. destruct (st_enter _ _) as [[m t1]|] eqn:E; intros [= <- <- <-]; [|apply st_enter_same].
    by eapply st_enter_joined.
  - intros t n Hn. rewrite bool_decide_true by done. eexists. split; [done|]. split.
    + apply reflexive_eq, numbers_without.
    + intros m Hm Hm'. cbn in *. by rewrite !bool_decide_true.
Qed.

Lemma titled_numbers n title l : (fmap (st_set_title n title) l).*1 = l.*1.
Proof.
  induction l as [|[m c] l IH]; [done|]. rewrite !fmap_cons, IH. f_equal.
  unfold st_set_title. by case_match.
Qed.

Lemma titled_conf n title l : n ∈ l.*1 -> sc_title (find_conf (fmap (st_set_title n title) l) n) = title.
Proof.
  induction l as [|[m c] l IH]; intros Hn; [by apply not_elem_of_nil in Hn|]. cbn in Hn |- *.
  unfold st_set_title at 1. cbn. destruct (Z.eqb_spec n m) as [->|Hne]; cbn.
  - by rewrite Z.eqb_refl.
  - rewrite (proj2 (Z.eqb_neq n m)) by done. apply IH. by apply elem_of_cons in Hn as [?|?].
Qed.

#[export] Instance sample_titles : TitleLaws stox.
Proof.
  split. cbn. intros t n bs e t' Hs He. case_bool_decide as Hn; [|by injection Hs as <- <-].
  injection Hs as <- <-.
  assert (st_chatlist { t with st_confs ::= fmap (st_set_title n bs) } = st_chatlist t) as Hc.
  { unfold st_chatlist. cbn [st_confs]. apply (f_equal (base.filter _)), titled_numbers. }
  rewrite Hc, !bool_decide_true by done. apply elem_of_chatlist in Hn as [_ Hn].
  assert (sc_title (st_conf { t with st_confs ::= fmap (st_set_title n bs) } n) = bs) as -> by by apply titled_conf.
  split_and!; [done..|]. intros k. unfold st_by_id. by rewrite Hc.
Qed.

#[export] Instance sample_peers : PeerLaws (tox := stox).
Proof.
  split; cbn.
  - intros t n p s nm. case_match; [case_match|done]. by intros [= <-] [= <-].
  - intros t n p k. case_match; [case_match|done]. intros [= <-]. apply length_key_of.
  - intros t n c e [= <- _]. unfold UINT32_MAX. lia.
Qed.

#[export] Instance sample_base58_reads : Base58Reads sample_base58.
Proof.
  split. intros bs Hl. cbn [base58_decode base58_encode sample_base58].
  by rewrite String.list_byte_of_string_of_list_byte, Hl.
Qed.

(** A packet runtime that writes one byte and reads nothing. *)
#[export] Instance mute_packets : FlatBuffers (list byte) := {
  fb_finalize _ := [byte.of_Z 1];
  fb_as_root _ := None
}.

(** ** Nodes *)

Definition alice_key : list byte := String.list_byte_of_string alice_id.
Definition bob_key : list byte := String.list_byte_of_string bob_id.

(** A toxcore with the peers of one conference, number 3. *)
Definition sample_stox (key : list byte) (title : list byte) (peers : list (list byte * list byte)) : stox :=
  {| st_key := key; st_name := []; st_message := []; st_status := 0; st_nospam := 0;
     st_friends := [(bob_key, 5)]; st_next := 6;
     st_confs := [(3, {| sc_title := title; sc_peers := peers |})]; st_sent := [];
     st_relay := Some (byte.of_Z <$> [10; 0; 200; 7], bob_key) |}.

Definition both_peers : list (list byte * list byte) :=
  [(alice_key, c_bytes "alice"); (bob_key, c_bytes "bob")].

Definition tox_node (id : string) (t : stox) : ElaCarrier stox :=
  { (zero_node t 0) with me := { empty_user_info with userid := id }; is_ready := true;
                         callbacks := all_callbacks }.

Definition alice_in_group : ElaCarrier stox := tox_node alice_id (sample_stox alice_key (c_bytes "old") both_peers).
Definition bob_in_group : ElaCarrier stox := tox_node bob_id (sample_stox bob_key (c_bytes "old") both_peers).
Definition group3 : string := id_of (dht_state alice_in_group) 3.


Lemma group_calls_refine_witness :
  exists id w, run_group (NewGroup 64) alice_in_group = Ok (Some id, w) /\
    group_spec (NewGroup 64) (groups_of (dht_state alice_in_group)) (Some id) (groups_of (dht_state w)).
Proof.
  destruct (group_calls_refine (NewGroup 64) alice_in_group) as [(r & w & Hrun & Hspec & _) _].
  assert (exists id w, run_group (NewGroup 64) alice_in_group = Ok (Some id, w)) as (id & w' & Hid)
    by (do 2 eexists; vm_compute; reflexivity).
  rewrite Hid in Hrun. injection Hrun as <- <-. exists id, w'. split; [exact Hid|exact Hspec].
Defined.

Lemma get_groups_lists_witness :
  is_ready alice_in_group = true /\
  exists ids, list_to_set ids = groups_of (dht_state alice_in_group) /\
    ela_get_groups alice_in_group (fun _ => false) = Ok (Some (walk (fun _ => false) ids), alice_in_group).
Proof.
  split; [vm_compute; reflexivity|].
  destruct (get_groups_lists alice_in_group (fun _ => false)) as (ids & Hs & Hw & _); [vm_compute; reflexivity|].
  exists ids. split; [exact Hs|exact Hw].
Defined.

Definition retitled : ElaCarrier stox :=
  (run (ela_group_set_title alice_in_group (Some group3) (Some "a new title"%string)) (0, alice_in_group)).2.

Lemma title_roundtrip_witness :
  ela_group_set_title alice_in_group (Some group3) (Some "a new title"%string) = Ok (0, retitled) /\
  exists buf rest, ela_group_get_title retitled (Some group3) 128 = Ok (Some buf, retitled) /\
    c_string buf = Some ("a new title"%string, rest).
Proof.
  assert (ela_group_set_title alice_in_group (Some group3) (Some "a new title"%string) = Ok (0, retitled)) as Hs
    by (vm_compute; reflexivity).
  split; [exact Hs|].
  destruct (title_roundtrip alice_in_group retitled group3 "a new title" 128) as (buf & rest & Hg & _ & Hc).
  - apply (bool_decide_unpack _). vm_compute. exact I.
  - exact Hs.
  - unfold ELA_MAX_GROUP_TITLE_LEN. lia.
  - exists buf, rest. split; [exact Hg|exact Hc].
Defined.

(** A client that writes titles without terminators called the group "old". *)
Definition unterminated : ElaCarrier stox :=
  tox_node alice_id (sample_stox alice_key (String.list_byte_of_string "old") both_peers).

Lemma title_unterminated_witness :
  get_group_number unterminated group3 = (0, 3) /\
  ela_group_set_title unterminated (Some group3) (Some "older"%string) = Fault Uninitialised.
Proof.
  assert (get_group_number unterminated group3 = (0, 3)) as Hg by (vm_compute; reflexivity).
  split; [exact Hg|].
  apply (title_unterminated unterminated group3 "older" 3 (String.list_byte_of_string "old")
    (String.list_byte_of_string "er")); [..|exact Hg| | | | |].
  all: vm_compute; done || lia.
Defined.

Definition said_in_group : ElaCarrier stox :=
  (run (ela_group_send_message alice_in_group (Some group3) (Some (some_bytes 9))) (0, alice_in_group)).2.

Lemma group_message_delivered_witness :
  ela_group_send_message alice_in_group (Some group3) (Some (some_bytes 9)) = Ok (0, said_in_group) /\
  notify_group_message_cb 3 0 (some_bytes 9) bob_in_group =
    Ok (emit (EvGroupMessage group3 alice_id (some_bytes 9)) bob_in_group).
Proof.
  assert (ela_group_send_message alice_in_group (Some group3) (Some (some_bytes 9)) = Ok (0, said_in_group)) as Hs
    by (vm_compute; reflexivity).
  split; [exact Hs|].
  destruct (group_message_delivered _ _ _ _ Hs) as (_ & n & e & Hn & Hid & _ & _ & Hd).
  assert (n = 3) as ->.
  { apply (id_of_inj (dht_state alice_in_group)); [exact Hn| |symmetry; exact Hid].
    apply (bool_decide_unpack _). vm_compute. exact I. }
  apply (Hd bob_in_group 3 0 alice_key TOX_ERR_CONFERENCE_PEER_QUERY_OK); try (vm_compute; reflexivity).
  - apply (bool_decide_unpack _). vm_compute. exact I.
  - vm_compute. congruence.
Defined.

(** The keys of the two peers differ. *)
Lemma both_peers_differ i j k : 0 <= i < 2 -> 0 <= j < 2 ->
  has_key (dht_state alice_in_group) 3 i k -> has_key (dht_state alice_in_group) 3 j k -> i = j.
Proof.
  intros Hi Hj. assert (i = 0 \/ i = 1) as [-> | ->] by lia; assert (j = 0 \/ j = 1) as [-> | ->] by lia; try done;
    vm_compute; congruence.
Qed.

Lemma group_peers_listed_witness :
  get_group_number alice_in_group group3 = (0, 3) /\
  ela_group_get_peers alice_in_group (Some group3) (fun _ => true) =
    Ok (Some [Some {| gp_name := c_bytes "alice"; gp_userid := alice_id |};
              Some {| gp_name := c_bytes "bob"; gp_userid := bob_id |}; None], alice_in_group).
Proof.
  assert (get_group_number alice_in_group group3 = (0, 3)) as Hg by (vm_compute; reflexivity).
  split; [exact Hg|].
  rewrite (group_peers_listed alice_in_group group3 3 2 TOX_ERR_CONFERENCE_PEER_QUERY_OK);
    [|try exact Hg; vm_compute; done || reflexivity..].
  vm_compute. reflexivity.
Defined.

Lemma group_peer_lookup_witness :
  get_group_number alice_in_group group3 = (0, 3) /\
  ela_group_get_peer alice_in_group (Some group3) (Some bob_id) =
    Ok (Some {| gp_name := splice 0 (c_bytes "bob") (zeroed 64); gp_userid := bob_id |}, alice_in_group).
Proof.
  assert (get_group_number alice_in_group group3 = (0, 3)) as Hg by (vm_compute; reflexivity).
  split; [exact Hg|].
  destruct (group_peer_lookup alice_in_group group3 3 2 TOX_ERR_CONFERENCE_PEER_QUERY_OK) as [Hin _].
  - vm_compute. reflexivity.
  - vm_compute. congruence.
  - exact Hg.
  - vm_compute. reflexivity.
  - reflexivity.
  - exact both_peers_differ.
  - apply (Hin {| gp_name := c_bytes "bob"; gp_userid := bob_id |}); [|vm_compute; congruence].
    change (visible_peers (dht_state alice_in_group) 3 2) with
      [{| gp_name := c_bytes "alice"; gp_userid := alice_id |}; {| gp_name := c_bytes "bob"; gp_userid := bob_id |}].
    right. left.
Defined.

(** A key agreement and a keyed hash. *)
#[export] Instance sample_turn : TurnCrypto := {
  symmetric_key a b := zip_with (fun x y => byte.of_Z (Z.lxor (byte.unsigned x) (byte.unsigned y))) a b;
  hmac_sha256 k m := (SHA256_BYTES, key_of (k ++ m))
}.

Lemma turn_credentials_witness :
  is_ready alice_in_group = true /\
  exists ts key, ela_get_turn_server alice_in_group (fun _ => dht_state alice_in_group) (some_bytes 24) =
      Ok (Some ts, alice_in_group) /\
    server ts = "10.0.200.7"%string /\
    password ts = base58_encode (hmac_sha256 (symmetric_key key bob_key) (some_bytes 24)).2.
Proof.
  split; [vm_compute; reflexivity|].
  destruct (turn_credentials alice_in_group (fun _ => dht_state alice_in_group) (some_bytes 24) (fun k => k))
    as [Hfound _].
  - vm_compute. reflexivity.
  - vm_compute. congruence.
  - vm_compute. congruence.
  - intros a b. cbn. revert b. induction a as [|x a IH]; intros [|y b]; [done..|]. cbn.
    by rewrite IH, Z.lxor_comm.
  - intros k m. exists (key_of (k ++ m)). split; [reflexivity|apply length_key_of].
  - vm_compute. reflexivity.
  - destruct (Hfound 0%nat (byte.of_Z <$> [10; 0; 200; 7]) bob_key) as (ts & key & Hts & Hsrv & _ & _ & _ & _ & Hpw).
    + lia.
    + lia.
    + vm_compute. reflexivity.
    + reflexivity.
    + exists ts, key. split; [exact Hts|]. split; [rewrite Hsrv; vm_compute; reflexivity|exact Hpw].
Defined.

(** ** From creation on *)

Definition some_options : ElaOptions :=
  {| udp_enabled := true; persistent_location := Some "/data"%string;
     bootstraps := [{| b_ipv4 := Some "10.0.200.7"%string; b_ipv6 := None; b_port := "33445";
                       b_public_key := bob_id |}] |}.

Definition healthy : file_io := {| io_open := true; io_written := 0; io_fsync := true |}.

Definition created : (Z + ElaCarrier stox * Preferences) * files :=
  run (ela_new (Some some_options) (Some all_callbacks) 0 healthy ∅) (inl 0, ∅).

Definition new_node : ElaCarrier stox :=
  match created.1 with inr (w, _) => w | inl _ => alice_in_group end.
Definition new_pref : Preferences :=
  match created.1 with
  | inr (_, p) => p
  | inl _ => {| pref_udp_enabled := false; pref_data_location := ""; pref_bootstraps := [] |}
  end.

(** Two rounds: the node gets connected, a friend request and a group message come. *)
Definition some_rounds : list round :=
  [ {| rd_now := 5; rd_calls := [(5, dht_state new_node, self_connection_status TOX_CONNECTION_UDP);
                                 (5, dht_state new_node, friend_request bob_key (some_bytes 4))];
       rd_tox := dht_state new_node |};
    {| rd_now := 6; rd_calls := [(6, dht_state alice_in_group,
                                  conference_message 3 1 TOX_MESSAGE_TYPE_NORMAL (some_bytes 9))];
       rd_tox := dht_state new_node |} ].

Definition after_rounds : ElaCarrier stox := (run (ela_run new_node new_pref 0 some_rounds) (0, new_node)).2.

Example loop_events : events after_rounds =
  [EvStore; EvGroupMessage group3 bob_id (some_bytes 9); EvIdle;
   EvConnectionStatus ElaConnectionStatus_Connected; EvReady; EvIdle; EvFriendList None; EvStore].
Proof. vm_compute. reflexivity. Qed.

Lemma node_life_witness :
  ela_new (Some some_options) (Some all_callbacks) 0 healthy ∅ = Ok (inr (new_node, new_pref), ∅) /\
  ela_run new_node new_pref 0 some_rounds = Ok (0, after_rounds) /\ node_wf after_rounds.
Proof.
  assert (ela_new (Some some_options) (Some all_callbacks) 0 healthy ∅ = Ok (inr (new_node, new_pref), ∅)) as Hnew
    by (vm_compute; reflexivity).
  assert (ela_run new_node new_pref 0 some_rounds = Ok (0, after_rounds)) as Hrun by (vm_compute; reflexivity).
  split; [exact Hnew|]. split; [exact Hrun|].
  destruct (node_life _ _ _ _ _ _ _ _ 0 some_rounds 0 after_rounds Hnew) as [_ Hw].
  - repeat constructor.
  - exact Hrun.
  - exact Hw.
Defined.

(** An entry that creation accepts and the main loop does not survive. *)
Lemma bootstraps_asserted_witness :
  let b := {| b_ipv4 := Some "10.0.200.7"%string; b_ipv6 := None; b_port := "0"; b_public_key := bob_id |} in
  exists nodes, copy_bootstraps [b] = Ok (inr nodes) /\
    connect_to_bootstraps nodes alice_in_group = Fault AssertFailed.
Proof.
  intros b. destruct (bootstraps_asserted (tox := stox) [b]) as (r & Hr & Hn).
  assert (exists nodes, copy_bootstraps [b] = Ok (inr nodes)) as (nodes & Hnodes) by (eexists; vm_compute; reflexivity).
  exists nodes. split; [exact Hnodes|]. rewrite Hnodes in Hr. injection Hr as <-.
  specialize (Hn nodes alice_in_group eq_refl). rewrite decide_True in Hn; [exact Hn|].
  constructor. right. vm_compute. reflexivity.
Defined.
