(* ===== verification/FileTransfer.v ===== *)
(** * File transfers (src/src/filetransfer)

    filetransfer.c with filetransfer.h, filerequests.h and message.h: the connection
    of a sender and a receiver, the five files it carries, each on a channel of the
    stream, and the packets that pull and cancel a file.

    The session layer is the interface [SessionLayer]: its calls on its own state,
    and what it reports is a [stream_event] that the handlers of this file take.
    Removing a stream reports before it returns; everything else is reported later.
    A result below 0 of a call stands for the -1 the code sees together with the
    error that was set.  The application's callbacks are appended to a trace; its
    answer to data is [FtApp]. *)

From Stdlib Require Import Ascii.
From S2P Require Import Prelude ElaError Carrier FlexBuffer Multiplex CText.

(** ** Constants *)

Definition ELA_MAX_TRANSFERFILE_COUNT : Z := 5.
Definition ELA_MAX_FILE_NAME_LEN : Z := 255.
Definition ELA_MAX_FILE_ID_LEN : Z := ELA_MAX_ID_LEN.
Definition FILE_TRANSFER_REQUEST_EXPIRE_INTERVAL : Z := 5 * 60.

Definition SENDER : Z := 1.
Definition RECEIVER : Z := 2.

Inductive FileTransferState :=
| FileTransferState_none
| FileTransferState_standby
| FileTransferState_transfering
| FileTransferState_finished.
#[export] Instance FileTransferState_dec : EqDecision FileTransferState.
Proof. solve_decision. Defined.

Definition FileTransferConnection_initialized : Z := 1.
Definition FileTransferConnection_connecting : Z := 2.
Definition FileTransferConnection_connected : Z := 3.
Definition FileTransferConnection_closed : Z := 4.
Definition FileTransferConnection_failed : Z := 5.

Definition PACKET_PULL : Z := 2.
Definition PACKET_CANCEL : Z := 3.

Definition bundle_prefix : string := "filetransfer".

(** [sizeof(ElaFileTransferInfo)], with its padding. *)
Definition INFO_SIZE : Z := 320.

(** ** Data *)

Record ElaFileTransferInfo := { fi_filename : string; fi_fileid : string; fi_size : Z; fi_userdata : Z }.

Record FileTransferItem := {
  it_fileid : string; it_filename : option string; it_filesz : Z; it_userdata : Z;
  it_state : FileTransferState; it_channel : Z
}.
Definition no_item : FileTransferItem :=
  {| it_fileid := ""; it_filename := None; it_filesz := 0; it_userdata := 0;
     it_state := FileTransferState_none; it_channel := 0 |}.

Record FtCallbacks := {
  fc_state_changed : bool; fc_file : bool; fc_pull : bool; fc_data : bool; fc_pending : bool;
  fc_resume : bool; fc_cancel : bool
}.

(** What the application is told. *)
Inductive ft_event :=
| FtStateChanged (state : Z)
| FtFile (fileid : string) (filename : option string) (size : Z)
| FtPull (fileid : string) (offset : Z)
| FtData (fileid : string) (data : option (list byte)) (len : Z)
| FtPending (fileid : string)
| FtResume (fileid : string)
| FtCancel (fileid : string) (status : Z) (reason : string).

(** What the session layer reports. *)
Inductive stream_event :=
| SeStateChanged (state : Z)
| SeChannelOpen (channel : Z) (cookie : option string)
| SeChannelOpened (channel : Z)
| SeChannelClose (channel : Z)
| SeChannelData (channel : Z) (data : list byte)
| SeChannelPending (channel : Z)
| SeChannelResume (channel : Z).

(** session.h, on the state of a session. *)
Class SessionLayer (sess : Type) := {
  session_request : sess -> string -> Z * sess;
  session_reply_request : sess -> string -> Z -> option string -> Z * sess;
  session_start : sess -> list byte -> Z * sess;
  session_add_stream : sess -> Z * sess;
  (* what it reports before it returns *)
  session_remove_stream : sess -> Z -> list stream_event * sess;
  session_close : sess -> sess;
  stream_open_channel : sess -> Z -> string -> Z * sess;
  stream_write_channel : sess -> Z -> Z -> list byte -> Z * sess;
  stream_pend_channel : sess -> Z -> Z -> Z * sess;
  stream_resume_channel : sess -> Z -> Z -> Z * sess
}.

(** Whether the application wants more data. *)
Class FtApp := { more_data : list ft_event -> ft_event -> bool }.

Record FileRequest := { fr_expire_time : Z; fr_sdp : list byte }.

(** The extension of a node; times in microseconds. *)
Record FileTransferExt `{!HashTables} := {
  connect_callback : bool;
  filereqs : hashtable string FileRequest;
  ext_events : list (string * option ElaFileTransferInfo)   (* calls of the callback *)
}.

Record ElaFileTransfer {sess : Type} := {
  ft_errno : Z;                       (* the calling thread's error *)
  ft_address : string;
  ft_files : list FileTransferItem;   (* ELA_MAX_TRANSFERFILE_COUNT of them *)
  ft_session : bool;                  (* the pointer is not null *)
  ft_sess : sess;
  ft_stream : Z;
  ft_error : Z;
  ft_state : Z;
  ft_callbacks : FtCallbacks;
  ft_sdp : option (list byte);
  ft_sender_receiver : Z;
  ft_ready_to_connect : bool;
  ft_events : list ft_event
}.
Arguments ElaFileTransfer sess : clear implicits.

(** ** Requests for a connection *)

Section Requests.
Context `{!HashTables}.
Implicit Types ext : FileTransferExt.

Definition filereqs_put (now : Z) (from : string) (sdp : list byte) ext : FileTransferExt :=
  { ext with filereqs ::= ht_put from
    {| fr_expire_time := now + FILE_TRANSFER_REQUEST_EXPIRE_INTERVAL * 1000000; fr_sdp := sdp |} }.

Fixpoint remove_expired (now : Z) (l : list (string * FileRequest)) (t : hashtable string FileRequest) :
    hashtable string FileRequest :=
  match l with
  | [] => t
  | (from, fr) :: l => remove_expired now l (if fr_expire_time fr <? now then ht_remove from t else t)
  end.

Definition cleanup_expired_filereqs (now : Z) ext : FileTransferExt :=
  { ext with filereqs ::= fun t => remove_expired now (ht_items t) t }.

(** [strchr(s, ' ')] *)
Fixpoint has_space (s : string) : bool :=
  match s with String c r => bool_decide (c = " "%char) || has_space r | EmptyString => false end.

(** [sscanf(bundle, "%*s %255s %45s %llu", ...)] *)
Definition scan_request (bundle : string) : option ElaFileTransferInfo :=
  s ← scan_skip bundle;
  '(name, s) ← scan_word 255 s;
  '(id, s) ← scan_word 45 s;
  '(size, _) ← scan_llu s;
  Some {| fi_filename := name; fi_fileid := id; fi_size := size; fi_userdata := 0 |}.

Definition FROM_SIZE : Z := ELA_MAX_ID_LEN + 1 + 36.

Definition sessionreq_callback (now : Z) (from : string) (bundle : option string) (sdp : list byte) ext :
    Res FileTransferExt :=
  bundle ← deref bundle;   (* strncmp when it is null *)
  if negb (connect_callback ext) then Ok ext
  else
    let fti := if has_space bundle then scan_request bundle else None in
    match fti, has_space bundle with
    | None, true => Ok ext
    | _, _ =>
        from ← strcpy FROM_SIZE from;
        let ext := filereqs_put now from sdp ext in
        let ext := { ext with ext_events ::= cons (from, fti) } in
        Ok (cleanup_expired_filereqs now ext)
    end.
End Requests.

(** ** A transfer *)

Section FileTransfer.
Context `{!HashTables, !Base58, !Stack, !FtApp} {sess : Type} `{!SessionLayer sess}.
Implicit Types ft : ElaFileTransfer sess.

Definition ft_emit (e : ft_event) ft : ElaFileTransfer sess := { ft with ft_events ::= cons e }.
Definition ft_emit_if (b : bool) (e : ft_event) ft : ElaFileTransfer sess := if b then ft_emit e ft else ft.

(** [ela_set_error(code); return -1;] *)
Definition ft_fails (code : Z) ft : Res (Z * ElaFileTransfer sess) := Ok (-1, { ft with ft_errno := code }).

(** Pointers to items are their indices. *)
Definition item_at ft (i : nat) : FileTransferItem := default no_item (ft_files ft !! i).
Definition set_item (i : nat) (f : FileTransferItem -> FileTransferItem) ft : ElaFileTransfer sess :=
  { ft with ft_files ::= alter f i }.

Definition get_fileinfo_free ft : option nat :=
  fst <$> list_find (fun it => it_state it = FileTransferState_none) (ft_files ft).
Definition get_fileinfo_channel ft (channel : Z) : option nat :=
  fst <$> list_find (fun it => it_channel it = channel) (ft_files ft).
Definition get_fileinfo_fileid ft (fileid : string) : option nat :=
  fst <$> list_find (fun it => it_fileid it = fileid) (ft_files ft).

(** [strcmp] reads the name of every item before the one it finds. *)
Fixpoint find_name (i : nat) (filename : string) (l : list FileTransferItem) : Res (option nat) :=
  match l with
  | [] => Ok None
  | it :: l =>
      name ← deref (it_filename it);
      if str_eqb filename name then Ok (Some i) else find_name (S i) filename l
  end.
Definition get_fileinfo_name ft (filename : string) : Res (option nat) := find_name 0 filename (ft_files ft).

Definition filename_safe_free (it : FileTransferItem) : FileTransferItem := { it with it_filename := None }.

Definition notify_state_changed (state : Z) ft : ElaFileTransfer sess :=
  if ft_state ft =? state then ft
  else
    let ft := { ft with ft_state := state } in
    ft_emit_if (fc_state_changed (ft_callbacks ft)) (FtStateChanged state) ft.

(** ["%s %s %s %llu"] *)
Definition file_text (filename fileid : string) (size : Z) : string :=
  bundle_prefix +:+ " " +:+ filename +:+ " " +:+ fileid +:+ " " +:+ print_llu size.

(** *** The state of the stream *)

Definition sender_state_changed (state : Z) ft : Res (ElaFileTransfer sess) :=
  _ ← c_assert (ft_session ft);
  _ ← c_assert (ft_sender_receiver ft =? SENDER);
  let item := item_at ft 0 in
  if state =? ElaStreamState_initialized then
    let ft := notify_state_changed FileTransferConnection_connecting ft in
    if FileTransferConnection_closed <=? ft_state ft then Ok ft
    else
      bundle ← (if bool_decide (it_state item = FileTransferState_standby) then
                  name ← deref (it_filename item);
                  strcpy (INFO_SIZE + 64) (file_text name (it_fileid item) (it_filesz item))
                else strcpy (INFO_SIZE + 64) bundle_prefix);
      let '(rc, s) := session_request (ft_sess ft) bundle in
      let ft := { ft with ft_sess := s } in
      Ok (if rc <? 0 then notify_state_changed FileTransferConnection_failed ft else ft)
  else if state =? ElaStreamState_transport_ready then Ok { ft with ft_ready_to_connect := true }
  else if state =? ElaStreamState_connecting then Ok ft
  else if state =? ElaStreamState_connected then
    let ft := notify_state_changed FileTransferConnection_connected ft in
    if FileTransferConnection_closed <=? ft_state ft then Ok ft
    else if negb (bool_decide (it_state item = FileTransferState_standby)) then Ok ft
    else
      name ← deref (it_filename item);
      bundle ← strcpy (INFO_SIZE + 64) (file_text name (it_fileid item) (it_filesz item));
      let '(channel, s) := stream_open_channel (ft_sess ft) (ft_stream ft) bundle in
      let ft := { ft with ft_sess := s } in
      if channel <? 0 then
        Ok (set_item 0 (fun it => { filename_safe_free { it with it_channel := -1 } with
                                    it_state := FileTransferState_none }) ft)
      else Ok (set_item 0 (fun it => { it with it_channel := channel }) ft)
  else if state =? ElaStreamState_failed then Ok (notify_state_changed FileTransferConnection_failed ft)
  else if state =? ElaStreamState_closed then
    Ok (notify_state_changed (if negb (ft_error ft =? 0) then FileTransferConnection_failed
                              else FileTransferConnection_closed) ft)
  else Fault AssertFailed.

Definition receiver_state_changed (state : Z) ft : Res (ElaFileTransfer sess) :=
  _ ← c_assert (ft_session ft);
  _ ← c_assert (ft_sender_receiver ft =? RECEIVER);
  let item := item_at ft 0 in
  if state =? ElaStreamState_initialized then
    let ft := notify_state_changed FileTransferConnection_connecting ft in
    if FileTransferConnection_closed <=? ft_state ft then Ok ft
    else
      bundle ← strcpy (ELA_MAX_FILE_ID_LEN + 33)
        (if bool_decide (it_state item = FileTransferState_standby)
         then bundle_prefix +:+ " " +:+ it_fileid item else bundle_prefix);
      let '(rc, s) := session_reply_request (ft_sess ft) bundle 0 None in
      let ft := { ft with ft_sess := s } in
      Ok (if rc <? 0 then notify_state_changed FileTransferConnection_failed ft else ft)
  else if state =? ElaStreamState_transport_ready then
    let '(rc, s) := session_start (ft_sess ft) (default [] (ft_sdp ft)) in
    let ft := { ft with ft_sess := s } in
    Ok (if rc <? 0 then notify_state_changed FileTransferConnection_failed ft else ft)
  else if state =? ElaStreamState_connecting then Ok ft
  else if state =? ElaStreamState_connected then
    Ok (notify_state_changed FileTransferConnection_connected ft)
  else if state =? ElaStreamState_failed then Ok (notify_state_changed FileTransferConnection_failed ft)
  else if state =? ElaStreamState_closed then
    _ ← c_assert (ft_error ft =? 0);
    Ok (notify_state_changed FileTransferConnection_closed ft)
  else Fault AssertFailed.

Definition stream_state_changed (stream state : Z) ft : Res (ElaFileTransfer sess) :=
  _ ← c_assert (ft_session ft);
  _ ← c_assert (stream =? ft_stream ft);
  if ft_sender_receiver ft =? SENDER then sender_state_changed state ft
  else if ft_sender_receiver ft =? RECEIVER then receiver_state_changed state ft
  else Fault AssertFailed.

(** *** Channels *)

(** The assertions of the channel callbacks. *)
Definition channel_guard (stream : Z) ft : Res unit :=
  _ ← c_assert (ft_session ft);
  _ ← c_assert (ft_stream ft =? stream);
  c_assert (ft_state ft =? FileTransferConnection_connected).

(** [sscanf(cookie, "%31s %255s %45s %llu", ...)] with the prefix as expected *)
Definition scan_cookie (cookie : string) : option (string * string * Z) :=
  '(prefix, s) ← scan_word 31 cookie;
  '(name, s) ← scan_word 255 s;
  '(id, s) ← scan_word 45 s;
  '(size, _) ← scan_llu s;
  if str_eqb prefix bundle_prefix then Some (name, id, size) else None.

Definition stream_channel_open (stream channel : Z) (cookie : option string) ft :
    Res (bool * ElaFileTransfer sess) :=
  _ ← channel_guard stream ft;
  if negb (ft_sender_receiver ft =? RECEIVER) then Ok (false, ft)
  else
    match cookie ≫= scan_cookie with
    | None => Ok (false, ft)
    | Some (name, fileid, size) =>
        match get_fileinfo_fileid ft fileid with
        | None =>
            match get_fileinfo_free ft with
            | None => Ok (false, ft)
            | Some i =>
                id ← strcpy (ELA_MAX_FILE_ID_LEN + 1) fileid;
                Ok (true, set_item i (fun it =>
                  {| it_fileid := id; it_filename := Some name; it_filesz := size;
                     it_userdata := it_userdata it; it_state := FileTransferState_standby;
                     it_channel := channel |}) ft)
            end
        | Some i =>
            if negb (bool_decide (it_state (item_at ft i) = FileTransferState_standby)) then Ok (false, ft)
            else if negb (it_filesz (item_at ft i) =? size) then Ok (false, ft)
            else Ok (true, set_item i (fun it => { it with it_channel := channel }) ft)
        end
    end.

Definition stream_channel_opened (channel : Z) ft : ElaFileTransfer sess :=
  if negb (ft_sender_receiver ft =? RECEIVER) then ft
  else
    match get_fileinfo_channel ft channel with
    | None => ft
    | Some i =>
        let item := item_at ft i in
        ft_emit_if (fc_file (ft_callbacks ft))
          (FtFile (it_fileid item) (it_filename item) (it_filesz item)) ft
    end.

Definition stream_channel_close (stream channel : Z) ft : Res (ElaFileTransfer sess) :=
  _ ← channel_guard stream ft;
  match get_fileinfo_channel ft channel with
  | None => Ok ft
  | Some i =>
      Ok (set_item i (fun it => filename_safe_free { it with it_state := FileTransferState_none }) ft)
  end.

(** *** Packets *)

(** [packet_pull_t]: the type, six bytes of padding, the offset. *)
Definition packet_pull (offset : Z) : list byte :=
  be_bytes 2 PACKET_PULL ++ stack_bytes 6 ++ be_bytes 8 (u64 offset).

(** [packet_cancel_t] with a longer reason: the type, two bytes of padding, the
    status, the reason with its terminator, the padding of the end. *)
Definition packet_cancel (status : Z) (reason : string) : list byte :=
  be_bytes 2 PACKET_CANCEL ++ stack_bytes 2 ++ be_bytes 4 (u32 status) ++ c_bytes reason ++ stack_bytes 3.

Definition packet_text (data : list byte) (off : nat) : Res string :=
  match c_string (drop off data) with Some (s, _) => Ok s | None => Fault BufferOverflow end.

Definition sender_channel_data (i : nat) (fileid : string) (data : list byte) ft :
    Res (bool * ElaFileTransfer sess) :=
  type ← packet_field data 0 2;
  if be_read type =? PACKET_PULL then
    if negb (bool_decide (it_state (item_at ft i) = FileTransferState_standby)) then Ok (false, ft)
    else
      offset ← packet_field data 8 8;
      let ft := set_item i (fun it => { it with it_state := FileTransferState_transfering }) ft in
      Ok (true, ft_emit_if (fc_pull (ft_callbacks ft)) (FtPull fileid (be_read offset)) ft)
  else if be_read type =? PACKET_CANCEL then
    let ft := set_item i (fun it => { it with it_state := FileTransferState_none }) ft in
    status ← packet_field data 4 4;
    reason ← (if fc_cancel (ft_callbacks ft) then packet_text data 8 else Ok ""%string);
    Ok (false, ft_emit_if (fc_cancel (ft_callbacks ft)) (FtCancel fileid (i32 (be_read status)) reason) ft)
  else Ok (false, ft).

Definition receiver_channel_data (i : nat) (fileid : string) (data : list byte) ft :
    Res (bool * ElaFileTransfer sess) :=
  if negb (bool_decide (it_state (item_at ft i) = FileTransferState_transfering)) then Ok (true, ft)
  else if fc_data (ft_callbacks ft) then
    let len := Z.of_nat (length data) in
    let e := FtData fileid (if 0 <? len then Some data else None) len in
    Ok (more_data (ft_events ft) e, ft_emit e ft)
  else Ok (true, ft).

Definition stream_channel_data (stream channel : Z) (data : list byte) ft : Res (bool * ElaFileTransfer sess) :=
  _ ← channel_guard stream ft;
  match get_fileinfo_channel ft channel with
  | None => Ok (false, ft)
  | Some i =>
      let fileid := it_fileid (item_at ft i) in
      if ft_sender_receiver ft =? SENDER then sender_channel_data i fileid data ft
      else if ft_sender_receiver ft =? RECEIVER then receiver_channel_data i fileid data ft
      else Fault AssertFailed
  end.

(** [stream_channel_pending] and [stream_channel_resume]: the sender's item goes from
    one state to the other, and the application is told. *)
Definition flow_change (stream channel : Z) (from to : FileTransferState) (told : FtCallbacks -> bool)
    (event : string -> ft_event) ft : Res (ElaFileTransfer sess) :=
  _ ← channel_guard stream ft;
  if negb (ft_sender_receiver ft =? SENDER) then Ok ft
  else
    match get_fileinfo_channel ft channel with
    | None => Ok ft
    | Some i =>
        if negb (bool_decide (it_state (item_at ft i) = from)) then Ok ft
        else
          let ft := ft_emit_if (told (ft_callbacks ft)) (event (it_fileid (item_at ft i))) ft in
          Ok (set_item i (fun it => { it with it_state := to }) ft)
    end.

Definition stream_channel_pending (stream channel : Z) ft : Res (ElaFileTransfer sess) :=
  flow_change stream channel FileTransferState_transfering FileTransferState_standby
    fc_pending FtPending ft.

Definition stream_channel_resume (stream channel : Z) ft : Res (ElaFileTransfer sess) :=
  flow_change stream channel FileTransferState_standby FileTransferState_transfering
    fc_resume FtResume ft.

(** What the session layer reports for a stream, with the answer where one is asked. *)
Definition stream_step (stream : Z) (e : stream_event) ft : Res (bool * ElaFileTransfer sess) :=
  match e with
  | SeStateChanged state => ft ← stream_state_changed stream state ft; Ok (true, ft)
  | SeChannelOpen channel cookie => stream_channel_open stream channel cookie ft
  | SeChannelOpened channel => Ok (true, stream_channel_opened channel ft)
  | SeChannelClose channel => ft ← stream_channel_close stream channel ft; Ok (true, ft)
  | SeChannelData channel data => stream_channel_data stream channel data ft
  | SeChannelPending channel => ft ← stream_channel_pending stream channel ft; Ok (true, ft)
  | SeChannelResume channel => ft ← stream_channel_resume stream channel ft; Ok (true, ft)
  end.

Fixpoint stream_steps (stream : Z) (es : list stream_event) ft : Res (ElaFileTransfer sess) :=
  match es with
  | [] => Ok ft
  | e :: es => '(_, ft) ← stream_step stream e ft; stream_steps stream es ft
  end.

(** The stream is removed; what the layer reports meanwhile is handled. *)
Definition remove_stream (stream : Z) ft : Res (ElaFileTransfer sess) :=
  let '(es, s) := session_remove_stream (ft_sess ft) stream in
  stream_steps stream es { ft with ft_sess := s }.

(** *** The answer to the request of a sender *)

Definition remove_stream_secure (error : Z) ft : Res (ElaFileTransfer sess) :=
  let stream := ft_stream ft in
  _ ← c_assert (ft_session ft);
  _ ← c_assert (0 <? ft_stream ft);
  remove_stream stream { ft with ft_stream := -1; ft_error := error }.

(** The loop at its beginning waits for another thread: here it has ended. *)
Definition sessionreq_complete_callback (bundle : option string) (status : Z) (sdp : list byte) ft :
    Res (ElaFileTransfer sess) :=
  _ ← c_assert (ft_sender_receiver ft =? SENDER);
  _ ← c_assert (match bundle with Some b => String.prefix bundle_prefix b | None => false end);
  if negb (ft_ready_to_connect ft) && negb (ft_state ft =? FileTransferConnection_failed)
  then Fault Diverges
  else if ft_state ft =? FileTransferConnection_failed then Ok ft
  else if negb (status =? 0) then remove_stream_secure 0 ft
  else
    let bundle := or_empty bundle in
    let consistent :=
      negb (has_space bundle) ||
      match (s ← scan_skip bundle; scan_word 45 s) with
      | Some (fileid, _) => str_eqb fileid (it_fileid (item_at ft 0))
      | None => false
      end in
    if negb consistent then remove_stream_secure 1 ft
    else
      _ ← c_assert (bool_decide (ft_sdp ft = None));
      let '(rc, s) := session_start (ft_sess ft) sdp in
      let ft := { ft with ft_sess := s } in
      if rc <? 0 then remove_stream_secure 1 ft else Ok ft.

(** ** Calls of the application *)

(** [new_id] is the text of a fresh public key. *)
Definition ela_filetransfer_fileid (length : Z) (new_id : string) : option string :=
  if length <=? ELA_MAX_FILE_ID_LEN then None else Some new_id.

(** [basename] of POSIX. *)
Fixpoint drop_slashes (s : list ascii) : list ascii :=
  match s with c :: r => if bool_decide (c = "/"%char) then drop_slashes r else s | [] => [] end.
Fixpoint until_slash (s : list ascii) : list ascii :=
  match s with c :: r => if bool_decide (c = "/"%char) then [] else c :: until_slash r | [] => [] end.
Definition basename (s : string) : string :=
  match String.list_ascii_of_string s with
  | [] => "."
  | cs => match reverse (until_slash (drop_slashes (reverse cs))) with
          | [] => "/" | name => String.string_of_list_ascii name end
  end.

Definition null_or_empty (s : option string) : bool :=
  match s with None | Some ""%string => true | _ => false end.

(** What [ela_filetransfer_new] and [ela_filetransfer_add] accept. *)
Definition fileinfo_ok (fi : ElaFileTransferInfo) : bool :=
  (str_eqb (fi_fileid fi) "" || is_valid_key (fi_fileid fi)) &&
  negb (str_eqb (fi_filename fi) "") && negb (fi_size fi =? 0).

Definition choose_fileid (fi : ElaFileTransferInfo) (new_id : string) : Res string :=
  if negb (str_eqb (fi_fileid fi) "") then strcpy (ELA_MAX_FILE_ID_LEN + 1) (fi_fileid fi)
  else Ok (or_empty (ela_filetransfer_fileid (ELA_MAX_FILE_ID_LEN + 1) new_id)).

Definition ADDRESS_SIZE : Z := ELA_MAX_EXTENSION_NAME_LEN + ELA_MAX_ID_LEN + 2.

(** [ext] is null before the extension is initialised; [session] is the result of
    [ela_session_new]. *)
Definition ela_filetransfer_new (ext : bool) (address : option string) (fileinfo : option ElaFileTransferInfo)
    (callbacks : option FtCallbacks) (new_id : string) (session : Z + sess) :
    Res (Z + ElaFileTransfer sess) :=
  match callbacks with
  | None => Ok (inl (ELA_GENERAL_ERROR ELAERR_INVALID_ARGS))
  | Some cbs =>
      if null_or_empty address || negb (match fileinfo with Some fi => fileinfo_ok fi | None => true end)
      then Ok (inl (ELA_GENERAL_ERROR ELAERR_INVALID_ARGS))
      else
        item ← (match fileinfo with
                | Some fi =>
                    id ← choose_fileid fi new_id;
                    Ok {| it_fileid := id; it_filename := Some (basename (fi_filename fi));
                          it_filesz := fi_size fi; it_userdata := fi_userdata fi;
                          it_state := FileTransferState_standby; it_channel := -1 |}
                | None => Ok no_item
                end);
        if negb ext then Ok (inl (ELA_GENERAL_ERROR ELAERR_NOT_EXIST))
        else
          match session with
          | inl code => Ok (inl code)
          | inr s =>
              address ← strcpy ADDRESS_SIZE (or_empty address);
              Ok (inr {| ft_errno := 0; ft_address := address;
                         ft_files := item :: replicate 4 no_item;
                         ft_session := true; ft_sess := s; ft_stream := -1; ft_error := 0;
                         ft_state := FileTransferConnection_initialized; ft_callbacks := cbs;
                         ft_sdp := None; ft_sender_receiver := 0; ft_ready_to_connect := false;
                         ft_events := [] |})
          end
  end.

Definition ela_filetransfer_connect ft : Res (Z * ElaFileTransfer sess) :=
  if negb (ft_state ft =? FileTransferConnection_initialized)
  then ft_fails (ELA_GENERAL_ERROR ELAERR_WRONG_STATE) ft
  else
    _ ← c_assert (ft_session ft);
    _ ← c_assert (ft_stream ft <? 0);
    let '(rc, s) := session_add_stream (ft_sess ft) in
    let ft := { ft with ft_sender_receiver := SENDER; ft_sess := s;
                        ft_stream := if rc <? 0 then -1 else rc } in
    if rc <? 0 then ft_fails rc ft else Ok (0, ft).

Definition ela_filetransfer_accept_connect (ext : FileTransferExt) ft :
    Res (Z * FileTransferExt * ElaFileTransfer sess) :=
  if negb (ft_state ft =? FileTransferConnection_initialized)
  then '(rc, ft) ← ft_fails (ELA_GENERAL_ERROR ELAERR_WRONG_STATE) ft; Ok (rc, ext, ft)
  else
    _ ← c_assert (ft_session ft);
    _ ← c_assert (ft_stream ft <? 0);
    match ht_get (filereqs ext) (ft_address ft) with
    | None => '(rc, ft) ← ft_fails (ELA_GENERAL_ERROR ELAERR_NOT_EXIST) ft; Ok (rc, ext, ft)
    | Some fr =>
        let ext := { ext with filereqs ::= ht_remove (ft_address ft) } in
        let '(rc, s) := session_add_stream (ft_sess ft) in
        let ft := { ft with ft_sdp := Some (fr_sdp fr); ft_sender_receiver := RECEIVER; ft_sess := s;
                            ft_stream := if rc <? 0 then -1 else rc } in
        if rc <? 0 then '(rc, ft) ← ft_fails rc ft; Ok (rc, ext, ft) else Ok (0, ext, ft)
    end.

Definition ela_filetransfer_close (ext : FileTransferExt) ft : Res (FileTransferExt * ElaFileTransfer sess) :=
  '(ext, ft) ←
    (match ht_get (filereqs ext) (ft_address ft) with
     | Some fr =>
         _ ← c_assert (ft_stream ft =? -1);
         let '(rc, s) := session_reply_request (ft_sess ft) bundle_prefix (-1)
                           (Some "Refuse filetransfer connection"%string) in
         Ok ({ ext with filereqs ::= ht_remove (ft_address ft) }, { ft with ft_sess := s })
     | None => Ok (ext, ft)
     end);
  ft ← (if 0 <? ft_stream ft then
          ft ← remove_stream (ft_stream ft) ft; Ok { ft with ft_stream := -1 }
        else Ok ft);
  let ft := if ft_session ft then { ft with ft_sess ::= session_close; ft_session := false } else ft in
  Ok (ext, { ft with ft_state := FileTransferConnection_closed }).

(** The item of a fileid, as all calls below begin. *)
Definition with_item (fileid : option string) (ft : ElaFileTransfer sess)
    (k : nat -> Res (Z * ElaFileTransfer sess)) : Res (Z * ElaFileTransfer sess) :=
  if null_or_empty fileid then ft_fails (ELA_GENERAL_ERROR ELAERR_INVALID_ARGS) ft
  else
    match get_fileinfo_fileid ft (or_empty fileid) with
    | None => ft_fails (ELA_GENERAL_ERROR ELAERR_NOT_EXIST) ft
    | Some i => k i
    end.

(** The checks on the role, the connection and the item, and the assertions behind
    them. *)
Definition in_state (role : Z) (ok : FileTransferState -> bool) (i : nat) (ft : ElaFileTransfer sess)
    (k : Res (Z * ElaFileTransfer sess)) : Res (Z * ElaFileTransfer sess) :=
  if negb (ft_sender_receiver ft =? role) then ft_fails (ELA_GENERAL_ERROR ELAERR_WRONG_STATE) ft
  else if negb (ft_state ft =? FileTransferConnection_connected)
  then ft_fails (ELA_GENERAL_ERROR ELAERR_WRONG_STATE) ft
  else if negb (ok (it_state (item_at ft i))) then ft_fails (ELA_GENERAL_ERROR ELAERR_WRONG_STATE) ft
  else
    _ ← c_assert (ft_session ft);
    _ ← c_assert (0 <? ft_stream ft);
    _ ← c_assert (0 <? it_channel (item_at ft i));
    k.

Definition is_state (st : FileTransferState) (s : FileTransferState) : bool := bool_decide (s = st).

(** The end of a call that goes down: its error, or [k] of its result. *)
Definition went_down (rc : Z) (s : sess) ft (k : ElaFileTransfer sess -> Z * ElaFileTransfer sess) :
    Res (Z * ElaFileTransfer sess) :=
  let ft := { ft with ft_sess := s } in
  if rc <? 0 then ft_fails rc ft else Ok (k ft).

Definition to_state (st : FileTransferState) (i : nat) ft : Z * ElaFileTransfer sess :=
  (0, set_item i (fun it => { it with it_state := st }) ft).

Definition ela_filetransfer_get_fileid ft (filename : option string) (length : Z) :
    Res (option string * ElaFileTransfer sess) :=
  if null_or_empty filename || (length <=? ELA_MAX_FILE_ID_LEN)
  then Ok (None, { ft with ft_errno := ELA_GENERAL_ERROR ELAERR_INVALID_ARGS })
  else
    item ← get_fileinfo_name ft (or_empty filename);
    match item with
    | None => Ok (None, { ft with ft_errno := ELA_GENERAL_ERROR ELAERR_INVALID_ARGS })
    | Some i => id ← strcpy length (it_fileid (item_at ft i)); Ok (Some id, ft)
    end.

Definition ela_filetransfer_get_filename ft (fileid : option string) (length : Z) :
    Res (option string * ElaFileTransfer sess) :=
  if null_or_empty fileid || (length =? 0)
  then Ok (None, { ft with ft_errno := ELA_GENERAL_ERROR ELAERR_INVALID_ARGS })
  else
    match get_fileinfo_fileid ft (or_empty fileid) with
    | None => Ok (None, { ft with ft_errno := ELA_GENERAL_ERROR ELAERR_NOT_EXIST })
    | Some i =>
        name ← deref (it_filename (item_at ft i));
        if length <=? strlen name
        then Ok (None, { ft with ft_errno := ELA_GENERAL_ERROR ELAERR_BUFFER_TOO_SMALL })
        else name ← strcpy length name; Ok (Some name, ft)
    end.

Definition ela_filetransfer_add ft (fileinfo : option ElaFileTransferInfo) (new_id : string) :
    Res (Z * ElaFileTransfer sess) :=
  match fileinfo with
  | None => ft_fails (ELA_GENERAL_ERROR ELAERR_INVALID_ARGS) ft
  | Some fi =>
      if negb (fileinfo_ok fi) then ft_fails (ELA_GENERAL_ERROR ELAERR_INVALID_ARGS) ft
      else if negb (ft_sender_receiver ft =? SENDER) then ft_fails (ELA_GENERAL_ERROR ELAERR_WRONG_STATE) ft
      else if negb (ft_state ft =? FileTransferConnection_connected)
      then ft_fails (ELA_GENERAL_ERROR ELAERR_WRONG_STATE) ft
      else
        _ ← c_assert (ft_session ft);
        _ ← c_assert (0 <? ft_stream ft);
        match get_fileinfo_free ft with
        | None => ft_fails (ELA_GENERAL_ERROR ELAERR_LIMIT_EXCEEDED) ft
        | Some i =>
            id ← choose_fileid fi new_id;
            let ft := set_item i (fun it =>
              {| it_fileid := id; it_filename := Some (basename (fi_filename fi));
                 it_filesz := fi_size fi; it_userdata := fi_userdata fi;
                 it_state := it_state it; it_channel := it_channel it |}) ft in
            cookie ← strcpy (INFO_SIZE + 64) (file_text (fi_filename fi) id (fi_size fi));
            let '(channel, s) := stream_open_channel (ft_sess ft) (ft_stream ft) cookie in
            let ft := { ft with ft_sess := s } in
            if channel <? 0
            then ft_fails channel (set_item i (fun it => filename_safe_free { it with it_channel := -1 }) ft)
            else Ok (to_state FileTransferState_standby i
                       (set_item i (fun it => { it with it_channel := channel }) ft))
        end
  end.

Definition ela_filetransfer_pull ft (fileid : option string) (offset : Z) : Res (Z * ElaFileTransfer sess) :=
  with_item fileid ft (fun i =>
    if it_filesz (item_at ft i) <=? offset then ft_fails (ELA_GENERAL_ERROR ELAERR_INVALID_ARGS) ft
    else in_state RECEIVER (is_state FileTransferState_standby) i ft (
      let '(rc, s) := stream_write_channel (ft_sess ft) (ft_stream ft) (it_channel (item_at ft i))
                        (packet_pull offset) in
      went_down rc s ft (to_state FileTransferState_transfering i))).

Definition ela_filetransfer_send ft (fileid : option string) (data : option (list byte)) (length : Z) :
    Res (Z * ElaFileTransfer sess) :=
  let null := match data with None => true | Some _ => false end in
  if null_or_empty fileid || (negb (length =? 0) && null) || ((length =? 0) && negb null)
  then ft_fails (ELA_GENERAL_ERROR ELAERR_INVALID_ARGS) ft
  else with_item fileid ft (fun i =>
    if it_filesz (item_at ft i) <? length then ft_fails (ELA_GENERAL_ERROR ELAERR_INVALID_ARGS) ft
    else in_state SENDER (is_state FileTransferState_transfering) i ft (
      let '(rc, s) := stream_write_channel (ft_sess ft) (ft_stream ft) (it_channel (item_at ft i))
                        (default [] data) in
      went_down rc s ft (fun ft => (rc, ft)))).

Definition ela_filetransfer_cancel ft (fileid : option string) (status : Z) (reason : option string) :
    Res (Z * ElaFileTransfer sess) :=
  match reason with
  | None => ft_fails (ELA_GENERAL_ERROR ELAERR_INVALID_ARGS) ft
  | Some reason =>
      with_item fileid ft (fun i =>
        in_state RECEIVER (fun s => negb (is_state FileTransferState_none s)) i ft (
          let '(rc, s) := stream_write_channel (ft_sess ft) (ft_stream ft) (it_channel (item_at ft i))
                            (packet_cancel status reason) in
          went_down rc s ft (fun ft => (0, ft))))
  end.

Definition ela_filetransfer_pend ft (fileid : option string) : Res (Z * ElaFileTransfer sess) :=
  with_item fileid ft (fun i =>
    in_state RECEIVER (is_state FileTransferState_transfering) i ft (
      let '(rc, s) := stream_pend_channel (ft_sess ft) (ft_stream ft) (it_channel (item_at ft i)) in
      went_down rc s ft (to_state FileTransferState_standby i))).

Definition ela_filetransfer_resume ft (fileid : option string) : Res (Z * ElaFileTransfer sess) :=
  with_item fileid ft (fun i =>
    in_state RECEIVER (is_state FileTransferState_standby) i ft (
      let '(rc, s) := stream_resume_channel (ft_sess ft) (ft_stream ft) (it_channel (item_at ft i)) in
      went_down rc s ft (to_state FileTransferState_transfering i))).

Definition ela_filetransfer_set_userdata ft (fileid : option string) (userdata : Z) :
    Res (Z * ElaFileTransfer sess) :=
  with_item fileid ft (fun i =>
    if negb (ft_state ft =? FileTransferConnection_connected)
    then ft_fails (ELA_GENERAL_ERROR ELAERR_WRONG_STATE) ft
    else Ok (0, set_item i (fun it => { it with it_userdata := userdata }) ft)).

(** The pointer, 0 with an error set. *)
Definition ela_filetransfer_get_userdata ft (fileid : option string) : Z * ElaFileTransfer sess :=
  let fails code := (0, { ft with ft_errno := code }) in
  if null_or_empty fileid then fails (ELA_GENERAL_ERROR ELAERR_INVALID_ARGS)
  else
    match get_fileinfo_fileid ft (or_empty fileid) with
    | None => fails (ELA_GENERAL_ERROR ELAERR_NOT_EXIST)
    | Some i =>
        if negb (ft_state ft =? FileTransferConnection_connected)
        then fails (ELA_GENERAL_ERROR ELAERR_WRONG_STATE)
        else (it_userdata (item_at ft i), { ft with ft_errno := 0 })
    end.
End FileTransfer.
