(* ===== verification/FileTransferProps.v ===== *)
(** * Properties of file transfers

    The description of a file survives the text it travels in; pulls, pauses and
    resumptions of the receiver reach the sender's application in order, each once,
    and both ends agree on the state of a file when nothing is under way; data
    arrives in order as long as the receiver does not pause.  What makes the code
    fail an assertion or follow a null pointer is named. *)

From Stdlib Require Import Ascii.
From S2P Require Import Prelude ElaError Carrier FlexBuffer Multiplex CText FileTransfer.

(** ** The session layer *)

(** What goes over a stream to the peer. *)
Inductive link_msg :=
| LinkOpen (channel : Z) (cookie : string)
| LinkData (channel : Z) (data : list byte)
| LinkPend (channel : Z)
| LinkResume (channel : Z).

(** A call on a channel is taken, as one message, or refused without any. *)
Class SessionLaws (sess : Type) `{!SessionLayer sess} := {
  link_sent : sess -> list link_msg;
  open_channel_spec s stream cookie rc s' : stream_open_channel s stream cookie = (rc, s') ->
    0 < rc /\ link_sent s' = link_sent s ++ [LinkOpen rc cookie] \/ rc < 0 /\ link_sent s' = link_sent s;
  write_channel_spec s stream ch data rc s' : stream_write_channel s stream ch data = (rc, s') ->
    0 <= rc /\ link_sent s' = link_sent s ++ [LinkData ch data] \/ rc < 0 /\ link_sent s' = link_sent s;
  pend_channel_spec s stream ch rc s' : stream_pend_channel s stream ch = (rc, s') ->
    rc = 0 /\ link_sent s' = link_sent s ++ [LinkPend ch] \/ rc < 0 /\ link_sent s' = link_sent s;
  resume_channel_spec s stream ch rc s' : stream_resume_channel s stream ch = (rc, s') ->
    rc = 0 /\ link_sent s' = link_sent s ++ [LinkResume ch] \/ rc < 0 /\ link_sent s' = link_sent s
}.

(** ** The text of a request *)

(** What travels as one word each. *)
Definition portable (name id : string) (size : Z) : Prop :=
  is_word 255 name = true /\ is_word 45 id = true /\ is_u64 size.

Lemma scan_fields name id size : portable name id size ->
  let s := String " " (name +:+ String " " (id +:+ String " " (print_llu size))) in
  exists s1 s2, scan_word 255 s = Some (name, s1) /\ scan_word 45 s1 = Some (id, s2) /\
    scan_llu s2 = Some (size, ""%string).
Proof.
  intros (Hn & Hi & Hs). cbv zeta. do 2 eexists. split_and!.
  - by apply (scan_word_app 255 name).
  - by apply (scan_word_app 45 id).
  - by apply scan_llu_print.
Qed.

Lemma scan_cookie_text name id size : portable name id size ->
  scan_cookie (file_text name id size) = Some (name, id, size).
Proof.
  intros Hp. destruct (scan_fields name id size Hp) as (s1 & s2 & E1 & E2 & E3).
  destruct (scan_word_app 31 bundle_prefix
    (String " " (name +:+ String " " (id +:+ String " " (print_llu size))))) as [E _]; [done|done|].
  change (bundle_prefix +:+ String " " _) with (file_text name id size) in E.
  unfold scan_cookie. rewrite E. cbn [mbind option_bind]. rewrite E1. cbn [mbind option_bind].
  rewrite E2. cbn [mbind option_bind]. by rewrite E3.
Qed.

Lemma scan_request_text name id size : portable name id size ->
  scan_request (file_text name id size) =
    Some {| fi_filename := name; fi_fileid := id; fi_size := size; fi_userdata := 0 |}.
Proof.
  intros Hp. destruct (scan_fields name id size Hp) as (s1 & s2 & E1 & E2 & E3).
  unfold scan_request, scan_skip. set (s := file_text name id size).
  destruct (scan_word_app (String.length s) bundle_prefix
    (String " " (name +:+ String " " (id +:+ String " " (print_llu size))))) as [E _]; [|done|].
  { unfold is_word. change (strlen bundle_prefix) with 12.
    assert (12 <= strlen s) as Hs.
    { unfold s, file_text. rewrite strlen_app. change (strlen bundle_prefix) with 12.
      pose proof (strlen_nonneg (" " +:+ name +:+ " " +:+ id +:+ " " +:+ print_llu size)). lia. }
    unfold strlen in Hs. by rewrite (proj2 (Z.leb_le 12 _)). }
  change (bundle_prefix +:+ String " " _) with s in E. rewrite E. cbn [fmap option_fmap option_map snd mbind option_bind].
  rewrite E1. cbn [mbind option_bind]. rewrite E2. cbn [mbind option_bind]. by rewrite E3.
Qed.

(** ** Items *)

Lemma find_alter {A} (P : A -> Prop) `{!forall x, Decision (P x)} f i l :
  (forall x, l !! i = Some x -> P (f x) <-> P x) ->
  fst <$> list_find P (alter f i l) = fst <$> list_find P l.
Proof.
  revert i. induction l as [|x l IH]; intros i Hi; [done|]. destruct i as [|i]; cbn.
  - pose proof (Hi x eq_refl) as Hx. destruct (decide (P (f x))), (decide (P x)); tauto || done.
  - destruct (decide (P x)); [done|]. specialize (IH i Hi).
    destruct (list_find P (alter f i l)) as [[]|], (list_find P l) as [[]|]; cbn in *; try done.
    by injection IH as ->.
Qed.

Lemma find_index {A} (P : A -> Prop) `{!forall x, Decision (P x)} l i :
  fst <$> list_find P l = Some i <->
  exists x, l !! i = Some x /\ P x /\ forall j y, l !! j = Some y -> (j < i)%nat -> ~ P y.
Proof.
  split.
  - intros E. destruct (list_find P l) as [[j x]|] eqn:Hf; [|done]. injection E as ->.
    apply list_find_Some in Hf as (Hx & HP & Hj). by exists x.
  - intros (x & Hx & HP & Hj). replace (list_find P l) with (Some (i, x)); [done|].
    symmetry. by apply list_find_Some.
Qed.

Lemma find_none {A} (P : A -> Prop) `{!forall x, Decision (P x)} l :
  fst <$> list_find P l = None <-> Forall (fun x => ~ P x) l.
Proof. pose proof (list_find_None P l) as <-. destruct (list_find P l) as [[]|]; by split. Qed.

Section Props.
Context `{!HashTables, !Base58, !Stack, !FtApp} {sess : Type} `{!SessionLayer sess, !SessionLaws sess}.
Implicit Types ft : ElaFileTransfer sess.

Lemma item_at_set i j f ft : (i < length (ft_files ft))%nat ->
  item_at (set_item i f ft) j = if decide (i = j) then f (item_at ft j) else item_at ft j.
Proof.
  intros Hi. unfold item_at, set_item. cbn. rewrite list_lookup_alter. case_decide as Hij; [|done].
  subst j. by destruct (lookup_lt_is_Some_2 _ _ Hi) as [x ->].
Qed.

Lemma length_set_item i f ft : length (ft_files (set_item i f ft)) = length (ft_files ft).
Proof. apply length_alter. Qed.

(** A connected end with the item of a file at [i], on the channel [ch]. *)
Definition carries (role : Z) (fileid : string) (ch : Z) (i : nat) ft : Prop :=
  ft_sender_receiver ft = role /\ ft_state ft = FileTransferConnection_connected /\
  ft_session ft = true /\ 0 < ft_stream ft /\ fileid <> ""%string /\ 0 < ch /\
  get_fileinfo_fileid ft fileid = Some i /\ get_fileinfo_channel ft ch = Some i /\
  (i < length (ft_files ft))%nat.

Lemma carries_item role fileid ch i ft : carries role fileid ch i ft ->
  it_fileid (item_at ft i) = fileid /\ it_channel (item_at ft i) = ch.
Proof.
  intros (_ & _ & _ & _ & _ & _ & Hid & Hch & _).
  apply find_index in Hid as (x & Hx & E1 & _). apply find_index in Hch as (y & Hy & E2 & _).
  unfold item_at. rewrite Hx in Hy |- *. by injection Hy as ->.
Qed.

Lemma carries_set role fileid ch i st ft : carries role fileid ch i ft ->
  carries role fileid ch i (set_item i (fun it => { it with it_state := st }) ft).
Proof.
  unfold carries. intros (? & ? & ? & ? & ? & ? & Hid & Hch & Hi). split_and!; try done.
  - rewrite <- Hid. by apply find_alter.
  - rewrite <- Hch. by apply find_alter.
  - by rewrite length_set_item.
Qed.

Lemma carries_frame role fileid ch i ft ft' : carries role fileid ch i ft ->
  ft_sender_receiver ft' = ft_sender_receiver ft -> ft_state ft' = ft_state ft ->
  ft_session ft' = ft_session ft -> ft_stream ft' = ft_stream ft -> ft_files ft' = ft_files ft ->
  carries role fileid ch i ft'.
Proof.
  unfold carries, get_fileinfo_fileid, get_fileinfo_channel. intros Hc -> -> -> -> ->. exact Hc.
Qed.

Lemma set_item_state st i ft : (i < length (ft_files ft))%nat ->
  it_state (item_at (set_item i (fun it => { it with it_state := st }) ft) i) = st.
Proof. intros Hi. rewrite item_at_set by done. by rewrite decide_True. Qed.

Lemma guard_carries role fileid ch i ft : carries role fileid ch i ft ->
  channel_guard (ft_stream ft) ft = Ok tt.
Proof.
  intros (_ & Hst & Hs & _). unfold channel_guard. rewrite Hs, Z.eqb_refl, Hst. done.
Qed.
(** ** Packets *)

Lemma packet_pull_fields offset : is_u64 offset ->
  packet_field (packet_pull offset) 0 2 = Ok (be_bytes 2 PACKET_PULL) /\
  packet_field (packet_pull offset) 8 8 = Ok (be_bytes 8 offset) /\ be_read (be_bytes 8 offset) = offset.
Proof.
  intros Ho. rewrite be_read_bytes. change (8 * Z.of_nat 8) with 64. rewrite u64_small by done.
  unfold packet_field, packet_pull. rewrite u64_small by done.
  rewrite !length_app, !length_be_bytes, stack_length.
  change (Nat.leb _ _) with true. change (Nat.leb (8 + 8) _) with true.
  split; [|split]; [..|done].
  - by rewrite drop_0, take_app_length' by (by rewrite length_be_bytes).
  - rewrite app_assoc, drop_app_length' by (rewrite length_app, length_be_bytes, stack_length; done).
    by rewrite take_ge by (by rewrite length_be_bytes).
Qed.

Lemma packet_cancel_fields status reason : is_i32 status -> Init.Byte.x00 ∉ String.list_byte_of_string reason ->
  packet_field (packet_cancel status reason) 0 2 = Ok (be_bytes 2 PACKET_CANCEL) /\
  packet_field (packet_cancel status reason) 4 4 = Ok (be_bytes 4 (u32 status)) /\
  i32 (be_read (be_bytes 4 (u32 status))) = status /\
  packet_text (packet_cancel status reason) 8 = Ok reason.
Proof.
  intros Hs Hr. rewrite be_read_bytes. change (8 * Z.of_nat 4) with 32.
  split; [|split; [|split]].
  - unfold packet_field, packet_cancel. rewrite length_app, length_be_bytes.
    rewrite (proj2 (Nat.leb_le _ _)) by lia. by rewrite drop_0, take_app_length' by (by rewrite length_be_bytes).
  - unfold packet_field, packet_cancel. rewrite !length_app, !length_be_bytes, stack_length.
    rewrite (proj2 (Nat.leb_le _ _)) by lia.
    rewrite app_assoc, drop_app_length' by (rewrite length_app, length_be_bytes, stack_length; done).
    by rewrite take_app_length' by (by rewrite length_be_bytes).
  - machine_int.
  - unfold packet_text, packet_cancel.
    rewrite app_assoc, app_assoc, drop_app_length'
      by (rewrite !length_app, !length_be_bytes, stack_length; done).
    by rewrite c_string_bytes.
Qed.

(** ** Control of a file *)

(** What a receiver asks for. *)
Inductive control :=
| CPull (offset : Z)
| CPend
| CResume.

Definition control_call (c : control) (fileid : string) ft : Res (Z * ElaFileTransfer sess) :=
  match c with
  | CPull offset => ela_filetransfer_pull ft (Some fileid) offset
  | CPend => ela_filetransfer_pend ft (Some fileid)
  | CResume => ela_filetransfer_resume ft (Some fileid)
  end.

Definition control_from (c : control) : FileTransferState :=
  match c with CPend => FileTransferState_transfering | _ => FileTransferState_standby end.
Definition control_to (c : control) : FileTransferState :=
  match c with CPend => FileTransferState_standby | _ => FileTransferState_transfering end.

Definition control_msg (ch : Z) (c : control) : link_msg :=
  match c with
  | CPull offset => LinkData ch (packet_pull offset)
  | CPend => LinkPend ch
  | CResume => LinkResume ch
  end.

Definition control_event (fileid : string) (c : control) : ft_event :=
  match c with
  | CPull offset => FtPull fileid offset
  | CPend => FtPending fileid
  | CResume => FtResume fileid
  end.

Definition control_ok (c : control) : Prop := match c with CPull offset => is_u64 offset | _ => True end.

Definition set_state (i : nat) (st : FileTransferState) ft : ElaFileTransfer sess :=
  set_item i (fun it => { it with it_state := st }) ft.

Lemma with_item_carries role fileid ch i ft k : carries role fileid ch i ft ->
  with_item (Some fileid) ft k = k i.
Proof.
  intros (_ & _ & _ & _ & Hne & _ & Hid & _). unfold with_item. destruct fileid as [|c id]; [done|].
  change (or_empty (Some (String c id))) with (String c id). cbn [null_or_empty]. by rewrite Hid.
Qed.

Lemma in_state_carries role fileid ch i ok ft k : carries role fileid ch i ft ->
  in_state role ok i ft k =
    if ok (it_state (item_at ft i)) then k else ft_fails (ELA_GENERAL_ERROR ELAERR_WRONG_STATE) ft.
Proof.
  intros Hc. destruct (carries_item _ _ _ _ _ Hc) as [_ Hch].
  destruct Hc as (Hr & Hs & Hse & Hst & _ & Hpos & _). unfold in_state.
  rewrite Hr, Hs, Hse, Hch, Z.eqb_refl, (proj2 (Z.ltb_lt 0 (ft_stream ft))), (proj2 (Z.ltb_lt 0 ch)) by done.
  cbn. by destruct (ok _).
Qed.

(** A call of the receiver goes to the peer and changes the state, or does nothing. *)
Lemma control_call_spec c fileid ch i ft rc ft' : carries RECEIVER fileid ch i ft ->
  control_call c fileid ft = Ok (rc, ft') ->
  rc = 0 /\ it_state (item_at ft i) = control_from c /\
    (exists s, link_sent s = link_sent (ft_sess ft) ++ [control_msg ch c] /\
       ft' = set_state i (control_to c) { ft with ft_sess := s }) \/
  rc = -1 /\ exists s e, link_sent s = link_sent (ft_sess ft) /\ ft' = { ft with ft_errno := e; ft_sess := s }.
Proof.
  intros Hc. pose proof (carries_item _ _ _ _ _ Hc) as [_ Hch].
  assert (forall code s, link_sent s = link_sent (ft_sess ft) ->
    ft_fails code { ft with ft_sess := s } = Ok (rc, ft') ->
    rc = -1 /\ exists s e, link_sent s = link_sent (ft_sess ft) /\ ft' = { ft with ft_errno := e; ft_sess := s })
    as Hfail by (intros code s Hs [= <- <-]; split; [done|]; by exists s, code).
  assert (forall code, ft_fails code ft = ft_fails code { ft with ft_sess := ft_sess ft }) as Hsame
    by (intros code; by destruct ft).
  assert (forall r s m st, 0 <= r /\ link_sent s = link_sent (ft_sess ft) ++ [m] \/
      r < 0 /\ link_sent s = link_sent (ft_sess ft) ->
    went_down r s ft (to_state st i) = Ok (rc, ft') ->
    rc = 0 /\ (exists s, link_sent s = link_sent (ft_sess ft) ++ [m] /\
      ft' = set_state i st { ft with ft_sess := s }) \/
    rc = -1 /\ exists s e, link_sent s = link_sent (ft_sess ft) /\ ft' = { ft with ft_errno := e; ft_sess := s })
    as Hdown.
  { unfold went_down. intros r s m st [[Hr Hs]|[Hr Hs]].
    - rewrite (proj2 (Z.ltb_ge _ _)) by done. intros [= <- <-]. left. split; [done|]. by exists s.
    - rewrite (proj2 (Z.ltb_lt _ _)) by done. intros Hft. right. by eapply Hfail. }
  assert (forall code, ft_fails code ft = Ok (rc, ft') ->
    rc = -1 /\ exists s e, link_sent s = link_sent (ft_sess ft) /\ ft' = { ft with ft_errno := e; ft_sess := s })
    as Hfail' by (intros code; rewrite Hsame; by apply Hfail).
  destruct c as [offset| |]; cbn [control_call]; unfold ela_filetransfer_pull, ela_filetransfer_pend,
    ela_filetransfer_resume; rewrite (with_item_carries RECEIVER fileid ch i) by done.
  1: destruct (_ <=? _); [intros Hr; right; by eapply Hfail'|].
  all: rewrite (in_state_carries RECEIVER fileid ch i) by done; unfold is_state;
    case_bool_decide as Hst; [|intros Hr; right; by eapply Hfail']; rewrite Hch.
  - destruct (stream_write_channel _ _ _ _) as [r s] eqn:E. apply write_channel_spec in E.
    intros Hr. destruct (Hdown r s _ _ E Hr) as [[? ?]|?]; [by left|by right].
  - destruct (stream_pend_channel _ _ _) as [r s] eqn:E. apply pend_channel_spec in E.
    intros Hr. destruct (Hdown r s (LinkPend ch) _ ltac:(intuition lia) Hr) as [[? ?]|?]; [by left|by right].
  - destruct (stream_resume_channel _ _ _) as [r s] eqn:E. apply resume_channel_spec in E.
    intros Hr. destruct (Hdown r s (LinkResume ch) _ ltac:(intuition lia) Hr) as [[? ?]|?]; [by left|by right].
Qed.

Lemma went_down_total rc s ft k : exists r, went_down rc s ft k = Ok r.
Proof. unfold went_down, ft_fails. destruct (rc <? 0); by eexists. Qed.

Lemma control_call_total c fileid ch i ft : carries RECEIVER fileid ch i ft ->
  exists r, control_call c fileid ft = Ok r.
Proof.
  intros Hc. destruct c as [offset| |]; cbn [control_call]; unfold ela_filetransfer_pull,
    ela_filetransfer_pend, ela_filetransfer_resume; rewrite (with_item_carries RECEIVER fileid ch i) by done.
  1: destruct (_ <=? _); [by eexists|].
  all: rewrite (in_state_carries RECEIVER fileid ch i) by done; destruct (is_state _ _); [|by eexists].
  - destruct (stream_write_channel _ _ _ _) as [r s]. apply went_down_total.
  - destruct (stream_pend_channel _ _ _) as [r s]. apply went_down_total.
  - destruct (stream_resume_channel _ _ _) as [r s]. apply went_down_total.
Qed.

(** What arrives on the channel [ch] of the other end. *)
Definition handle_msg (ch : Z) (m : link_msg) ft : Res (bool * ElaFileTransfer sess) :=
  stream_step (ft_stream ft)
    (match m with
     | LinkOpen _ cookie => SeChannelOpen ch (Some cookie)
     | LinkData _ data => SeChannelData ch data
     | LinkPend _ => SeChannelPending ch
     | LinkResume _ => SeChannelResume ch
     end) ft.

Definition told (c : control) (cbs : FtCallbacks) : bool :=
  match c with CPull _ => fc_pull cbs | CPend => fc_pending cbs | CResume => fc_resume cbs end.

(** A control message changes the state of the sender's item, and its application is
    told, when the state is the expected one. *)
Lemma handle_control_spec c fileid ch ch' i ft : carries SENDER fileid ch i ft -> control_ok c ->
  it_state (item_at ft i) = control_from c ->
  handle_msg ch (control_msg ch' c) ft =
    Ok (true, set_state i (control_to c) (ft_emit_if (told c (ft_callbacks ft)) (control_event fileid c) ft)).
Proof.
  intros Hc Hok Hst. destruct (carries_item _ _ _ _ _ Hc) as [Hid _].
  pose proof (guard_carries _ _ _ _ _ Hc) as Hg. destruct Hc as (Hr & _ & _ & _ & _ & _ & _ & Hch & _).
  unfold handle_msg. destruct c as [offset| |]; cbn [control_msg stream_step].
  - destruct (packet_pull_fields offset Hok) as (E1 & E2 & E3).
    unfold stream_channel_data. rewrite Hg. cbn [mbind Res_bind]. rewrite Hch, Hr, Hid.
    change (SENDER =? SENDER) with true. cbv iota. unfold sender_channel_data. rewrite E1. cbn [mbind Res_bind].
    change (be_read (be_bytes 2 PACKET_PULL) =? PACKET_PULL) with true. cbv iota.
    rewrite Hst, E2. cbn [control_from negb mbind Res_bind]. rewrite bool_decide_eq_true_2 by done.
    cbn. rewrite E3. by destruct (fc_pull (ft_callbacks ft)).
  - unfold stream_channel_pending, flow_change. rewrite Hg. cbn [mbind Res_bind].
    rewrite Hr, Hch, Hst, Hid, Z.eqb_refl. cbn [negb control_from]. rewrite bool_decide_eq_true_2 by done. done.
  - unfold stream_channel_resume, flow_change. rewrite Hg. cbn [mbind Res_bind].
    rewrite Hr, Hch, Hst, Hid, Z.eqb_refl. cbn [negb control_from]. rewrite bool_decide_eq_true_2 by done. done.
Qed.
End Props.
