(* ===== verification/FileTransferPair.v ===== *)
(** * The two ends of a file

    A receiver and a sender that carry the same file over a channel: what one end
    gives its session layer is under way to the other, in order, until it is handled
    there.  The applications pull, pause, resume and send in any order, and messages take
    any time. *)

From S2P Require Import Prelude ElaError Carrier FlexBuffer Multiplex CText FileTransfer FileTransferProps.

Section Pair.
Context `{!HashTables, !Base58, !Stack, !FtApp} {sess : Type} `{!SessionLayer sess, !SessionLaws sess}.
Implicit Types ft : ElaFileTransfer sess.

(** ** Data *)

Definition data_event (fileid : string) (data : list byte) : ft_event :=
  let len := Z.of_nat (length data) in FtData fileid (if 0 <? len then Some data else None) len.

(** The pointer of a call with [data]: null when there is none. *)
Definition data_arg (data : list byte) : option (list byte) :=
  match data with [] => None | _ => Some data end.

Definition send_call (fileid : string) (data : list byte) ft : Res (Z * ElaFileTransfer sess) :=
  ela_filetransfer_send ft (Some fileid) (data_arg data) (Z.of_nat (length data)).

Lemma send_call_spec fileid data ch i ft : carries SENDER fileid ch i ft ->
  exists rc ft', send_call fileid data ft = Ok (rc, ft') /\
  (0 <= rc /\ it_state (item_at ft i) = FileTransferState_transfering /\
     (exists s, link_sent s = link_sent (ft_sess ft) ++ [LinkData ch data] /\ ft' = { ft with ft_sess := s }) \/
   rc = -1 /\ exists s e, link_sent s = link_sent (ft_sess ft) /\ ft' = { ft with ft_errno := e; ft_sess := s }).
Proof.
  intros Hc. pose proof (carries_item _ _ _ _ _ Hc) as [_ Hch].
  assert (forall code, exists rc ft', ft_fails code ft = Ok (rc, ft') /\
    rc = -1 /\ exists s e, link_sent s = link_sent (ft_sess ft) /\ ft' = { ft with ft_errno := e; ft_sess := s })
    as Hfail.
  { intros code. do 2 eexists. split; [done|]. split; [done|]. exists (ft_sess ft), code. by destruct ft. }
  unfold send_call, ela_filetransfer_send.
  destruct (null_or_empty _ || _ || _).
  { destruct (Hfail (ELA_GENERAL_ERROR ELAERR_INVALID_ARGS)) as (rc & ft' & E & Hr). exists rc, ft'. by eauto. }
  rewrite (with_item_carries SENDER fileid ch i) by done. destruct (_ <? _).
  { destruct (Hfail (ELA_GENERAL_ERROR ELAERR_INVALID_ARGS)) as (rc & ft' & E & Hr). exists rc, ft'. by eauto. }
  rewrite (in_state_carries SENDER fileid ch i) by done. unfold is_state. case_bool_decide as Hst.
  2: { destruct (Hfail (ELA_GENERAL_ERROR ELAERR_WRONG_STATE)) as (rc & ft' & E & Hr). exists rc, ft'. by eauto. }
  rewrite Hch. assert (default [] (data_arg data) = data) as -> by (by destruct data).
  destruct (stream_write_channel _ _ _ _) as [r s] eqn:E. apply write_channel_spec in E.
  unfold went_down, ft_fails. destruct E as [[Hr Hs]|[Hr Hs]].
  - rewrite (proj2 (Z.ltb_ge _ _)) by done. do 2 eexists. split; [done|]. left. eauto.
  - rewrite (proj2 (Z.ltb_lt _ _)) by done. do 2 eexists. split; [done|]. right. split; [done|]. by exists s, r.
Qed.

Definition is_transfering ft (i : nat) : bool :=
  bool_decide (it_state (item_at ft i) = FileTransferState_transfering).

(** Data is for the application while the file is being transferred. *)
Lemma handle_data_spec fileid data ch ch' i ft : carries RECEIVER fileid ch i ft ->
  handle_msg ch (LinkData ch' data) ft =
    if is_transfering ft i && fc_data (ft_callbacks ft)
    then Ok (more_data (ft_events ft) (data_event fileid data), ft_emit (data_event fileid data) ft)
    else Ok (true, ft).
Proof.
  intros Hc. destruct (carries_item _ _ _ _ _ Hc) as [Hid _].
  pose proof (guard_carries _ _ _ _ _ Hc) as Hg. destruct Hc as (Hr & _ & _ & _ & _ & _ & _ & Hch & _).
  unfold handle_msg. cbn [stream_step]. unfold stream_channel_data. rewrite Hg. cbn [mbind Res_bind].
  rewrite Hch, Hr, Hid. change (RECEIVER =? SENDER) with false. change (RECEIVER =? RECEIVER) with true.
  cbv iota. unfold receiver_channel_data, is_transfering.
  case_bool_decide; cbn [negb andb]; [|done]. by destruct (fc_data (ft_callbacks ft)).
Qed.

(** ** The pair *)

Record Pair := {
  rx : ElaFileTransfer sess;
  tx : ElaFileTransfer sess;
  up : list link_msg;            (* under way from the receiver to the sender *)
  down : list link_msg;          (* and back *)
  asked : list control;          (* calls of the receiver that succeeded *)
  given : list (list byte);      (* data that the sender gave *)
  refused : bool;                (* a message of the receiver was answered with false *)
  over : bool                    (* the receiver's application wants no more *)
}.

Inductive pair_op :=
| PairAsk (c : control)
| PairSend (data : list byte)
| PairUp
| PairDown.

(** What a session layer was given since. *)
Definition news (s s' : sess) : list link_msg := drop (length (link_sent s)) (link_sent s').

Definition pair_step (fileid : string) (rch tch : Z) (op : pair_op) (p : Pair) : Res Pair :=
  if over p then Ok p
  else
    match op with
    | PairAsk c =>
        '(rc, r) ← control_call c fileid (rx p);
        Ok { p with rx := r; up ::= fun l => l ++ news (ft_sess (rx p)) (ft_sess r);
                    asked ::= fun l => l ++ (if rc =? 0 then [c] else []) }
    | PairSend data =>
        '(rc, t) ← send_call fileid data (tx p);
        Ok { p with tx := t; down ::= fun l => l ++ news (ft_sess (tx p)) (ft_sess t);
                    given ::= fun l => l ++ (if 0 <=? rc then [data] else []) }
    | PairUp =>
        match up p with
        | [] => Ok p
        | m :: l =>
            '(ok, t) ← handle_msg tch m (tx p);
            Ok { p with tx := t; up := l; refused ::= fun b => b || negb ok }
        end
    | PairDown =>
        match down p with
        | [] => Ok p
        | m :: l =>
            '(ok, r) ← handle_msg rch m (rx p);
            Ok { p with rx := r; down := l; over := negb ok }
        end
    end.

Fixpoint pair_run (fileid : string) (rch tch : Z) (ops : list pair_op) (p : Pair) : Res Pair :=
  match ops with
  | [] => Ok p
  | op :: ops => p ← pair_step fileid rch tch op p; pair_run fileid rch tch ops p
  end.

Definition pair_start (r t : ElaFileTransfer sess) : Pair :=
  {| rx := r; tx := t; up := []; down := []; asked := []; given := []; refused := false; over := false |}.

(** ** Agreement *)

(** The state that the controls under way lead to; each is expected where it comes. *)
Fixpoint follows (st : FileTransferState) (l : list control) (st' : FileTransferState) : Prop :=
  match l with
  | [] => st = st'
  | c :: l => st = control_from c /\ follows (control_to c) l st'
  end.

Lemma follows_app st l c st' : follows st l st' -> st' = control_from c -> follows st (l ++ [c]) (control_to c).
Proof.
  revert st. induction l as [|c' l IH]; intros st; cbn.
  - by intros -> ->.
  - intros [-> Hl] Hc. split; [done|]. by apply IH.
Qed.

Definition all_told (ft : ElaFileTransfer sess) : Prop := forall c, told c (ft_callbacks ft) = true.

Section Agree.
Context (fileid : string) (rch tch : Z) (j i : nat) (r0 t0 : ElaFileTransfer sess).

(** [seen] is what reached the sender, [pending] what is under way. *)
Record agree (p : Pair) (seen pending : list control) : Prop := {
  ag_rx : carries RECEIVER fileid rch j (rx p);
  ag_tx : carries SENDER fileid tch i (tx p);
  ag_cbs : ft_callbacks (tx p) = ft_callbacks t0;
  ag_asked : asked p = seen ++ pending;
  ag_up : up p = control_msg rch <$> pending;
  ag_events : ft_events (tx p) = reverse (control_event fileid <$> seen) ++ ft_events t0;
  ag_states : follows (it_state (item_at (tx p) i)) pending (it_state (item_at (rx p) j));
  ag_ok : Forall control_ok (asked p);
  ag_refused : refused p = false
}.

Lemma item_at_frame ft ft' k : ft_files ft' = ft_files ft -> item_at ft' k = item_at ft k.
Proof. unfold item_at. by intros ->. Qed.

Lemma carries_length role id ch k ft : carries role id ch k ft -> (k < length (ft_files ft))%nat.
Proof. by intros (_ & _ & _ & _ & _ & _ & _ & _ & ?). Qed.

Lemma news_app s s' l : link_sent s' = link_sent s ++ l -> news s s' = l.
Proof. unfold news. intros ->. by rewrite drop_app_length. Qed.

Lemma news_none s s' : link_sent s' = link_sent s -> news s s' = [].
Proof. unfold news. intros ->. by rewrite drop_all. Qed.

Lemma ask_agree c p seen pending : control_ok c -> agree p seen pending -> over p = false ->
  exists p', pair_step fileid rch tch (PairAsk c) p = Ok p' /\
    exists pending', agree p' seen pending'.
Proof.
  intros Hok [Hrx Htx Hcbs Hasked Hup Hev Hst Hall Href] Hover. unfold pair_step. rewrite Hover.
  destruct (control_call_total c fileid rch j (rx p) Hrx) as [[rc r] E]. rewrite E. cbn [mbind Res_bind].
  eexists. split; [done|].
  destruct (control_call_spec c fileid rch j (rx p) rc r Hrx E) as [(-> & Hs & s & Hsent & ->)|(-> & s & e & Hsent & ->)].
  - exists (pending ++ [c]). pose proof (carries_length _ _ _ _ _ Hrx) as Hj. split; cbn.
    + by apply carries_set, (carries_frame _ _ _ _ (rx p)).
    + done.
    + done.
    + by rewrite Hasked, app_assoc.
    + by rewrite (news_app _ _ _ Hsent), Hup, fmap_app.
    + done.
    + unfold set_state. rewrite set_item_state by done. by apply (follows_app _ _ _ _ Hst).
    + apply Forall_app. split; [done|]. by constructor.
    + done.
  - exists pending. split; cbn.
    + by apply (carries_frame _ _ _ _ (rx p)).
    + done.
    + done.
    + by rewrite app_nil_r.
    + by rewrite (news_none _ _ Hsent), app_nil_r.
    + done.
    + exact Hst.
    + by rewrite app_nil_r.
    + done.
Qed.

Lemma up_agree p seen pending : all_told t0 -> agree p seen pending -> over p = false ->
  exists p', pair_step fileid rch tch PairUp p = Ok p' /\
    exists seen' pending', agree p' seen' pending'.
Proof.
  intros Htold Hag Hover. pose proof Hag as [Hrx Htx Hcbs Hasked Hup Hev Hst Hall Href].
  unfold pair_step. rewrite Hover. destruct pending as [|c pending].
  { rewrite Hup. exists p. split; [done|]. by exists seen, []. }
  rewrite Hup, fmap_cons. destruct Hst as [Hfrom Hst].
  assert (control_ok c) as Hc.
  { rewrite Hasked in Hall. apply Forall_app in Hall as [_ Hall]. by apply Forall_cons in Hall as [? _]. }
  rewrite (handle_control_spec c fileid tch rch i) by done. cbn [mbind Res_bind].
  eexists. split; [done|]. exists (seen ++ [c]), pending. rewrite Hcbs, (Htold c).
  pose proof (carries_length _ _ _ _ _ Htx) as Hi. split; cbn.
  - done.
  - apply carries_set. by apply (carries_frame _ _ _ _ (tx p)).
  - by apply Hcbs.
  - by rewrite Hasked, <- app_assoc.
  - done.
  - by rewrite Hev, fmap_app, reverse_app.
  - unfold set_state. by rewrite set_item_state.
  - done.
  - by rewrite Href.
Qed.

Lemma send_agree data p seen pending : agree p seen pending -> over p = false ->
  exists p', pair_step fileid rch tch (PairSend data) p = Ok p' /\ agree p' seen pending.
Proof.
  intros [Hrx Htx Hcbs Hasked Hup Hev Hst Hall Href] Hover. unfold pair_step. rewrite Hover.
  destruct (send_call_spec fileid data tch i (tx p) Htx) as (rc & t & -> & Ht). cbn [mbind Res_bind].
  eexists. split; [done|].
  assert (exists s e, t = { tx p with ft_errno := e; ft_sess := s }) as (s & e & ->).
  { destruct Ht as [(_ & _ & s & _ & ->)|(_ & s & e & _ & ->)]; [|by exists s, e].
    exists s, (ft_errno (tx p)). by destruct (tx p). }
  by split.
Qed.

Lemma down_agree p seen pending : agree p seen pending -> over p = false ->
  (forall m, m ∈ down p -> exists data, m = LinkData tch data) ->
  exists p', pair_step fileid rch tch PairDown p = Ok p' /\ agree p' seen pending.
Proof.
  intros Hag Hover Hdown. pose proof Hag as [Hrx Htx Hcbs Hasked Hup Hev Hst Hall Href].
  unfold pair_step. rewrite Hover. destruct (down p) as [|m l] eqn:El; [by exists p|].
  destruct (Hdown m) as [data ->]; [by left|].
  rewrite (handle_data_spec fileid data rch tch j) by done.
  destruct (_ && _); cbn [mbind Res_bind]; eexists; (split; [done|]); by split.
Qed.

(** ** Data under way *)

(** [shown] was handled by the receiver, [waiting] is under way.  Without pauses the
    receiver's application got all of [shown]. *)
Record flow (p : Pair) (shown waiting : list (list byte)) : Prop := {
  fl_down : down p = LinkData tch <$> waiting;
  fl_given : given p = shown ++ waiting;
  fl_cbs : ft_callbacks (rx p) = ft_callbacks r0;
  fl_shown : CPend ∉ asked p -> fc_data (ft_callbacks r0) = true ->
    ft_events (rx p) = reverse (data_event fileid <$> shown) ++ ft_events r0 /\
    (waiting <> [] -> it_state (item_at (rx p) j) = FileTransferState_transfering)
}.

Definition pair_inv (p : Pair) : Prop :=
  exists seen pending shown waiting, agree p seen pending /\ flow p shown waiting.

Lemma unpaused_follows l st' : CPend ∉ l ->
  follows FileTransferState_transfering l st' -> st' = FileTransferState_transfering.
Proof.
  intros Hl. destruct l as [|c l]; cbn; [by intros <-|]. intros [Hc _].
  destruct c; try done. exfalso. apply Hl. by left.
Qed.

Lemma ask_inv c p : control_ok c -> pair_inv p -> over p = false ->
  exists p', pair_step fileid rch tch (PairAsk c) p = Ok p' /\ pair_inv p'.
Proof.
  intros Hc (seen & pending & shown & waiting & Hag & [Hdown Hgiven Hcbs Hshown]) Hover.
  destruct (ask_agree c p seen pending Hc Hag Hover) as (p' & E & pending' & Hag'). exists p'. split; [done|].
  exists seen, pending', shown, waiting. split; [done|].
  pose proof (carries_length _ _ _ _ _ (ag_rx _ _ _ Hag)) as Hj.
  unfold pair_step in E. rewrite Hover in E. apply Res_bind_Ok in E as ([rc r] & E & [= <-]).
  destruct (control_call_spec c fileid rch j (rx p) rc r (ag_rx _ _ _ Hag) E)
    as [(-> & Hst & s & _ & ->)|(-> & s & e & _ & ->)]; split; cbn; try done.
  - intros Hnp Hfc. apply not_elem_of_app in Hnp as [Hnp Hnc]. destruct (Hshown Hnp Hfc) as [Hev _].
    split; [exact Hev|]. intros _. unfold set_state. rewrite set_item_state by done.
    destruct c; try done. exfalso. apply Hnc. by left.
  - rewrite app_nil_r. exact Hshown.
Qed.

Lemma up_inv p : all_told t0 -> pair_inv p -> over p = false ->
  exists p', pair_step fileid rch tch PairUp p = Ok p' /\ pair_inv p'.
Proof.
  intros Htold (seen & pending & shown & waiting & Hag & [Hdown Hgiven Hcbs Hshown]) Hover.
  destruct (up_agree p seen pending Htold Hag Hover) as (p' & E & seen' & pending' & Hag').
  exists p'. split; [done|]. exists seen', pending', shown, waiting. split; [done|].
  unfold pair_step in E. rewrite Hover in E. destruct (up p) as [|m l]; [by injection E as <-|].
  apply Res_bind_Ok in E as ([ok t] & _ & [= <-]). by split.
Qed.

Lemma send_inv data p : pair_inv p -> over p = false ->
  exists p', pair_step fileid rch tch (PairSend data) p = Ok p' /\ pair_inv p'.
Proof.
  intros (seen & pending & shown & waiting & Hag & [Hdown Hgiven Hcbs Hshown]) Hover.
  destruct (send_agree data p seen pending Hag Hover) as (p' & E & Hag'). exists p'. split; [done|].
  unfold pair_step in E. rewrite Hover in E. apply Res_bind_Ok in E as ([rc t] & E & [= <-]).
  destruct (send_call_spec fileid data tch i (tx p) (ag_tx _ _ _ Hag)) as (rc' & t' & E' & Ht).
  rewrite E in E'. injection E' as <- <-.
  destruct Ht as [(Hrc & Htst & s & Hs & ->)|(-> & s & e & Hs & ->)].
  - exists seen, pending, shown, (waiting ++ [data]). split; [exact Hag'|]. split; cbn.
    + by rewrite (news_app _ _ _ Hs), Hdown, fmap_app.
    + by rewrite (proj2 (Z.leb_le 0 rc)), Hgiven, app_assoc.
    + done.
    + intros Hnp Hfc. destruct (Hshown Hnp Hfc) as [Hev _]. split; [done|]. intros _.
      pose proof (ag_states _ _ _ Hag) as Hst. rewrite Htst in Hst. apply (unpaused_follows pending); [|done].
      rewrite (ag_asked _ _ _ Hag) in Hnp. by apply not_elem_of_app in Hnp as [_ ?].
  - exists seen, pending, shown, waiting. split; [exact Hag'|]. split; cbn; try done.
    + by rewrite (news_none _ _ Hs), app_nil_r.
    + by rewrite app_nil_r.
Qed.

Lemma down_inv p : pair_inv p -> over p = false ->
  exists p', pair_step fileid rch tch PairDown p = Ok p' /\ pair_inv p'.
Proof.
  intros (seen & pending & shown & waiting & Hag & [Hdown Hgiven Hcbs Hshown]) Hover.
  destruct (down_agree p seen pending Hag Hover) as (p' & E & Hag').
  { rewrite Hdown. intros m (data & -> & _)%list_elem_of_fmap. by exists data. }
  exists p'. split; [done|]. unfold pair_step in E. rewrite Hover, Hdown in E.
  destruct waiting as [|data waiting].
  { injection E as <-. by exists seen, pending, shown, []. }
  rewrite fmap_cons in E.
  rewrite (handle_data_spec fileid data rch tch j) in E by apply Hag.
  exists seen, pending, (shown ++ [data]), waiting. split; [done|].
  apply Res_bind_Ok in E as ([ok r] & E & [= <-]). split; cbn.
  - done.
  - by rewrite Hgiven, <- app_assoc.
  - by destruct (_ && _); injection E as <- <-.
  - intros Hnp Hfc. destruct (Hshown Hnp Hfc) as [Hev Htr]. specialize (Htr ltac:(done)).
    unfold is_transfering in E. rewrite bool_decide_eq_true_2, Hcbs, Hfc in E by done.
    injection E as <- <-. split; [|done]. cbn. by rewrite Hev, fmap_app, reverse_app.
Qed.

Lemma step_inv op p : all_told t0 -> (forall c, op = PairAsk c -> control_ok c) -> pair_inv p ->
  exists p', pair_step fileid rch tch op p = Ok p' /\ pair_inv p'.
Proof.
  intros Htold Hop Hinv. destruct (over p) eqn:Hover.
  { exists p. unfold pair_step. by rewrite Hover. }
  destruct op as [c|data| |].
  - apply ask_inv; [by apply Hop|done|done].
  - by apply send_inv.
  - by apply up_inv.
  - by apply down_inv.
Qed.

Lemma run_inv ops : forall p, all_told t0 -> (forall c, PairAsk c ∈ ops -> control_ok c) -> pair_inv p ->
  exists p', pair_run fileid rch tch ops p = Ok p' /\ pair_inv p'.
Proof.
  induction ops as [|op ops IH]; intros p Htold Hops Hinv; [by exists p|].
  destruct (step_inv op p Htold) as (p1 & E & Hinv1); [|done|].
  - intros c ->. apply Hops. by left.
  - cbn [pair_run]. rewrite E. cbn [mbind Res_bind]. apply IH; try done. intros c Hc. apply Hops. by right.
Qed.

Lemma start_inv : carries RECEIVER fileid rch j r0 -> carries SENDER fileid tch i t0 ->
  it_state (item_at r0 j) = it_state (item_at t0 i) -> pair_inv (pair_start r0 t0).
Proof.
  intros Hr Ht Hst. exists [], [], [], []. by split; split.
Qed.
End Agree.

Lemma asked_only fileid rch tch ops : forall (p p' : Pair), pair_run fileid rch tch ops p = Ok p' ->
  forall c, c ∈ asked p' -> c ∈ asked p \/ PairAsk c ∈ ops.
Proof.
  induction ops as [|op ops IH]; intros p p' Hr c Hc.
  { injection Hr as <-. by left. }
  cbn [pair_run] in Hr. apply Res_bind_Ok in Hr as (p1 & E & Hr).
  destruct (IH p1 p' Hr c Hc) as [Hc1|Hc1]; [|right; by right].
  unfold pair_step in E. destruct (over p); [injection E as <-; by left|].
  destruct op as [c'|data| |].
  - apply Res_bind_Ok in E as ([rc r] & _ & [= <-]). cbn in Hc1. apply elem_of_app in Hc1 as [Hc1|Hc1]; [by left|].
    right. destruct (rc =? 0); [|by apply not_elem_of_nil in Hc1].
    apply list_elem_of_singleton in Hc1 as ->. by left.
  - apply Res_bind_Ok in E as ([rc r] & _ & [= <-]). by left.
  - destruct (up p); [injection E as <-; by left|]. apply Res_bind_Ok in E as ([ok r] & _ & [= <-]). by left.
  - destruct (down p); [injection E as <-; by left|]. apply Res_bind_Ok in E as ([ok r] & _ & [= <-]). by left.
Qed.

(** C28. Both ends agree.  However the receiver pulls, pauses and resumes a file and the
    sender sends of it, and however messages are delayed, no call or message faults, the
    pulls, pauses and resumptions that succeeded are shown to the sender's application in
    this order, each once, up to those still under way; the sender never refuses one, and
    when none is under way both ends have the file in the same state.  Neither end cancels
    the file here: a cancellation ends it at one end while messages of the other are still
    under way. *)
Theorem ends_agree fileid rch tch j i (r t : ElaFileTransfer sess) ops :
  carries RECEIVER fileid rch j r -> carries SENDER fileid tch i t ->
  it_state (item_at r j) = it_state (item_at t i) -> all_told t ->
  (forall offset, PairAsk (CPull offset) ∈ ops -> is_u64 offset) ->
  exists p, pair_run fileid rch tch ops (pair_start r t) = Ok p /\ refused p = false /\
  exists seen pending, asked p = seen ++ pending /\ up p = control_msg rch <$> pending /\
    ft_events (tx p) = reverse (control_event fileid <$> seen) ++ ft_events t /\
    (up p = [] -> it_state (item_at (tx p) i) = it_state (item_at (rx p) j)).
Proof.
  intros Hr Ht Hst Htold Hops.
  destruct (run_inv fileid rch tch j i r t ops (pair_start r t) Htold) as (p & E & seen & pending & _ & _ & Hag & _).
  - intros c Hc. destruct c; [by apply Hops|done..].
  - by apply start_inv.
  - exists p. split; [done|]. destruct Hag as [_ _ _ Hasked Hup Hev Hstates _ Href]. split; [done|].
    exists seen, pending. split_and!; try done. rewrite Hup. by destruct pending.
Qed.

(** Data arrives in order.  As long as the receiver does not pause the transfer,
    its application is shown exactly the data the sender gave, in order, up to what
    is still under way. *)
Theorem file_data_in_order fileid rch tch j i (r t : ElaFileTransfer sess) ops :
  carries RECEIVER fileid rch j r -> carries SENDER fileid tch i t ->
  it_state (item_at r j) = it_state (item_at t i) -> all_told t ->
  (forall offset, PairAsk (CPull offset) ∈ ops -> is_u64 offset) ->
  fc_data (ft_callbacks r) = true -> PairAsk CPend ∉ ops ->
  exists p, pair_run fileid rch tch ops (pair_start r t) = Ok p /\
  exists shown waiting, given p = shown ++ waiting /\ down p = LinkData tch <$> waiting /\
    ft_events (rx p) = reverse (data_event fileid <$> shown) ++ ft_events r.
Proof.
  intros Hr Ht Hst Htold Hops Hfc Hnp.
  destruct (run_inv fileid rch tch j i r t ops (pair_start r t) Htold) as
    (p & E & seen & pending & shown & waiting & Hag & Hfl).
  - intros c Hc. destruct c; [by apply Hops|done..].
  - by apply start_inv.
  - exists p. split; [done|]. exists shown, waiting. destruct Hfl as [Hdown Hgiven _ Hshown].
    split_and!; try done. apply Hshown; [|done]. intros Hin.
    destruct (asked_only _ _ _ _ _ _ E CPend Hin) as [Hc|Hc]; [|done]. by apply not_elem_of_nil in Hc.
Qed.
End Pair.
Arguments Pair sess : clear implicits.
