(* ===== verification/FileTransferOffer.v ===== *)
(** * Offering a file, and what goes wrong

    A file that the sender adds is shown to the receiver's application as it was
    described, and both ends carry it from then on.  Calls and reports that make the
    code fail an assertion, follow a null pointer or read past a packet. *)

From Stdlib Require Import Ascii.
From S2P Require Import Prelude ElaError Carrier FlexBuffer Multiplex CText FileTransfer FileTransferProps.

Section Offer.
Context `{!HashTables, !Base58, !Stack, !FtApp} {sess : Type} `{!SessionLayer sess, !SessionLaws sess}.
Implicit Types ft : ElaFileTransfer sess.

(** The item at [i], the first free one, is written. *)
Lemma carries_new role fileid ch i f ft ft' :
  get_fileinfo_free ft = Some i -> get_fileinfo_fileid ft fileid = None ->
  get_fileinfo_channel ft ch = None ->
  ft_files ft' = alter f i (ft_files ft) -> (forall it, it_fileid (f it) = fileid) ->
  (forall it, it_channel (f it) = ch) ->
  ft_sender_receiver ft' = role -> ft_state ft' = FileTransferConnection_connected ->
  ft_session ft' = true -> 0 < ft_stream ft' -> fileid <> ""%string -> 0 < ch ->
  carries role fileid ch i ft'.
Proof.
  intros Hfree Hid Hch Hfiles Eid Ech Hrole Hst Hse Hstr Hne Hpos.
  apply find_index in Hfree as (x & Hx & _). pose proof (lookup_lt_Some _ _ _ Hx) as Hi.
  apply find_none in Hid. apply find_none in Hch. rewrite Forall_lookup in Hid, Hch.
  assert (ft_files ft' !! i = Some (f x)) as Hit by (rewrite Hfiles, list_lookup_alter, decide_True, Hx; done).
  assert (forall k y, ft_files ft' !! k = Some y -> (k < i)%nat -> ft_files ft !! k = Some y) as Hbefore.
  { intros k y Hk Hlt. by rewrite Hfiles, list_lookup_alter_ne in Hk by lia. }
  unfold carries. split_and!; try done.
  - apply find_index. exists (f x). split; [done|]. split; [done|]. intros k y Hk Hlt. by eapply Hid, Hbefore.
  - apply find_index. exists (f x). split; [done|]. split; [done|]. intros k y Hk Hlt. by eapply Hch, Hbefore.
  - by rewrite Hfiles, length_alter.
Qed.

Definition ready_for (role : Z) ft : Prop :=
  ft_sender_receiver ft = role /\ ft_state ft = FileTransferConnection_connected /\
  ft_session ft = true /\ 0 < ft_stream ft.

Lemma portable_id name id size : portable name id size -> id <> ""%string /\ strlen id <= 45.
Proof.
  intros (_ & Hw & _). unfold is_word in Hw. apply andb_true_iff in Hw as [[Hne _]%andb_true_iff Hlen%Z.leb_le].
  split; [|done]. intros ->. by rewrite str_eqb_refl in Hne.
Qed.

(** The file of an open request is put into a free item. *)
Lemma channel_open_new name id size ch i ft :
  ready_for RECEIVER ft -> portable name id size -> 0 < ch ->
  get_fileinfo_fileid ft id = None -> get_fileinfo_free ft = Some i -> get_fileinfo_channel ft ch = None ->
  exists ft', stream_channel_open (ft_stream ft) ch (Some (file_text name id size)) ft = Ok (true, ft') /\
    carries RECEIVER id ch i ft' /\ it_state (item_at ft' i) = FileTransferState_standby /\
    it_filename (item_at ft' i) = Some name /\ it_filesz (item_at ft' i) = size /\
    ft_events ft' = ft_events ft /\ ft_callbacks ft' = ft_callbacks ft.
Proof.
  intros (Hr & Hst & Hse & Hstr) Hp Hch Hid Hfree Hnch. unfold stream_channel_open, channel_guard.
  rewrite Hse, Hst, Hr, !Z.eqb_refl. cbn [c_assert mbind Res_bind negb option_bind]. rewrite scan_cookie_text by done. rewrite Hid, Hfree.
  destruct (portable_id _ _ _ Hp) as [Hne Hlen].
  rewrite strcpy_Ok by (change (ELA_MAX_FILE_ID_LEN + 1) with 46; lia). cbn [mbind Res_bind].
  eexists. split; [done|]. split; [by eapply carries_new|].
  apply find_index in Hfree as (x & Hx & _). pose proof (lookup_lt_Some _ _ _ Hx) as Hi.
  rewrite item_at_set, decide_True by done. done.
Qed.

Definition chosen_id (fi : ElaFileTransferInfo) (new_id : string) : string :=
  if str_eqb (fi_fileid fi) "" then new_id else fi_fileid fi.

(** C33. An offered file.  When a sender adds a file whose name and id travel as words,
    the cookie of the new channel, handled by a receiver that does not know the id and
    has a free item, makes both ends carry the file, and once the channel is open the
    receiver's application is shown exactly the name, id and size, once. *)
Theorem file_offered fi new_id snd snd' :
  ela_filetransfer_add snd (Some fi) new_id = Ok (0, snd') ->
  let id := chosen_id fi new_id in
  portable (fi_filename fi) id (fi_size fi) ->
  exists ch cookie, link_sent (ft_sess snd') = link_sent (ft_sess snd) ++ [LinkOpen ch cookie] /\
    (get_fileinfo_fileid snd id = None -> get_fileinfo_channel snd ch = None ->
     exists i, carries SENDER id ch i snd' /\
       it_state (item_at snd' i) = FileTransferState_standby /\ it_filesz (item_at snd' i) = fi_size fi) /\
  forall rcv ch' k, ready_for RECEIVER rcv -> 0 < ch' -> fc_file (ft_callbacks rcv) = true ->
    get_fileinfo_fileid rcv id = None -> get_fileinfo_free rcv = Some k ->
    get_fileinfo_channel rcv ch' = None ->
  exists rcv', stream_channel_open (ft_stream rcv) ch' (Some cookie) rcv = Ok (true, rcv') /\
    carries RECEIVER id ch' k rcv' /\ it_state (item_at rcv' k) = FileTransferState_standby /\
    it_filesz (item_at rcv' k) = fi_size fi /\
    ft_events (stream_channel_opened ch' rcv') =
      FtFile id (Some (fi_filename fi)) (fi_size fi) :: ft_events rcv.
Proof.
  intros Hadd id Hp. unfold ela_filetransfer_add in Hadd.
  destruct (fileinfo_ok fi) eqn:Hfi; [|discriminate Hadd]. cbn [negb] in Hadd.
  destruct (Z.eqb_spec (ft_sender_receiver snd) SENDER) as [Hrole|]; [|discriminate Hadd]. cbn [negb] in Hadd.
  destruct (Z.eqb_spec (ft_state snd) FileTransferConnection_connected) as [Hst|]; [|discriminate Hadd].
  cbn [negb] in Hadd. apply Res_bind_Ok in Hadd as (u & Hse%c_assert_Ok & Hadd).
  apply Res_bind_Ok in Hadd as (u' & Hstr%c_assert_Ok%Z.ltb_lt & Hadd).
  destruct (get_fileinfo_free snd) as [i|] eqn:Hfree; [|discriminate Hadd].
  apply Res_bind_Ok in Hadd as (id' & Hid' & Hadd).
  assert (id' = id) as ->.
  { unfold choose_fileid in Hid'. unfold id, chosen_id. destruct (str_eqb (fi_fileid fi) ""); cbn [negb] in Hid'.
    - by injection Hid' as <-.
    - by apply strcpy_inv in Hid' as [-> _]. }
  apply Res_bind_Ok in Hadd as (cookie & Hck & Hadd). apply strcpy_inv in Hck as [-> _].
  cbn [ft_sess ft_stream set_item] in Hadd. destruct (stream_open_channel _ _ _) as [ch s] eqn:E.
  apply open_channel_spec in E. destruct E as [[Hch Hs]|[Hch Hs]].
  2: { rewrite (proj2 (Z.ltb_lt ch 0)) in Hadd by done. discriminate Hadd. }
  rewrite (proj2 (Z.ltb_ge ch 0)) in Hadd by lia. injection Hadd as <-.
  exists ch, (file_text (fi_filename fi) id (fi_size fi)). split; [exact Hs|]. split.
  - intros Hnew Hnch. exists i.
    pose proof Hfree as (x & Hx & _)%find_index. pose proof (lookup_lt_Some _ _ _ Hx) as Hi.
    split.
    + eapply carries_new; try done.
      * cbn. rewrite !list_alter_alter_eq. reflexivity.
      * done.
      * done.
      * by apply (portable_id _ _ _ Hp).
    + unfold item_at. cbn. by rewrite !list_alter_alter_eq, list_lookup_alter, decide_True, Hx.
  - intros rcv ch' k Hrcv Hch' Hfile Hid Hk Hnch.
    destruct (channel_open_new (fi_filename fi) id (fi_size fi) ch' k rcv)
      as (rcv' & Eo & Hc & Hst' & Hname & Hsz & Hev & Hcbs); [done..|].
    exists rcv'. split; [done|]. split; [done|]. split; [done|]. split; [done|].
    destruct (carries_item _ _ _ _ _ Hc) as [Hid'' _].
    destruct Hc as (Hr & _ & _ & _ & _ & _ & _ & Hfc & _). unfold stream_channel_opened.
    rewrite Hr, Hfc, Hcbs, Hfile. change (RECEIVER =? RECEIVER) with true. cbn [negb]. cbv zeta iota.
    rewrite Hid'', Hname, Hsz. cbn. by rewrite Hev.
Qed.

(** A cancelled file.  When the receiver cancels, the packet it sends makes the
    sender's application see exactly the status and the reason, once, and the sender
    answers that the channel is to be closed; the file is free again there. *)
Theorem cancel_arrives fileid status reason rch j rcv rcv' :
  carries RECEIVER fileid rch j rcv -> is_i32 status ->
  Init.Byte.x00 ∉ String.list_byte_of_string reason ->
  ela_filetransfer_cancel rcv (Some fileid) status (Some reason) = Ok (0, rcv') ->
  exists data, link_sent (ft_sess rcv') = link_sent (ft_sess rcv) ++ [LinkData rch data] /\
  forall ch i (snd : ElaFileTransfer sess), carries SENDER fileid ch i snd -> fc_cancel (ft_callbacks snd) = true ->
  exists snd' : ElaFileTransfer sess, stream_channel_data (ft_stream snd) ch data snd = Ok (false, snd') /\
    ft_events snd' = FtCancel fileid status reason :: ft_events snd /\
    it_state (item_at snd' i) = FileTransferState_none.
Proof.
  intros Hr Hst Hreason Hcall. destruct (carries_item _ _ _ _ _ Hr) as [_ Hch].
  unfold ela_filetransfer_cancel in Hcall.
  rewrite (with_item_carries RECEIVER fileid rch j), (in_state_carries RECEIVER fileid rch j) in Hcall by done.
  destruct (negb _); [|discriminate Hcall]. rewrite Hch in Hcall.
  destruct (stream_write_channel _ _ _ _) as [r s] eqn:E. apply write_channel_spec in E.
  unfold went_down in Hcall. destruct E as [[Hr0 Hs]|[Hr0 Hs]].
  2: { rewrite (proj2 (Z.ltb_lt _ _)) in Hcall by done. discriminate Hcall. }
  rewrite (proj2 (Z.ltb_ge _ _)) in Hcall by done. injection Hcall as <-.
  exists (packet_cancel status reason). split; [exact Hs|]. intros ch i snd Hc Hcb.
  destruct (carries_item _ _ _ _ _ Hc) as [Hid _]. pose proof (guard_carries _ _ _ _ _ Hc) as Hg.
  destruct Hc as (Hrole & _ & _ & _ & _ & _ & _ & Hfc & Hi).
  destruct (packet_cancel_fields status reason Hst Hreason) as (E1 & E2 & E3 & E4).
  unfold stream_channel_data. rewrite Hg. cbn [mbind Res_bind]. rewrite Hfc, Hrole, Hid.
  change (SENDER =? SENDER) with true. cbv iota. unfold sender_channel_data. rewrite E1. cbn [mbind Res_bind].
  change (be_read (be_bytes 2 PACKET_CANCEL) =? PACKET_PULL) with false.
  change (be_read (be_bytes 2 PACKET_CANCEL) =? PACKET_CANCEL) with true. cbv iota.
  rewrite E2. cbn [mbind Res_bind]. change (ft_callbacks (set_item i _ snd)) with (ft_callbacks snd).
  rewrite Hcb, E4. cbn [mbind Res_bind].
  eexists. split; [done|]. split; [by rewrite E3|]. by apply set_item_state.
Qed.

(** ** What goes wrong *)

(** The search for a name reads every item before the one it finds. *)
Lemma find_name_null name l i it n :
  (forall k x, l !! k = Some x -> (k < i)%nat -> exists other, it_filename x = Some other /\ other <> name) ->
  l !! i = Some it -> it_filename it = None -> find_name n name l = Fault NullDeref.
Proof.
  revert i n. induction l as [|x l IH]; intros i n Hb Hi Hnull; [done|]. cbn [find_name].
  destruct i as [|i].
  - injection Hi as ->. by rewrite Hnull.
  - destruct (Hb 0%nat x) as (other & -> & Hne); [done|lia|]. cbn [deref mbind Res_bind].
    rewrite (proj2 (str_eqb_neq name other)) by congruence. apply (IH i); try done.
    intros k y Hk Hlt. apply (Hb (S k) y Hk). lia.
Qed.

(** Calls and reports that end a process.  A refusal of the peer, reported while the
    stream is removed, fails the assertion that compares the stream with the one just
    forgotten; pulling a file that was announced with the request, before its channel
    is open, fails an assertion; the name of a file whose channel was closed is read
    through a null pointer, and so is the next name when a name is not found before an
    unused item; a pull request shorter than its structure is read past its end. *)
Theorem transfer_faults :
  (forall bundle status sdp ft st es s,
     ft_sender_receiver ft = SENDER -> ft_session ft = true -> 0 < ft_stream ft ->
     String.prefix bundle_prefix bundle = true -> status <> 0 ->
     ft_ready_to_connect ft = true -> ft_state ft <> FileTransferConnection_failed ->
     session_remove_stream (ft_sess ft) (ft_stream ft) = (SeStateChanged st :: es, s) ->
     sessionreq_complete_callback (Some bundle) status sdp ft = Fault AssertFailed) /\
  (forall fileid i offset ft, ready_for RECEIVER ft -> fileid <> ""%string ->
     get_fileinfo_fileid ft fileid = Some i -> offset < it_filesz (item_at ft i) ->
     it_state (item_at ft i) = FileTransferState_standby -> it_channel (item_at ft i) <= 0 ->
     ela_filetransfer_pull ft (Some fileid) offset = Fault AssertFailed) /\
  (forall role fileid ch i n ft, carries role fileid ch i ft -> n <> 0 ->
     exists ft', stream_channel_close (ft_stream ft) ch ft = Ok ft' /\
       ela_filetransfer_get_filename ft' (Some fileid) n = Fault NullDeref) /\
  (forall name l i ft, name <> ""%string -> ELA_MAX_FILE_ID_LEN < l ->
     (forall k it, ft_files ft !! k = Some it -> (k < i)%nat ->
        exists other, it_filename it = Some other /\ other <> name) ->
     (exists it, ft_files ft !! i = Some it /\ it_filename it = None) ->
     ela_filetransfer_get_fileid ft (Some name) l = Fault NullDeref) /\
  (forall fileid ch i data ft, carries SENDER fileid ch i ft ->
     it_state (item_at ft i) = FileTransferState_standby ->
     (2 <= length data < 16)%nat -> be_read (take 2 data) = PACKET_PULL ->
     stream_channel_data (ft_stream ft) ch data ft = Fault BufferOverflow).
Proof.
  split; [|split; [|split; [|split]]].
  - intros bundle status sdp ft st es s Hr Hse Hstr Hb Hst Hready Hnf Hrem.
    unfold sessionreq_complete_callback. rewrite Hr, Hb, Hready. cbn [c_assert mbind Res_bind negb andb].
    change (SENDER =? SENDER) with true. cbn [c_assert mbind Res_bind].
    rewrite (proj2 (Z.eqb_neq _ _) Hnf), (proj2 (Z.eqb_neq _ _) Hst). cbn [negb].
    unfold remove_stream_secure, remove_stream. rewrite Hse, (proj2 (Z.ltb_lt _ _) Hstr).
    cbn [c_assert mbind Res_bind]. cbn. rewrite Hrem. cbn.
    unfold stream_state_changed. cbn. rewrite Hse. cbn.
    by rewrite (proj2 (Z.eqb_neq (ft_stream ft) (-1))) by lia.
  - intros fileid i offset ft (Hr & Hst & Hse & Hstr) Hne Hid Hoff Hit Hch.
    unfold ela_filetransfer_pull, with_item. destruct fileid as [|c id]; [done|]. cbn [null_or_empty].
    change (or_empty (Some (String c id))) with (String c id). rewrite Hid, (proj2 (Z.leb_gt _ _) Hoff).
    unfold in_state, is_state. rewrite Hr, Hst, Hit, Hse, (proj2 (Z.ltb_lt _ _) Hstr), (proj2 (Z.ltb_ge _ _) Hch).
    rewrite bool_decide_eq_true_2 by done. done.
  - intros role fileid ch i n ft Hc Hn. pose proof (guard_carries _ _ _ _ _ Hc) as Hg.
    destruct Hc as (_ & _ & _ & _ & Hne & _ & Hid & Hch & Hi). unfold stream_channel_close. rewrite Hg, Hch.
    eexists. split; [done|]. unfold ela_filetransfer_get_filename. destruct fileid as [|c id]; [done|].
    rewrite (proj2 (Z.eqb_neq _ _) Hn). cbn [null_or_empty orb].
    change (or_empty (Some (String c id))) with (String c id).
    match goal with |- context [get_fileinfo_fileid (set_item i ?f ft) _] =>
      assert (get_fileinfo_fileid (set_item i f ft) (String c id) = Some i) as -> end.
    { rewrite <- Hid. by apply find_alter. }
    by rewrite item_at_set, decide_True by done.
  - intros name l i ft Hne Hl Hbefore (it & Hit & Hnull). unfold ela_filetransfer_get_fileid.
    destruct name as [|c name]; [done|]. rewrite (proj2 (Z.leb_gt _ _) Hl). cbn [null_or_empty orb].
    change (or_empty (Some (String c name))) with (String c name). unfold get_fileinfo_name.
    rewrite (find_name_null _ _ i it); done.
  - intros fileid ch i data ft Hc Hst [Hlo Hhi] Htype. pose proof (guard_carries _ _ _ _ _ Hc) as Hg.
    destruct Hc as (Hrole & _ & _ & _ & _ & _ & _ & Hfc & Hi). unfold stream_channel_data. rewrite Hg.
    cbn [mbind Res_bind]. rewrite Hfc, Hrole. change (SENDER =? SENDER) with true. cbv iota.
    unfold sender_channel_data, packet_field. cbn [Nat.add]. rewrite drop_0, (proj2 (Nat.leb_le 2 _)) by lia.
    cbn [mbind Res_bind]. rewrite Htype, Hst. change (PACKET_PULL =? PACKET_PULL) with true.
    rewrite bool_decide_eq_true_2 by done. cbn [negb]. by rewrite (proj2 (Nat.leb_gt 16 _)) by lia.
Qed.

(** A file whose channel was closed is known by its id for good: it cannot be offered
    again over this connection. *)
Lemma file_not_offered_again name id size ch ch' i ft : carries RECEIVER id ch i ft -> portable name id size ->
  exists ft', stream_channel_close (ft_stream ft) ch ft = Ok ft' /\
    stream_channel_open (ft_stream ft') ch' (Some (file_text name id size)) ft' = Ok (false, ft').
Proof.
  intros Hc Hp. pose proof (guard_carries _ _ _ _ _ Hc) as Hg.
  destruct Hc as (Hr & _ & _ & _ & _ & _ & Hid & Hch & Hi). unfold stream_channel_close. rewrite Hg, Hch.
  eexists. split; [done|]. unfold stream_channel_open.
  match goal with |- context [channel_guard ?x ?y] => change (channel_guard x y) with (channel_guard (ft_stream ft) ft) end.
  rewrite Hg. cbn [mbind Res_bind].
  match goal with |- context [ft_sender_receiver ?x] => change (ft_sender_receiver x) with (ft_sender_receiver ft) end.
  rewrite Hr. change (RECEIVER =? RECEIVER) with true.
  cbn [negb option_bind]. rewrite scan_cookie_text by done.
  match goal with |- context [get_fileinfo_fileid (set_item i ?f ft) _] =>
    assert (get_fileinfo_fileid (set_item i f ft) id = Some i) as -> end.
  { rewrite <- Hid. by apply find_alter. }
  by rewrite item_at_set, decide_True by done.
Qed.
End Offer.
