(* ===== verification/FileTransferInv.v ===== *)
(** * Safety of file transfers

    Whatever the applications call and the session layer reports, a transfer keeps its
    five items well formed: ids and names within their buffers, a name behind every
    item in use, a connection state and a role of the code.  Every fault a step can
    end in is named, by the kind of the step. *)

From Stdlib Require Import Ascii.
From S2P Require Import Prelude ElaError Carrier FlexBuffer Multiplex CText FileTransfer FileTransferProps.

Definition item_wf (it : FileTransferItem) : Prop :=
  strlen (it_fileid it) <= ELA_MAX_FILE_ID_LEN /\ is_u64 (it_filesz it) /\
  (forall name, it_filename it = Some name -> strlen name <= ELA_MAX_FILE_NAME_LEN) /\
  (it_state it <> FileTransferState_none -> it_filename it <> None).

(** ** What is scanned fits *)

Lemma span_word_length n s : (String.length (span_word n s).1 <= n)%nat.
Proof.
  revert s. induction n as [|n IH]; intros [|c s]; cbn; try lia. destruct (isspace c); cbn; [lia|].
  specialize (IH s). destruct (span_word n s) as [w rest]. cbn in *. lia.
Qed.

Lemma scan_word_length n s w rest : scan_word n s = Some (w, rest) -> strlen w <= Z.of_nat n.
Proof.
  unfold scan_word. pose proof (span_word_length n (skip_space s)) as Hl.
  destruct (span_word n (skip_space s)) as [v r]. destruct (str_eqb v ""); [done|]. intros [= -> _].
  unfold strlen. cbn in Hl. lia.
Qed.

Lemma scan_digits_nonneg acc s : 0 <= acc -> 0 <= (scan_digits acc s).1.
Proof.
  revert acc. induction s as [|c s IH]; intros acc Ha; cbn; [done|]. destruct (isdigit c) eqn:Hc; [|done].
  apply IH. unfold isdigit in Hc. apply andb_true_iff in Hc as [Hc%Z.leb_le _]. lia.
Qed.

Lemma scan_llu_range s v rest : scan_llu s = Some (v, rest) -> is_u64 v.
Proof.
  unfold scan_llu.
  match goal with |- context [let '(neg, t) := ?e in _] => generalize e end. intros [neg [|c t]]; [done|].
  destruct (isdigit c); [|done]. pose proof (scan_digits_nonneg 0 (String c t)) as Hn.
  destruct (scan_digits 0 (String c t)) as [d r]. cbn in Hn. intros [= <- _].
  unfold UINT64_MAX. destruct (Z.gtb_spec d (2 ^ 64 - 1)); [machine_int|].
  destruct neg; machine_int.
Qed.

Lemma scan_cookie_fits cookie name id size : scan_cookie cookie = Some (name, id, size) ->
  strlen name <= ELA_MAX_FILE_NAME_LEN /\ strlen id <= ELA_MAX_FILE_ID_LEN /\ is_u64 size.
Proof.
  unfold scan_cookie. intros E. apply bind_Some in E as ([p s1] & _ & E).
  apply bind_Some in E as ([n s2] & En & E). apply bind_Some in E as ([i s3] & Ei & E).
  apply bind_Some in E as ([z s4] & Ez & E). destruct (str_eqb p _); [|done]. injection E as -> -> ->.
  apply scan_word_length in En, Ei. apply scan_llu_range in Ez. done.
Qed.

(** The text of a file fits the buffer of [sizeof(ElaFileTransferInfo) + 64]. *)
Lemma file_text_fits name id size : strlen name <= ELA_MAX_FILE_NAME_LEN -> strlen id <= ELA_MAX_FILE_ID_LEN ->
  is_u64 size -> strlen (file_text name id size) < INFO_SIZE + 64.
Proof.
  intros Hn Hi Hs. unfold file_text. rewrite !strlen_app. pose proof (print_llu_length size Hs).
  change (strlen bundle_prefix) with 12. change (strlen " ") with 1. unfold INFO_SIZE.
  change ELA_MAX_FILE_NAME_LEN with 255 in Hn. change ELA_MAX_FILE_ID_LEN with 45 in Hi. lia.
Qed.

Lemma ends_weaken {A} (P Q : A -> Prop) (bad bad' : fault -> Prop) (m : Res A) :
  (forall a, P a -> Q a) -> (forall f, bad f -> bad' f) -> ends P bad m -> ends Q bad' m.
Proof. destruct m; cbn; auto. Qed.

Section Inv.
Context `{!HashTables, !Base58, !Stack, !FtApp} {sess : Type} `{!SessionLayer sess}.
Implicit Types ft : ElaFileTransfer sess.

Record ft_wf ft : Prop := {
  wf_count : Z.of_nat (length (ft_files ft)) = ELA_MAX_TRANSFERFILE_COUNT;
  wf_items : Forall item_wf (ft_files ft);
  wf_state : FileTransferConnection_initialized <= ft_state ft <= FileTransferConnection_failed;
  wf_role : ft_sender_receiver ft = 0 \/ ft_sender_receiver ft = SENDER \/ ft_sender_receiver ft = RECEIVER;
  (* before a connection is asked for or accepted *)
  wf_idle : ft_sender_receiver ft = 0 -> ft_stream ft = -1 /\
    (ft_state ft = FileTransferConnection_initialized \/ ft_state ft = FileTransferConnection_closed);
  wf_closed : ft_session ft = false -> ft_state ft = FileTransferConnection_closed
}.

Lemma ft_wf_frame ft ft' : ft_wf ft -> ft_files ft' = ft_files ft -> ft_state ft' = ft_state ft ->
  ft_sender_receiver ft' = ft_sender_receiver ft -> ft_stream ft' = ft_stream ft ->
  ft_session ft' = ft_session ft -> ft_wf ft'.
Proof. intros [] E1 E2 E3 E4 E5. split; by rewrite ?E1, ?E2, ?E3, ?E4, ?E5. Qed.

Lemma no_item_wf : item_wf no_item.
Proof. unfold item_wf. split_and!; try done. Qed.

Lemma wf_item_at i ft : ft_wf ft -> item_wf (item_at ft i).
Proof.
  intros Hw. unfold item_at. destruct (ft_files ft !! i) as [it|] eqn:E; [|apply no_item_wf].
  by eapply (Forall_lookup_1 _ _ _ _ (wf_items ft Hw)).
Qed.

Lemma wf_set i f ft : ft_wf ft -> (forall it, ft_files ft !! i = Some it -> item_wf it -> item_wf (f it)) ->
  ft_wf (set_item i f ft).
Proof.
  intros [] Hf. split; try done.
  - cbn. by rewrite length_alter.
  - apply Forall_alter; [done|]. intros it Hit Hi. by apply Hf.
Qed.

Lemma ft_wf_emit b e ft : ft_wf ft -> ft_wf (ft_emit_if b e ft).
Proof. intros Hw. destruct b; [|done]. by eapply ft_wf_frame. Qed.

Lemma wf_notify st ft : ft_wf ft -> ft_session ft = true -> ft_sender_receiver ft <> 0 ->
  FileTransferConnection_initialized <= st <= FileTransferConnection_failed -> ft_wf (notify_state_changed st ft).
Proof.
  intros Hw Hs Hr Hst. unfold notify_state_changed. destruct (_ =? _); [done|]. apply ft_wf_emit.
  destruct Hw. split; try done. cbn. congruence.
Qed.

Lemma told_frame st ft : ft_files (notify_state_changed st ft) = ft_files ft /\
  ft_sess (notify_state_changed st ft) = ft_sess ft /\ ft_session (notify_state_changed st ft) = ft_session ft /\
  ft_sender_receiver (notify_state_changed st ft) = ft_sender_receiver ft /\
  ft_stream (notify_state_changed st ft) = ft_stream ft.
Proof. unfold notify_state_changed, ft_emit_if. destruct (_ =? _); [done|]. by destruct (fc_state_changed _). Qed.

(** Both for the state alone and with what a call left of the session. *)
Lemma wf_told ft : ft_wf ft -> ft_session ft = true -> ft_sender_receiver ft <> 0 ->
  (forall k, FileTransferConnection_initialized <= k <= FileTransferConnection_failed ->
     ft_wf (notify_state_changed k ft)) /\
  (forall k s, FileTransferConnection_initialized <= k <= FileTransferConnection_failed ->
     ft_wf { notify_state_changed k ft with ft_sess := s }).
Proof.
  intros Hw Hs Hr. split; intros k; [intros Hk; by apply wf_notify|].
  intros s Hk. eapply ft_wf_frame; [by apply (wf_notify k)|done..].
Qed.

Lemma item_wf_state st it : item_wf it -> it_filename it <> None -> item_wf { it with it_state := st }.
Proof. intros (? & ? & ? & ?) ?. split_and!; done. Qed.

Lemma item_wf_free it : item_wf it -> item_wf { it with it_state := FileTransferState_none }.
Proof. intros (? & ? & ? & ?). split_and!; done. Qed.

Lemma item_wf_drop it : item_wf it -> it_state it = FileTransferState_none -> item_wf (filename_safe_free it).
Proof. intros (? & ? & ? & ?) Hs. split_and!; done. Qed.

(** A used item goes to another state. *)
Lemma wf_set_state i st ft : ft_wf ft -> it_state (item_at ft i) <> FileTransferState_none ->
  ft_wf (set_item i (fun it => { it with it_state := st }) ft).
Proof.
  intros Hw Hs. apply wf_set; [done|]. intros it Hit Hi. apply item_wf_state; [done|].
  unfold item_at in Hs. rewrite Hit in Hs. by apply Hi.
Qed.

Lemma ends_failure code ft bad : ft_wf ft -> ends (fun '(_, ft) => ft_wf ft) bad (ft_fails code ft).
Proof. intros Hw. by eapply ft_wf_frame. Qed.

(** ** Reports of the session layer *)

Definition asserts (f : fault) : Prop := f = AssertFailed.

Definition packet_faults (e : stream_event) (f : fault) : Prop :=
  f = AssertFailed \/ f = BufferOverflow /\ exists ch data, e = SeChannelData ch data.

(** The state of a connection that is told. *)
Ltac ft_range := unfold FileTransferConnection_initialized, FileTransferConnection_connecting,
  FileTransferConnection_connected, FileTransferConnection_closed, FileTransferConnection_failed; lia.

Lemma item_text it name : item_wf it -> it_filename it = Some name ->
  strcpy (INFO_SIZE + 64) (file_text name (it_fileid it) (it_filesz it)) =
    Ok (file_text name (it_fileid it) (it_filesz it)).
Proof. intros (Hi & Hz & Hn & _) E. apply strcpy_Ok, file_text_fits; auto. Qed.

Lemma standby_name it : item_wf it -> it_state it = FileTransferState_standby ->
  exists name, it_filename it = Some name.
Proof.
  intros (_ & _ & _ & Hn) E. rewrite E in Hn. destruct (it_filename it) as [n|]; [by exists n|].
  by destruct Hn.
Qed.

Lemma sender_state_wf st ft : ft_wf ft -> ends ft_wf asserts (sender_state_changed st ft).
Proof.
  intros Hw. unfold sender_state_changed.
  eapply ends_bind; [by apply ends_assert|]. intros ? _ Hs.
  eapply ends_bind; [by apply ends_assert|]. intros ? _ Hr%Z.eqb_eq.
  assert (ft_sender_receiver ft <> 0) as Hr0 by (rewrite Hr; done).
  set (item := item_at ft 0). pose proof (wf_item_at 0 ft Hw : item_wf item) as Hi.
  destruct (wf_told ft Hw Hs Hr0) as [Hn Hns].
  destruct (_ =? ElaStreamState_initialized); [|destruct (_ =? ElaStreamState_transport_ready);
    [|destruct (_ =? ElaStreamState_connecting); [done|destruct (_ =? ElaStreamState_connected);
    [|destruct (_ =? ElaStreamState_failed); [|destruct (_ =? ElaStreamState_closed); [|done]]]]]].
  - destruct (_ <=? _); [apply Hn; ft_range|].
    apply (ends_bind (fun _ => True)).
    { case_bool_decide as Hst; [|done]. destruct (standby_name item Hi Hst) as [name E]. rewrite E. cbn [deref mbind Res_bind].
      by rewrite item_text. }
    intros bundle _ _. destruct (session_request _ _) as [rc s]. destruct (_ <? 0); [|apply Hns; ft_range].
    destruct (told_frame FileTransferConnection_connecting ft) as (_ & _ & E1 & E2 & _).
    apply wf_notify; cbn; [apply Hns|congruence|congruence|]; ft_range.
  - by eapply ft_wf_frame.
  - destruct (_ <=? _); [apply Hn; ft_range|].
    destruct (negb (bool_decide (it_state item = FileTransferState_standby))) eqn:Hst; [apply Hn; ft_range|].
    apply negb_false_iff, bool_decide_eq_true in Hst. destruct (standby_name item Hi Hst) as [name E]. rewrite E.
    cbn [deref mbind Res_bind]. rewrite item_text by done. cbn [mbind Res_bind].
    destruct (stream_open_channel _ _ _) as [ch s]. destruct (ch <? 0).
    + apply wf_set; [apply Hns; ft_range|]. intros it _ (? & ? & ? & ?). by split_and!.
    + apply wf_set; [apply Hns; ft_range|]. intros it _ (? & ? & ? & ?). by split_and!.
  - apply Hn; ft_range.
  - destruct (negb _); apply Hn; ft_range.
Qed.

Lemma receiver_state_wf st ft : ft_wf ft -> ends ft_wf asserts (receiver_state_changed st ft).
Proof.
  intros Hw. unfold receiver_state_changed.
  eapply ends_bind; [by apply ends_assert|]. intros ? _ Hs.
  eapply ends_bind; [by apply ends_assert|]. intros ? _ Hr%Z.eqb_eq.
  assert (ft_sender_receiver ft <> 0) as Hr0 by (rewrite Hr; done).
  set (item := item_at ft 0). pose proof (wf_item_at 0 ft Hw : item_wf item) as Hi.
  destruct (wf_told ft Hw Hs Hr0) as [Hn Hns].
  destruct (_ =? ElaStreamState_initialized); [|destruct (_ =? ElaStreamState_transport_ready);
    [|destruct (_ =? ElaStreamState_connecting); [done|destruct (_ =? ElaStreamState_connected);
    [|destruct (_ =? ElaStreamState_failed); [|destruct (_ =? ElaStreamState_closed); [|done]]]]]].
  - destruct (_ <=? _); [apply Hn; ft_range|]. rewrite strcpy_Ok.
    2: { destruct Hi as (Hi & _). change ELA_MAX_FILE_ID_LEN with 45 in *. case_bool_decide; [|done].
         rewrite !strlen_app. change (strlen bundle_prefix) with 12. change (strlen " ") with 1. lia. }
    cbn [mbind Res_bind]. destruct (session_reply_request _ _ _ _) as [rc s].
    destruct (_ <? 0); [|apply Hns; ft_range].
    destruct (told_frame FileTransferConnection_connecting ft) as (_ & _ & E1 & E2 & _).
    apply wf_notify; cbn; [apply Hns|congruence|congruence|]; ft_range.
  - destruct (session_start _ _) as [rc s]. assert (ft_wf { ft with ft_sess := s }) as Hw' by (by eapply ft_wf_frame).
    destruct (_ <? 0); [|done]. apply wf_notify; [done|done|done|ft_range].
  - apply Hn; ft_range.
  - apply Hn; ft_range.
  - eapply ends_bind; [by apply ends_assert|]. intros ? _ _. apply Hn; ft_range.
Qed.

Lemma stream_state_wf stream st ft : ft_wf ft -> ends ft_wf asserts (stream_state_changed stream st ft).
Proof.
  intros Hw. unfold stream_state_changed.
  eapply ends_bind; [by apply ends_assert|]. intros ? _ Hs.
  eapply ends_bind; [by apply ends_assert|]. intros ? _ _.
  destruct (_ =? SENDER); [by apply sender_state_wf|]. destruct (_ =? RECEIVER); [by apply receiver_state_wf|done].
Qed.

Lemma ends_guard stream ft : ends (fun _ => True) asserts (channel_guard stream ft).
Proof.
  unfold channel_guard. eapply ends_bind; [by apply ends_assert|]. intros ? _ _.
  eapply ends_bind; [by apply ends_assert|]. intros ? _ _. by destruct (_ =? _).
Qed.

Lemma channel_open_wf stream ch cookie ft : ft_wf ft ->
  ends (fun '(_, ft) => ft_wf ft) asserts (stream_channel_open stream ch cookie ft).
Proof.
  intros Hw. unfold stream_channel_open. eapply ends_bind; [apply ends_guard|]. intros ? _ _.
  destruct (negb _); [done|]. destruct (cookie ≫= scan_cookie) as [[[name id] size]|] eqn:E; [|done].
  apply bind_Some in E as (c & _ & E). apply scan_cookie_fits in E as (Hn & Hi & Hz).
  destruct (get_fileinfo_fileid ft id) as [i|].
  - destruct (negb _); [done|]. destruct (negb _); [done|]. by apply wf_set.
  - destruct (get_fileinfo_free ft) as [i|]; [|done].
    rewrite strcpy_Ok by lia. cbn. apply wf_set; [done|]. intros it _ _. split_and!; cbn; try done. naive_solver.
Qed.

Lemma channel_opened_wf ch ft : ft_wf ft -> ft_wf (stream_channel_opened ch ft).
Proof.
  intros Hw. unfold stream_channel_opened. destruct (negb _); [done|].
  destruct (get_fileinfo_channel ft ch); [by apply ft_wf_emit|done].
Qed.

Lemma channel_close_wf stream ch ft : ft_wf ft -> ends ft_wf asserts (stream_channel_close stream ch ft).
Proof.
  intros Hw. unfold stream_channel_close. eapply ends_bind; [apply ends_guard|]. intros ? _ _.
  destruct (get_fileinfo_channel ft ch); [|done]. apply wf_set; [done|].
  intros it _ Hi. by apply item_wf_drop; [apply item_wf_free|].
Qed.

Definition reads_past (f : fault) : Prop := f = AssertFailed \/ f = BufferOverflow.

Lemma ends_field data off n : ends (fun _ => True) reads_past (packet_field data off n).
Proof. unfold packet_field. destruct (Nat.leb _ _); [done|by right]. Qed.

Lemma sender_data_wf i id data ft : ft_wf ft ->
  ends (fun '(_, ft) => ft_wf ft) reads_past (sender_channel_data i id data ft).
Proof.
  intros Hw. unfold sender_channel_data. eapply ends_bind; [apply ends_field|]. intros type _ _.
  destruct (_ =? PACKET_PULL); [|destruct (_ =? PACKET_CANCEL); [|done]].
  - destruct (negb (bool_decide _)) eqn:Hst; [done|]. apply negb_false_iff, bool_decide_eq_true in Hst.
    eapply ends_bind; [apply ends_field|]. intros offset _ _. apply ft_wf_emit, wf_set_state; [done|by rewrite Hst].
  - eapply ends_bind; [apply ends_field|]. intros status _ _.
    apply (ends_bind (fun _ => True)).
    + destruct (fc_cancel _); [|done]. unfold packet_text. destruct (c_string _) as [[]|]; [done|by right].
    + intros reason _ _. apply ft_wf_emit, wf_set; [done|]. intros it _. apply item_wf_free.
Qed.

Lemma channel_data_wf stream ch data ft : ft_wf ft ->
  ends (fun '(_, ft) => ft_wf ft) reads_past (stream_channel_data stream ch data ft).
Proof.
  intros Hw. unfold stream_channel_data.
  eapply ends_bind; [eapply ends_weaken; [| |apply ends_guard]; [done|by left]|]. intros ? _ _.
  destruct (get_fileinfo_channel ft ch) as [i|]; [|done].
  destruct (_ =? SENDER); [by apply sender_data_wf|]. destruct (_ =? RECEIVER); [|by left].
  unfold receiver_channel_data. destruct (negb _); [done|]. destruct (fc_data _); [|done].
  by eapply ft_wf_frame.
Qed.

Lemma flow_change_wf stream ch from to told event ft : ft_wf ft -> from <> FileTransferState_none ->
  ends ft_wf asserts (flow_change stream ch from to told event ft).
Proof.
  intros Hw Hf. unfold flow_change. eapply ends_bind; [apply ends_guard|]. intros ? _ _.
  destruct (negb _); [done|]. destruct (get_fileinfo_channel ft ch) as [i|]; [|done].
  destruct (negb (bool_decide _)) eqn:Hst; [done|]. apply negb_false_iff, bool_decide_eq_true in Hst.
  apply wf_set_state; [by apply ft_wf_emit|].
  unfold ft_emit_if. destruct (told _); [change (item_at (ft_emit _ ft) i) with (item_at ft i)|]; by rewrite Hst.
Qed.

Lemma stream_step_wf stream e ft : ft_wf ft ->
  ends (fun '(_, ft) => ft_wf ft) (packet_faults e) (stream_step stream e ft).
Proof.
  intros Hw.
  assert (forall m, ends ft_wf asserts m ->
    ends (fun '(_, ft) => ft_wf ft) (packet_faults e) (ft ← m; Ok (true, ft))) as Hlift.
  { intros m Hm. eapply ends_bind; [eapply ends_weaken; [| |exact Hm]; [done|by left]|]. by intros a _ Ha. }
  destruct e as [st|ch cookie|ch|ch|ch data|ch|ch]; cbn [stream_step].
  - by apply Hlift, stream_state_wf.
  - eapply ends_weaken; [| |by apply channel_open_wf]; [done|by left].
  - by apply channel_opened_wf.
  - by apply Hlift, channel_close_wf.
  - eapply ends_weaken; [| |by apply channel_data_wf]; [done|]. intros f [->| ->]; [by left|right]. eauto.
  - by apply Hlift, flow_change_wf.
  - by apply Hlift, flow_change_wf.
Qed.

Lemma stream_steps_wf stream es ft : ft_wf ft -> ends ft_wf reads_past (stream_steps stream es ft).
Proof.
  revert ft. induction es as [|e es IH]; intros ft Hw; [done|]. cbn [stream_steps].
  eapply ends_bind; [eapply ends_weaken; [| |by apply stream_step_wf]; [done|]|].
  - intros f [->|[-> _]]; [by left|by right].
  - intros [b ft'] _ Hw'. by apply IH.
Qed.

Lemma remove_stream_wf stream ft : ft_wf ft -> ends ft_wf reads_past (remove_stream stream ft).
Proof.
  intros Hw. unfold remove_stream. destruct (session_remove_stream _ _) as [es s].
  apply stream_steps_wf. by eapply ft_wf_frame.
Qed.

Lemma wf_forgets_stream err ft : ft_wf ft -> ft_wf { ft with ft_stream := -1; ft_error := err }.
Proof. intros [? ? ? ? Hidle ?]. split; try done. intros Hr. split; [done|]. by apply Hidle. Qed.

Lemma remove_secure_wf err ft : ft_wf ft -> ends ft_wf reads_past (remove_stream_secure err ft).
Proof.
  intros Hw. unfold remove_stream_secure. eapply ends_bind; [apply ends_assert; by left|]. intros ? _ _.
  eapply ends_bind; [apply ends_assert; by left|]. intros ? _ _.
  by apply remove_stream_wf, wf_forgets_stream.
Qed.

Lemma complete_wf bundle status sdp ft : ft_wf ft ->
  ends ft_wf (fun f => reads_past f \/ f = Diverges) (sessionreq_complete_callback bundle status sdp ft).
Proof.
  intros Hw. unfold sessionreq_complete_callback.
  eapply ends_bind; [apply ends_assert; by left; left|]. intros ? _ _.
  eapply ends_bind; [apply ends_assert; by left; left|]. intros ? _ _.
  destruct (_ && _); [by right|]. destruct (_ =? _); [done|].
  assert (forall err ft', ft_wf ft' ->
    ends ft_wf (fun f => reads_past f \/ f = Diverges) (remove_stream_secure err ft')) as Hrem.
  { intros err ft' Hw'. eapply ends_weaken; [| |by apply remove_secure_wf]; [done|by left]. }
  destruct (negb (status =? 0)); [by apply Hrem|]. cbv zeta. destruct (negb _); [by apply Hrem|].
  eapply ends_bind; [apply ends_assert; by left; left|]. intros ? _ _.
  destruct (session_start _ _) as [rc s]. assert (ft_wf { ft with ft_sess := s }) by (by eapply ft_wf_frame).
  destruct (_ <? 0); [by apply Hrem|done].
Qed.

(** ** Calls of the application *)

Lemma drop_slashes_length l : (length (drop_slashes l) <= length l)%nat.
Proof. induction l as [|c l IH]; cbn; [done|]. case_bool_decide; cbn; lia. Qed.

Lemma until_slash_length l : (length (until_slash l) <= length l)%nat.
Proof. induction l as [|c l IH]; cbn; [done|]. case_bool_decide; cbn; lia. Qed.

Lemma string_of_list_length l : String.length (String.string_of_list_ascii l) = length l.
Proof. induction l as [|c l IH]; cbn; [done|by rewrite IH]. Qed.

Lemma list_of_string_length s : length (String.list_ascii_of_string s) = String.length s.
Proof. induction s as [|c s IH]; cbn; [done|by rewrite IH]. Qed.

Lemma basename_length s : strlen (basename s) <= Z.max 1 (strlen s).
Proof.
  unfold basename, strlen. rewrite <- (list_of_string_length s).
  set (l := String.list_ascii_of_string s).
  pose proof (until_slash_length (drop_slashes (reverse l))) as Hu.
  pose proof (drop_slashes_length (reverse l)) as Hd. rewrite length_reverse in Hd.
  pose proof (length_reverse (until_slash (drop_slashes (reverse l)))) as Hrev.
  destruct l as [|c l]; [done|].
  destruct (reverse (until_slash (drop_slashes (reverse (c :: l))))) as [|d m]; [cbn; lia|].
  rewrite string_of_list_length. lia.
Qed.

(** A description as the structure holds it, and the text of a fresh key. *)
Definition info_ok (fi : ElaFileTransferInfo) : Prop :=
  strlen (fi_filename fi) <= ELA_MAX_FILE_NAME_LEN /\ strlen (fi_fileid fi) <= ELA_MAX_FILE_ID_LEN /\
  is_u64 (fi_size fi).

Lemma choose_fileid_fits fi new_id : info_ok fi -> strlen new_id <= ELA_MAX_FILE_ID_LEN ->
  exists id, choose_fileid fi new_id = Ok id /\ strlen id <= ELA_MAX_FILE_ID_LEN.
Proof.
  intros (_ & Hid & _) Hnew. unfold choose_fileid. destruct (negb _).
  - exists (fi_fileid fi). by rewrite strcpy_Ok by lia.
  - exists new_id. split; [|done]. unfold ela_filetransfer_fileid.
    by rewrite (proj2 (Z.leb_gt _ _)) by lia.
Qed.

Lemma described_wf fi id ud st ch : info_ok fi -> strlen id <= ELA_MAX_FILE_ID_LEN ->
  item_wf {| it_fileid := id; it_filename := Some (basename (fi_filename fi)); it_filesz := fi_size fi;
             it_userdata := ud; it_state := st; it_channel := ch |}.
Proof.
  intros (Hn & _ & Hz) Hid. split_and!; try done. intros name [= <-].
  pose proof (basename_length (fi_filename fi)). change ELA_MAX_FILE_NAME_LEN with 255 in *. lia.
Qed.

Lemma new_wf ext address fileinfo callbacks new_id session ft :
  (forall fi, fileinfo = Some fi -> info_ok fi) -> strlen new_id <= ELA_MAX_FILE_ID_LEN ->
  ela_filetransfer_new ext address fileinfo callbacks new_id session = Ok (inr ft) -> ft_wf ft.
Proof.
  intros Hfi Hnew. unfold ela_filetransfer_new. destruct callbacks as [cbs|]; [|done].
  destruct (_ || _); [done|]. intros Hn. apply Res_bind_Ok in Hn as (item & Hitem & Hn).
  assert (item_wf item) as Hi.
  { destruct fileinfo as [fi|]; [|injection Hitem as <-; apply no_item_wf].
    destruct (choose_fileid_fits fi new_id) as (id & E & Hid); [by apply Hfi|done|].
    rewrite E in Hitem. injection Hitem as <-. by apply described_wf; [apply Hfi|]. }
  destruct (negb ext); [done|]. destruct session as [code|s]; [done|].
  apply Res_bind_Ok in Hn as (a & _ & [= <-]). split; cbn; try done.
  - constructor; [done|]. by repeat (constructor; [apply no_item_wf|]).
  - by left.
  - by auto.
Qed.

Implicit Types call : Res (Z * ElaFileTransfer sess).

(** A call that keeps the transfer well formed and fails assertions only. *)
Definition keeps call : Prop := ends (fun '(_, ft) => ft_wf ft) asserts call.

Lemma with_item_wf fileid ft k : ft_wf ft -> (forall i, keeps (k i)) -> keeps (with_item fileid ft k).
Proof.
  intros Hw Hk. unfold with_item. destruct (null_or_empty _); [by apply ends_failure|].
  destruct (get_fileinfo_fileid _ _); [done|by apply ends_failure].
Qed.

Lemma in_state_wf role ok i ft call : ft_wf ft -> (ok (it_state (item_at ft i)) = true -> keeps call) ->
  keeps (in_state role ok i ft call).
Proof.
  intros Hw Hk. unfold in_state.
  destruct (negb _); [by apply ends_failure|]. destruct (negb _); [by apply ends_failure|].
  destruct (ok _); [|by apply ends_failure]. cbn [negb].
  do 3 (eapply ends_bind; [by apply ends_assert|]; intros ? _ _). by apply Hk.
Qed.

Lemma went_down_wf rc s ft k : ft_wf ft -> (ft_wf { ft with ft_sess := s } -> ft_wf (k { ft with ft_sess := s }).2) ->
  keeps (went_down rc s ft k).
Proof.
  intros Hw Hk. assert (ft_wf { ft with ft_sess := s }) as Hw' by (by eapply ft_wf_frame).
  unfold went_down. destruct (_ <? 0); [by apply ends_failure|]. unfold keeps, ends.
  specialize (Hk Hw'). by destruct (k _).
Qed.

(** The receiver's calls that move an item from one state to another. *)
Lemma moves_wf from to i rc s ft : ft_wf ft -> from <> FileTransferState_none ->
  is_state from (it_state (item_at ft i)) = true -> keeps (went_down rc s ft (to_state to i)).
Proof.
  intros Hw Hf Hst%bool_decide_eq_true. apply went_down_wf; [done|]. intros Hw'.
  apply wf_set_state; [done|]. change (item_at { ft with ft_sess := s } i) with (item_at ft i). by rewrite Hst.
Qed.

Lemma add_wf fileinfo new_id ft : ft_wf ft -> (forall fi, fileinfo = Some fi -> info_ok fi) ->
  strlen new_id <= ELA_MAX_FILE_ID_LEN -> keeps (ela_filetransfer_add ft fileinfo new_id).
Proof.
  intros Hw Hfi Hnew. unfold ela_filetransfer_add. destruct fileinfo as [fi|]; [|by apply ends_failure].
  specialize (Hfi fi eq_refl). do 3 (destruct (negb _); [by apply ends_failure|]).
  do 2 (eapply ends_bind; [by apply ends_assert|]; intros ? _ _).
  destruct (get_fileinfo_free ft) as [i|] eqn:Hfree; [|by apply ends_failure].
  destruct (choose_fileid_fits fi new_id Hfi Hnew) as (id & -> & Hid). cbn [mbind Res_bind].
  destruct Hfi as (Hn & Hi & Hz). rewrite strcpy_Ok by (by apply file_text_fits). cbn [mbind Res_bind].
  destruct (stream_open_channel _ _ _) as [ch s].
  assert (forall f, (forall it, it_state it = FileTransferState_none -> item_wf it -> item_wf (f it)) ->
    ft_wf (set_item i f ft)) as Hset.
  { intros f Hf. apply wf_set; [done|]. intros it Hit Hit'. apply Hf; [|done].
    apply find_index in Hfree as (x & Hx & Hst & _). rewrite Hx in Hit. by injection Hit as ->. }
  destruct (ch <? 0).
  - eapply (ft_wf_frame (set_item i _ ft)); [eapply Hset|by cbn; rewrite list_alter_alter_eq|done..].
    intros it Hst _. split_and!; done.
  - eapply (ft_wf_frame (set_item i _ ft)); [eapply Hset|by cbn; rewrite !list_alter_alter_eq|done..].
    intros it _ _. cbn. by apply described_wf.
Qed.

(** ** Steps of a transfer *)

Inductive transfer_op :=
| OConnect
| OAccept (ext : FileTransferExt)
| OReport (stream : Z) (e : stream_event)
| OReply (bundle : option string) (status : Z) (sdp : list byte)
| OAdd (fileinfo : option ElaFileTransferInfo) (new_id : string)
| OPull (fileid : option string) (offset : Z)
| OSend (fileid : option string) (data : option (list byte)) (length : Z)
| OCancel (fileid : option string) (status : Z) (reason : option string)
| OPend (fileid : option string)
| OResume (fileid : option string)
| OSetUserdata (fileid : option string) (userdata : Z)
| OGetFileid (filename : option string) (length : Z)
| OGetFilename (fileid : option string) (length : Z)
| OClose (ext : FileTransferExt).

(** What a step leaves of the transfer. *)
Definition transfer_step (op : transfer_op) ft : Res (ElaFileTransfer sess) :=
  match op with
  | OConnect => snd <$> ela_filetransfer_connect ft
  | OAccept ext => snd <$> ela_filetransfer_accept_connect ext ft
  | OReport stream e => snd <$> stream_step stream e ft
  | OReply bundle status sdp => sessionreq_complete_callback bundle status sdp ft
  | OAdd fileinfo new_id => snd <$> ela_filetransfer_add ft fileinfo new_id
  | OPull fileid offset => snd <$> ela_filetransfer_pull ft fileid offset
  | OSend fileid data length => snd <$> ela_filetransfer_send ft fileid data length
  | OCancel fileid status reason => snd <$> ela_filetransfer_cancel ft fileid status reason
  | OPend fileid => snd <$> ela_filetransfer_pend ft fileid
  | OResume fileid => snd <$> ela_filetransfer_resume ft fileid
  | OSetUserdata fileid userdata => snd <$> ela_filetransfer_set_userdata ft fileid userdata
  | OGetFileid filename length => snd <$> ela_filetransfer_get_fileid ft filename length
  | OGetFilename fileid length => snd <$> ela_filetransfer_get_filename ft fileid length
  | OClose ext => snd <$> ela_filetransfer_close ext ft
  end.

(** The faults a step may end in. *)
Definition step_faults (op : transfer_op) (f : fault) : Prop :=
  match op with
  | OReport _ e => packet_faults e f
  | OReply _ _ _ => reads_past f \/ f = Diverges
  | OClose _ => reads_past f
  | OGetFileid _ _ | OGetFilename _ _ => f = NullDeref
  | OSetUserdata _ _ => False
  | _ => f = AssertFailed
  end.

Definition step_typed (op : transfer_op) : Prop :=
  match op with
  | OAdd fileinfo new_id => (forall fi, fileinfo = Some fi -> info_ok fi) /\ strlen new_id <= ELA_MAX_FILE_ID_LEN
  | _ => True
  end.

Inductive transfer_reach (ft0 : ElaFileTransfer sess) : ElaFileTransfer sess -> Prop :=
| reach_start : transfer_reach ft0 ft0
| reach_step op ft ft' : transfer_reach ft0 ft -> step_typed op -> transfer_step op ft = Ok ft' ->
    transfer_reach ft0 ft'.

Lemma ends_fmap {A B} (g : A -> B) (P : B -> Prop) (bad : fault -> Prop) (m : Res A) :
  ends (fun a => P (g a)) bad m -> ends P bad (g <$> m).
Proof. by destruct m. Qed.

Lemma keeps_step call (bad : fault -> Prop) : keeps call -> bad AssertFailed -> ends ft_wf bad (snd <$> call).
Proof.
  intros Hk Hb. apply ends_fmap. eapply ends_weaken; [| |exact Hk]; [by intros []|by intros f ->].
Qed.

Lemma wf_joined role stream sdp s ft : ft_wf ft -> role = SENDER \/ role = RECEIVER ->
  ft_wf { ft with ft_sdp := sdp; ft_sender_receiver := role; ft_sess := s; ft_stream := stream }.
Proof. intros [] Hr. split; try done; [by right|]. cbn. by destruct Hr as [-> | ->]. Qed.

Lemma connect_wf ft : ft_wf ft -> keeps (ela_filetransfer_connect ft).
Proof.
  intros Hw. unfold ela_filetransfer_connect. destruct (negb _); [by apply ends_failure|].
  do 2 (eapply ends_bind; [by apply ends_assert|]; intros ? _ _).
  destruct (session_add_stream _) as [rc s].
  assert (ft_wf { ft with ft_sender_receiver := SENDER; ft_sess := s; ft_stream := if rc <? 0 then -1 else rc }) as Hw'.
  { eapply (ft_wf_frame { ft with ft_sdp := ft_sdp ft; ft_sender_receiver := SENDER; ft_sess := s;
                               ft_stream := if rc <? 0 then -1 else rc }); [|done..]. apply wf_joined; [done|by left]. }
  destruct (rc <? 0); [by apply ends_failure|done].
Qed.

Lemma accept_wf ext ft : ft_wf ft ->
  ends (fun '(_, _, ft) => ft_wf ft) asserts (ela_filetransfer_accept_connect ext ft).
Proof.
  intros Hw. unfold ela_filetransfer_accept_connect. destruct (negb _); [by eapply ft_wf_frame|].
  do 2 (eapply ends_bind; [by apply ends_assert|]; intros ? _ _).
  destruct (ht_get _ _) as [fr|]; [|by eapply ft_wf_frame]. destruct (session_add_stream _) as [rc s].
  assert (ft_wf { ft with ft_sdp := Some (fr_sdp fr); ft_sender_receiver := RECEIVER; ft_sess := s;
                          ft_stream := if rc <? 0 then -1 else rc }) as Hw' by (apply wf_joined; [done|by right]).
  destruct (rc <? 0); [|done]. by eapply ft_wf_frame.
Qed.

Lemma wf_shut ft (b : bool) stream s : ft_wf ft -> (ft_sender_receiver ft = 0 -> stream = -1) ->
  ft_wf { ft with ft_stream := stream; ft_sess := s; ft_session := b; ft_state := FileTransferConnection_closed }.
Proof. intros [] Hst. split; try done. intros Hr. split; [by apply Hst|by right]. Qed.

Lemma close_wf ext ft : ft_wf ft -> ends (fun '(_, ft) => ft_wf ft) reads_past (ela_filetransfer_close ext ft).
Proof.
  intros Hw. unfold ela_filetransfer_close. apply (ends_bind (fun '(_, ft) => ft_wf ft)).
  { destruct (ht_get _ _) as [fr|]; [|done]. eapply ends_bind; [apply ends_assert; by left|]. intros ? _ _.
    destruct (session_reply_request _ _ _ _) as [rc s]. by eapply ft_wf_frame. }
  intros [ext' ft1] _ Hw1. apply (ends_bind ft_wf).
  { destruct (_ <? _); [|done]. eapply ends_bind; [by apply remove_stream_wf|]. intros ft2 _ Hw2.
    eapply (ft_wf_frame { ft2 with ft_stream := -1; ft_error := ft_error ft2 }); [by apply wf_forgets_stream|done..]. }
  intros ft2 _ Hw2. destruct (ft_session ft2) eqn:Hs.
  - eapply (ft_wf_frame { ft2 with ft_stream := ft_stream ft2; ft_sess := session_close (ft_sess ft2);
                                ft_session := false; ft_state := FileTransferConnection_closed }); [|done..].
    apply wf_shut; [done|]. intros Hr. by apply (wf_idle _ Hw2).
  - eapply (ft_wf_frame { ft2 with ft_stream := ft_stream ft2; ft_sess := ft_sess ft2;
                                ft_session := false; ft_state := FileTransferConnection_closed }); [|done..].
    apply wf_shut; [done|]. intros Hr. by apply (wf_idle _ Hw2).
Qed.

Lemma get_fileid_wf filename length ft : ft_wf ft ->
  ends (fun '(_, ft) => ft_wf ft) (fun f => f = NullDeref) (ela_filetransfer_get_fileid ft filename length).
Proof.
  intros Hw. unfold ela_filetransfer_get_fileid. destruct (null_or_empty _); [by eapply ft_wf_frame|].
  destruct (Z.leb_spec length ELA_MAX_FILE_ID_LEN); [by eapply ft_wf_frame|]. cbn [orb].
  apply (ends_bind (fun _ => True)).
  { unfold get_fileinfo_name. generalize 0%nat. induction (ft_files ft) as [|it l IH]; intros n; [done|].
    cbn [find_name]. destruct (it_filename it) as [name|]; [|done]. cbn [deref mbind Res_bind].
    destruct (str_eqb _ _); [done|apply IH]. }
  intros [i|] _ _; [|by eapply ft_wf_frame].
  rewrite strcpy_Ok; [done|]. destruct (wf_item_at i ft Hw) as (Hi & _). lia.
Qed.

Lemma get_filename_wf fileid length ft : ft_wf ft ->
  ends (fun '(_, ft) => ft_wf ft) (fun f => f = NullDeref) (ela_filetransfer_get_filename ft fileid length).
Proof.
  intros Hw. unfold ela_filetransfer_get_filename. destruct (_ || _); [by eapply ft_wf_frame|].
  destruct (get_fileinfo_fileid _ _) as [i|]; [|by eapply ft_wf_frame].
  destruct (it_filename _) as [name|]; [|done]. cbn [deref mbind Res_bind].
  destruct (Z.leb_spec length (strlen name)); [by eapply ft_wf_frame|]. by rewrite strcpy_Ok by lia.
Qed.

Lemma set_userdata_wf fileid userdata ft : ft_wf ft ->
  ends ft_wf (fun _ => False) (snd <$> ela_filetransfer_set_userdata ft fileid userdata).
Proof.
  intros Hw. unfold ela_filetransfer_set_userdata, with_item. destruct (null_or_empty _); [by eapply ft_wf_frame|].
  destruct (get_fileinfo_fileid _ _); [|by eapply ft_wf_frame]. destruct (negb _); [by eapply ft_wf_frame|].
  by apply wf_set.
Qed.

Lemma transfer_step_wf op ft : ft_wf ft -> step_typed op -> ends ft_wf (step_faults op) (transfer_step op ft).
Proof.
  intros Hw Ht. destruct op; cbn [transfer_step step_faults step_typed] in *.
  - by apply keeps_step; [apply connect_wf|].
  - apply ends_fmap. eapply ends_weaken; [| |by apply accept_wf]; [by intros [[]]|done].
  - apply ends_fmap. eapply ends_weaken; [| |by apply stream_step_wf]; [by intros []|done].
  - by apply complete_wf.
  - destruct Ht. apply keeps_step; [by apply add_wf|done].
  - apply keeps_step; [|done]. apply with_item_wf; [done|]. intros i.
    destruct (_ <=? _); [by apply ends_failure|]. apply in_state_wf; [done|]. intros Hst.
    destruct (stream_write_channel _ _ _ _). by eapply moves_wf; [done| |exact Hst].
  - apply keeps_step; [|done]. unfold ela_filetransfer_send. destruct (_ || _); [by apply ends_failure|].
    apply with_item_wf; [done|]. intros i. destruct (_ <? _); [by apply ends_failure|].
    apply in_state_wf; [done|]. intros Hst. destruct (stream_write_channel _ _ _ _). by apply went_down_wf.
  - apply keeps_step; [|done]. unfold ela_filetransfer_cancel. destruct reason; [|by apply ends_failure].
    apply with_item_wf; [done|]. intros i. apply in_state_wf; [done|]. intros Hst.
    destruct (stream_write_channel _ _ _ _). by apply went_down_wf.
  - apply keeps_step; [|done]. apply with_item_wf; [done|]. intros i. apply in_state_wf; [done|]. intros Hst.
    destruct (stream_pend_channel _ _ _). by eapply moves_wf; [done| |exact Hst].
  - apply keeps_step; [|done]. apply with_item_wf; [done|]. intros i. apply in_state_wf; [done|]. intros Hst.
    destruct (stream_resume_channel _ _ _). by eapply moves_wf; [done| |exact Hst].
  - by apply set_userdata_wf.
  - apply ends_fmap. eapply ends_weaken; [| |by apply get_fileid_wf]; [by intros []|done].
  - apply ends_fmap. eapply ends_weaken; [| |by apply get_filename_wf]; [by intros []|done].
  - apply ends_fmap. eapply ends_weaken; [| |by apply close_wf]; [by intros []|done].
Qed.

(** C34. Every step keeps a transfer well formed.  Whatever sequence of calls, reports
    and answers follows its creation, the five items hold ids and names within their
    buffers and a name while they are in use, and the next step either keeps this or
    ends in a fault named for it: assertions, the null name behind the two getters,
    and the short packets that are read past their end. *)
Theorem transfers_safe ext address fileinfo callbacks new_id session ft0 ft :
  (forall fi, fileinfo = Some fi -> info_ok fi) -> strlen new_id <= ELA_MAX_FILE_ID_LEN ->
  ela_filetransfer_new ext address fileinfo callbacks new_id session = Ok (inr ft0) ->
  transfer_reach ft0 ft ->
  ft_wf ft /\ forall op, step_typed op -> ends ft_wf (step_faults op) (transfer_step op ft).
Proof.
  intros Hfi Hnew Hft0 Hreach. assert (ft_wf ft) as Hw; [|split; [done|intros op; by apply transfer_step_wf]].
  induction Hreach as [|op ft ft' Hr IH Ht Hs]; [by eapply new_wf|].
  pose proof (transfer_step_wf op ft IH Ht) as He. by rewrite Hs in He.
Qed.
End Inv.
