(* ===== verification/FtSample.v ===== *)
(** * Concrete file transfers

    A session layer that takes every call, an application that wants everything, and
    two ends that connect, offer a file and transfer it; the theorems on transfers
    evaluated on them.  Nothing of the code is modelled here. *)

From S2P Require Import Prelude ElaError Carrier Sample Multiplex MuxSample CText FileTransfer FileTransferProps FileTransferPair FileTransferOffer FileTransferInv.

(** ** A session layer *)

Record link := { ln_sent : list link_msg; ln_next : Z }.
Definition no_link : link := {| ln_sent := []; ln_next := 1 |}.
Definition put_link (m : link_msg) (s : link) : link := { s with ln_sent ::= fun l => l ++ [m] }.

#[export] Instance link_layer : SessionLayer link := {
  session_request s _ := (0, s);
  session_reply_request s _ _ _ := (0, s);
  session_start s _ := (0, s);
  session_add_stream s := (1, s);
  session_remove_stream s _ := ([SeStateChanged ElaStreamState_closed], s);
  session_close s := s;
  stream_open_channel s _ cookie :=
    if 0 <? ln_next s then (ln_next s, { put_link (LinkOpen (ln_next s) cookie) s with ln_next ::= Z.add 1 })
    else (-1, s);
  stream_write_channel s _ ch data := (Z.of_nat (length data), put_link (LinkData ch data) s);
  stream_pend_channel s _ ch := (0, put_link (LinkPend ch) s);
  stream_resume_channel s _ ch := (0, put_link (LinkResume ch) s)
}.

#[export] Instance link_laws : SessionLaws link.
Proof.
  refine {| link_sent := ln_sent |}; cbn.
  - intros s stream cookie rc s'. destruct (Z.ltb_spec 0 (ln_next s)); intros [= <- <-]; [by left|by right].
  - intros s stream ch data rc s' [= <- <-]. left. split; [lia|done].
  - intros s stream ch rc s' [= <- <-]. by left.
  - intros s stream ch rc s' [= <- <-]. by left.
Defined.

#[export] Instance wants_all : FtApp := { more_data _ _ := true }.

Definition sample_ft : Type := ElaFileTransfer link.

Definition all_told_cbs : FtCallbacks :=
  {| fc_state_changed := true; fc_file := true; fc_pull := true; fc_data := true; fc_pending := true;
     fc_resume := true; fc_cancel := true |}.

(** ** Two ends that connect *)

Definition notes : ElaFileTransferInfo :=
  {| fi_filename := "notes.txt"; fi_fileid := alice_id; fi_size := 5; fi_userdata := 0 |}.
Definition picture : ElaFileTransferInfo :=
  {| fi_filename := "picture.png"; fi_fileid := bob_id; fi_size := 1000; fi_userdata := 0 |}.

Definition made (fi : option ElaFileTransferInfo) : Res sample_ft :=
  r ← ela_filetransfer_new true (Some bob_id) fi (Some all_told_cbs) alice_id (inr no_link);
  match r with inr ft => Ok ft | inl _ => Fault Diverges end.

Fixpoint steps (ops : list transfer_op) (ft : sample_ft) : Res sample_ft :=
  match ops with [] => Ok ft | op :: ops => ft ← transfer_step op ft; steps ops ft end.

Definition told_state (st : Z) : transfer_op := OReport 1 (SeStateChanged st).

Definition sender_steps : list transfer_op :=
  [OConnect; told_state ElaStreamState_initialized; told_state ElaStreamState_transport_ready;
   OReply (Some "filetransfer"%string) 0 []; told_state ElaStreamState_connecting;
   told_state ElaStreamState_connected].

(** The extension of the receiver's node with the request of the sender. *)
Definition requested : FileTransferExt :=
  match sessionreq_callback 0 bob_id (Some (file_text "notes.txt" alice_id 5)) []
          {| connect_callback := true; filereqs := ht_empty; ext_events := [] |} with
  | Ok ext => ext
  | Fault _ => {| connect_callback := true; filereqs := ht_empty; ext_events := [] |}
  end.

Definition receiver_steps : list transfer_op :=
  [OAccept requested; told_state ElaStreamState_initialized; told_state ElaStreamState_transport_ready;
   told_state ElaStreamState_connecting; told_state ElaStreamState_connected].

Definition dead : sample_ft :=
  {| ft_errno := 0; ft_address := ""; ft_files := []; ft_session := false; ft_sess := no_link; ft_stream := 0;
     ft_error := 0; ft_state := 0; ft_callbacks := all_told_cbs; ft_sdp := None; ft_sender_receiver := 0;
     ft_ready_to_connect := false; ft_events := [] |}.
Definition or_dead (m : Res sample_ft) : sample_ft := match m with Ok ft => ft | Fault _ => dead end.

Definition sender : sample_ft := or_dead (ft ← made (Some notes); steps sender_steps ft).
Definition cookie : string := file_text "notes.txt" alice_id 5.
Definition joined : sample_ft := or_dead (ft ← made None; steps receiver_steps ft).
Definition receiver : sample_ft :=
  or_dead (steps [OReport 1 (SeChannelOpen 7 (Some cookie)); OReport 1 (SeChannelOpened 7)] joined).

Example transfer_connects :
  ln_sent (ft_sess sender) = [LinkOpen 1 cookie] /\
  ft_state sender = FileTransferConnection_connected /\
  ft_events receiver = [FtFile alice_id (Some "notes.txt"%string) 5;
    FtStateChanged FileTransferConnection_connected; FtStateChanged FileTransferConnection_connecting] /\
  ext_events requested = [(bob_id, Some {| fi_filename := "notes.txt"; fi_fileid := alice_id; fi_size := 5;
                                           fi_userdata := 0 |})].
Proof. by vm_compute. Qed.

Lemma sender_carries : carries SENDER alice_id 1 0 sender.
Proof. repeat split; vm_compute; reflexivity || lia || discriminate. Qed.
Lemma receiver_carries : carries RECEIVER alice_id 7 0 receiver.
Proof. repeat split; vm_compute; reflexivity || lia || discriminate. Qed.

(** ** The file *)

Definition bytes (s : string) : list byte := String.list_byte_of_string s.

Definition session_ops : list pair_op :=
  [PairAsk (CPull 0); PairUp; PairSend (bytes "ab"); PairSend (bytes "cde"); PairDown; PairAsk CResume; PairDown].

Lemma told_all : all_told sender.
Proof. by intros []. Qed.

Lemma session_pulls offset : PairAsk (CPull offset) ∈ session_ops -> is_u64 offset.
Proof.
  unfold session_ops. intros Hin. repeat setoid_rewrite elem_of_cons in Hin.
  destruct Hin as [Hin|[?|[?|[?|[?|[?|[?|Hin]]]]]]]; [|discriminate..|by apply not_elem_of_nil in Hin].
  injection Hin as ->. done.
Qed.

Lemma session_steady : PairAsk CPend ∉ session_ops.
Proof.
  unfold session_ops. intros Hin. repeat setoid_rewrite elem_of_cons in Hin.
  destruct Hin as [?|[?|[?|[?|[?|[?|[?|Hin]]]]]]]; [discriminate..|by apply not_elem_of_nil in Hin].
Qed.

Lemma ends_agree_witness :
  exists p, pair_run alice_id 7 1 session_ops (pair_start receiver sender) = Ok p /\ refused p = false /\
  exists seen pending, asked p = seen ++ pending /\ up p = control_msg 7 <$> pending /\
    ft_events (tx p) = reverse (control_event alice_id <$> seen) ++ ft_events sender /\
    (up p = [] -> it_state (item_at (tx p) 0) = it_state (item_at (rx p) 0)).
Proof.
  apply (ends_agree alice_id 7 1 0 0 receiver sender session_ops receiver_carries sender_carries).
  - vm_compute. reflexivity.
  - exact told_all.
  - exact session_pulls.
Defined.

Lemma file_data_in_order_witness :
  exists p, pair_run alice_id 7 1 session_ops (pair_start receiver sender) = Ok p /\
  exists shown waiting, given p = shown ++ waiting /\ down p = LinkData 1 <$> waiting /\
    ft_events (rx p) = reverse (data_event alice_id <$> shown) ++ ft_events receiver.
Proof.
  apply (file_data_in_order alice_id 7 1 0 0 receiver sender session_ops receiver_carries sender_carries).
  - vm_compute. reflexivity.
  - exact told_all.
  - exact session_pulls.
  - reflexivity.
  - exact session_steady.
Defined.

(** What both applications were shown. *)
Example file_runs :
  exists p, pair_run alice_id 7 1 session_ops (pair_start receiver sender) = Ok p /\
    ft_events (rx p) = [FtData alice_id (Some (bytes "cde")) 3; FtData alice_id (Some (bytes "ab")) 2]
                       ++ ft_events receiver /\
    ft_events (tx p) = FtPull alice_id 0 :: ft_events sender.
Proof. eexists. split; [vm_compute; reflexivity|]. by vm_compute. Qed.

(** Data under way when the receiver pauses is lost to it: the end that resumes gets
    only what is sent then. *)
Lemma pause_loses_data :
  exists p, pair_run alice_id 7 1
      [PairAsk (CPull 0); PairUp; PairSend (bytes "ab"); PairAsk CPend; PairDown; PairUp; PairAsk CResume; PairUp;
       PairSend (bytes "cde"); PairDown] (pair_start receiver sender) = Ok p /\
    given p = [bytes "ab"; bytes "cde"] /\ up p = [] /\ down p = [] /\
    ft_events (rx p) = FtData alice_id (Some (bytes "cde")) 3 :: ft_events receiver.
Proof. eexists. split; [vm_compute; reflexivity|]. by vm_compute. Qed.

(** ** Offers and cancellations *)

Definition offering : sample_ft :=
  match ela_filetransfer_add sender (Some picture) "" with Ok (_, ft) => ft | Fault _ => dead end.

Lemma file_offered_witness :
  exists ch cookie, ln_sent (ft_sess offering) = ln_sent (ft_sess sender) ++ [LinkOpen ch cookie] /\
  exists rcv', stream_channel_open 1 9 (Some cookie) receiver = Ok (true, rcv') /\
    carries RECEIVER bob_id 9 1 rcv' /\
    ft_events (stream_channel_opened 9 rcv') = FtFile bob_id (Some "picture.png"%string) 1000 :: ft_events receiver.
Proof.
  destruct (file_offered picture "" sender offering) as (ch & ck & Hsent & _ & Hrcv).
  - vm_compute. reflexivity.
  - split; [vm_compute; reflexivity|]. split; vm_compute; [reflexivity|]. split; [discriminate|reflexivity].
  - exists ch, ck. split; [exact Hsent|].
    destruct (Hrcv receiver 9 1%nat) as (rcv' & Eo & Hc & _ & _ & Hev).
    + repeat split; vm_compute; reflexivity.
    + reflexivity.
    + reflexivity.
    + vm_compute. reflexivity.
    + vm_compute. reflexivity.
    + vm_compute. reflexivity.
    + exists rcv'. split; [exact Eo|]. split; [exact Hc|exact Hev].
Defined.

Definition cancelled : sample_ft :=
  match ela_filetransfer_cancel receiver (Some alice_id) (-2) (Some "full"%string) with
  | Ok (_, ft) => ft | Fault _ => dead
  end.

Lemma cancel_arrives_witness :
  exists data, ln_sent (ft_sess cancelled) = ln_sent (ft_sess receiver) ++ [LinkData 7 data] /\
  exists snd' : sample_ft, stream_channel_data 1 1 data sender = Ok (false, snd') /\
    ft_events snd' = FtCancel alice_id (-2) "full" :: ft_events sender.
Proof.
  destruct (cancel_arrives alice_id (-2) "full" 7 0 receiver cancelled receiver_carries) as (data & Hsent & Hsnd).
  - split; [discriminate|reflexivity].
  - apply (bool_decide_unpack _). vm_compute. exact I.
  - vm_compute. reflexivity.
  - exists data. split; [exact Hsent|].
    destruct (Hsnd 1 0%nat sender sender_carries) as (snd' & E & Hev & _); [reflexivity|].
    exists snd'. split; [exact E|exact Hev].
Defined.

(** ** Safety *)

Definition created : sample_ft := or_dead (made (Some notes)).

Lemma created_reaches : transfer_reach created sender.
Proof.
  assert (forall ops ft ft', Forall step_typed ops -> transfer_reach created ft -> steps ops ft = Ok ft' ->
    transfer_reach created ft') as Hreach.
  { induction ops as [|op ops IH]; intros ft ft' Ht Hr E; [by injection E as <-|].
    apply Forall_cons in Ht as [Hop Ht]. cbn [steps] in E. apply Res_bind_Ok in E as (ft1 & E1 & E).
    eapply IH; [done| |done]. by eapply reach_step. }
  eapply (Hreach sender_steps created); [by repeat constructor|constructor|]. vm_compute. reflexivity.
Qed.

Lemma transfers_safe_witness :
  ft_wf sender /\ forall op, step_typed op -> ends ft_wf (step_faults op) (transfer_step op sender).
Proof.
  apply (transfers_safe true (Some bob_id) (Some notes) (Some all_told_cbs) alice_id (inr no_link) created sender).
  - intros fi [= <-]. split; [discriminate|]. split; [discriminate|]. split; [discriminate|reflexivity].
  - discriminate.
  - vm_compute. reflexivity.
  - exact created_reaches.
Defined.

(** A sender that waits for the answer, and the answer that refuses it. *)
Definition waiting_sender : sample_ft :=
  or_dead (ft ← made (Some notes); steps (take 3 sender_steps) ft).

Lemma transfer_faults_witness :
  sessionreq_complete_callback (Some "filetransfer"%string) 1 [] waiting_sender = Fault AssertFailed /\
  stream_channel_data 1 1 (take 8 (packet_pull 0)) sender = Fault BufferOverflow.
Proof.
  destruct (transfer_faults (sess:=link)) as (Hrefused & _ & _ & _ & Hshort). split.
  - apply (Hrefused "filetransfer"%string 1 [] waiting_sender ElaStreamState_closed [] no_link);
      vm_compute; reflexivity || discriminate.
  - apply (Hshort alice_id 1 0%nat (take 8 (packet_pull 0)) sender sender_carries); vm_compute; [reflexivity| |reflexivity].
    split; repeat constructor.
Defined.
