(* ===== verification/EasyFile.v ===== *)
(** * Transfers of one file (src/src/filetransfer/easyfile.c)

    [ela_file_send] and [ela_file_recv]: one file over a transfer of [FileTransfer], whose
    callbacks these are.  The disk is a map from paths to contents; what the operating
    system makes of a path and of the calls on a stream is the interface [Os].  A stream
    writes through, and the thread that sends runs without interruption.

    The object has one reference, which the callback of the last state drops; any use of it
    afterwards, and any of the transfer after it was closed, is a fault.  A handler of the
    transfer makes the callbacks that call back into it as its last act, so they are run on
    the state that it leaves. *)

From Stdlib Require Import Ascii.
From S2P Require Import Prelude ElaError Carrier FlexBuffer Multiplex CText FileTransfer.

Definition TMP_EXTENSION : string := ".ft~part".
Definition PATH_MAX : Z := 4096.
Definition ENOENT : Z := 2.
Definition EINVAL : Z := 22.
Definition ERANGE : Z := 34.

Abbreviation disk := (gmap string (list byte)).

(** [realpath], which gives 0 or its error with the path it got to; the errors of [stat]
    other than that there is no file, of [fopen], [fseek] and [rename], and whether a thread
    could be made, where 0 and [true] are success; how many bytes [fwrite] gets onto the
    disk; [strerror]. *)
Class Os := {
  realpath : disk -> string -> Z * string;
  stat_error : string -> Z;
  fopen_error : string -> Z;
  fseek_error : Z -> Z;
  rename_error : string -> string -> Z;
  thread_made : bool;
  fwrite_takes : list byte -> list byte -> nat;
  strerror : Z -> string
}.

(** [ElaFileProgressCallbacks], and what they were told. *)
Record ElaFileProgressCallbacks := { pc_state_changed : bool; pc_sent : bool; pc_received : bool }.
Inductive progress :=
| PgState (state : Z)
| PgSent (length totalsz : Z)
| PgReceived (length totalsz : Z).

(** The [data] callback always answers that it wants more. *)
#[export] Instance easy_app : FtApp := { more_data _ _ := true }.

Record EasyFile `{!HashTables} {sess : Type} := {
  ef_ft : ElaFileTransfer sess;
  ef_ft_freed : bool;
  ef_callbacks : ElaFileProgressCallbacks;
  ef_fp : option (string * Z);            (* the path and the position *)
  ef_fileid : string;
  ef_filename : string;
  ef_filesz : Z;
  ef_offset : Z;
  ef_sys_errno : Z;
  ef_carrier_errno : Z;
  ef_freed : bool;
  ef_threads : nat;                       (* made and not run yet *)
  ef_progress : list progress;            (* newest first *)
  ef_disk : disk;
  ef_ext : FileTransferExt                (* the extension of the node *)
}.
Arguments EasyFile {_} sess.

Section EasyFile.
Context `{!HashTables, !Base58, !Stack, !Os} {sess : Type} `{!SessionLayer sess}.
Implicit Types f : EasyFile sess.

(** ** Callbacks of the transfer *)

(** [context] as the object it points to. *)
Definition easy_file f : Res unit := if ef_freed f then Fault UseAfterFree else Ok tt.

Definition report_progress (set : ElaFileProgressCallbacks -> bool) (p : progress) f : Res (EasyFile sess) :=
  _ ← easy_file f;
  Ok (if set (ef_callbacks f) then { f with ef_progress ::= cons p } else f).

(** The last reference goes; [easyfile_destroy] closes the stream. *)
Definition easyfile_deref f : EasyFile sess := { f with ef_freed := true; ef_fp := None }.

(** A call of the transfer. *)
Definition call_ft (op : ElaFileTransfer sess -> Res (Z * ElaFileTransfer sess)) f : Res (Z * EasyFile sess) :=
  _ ← easy_file f;
  if ef_ft_freed f then Fault UseAfterFree
  else '(rc, ft) ← op (ef_ft f); Ok (rc, { f with ef_ft := ft }).

Definition notify_state_changed_cb (state : Z) f : Res (EasyFile sess) :=
  _ ← easy_file f;
  _ ← c_assert (negb ((state <=? FileTransferConnection_initialized) || (FileTransferConnection_closed <? state)));
  f ← report_progress pc_state_changed (PgState state) f;
  Ok (if FileTransferConnection_closed <=? state then easyfile_deref f else f).

Section Callbacks.
(** [ela_filetransfer_close] with the callbacks it makes. *)
Context (close : EasyFile sess -> Res (EasyFile sess)).

Definition notify_file_cb (fileid : string) (filename : option string) (size : Z) f : Res (EasyFile sess) :=
  _ ← easy_file f;
  id ← strcpy (ELA_MAX_FILE_ID_LEN + 1) fileid;
  let f := { f with ef_fileid := id; ef_filesz := size } in
  if ef_filesz f <=? ef_offset f then
    let f := { f with ef_sys_errno := EINVAL } in
    '(_, f) ← call_ft (fun ft => ela_filetransfer_cancel ft (Some fileid) EINVAL (Some (strerror EINVAL))) f;
    Ok f
  else
    '(rc, f) ← call_ft (fun ft => ela_filetransfer_pull ft (Some fileid) (ef_offset f)) f;
    if rc <? 0 then close { f with ef_carrier_errno := ft_errno (ef_ft f) } else Ok f.

Definition notify_pull_cb (fileid : string) (offset : Z) f : Res (EasyFile sess) :=
  _ ← easy_file f;
  _ ← c_assert (bool_decide (is_Some (ef_fp f)));
  if ef_filesz f <=? offset then close { f with ef_sys_errno := ERANGE }
  else
    id ← strcpy (ELA_MAX_FILE_ID_LEN + 1) fileid;
    let f := { f with ef_fileid := id; ef_offset := offset } in
    Ok (if thread_made then { f with ef_threads ::= S } else f).

(** [fwrite(data, length, 1, file->fp)]; its result, 0 or 1, is never negative, so a full
    disk goes unnoticed. *)
Definition easy_write (data : list byte) f : Res (EasyFile sess) :=
  '(path, pos) ← deref (ef_fp f);
  let content := default [] (ef_disk f !! path) in
  Ok { f with ef_disk ::= <[path := content ++ take (fwrite_takes content data) data]> }.

(** The file is whole and gets its name; whether [rename] did it is not asked. *)
Definition easy_complete f : Res (EasyFile sess) :=
  let f := { f with ef_fp := None } in
  tmp ← strcpy PATH_MAX (ef_filename f +:+ TMP_EXTENSION);
  let f := match ef_disk f !! tmp with
           | Some c =>
               if rename_error tmp (ef_filename f) =? 0
               then { f with ef_disk ::= fun d => <[ef_filename f := c]> (delete tmp d) } else f
           | None => f
           end in
  close f.

Definition easy_store (data : option (list byte)) (length : Z) f : Res (EasyFile sess) :=
  _ ← easy_file f;
  f ← easy_write (default [] data) f;
  Ok { f with ef_offset := u64 (ef_offset f + length) }.

Definition notify_data_cb (fileid : string) (data : option (list byte)) (length : Z) f : Res (EasyFile sess) :=
  f ← easy_store data length f;
  if ef_filesz f <? ef_offset f then
    let f := { f with ef_sys_errno := ERANGE } in
    '(_, f) ← call_ft (fun ft => ela_filetransfer_cancel ft (Some fileid) ERANGE (Some (strerror ERANGE))) f;
    Ok f
  else
    f ← (if ef_offset f =? ef_filesz f then easy_complete f else Ok f);
    report_progress pc_received (PgReceived (ef_offset f) (ef_filesz f)) f.

Definition notify_cancel_cb f : Res (EasyFile sess) := close f.

(** The callback that an event of the transfer makes. *)
Definition easy_callback (e : ft_event) f : Res (EasyFile sess) :=
  match e with
  | FtStateChanged state => notify_state_changed_cb state f
  | FtFile fileid filename size => notify_file_cb fileid filename size f
  | FtPull fileid offset => notify_pull_cb fileid offset f
  | FtData fileid data len => notify_data_cb fileid data len f
  | FtCancel _ _ _ => notify_cancel_cb f
  | FtPending _ | FtResume _ => Ok f      (* not set *)
  end.
End Callbacks.

Definition easy_callbacks (close : EasyFile sess -> Res (EasyFile sess)) : list ft_event -> EasyFile sess -> Res (EasyFile sess) :=
  fix go es f := match es with [] => Ok f | e :: es => f ← easy_callback close e f; go es f end.

(** What was added to the events of a transfer, oldest first. *)
Definition recent_events (old new : ElaFileTransfer sess) : list ft_event :=
  reverse (take (length (ft_events new) - length (ft_events old)) (ft_events new)).

(** [ela_filetransfer_close] and the callbacks made meanwhile, which may close again, to a
    depth. *)
Fixpoint easy_close (depth : nat) f : Res (EasyFile sess) :=
  match depth with
  | O => Fault Diverges
  | S depth =>
      _ ← easy_file f;
      if ef_ft_freed f then Fault UseAfterFree
      else
        '(ext, ft) ← ela_filetransfer_close (ef_ext f) (ef_ft f);
        f ← easy_callbacks (easy_close depth) (recent_events (ef_ft f) ft) { f with ef_ext := ext; ef_ft := ft };
        Ok { f with ef_ft_freed := true }
  end.
Definition close_ft : EasyFile sess -> Res (EasyFile sess) := easy_close 3.

(** What the session layer reports to the transfer, with the callbacks it makes. *)
Definition easy_step (stream : Z) (e : stream_event) f : Res (EasyFile sess) :=
  if ef_ft_freed f then Fault UseAfterFree
  else
    '(_, ft) ← stream_step stream e (ef_ft f);
    easy_callbacks close_ft (recent_events (ef_ft f) ft) { f with ef_ft := ft }.

(** ** The thread that sends *)

(** [fread(buf, send_len, 1, file->fp)]: what is there goes into the buffer; like that of
    [fwrite] the result is never negative. *)
Definition easy_read (buf : list byte) (send_len : Z) f : Res (list byte * EasyFile sess) :=
  '(path, pos) ← deref (ef_fp f);
  let avail := take (Z.to_nat send_len) (drop (Z.to_nat pos) (default [] (ef_disk f !! path))) in
  Ok (splice 0 avail buf, { f with ef_fp := Some (path, pos + Z.of_nat (length avail)) }).

Fixpoint sending_loop (fuel : nat) (buf : list byte) (offset : Z) f : Res (EasyFile sess) :=
  match fuel with
  | O => Fault Diverges
  | S fuel =>
      _ ← easy_file f;
      let send_len := u64 (ef_filesz f - offset) in
      let send_len := if send_len >? ELA_MAX_USER_DATA_LEN then ELA_MAX_USER_DATA_LEN else send_len in
      '(buf, f) ← easy_read buf send_len f;
      '(rc, f) ← call_ft (fun ft => ela_filetransfer_send ft (Some (ef_fileid f))
                                      (Some (take (Z.to_nat send_len) buf)) send_len) f;
      if rc <? 0 then close_ft { f with ef_carrier_errno := ft_errno (ef_ft f) }
      else
        let offset := u64 (offset + send_len) in
        f ← report_progress pc_sent (PgSent offset (ef_filesz f)) f;
        if offset <? ef_filesz f then sending_loop fuel buf offset f else Ok f
  end.

Definition sending_file_routine f : Res (EasyFile sess) :=
  _ ← easy_file f;
  let buf := stack_bytes ELA_MAX_USER_DATA_LEN in
  let offset := ef_offset f in
  let error := fseek_error offset in
  if negb (error =? 0) then close_ft { f with ef_sys_errno := error }
  else
    '(path, _) ← deref (ef_fp f);
    sending_loop (Z.to_nat (ef_filesz f / ELA_MAX_USER_DATA_LEN + 1)) buf offset { f with ef_fp := Some (path, offset) }.

(** A thread that was made runs. *)
Definition easy_thread f : Res (EasyFile sess) :=
  match ef_threads f with
  | O => Ok f
  | S n => sending_file_routine { f with ef_threads := n }
  end.

(** ** The two calls *)

(** [stat]: its error, or the size. *)
Definition file_size (d : disk) (path : string) : Z + Z :=
  if negb (stat_error path =? 0) then inl (stat_error path)
  else match d !! path with None => inl ENOENT | Some content => inr (Z.of_nat (length content)) end.

(** [ft] is closed and the object dropped when the connection cannot be made. *)
Definition easy_give_up f : Res Z :=
  let error := ft_errno (ef_ft f) in
  f ← close_ft f;
  _ ← easy_file f;
  Ok error.

(** The error that is set, or the object; [ext], [new_id] and [session] are those of
    [ela_filetransfer_new]. *)
Definition ela_file_send (address filename : option string) (callbacks : option ElaFileProgressCallbacks)
    (ext : option FileTransferExt) (new_id : string) (session : Z + sess) (d : disk) : Res (Z + EasyFile sess) :=
  match callbacks with
  | None => Ok (inl (ELA_GENERAL_ERROR ELAERR_INVALID_ARGS))
  | Some callbacks =>
      if null_or_empty address || null_or_empty filename then Ok (inl (ELA_GENERAL_ERROR ELAERR_INVALID_ARGS))
      else
        let '(errno, path) := realpath d (or_empty filename) in
        if negb (errno =? 0) then Ok (inl (ELA_SYS_ERROR errno))
        else
          let p := basename path in
          if strlen p >? ELA_MAX_FILE_NAME_LEN then Ok (inl (ELA_GENERAL_ERROR ELAERR_INVALID_ARGS))
          else
            match file_size d path with
            | inl error => Ok (inl (ELA_SYS_ERROR error))
            | inr size =>
                if negb (fopen_error path =? 0) then Ok (inl (ELA_SYS_ERROR (fopen_error path)))
                else
                  name ← strcpy (ELA_MAX_FILE_NAME_LEN + 1) p;
                  let fi := {| fi_filename := name; fi_fileid := ""; fi_size := size; fi_userdata := 0 |} in
                  let cbs := {| fc_state_changed := true; fc_file := false; fc_pull := true; fc_data := false;
                                fc_pending := false; fc_resume := false; fc_cancel := true |} in
                  ft ← ela_filetransfer_new (bool_decide (is_Some ext)) address (Some fi) (Some cbs) new_id session;
                  match ft with
                  | inl error => Ok (inl error)
                  | inr ft =>
                      ext ← deref ext;
                      '(rc, ft) ← ela_filetransfer_connect ft;
                      let f := {| ef_ft := ft; ef_ft_freed := false; ef_callbacks := callbacks; ef_fp := Some (path, 0);
                                  ef_fileid := ""; ef_filename := ""; ef_filesz := size; ef_offset := 0;
                                  ef_sys_errno := 0; ef_carrier_errno := 0; ef_freed := false; ef_threads := 0;
                                  ef_progress := []; ef_disk := d; ef_ext := ext |} in
                      if rc <? 0 then error ← easy_give_up f; Ok (inl error) else Ok (inr f)
                  end
            end
  end.

(** [strncpy(file->filename, path, strrchr(path, '.') - path)] *)
Fixpoint after_dot (l : list ascii) : list ascii :=
  match l with c :: r => if bool_decide (c = "."%char) then r else after_dot r | [] => [] end.
Definition up_to_last_dot (path : string) : string :=
  String.string_of_list_ascii (reverse (after_dot (reverse (String.list_ascii_of_string path)))).

Definition ela_file_recv (address filename : option string) (callbacks : option ElaFileProgressCallbacks)
    (ext : option FileTransferExt) (new_id : string) (session : Z + sess) (d : disk) : Res (Z + EasyFile sess) :=
  match callbacks with
  | None => Ok (inl (ELA_GENERAL_ERROR ELAERR_INVALID_ARGS))
  | Some callbacks =>
      if null_or_empty address || null_or_empty filename then Ok (inl (ELA_GENERAL_ERROR ELAERR_INVALID_ARGS))
      else
        let '(errno, path) := realpath d (or_empty filename) in
        if errno =? 0 then Ok (inl (ELA_GENERAL_ERROR ELAERR_ALREADY_EXIST))
        else if negb (errno =? ENOENT) then Ok (inl (ELA_SYS_ERROR errno))
        else if PATH_MAX <=? strlen path + strlen TMP_EXTENSION then Ok (inl (ELA_GENERAL_ERROR ELAERR_INVALID_ARGS))
        else
          path ← strcpy PATH_MAX (path +:+ TMP_EXTENSION);
          let stat := file_size d path in
          let unseen := match stat with inl error => negb (error =? ENOENT) | inr _ => false end in
          if unseen then Ok (inl (ELA_SYS_ERROR (match stat with inl error => error | inr _ => 0 end)))
          else
          let offset := match stat with inl _ => 0 | inr size => size end in
          if negb (fopen_error path =? 0) then Ok (inl (ELA_SYS_ERROR (fopen_error path)))
          else
            let d := <[path := default [] (d !! path)]> d in
            let cbs := {| fc_state_changed := true; fc_file := true; fc_pull := false; fc_data := true;
                          fc_pending := false; fc_resume := false; fc_cancel := false |} in
            ft ← ela_filetransfer_new (bool_decide (is_Some ext)) address None (Some cbs) new_id session;
            match ft with
            | inl error => Ok (inl error)
            | inr ft =>
                ext ← deref ext;
                '(rc, ext, ft) ← ela_filetransfer_accept_connect ext ft;
                let f := {| ef_ft := ft; ef_ft_freed := false; ef_callbacks := callbacks; ef_fp := Some (path, 0);
                            ef_fileid := ""; ef_filename := up_to_last_dot path; ef_filesz := 0; ef_offset := offset;
                            ef_sys_errno := 0; ef_carrier_errno := 0; ef_freed := false; ef_threads := 0;
                            ef_progress := []; ef_disk := d; ef_ext := ext |} in
                if rc <? 0 then error ← easy_give_up f; Ok (inl error) else Ok (inr f)
            end
  end.
End EasyFile.
