(* ===== verification/EasyFileProps.v ===== *)
(** * Properties of transfers of one file

    A transfer that goes on where an earlier one stopped leaves the receiver with the file
    of the sender, under its name, when nothing fails on the way; the close that completes
    it frees the object, which the handler of the last piece goes on to read. *)

From Stdlib Require Import Ascii.
From S2P Require Import Prelude ElaError Carrier FlexBuffer Multiplex CText FileTransfer FileTransferProps FileTransferPair EasyFile.

(** ** What is relied on *)

(** Nothing goes wrong in the operating system. *)
Class OsWorks `{!Os} := {
  fwrite_all old new : fwrite_takes old new = length new;
  rename_done from to : rename_error from to = 0;
  thread_started : thread_made = true;
  fseek_done offset : fseek_error offset = 0;
  stat_seen path : stat_error path = 0
}.

(** A stream that is removed reports that its channels close, then that it is closed. *)
Class LayerCloses (sess : Type) `{!SessionLayer sess} := {
  removal_reports s stream : exists chs,
    (session_remove_stream s stream).1 = (SeChannelClose <$> chs) ++ [SeStateChanged ElaStreamState_closed]
}.

(** A write to a channel is accepted. *)
Class LayerTakes (sess : Type) `{!SessionLayer sess} := {
  write_taken s stream ch data : 0 <= fst (stream_write_channel s stream ch data)
}.

(** What is told of the pieces of a file from [off] on, oldest first. *)
Fixpoint reports (mk : Z -> progress) (off : Z) (chunks : list (list byte)) : list progress :=
  match chunks with
  | [] => []
  | d :: chunks => let off := off + Z.of_nat (length d) in mk off :: reports mk off chunks
  end.

Definition told_progress (b : bool) (l : list progress) : list progress := if b then reverse l else [].

Lemma told_progress_cons b e l : told_progress b (e :: l) = told_progress b l ++ (if b then [e] else []).
Proof. unfold told_progress. destruct b; [|done]. by rewrite reverse_cons. Qed.

Section Props.
Context `{!HashTables, !Base58, !Stack, !Os} {sess : Type} `{!SessionLayer sess, !SessionLaws sess}.
Context {OW : OsWorks} {LT : LayerTakes sess} {LC : LayerCloses sess}.
Implicit Types f : EasyFile sess.
Implicit Types ft : ElaFileTransfer sess.

(** The reports of the session layer, one after the other. *)
Fixpoint easy_steps (stream : Z) (es : list stream_event) f : Res (EasyFile sess) :=
  match es with
  | [] => Ok f
  | e :: es => f ← easy_step stream e f; easy_steps stream es f
  end.

Lemma recent_events_spec es ft ft' : ft_events ft' = es ++ ft_events ft -> recent_events ft ft' = reverse es.
Proof.
  intros E. unfold recent_events. rewrite E, length_app, Nat.add_sub. by rewrite take_app_length.
Qed.

Lemma report_progress_alive set p f : ef_freed f = false ->
  report_progress set p f = Ok (if set (ef_callbacks f) then { f with ef_progress ::= cons p } else f).
Proof. intros Ha. unfold report_progress, easy_file. by rewrite Ha. Qed.

(** ** Calls that go through *)

Lemma write_spec s stream ch data :
  exists rc s', stream_write_channel s stream ch data = (rc, s') /\ 0 <= rc /\
    link_sent s' = link_sent s ++ [LinkData ch data].
Proof.
  destruct (stream_write_channel s stream ch data) as [rc s'] eqn:E. exists rc, s'.
  pose proof (write_taken s stream ch data) as Hrc. rewrite E in Hrc. cbn in Hrc.
  destruct (write_channel_spec _ _ _ _ _ _ E) as [[_ ?]|[? _]]; [done|lia].
Qed.

Lemma pull_taken fileid ch i offset ft : carries RECEIVER fileid ch i ft ->
  it_state (item_at ft i) = FileTransferState_standby -> offset < it_filesz (item_at ft i) ->
  exists s, ela_filetransfer_pull ft (Some fileid) offset =
      Ok (0, set_state i FileTransferState_transfering { ft with ft_sess := s }) /\
    link_sent s = link_sent (ft_sess ft) ++ [LinkData ch (packet_pull offset)].
Proof.
  intros Hc Hst Hlt. pose proof (carries_item _ _ _ _ _ Hc) as [_ Hch].
  destruct (write_spec (ft_sess ft) (ft_stream ft) ch (packet_pull offset)) as (rc & s & E & Hrc & Hs).
  exists s. split; [|done]. unfold ela_filetransfer_pull. rewrite (with_item_carries RECEIVER fileid ch i) by done.
  rewrite (proj2 (Z.leb_gt _ _)) by done. rewrite (in_state_carries RECEIVER fileid ch i) by done.
  unfold is_state. rewrite bool_decide_eq_true_2 by done. rewrite Hch, E. unfold went_down.
  by rewrite (proj2 (Z.ltb_ge _ _)) by done.
Qed.

Lemma send_taken fileid ch i data ft : carries SENDER fileid ch i ft ->
  it_state (item_at ft i) = FileTransferState_transfering -> (0 < length data)%nat ->
  Z.of_nat (length data) <= it_filesz (item_at ft i) ->
  exists rc s, ela_filetransfer_send ft (Some fileid) (Some data) (Z.of_nat (length data)) =
      Ok (rc, { ft with ft_sess := s }) /\ 0 <= rc /\
    link_sent s = link_sent (ft_sess ft) ++ [LinkData ch data].
Proof.
  intros Hc Hst Hpos Hle. pose proof (carries_item _ _ _ _ _ Hc) as [_ Hch].
  destruct (write_spec (ft_sess ft) (ft_stream ft) ch data) as (rc & s & E & Hrc & Hs).
  exists rc, s. split; [|done]. unfold ela_filetransfer_send.
  assert (null_or_empty (Some fileid) = false) as ->.
  { destruct Hc as (_ & _ & _ & _ & Hne & _). by destruct fileid. }
  rewrite (proj2 (Z.eqb_neq _ _)) by lia. cbn [negb andb orb].
  rewrite (with_item_carries SENDER fileid ch i) by done. rewrite (proj2 (Z.ltb_ge _ _)) by done.
  rewrite (in_state_carries SENDER fileid ch i) by done. unfold is_state.
  rewrite bool_decide_eq_true_2 by done. rewrite Hch. change (default [] (Some data)) with data. rewrite E. unfold went_down.
  by rewrite (proj2 (Z.ltb_ge _ _)) by done.
Qed.

(** ** The sending end *)

(** An object that sends [c], which is at [path]. *)
Record sending (fileid : string) (ch : Z) (i : nat) (path : string) (c : list byte) f : Prop := {
  sd_alive : ef_freed f = false;
  sd_open : ef_ft_freed f = false;
  sd_carries : carries SENDER fileid ch i (ef_ft f);
  sd_told : fc_pull (ft_callbacks (ef_ft f)) = true;
  sd_item : it_filesz (item_at (ef_ft f) i) = Z.of_nat (length c);
  sd_fp : exists pos, ef_fp f = Some (path, pos);
  sd_size : ef_filesz f = Z.of_nat (length c);
  sd_disk : ef_disk f !! path = Some c
}.

(** One piece is read and sent. *)
Lemma read_piece path pos c buf n f : ef_fp f = Some (path, Z.of_nat pos) -> ef_disk f !! path = Some c ->
  (pos + n <= length c)%nat -> (n <= length buf)%nat ->
  exists buf', easy_read buf (Z.of_nat n) f =
      Ok (buf', { f with ef_fp := Some (path, Z.of_nat (pos + n)) }) /\
    take n buf' = take n (drop pos c) /\ length buf' = length buf.
Proof.
  intros Hfp Hc Hn Hbuf. unfold easy_read. rewrite Hfp. cbn [deref mbind Res_bind]. rewrite Hc.
  change (default [] (Some c)) with c. rewrite !Nat2Z.id. set (d := take n (drop pos c)).
  assert (length d = n) as Hd by (unfold d; rewrite length_take, length_drop; lia).
  exists (splice 0 d buf). rewrite Hd, <- Nat2Z.inj_add. split; [done|]. split.
  - unfold splice. rewrite take_0. cbn [app]. by rewrite take_app_length' by done.
  - apply length_splice. lia.
Qed.

(** How far the thread is: a piece from [pos] on is next. *)
Record sending_from (fileid : string) (ch : Z) (i : nat) (path : string) (c : list byte) (pos : nat) f : Prop := {
  sf_sending : sending fileid ch i path c f;
  sf_fileid : ef_fileid f = fileid;
  sf_state : it_state (item_at (ef_ft f) i) = FileTransferState_transfering;
  sf_fp : ef_fp f = Some (path, Z.of_nat pos);
  sf_size : is_u64 (Z.of_nat (length c))
}.

Lemma send_len_spec (c : list byte) (pos : nat) : (pos < length c)%nat -> is_u64 (Z.of_nat (length c)) ->
  exists n, (0 < n <= length c - pos)%nat /\ Z.of_nat n <= ELA_MAX_USER_DATA_LEN /\
    (let send_len := u64 (Z.of_nat (length c) - Z.of_nat pos) in
     if send_len >? ELA_MAX_USER_DATA_LEN then ELA_MAX_USER_DATA_LEN else send_len) = Z.of_nat n /\
    (n = (length c - pos)%nat \/ Z.of_nat n = ELA_MAX_USER_DATA_LEN).
Proof.
  intros Hpos Hu. exists (Nat.min (length c - pos) (Z.to_nat ELA_MAX_USER_DATA_LEN)).
  cbv zeta. rewrite u64_small by (unfold is_u64 in Hu; lia). unfold ELA_MAX_USER_DATA_LEN.
  destruct (Z.gtb_spec (Z.of_nat (length c) - Z.of_nat pos) 2048); lia.
Qed.

(** One round sends the next piece. *)
Lemma sending_round fileid ch i path c fuel buf pos f : sending_from fileid ch i path c pos f ->
  length buf = Z.to_nat ELA_MAX_USER_DATA_LEN -> (pos < length c)%nat ->
  exists n buf' f1, let d := take n (drop pos c) in
    (0 < n <= length c - pos)%nat /\ Z.of_nat n <= ELA_MAX_USER_DATA_LEN /\
    (n = (length c - pos)%nat \/ Z.of_nat n = ELA_MAX_USER_DATA_LEN) /\
    sending_loop (S fuel) buf (Z.of_nat pos) f =
      (if Z.of_nat (pos + n) <? Z.of_nat (length c) then sending_loop fuel buf' (Z.of_nat (pos + n)) f1 else Ok f1) /\
    sending_from fileid ch i path c (pos + n) f1 /\ length buf' = length buf /\
    link_sent (ft_sess (ef_ft f1)) = link_sent (ft_sess (ef_ft f)) ++ [LinkData ch d] /\
    ef_progress f1 = (if pc_sent (ef_callbacks f) then [PgSent (Z.of_nat (pos + n)) (Z.of_nat (length c))] else [])
                       ++ ef_progress f /\
    ef_callbacks f1 = ef_callbacks f /\ ef_disk f1 = ef_disk f.
Proof.
  intros [Hf Hid Hst Hfp Hu] Hbuf Hpos. destruct (Hf) as [Halive Hopen Hcar Htold Hitem _ Hsize Hdisk].
  destruct (send_len_spec c pos Hpos Hu) as (n & Hn & Hmax & Hlen & Hor).
  destruct (read_piece path pos c buf n f) as (buf' & Er & Hd & Hbuf'); [done|done|lia|lia|].
  set (d := take n (drop pos c)) in *.
  assert (length d = n) as Hdn by (unfold d; rewrite length_take, length_drop; lia).
  destruct (send_taken fileid ch i d (ef_ft f) Hcar Hst) as (rc & s & Es & Hrc & Hs); [lia|lia|].
  set (ft1 := { ef_ft f with ft_sess := s }) in *.
  set (f0 := { f with ef_fp := Some (path, Z.of_nat (pos + n)); ef_ft := ft1 }).
  exists n, buf', (if pc_sent (ef_callbacks f)
                   then { f0 with ef_progress ::= cons (PgSent (Z.of_nat (pos + n)) (Z.of_nat (length c))) } else f0).
  cbv zeta. fold d. split_and!; [lia|lia|done|done| |..].
  - cbn [sending_loop]. rewrite Hsize. cbv zeta in Hlen |- *. rewrite Hlen. unfold easy_file at 1. rewrite Halive.
    cbn [mbind Res_bind]. rewrite Er. cbn [mbind Res_bind]. unfold call_ft, easy_file at 1.
    change (ef_freed { f with ef_fp := _ }) with (ef_freed f). rewrite Halive. cbn [mbind Res_bind].
    change (ef_ft_freed { f with ef_fp := _ }) with (ef_ft_freed f). rewrite Hopen.
    change (ef_ft { f with ef_fp := _ }) with (ef_ft f).
    change (ef_fileid { f with ef_fp := _ }) with (ef_fileid f).
    rewrite Hid, Nat2Z.id, Hd. rewrite Hdn in Es. rewrite Es. fold f0. cbn [mbind Res_bind].
    rewrite (proj2 (Z.ltb_ge rc 0)) by done.
    change (ef_filesz { f with ef_fp := _; ef_ft := _ }) with (ef_filesz f). rewrite Hsize.
    rewrite u64_small, <- Nat2Z.inj_add by (unfold is_u64 in Hu; lia).
    rewrite (report_progress_alive pc_sent _ f0 Halive). cbn [mbind Res_bind].
    change (ef_callbacks f0) with (ef_callbacks f).
    replace (ef_filesz (if pc_sent (ef_callbacks f) then _ else _)) with (ef_filesz f) by (by destruct (pc_sent _)).
    by rewrite Hsize.
  - assert (sending fileid ch i path c f0) as Hf0.
    { split; try done. by eexists. }
    destruct (pc_sent _); [|by split]. split; try done. by destruct Hf0; split.
  - done.
  - by destruct (pc_sent _).
  - by destruct (pc_sent _).
  - by destruct (pc_sent _).
  - by destruct (pc_sent _).
Qed.

Lemma sending_loop_spec fileid ch i path c fuel : forall buf pos f,
  sending_from fileid ch i path c pos f -> length buf = Z.to_nat ELA_MAX_USER_DATA_LEN -> (pos < length c)%nat ->
  Z.of_nat (length c - pos) <= Z.of_nat fuel * ELA_MAX_USER_DATA_LEN ->
  exists f' chunks, sending_loop fuel buf (Z.of_nat pos) f = Ok f' /\ concat chunks = drop pos c /\
    Forall (fun d => 0 < Z.of_nat (length d) <= ELA_MAX_USER_DATA_LEN) chunks /\
    link_sent (ft_sess (ef_ft f')) = link_sent (ft_sess (ef_ft f)) ++ (LinkData ch <$> chunks) /\
    ef_progress f' = told_progress (pc_sent (ef_callbacks f))
      (reports (fun n => PgSent n (Z.of_nat (length c))) (Z.of_nat pos) chunks) ++ ef_progress f /\
    ef_disk f' = ef_disk f /\ sending fileid ch i path c f'.
Proof.
  induction fuel as [|fuel IH]; intros buf pos f Hf Hbuf Hpos Hfuel; [lia|].
  destruct (sending_round fileid ch i path c fuel buf pos f Hf Hbuf Hpos)
    as (n & buf' & f1 & Hn & Hmax & Hor & -> & Hf1 & Hbuf' & Hs1 & Hp1 & Hc1 & Hd1).
  set (d := take n (drop pos c)) in *.
  assert (length d = n) as Hdn by (unfold d; rewrite length_take, length_drop; lia).
  assert (0 < Z.of_nat (length d) <= ELA_MAX_USER_DATA_LEN) as Hd by lia.
  destruct (Z.ltb_spec (Z.of_nat (pos + n)) (Z.of_nat (length c))) as [Hlt|Hge].
  - destruct (IH buf' (pos + n)%nat f1) as (f' & chunks & E & Hcat & Hall & Hs & Hp & Hdk & Hf'); [done|lia|lia|lia|].
    exists f', (d :: chunks). split_and!; try done.
    + cbn [concat]. rewrite Hcat. unfold d. by rewrite <- drop_drop, take_drop.
    + by constructor.
    + by rewrite Hs, Hs1, <- app_assoc.
    + rewrite Hp, Hp1, Hc1. cbn [reports]. rewrite told_progress_cons, Hdn, <- Nat2Z.inj_add, <- app_assoc.
      by destruct (pc_sent _).
    + by rewrite Hdk.
  - exists f1, [d]. split_and!; try done.
    + cbn [concat]. rewrite app_nil_r. unfold d. rewrite take_ge; [done|]. rewrite length_drop. lia.
    + by constructor.
    + cbn [reports]. rewrite told_progress_cons, Hdn, <- Nat2Z.inj_add. by destruct (pc_sent _).
    + by destruct Hf1.
Qed.

(** The handler of a report, and the one callback that it makes. *)
Lemma easy_step_one st e ev b ft f : ef_ft_freed f = false -> stream_step st e (ef_ft f) = Ok (b, ft) ->
  ft_events ft = ev :: ft_events (ef_ft f) ->
  easy_step st e f = easy_callback close_ft ev { f with ef_ft := ft }.
Proof.
  intros Hopen E Hev. unfold easy_step. rewrite Hopen, E. cbn [mbind Res_bind].
  rewrite (recent_events_spec [ev]) by done. cbn [reverse rev_append easy_callbacks].
  by destruct (easy_callback _ _ _).
Qed.

Lemma pull_starts close fileid off path pos f : ef_freed f = false -> ef_fp f = Some (path, pos) ->
  off < ef_filesz f -> strlen fileid <= ELA_MAX_FILE_ID_LEN ->
  notify_pull_cb close fileid off f = Ok { f with ef_fileid := fileid; ef_offset := off; ef_threads ::= S }.
Proof.
  intros Ha Hfp Hoff Hid. unfold notify_pull_cb, easy_file at 1. rewrite Ha, Hfp.
  rewrite bool_decide_eq_true_2 by done. cbn [c_assert mbind Res_bind].
  rewrite (proj2 (Z.leb_gt _ _)), strcpy_Ok by (unfold ELA_MAX_FILE_ID_LEN, ELA_MAX_ID_LEN in *; lia).
  cbn [mbind Res_bind]. by rewrite thread_started.
Qed.

Lemma thread_runs path pos n f : ef_freed f = false -> ef_fp f = Some (path, pos) -> ef_threads f = S n ->
  easy_thread f = sending_loop (Z.to_nat (ef_filesz f / ELA_MAX_USER_DATA_LEN + 1))
    (stack_bytes ELA_MAX_USER_DATA_LEN) (ef_offset f) { f with ef_threads := n; ef_fp := Some (path, ef_offset f) }.
Proof.
  intros Ha Hfp Hn. unfold easy_thread. rewrite Hn. unfold sending_file_routine, easy_file at 1.
  change (ef_freed { f with ef_threads := n }) with (ef_freed f). rewrite Ha. cbn [mbind Res_bind].
  rewrite fseek_done. change (ef_fp { f with ef_threads := n }) with (ef_fp f). by rewrite Hfp.
Qed.

(** A pull starts the thread, which sends what the receiver has not. *)
Lemma pulled_file_sent fileid ch i path c off f : sending fileid ch i path c f ->
  it_state (item_at (ef_ft f) i) = FileTransferState_standby -> strlen fileid <= ELA_MAX_FILE_ID_LEN ->
  is_u64 (Z.of_nat (length c)) -> (off < length c)%nat ->
  exists f' chunks,
    (f1 ← easy_step (ft_stream (ef_ft f)) (SeChannelData ch (packet_pull (Z.of_nat off))) f; easy_thread f1) = Ok f' /\
    concat chunks = drop off c /\
    Forall (fun d => 0 < Z.of_nat (length d) <= ELA_MAX_USER_DATA_LEN) chunks /\
    link_sent (ft_sess (ef_ft f')) = link_sent (ft_sess (ef_ft f)) ++ (LinkData ch <$> chunks) /\
    ef_progress f' = told_progress (pc_sent (ef_callbacks f))
      (reports (fun n => PgSent n (Z.of_nat (length c))) (Z.of_nat off) chunks) ++ ef_progress f /\
    ef_disk f' = ef_disk f /\ sending fileid ch i path c f'.
Proof.
  intros Hf Hst Hid Hu Hoff. destruct (Hf) as [Halive Hopen Hcar Htold Hitem [pos Hfp] Hsize Hdisk].
  assert (is_u64 (Z.of_nat off)) as Huo by (unfold is_u64 in *; lia).
  pose proof (handle_control_spec (CPull (Z.of_nat off)) fileid ch ch i (ef_ft f) Hcar Huo Hst) as E.
  cbn [told] in E. rewrite Htold in E. cbn [ft_emit_if] in E.
  set (ft := set_state i _ _) in E.
  rewrite (easy_step_one _ _ (FtPull fileid (Z.of_nat off)) true ft f Hopen E) by done.
  set (f1 := { f with ef_ft := ft; ef_fileid := fileid; ef_offset := Z.of_nat off; ef_threads ::= S;
                      ef_threads := ef_threads f; ef_fp := Some (path, Z.of_nat off) }).
  assert (sending_from fileid ch i path c off f1) as Hf1.
  { assert (i < length (ft_files (ef_ft f)))%nat as Hi by apply Hcar.
    split; try done; [split; try done|].
    - by apply carries_set.
    - change (ef_ft f1) with ft. unfold ft, set_state. rewrite item_at_set by done. by rewrite decide_True.
    - by eexists.
    - change (ef_ft f1) with ft. unfold ft, set_state. by rewrite set_item_state. }
  destruct (sending_loop_spec fileid ch i path c (Z.to_nat (ef_filesz f / ELA_MAX_USER_DATA_LEN + 1))
    (stack_bytes ELA_MAX_USER_DATA_LEN) off f1 Hf1) as (f' & chunks & Eloop & Hrest); [by apply stack_length|done| |].
  { rewrite Hsize. unfold ELA_MAX_USER_DATA_LEN. Z.div_mod_to_equations; lia. }
  exists f', chunks. split; [|exact Hrest]. rewrite <- Eloop. set (f0 := { f with ef_ft := ft }).
  assert (Z.of_nat off < ef_filesz f) as Hlt by lia.
  change (easy_callback _ _ _) with (notify_pull_cb close_ft fileid (Z.of_nat off) f0).
  rewrite (pull_starts close_ft fileid (Z.of_nat off) path pos f0 Halive Hfp Hlt Hid).
  cbn [mbind Res_bind]. by rewrite (thread_runs path pos (ef_threads f)).
Qed.

(** ** The receiving end *)

(** The path of the file while it is not whole. *)
Definition part_of (name : string) : string := name +:+ TMP_EXTENSION.

(** An object that receives into the part of [name], which holds [p], from a peer whose
    request was answered. *)
Record receiving (fileid : string) (ch : Z) (i : nat) (name : string) (p : list byte) f : Prop := {
  rv_alive : ef_freed f = false;
  rv_open : ef_ft_freed f = false;
  rv_carries : carries RECEIVER fileid ch i (ef_ft f);
  rv_told : fc_file (ft_callbacks (ef_ft f)) = true /\ fc_data (ft_callbacks (ef_ft f)) = true;
  rv_fp : exists pos, ef_fp f = Some (part_of name, pos);
  rv_name : ef_filename f = name;
  rv_fits : strlen (part_of name) < PATH_MAX;
  rv_disk : ef_disk f !! part_of name = Some p;
  rv_offset : ef_offset f = Z.of_nat (length p);
  rv_closes : ht_get (filereqs (ef_ext f)) (ft_address (ef_ft f)) = None /\ ft_error (ef_ft f) = 0 /\
    fc_state_changed (ft_callbacks (ef_ft f)) = true
}.

Lemma file_asks close fileid ch i name p size f : receiving fileid ch i name p f ->
  it_state (item_at (ef_ft f) i) = FileTransferState_standby -> it_filesz (item_at (ef_ft f) i) = size ->
  Z.of_nat (length p) < size -> strlen fileid <= ELA_MAX_FILE_ID_LEN ->
  exists s, notify_file_cb close fileid (it_filename (item_at (ef_ft f) i)) size f =
      Ok { f with ef_fileid := fileid; ef_filesz := size;
                  ef_ft ::= fun ft => set_state i FileTransferState_transfering { ft with ft_sess := s } } /\
    link_sent s = link_sent (ft_sess (ef_ft f)) ++ [LinkData ch (packet_pull (Z.of_nat (length p)))].
Proof.
  intros [Ha Ho Hc _ _ _ _ _ Hoff _] Hst Hsz Hlt Hid.
  destruct (pull_taken fileid ch i (Z.of_nat (length p)) (ef_ft f) Hc Hst) as (s & E & Hs); [lia|].
  exists s. split; [|done]. unfold notify_file_cb, easy_file at 1. rewrite Ha. cbn [mbind Res_bind].
  rewrite strcpy_Ok by (unfold ELA_MAX_FILE_ID_LEN, ELA_MAX_ID_LEN in *; lia). cbn [mbind Res_bind].
  set (f1 := { f with ef_fileid := fileid; ef_filesz := size }).
  change (ef_filesz f1) with size. change (ef_offset f1) with (ef_offset f). rewrite Hoff.
  rewrite (proj2 (Z.leb_gt _ _)) by done. unfold call_ft, easy_file at 1.
  change (ef_freed f1) with (ef_freed f). rewrite Ha. cbn [mbind Res_bind].
  change (ef_ft_freed f1) with (ef_ft_freed f). rewrite Ho. change (ef_ft f1) with (ef_ft f).
  by rewrite E.
Qed.

Lemma up_to_last_dot_part name : up_to_last_dot (part_of name) = name.
Proof.
  unfold up_to_last_dot, part_of. assert (forall s t, String.list_ascii_of_string (s +:+ t) =
    String.list_ascii_of_string s ++ String.list_ascii_of_string t) as ->.
  { induction s as [|c s IH]; intros t; [done|]. change (String c s +:+ t) with (String c (s +:+ t)). cbn. by rewrite IH. }
  rewrite reverse_app. change (reverse (String.list_ascii_of_string TMP_EXTENSION)) with
    (reverse (String.list_ascii_of_string "ft~part") ++ ["."%char]).
  rewrite <- app_assoc. change (after_dot _) with (reverse (String.list_ascii_of_string name)).
  by rewrite reverse_involutive, String.string_of_list_ascii_of_string.
Qed.

(** [ela_file_recv] begins with the part of the file that is on the disk, empty or not. *)
Lemma recv_begins address filename cbs ext new_id session d f :
  ela_file_recv address filename cbs ext new_id session d = Ok (inr f) ->
  exists name, let p := default [] (d !! part_of name) in
    ef_filename f = name /\ ef_fp f = Some (part_of name, 0) /\ strlen (part_of name) < PATH_MAX /\
    ef_disk f = <[part_of name := p]> d /\ ef_offset f = Z.of_nat (length p) /\
    ef_freed f = false /\ ef_ft_freed f = false.
Proof.
  unfold ela_file_recv. intros E. destruct cbs as [cbs|]; [|done]. destruct (_ || _); [done|].
  destruct (realpath d (or_empty filename)) as [errno name]. destruct (errno =? 0); [done|].
  destruct (negb _); [done|]. destruct (_ <=? _); [done|]. fold (part_of name) in E.
  apply Res_bind_Ok in E as (path & [-> Hfits]%strcpy_inv & E).
  unfold file_size in E. rewrite stat_seen in E. cbn [Z.eqb negb] in E.
  exists name. set (p := default [] (d !! part_of name)) in *. cbv zeta.
  assert (match match d !! part_of name with None => inl ENOENT | Some c => inr (Z.of_nat (length c)) end with
          | inl _ => 0 | inr size => size end = Z.of_nat (length p)) as Hoff
    by (unfold p; by destruct (d !! part_of name)).
  rewrite Hoff in E. clear Hoff.
  match type of E with (if ?b then _ else _) = _ => destruct b; [done|] end.
  destruct (negb _); [done|]. apply Res_bind_Ok in E as ([?|ft] & _ & E); [done|].
  apply Res_bind_Ok in E as (ext' & _ & E). apply Res_bind_Ok in E as ([[rc ext1] ft1] & _ & E).
  destruct (rc <? 0); [by apply Res_bind_Ok in E as (? & _ & ?)|]. injection E as <-.
  split_and!; try done. by apply up_to_last_dot_part.
Qed.

(** The offer of a file is answered with a pull of what is missing. *)
Lemma opened_pulls fileid ch i name p size f : receiving fileid ch i name p f ->
  it_state (item_at (ef_ft f) i) = FileTransferState_standby -> it_filesz (item_at (ef_ft f) i) = size ->
  Z.of_nat (length p) < size -> strlen fileid <= ELA_MAX_FILE_ID_LEN ->
  exists f', easy_step (ft_stream (ef_ft f)) (SeChannelOpened ch) f = Ok f' /\
    link_sent (ft_sess (ef_ft f')) =
      link_sent (ft_sess (ef_ft f)) ++ [LinkData ch (packet_pull (Z.of_nat (length p)))] /\
    receiving fileid ch i name p f' /\ ef_filesz f' = size /\ ef_disk f' = ef_disk f /\
    ef_callbacks f' = ef_callbacks f /\ ef_progress f' = ef_progress f /\
    ft_stream (ef_ft f') = ft_stream (ef_ft f) /\
    it_state (item_at (ef_ft f') i) = FileTransferState_transfering.
Proof.
  intros Hf Hst Hsz Hlt Hid. destruct (Hf) as [Ha Ho Hc [Hfile Hdata] Hfp Hname Hfits Hdisk Hoff Hcl].
  destruct (carries_item _ _ _ _ _ Hc) as [Hfid _].
  set (ft := ft_emit (FtFile fileid (it_filename (item_at (ef_ft f) i)) size) (ef_ft f)).
  assert (stream_step (ft_stream (ef_ft f)) (SeChannelOpened ch) (ef_ft f) = Ok (true, ft)) as E.
  { destruct Hc as (Hr & _ & _ & _ & _ & _ & _ & Hch & _). cbn [stream_step]. unfold stream_channel_opened.
    rewrite Hr. cbn [negb Z.eqb]. change (RECEIVER =? RECEIVER) with true. cbn [negb].
    by rewrite Hch, Hfile, Hfid, Hsz. }
  rewrite (easy_step_one _ _ _ true ft f Ho E) by done. set (f0 := { f with ef_ft := ft }).
  assert (receiving fileid ch i name p f0) as Hf0 by (by split).
  destruct (file_asks close_ft fileid ch i name p size f0 Hf0 Hst Hsz Hlt Hid) as (s & Ef & Hs).
  eexists. split; [exact Ef|]. split; [done|].
  assert (i < length (ft_files (ef_ft f)))%nat as Hi by apply Hc.
  split_and!; try done; [|by apply set_item_state].
  split; try done. apply carries_set. exact Hc.
Qed.

Lemma store_spec fileid ch i name p d f : receiving fileid ch i name p f -> is_u64 (Z.of_nat (length (p ++ d))) ->
  easy_store (Some d) (Z.of_nat (length d)) f =
    Ok { f with ef_disk ::= <[part_of name := p ++ d]>; ef_offset := Z.of_nat (length (p ++ d)) }.
Proof.
  intros [Ha _ _ _ [pos Hfp] _ _ Hdisk Hoff _] Hu. unfold easy_store, easy_file at 1. rewrite Ha.
  cbn [mbind Res_bind]. unfold easy_write. rewrite Hfp. cbn [deref mbind Res_bind]. rewrite Hdisk.
  change (default [] (Some d)) with d. change (default [] (Some p)) with p. rewrite fwrite_all, firstn_all.
  change (ef_offset { f with ef_disk ::= _ }) with (ef_offset f). rewrite Hoff, u64_small, length_app, Nat2Z.inj_add; [done|].
  rewrite length_app in Hu. unfold is_u64 in Hu. lia.
Qed.

(** A piece is handed to the callback. *)
Lemma data_told fileid ch i name p d f : receiving fileid ch i name p f -> (0 < length d)%nat ->
  it_state (item_at (ef_ft f) i) = FileTransferState_transfering ->
  easy_step (ft_stream (ef_ft f)) (SeChannelData ch d) f =
    notify_data_cb close_ft fileid (Some d) (Z.of_nat (length d))
      { f with ef_ft ::= ft_emit (FtData fileid (Some d) (Z.of_nat (length d))) }.
Proof.
  intros [Ha Ho Hc [_ Hdata] _ _ _ _ _ _] Hd Hst.
  pose proof (handle_data_spec fileid d ch ch i (ef_ft f) Hc) as E. unfold is_transfering in E.
  rewrite bool_decide_eq_true_2, Hdata in E by done. cbn [andb] in E.
  assert (data_event fileid d = FtData fileid (Some d) (Z.of_nat (length d))) as He.
  { unfold data_event. by rewrite (proj2 (Z.ltb_lt _ _)) by lia. }
  rewrite He in E. by rewrite (easy_step_one _ _ (FtData fileid (Some d) (Z.of_nat (length d))) _ _ f Ho E).
Qed.

Lemma data_goes_on fileid ch i name p d f : receiving fileid ch i name p f -> (0 < length d)%nat ->
  it_state (item_at (ef_ft f) i) = FileTransferState_transfering ->
  Z.of_nat (length (p ++ d)) < ef_filesz f -> is_u64 (ef_filesz f) ->
  exists f', easy_step (ft_stream (ef_ft f)) (SeChannelData ch d) f = Ok f' /\
    receiving fileid ch i name (p ++ d) f' /\ ef_filesz f' = ef_filesz f /\
    ef_disk f' = <[part_of name := p ++ d]> (ef_disk f) /\ ef_callbacks f' = ef_callbacks f /\
    ef_progress f' = (if pc_received (ef_callbacks f)
                      then [PgReceived (Z.of_nat (length (p ++ d))) (ef_filesz f)] else []) ++ ef_progress f /\
    ft_stream (ef_ft f') = ft_stream (ef_ft f) /\
    it_state (item_at (ef_ft f') i) = FileTransferState_transfering.
Proof.
  intros Hf Hd Hst Hlt Hu. rewrite (data_told fileid ch i name p) by done.
  set (f0 := { f with ef_ft ::= ft_emit (FtData fileid (Some d) (Z.of_nat (length d))) }).
  assert (receiving fileid ch i name p f0) as Hf0 by (destruct Hf; by split).
  unfold notify_data_cb. rewrite (store_spec fileid ch i name p d f0 Hf0) by (unfold is_u64 in *; lia).
  set (f1 := { f0 with ef_disk ::= <[part_of name := p ++ d]>; ef_offset := Z.of_nat (length (p ++ d)) }). cbn [mbind Res_bind].
  change (ef_filesz f1) with (ef_filesz f). change (ef_offset f1) with (Z.of_nat (length (p ++ d))).
  rewrite (proj2 (Z.ltb_ge _ _)), (proj2 (Z.eqb_neq _ _)) by lia. cbn [mbind Res_bind].
  assert (receiving fileid ch i name (p ++ d) f1) as Hf1.
  { destruct Hf. split; try done. change (ef_disk f1) with (<[part_of name := p ++ d]> (ef_disk f)).
    by rewrite lookup_insert_eq. }
  rewrite report_progress_alive by apply Hf1. eexists. split; [done|].
  change (ef_callbacks f1) with (ef_callbacks f). change (ef_filesz f1) with (ef_filesz f).
  change (ef_offset f1) with (Z.of_nat (length (p ++ d))).
  destruct (pc_received (ef_callbacks f)); split_and!; try done. by destruct Hf1; split.
Qed.

(** ** The last piece *)

(** Channels that close change nothing that the end of the transfer looks at. *)
Lemma channels_closed st chs ft : ft_session ft = true -> ft_stream ft = st ->
  ft_state ft = FileTransferConnection_connected -> exists files,
  stream_steps st (SeChannelClose <$> chs) ft = Ok { ft with ft_files := files }.
Proof.
  revert ft. induction chs as [|ch chs IH]; intros ft Hs Hst Hc; [exists (ft_files ft); by destruct ft|].
  cbn [fmap list_fmap stream_steps stream_step]. unfold stream_channel_close, channel_guard.
  rewrite Hs, Hst, Hc, !Z.eqb_refl. cbn [c_assert mbind Res_bind].
  destruct (get_fileinfo_channel ft ch) as [i|]; cbn [mbind Res_bind]; [|apply (IH ft Hs Hst Hc)].
  destruct (IH (set_item i (fun it => filename_safe_free { it with it_state := FileTransferState_none }) ft) Hs Hst Hc)
    as [files ->]. by exists files.
Qed.

Lemma stream_steps_app st es es' ft : stream_steps st (es ++ es') ft = (ft ← stream_steps st es ft; stream_steps st es' ft).
Proof.
  revert ft. induction es as [|e es IH]; intros ft; [done|]. cbn [app stream_steps].
  destruct (stream_step st e ft) as [[b ft1]|]; [|done]. cbn [mbind Res_bind]. apply IH.
Qed.

(** The receiver's call that closes a transfer, which the layer reports as it does it. *)
Lemma receiver_closes fileid ch i ft ext : carries RECEIVER fileid ch i ft ->
  ht_get (filereqs ext) (ft_address ft) = None -> ft_error ft = 0 -> fc_state_changed (ft_callbacks ft) = true ->
  exists ft', ela_filetransfer_close ext ft = Ok (ext, ft') /\
    ft_events ft' = FtStateChanged FileTransferConnection_closed :: ft_events ft /\
    ft_session ft' = false /\ ft_stream ft' = -1 /\ ft_state ft' = FileTransferConnection_closed.
Proof.
  intros (Hr & Hst & Hses & Hstr & _) Hreq Herr Hcb. unfold ela_filetransfer_close. rewrite Hreq.
  cbn [mbind Res_bind]. rewrite (proj2 (Z.ltb_lt _ _)) by done. unfold remove_stream.
  destruct (removal_reports (ft_sess ft) (ft_stream ft)) as [chs Hrep].
  destruct (session_remove_stream (ft_sess ft) (ft_stream ft)) as [es s]. cbn [fst] in Hrep. subst es.
  rewrite stream_steps_app. set (ft0 := { ft with ft_sess := s }).
  destruct (channels_closed (ft_stream ft) chs ft0) as [files ->]; [done..|]. cbn [mbind Res_bind stream_steps stream_step].
  set (ft1 := { ft0 with ft_files := files }). unfold stream_state_changed.
  change (ft_session ft1) with (ft_session ft). change (ft_stream ft1) with (ft_stream ft).
  change (ft_sender_receiver ft1) with (ft_sender_receiver ft). rewrite Hses, Z.eqb_refl, Hr.
  change (RECEIVER =? SENDER) with false. change (RECEIVER =? RECEIVER) with true. cbn [c_assert mbind Res_bind].
  unfold receiver_state_changed. change (ft_session ft1) with (ft_session ft).
  change (ft_sender_receiver ft1) with (ft_sender_receiver ft). rewrite Hses, Hr.
  change (RECEIVER =? RECEIVER) with true. cbn [c_assert mbind Res_bind].
  change (ft_error ft1) with (ft_error ft). rewrite Herr. cbn. unfold notify_state_changed.
  change (ft_state ft1) with (ft_state ft). rewrite Hst. cbn. rewrite Hcb. cbn. rewrite Hses.
  eexists. by split_and!.
Qed.

Lemma easy_close_alive depth f : ef_freed f = false -> ef_ft_freed f = false ->
  easy_close (S depth) f =
    ('(ext, ft) ← ela_filetransfer_close (ef_ext f) (ef_ft f);
     f ← easy_callbacks (easy_close depth) (recent_events (ef_ft f) ft) { f with ef_ext := ext; ef_ft := ft };
     Ok { f with ef_ft_freed := true }).
Proof. intros Ha Ho. cbn [easy_close]. unfold easy_file. by rewrite Ha, Ho. Qed.

(** The object goes with the report of the closed state, before the call returns. *)
Lemma close_frees fileid ch i f : ef_freed f = false -> ef_ft_freed f = false -> carries RECEIVER fileid ch i (ef_ft f) ->
  ht_get (filereqs (ef_ext f)) (ft_address (ef_ft f)) = None -> ft_error (ef_ft f) = 0 ->
  fc_state_changed (ft_callbacks (ef_ft f)) = true ->
  exists f', close_ft f = Ok f' /\ ef_freed f' = true /\ ef_ft_freed f' = true /\ ef_disk f' = ef_disk f /\
    ft_session (ef_ft f') = false /\ ef_fp f' = None /\
    ef_progress f' = (if pc_state_changed (ef_callbacks f) then [PgState FileTransferConnection_closed] else [])
                       ++ ef_progress f.
Proof.
  intros Ha Ho Hc Hreq Herr Hcb. destruct (receiver_closes fileid ch i _ (ef_ext f) Hc Hreq Herr Hcb)
    as (ft & E & Hev & Hses & _). unfold close_ft. rewrite easy_close_alive, E by done. cbn [mbind Res_bind].
  rewrite (recent_events_spec [FtStateChanged FileTransferConnection_closed]) by done.
  cbn [reverse rev_append easy_callbacks easy_callback]. unfold notify_state_changed_cb, easy_file at 1.
  set (f1 := { f with ef_ext := ef_ext f; ef_ft := ft }). change (ef_freed f1) with (ef_freed f). rewrite Ha.
  cbn [mbind Res_bind]. change (c_assert (negb _)) with (Ok tt). cbn [mbind Res_bind].
  rewrite (report_progress_alive pc_state_changed _ f1 Ha). cbn [mbind Res_bind].
  change (FileTransferConnection_closed <=? FileTransferConnection_closed) with true. cbn iota.
  eexists. split; [reflexivity|]. change (ef_callbacks f1) with (ef_callbacks f).
  by destruct (pc_state_changed _).
Qed.

(** The part gets its name, then the transfer is closed, which frees what the handler goes
    on to read. *)
Lemma data_completes fileid ch i name p d f : receiving fileid ch i name p f -> (0 < length d)%nat ->
  it_state (item_at (ef_ft f) i) = FileTransferState_transfering ->
  Z.of_nat (length (p ++ d)) = ef_filesz f -> is_u64 (ef_filesz f) ->
  exists f1 f2, easy_store (Some d) (Z.of_nat (length d))
      { f with ef_ft ::= ft_emit (FtData fileid (Some d) (Z.of_nat (length d))) } = Ok f1 /\
    easy_complete close_ft f1 = Ok f2 /\ ef_disk f2 = <[name := p ++ d]> (delete (part_of name) (ef_disk f)) /\
    ef_freed f2 = true /\ ef_ft_freed f2 = true /\ ft_session (ef_ft f2) = false /\ ef_fp f2 = None /\
    ef_progress f2 = (if pc_state_changed (ef_callbacks f) then [PgState FileTransferConnection_closed] else [])
                       ++ ef_progress f /\
    easy_step (ft_stream (ef_ft f)) (SeChannelData ch d) f = Fault UseAfterFree.
Proof.
  intros Hf Hd Hst Hsz Hu. rewrite (data_told fileid ch i name p) by done.
  set (f0 := { f with ef_ft ::= ft_emit (FtData fileid (Some d) (Z.of_nat (length d))) }).
  assert (receiving fileid ch i name p f0) as Hf0 by (destruct Hf; by split).
  unfold notify_data_cb. rewrite (store_spec fileid ch i name p d f0 Hf0) by (by rewrite Hsz).
  set (f1 := { f0 with ef_disk ::= <[part_of name := p ++ d]>; ef_offset := Z.of_nat (length (p ++ d)) }).
  exists f1. cbn [mbind Res_bind].
  change (ef_filesz f1) with (ef_filesz f). change (ef_offset f1) with (Z.of_nat (length (p ++ d))).
  rewrite Hsz, Z.ltb_irrefl, Z.eqb_refl. unfold easy_complete.
  destruct Hf as [Ha Ho Hc _ _ Hname Hfits Hdisk _ (Hreq & Herr & Hcb)].
  change (ef_filename { f1 with ef_fp := None }) with (ef_filename f). rewrite Hname. fold (part_of name).
  rewrite strcpy_Ok by done. cbn [mbind Res_bind].
  change (ef_disk { f1 with ef_fp := None }) with (<[part_of name := p ++ d]> (ef_disk f)).
  rewrite lookup_insert_eq, rename_done. cbn [Z.eqb].
  match goal with |- context [close_ft ?x] => set (f3 := x) end.
  destruct (close_frees fileid ch i f3) as (f2 & E & Hfr & Hftf & Hdk & Hses & Hfp & Hpg); [done..|].
  exists f2. rewrite E. cbn [mbind Res_bind]. split_and!; try done.
  - rewrite Hdk. unfold f3. cbn. by rewrite delete_insert_eq.
  - unfold report_progress, easy_file. by rewrite Hfr.
Qed.

Definition data_reports (ch : Z) (chunks : list (list byte)) : list stream_event := SeChannelData ch <$> chunks.

(** All pieces but the last arrive. *)
Lemma chunks_arrive fileid ch i name st chunks : forall p f, receiving fileid ch i name p f ->
  it_state (item_at (ef_ft f) i) = FileTransferState_transfering -> ft_stream (ef_ft f) = st ->
  Forall (fun d => 0 < length d)%nat chunks ->
  Z.of_nat (length (p ++ concat chunks)) < ef_filesz f -> is_u64 (ef_filesz f) ->
  exists f', easy_steps st (data_reports ch chunks) f = Ok f' /\
    receiving fileid ch i name (p ++ concat chunks) f' /\ ef_filesz f' = ef_filesz f /\
    <[part_of name := p ++ concat chunks]> (ef_disk f) = ef_disk f' /\
    ef_progress f' = told_progress (pc_received (ef_callbacks f))
      (reports (fun n => PgReceived n (ef_filesz f)) (Z.of_nat (length p)) chunks) ++ ef_progress f /\
    ef_callbacks f' = ef_callbacks f /\ ft_stream (ef_ft f') = st /\
    it_state (item_at (ef_ft f') i) = FileTransferState_transfering.
Proof.
  induction chunks as [|d chunks IH]; intros p f Hf Hst Hstr Hall Hsz Hu.
  { exists f. cbn [concat]. rewrite app_nil_r. split; [done|]. split; [done|]. split; [done|]. split.
    - apply insert_id, Hf.
    - split_and!; try done. by destruct (pc_received _). }
  apply Forall_cons in Hall as [Hd Hall]. cbn [concat] in *. cbn [data_reports fmap list_fmap easy_steps]. subst st.
  rewrite app_assoc in Hsz |- *.
  destruct (data_goes_on fileid ch i name p d f Hf Hd Hst) as (f1 & -> & Hf1 & Hsz1 & Hdisk1 & Hcb1 & Hp1 & Hstr1 & Hst1);
    [rewrite length_app in Hsz; lia|done|].
  cbn [mbind Res_bind]. rewrite <- Hsz1 in Hsz, Hu.
  destruct (IH (p ++ d) f1 Hf1 Hst1 Hstr1 Hall Hsz Hu) as (f' & E & Hf' & Hsz' & Hdisk & Hp & Hcb & Hrest).
  exists f'. split; [exact E|]. split; [done|]. split; [congruence|]. split; [|split; [|split; [congruence|done]]].
  - rewrite <- Hdisk, Hdisk1. by rewrite insert_insert_eq.
  - rewrite Hp, Hp1, Hcb1, Hsz1, length_app, Nat2Z.inj_add. cbn [reports].
    rewrite told_progress_cons, <- app_assoc. by destruct (pc_received _).
Qed.

(** C29. A transfer that goes on where an earlier one stopped is whole.  A receiver that has
    the first part [p] of a file [c] on its disk pulls the rest; what the sender reads and
    writes to the channel are pieces of at most the largest size whose concatenation is what
    is missing, and its application is told of the bytes so far with every piece.  Handed to
    the receiver, all pieces but the last are added to the part, and its application is told
    of the bytes so far with each.  The last piece is stored, and what completes the file
    closes the transfer with the disk holding exactly [c] under the name of the file, without
    the part.  That close has freed the object by then, as the session layer reports it while
    it is made: the handler of the last piece goes on to read the freed object, so the
    application is not told of that piece but only that the transfer closed. *)
Theorem resumed_file_is_whole fileid rch tch i j path name p c rcv snd :
  receiving fileid rch i name p rcv -> sending fileid tch j path c snd ->
  it_state (item_at (ef_ft rcv) i) = FileTransferState_standby ->
  it_state (item_at (ef_ft snd) j) = FileTransferState_standby ->
  it_filesz (item_at (ef_ft rcv) i) = Z.of_nat (length c) -> is_u64 (Z.of_nat (length c)) ->
  strlen fileid <= ELA_MAX_FILE_ID_LEN ->
  p = take (length p) c -> (length p < length c)%nat ->
  let size := Z.of_nat (length c) in
  let off := Z.of_nat (length p) in
  let st := ft_stream (ef_ft rcv) in
  exists rcv1, easy_step st (SeChannelOpened rch) rcv = Ok rcv1 /\
    link_sent (ft_sess (ef_ft rcv1)) = link_sent (ft_sess (ef_ft rcv)) ++ [LinkData rch (packet_pull off)] /\
  exists snd1 chunks last,
    (s ← easy_step (ft_stream (ef_ft snd)) (SeChannelData tch (packet_pull off)) snd; easy_thread s) = Ok snd1 /\
    link_sent (ft_sess (ef_ft snd1)) = link_sent (ft_sess (ef_ft snd)) ++ (LinkData tch <$> chunks ++ [last]) /\
    Forall (fun d => 0 < Z.of_nat (length d) <= ELA_MAX_USER_DATA_LEN) (chunks ++ [last]) /\
    concat (chunks ++ [last]) = drop (length p) c /\
    ef_progress snd1 = told_progress (pc_sent (ef_callbacks snd))
      (reports (fun n => PgSent n size) off (chunks ++ [last])) ++ ef_progress snd /\
    ef_disk snd1 = ef_disk snd /\
  exists rcv2, easy_steps st (data_reports rch chunks) rcv1 = Ok rcv2 /\
    ef_disk rcv2 = <[part_of name := p ++ concat chunks]> (ef_disk rcv) /\
    ef_progress rcv2 = told_progress (pc_received (ef_callbacks rcv))
      (reports (fun n => PgReceived n size) off chunks) ++ ef_progress rcv /\
  let n := Z.of_nat (length last) in
  let told_last := { rcv2 with ef_ft ::= ft_emit (FtData fileid (Some last) n) } in
  easy_step st (SeChannelData rch last) rcv2 = notify_data_cb close_ft fileid (Some last) n told_last /\
  exists rcv3 rcv4, easy_store (Some last) n told_last = Ok rcv3 /\
    easy_complete close_ft rcv3 = Ok rcv4 /\
    ef_disk rcv4 = <[name := c]> (delete (part_of name) (ef_disk rcv)) /\
    ef_freed rcv4 = true /\ ef_ft_freed rcv4 = true /\ ft_session (ef_ft rcv4) = false /\ ef_fp rcv4 = None /\
    ef_progress rcv4 = (if pc_state_changed (ef_callbacks rcv) then [PgState FileTransferConnection_closed] else [])
                         ++ ef_progress rcv2 /\
    easy_step st (SeChannelData rch last) rcv2 = Fault UseAfterFree.
Proof.
  intros Hr Hs Hrst Hsst Hsz Hu Hid Hp Hlt. cbv zeta.
  destruct (opened_pulls fileid rch i name p (Z.of_nat (length c)) rcv Hr Hrst Hsz) as
    (r1 & E1 & Hs1 & Hr1 & Hsz1 & Hdk1 & Hcb1 & Hpg1 & Hstr1 & Hst1); [lia|done|].
  destruct (pulled_file_sent fileid tch j path c (length p) snd Hs Hsst Hid Hu Hlt) as
    (s1 & all & E2 & Hcat & Hall & Hs2 & Hpg2 & Hdk2 & _).
  assert (p ++ concat all = c) as Hc by (rewrite Hcat, Hp at 1; apply take_drop).
  destruct all as [|last chunks _] using rev_ind.
  { exfalso. cbn in Hc. rewrite app_nil_r in Hc. subst c. lia. }
  apply Forall_app in Hall as Hall'. destruct Hall' as [Hinit [Hlast _]%Forall_cons].
  rewrite concat_app in Hc. cbn [concat] in Hc. rewrite app_nil_r in Hc.
  assert (length p + length (concat chunks) + length last = length c)%nat as Hlen
    by (rewrite <- Hc, !length_app; lia).
  destruct (chunks_arrive fileid rch i name (ft_stream (ef_ft rcv)) chunks p r1 Hr1 Hst1 Hstr1) as
    (r2 & E3 & Hr2 & Hsz2 & Hdk3 & Hpg3 & Hcb2 & Hstr2 & Hst2).
  - eapply Forall_impl; [exact Hinit|]. cbn. lia.
  - rewrite Hsz1, length_app. lia.
  - by rewrite Hsz1.
  - destruct (data_completes fileid rch i name (p ++ concat chunks) last r2 Hr2) as
      (r3 & r4 & E4 & E5 & Hdk4 & Hfr & Hftf & Hses & Hfp & Hpg4 & E6); [lia|done| |by rewrite Hsz2, Hsz1|].
    { by rewrite Hsz2, Hsz1, <- app_assoc, Hc. }
    rewrite Hstr2 in E6. rewrite <- app_assoc, Hc, <- Hdk3, delete_insert_eq, Hdk1 in Hdk4.
    rewrite Hcb1, Hpg1, Hsz1 in Hpg3. rewrite Hcb2, Hcb1 in Hpg4. rewrite Hdk1 in Hdk3.
    exists r1. split; [done|]. split; [done|]. exists s1, chunks, last. split_and!; try done.
    exists r2. split_and!; try done.
    + rewrite <- Hstr2. apply (data_told fileid rch i name (p ++ concat chunks)); [done|lia|done].
    + exists r3, r4. by split_and!.
Qed.
End Props.
