(* ===== verification/EasySample.v ===== *)
(** * Concrete transfers of one file

    An operating system that works and a session layer that takes every call: a file whose
    first bytes the receiver has already is transferred, and the theorem on it is evaluated.
    Then what the calls do when a transfer is over, fails, or has nothing to do.  Nothing of
    the code is modelled here. *)

From S2P Require Import Prelude ElaError Carrier Sample Multiplex MuxSample CText FileTransfer FileTransferProps FileTransferPair FtSample EasyFile EasyFileProps.

(** A disk that takes [takes] of what is written to it. *)
Definition os_taking (takes : list byte -> nat) : Os := {|
  realpath d p := match d !! p with Some _ => (0, p) | None => (ENOENT, p) end;
  stat_error _ := 0; fopen_error _ := 0; fseek_error _ := 0; rename_error _ _ := 0;
  thread_made := true; fwrite_takes _ new := takes new; strerror _ := "error"%string
|}.
#[export] Instance sample_os : Os := os_taking (fun new => length new).
#[export] Instance sample_os_works : OsWorks.
Proof. by split. Defined.
#[export] Instance link_takes : LayerTakes link.
Proof. split. intros s stream ch data. cbn. lia. Defined.

#[export] Instance link_closes : LayerCloses link.
Proof. split. intros s stream. by exists []. Defined.

Definition easy : Type := EasyFile link.
Definition all_progress : ElaFileProgressCallbacks :=
  {| pc_state_changed := true; pc_sent := true; pc_received := true |}.

Definition started (m : Res (Z + easy)) (es : list stream_event) : Res easy :=
  f ← m; match f with inr f => easy_steps 1 es f | inl _ => Fault Diverges end.

Definition content : list byte := bytes "abcde".
Definition part : list byte := bytes "ab".

Definition connecting_states : list stream_event :=
  SeStateChanged <$> [ElaStreamState_initialized; ElaStreamState_transport_ready; ElaStreamState_connecting].
Definition connected_states : list stream_event := connecting_states ++ [SeStateChanged ElaStreamState_connected].

Definition sending_call (d : disk) : Res (Z + easy) :=
  ela_file_send (Some bob_id) (Some "/home/notes.txt"%string) (Some all_progress) (Some requested) alice_id (inr no_link) d.
Definition receiving_call (d : disk) : Res (Z + easy) :=
  ela_file_recv (Some bob_id) (Some "/tmp/notes.txt"%string) (Some all_progress) (Some requested) "" (inr no_link) d.

Definition offering_file : Res easy := started (sending_call {["/home/notes.txt"%string := content]}) connected_states.
Definition offered_file : Res easy :=
  started (receiving_call {["/tmp/notes.txt.ft~part"%string := part]})
    (connected_states ++ [SeChannelOpen 7 (Some cookie)]).

Example both_ready : exists snd rcv, offering_file = Ok snd /\ offered_file = Ok rcv /\
  ln_sent (ft_sess (ef_ft snd)) = [LinkOpen 1 cookie] /\ ef_filename rcv = "/tmp/notes.txt"%string /\ ef_offset rcv = 2.
Proof. do 2 eexists. split; [vm_compute; reflexivity|]. split; [vm_compute; reflexivity|]. by vm_compute. Qed.

Definition nobody : easy :=
  {| ef_ft := dead; ef_ft_freed := true; ef_callbacks := all_progress; ef_fp := None; ef_fileid := ""; ef_filename := "";
     ef_filesz := 0; ef_offset := 0; ef_sys_errno := 0; ef_carrier_errno := 0; ef_freed := true; ef_threads := 0;
     ef_progress := []; ef_disk := ∅; ef_ext := requested |}.
Definition or_nobody (m : Res easy) : easy := match m with Ok f => f | Fault _ => nobody end.

Definition easy_sender : easy := Eval vm_compute in or_nobody offering_file.
Definition easy_receiver : easy := Eval vm_compute in or_nobody offered_file.

Lemma sender_has_file : sending alice_id 1 0 "/home/notes.txt" content easy_sender.
Proof. split; try by vm_compute. - repeat split; vm_compute; reflexivity || lia || discriminate. - by eexists. Qed.

Lemma receiver_has_part : receiving alice_id 7 0 "/tmp/notes.txt" part easy_receiver.
Proof. split; try by vm_compute. - repeat split; vm_compute; reflexivity || lia || discriminate. - by eexists. Qed.

Lemma resumed_file_is_whole_witness :
  exists snd1 chunks last rcv1 rcv2 rcv3 rcv4,
    (s ← easy_step 1 (SeChannelData 1 (packet_pull 2)) easy_sender; easy_thread s) = Ok snd1 /\
    concat (chunks ++ [last]) = bytes "cde" /\ easy_steps 1 (data_reports 7 chunks) rcv1 = Ok rcv2 /\
    easy_complete close_ft rcv3 = Ok rcv4 /\ ef_disk rcv4 !! "/tmp/notes.txt"%string = Some content /\
    ef_freed rcv4 = true /\ easy_step 1 (SeChannelData 7 last) rcv2 = Fault UseAfterFree.
Proof.
  destruct (resumed_file_is_whole alice_id 7 1 0 0 "/home/notes.txt" "/tmp/notes.txt" part content
    easy_receiver easy_sender receiver_has_part sender_has_file) as
    (rcv1 & _ & _ & snd1 & chunks & last & E & _ & _ & Hcat & _ & _ & rcv2 & Er & _ & _ & _ & rcv3 & rcv4 & _ & Ec &
     Hdisk & Hfreed & _ & _ & _ & _ & Hfault).
  - vm_compute. reflexivity.
  - vm_compute. reflexivity.
  - vm_compute. reflexivity.
  - vm_compute. split; [discriminate|reflexivity].
  - vm_compute. discriminate.
  - vm_compute. reflexivity.
  - vm_compute. lia.
  - exists snd1, chunks, last, rcv1, rcv2, rcv3, rcv4. split; [exact E|]. split; [exact Hcat|]. split; [exact Er|].
    split; [exact Ec|]. split; [|split; [exact Hfreed|exact Hfault]]. rewrite Hdisk. apply lookup_insert_eq.
Defined.

(** ** The end of a transfer *)

(** The session layer reports the closed state before [ela_filetransfer_close] returns; that
    drops the object, which the callback that completes the file goes on to read. *)
Example completion_uses_freed_memory :
  (f ← easy_step 1 (SeChannelOpened 7) easy_receiver; easy_step 1 (SeChannelData 7 (bytes "cde")) f)
    = Fault UseAfterFree.
Proof. by vm_compute. Qed.

(** A connection that fails ends the process. *)
Example failure_asserts :
  easy_step 1 (SeStateChanged ElaStreamState_failed) easy_sender = Fault AssertFailed.
Proof. by vm_compute. Qed.

(** There are no transfers of empty files. *)
Example empty_file_refused :
  sending_call {["/home/notes.txt"%string := []]} = Ok (inl (ELA_GENERAL_ERROR ELAERR_INVALID_ARGS)).
Proof. by vm_compute. Qed.

(** A part that is whole, left when the name could not be given, is refused with every later
    transfer: the sender is sent a cancellation, and the object stays. *)
Example whole_part_refused :
  exists f, started (receiving_call {["/tmp/notes.txt.ft~part"%string := content]})
    (connected_states ++ [SeChannelOpen 7 (Some cookie); SeChannelOpened 7]) = Ok f /\
    ln_sent (ft_sess (ef_ft f)) = [LinkData 7 (packet_cancel EINVAL "error")] /\ ef_freed f = false /\
    ef_disk f !! "/tmp/notes.txt"%string = None.
Proof. eexists. split; [vm_compute; reflexivity|]. split; [vm_compute; reflexivity|]. by vm_compute. Qed.

(** A disk that takes nothing: the file is complete, as what was there before. *)
Example full_disk_unnoticed :
  exists f, @notify_data_cb _ _ (os_taking (fun _ => O)) link _ (fun f => Ok f) alice_id (Some (bytes "cde")) 3
      { easy_receiver with ef_filesz := 5 } = Ok f /\
    ef_disk f !! "/tmp/notes.txt"%string = Some part /\
    ef_progress f = PgReceived 5 5 :: ef_progress easy_receiver.
Proof. eexists. split; [vm_compute; reflexivity|]. split; vm_compute; reflexivity. Qed.
