(* ===== verification/PortForward.v ===== *)
(** * Port forwarding (src/src/session/portforwarding.c)

    The worker of a multiplexer that carries TCP connections over channels: connections
    accepted at its listening sockets become channels, channels that the peer opens become
    connections to services.  With portforwardings.h, services.h and fdset.c.

    The callbacks of the channels are functions of the worker.  A call of the multiplexer
    runs with their answers and is followed by them, from the events that it made, oldest
    first ([run_mux]); [pf_app] gives the multiplexer the answer that a callback gives in the
    state in which it is asked.  Channels of other types are answered by the application.

    The sockets of the system are the interface [Sockets]; the thread's loop is cut into its
    rounds, with what [select] reported as an argument. *)

From S2P Require Import Prelude ElaError Carrier FlexBuffer Multiplex Session.

Definition INVALID_SOCKET : Z := -1.
Definition FD_SETSIZE : Z := 1024.
Definition EBADF : Z := 9.
Definition MAX_PORTFORWARDING_ID : Z := 64.

(** ** Sets of descriptors (fdset.c) *)

Record FdSet := { rfds : gset Z; event : Z; woken : bool }.

(** A descriptor that has no bit is beyond the end of the set. *)
Definition fd_bit (fd : Z) : Res unit :=
  if (0 <=? fd) && (fd <? FD_SETSIZE) then Ok tt else Fault BufferOverflow.
Definition FD_ISSET (fd : Z) (s : gset Z) : Res bool := _ ← fd_bit fd; Ok (bool_decide (fd ∈ s)).

(** [eventfd] gave [fd]; [errno] otherwise. *)
Definition fdset_init (fd errno : Z) : Res (Z + FdSet) :=
  if fd <? 0 then Ok (inl errno)
  else _ ← fd_bit fd; Ok (inr {| rfds := {[fd]}; event := fd; woken := false |}).

Definition fdset_wakeup (s : FdSet) : FdSet := { s with woken := true }.
Definition fdset_drop_wakeup (s : FdSet) : FdSet := { s with woken := false }.

Definition fdset_add_socket (fd : Z) (s : FdSet) : Res FdSet :=
  if fd =? INVALID_SOCKET then Ok s
  else set ← FD_ISSET fd (rfds s);
       Ok (if set : bool then s else fdset_wakeup { s with rfds ::= fun l => l ∪ {[fd]} }).
Definition fdset_remove_socket (fd : Z) (s : FdSet) : Res FdSet :=
  if fd =? INVALID_SOCKET then Ok s
  else set ← FD_ISSET fd (rfds s);
       Ok (if set : bool then fdset_wakeup { s with rfds ::= fun l => l ∖ {[fd]} } else s).

(** ** Data *)

(** socket.h (libcrystal), where closing a socket is [close], and the calls of the system; a
    descriptor of -1 is the failure.
    [socket_recv] gives [None] for an error and no bytes at the end of the connection. *)
Class Sockets (net : Type) := {
  socket_connect : net -> string -> string -> Z * net;
  socket_create : net -> string -> string -> Z * net;
  socket_listen : net -> Z -> Z * net;
  socket_accept : net -> Z -> Z * net;
  socket_send : net -> Z -> list byte -> Z * net;
  socket_recv : net -> Z -> Z -> option (list byte) * net;
  socket_close : net -> Z -> net;
  socket_errno : net -> Z
}.

(** The descriptor of the events is closed. *)
Definition fdset_destroy {net : Type} `{!Sockets net} (s : FdSet) (n : net) : FdSet * net :=
  let fd := event s in
  ({ s with event := INVALID_SOCKET }, if negb (fd =? INVALID_SOCKET) then socket_close n fd else n).

Record PortForwarding := { pf_id : Z; pf_protocol : Z; pf_sock : Z; pf_service : string }.

(** No thread; one that was made and has not run yet; one in its loop. *)
Inductive worker_thread := ThreadNone | ThreadMade | ThreadRuns.

Record PortForwardingWorker `{!HashTables} {next heap pheap net : Type} := {
  wk_mux : MultiplexHandler next heap;
  wk_services : option (hashtable string Service);   (* session->portforwarding.services *)
  wk_fdset : FdSet;
  wk_thread : worker_thread;
  wk_running : bool;
  wk_portforwardings : hashtable Z PortForwarding;
  wk_pf_ids : pheap;
  wk_socks : gmap Z Z;                               (* TcpChannel.sock, by channel *)
  wk_net : net
}.
Arguments PortForwardingWorker {_} next heap pheap net.

Section PortForward.
Context `{!HashTables, !Stack} {next heap pheap net : Type}
  `{!Next next, !IdsHeap heap, !IdsHeap pheap, !Sockets net}.
Implicit Types w : PortForwardingWorker next heap pheap net.
Abbreviation Worker := (PortForwardingWorker next heap pheap net).

(** ** The callbacks of TCP channels *)

(** The socket of a channel, 0 in one that was just allocated. *)
Definition tcp_sock (id : Z) w : Z := default 0 (wk_socks w !! id).

Definition on_fdset (f : FdSet -> Res FdSet) w : Res Worker :=
  s ← f (wk_fdset w); Ok { w with wk_fdset := s }.

Definition close_socket (sock : Z) w : Worker := { w with wk_net ::= fun n => socket_close n sock }.

Definition tcp_portforwarding_channel_open (id : Z) (cookie : option string) w : Res (bool * Worker) :=
  _ ← c_assert (negb (null_or_empty cookie));
  match wk_services w with
  | None => Ok (false, w)
  | Some services =>
      match ht_get services (or_empty cookie) with
      | None => Ok (false, w)
      | Some svc =>
          if negb (svc_protocol svc =? PortForwardingProtocol_TCP) then Ok (false, w)
          else
            let '(sock, n) := socket_connect (wk_net w) (svc_host svc) (svc_port svc) in
            let w := { w with wk_net := n } in
            if sock =? INVALID_SOCKET then Ok (false, w)
            else Ok (true, { w with wk_socks ::= <[id := sock]> })
      end
  end.

Definition tcp_portforwarding_channel_opened (id : Z) w : Res Worker :=
  on_fdset (fdset_add_socket (tcp_sock id w)) w.

(** The channel is freed afterwards, its socket with it. *)
Definition tcp_portforwarding_channel_close (id : Z) w : Res Worker :=
  w ← on_fdset (fdset_remove_socket (tcp_sock id w)) w;
  Ok { close_socket (tcp_sock id w) w with wk_socks ::= delete id }.

(** Every round sends a byte at least. *)
Fixpoint send_loop (fuel : nat) (sock : Z) (data : list byte) w : Res (bool * Worker) :=
  match fuel with
  | O => Fault Diverges
  | S fuel =>
      match data with
      | [] => Ok (true, w)
      | _ =>
          let '(rc, n) := socket_send (wk_net w) sock data in
          let w := { w with wk_net := n } in
          if rc <=? 0 then Ok (false, w) else send_loop fuel sock (drop (Z.to_nat rc) data) w
      end
  end.

Definition tcp_portforwarding_channel_data (id : Z) (data : list byte) w : Res (bool * Worker) :=
  _ ← c_assert (negb (bool_decide (data = [])));
  send_loop (S (length data)) (tcp_sock id w) data w.

Definition tcp_portforwarding_channel_pending (id : Z) w : Res Worker :=
  on_fdset (fdset_remove_socket (tcp_sock id w)) w.
Definition tcp_portforwarding_channel_resume (id : Z) w : Res Worker :=
  on_fdset (fdset_add_socket (tcp_sock id w)) w.

(** [tcp_portforwarding_callbacks] *)
Definition tcp_portforwarding_callbacks (e : mux_event) w : Res (bool * Worker) :=
  let told (t : Z) (m : Res Worker) :=
    if t =? ChannelType_TCP_PortForwarding then w ← m; Ok (true, w) else Ok (true, w) in
  match e with
  | EvChannelOpen t id cookie =>
      if t =? ChannelType_TCP_PortForwarding then tcp_portforwarding_channel_open id cookie w else Ok (true, w)
  | EvChannelData t id data =>
      if t =? ChannelType_TCP_PortForwarding then tcp_portforwarding_channel_data id data w else Ok (true, w)
  | EvChannelOpened t id => told t (tcp_portforwarding_channel_opened id w)
  | EvChannelClose t id _ => told t (tcp_portforwarding_channel_close id w)
  | EvChannelPending t id => told t (tcp_portforwarding_channel_pending id w)
  | EvChannelResume t id => told t (tcp_portforwarding_channel_resume id w)
  | EvData _ | EvStateChanged _ => Ok (true, w)
  end.

(** ** Calls of the multiplexer *)

Fixpoint run_callbacks (es : list mux_event) w : Res Worker :=
  match es with
  | [] => Ok w
  | e :: es => '(_, w) ← tcp_portforwarding_callbacks e w; run_callbacks es w
  end.

(** What was added to a history of events, oldest first. *)
Definition added (old new : list mux_event) : list mux_event := reverse (take (length new - length old) new).

Definition is_tcp (e : mux_event) : bool :=
  match e with
  | EvChannelOpen t _ _ | EvChannelData t _ _ => t =? ChannelType_TCP_PortForwarding
  | _ => false
  end.

(** The answer to [e] after the history [h], in a call that began in [w]. *)
Definition pf_answer w (h : list mux_event) (e : mux_event) : bool :=
  match (w' ← run_callbacks (added (mx_events (wk_mux w)) h) w; tcp_portforwarding_callbacks e w') with
  | Ok (b, _) => b
  | Fault _ => false
  end.
Definition pf_app (user : ChannelApp) w : ChannelApp := {|
  channel_open h e := if is_tcp e then pf_answer w h e else @channel_open user h e;
  channel_data h e := if is_tcp e then pf_answer w h e else @channel_data user h e
|}.

Definition run_mux {A} (user : ChannelApp)
    (op : ChannelApp -> MultiplexHandler next heap -> Res (A * MultiplexHandler next heap)) w : Res (A * Worker) :=
  '(a, m) ← op (pf_app user w) (wk_mux w);
  w' ← run_callbacks (added (mx_events (wk_mux w)) (mx_events m)) w;
  Ok (a, { w' with wk_mux := m }).

(** ** The thread *)

Context (user : ChannelApp).

Definition handle_tcp_portforwarding_channel (now : timeval) (id : Z) w : Res Worker :=
  let buf := flex_buffer_alloca FLEX_BUFFER_MAX_LEN FLEX_PADDING_LEN in
  let '(bytes, n) := socket_recv (wk_net w) (tcp_sock id w) ELA_MAX_USER_DATA_LEN in
  let w := { w with wk_net := n } in
  match bytes with
  | None | Some [] =>
      '(_, w) ← run_mux user (fun _ => multiplex_handler_close_channel id) w; Ok w
  | Some bytes =>
      buf ← fx_write buf (fx_offset buf) bytes;
      let buf := flex_buffer_set_size buf (Z.of_nat (length bytes)) in
      '(_, w) ← run_mux user (fun _ => multiplex_handler_write_channel now id buf) w; Ok w
  end.

Definition handle_tcp_portofrwarding (now : timeval) (pf : PortForwarding) w : Res Worker :=
  let '(sock, n) := socket_accept (wk_net w) (pf_sock pf) in
  let w := { w with wk_net := n } in
  if sock <? 0 then Ok w
  else
    '(cid, w) ← run_mux user (fun _ => multiplex_handler_open_channel now ChannelType_TCP_PortForwarding
                                         (Some (pf_service pf)) 0 sock) w;
    Ok (if cid <=? 0 then close_socket sock w else { w with wk_socks ::= <[cid := sock]> }).

(** The first TCP channel of the table with a socket that is ready. *)
Fixpoint find_ready (ready : gset Z) (l : list Channel) w : Res (option Channel) :=
  match l with
  | [] => Ok None
  | ch :: l =>
      if ch_type ch =? ChannelType_TCP_PortForwarding then
        set ← FD_ISSET (tcp_sock (ch_id ch) w) ready;
        if set : bool then Ok (Some ch) else find_ready ready l w
      else find_ready ready l w
  end.

(** The loop from [rescan_channels]: those it handled are no longer in the set, so going on
    and beginning again find the same channel. *)
Fixpoint scan_channels (nfds : nat) (now : timeval) (ready : gset Z) w : Res (nat * gset Z * Worker) :=
  match nfds with
  | O => Ok (O, ready, w)
  | S n =>
      ch ← find_ready ready (ht_items (channels (wk_mux w))).*2 w;
      match ch with
      | None => Ok (nfds, ready, w)
      | Some ch =>
          let ready := ready ∖ {[tcp_sock (ch_id ch) w]} in
          w ← handle_tcp_portforwarding_channel now (ch_id ch) w;
          scan_channels n now ready w
      end
  end.

(** The loop from [rescan_portforwardings]; handling one leaves their table as it is. *)
Fixpoint scan_portforwardings (nfds : nat) (now : timeval) (ready : gset Z) (l : list PortForwarding) w : Res Worker :=
  match nfds, l with
  | O, _ | _, [] => Ok w
  | S n, pf :: l =>
      set ← FD_ISSET (pf_sock pf) ready;
      if negb set then scan_portforwardings nfds now ready l w
      else
        w ← (if pf_protocol pf =? PortForwardingProtocol_TCP then handle_tcp_portofrwarding now pf w else Ok w);
        scan_portforwardings n now (ready ∖ {[pf_sock pf]}) l w
  end.

(** What [select] reported: an error, or what is ready, nothing after a timeout. *)
Inductive selected := SelectError (error : Z) | SelectReady (fds : gset Z).

(** One round of [worker_routine]; [running] is cleared where the loop ends. *)
Definition worker_round (now : timeval) (sel : selected) w : Res Worker :=
  if negb (wk_running w) then Ok w
  else
    match sel with
    | SelectError error => Ok (if error =? EBADF then w else { w with wk_running := false })
    | SelectReady ready =>
        let nfds := size ready in
        let ev := event (wk_fdset w) in
        let '(nfds, ready, w) :=
          if (0 <? nfds)%nat && bool_decide (ev ∈ ready)
          then ((nfds - 1)%nat, ready ∖ {[ev]}, { w with wk_fdset ::= fdset_drop_wakeup })
          else (nfds, ready, w) in
        '(nfds, ready, w) ← scan_channels nfds now ready w;
        scan_portforwardings nfds now ready (ht_items (wk_portforwardings w)).*2 w
    end.

(** The thread begins. *)
Definition worker_begins w : Worker := { w with wk_thread := ThreadRuns; wk_running := true }.

(** [rc] is the result of [pthread_create]. *)
Definition portforwarding_worker_start (rc : Z) w : Z * Worker :=
  if negb (rc =? 0) then (ELA_SYS_ERROR rc, w) else (0, { w with wk_thread := ThreadMade }).

(** The thread is joined: a null one if there is none; one that has yet to begin sets
    [running] again. *)
Definition portforwarding_worker_stop w : Res Worker :=
  let w := { w with wk_running := false; wk_fdset ::= fdset_wakeup } in
  match wk_thread w with
  | ThreadNone => Fault NullDeref
  | ThreadMade => Fault Diverges
  | ThreadRuns => Ok { w with wk_thread := ThreadNone }
  end.

(** ** Opening and closing *)

Definition portforwarding_destroy (pf : PortForwarding) w : Worker :=
  if negb (pf_sock pf =? INVALID_SOCKET) then close_socket (pf_sock pf) w else w.

Definition portforwarding_open (service : string) (protocol : Z) (host port : string) w : Res (Z * Worker) :=
  _ ← c_assert (protocol =? PortForwardingProtocol_TCP);
  let '(sock, n) := socket_create (wk_net w) host port in
  let w := { w with wk_net := n } in
  if sock =? INVALID_SOCKET then Ok (ELA_SYS_ERROR (socket_errno (wk_net w)), w)
  else
    let pf := {| pf_id := 0; pf_protocol := 0; pf_sock := sock; pf_service := "" |} in
    let '(rc, n) := socket_listen (wk_net w) sock in
    let w := { w with wk_net := n } in
    if rc <? 0 then
      let w := portforwarding_destroy pf w in Ok (ELA_SYS_ERROR (socket_errno (wk_net w)), w)
    else
      let '(id, ids) := ids_alloc (wk_pf_ids w) in
      let w := { w with wk_pf_ids := ids } in
      if id <? 0 then Ok (ELA_GENERAL_ERROR ELAERR_LIMIT_EXCEEDED, portforwarding_destroy pf w)
      else
        let pf := { pf with pf_id := id; pf_protocol := protocol; pf_service := service } in
        let w := { w with wk_portforwardings ::= ht_put id pf } in
        w ← on_fdset (fdset_add_socket (pf_sock pf)) w;
        Ok (id, w).

Definition portforwarding_close (pfid : Z) w : Res Worker :=
  _ ← c_assert (0 <? pfid);
  match ht_get (wk_portforwardings w) pfid with
  | None => Ok w
  | Some pf =>
      let w := { w with wk_portforwardings ::= ht_remove pfid } in
      _ ← c_assert (negb (pf_sock pf =? INVALID_SOCKET));
      w ← on_fdset (fdset_remove_socket (pf_sock pf)) w;
      Ok { close_socket (pf_sock pf) w with wk_pf_ids ::= fun ids => ids_free ids pfid }
  end.

(** [fds] and [errno] are what [eventfd] gave; [ids] is an empty heap of
    [MAX_PORTFORWARDING_ID] numbers. *)
Definition portforwarding_worker_create (fd errno : Z) (ids : pheap) (services : option (hashtable string Service))
    (n : net) (m : MultiplexHandler next heap) : Res (Z + Worker) :=
  s ← fdset_init fd errno;
  match s with
  | inl errno => Ok (inl (ELA_SYS_ERROR errno))
  | inr s =>
      Ok (inr {| wk_mux := m; wk_services := services; wk_fdset := s; wk_thread := ThreadNone; wk_running := false;
                 wk_portforwardings := ht_empty; wk_pf_ids := ids; wk_socks := ∅; wk_net := n |})
  end.

(** The listening sockets go with their table, the descriptor of the events with its set. *)
Definition portforwarding_worker_destroy w : Worker :=
  let w' := foldl (fun w pf => portforwarding_destroy pf w) w (ht_items (wk_portforwardings w)).*2 in
  let '(s, n) := fdset_destroy (wk_fdset w') (wk_net w') in
  { w' with wk_portforwardings := ht_empty; wk_fdset := s; wk_net := n }.
End PortForward.
