(* ===== verification/PortForwardInv.v ===== *)
(** * The sockets of port forwarding

    Through any calls, packets, rounds of the thread and failures of the system every socket
    that the worker got is that of one of its forwardings or of one of the channels in the
    table of the multiplexer, or it was closed; the thread waits for exactly those it may
    read from. *)

From S2P Require Import Prelude ElaError Carrier FlexBuffer Multiplex MultiplexProps MultiplexStream MultiplexInv Session PortForward.

(** A new descriptor is one that was not open; what is not closed stays open. *)
Class SocketsLaws (net : Type) `{!Sockets net} := {
  live : net -> gset Z;
  live_nonneg n s : s ∈ live n -> 0 <= s;
  socket_connect_spec n host port s n' : socket_connect n host port = (s, n') ->
    s = INVALID_SOCKET /\ live n' = live n \/ 0 <= s /\ (s ∉ live n) /\ live n' = {[s]} ∪ live n;
  socket_create_spec n host port s n' : socket_create n host port = (s, n') ->
    s = INVALID_SOCKET /\ live n' = live n \/ 0 <= s /\ (s ∉ live n) /\ live n' = {[s]} ∪ live n;
  socket_accept_spec n l s n' : socket_accept n l = (s, n') ->
    s < 0 /\ live n' = live n \/ 0 <= s /\ (s ∉ live n) /\ live n' = {[s]} ∪ live n;
  socket_listen_spec n s : live (socket_listen n s).2 = live n;
  socket_send_spec n s d : live (socket_send n s d).2 = live n;
  socket_recv_spec n s len : live (socket_recv n s len).2 = live n;
  socket_close_spec n s : live (socket_close n s) = live n ∖ {[s]}
}.

(** What went out at a socket: what [send] says it took of the data it was given. *)
Class SendLaws (net : Type) `{!Sockets net} := {
  sent_at : net -> Z -> list byte;
  socket_sent_spec n s d rc n' : socket_send n s d = (rc, n') ->
    rc <= 0 /\ sent_at n' s = sent_at n s \/
    0 < rc <= Z.of_nat (length d) /\ sent_at n' s = sent_at n s ++ take (Z.to_nat rc) d
}.

(** The status of a TCP channel. *)
Definition tcp_view (s : option (Z * ChannelStatus)) : option ChannelStatus :=
  match s with Some (t, st) => if t =? ChannelType_TCP_PortForwarding then Some st else None | None => None end.

Inductive owner := Outside | OfChannel (id : Z) | Listening (id : Z).

Section Inv.
Context `{!HashTables} {L : HashTablesLaws _} `{!Stack} {next heap pheap net : Type}
  `{!Next next, !NextLaws next, !IdsHeap heap, !IdsHeapLaws heap, !IdsHeap pheap, !IdsHeapLaws pheap,
    !Sockets net, !SocketsLaws net}.
Implicit Types w : PortForwardingWorker next heap pheap net.
Abbreviation Worker := (PortForwardingWorker next heap pheap net).

(** ** The invariant *)

(** Whose a descriptor is; [outside] is not the worker's. *)
Definition owns (outside : gset Z) w (o : owner) (s : Z) : Prop :=
  match o with
  | Outside => s ∈ outside
  | OfChannel id => wk_socks w !! id = Some s
  | Listening id => pf_sock <$> ht_get (wk_portforwardings w) id = Some s
  end.

(** What the thread waits for; [tv] says which channels are TCP channels, and how they are. *)
Definition waits (ev : Z) (tv : Z -> option ChannelStatus) (o : owner) (s : Z) : Prop :=
  match o with
  | Outside => s = ev
  | OfChannel id => tv id = Some ChannelStatus_Open
  | Listening _ => True
  end.

Record agrees (outside : gset Z) (tv : Z -> option ChannelStatus) w : Prop := {
  ag_socks : forall id, is_Some (wk_socks w !! id) <-> is_Some (tv id);
  ag_one : forall o o' s, owns outside w o s -> owns outside w o' s -> o = o';
  ag_live : forall s, s ∈ live (wk_net w) <-> exists o, owns outside w o s;
  ag_fdset : forall s, s ∈ rfds (wk_fdset w) <-> exists o, owns outside w o s /\ waits (event (wk_fdset w)) tv o s;
  ag_event : event (wk_fdset w) ∈ outside;
  ag_ids : forall id, id ∈ ids_used (wk_pf_ids w) <-> is_Some (ht_get (wk_portforwardings w) id)
}.

(** A step gives one descriptor [s] to another owner, or to none, and leaves the others. *)
Lemma agrees_move outside outside' tv tv' w w' s (new : option owner) : agrees outside tv w ->
  (forall id, is_Some (wk_socks w' !! id) <-> is_Some (tv' id)) ->
  (forall o x, x <> s -> owns outside' w' o x <-> owns outside w o x) ->
  (forall o, owns outside' w' o s <-> new = Some o) ->
  (forall x, x ∈ live (wk_net w') <-> x = s /\ is_Some new \/ x <> s /\ x ∈ live (wk_net w)) ->
  event (wk_fdset w') = event (wk_fdset w) -> event (wk_fdset w) ∈ outside' ->
  (forall x, x <> s -> x ∈ rfds (wk_fdset w') <-> x ∈ rfds (wk_fdset w)) ->
  (forall o x, x <> s -> owns outside w o x ->
     waits (event (wk_fdset w)) tv' o x <-> waits (event (wk_fdset w)) tv o x) ->
  (s ∈ rfds (wk_fdset w') <-> exists o, new = Some o /\ waits (event (wk_fdset w)) tv' o s) ->
  (forall id, id ∈ ids_used (wk_pf_ids w') <-> is_Some (ht_get (wk_portforwardings w') id)) ->
  agrees outside' tv' w'.
Proof.
  intros [H1 H2 H3 H4 H5 H6] Hsocks Hother Hs Hlive Hev Hout Hset Hwaits Hsset Hids. split.
  - done.
  - intros o o' x Ho Ho'. destruct (decide (x = s)) as [->|Hne].
    + apply Hs in Ho, Ho'. congruence.
    + apply Hother in Ho, Ho'; try done. by eapply H2.
  - intros x. rewrite Hlive. destruct (decide (x = s)) as [->|Hne].
    + setoid_rewrite Hs. unfold is_Some. naive_solver.
    + rewrite H3. split; [intros [[? _]|[_ [o Ho]]]; [done|exists o; by apply Hother]|].
      intros [o Ho]. right. split; [done|]. exists o. by apply Hother.
  - intros x. rewrite Hev. destruct (decide (x = s)) as [->|Hne].
    + rewrite Hsset. by setoid_rewrite Hs.
    + rewrite Hset, H4 by done. split; intros (o & Ho & Hw); exists o; split.
      * by apply Hother.
      * by apply Hwaits.
      * by apply Hother.
      * apply Hother in Ho; [|done]. by apply Hwaits.
  - by rewrite Hev.
  - done.
Qed.

(** A state with the same tables and descriptors. *)
Lemma agrees_frame outside tv tv' w w' : agrees outside tv w ->
  (forall id, tv' id = tv id) -> wk_socks w' = wk_socks w -> wk_portforwardings w' = wk_portforwardings w ->
  live (wk_net w') = live (wk_net w) -> rfds (wk_fdset w') = rfds (wk_fdset w) ->
  event (wk_fdset w') = event (wk_fdset w) -> ids_used (wk_pf_ids w') = ids_used (wk_pf_ids w) ->
  agrees outside tv' w'.
Proof.
  intros [H1 H2 H3 H4 H5 H6] Htv Hs Hp Hl Hr He Hi.
  assert (forall o s, owns outside w' o s <-> owns outside w o s) as Ho by (by intros []; cbn; rewrite ?Hs, ?Hp).
  assert (forall o s, waits (event (wk_fdset w)) tv' o s <-> waits (event (wk_fdset w)) tv o s) as Hw
    by (by intros []; cbn; rewrite ?Htv).
  split.
  - intros id. by rewrite Hs, Htv.
  - intros o o' s. rewrite !Ho. apply H2.
  - intros s. rewrite Hl, H3. by setoid_rewrite Ho.
  - intros s. rewrite Hr, He, H4. setoid_rewrite Ho. by setoid_rewrite Hw.
  - by rewrite He.
  - intros id. by rewrite Hi, Hp.
Qed.

Lemma fdset_add_spec s f f' : 0 <= s -> fdset_add_socket s f = Ok f' ->
  event f' = event f /\ forall x, x ∈ rfds f' <-> x = s \/ x ∈ rfds f.
Proof.
  intros Hs. unfold fdset_add_socket. rewrite (proj2 (Z.eqb_neq _ _)) by (unfold INVALID_SOCKET; lia).
  intros (set & Hset & [= <-])%Res_bind_Ok. apply Res_bind_Ok in Hset as (u & _ & [= <-]).
  case_bool_decide; (split; [done|]); intros x; [|cbn]; set_solver.
Qed.

Lemma fdset_remove_spec s f f' : 0 <= s -> fdset_remove_socket s f = Ok f' ->
  event f' = event f /\ forall x, x ∈ rfds f' <-> x <> s /\ x ∈ rfds f.
Proof.
  intros Hs. unfold fdset_remove_socket. rewrite (proj2 (Z.eqb_neq _ _)) by (unfold INVALID_SOCKET; lia).
  intros (set & Hset & [= <-])%Res_bind_Ok. apply Res_bind_Ok in Hset as (u & _ & [= <-]).
  case_bool_decide; (split; [done|]); intros x; [cbn|]; set_solver.
Qed.


Section Steps.
Context (outside : gset Z).
Implicit Types tv : Z -> option ChannelStatus.

Lemma owned_live tv w o s : agrees outside tv w -> owns outside w o s -> 0 <= s.
Proof. intros Ha Ho. apply (live_nonneg (wk_net w)), (ag_live _ _ _ Ha). by exists o. Qed.

(** The other channels are as they were. *)
Definition tv_set (tv tv' : Z -> option ChannelStatus) (id : Z) (st : option ChannelStatus) : Prop :=
  forall k, tv' k = if decide (k = id) then st else tv k.

Lemma tv_set_waits tv tv' id st ev w o s x : agrees outside tv w -> tv_set tv tv' id st ->
  (forall y, wk_socks w !! id = Some y -> y = s) -> x <> s -> owns outside w o x -> waits ev tv' o x <-> waits ev tv o x.
Proof.
  intros Ha Htv Hs Hne Ho. destruct o as [|k|k]; [done| |done]. cbn. rewrite Htv. case_decide as Hk; [|done].
  subst k. by apply Hs in Ho.
Qed.

(** A new descriptor is at first nobody's. *)
Lemma agrees_new tv w n s : agrees outside tv w -> s ∉ live (wk_net w) -> live n = {[s]} ∪ live (wk_net w) ->
  agrees ({[s]} ∪ outside) tv { w with wk_net := n } /\ (s ∉ outside).
Proof.
  intros Ha Hs Hn. pose proof Ha as [H1 H2 H3 H4 H5 H6].
  assert (forall o, ~ owns outside w o s) as Hno by (intros o Ho; apply Hs, H3; by exists o).
  split; [|by apply (Hno Outside)].
  apply (agrees_move outside _ tv tv w _ s (Some Outside)); try done.
  - intros [] x Hne; [cbn; set_solver|done..].
  - intros []; cbn; split; try done; [set_solver|by intros ?%(Hno (OfChannel id))|by intros ?%(Hno (Listening id))].
  - intros x. change (wk_net { w with wk_net := n }) with n. rewrite Hn, elem_of_union, elem_of_singleton.
    unfold is_Some. destruct (decide (x = s)); naive_solver.
  - set_solver.
  - split.
    + intros (o & Ho & _)%H4. by apply Hno in Ho.
    + intros (o & [= <-] & E). cbn in E. subst s. by apply (Hno Outside) in H5.
Qed.

(** What is known of one that is kept aside. *)
Lemma aside_owner tv w s : agrees ({[s]} ∪ outside) tv w -> s ∉ outside -> event (wk_fdset w) ∈ outside ->
  (forall o, owns ({[s]} ∪ outside) w o s <-> o = Outside) /\ (s ∉ rfds (wk_fdset w)) /\ s ∈ live (wk_net w).
Proof.
  intros [_ H2 H3 H4 _ _] Hs He.
  assert (owns ({[s]} ∪ outside) w Outside s) as Hout by (cbn; set_solver).
  assert (forall o, owns ({[s]} ∪ outside) w o s <-> o = Outside) as Ho by (intros o; split; [intros; by eapply H2|by intros ->]).
  split; [done|]. split; [|apply H3; by exists Outside].
  intros (o & ->%Ho & E)%H4. cbn in E. by subst s.
Qed.

(** It is closed again. *)
Lemma agrees_close_aside tv w s : agrees ({[s]} ∪ outside) tv w -> s ∉ outside -> event (wk_fdset w) ∈ outside ->
  agrees outside tv (close_socket s w).
Proof.
  intros Ha Hs He. destruct (aside_owner tv w s Ha Hs He) as (Ho & Hset & Hl). pose proof Ha as [H1 H2 H3 H4 H5 H6].
  apply (agrees_move _ outside tv tv w _ s None Ha); try done.
  - intros [] x Hne; [cbn; set_solver|done..].
  - intros o. split; [|done]. intros Hx. destruct o as [|k|k]; [by cbn in Hx|..].
    + by pose proof (proj1 (Ho (OfChannel k)) Hx).
    + by pose proof (proj1 (Ho (Listening k)) Hx).
  - intros x. change (wk_net (close_socket s w)) with (socket_close (wk_net w) s).
    rewrite socket_close_spec, elem_of_difference, elem_of_singleton. split; [intros [? ?]; by right|].
    intros [[_ []]|[? ?]]; done.
  - split; [by intros ?%Hset|by intros (o & ? & _)].
Qed.

(** It becomes that of a channel. *)
Lemma agrees_adopt tv tv' id w s : agrees ({[s]} ∪ outside) tv w -> s ∉ outside -> event (wk_fdset w) ∈ outside ->
  tv id = None -> tv_set tv tv' id (Some ChannelStatus_Opening) ->
  agrees outside tv' { w with wk_socks ::= <[id := s]> }.
Proof.
  intros Ha Hs He Hid Htv. destruct (aside_owner tv w s Ha Hs He) as (Ho & Hset & Hl).
  pose proof Ha as [H1 H2 H3 H4 H5 H6]. set (w' := { w with wk_socks ::= <[id := s]> }).
  assert (wk_socks w !! id = None) as Hno.
  { destruct (wk_socks w !! id) eqn:E; [|done]. destruct (proj1 (H1 id)) as [? Hx]; [by rewrite E|]. by rewrite Hid in Hx. }
  apply (agrees_move _ outside tv tv' w w' s (Some (OfChannel id)) Ha); try done.
  - intros k. change (wk_socks w') with (<[id := s]> (wk_socks w)). rewrite Htv. case_decide as Hk.
    + subst k. by rewrite lookup_insert_eq.
    + by rewrite lookup_insert_ne.
  - intros [|k|k] x Hne; [cbn; set_solver| |done].
    change (<[id := s]> (wk_socks w) !! k = Some x <-> wk_socks w !! k = Some x).
    destruct (decide (id = k)) as [->|Hk]; [|by rewrite lookup_insert_ne]. rewrite lookup_insert_eq, Hno. naive_solver.
  - intros o. split; [|intros [= <-]; by apply lookup_insert_eq]. destruct o as [|k|k]; intros Hx.
    + by cbn in Hx.
    + change (<[id := s]> (wk_socks w) !! k = Some s) in Hx. destruct (decide (id = k)) as [->|Hk]; [done|].
      rewrite lookup_insert_ne in Hx by done. by pose proof (proj1 (Ho (OfChannel k)) Hx).
    + by pose proof (proj1 (Ho (Listening k)) Hx).
  - intros x. change (wk_net w') with (wk_net w). destruct (decide (x = s)) as [->|]; [|naive_solver].
    split; [by left|done].
  - intros [|k|k] x Hne Hx; [done| |done]. cbn. rewrite Htv. case_decide as Hk; [|done]. subst k.
    cbn in Hx. by rewrite Hno in Hx.
  - split; [by intros ?%Hset|]. intros (o & [= <-] & Hw). cbn in Hw. rewrite Htv, decide_True in Hw; done.
Qed.

(** It becomes that of a forwarding, and is waited for. *)
Lemma agrees_listen tv w w' id pf : agrees ({[pf_sock pf]} ∪ outside) tv w -> pf_sock pf ∉ outside ->
  event (wk_fdset w) ∈ outside -> ht_get (wk_portforwardings w) id = None ->
  wk_socks w' = wk_socks w -> wk_net w' = wk_net w ->
  wk_portforwardings w' = ht_put id pf (wk_portforwardings w) -> ids_used (wk_pf_ids w') = {[id]} ∪ ids_used (wk_pf_ids w) ->
  event (wk_fdset w') = event (wk_fdset w) ->
  (forall x, x ∈ rfds (wk_fdset w') <-> x = pf_sock pf \/ x ∈ rfds (wk_fdset w)) -> agrees outside tv w'.
Proof.
  intros Ha Hs He Hid Hsk Hn Hpf Hi Hev Hr. set (s := pf_sock pf) in *.
  destruct (aside_owner tv w s Ha Hs He) as (Ho & Hset & Hl). pose proof Ha as [H1 H2 H3 H4 H5 H6].
  apply (agrees_move _ outside tv tv w w' s (Some (Listening id)) Ha); try done.
  - intros k. by rewrite Hsk.
  - intros [|k|k] x Hne; cbn; [set_solver|by rewrite Hsk|]. rewrite Hpf, ht_get_put. case_decide as Hk; [|done].
    subst k. rewrite Hid. cbn. naive_solver.
  - intros o. split.
    + destruct o as [|k|k]; intros Hx; cbn in Hx; [done| |].
      * rewrite Hsk in Hx. by pose proof (proj1 (Ho (OfChannel k)) Hx).
      * rewrite Hpf, ht_get_put in Hx. case_decide as Hk; [by subst|]. by pose proof (proj1 (Ho (Listening k)) Hx).
    + intros [= <-]. cbn. by rewrite Hpf, ht_get_put_eq.
  - intros x. rewrite Hn. destruct (decide (x = s)) as [->|]; [|naive_solver]. split; [by left|done].
  - intros x Hne. rewrite Hr. naive_solver.
  - rewrite Hr. split; [by exists (Listening id)|by left].
  - intros k. rewrite Hi, Hpf, elem_of_union, elem_of_singleton, H6, ht_get_put.
    case_decide as Hk; [subst k; naive_solver|]. naive_solver.
Qed.

(** The owner of [s] closes it and is no longer there. *)
Lemma agrees_release tv tv' w w' o s : agrees outside tv w -> owns outside w o s -> o <> Outside ->
  (forall id, is_Some (wk_socks w' !! id) <-> is_Some (tv' id)) ->
  (forall o' x, owns outside w' o' x <-> owns outside w o' x /\ o' <> o) ->
  live (wk_net w') = live (wk_net w) ∖ {[s]} -> event (wk_fdset w') = event (wk_fdset w) ->
  (forall x, x ∈ rfds (wk_fdset w') <-> x <> s /\ x ∈ rfds (wk_fdset w)) ->
  (forall id, OfChannel id <> o -> tv' id = tv id) ->
  (forall id, id ∈ ids_used (wk_pf_ids w') <-> is_Some (ht_get (wk_portforwardings w') id)) ->
  agrees outside tv' w'.
Proof.
  intros Ha Ho Hno Hsocks How Hl Hev Hr Htv Hids. pose proof Ha as [H1 H2 H3 H4 H5 H6].
  assert (forall o' x, x <> s -> owns outside w o' x -> o' <> o) as Hne.
  { intros o' x Hx Hox ->. destruct o as [|k|k]; cbn in Ho, Hox; [done|congruence|congruence]. }
  apply (agrees_move _ outside tv tv' w w' s None Ha); try done.
  - intros o' x Hx. rewrite How. split; [by intros [? _]|]. intros Hox. split; [done|by eapply Hne].
  - intros o'. rewrite How. split; [|done]. intros [Hox Ho']. by destruct Ho'; eapply H2.
  - intros x. rewrite Hl, elem_of_difference, elem_of_singleton. split; [intros [? ?]; by right|].
    intros [[_ []]|[? ?]]; done.
  - intros x Hx. rewrite Hr. naive_solver.
  - intros o' x Hx Hox. destruct o' as [|k|k]; [done| |done]. cbn. rewrite Htv; [done|]. by eapply Hne.
  - rewrite Hr. split; [by intros []|by intros (? & ? & _)].
Qed.

Lemma agrees_channel_gone tv tv' w f id s : agrees outside tv w -> wk_socks w !! id = Some s -> tv_set tv tv' id None ->
  event f = event (wk_fdset w) -> (forall x, x ∈ rfds f <-> x <> s /\ x ∈ rfds (wk_fdset w)) ->
  agrees outside tv' { close_socket s { w with wk_fdset := f } with wk_socks ::= delete id }.
Proof.
  intros Ha Hs Htv He Hr. set (w' := { close_socket s { w with wk_fdset := f } with wk_socks ::= delete id }).
  assert (wk_socks w' = delete id (wk_socks w)) as Hsk by done.
  apply (agrees_release tv tv' w w' (OfChannel id) s); try done.
  - intros k. rewrite Hsk, Htv. case_decide as Hk; [subst k; by rewrite lookup_delete_eq|].
    rewrite lookup_delete_ne by done. apply (ag_socks _ _ _ Ha).
  - intros [|k|k] x; [by split; [|intros [? _]]| |by split; [|intros [? _]]]. change (delete id (wk_socks w) !! k = Some x <-> wk_socks w !! k = Some x /\ OfChannel k <> OfChannel id).
    destruct (decide (k = id)) as [->|Hk]; [rewrite lookup_delete_eq; naive_solver|].
    rewrite lookup_delete_ne by done. naive_solver.
  - apply socket_close_spec.
  - intros k Hk. rewrite Htv. case_decide; [by subst|done].
  - apply (ag_ids _ _ _ Ha).
Qed.

(** The status of a channel changes; it is waited for when it is open. *)
Lemma agrees_status tv tv' w f id s st : agrees outside tv w -> wk_socks w !! id = Some s ->
  tv_set tv tv' id (Some st) -> event f = event (wk_fdset w) ->
  (forall x, x ∈ rfds f <-> x = s /\ st = ChannelStatus_Open \/ x <> s /\ x ∈ rfds (wk_fdset w)) ->
  agrees outside tv' { w with wk_fdset := f }.
Proof.
  intros Ha Hs Htv He Hr. pose proof Ha as [H1 H2 H3 H4 H5 H6].
  assert (is_Some (tv id)) as Hid by (apply H1; by rewrite Hs).
  apply (agrees_move _ outside tv tv' w _ s (Some (OfChannel id)) Ha); try done.
  - intros k. rewrite Htv. case_decide as Hk; [subst k; by rewrite H1|apply H1].
  - intros o. split; [intros Ho; f_equal; symmetry; by eapply H2|by intros [= <-]].
  - intros x. change (wk_net { w with wk_fdset := f }) with (wk_net w).
    destruct (decide (x = s)) as [->|]; [|naive_solver]. split; [by left|]. intros _. apply H3. by exists (OfChannel id).
  - intros x Hx. change (wk_fdset { w with wk_fdset := f }) with f. rewrite Hr. naive_solver.
  - intros o x Hx Ho. eapply (tv_set_waits tv tv' id _ _ w o s x); try done. intros y Hy. by rewrite Hs in Hy; injection Hy.
  - change (wk_fdset { w with wk_fdset := f }) with f. rewrite Hr. split.
    + intros [[_ ->]|[? _]]; [|done]. exists (OfChannel id). split; [done|]. cbn. by rewrite Htv, decide_True.
    + intros (o & [= <-] & Hw). cbn in Hw. rewrite Htv, decide_True in Hw by done. injection Hw as ->. by left.
Qed.

(** ** The callbacks *)

Implicit Types st : Z -> option (Z * ChannelStatus).

Definition tcp_of st : Z -> option ChannelStatus := fun id => tcp_view (st id).
Definition st_set st (id : Z) (m : option (Z * ChannelStatus)) : Z -> option (Z * ChannelStatus) :=
  fun k => if decide (k = id) then m else st k.

Lemma tcp_of_set st id m : tv_set (tcp_of st) (tcp_of (st_set st id m)) id (tcp_view m).
Proof. intros k. unfold tcp_of, st_set. by case_decide. Qed.

(** Nothing is seen of channels of other types. *)
Lemma agrees_unseen st id m w : agrees outside (tcp_of st) w -> tcp_view m = tcp_view (st id) ->
  agrees outside (tcp_of (st_set st id m)) w.
Proof.
  intros Ha Hm. eapply agrees_frame; [exact Ha| |done..]. intros k. rewrite tcp_of_set. case_decide; [|done].
  subst k. exact Hm.
Qed.

Lemma on_fdset_inv (g : FdSet -> Res FdSet) w w' : on_fdset g w = Ok w' ->
  exists f, g (wk_fdset w) = Ok f /\ w' = { w with wk_fdset := f }.
Proof. intros (f & E & [= <-])%Res_bind_Ok. by exists f. Qed.

Lemma channel_sock tv id w : agrees outside tv w -> is_Some (tv id) ->
  exists s, wk_socks w !! id = Some s /\ tcp_sock id w = s /\ 0 <= s.
Proof.
  intros Ha Hid. apply (ag_socks _ _ _ Ha) in Hid as [s Hs]. exists s. split; [done|].
  split; [unfold tcp_sock; by rewrite Hs|]. by apply (owned_live tv w (OfChannel id)).
Qed.

Lemma added_agrees st id s0 s1 w w' : agrees outside (tcp_of st) w ->
  st id = Some (ChannelType_TCP_PortForwarding, s0) -> s1 = ChannelStatus_Open ->
  on_fdset (fdset_add_socket (tcp_sock id w)) w = Ok w' ->
  agrees outside (tcp_of (st_set st id (Some (ChannelType_TCP_PortForwarding, s1)))) w'.
Proof.
  intros Ha Hid -> (f & E & ->)%on_fdset_inv.
  destruct (channel_sock (tcp_of st) id w Ha) as (s & Hs & Hsk & Hpos); [unfold tcp_of; by rewrite Hid|].
  rewrite Hsk in E. destruct (fdset_add_spec s _ _ Hpos E) as [He Hr].
  eapply (agrees_status (tcp_of st) _ w f id s ChannelStatus_Open);
    [done|done|apply (tcp_of_set st id (Some (ChannelType_TCP_PortForwarding, ChannelStatus_Open)))|done|].
  intros x. rewrite Hr. destruct (decide (x = s)); naive_solver.
Qed.

Lemma removed_agrees st id s0 s1 w w' : agrees outside (tcp_of st) w ->
  st id = Some (ChannelType_TCP_PortForwarding, s0) -> s1 <> ChannelStatus_Open ->
  on_fdset (fdset_remove_socket (tcp_sock id w)) w = Ok w' ->
  agrees outside (tcp_of (st_set st id (Some (ChannelType_TCP_PortForwarding, s1)))) w'.
Proof.
  intros Ha Hid Hs1 (f & E & ->)%on_fdset_inv.
  destruct (channel_sock (tcp_of st) id w Ha) as (s & Hs & Hsk & Hpos); [unfold tcp_of; by rewrite Hid|].
  rewrite Hsk in E. destruct (fdset_remove_spec s _ _ Hpos E) as [He Hr].
  eapply (agrees_status (tcp_of st) _ w f id s s1);
    [done|done|apply (tcp_of_set st id (Some (ChannelType_TCP_PortForwarding, s1)))|done|].
  intros x. rewrite Hr. destruct (decide (x = s)); naive_solver.
Qed.

Lemma close_agrees st id s0 w w' : agrees outside (tcp_of st) w ->
  st id = Some (ChannelType_TCP_PortForwarding, s0) -> tcp_portforwarding_channel_close id w = Ok w' ->
  agrees outside (tcp_of (st_set st id None)) w'.
Proof.
  intros Ha Hid E. unfold tcp_portforwarding_channel_close in E. apply Res_bind_Ok in E as (w1 & E1 & [= <-]).
  apply on_fdset_inv in E1 as (f & E & ->).
  destruct (channel_sock (tcp_of st) id w Ha) as (s & Hs & Hsk & Hpos); [unfold tcp_of; by rewrite Hid|].
  change (tcp_sock id { w with wk_fdset := f }) with (tcp_sock id w). rewrite Hsk in E |- *.
  destruct (fdset_remove_spec s _ _ Hpos E) as [He Hr].
  eapply agrees_channel_gone; [done|done|apply (tcp_of_set st id None)|done|done].
Qed.

Lemma open_agrees st id cookie b w w' : agrees outside (tcp_of st) w -> st id = None ->
  tcp_portforwarding_channel_open id cookie w = Ok (b, w') ->
  agrees outside (tcp_of (st_set st id (if b then Some (ChannelType_TCP_PortForwarding, ChannelStatus_Opening) else None))) w'.
Proof.
  intros Ha Hid E. unfold tcp_portforwarding_channel_open in E. apply Res_bind_Ok in E as (u & _ & E).
  assert (forall w1, agrees outside (tcp_of st) w1 -> agrees outside (tcp_of (st_set st id None)) w1) as Hsame.
  { intros w1 Ha1. apply agrees_unseen; [done|]. by rewrite Hid. }
  destruct (wk_services w) as [services|]; [|injection E as <- <-; by apply Hsame].
  destruct (ht_get services _) as [svc|]; [|injection E as <- <-; by apply Hsame].
  destruct (negb _); [injection E as <- <-; by apply Hsame|].
  destruct (socket_connect _ _ _) as [s n] eqn:Ec. apply socket_connect_spec in Ec.
  destruct Ec as [[-> Hn]|(Hpos & Hfree & Hn)].
  - cbn in E. injection E as <- <-. apply Hsame. by eapply agrees_frame.
  - rewrite (proj2 (Z.eqb_neq _ _)) in E by (unfold INVALID_SOCKET; lia). injection E as <- <-.
    destruct (agrees_new (tcp_of st) w n s Ha Hfree Hn) as [Ha1 Hs].
    apply (agrees_adopt (tcp_of st) _ id { w with wk_net := n } s); [done|done|apply (ag_event _ _ _ Ha)| |apply tcp_of_set].
    unfold tcp_of. by rewrite Hid.
Qed.

Lemma send_loop_live fuel : forall sock data w b w', send_loop fuel sock data w = Ok (b, w') ->
  live (wk_net w') = live (wk_net w) /\ exists n, w' = { w with wk_net := n }.
Proof.
  induction fuel as [|fuel IH]; intros sock data w b w' E; [done|]. cbn [send_loop] in E.
  destruct data as [|x data]; [injection E as <- <-; split; [done|]; exists (wk_net w); by destruct w|].
  pose proof (socket_send_spec (wk_net w) sock (x :: data)) as Hl. destruct (socket_send _ _ _) as [rc n]. cbn in Hl.
  destruct (rc <=? 0); [injection E as <- <-; split; [done|by exists n]|].
  apply IH in E as (E & n' & ->). split; [by rewrite E|]. by exists n'.
Qed.

Lemma told_inv t (m : Res Worker) w b w' :
  (if t =? ChannelType_TCP_PortForwarding then w1 ← m; Ok (true, w1) else Ok (true, w)) = Ok (b, w') ->
  t = ChannelType_TCP_PortForwarding /\ m = Ok w' \/ t <> ChannelType_TCP_PortForwarding /\ w' = w.
Proof.
  destruct (Z.eqb_spec t ChannelType_TCP_PortForwarding); [|intros [= <- <-]; by right].
  intros (w1 & E & [= <- <-])%Res_bind_Ok. by left.
Qed.

Lemma tcp_view_other t s : t <> ChannelType_TCP_PortForwarding -> tcp_view (Some (t, s)) = None.
Proof. intros Ht. cbn. by rewrite (proj2 (Z.eqb_neq _ _)). Qed.

(** A callback follows the channel. *)
Lemma callback_agrees e b id st m w b' w' : about id e -> lifecycle false (st id) [(e, b)] m ->
  agrees outside (tcp_of st) w -> tcp_portforwarding_callbacks e w = Ok (b', w') -> (is_tcp e = true -> b' = b) ->
  agrees outside (tcp_of (st_set st id m)) w'.
Proof.
  intros Hab Hl Ha E Hb.
  assert (forall l s1 s2, lifecycle false s1 l s2 -> l = [] -> s2 = s1) as Hnil
    by (intros l s1 s2 []; done).
  assert (forall t s1 s2, t <> ChannelType_TCP_PortForwarding -> st id = Some (t, s1) ->
    agrees outside (tcp_of (st_set st id (Some (t, s2)))) w) as Hother.
  { intros t s1 s2 Ht Hst. apply agrees_unseen; [done|]. by rewrite Hst, !tcp_view_other. }
  destruct (st id) as [[t0 x0]|] eqn:Hs0; inversion Hl; subst; try done;
    match goal with H : lifecycle false _ [] _ |- _ => apply Hnil in H; [subst m|done] end;
    cbn in Hab; subst; cbn [tcp_portforwarding_callbacks] in E; cbn [is_tcp] in Hb.
  - apply told_inv in E as [[-> E]|[Ht ->]]; [by eapply added_agrees|by eapply Hother].
  - destruct (Z.eqb_spec t0 ChannelType_TCP_PortForwarding) as [->|Ht]; [|injection E as <- <-; by eapply Hother].
    apply Res_bind_Ok in E as (u & _ & E). apply send_loop_live in E as (Hlive & n & ->).
    eapply agrees_frame; [apply agrees_unseen; [exact Ha|by rewrite Hs0]|done|done|done|exact Hlive|done|done|done].
  - apply told_inv in E as [[-> E]|[Ht ->]]; [by eapply removed_agrees|by eapply Hother].
  - apply told_inv in E as [[-> E]|[Ht ->]]; [by eapply added_agrees|by eapply Hother].
  - apply told_inv in E as [[-> E]|[Ht ->]]; [by eapply close_agrees|].
    apply agrees_unseen; [done|]. by rewrite Hs0, tcp_view_other.
  - destruct (Z.eqb_spec t ChannelType_TCP_PortForwarding) as [->|Ht].
    + rewrite Hb in E by done. by apply (open_agrees st id c true w).
    + injection E as <- <-. apply agrees_unseen; [done|]. by rewrite Hs0, tcp_view_other.
  - destruct (Z.eqb_spec t ChannelType_TCP_PortForwarding) as [->|Ht].
    + rewrite Hb in E by done. by apply (open_agrees st id c false w).
    + injection E as <- <-. apply agrees_unseen; [done|]. by rewrite Hs0.
Qed.

(** The data of a channel goes out whole, in any number of pieces, or the channel is closed
    after its first part. *)
Lemma send_loop_sends `{!SendLaws net} fuel : forall sock data w, (length data < fuel)%nat ->
  exists b w' p, send_loop fuel sock data w = Ok (b, w') /\ (b = true -> p = data) /\ p `prefix_of` data /\
    sent_at (wk_net w') sock = sent_at (wk_net w) sock ++ p.
Proof.
  induction fuel as [|fuel IH]; intros sock data w Hlen; [lia|]. cbn [send_loop].
  destruct data as [|x data]; [exists true, w, []; by rewrite app_nil_r|]. set (d := x :: data) in *.
  destruct (socket_send (wk_net w) sock d) as [rc n] eqn:E. apply socket_sent_spec in E.
  destruct E as [[Hrc Hs]|[Hrc Hs]].
  - rewrite (proj2 (Z.leb_le _ _)) by done. eexists false, _, []. split; [done|]. split; [done|].
    split; [apply prefix_nil|]. by rewrite app_nil_r.
  - rewrite (proj2 (Z.leb_gt _ _)) by lia.
    destruct (IH sock (drop (Z.to_nat rc) d) { w with wk_net := n }) as (b & w' & p & E & Hb & [q Hq] & Hp);
      [rewrite length_drop; lia|].
    exists b, w', (take (Z.to_nat rc) d ++ p). split; [done|]. split; [intros Ht; by rewrite (Hb Ht), take_drop|].
    split; [|rewrite Hp; change (wk_net { w with wk_net := n }) with n; by rewrite Hs, app_assoc].
    exists q. by rewrite <- app_assoc, <- Hq, take_drop.
Qed.

Lemma channel_data_forwarded `{!SendLaws net} id data w : data <> [] ->
  exists b w' p, tcp_portforwarding_channel_data id data w = Ok (b, w') /\ (b = true -> p = data) /\
    p `prefix_of` data /\ sent_at (wk_net w') (tcp_sock id w) = sent_at (wk_net w) (tcp_sock id w) ++ p.
Proof.
  intros Hne. unfold tcp_portforwarding_channel_data. rewrite bool_decide_eq_false_2 by done. cbn [negb c_assert mbind Res_bind].
  apply send_loop_sends. lia.
Qed.

(** The answers that are recorded are those of the callbacks. *)
Fixpoint consistent (l : list (mux_event * bool)) w : Prop :=
  match l with
  | [] => True
  | (e, b) :: l => forall b' w', tcp_portforwarding_callbacks e w = Ok (b', w') ->
      (is_tcp e = true -> b' = b) /\ consistent l w'
  end.

Definition channel_of (e : mux_event) : option Z :=
  match e with
  | EvChannelOpen _ i _ | EvChannelOpened _ i | EvChannelClose _ i _ | EvChannelData _ i _
  | EvChannelPending _ i | EvChannelResume _ i => Some i
  | EvData _ | EvStateChanged _ => None
  end.

Lemma lifecycle_cons s e b l s' : lifecycle false s ((e, b) :: l) s' ->
  exists m, lifecycle false s [(e, b)] m /\ lifecycle false m l s'.
Proof. intros Hl. inversion Hl; subst; try done; eexists; (split; [|eassumption]); eauto with mux. Qed.

Lemma callbacks_agree l : forall st st' w w', consistent l w ->
  (forall id, lifecycle false (st id) (base.filter (fun p => about id p.1) l) (st' id)) ->
  agrees outside (tcp_of st) w -> run_callbacks l.*1 w = Ok w' -> agrees outside (tcp_of st') w'.
Proof.
  induction l as [|[e b] l IH]; intros st st' w w' Hcon Hl Ha E.
  - injection E as <-. eapply agrees_frame; [exact Ha| |done..]. intros id. unfold tcp_of.
    specialize (Hl id). cbn in Hl. by inversion Hl.
  - cbn [fmap list_fmap run_callbacks fst] in E. apply Res_bind_Ok in E as ([b' w1] & E1 & E).
    destruct (Hcon b' w1 E1) as [Hb Hcon1]. destruct (channel_of e) as [id|] eqn:Hch.
    + assert (about id e) as Hab by (destruct e; cbn in *; congruence).
      pose proof (Hl id) as Hid. rewrite filter_cons_True in Hid by done.
      apply lifecycle_cons in Hid as (m & Hm & Hrest).
      apply (IH (st_set st id m) st' w1 w' Hcon1); [|by eapply callback_agrees|done].
      intros k. unfold st_set. case_decide as Hk; [by subst k|]. pose proof (Hl k) as Hlk.
      rewrite filter_cons_False in Hlk; [done|]. intros Hk'. apply Hk. by eapply about_unique.
    + assert (w1 = w) as -> by (destruct e; cbn in Hch, E1; try done; by injection E1).
      apply (IH st st' w w' Hcon1); [|done|done]. intros k. pose proof (Hl k) as Hlk.
      rewrite filter_cons_False in Hlk; [done|]. by destruct e; try done; intros [].
Qed.

(** ** Calls of the multiplexer *)

Lemma added_app h evs : added h (evs ++ h) = reverse evs.
Proof. unfold added. rewrite length_app, Nat.add_sub. by rewrite take_app_length. Qed.

Lemma run_callbacks_app l1 l2 w : run_callbacks (l1 ++ l2) w = (w1 ← run_callbacks l1 w; run_callbacks l2 w1).
Proof.
  revert w. induction l1 as [|e l1 IH]; intros w; [done|]. cbn [app run_callbacks].
  destruct (tcp_portforwarding_callbacks e w) as [[b w1]|f]; [apply IH|done].
Qed.

Context (user : ChannelApp).

(** The multiplexer was answered what the callbacks answer. *)
Lemma answers_consistent w evs2 : forall evs1 w1, run_callbacks (reverse evs1) w = Ok w1 ->
  consistent (reverse (@answered (pf_app user w) (evs1 ++ mx_events (wk_mux w)) evs2)) w1.
Proof.
  induction evs2 as [|e l IH] using rev_ind; intros evs1 w1 Hr; [done|].
  rewrite answered_app, reverse_app. cbn [answered reverse rev_append app consistent].
  intros b' w' E. split.
  - intros Htcp. assert (pf_answer w (evs1 ++ mx_events (wk_mux w)) e = b') as Hans.
    { unfold pf_answer. rewrite added_app, Hr. cbn [mbind Res_bind]. by rewrite E. }
    destruct e; cbn in Htcp; try done; cbn; by rewrite Htcp, Hans.
  - apply (IH (e :: evs1) w'). rewrite reverse_cons, run_callbacks_app, Hr. cbn. by rewrite E.
Qed.

Definition pf_wf w : Prop := mux_wf (wk_mux w) /\ agrees outside (tcp_of (status_of (wk_mux w))) w.

(** A call that opens no channel from this end. *)
Lemma run_mux_wf {A} op w (a : A) w' : pf_wf w ->
  (forall m', op (pf_app user w) (wk_mux w) = Ok (a, m') -> @evolves _ (pf_app user w) next heap _ _ false (wk_mux w) m') ->
  run_mux user op w = Ok (a, w') -> pf_wf w'.
Proof.
  intros [Hm Ha] Hop E. apply Res_bind_Ok in E as ([a' m] & E1 & E). apply Res_bind_Ok in E as (w1 & E & [= <- <-]).
  destruct (Hop m E1 Hm) as (Hm' & evs & Hevs & Hl). rewrite Hevs, added_app in E. split; [done|].
  apply (agrees_frame outside (tcp_of (status_of m)) _ w1); [|done..]. eapply (callbacks_agree (reverse (@answered (pf_app user w) (mx_events (wk_mux w)) evs))
    _ _ w w1); [|exact Hl|exact Ha|].
  - by apply (answers_consistent w evs [] w).
  - replace ((reverse (@answered (pf_app user w) (mx_events (wk_mux w)) evs)).*1) with (reverse evs); [done|].
    rewrite fmap_reverse, answered_fst. done.
Qed.

(** An open of our own tells nothing; the channel is there if it has a number. *)
Lemma own_channel_spec now type cookie timeout sock (m : MultiplexHandler next heap) cid m' : mux_wf m ->
  multiplex_handler_open_channel now type cookie timeout sock m = Ok (cid, m') ->
  mx_events m' = mx_events m /\
  (cid <= 0 /\ (forall k, status_of m' k = status_of m k) \/
   0 < cid /\ status_of m cid = None /\
     forall k, status_of m' k = if decide (k = cid) then Some (type, ChannelStatus_Opening) else status_of m k).
Proof.
  intros [Hwf1 Hwf2] Hr. unfold multiplex_handler_open_channel in Hr. apply Res_bind_Ok in Hr as (u & _ & Hr).
  destruct (ids_alloc _) as [id ids] eqn:Hids. destruct (Z.ltb_spec id 0) as [Hneg|Hpos].
  { injection Hr as <- <-. split; [done|]. left. split; [by vm_compute|done]. }
  destruct (ids_alloc_spec _ _ _ Hids) as [[? _]|(Hcid & Hfree & _)]; [lia|].
  rewrite u16_small in Hr by (unfold MAX_CHANNEL_ID in *; lia). cbn beta iota zeta in Hr.
  set (ch := if type =? ChannelType_TCP_PortForwarding then _ else _) in Hr.
  assert (ch_id ch = id /\ life_of ch = (type, ChannelStatus_Opening)) as [Hid Hlife]
    by (subst ch; by destruct (type =? ChannelType_TCP_PortForwarding)).
  clearbody ch. apply Res_bind_Ok in Hr as ([c w1] & (n & ->)%send_frame & Hr).
  assert (ht_get (channels m) id = None) as Hnone.
  { destruct (ht_get (channels m) id) eqn:E; [|done]. destruct Hfree. apply Hwf2. by rewrite E. }
  destruct (Z.ltb_spec c 0) as [Hc|Hc]; injection Hr as <- <-; (split; [done|]).
  - left. split; [lia|]. intros k. unfold status_of. cbn. rewrite Hid, ht_get_remove, ht_get_put.
    repeat case_decide; subst; rewrite ?Hnone; done.
  - right. split; [lia|]. split; [unfold status_of; by rewrite Hnone|]. intros k. unfold status_of. cbn.
    rewrite Hid, ht_get_put. repeat case_decide; subst; try done. by rewrite <- Hlife.
Qed.

(** ** The thread *)

Lemma pf_wf_frame w w' : pf_wf w -> wk_mux w' = wk_mux w -> wk_socks w' = wk_socks w ->
  wk_portforwardings w' = wk_portforwardings w -> live (wk_net w') = live (wk_net w) ->
  rfds (wk_fdset w') = rfds (wk_fdset w) -> event (wk_fdset w') = event (wk_fdset w) ->
  wk_pf_ids w' = wk_pf_ids w -> pf_wf w'.
Proof.
  intros [Hm Ha] Hmux Hs Hp Hl Hr He Hi. split; rewrite Hmux; [done|].
  eapply agrees_frame; [exact Ha|done|done..|by rewrite Hi].
Qed.

Lemma channel_handled_wf now id w w' : pf_wf w ->
  handle_tcp_portforwarding_channel user now id w = Ok w' -> pf_wf w'.
Proof.
  intros Hwf E. unfold handle_tcp_portforwarding_channel in E. cbv zeta in E.
  pose proof (socket_recv_spec (wk_net w) (tcp_sock id w) ELA_MAX_USER_DATA_LEN) as Hl.
  destruct (socket_recv _ _ _) as [bytes n]. cbn [snd] in Hl.
  assert (pf_wf { w with wk_net := n }) as Hwf1 by (by eapply pf_wf_frame).
  assert (forall w2, ('(_, w3) ← run_mux user (fun _ => multiplex_handler_close_channel id) { w with wk_net := n }; Ok w3) = Ok w2 ->
    pf_wf w2) as Hclose.
  { intros w2 ([rc w3] & E3 & [= <-])%Res_bind_Ok. eapply (run_mux_wf _ _ rc w3 Hwf1); [|exact E3].
    intros m'. apply close_channel_evolves. }
  destruct bytes as [[|x bytes]|]; [by apply Hclose| |by apply Hclose].
  apply Res_bind_Ok in E as (buf & _ & E). apply Res_bind_Ok in E as ([rc w3] & E & [= <-]).
  eapply (run_mux_wf _ _ rc w3 Hwf1); [|exact E]. intros m'.
  exact (write_evolves false now id _ _ rc m').
Qed.

Lemma accepted_wf now pf w w' : pf_wf w -> handle_tcp_portofrwarding user now pf w = Ok w' -> pf_wf w'.
Proof.
  intros [Hm Ha] E. unfold handle_tcp_portofrwarding in E.
  destruct (socket_accept _ _) as [s n] eqn:Eacc. apply socket_accept_spec in Eacc.
  destruct Eacc as [[Hneg Hn]|(Hpos & Hfree & Hn)].
  { rewrite (proj2 (Z.ltb_lt _ _)) in E by done. injection E as <-. by apply (pf_wf_frame w). }
  rewrite (proj2 (Z.ltb_ge _ _)) in E by done. destruct (agrees_new _ w n s Ha Hfree Hn) as [Ha1 Hs].
  pose proof (ag_event _ _ _ Ha) as He.
  apply Res_bind_Ok in E as ([cid w1] & E1 & [= <-]). apply Res_bind_Ok in E1 as ([c m] & E1 & E2).
  pose proof (open_channel_evolves true _ _ _ _ _ (wk_mux w) eq_refl _ _ E1 Hm) as [Hm' _].
  apply own_channel_spec in E1 as [Hev Hcid]; [|exact Hm].
  change (wk_mux { w with wk_net := n }) with (wk_mux w) in E2. rewrite Hev in E2.
  unfold added in E2. rewrite Nat.sub_diag in E2. cbn [take reverse run_callbacks mbind Res_bind] in E2.
  injection E2 as <- <-.
  destruct Hcid as [[Hc Hst]|(Hc & Hnone & Hst)].
  - rewrite (proj2 (Z.leb_le _ _)) by done. split; [done|].
    pose proof (agrees_close_aside _ _ _ Ha1 Hs He) as Ha2. eapply agrees_frame; [exact Ha2|..]; try done.
    intros id. unfold tcp_of. cbn. by rewrite Hst.
  - rewrite (proj2 (Z.leb_gt _ _)) by done. split; [done|].
    assert (agrees outside (tcp_of (status_of m)) { { w with wk_net := n } with wk_socks ::= <[c := s]> }) as Ha2.
    { eapply agrees_adopt; [exact Ha1|done|done| |].
      - exact (f_equal tcp_view Hnone).
      - intros k. unfold tcp_of. rewrite Hst. by case_decide. }
    by eapply agrees_frame.
Qed.

Lemma scan_channels_wf nfds : forall now ready w r, pf_wf w -> scan_channels user nfds now ready w = Ok r -> pf_wf r.2.
Proof.
  induction nfds as [|n IH]; intros now ready w r Hwf E; cbn [scan_channels] in E; [by injection E as <-|].
  apply Res_bind_Ok in E as ([ch|] & _ & E); [|by injection E as <-].
  apply Res_bind_Ok in E as (w1 & E1 & E). eapply IH; [|exact E]. by eapply channel_handled_wf.
Qed.

Lemma scan_portforwardings_wf now l : forall nfds ready w w', pf_wf w ->
  scan_portforwardings user nfds now ready l w = Ok w' -> pf_wf w'.
Proof.
  induction l as [|pf l IH]; intros nfds ready w w' Hwf E; destruct nfds as [|n]; cbn [scan_portforwardings] in E;
    try by injection E as <-.
  apply Res_bind_Ok in E as (set & _ & E). destruct (negb set); [by eapply IH|].
  apply Res_bind_Ok in E as (w1 & E1 & E). eapply IH; [|exact E].
  destruct (_ =? _); [by eapply accepted_wf|by injection E1 as <-].
Qed.

Lemma worker_round_wf now sel w w' : pf_wf w -> worker_round user now sel w = Ok w' -> pf_wf w'.
Proof.
  intros Hwf E. unfold worker_round in E. destruct (negb _); [by injection E as <-|].
  destruct sel as [error|ready]; [destruct (_ =? _); injection E as <-; [done|by apply (pf_wf_frame w)]|].
  assert (pf_wf { w with wk_fdset ::= fdset_drop_wakeup }) as Hdrop by (by apply (pf_wf_frame w)).
  destruct (_ && _); cbv iota beta in E; apply Res_bind_Ok in E as ([[nfds ready'] w1] & E1 & E);
    (eapply scan_portforwardings_wf; [|exact E]); (apply scan_channels_wf in E1; [exact E1|done]).
Qed.

(** ** Forwardings *)

Lemma forwarding_opened_wf service protocol host port w rc w' : pf_wf w ->
  portforwarding_open service protocol host port w = Ok (rc, w') -> pf_wf w'.
Proof.
  intros [Hm Ha] E. unfold portforwarding_open in E. apply Res_bind_Ok in E as (u & _ & E). cbv zeta in E.
  destruct (socket_create _ _ _) as [s n] eqn:Ec. apply socket_create_spec in Ec.
  destruct Ec as [[-> Hn]|(Hpos & Hfree & Hn)].
  { injection E as <- <-. by apply (pf_wf_frame w). }
  rewrite (proj2 (Z.eqb_neq _ _)) in E by (unfold INVALID_SOCKET; lia).
  destruct (agrees_new _ w n s Ha Hfree Hn) as [Ha1 Hs]. pose proof (ag_event _ _ _ Ha) as He.
  pose proof (socket_listen_spec n s) as Hl. change (wk_net { w with wk_net := n }) with n in E.
  destruct (socket_listen n s) as [rcl n1]. cbn [snd] in Hl.
  assert (agrees ({[s]} ∪ outside) (tcp_of (status_of (wk_mux w))) { { w with wk_net := n } with wk_net := n1 }) as Ha2
    by (by eapply agrees_frame).
  assert (forall pf w1, pf_sock pf = s -> agrees ({[s]} ∪ outside) (tcp_of (status_of (wk_mux w))) w1 ->
    wk_mux w1 = wk_mux w -> event (wk_fdset w1) ∈ outside -> pf_wf (portforwarding_destroy pf w1)) as Hclose.
  { intros pf w1 Hpf Ha3 Hmux He1. unfold portforwarding_destroy. rewrite Hpf.
    rewrite (proj2 (Z.eqb_neq _ _)) by (unfold INVALID_SOCKET; lia). cbn [negb].
    assert (wk_mux (close_socket s w1) = wk_mux w) as Hmux1 by done.
    split; rewrite Hmux1; [done|]. by apply agrees_close_aside. }
  destruct (rcl <? 0); [injection E as <- <-; by apply Hclose|].
  destruct (ids_alloc _) as [id ids] eqn:Hids. pose proof (ids_alloc_spec _ _ _ Hids) as Hspec.
  destruct (Z.ltb_spec id 0) as [Hneg|Hid].
  { destruct Hspec as [[_ Hsame]|[? _]]; [|lia]. injection E as <- <-. apply Hclose; try done. by eapply agrees_frame. }
  destruct Hspec as [[? _]|(_ & Hidfree & Hused)]; [lia|].
  apply Res_bind_Ok in E as (w1 & (f & Ef & ->)%on_fdset_inv & [= <- <-]).
  apply fdset_add_spec in Ef as [Hev Hr]; [|done].
  match goal with |- pf_wf ?x => assert (wk_mux x = wk_mux w) as Hmux by done; split; rewrite Hmux; [done|] end.
  eapply (agrees_listen _ _ _ id {| pf_id := id; pf_protocol := protocol; pf_sock := s; pf_service := service |});
    [exact Ha2|done|done| |done|done|done|done|done|done].
  apply (ag_ids _ _ _ Ha) in Hidfree || idtac.
  destruct (ht_get (wk_portforwardings w) id) eqn:Hget; [|exact Hget].
  destruct Hidfree. apply (ag_ids _ _ _ Ha). by rewrite Hget.
Qed.

Lemma forwarding_closed_wf pfid w w' : pf_wf w -> portforwarding_close pfid w = Ok w' -> pf_wf w'.
Proof.
  intros [Hm Ha] E. unfold portforwarding_close in E. apply Res_bind_Ok in E as (u & _ & E).
  destruct (ht_get _ pfid) as [pf|] eqn:Hget; [|by injection E as <-].
  apply Res_bind_Ok in E as (u' & _ & E). apply Res_bind_Ok in E as (w1 & (f & Ef & ->)%on_fdset_inv & [= <-]).
  assert (owns outside w (Listening pfid) (pf_sock pf)) as Ho by (cbn; by rewrite Hget).
  apply fdset_remove_spec in Ef as [Hev Hr]; [|by eapply owned_live].
  match goal with |- pf_wf ?x => set (w' := x) end. split; [done|]. change (wk_mux w') with (wk_mux w).
  assert (wk_portforwardings w' = ht_remove pfid (wk_portforwardings w)) as Hpf by done.
  eapply (agrees_release _ _ w w' (Listening pfid) (pf_sock pf) Ha Ho); try done.
  - apply (ag_socks _ _ _ Ha).
  - intros [|k|k] x; [by split; [|intros [? _]]..|]. cbn [owns]. rewrite Hpf, ht_get_remove.
    case_decide as Hk; [subst k; cbn; naive_solver|]. naive_solver.
  - apply socket_close_spec.
  - intros k. change (wk_pf_ids w') with (ids_free (wk_pf_ids w) pfid).
    rewrite ids_free_spec, Hpf, elem_of_difference, elem_of_singleton, (ag_ids _ _ _ Ha), ht_get_remove.
    case_decide as Hk; [subst k; split; [by intros [_ []]|by intros []]|]. naive_solver.
Qed.

(** ** Everything that happens to a worker *)

Inductive pf_op :=
| PfMux (op : mux_op)
| PfServices (services : option (hashtable string Service))
| PfStart (rc : Z)
| PfBegins
| PfStop
| PfRound (now : timeval) (sel : selected)
| PfOpen (service : string) (protocol : Z) (host port : string)
| PfClose (pfid : Z).

Definition pf_step (op : pf_op) w : Res Worker :=
  match op with
  | PfMux op => '(_, w) ← run_mux user (fun app m => m ← @mux_step _ _ app next heap _ _ op m; Ok (tt, m)) w; Ok w
  | PfServices services => Ok { w with wk_services := services }
  | PfStart rc => Ok (portforwarding_worker_start rc w).2
  | PfBegins => Ok (worker_begins w)
  | PfStop => portforwarding_worker_stop w
  | PfRound now sel => worker_round user now sel w
  | PfOpen service protocol host port => '(_, w) ← portforwarding_open service protocol host port w; Ok w
  | PfClose pfid => portforwarding_close pfid w
  end.

(** TCP channels are opened from this end by the worker only. *)
Definition op_ok (op : pf_op) : Prop :=
  match op with PfMux (MuxOpen _ type _ _ _) => type <> ChannelType_TCP_PortForwarding | _ => True end.

Fixpoint pf_run (ops : list pf_op) w : Res Worker :=
  match ops with [] => Ok w | op :: ops => w ← pf_step op w; pf_run ops w end.

Lemma user_open_wf now type cookie timeout sock w w' : type <> ChannelType_TCP_PortForwarding -> pf_wf w ->
  pf_step (PfMux (MuxOpen now type cookie timeout sock)) w = Ok w' -> pf_wf w'.
Proof.
  intros Ht [Hm Ha] E. cbn [pf_step] in E. apply Res_bind_Ok in E as ([u w1] & E1 & [= <-]).
  apply Res_bind_Ok in E1 as ([u1 m] & E1 & E2). apply Res_bind_Ok in E1 as (m1 & E1 & [= <- <-]).
  cbn [mux_step] in E1. apply Res_bind_Ok in E1 as ([cid m2] & E1 & [= <-]).
  pose proof (open_channel_evolves true _ _ _ _ _ (wk_mux w) eq_refl _ _ E1 Hm) as [Hm' _].
  apply own_channel_spec in E1 as [Hev Hcid]; [|exact Hm]. rewrite Hev in E2. unfold added in E2.
  rewrite Nat.sub_diag in E2. cbn [take reverse run_callbacks mbind Res_bind] in E2. injection E2 as <- <-.
  split; [done|]. eapply agrees_frame; [exact Ha|..]; try done. intros id. unfold tcp_of. cbn [wk_mux].
  change (wk_mux { w with wk_mux := m2 }) with m2.
  destruct Hcid as [[_ Hst]|(_ & Hnone & Hst)]; rewrite Hst; [done|]. case_decide as Hk; [|done].
  subst id. by rewrite Hnone, tcp_view_other.
Qed.

Lemma stop_wf w w' : pf_wf w -> portforwarding_worker_stop w = Ok w' -> pf_wf w'.
Proof.
  intros Hwf E. unfold portforwarding_worker_stop in E. cbv zeta in E.
  destruct (wk_thread _); try done. injection E as <-. by apply (pf_wf_frame w).
Qed.

Lemma pf_step_wf op w w' : op_ok op -> pf_wf w -> pf_step op w = Ok w' -> pf_wf w'.
Proof.
  intros Hok Hwf E. destruct op as [op|services|rc| | |now sel|service protocol host port|pfid].
  - destruct (opens op) eqn:Hop; [destruct op; try done; by eapply user_open_wf|]. cbn [pf_step] in E.
    apply Res_bind_Ok in E as ([u w1] & E & [= <-]). eapply (run_mux_wf _ w u w1 Hwf); [|exact E].
    intros m' (m1 & E1 & [= <- <-])%Res_bind_Ok. eapply (step_evolves false op); [by rewrite Hop|exact E1].
  - injection E as <-. by apply (pf_wf_frame w).
  - cbn in E. unfold portforwarding_worker_start in E. destruct (negb _); injection E as <-; [done|by apply (pf_wf_frame w)].
  - injection E as <-. by apply (pf_wf_frame w).
  - by eapply stop_wf.
  - by eapply worker_round_wf.
  - cbn [pf_step] in E. apply Res_bind_Ok in E as ([rc w1] & E & [= <-]). by eapply forwarding_opened_wf.
  - by eapply forwarding_closed_wf.
Qed.

Lemma pf_run_wf ops : forall w w', Forall op_ok ops -> pf_wf w -> pf_run ops w = Ok w' -> pf_wf w'.
Proof.
  induction ops as [|op ops IH]; intros w w' Hok Hwf E; [by injection E as <-|].
  apply Forall_cons in Hok as [Hop Hok]. cbn [pf_run] in E. apply Res_bind_Ok in E as (w1 & E1 & E).
  eapply IH; [done| |exact E]. by eapply pf_step_wf.
Qed.

Lemma stop_closes error w w' : pf_wf w -> pf_step (PfMux (MuxStop error)) w = Ok w' ->
  forall id, status_of (wk_mux w') id = None.
Proof.
  intros [Hm _] E id. cbn [pf_step] in E. apply Res_bind_Ok in E as ([u w1] & E & [= <-]).
  apply Res_bind_Ok in E as ([u1 m] & E1 & E). apply Res_bind_Ok in E1 as (m1 & E1 & [= <- <-]).
  apply Res_bind_Ok in E as (w2 & _ & [= <- <-]). injection E1 as <-.
  destruct (@close_channels_spec _ _ user next heap _ _ true CloseReason_Normal (wk_mux w) Hm) as (_ & _ & Hnone).
  change (life_of <$> ht_get (channels (multiplex_handler_close_channels CloseReason_Normal (wk_mux w))) id = None).
  by rewrite Hnone.
Qed.

(** The listening sockets are closed with the worker, and the descriptor of the events. *)
Lemma forwardings_destroyed l : forall w, (forall pf, pf ∈ l -> pf_sock pf <> INVALID_SOCKET) ->
  let w' := foldl (fun w pf => portforwarding_destroy pf w) w l in
  wk_fdset w' = wk_fdset w /\ forall x, x ∈ live (wk_net w') <-> x ∈ live (wk_net w) /\ x ∉ pf_sock <$> l.
Proof.
  induction l as [|pf l IH]; intros w Hall; [cbn; set_solver|]. cbn [foldl fmap list_fmap]. cbv zeta.
  destruct (IH (portforwarding_destroy pf w)) as [-> Hl]; [intros; apply Hall; by right|].
  setoid_rewrite Hl. unfold portforwarding_destroy.
  rewrite (proj2 (Z.eqb_neq _ _)) by (apply Hall; by left). cbn [negb]. split; [done|]. intros x.
  change (wk_net (close_socket (pf_sock pf) w)) with (socket_close (wk_net w) (pf_sock pf)).
  rewrite socket_close_spec, elem_of_difference, elem_of_singleton, not_elem_of_cons. naive_solver.
Qed.

Lemma destroy_live w : pf_wf w -> forall s,
  s ∈ live (wk_net (portforwarding_worker_destroy w)) <->
  s <> event (wk_fdset w) /\ (s ∈ outside \/ exists id, wk_socks w !! id = Some s).
Proof.
  intros [_ Ha] s. unfold portforwarding_worker_destroy.
  assert (forall x, x ∈ pf_sock <$> (ht_items (wk_portforwardings w)).*2 <-> exists id, owns outside w (Listening id) x) as Hin.
  { intros x. rewrite list_elem_of_fmap. setoid_rewrite list_elem_of_fmap. cbn. split.
    - intros (pf & -> & [k pf'] & -> & Hk%ht_items_get). exists k. by rewrite Hk.
    - intros (k & Hk). destruct (ht_get _ k) as [pf|] eqn:E; [|done]. injection Hk as <-. exists pf. split; [done|].
      exists (k, pf). split; [done|]. by apply ht_items_get. }
  destruct (forwardings_destroyed (ht_items (wk_portforwardings w)).*2 w) as [Hfd Hlive].
  { intros pf Hpf. assert (pf_sock pf ∈ pf_sock <$> (ht_items (wk_portforwardings w)).*2) as [k Hk]%Hin
      by (by apply list_elem_of_fmap_2). apply (owned_live _ _ _ _ Ha) in Hk. unfold INVALID_SOCKET. lia. }
  set (w' := foldl _ w _) in *. unfold fdset_destroy. rewrite Hfd.
  rewrite (proj2 (Z.eqb_neq _ _)) by (unfold INVALID_SOCKET; pose proof (owned_live _ _ Outside _ Ha (ag_event _ _ _ Ha)); lia).
  cbn [negb wk_net]. match goal with |- s ∈ live ?x <-> _ => change x with (socket_close (wk_net w') (event (wk_fdset w))) end.
  rewrite socket_close_spec, elem_of_difference, elem_of_singleton, Hlive, Hin, (ag_live _ _ _ Ha). split.
  - intros [[[[|id|id] Ho] Hno] Hne]; (split; [done|]); [by left|right; by exists id|]. destruct Hno. by exists id.
  - intros [Hne [Ho|[id Ho]]]; (split; [split; [|intros [k Hk]]|done]).
    + by exists Outside.
    + by pose proof (ag_one _ _ _ Ha Outside (Listening k) s Ho Hk).
    + by exists (OfChannel id).
    + by pose proof (ag_one _ _ _ Ha (OfChannel id) (Listening k) s Ho Hk).
Qed.

End Steps.

(** ** The descriptor of the events *)

Section Event.
Context (user : ChannelApp) (ev : Z).

(** The thread waits for the descriptor of the events [ev]. *)
Definition wakes w : Prop := event (wk_fdset w) = ev.

Ltac on_event :=
  repeat match goal with
  | H : mbind _ _ = Ok _ |- _ => apply Res_bind_Ok in H as (? & ? & H)
  | H : _ * _ |- _ => destruct H as [? ?]
  | H : Ok _ = Ok _ |- _ => injection H as H; subst
  | H : context [let '(_, _) := ?e in _] |- _ => destruct e as [? ?] eqn:?
  | H : (if ?b then _ else _) = Ok _ |- _ => destruct b eqn:?
  | H : match ?e with Some _ => _ | None => _ end = Ok _ |- _ => destruct e eqn:?
  end; try done.

Lemma on_fdset_wakes f w w' : (forall s s', f s = Ok s' -> event s' = event s) ->
  on_fdset f w = Ok w' -> wakes w -> wakes w'.
Proof. intros Hf (s & E & ->)%on_fdset_inv Hw. unfold wakes. cbn. by rewrite (Hf _ _ E). Qed.

Lemma added_wakes sock w w' : on_fdset (fdset_add_socket sock) w = Ok w' -> wakes w -> wakes w'.
Proof.
  apply on_fdset_wakes. unfold fdset_add_socket. intros s s' E. destruct (_ =? _); [by injection E as <-|].
  apply Res_bind_Ok in E as (b & _ & [= <-]). by destruct b.
Qed.

Lemma removed_wakes sock w w' : on_fdset (fdset_remove_socket sock) w = Ok w' -> wakes w -> wakes w'.
Proof.
  apply on_fdset_wakes. unfold fdset_remove_socket. intros s s' E. destruct (_ =? _); [by injection E as <-|].
  apply Res_bind_Ok in E as (b & _ & [= <-]). by destruct b.
Qed.

Lemma send_loop_wakes fuel sock : forall data w r, send_loop fuel sock data w = Ok r -> wakes w -> wakes r.2.
Proof.
  induction fuel as [|fuel IH]; intros data w r E Hw; [done|]. cbn [send_loop] in E.
  destruct data as [|b data]; [by injection E as <-|]. destruct (socket_send _ _ _) as [rc n].
  destruct (rc <=? 0); [by injection E as <-|]. by eapply IH.
Qed.

Lemma callbacks_wakes e w r : tcp_portforwarding_callbacks e w = Ok r -> wakes w -> wakes r.2.
Proof.
  intros E Hw. destruct e; cbn [tcp_portforwarding_callbacks] in E; cbv zeta in E;
    unfold tcp_portforwarding_channel_open, tcp_portforwarding_channel_opened, tcp_portforwarding_channel_close,
      tcp_portforwarding_channel_data, tcp_portforwarding_channel_pending, tcp_portforwarding_channel_resume in E; on_event.
  - by eapply added_wakes.
  - match goal with H : on_fdset _ _ = Ok _ |- _ => by apply removed_wakes in H end.
  - eapply (send_loop_wakes _ _ _ _ (b, _)); eassumption.
  - by eapply removed_wakes.
  - by eapply added_wakes.
Qed.

Lemma run_callbacks_wakes es : forall w w', run_callbacks es w = Ok w' -> wakes w -> wakes w'.
Proof.
  induction es as [|e es IH]; intros w w' E Hw; [by injection E as <-|]. cbn [run_callbacks] in E.
  apply Res_bind_Ok in E as ([b w1] & E1 & E). apply callbacks_wakes in E1; [|done]. by eapply IH.
Qed.

Lemma run_mux_wakes {A} op w (r : A * Worker) : run_mux user op w = Ok r -> wakes w -> wakes r.2.
Proof.
  intros E Hw. apply Res_bind_Ok in E as ([a m] & _ & E). apply Res_bind_Ok in E as (w1 & E1 & [= <-]).
  by apply run_callbacks_wakes in E1.
Qed.

Lemma scan_channels_wakes now nfds : forall ready w r,
  scan_channels user nfds now ready w = Ok r -> wakes w -> wakes r.2.
Proof.
  induction nfds as [|n IH]; intros ready w r E Hw; cbn [scan_channels] in E; [by injection E as <-|].
  apply Res_bind_Ok in E as ([ch|] & _ & E); [|by injection E as <-]. apply Res_bind_Ok in E as (w1 & E1 & E).
  apply IH in E; [done|]. unfold handle_tcp_portforwarding_channel in E1. cbv zeta in E1.
  destruct (socket_recv _ _ _) as [[[|b bytes]|] n1]; on_event;
    match goal with H : run_mux _ _ _ = Ok _ |- _ => by apply run_mux_wakes in H end.
Qed.

Lemma scan_portforwardings_wakes now l : forall nfds ready w w',
  scan_portforwardings user nfds now ready l w = Ok w' -> wakes w -> wakes w'.
Proof.
  induction l as [|pf l IH]; intros nfds ready w w' E Hw; destruct nfds as [|n]; cbn [scan_portforwardings] in E;
    try by injection E as <-.
  apply Res_bind_Ok in E as (b & _ & E). destruct (negb b); [by eapply IH|].
  apply Res_bind_Ok in E as (w1 & E1 & E). apply IH in E; [done|]. unfold handle_tcp_portofrwarding in E1. cbv zeta in E1.
  on_event. match goal with H : run_mux _ _ _ = Ok _ |- _ => apply run_mux_wakes in H; [|done] end. by destruct (_ <=? _).
Qed.

Lemma pf_step_wakes op w w' : pf_step user op w = Ok w' -> wakes w -> wakes w'.
Proof.
  intros E Hw. destruct op; cbn [pf_step] in E;
    unfold portforwarding_worker_start, portforwarding_worker_stop, worker_round, portforwarding_open, portforwarding_close in E;
    cbv zeta in E; on_event.
  - match goal with H : run_mux _ _ _ = Ok _ |- _ => by apply run_mux_wakes in H end.
  - by destruct (negb _).
  - destruct (wk_thread _); try done. by injection E as <-.
  - destruct sel as [error|ready]; on_event; [by destruct (_ =? _)|].
    eapply scan_portforwardings_wakes; [done|].
    match goal with H : scan_channels _ _ _ _ _ = _ |- _ => apply scan_channels_wakes in H; [exact H|] end.
    match goal with H : (if ?b then _ else _) = _ |- _ => destruct b end; simplify_eq; done.
  - unfold portforwarding_destroy. by destruct (negb _).
  - unfold portforwarding_destroy. by destruct (negb _).
  - match goal with H : on_fdset _ _ = Ok _ |- _ => by apply added_wakes in H end.
  - match goal with H : on_fdset _ _ = Ok _ |- _ => by apply removed_wakes in H end.
Qed.

Lemma pf_run_wakes ops : forall w w', pf_run user ops w = Ok w' -> wakes w -> wakes w'.
Proof.
  induction ops as [|op ops IH]; intros w w' E Hw; [by injection E as <-|]. cbn [pf_run] in E.
  apply Res_bind_Ok in E as (w1 & E1 & E). eapply IH; [exact E|]. by eapply pf_step_wakes.
Qed.
End Event.

Lemma created_wf fd errno pids services (n : net) (nx : next) ids reliable w :
  fd ∈ live n -> ids_used ids = ∅ -> ids_used pids = ∅ ->
  portforwarding_worker_create fd errno pids services n (multiplex_handler_create reliable true nx ids) = Ok (inr w) ->
  pf_wf (live n) w.
Proof.
  intros Hfd Hids Hpids E. unfold portforwarding_worker_create in E. apply Res_bind_Ok in E as ([?|f] & E1 & E); [done|].
  injection E as <-. unfold fdset_init in E1. destruct (fd <? 0); [done|]. apply Res_bind_Ok in E1 as (u & _ & [= <-]).
  split; [by apply create_wf|].
  assert (forall id, tcp_of (status_of (multiplex_handler_create reliable true nx ids)) id = None) as Htv
    by (intros id; unfold tcp_of, status_of; cbn; by rewrite ht_get_empty).
  assert (forall o s, owns (live n)
    {| wk_mux := multiplex_handler_create reliable true nx ids; wk_services := services;
       wk_fdset := {| rfds := {[fd]}; event := fd; woken := false |}; wk_thread := ThreadNone; wk_running := false;
       wk_portforwardings := ht_empty; wk_pf_ids := pids; wk_socks := ∅; wk_net := n |} o s <->
    o = Outside /\ s ∈ live n) as Ho.
  { intros [|k|k] s; cbn; [naive_solver|rewrite lookup_empty; naive_solver|rewrite ht_get_empty; cbn; naive_solver]. }
  split; cbn [wk_socks wk_net wk_fdset rfds event wk_pf_ids wk_portforwardings wk_mux].
  - intros id. rewrite Htv, lookup_empty. done.
  - intros o o' s [-> _]%Ho [-> _]%Ho. done.
  - intros s. setoid_rewrite Ho. naive_solver.
  - intros s. rewrite elem_of_singleton. setoid_rewrite Ho. split.
    + intros ->. by exists Outside.
    + by intros (o & [-> _] & E).
  - done.
  - intros id. rewrite Hpids, ht_get_empty. set_solver.
Qed.

(** C30. No socket is lost, and none is used by two.  From the creation of a worker, whatever
    is forwarded, opened, closed, sent and accepted, whatever the peer sends, whatever the
    rounds of the thread find and whatever fails: a descriptor is open exactly if it was
    open when the worker was made, as that of the events was, or is that of one forwarding
    or of one TCP channel in the table of the multiplexer; [select] waits for exactly the event descriptor, the listening sockets and
    the sockets of the channels that are open and not paused by the peer.  When the channels
    are closed with the stream and the worker is released, what is open is exactly what was
    then, without the descriptor of the events: that one is closed too, and nothing else. *)
Theorem sockets_accounted (user : ChannelApp) fd errno pids services (n : net) (nx : next) ids reliable ops w0 w :
  fd ∈ live n -> ids_used ids = ∅ -> ids_used pids = ∅ ->
  portforwarding_worker_create fd errno pids services n (multiplex_handler_create reliable true nx ids) = Ok (inr w0) ->
  Forall op_ok ops -> pf_run user ops w0 = Ok w ->
  let channel id st := exists ch, ht_get (channels (wk_mux w)) id = Some ch /\
    ch_type ch = ChannelType_TCP_PortForwarding /\ ch_status ch = st in
  (forall s, s ∈ live (wk_net w) <-> exists o, owns (live n) w o s) /\
  (forall o o' s, owns (live n) w o s -> owns (live n) w o' s -> o = o') /\
  (forall id, is_Some (wk_socks w !! id) <-> exists st, channel id st) /\
  (forall s, s ∈ rfds (wk_fdset w) <-> s = event (wk_fdset w) \/ (exists id, owns (live n) w (Listening id) s) \/
     exists id, wk_socks w !! id = Some s /\ channel id ChannelStatus_Open) /\
  forall error w', pf_step user (PfMux (MuxStop error)) w = Ok w' ->
    live (wk_net (portforwarding_worker_destroy w')) = live n ∖ {[fd]}.
Proof.
  intros Hfd Hids Hpids Ec Hok E. cbv zeta.
  pose proof (created_wf _ _ _ _ _ _ _ _ _ Hfd Hids Hpids Ec) as Hwf0.
  pose proof (pf_run_wf (live n) user ops w0 w Hok Hwf0 E) as Hwf. pose proof Hwf as [_ Ha].
  assert (forall id st, tcp_of (status_of (wk_mux w)) id = Some st <->
    exists ch, ht_get (channels (wk_mux w)) id = Some ch /\ ch_type ch = ChannelType_TCP_PortForwarding /\ ch_status ch = st)
    as Htv.
  { intros id st. unfold tcp_of, status_of. destruct (ht_get _ id) as [ch|]; cbn; [|naive_solver].
    destruct (Z.eqb_spec (ch_type ch) ChannelType_TCP_PortForwarding); naive_solver. }
  split; [apply (ag_live _ _ _ Ha)|]. split; [apply (ag_one _ _ _ Ha)|]. split; [|split].
  - intros id. rewrite (ag_socks _ _ _ Ha). setoid_rewrite <- Htv. done.
  - intros s. rewrite (ag_fdset _ _ _ Ha). setoid_rewrite <- Htv. split.
    + intros ([|id|id] & Ho & Hw); [by left|right; right; by exists id|right; left; by exists id].
    + intros [->|[[id Ho]|[id [Ho Hw]]]]; [exists Outside|by exists (Listening id)|by exists (OfChannel id)].
      split; [apply (ag_event _ _ _ Ha)|done].
  - intros error w' Es. pose proof (pf_step_wf (live n) user (PfMux (MuxStop error)) w w' I Hwf Es) as Hwf'.
    assert (wakes fd w0) as Hfd0.
    { unfold portforwarding_worker_create, fdset_init in Ec. destruct (fd <? 0); [done|].
      apply Res_bind_Ok in Ec as ([?|f] & Ef & Ec); apply Res_bind_Ok in Ef as (u & _ & [= <-]). by injection Ec as <-. }
    apply (pf_run_wakes user fd ops w0 w E), (pf_step_wakes user fd _ _ _ Es) in Hfd0. unfold wakes in Hfd0.
    apply set_eq. intros s. rewrite (destroy_live (live n) w' Hwf'), Hfd0, elem_of_difference, elem_of_singleton.
    split; [|by intros [? ?]; split; [|left]].
    intros [? [?|[id Hid]]]; [done|]. destruct Hwf' as [_ Ha'].
    destruct (proj1 (ag_socks _ _ _ Ha' id)) as [st Hst]; [by rewrite Hid|].
    pose proof (stop_closes (live n) user error w w' Hwf Es id) as Hno. unfold tcp_of in Hst. by rewrite Hno in Hst.
Qed.
End Inv.
