(* ===== verification/PortForwardSample.v ===== *)
(** * Concrete port forwarding

    A system that gives every connection the least free descriptor; a worker that forwards a
    port and serves a service while the peer opens, uses and pauses a channel, and the
    theorem on its sockets evaluated.  Then the calls and packets that end the process.
    Nothing of the code is modelled here. *)

From S2P Require Import Prelude ElaError Carrier Sample FlexBuffer Multiplex MultiplexProps MultiplexInv MuxSample Session PortForward PortForwardInv.

(** ** A system *)

Definition fresh_fd (n : gset Z) : Z := default (-1) (head (base.filter (fun i => i ∉ n) (seqZ 3 2000))).
Definition opened_fd (n : gset Z) : Z * gset Z :=
  let s := fresh_fd n in if s =? -1 then (-1, n) else (s, {[s]} ∪ n).

#[export] Instance fd_table : Sockets (gset Z) := {
  socket_connect n _ _ := opened_fd n;
  socket_create n _ _ := opened_fd n;
  socket_listen n _ := (0, n);
  socket_accept n _ := opened_fd n;
  socket_send n _ d := (Z.of_nat (length d), n);
  socket_recv n _ _ := (Some (String.list_byte_of_string "hello"), n);
  socket_close n s := n ∖ {[s]};
  socket_errno _ := 24
}.

Lemma opened_fd_spec (n : gset Z) s n' : opened_fd n = (s, n') ->
  s = -1 /\ n' = n \/ 0 <= s /\ (s ∉ n) /\ n' = {[s]} ∪ n.
Proof.
  unfold opened_fd. destruct (Z.eqb_spec (fresh_fd n) (-1)) as [E|E]; intros [= <- <-]; [by left|]. right.
  unfold fresh_fd in *. destruct (base.filter _ _) as [|i l] eqn:F; [done|]. cbn in *.
  assert (i ∈ i :: l) as Hi by left. rewrite <- F in Hi. apply list_elem_of_filter in Hi as [Hn Hi].
  apply elem_of_seqZ in Hi. split; [lia|]. by split.
Qed.

#[export] Instance fd_table_laws : SocketsLaws (gset Z).
Proof.
  assert (forall (n : gset Z) s n', opened_fd n = (s, n') ->
    s = INVALID_SOCKET /\ base.filter (fun i => 0 <= i) n' = base.filter (fun i => 0 <= i) n \/
    0 <= s /\ (s ∉ base.filter (fun i => 0 <= i) n) /\
      base.filter (fun i => 0 <= i) n' = {[s]} ∪ base.filter (fun i => 0 <= i) n) as Hfd.
  { intros n s n' [[-> ->]|(Hs & Hn & ->)]%opened_fd_spec; [by left|right]. split; [done|].
    split; [set_solver|]. apply set_eq. intros x. rewrite elem_of_filter, !elem_of_union, elem_of_filter, elem_of_singleton.
    naive_solver. }
  refine {| live n := base.filter (fun i => 0 <= i) n |}; try done.
  - intros n s Hs. by apply elem_of_filter in Hs as [? _].
  - intros n h p s n' E. by apply Hfd.
  - intros n h p s n' E. by apply Hfd.
  - intros n l s n' E. apply Hfd in E as [[E1 E2]|E]; [left; by rewrite E1|by right].
  - intros n s. apply set_eq. intros x. cbn. rewrite elem_of_filter, !elem_of_difference, elem_of_filter. tauto.
Defined.

(** ** A worker *)

Definition worker : Type := @PortForwardingWorker gmap_HashTables (list (list byte)) (gset Z) (gset Z) (gset Z).

Definition web : Service := {| svc_name := "web"; svc_host := "localhost"; svc_port := "80"; svc_protocol := PortForwardingProtocol_TCP |}.
Definition before : gset Z := {[0; 1; 2; 3]}.
Definition bare_mux : sample_mux := multiplex_handler_create true true [] ∅.

Definition made_worker : Res (Z + worker) :=
  portforwarding_worker_create 3 0 ∅ (Some (ht_put "web" web ht_empty)) before bare_mux.

Definition from_peer (l : list byte) : pf_op := PfMux (MuxData (at_sec 10) (flex_at [] l [])).
Definition open_web : pf_op := from_peer (frame PacketType_ChannelOpen ChannelType_TCP_PortForwarding 7 0 (c_bytes "web")).

(** A port is forwarded and gets a connection, the peer opens a channel to the service,
    sends, and pauses it; the other channel is opened by the peer. *)
Definition sample_ops : list pf_op := [
  PfStart 0; PfBegins; PfOpen "ssh" PortForwardingProtocol_TCP "127.0.0.1" "2222"; open_web;
  PfRound (at_sec 11) (SelectReady {[4]});
  from_peer (frame PacketType_ChannelOpenConfirmation 0 8 2 []);
  from_peer (frame PacketType_ChannelData 0 7 1 (String.list_byte_of_string "GET"));
  PfRound (at_sec 12) (SelectReady {[5; 6]});
  from_peer (frame PacketType_ChannelPending 0 7 1 []) ].

Definition run_worker (ops : list pf_op) : Res worker :=
  r ← made_worker; match r with inr w => pf_run all_accepted ops w | inl _ => Fault Diverges end.

Example worker_runs : exists w, run_worker sample_ops = Ok w /\
  elements (wk_net w) = elements (before ∪ {[4; 5; 6]}) /\
  wk_socks w = {[1 := 5; 2 := 6]} /\ rfds (wk_fdset w) = {[3; 4; 6]} /\
  pf_sock <$> ht_get (wk_portforwardings w) 1 = Some 4.
Proof. eexists. split; [vm_compute; reflexivity|]. repeat split; by vm_compute. Qed.

Definition worker0 : worker :=
  {| wk_mux := bare_mux; wk_services := Some (ht_put "web" web ht_empty);
     wk_fdset := {| rfds := {[3]}; event := 3; woken := false |}; wk_thread := ThreadNone; wk_running := false;
     wk_portforwardings := ht_empty; wk_pf_ids := ∅; wk_socks := ∅; wk_net := before |}.

Definition worker1 : worker := match pf_run all_accepted sample_ops worker0 with Ok w => w | Fault _ => worker0 end.

Lemma sockets_accounted_witness :
  (forall s, s ∈ live (wk_net worker1) <-> exists o, owns (live before) worker1 o s) /\
  wk_socks worker1 !! 2 = Some 6 /\
  (6 ∈ rfds (wk_fdset worker1) <-> 6 = event (wk_fdset worker1) \/
     (exists id, owns (live before) worker1 (Listening id) 6) \/
     exists id, wk_socks worker1 !! id = Some 6 /\
       exists ch, ht_get (channels (wk_mux worker1)) id = Some ch /\
         ch_type ch = ChannelType_TCP_PortForwarding /\ ch_status ch = ChannelStatus_Open) /\
  (forall error w, pf_step all_accepted (PfMux (MuxStop error)) worker1 = Ok w ->
     live (wk_net (portforwarding_worker_destroy w)) = live before ∖ {[3]}).
Proof.
  destruct (sockets_accounted all_accepted 3 0 (∅ : gset Z) (Some (ht_put "web" web ht_empty)) before
    ([] : list (list byte)) (∅ : gset Z) true sample_ops worker0 worker1) as (Hlive & _ & _ & Hset & Hend).
  - apply (bool_decide_unpack _). vm_compute. exact I.
  - reflexivity.
  - reflexivity.
  - reflexivity.
  - repeat constructor; discriminate.
  - vm_compute. reflexivity.
  - split; [exact Hlive|]. split; [vm_compute; reflexivity|]. split; [exact (Hset 6)|exact Hend].
Defined.

(** Stopping the stream closes all that was opened but the listening socket and the event
    descriptor, which go with the worker. *)
Example stop_closes_all :
  exists w, pf_run all_accepted [PfMux (MuxStop 0); PfStop] worker1 = Ok w /\
    elements (wk_net w) = elements (before ∪ {[4]}) /\
    elements (wk_net (portforwarding_worker_destroy w)) = elements (before ∖ {[3]}).
Proof. eexists. split; [vm_compute; reflexivity|]. split; by vm_compute. Qed.

(** ** What ends the process *)

(** A request without the name of a service, and data without any bytes: each is a packet
    of the peer. *)
Example peer_ends_process :
  run_worker [from_peer (frame PacketType_ChannelOpen ChannelType_TCP_PortForwarding 7 0 [])] = Fault AssertFailed /\
  run_worker [open_web; from_peer (frame PacketType_ChannelData 0 7 1 [])] = Fault AssertFailed.
Proof. split; by vm_compute. Qed.

(** The thread sets its flag when it begins, so a stop that comes before is lost and waits
    for ever; without a thread it joins a null one. *)
Example stop_before_thread :
  run_worker [PfStart 0; PfStop] = Fault Diverges /\ run_worker [PfStop] = Fault NullDeref.
Proof. split; by vm_compute. Qed.

(** A descriptor beyond the set of [select] is written past its end. *)
Example descriptor_past_set :
  pf_step all_accepted (PfOpen "ssh" PortForwardingProtocol_TCP "127.0.0.1" "2222")
    { worker0 with wk_net := list_to_set (seqZ 0 1024) } = Fault BufferOverflow.
Proof. by vm_compute. Qed.
